(* ===== verification/_CoqProject ===== *)
-Q . S2P
Prelude.v
GoLib.v
GoText.v
GoCrypto.v
GoJson.v
GoNet.v
GoNetip.v
GoUrl.v
GoUrlParse.v
AwgConfig.v
Sql.v
Queue.v
QueueSecure.v
AgentStore.v
ServerTelemetry.v
UsageQueue.v
TrafficDelivery.v
ServerModel.v
NativeAwg.v
AmneziaClient.v
Links.v
IPPool.v
ServerStore.v
StoreInvariant.v
Samples.v
Tables.v
Httpx.v
PortalStore.v
Subscriptions.v
AuthStore.v
AdminAuth.v
ClientAuth.v
Workqueue.v
Connections.v
SelfService.v
ClientApp.v
SyncProtocol.v
ServerManifest.v
SyncEngine.v
SyncConvergence.v
HysteriaSync.v
HysteriaAuth.v
AmneziaSettings.v
AwgAgent.v
ConfigDelivery.v
SettingsPath.v
StreamHub.v
AwgPeers.v
