(* ===== verification/Prelude.v ===== *)
(** * LazGate: a verification library for the agent and control plane

    LazGate manages VPN nodes.  A control plane keeps accounts, nodes and
    connections in a database and serves administrators and the owners of
    accounts over HTTP; an agent on every node pulls the credentials it should
    accept, applies settings, runs commands and reports traffic.  Messages
    between the two are kept in durable queues, because either side may be gone
    at any time.

    ** How code becomes definitions

    A pure function is a function; fallible code returns [result]; code that
    changes a database or the world is a state-passing function, [goM].  A table
    is a finite map from its key to a row, and an SQL statement a function on it
    that keeps the constraints of the schema ([Sql], [Tables]).  Times are read
    once per call of [time.Now] and are arguments, as are fresh identifiers and
    random bytes.  A Go string and a byte slice are the byte sequence [string];
    64-bit integers are [Z], with the range or the wrap-around written out where
    it matters.  Goroutines of the stream hub are atomic steps of an executable
    step function; everything else runs one call at a time.  Code outside the
    repository is a parameter with the laws it documents, and each property with
    such a law has a witness with a concrete instance: AES-GCM, bcrypt, X25519,
    IDNA, [netipx], protocol buffers ([Proto]), and the tools of the data plane.

    ** Files and what they model (paths under [src/internal])

    The language: [GoLib] (time, strings, numbers, base64; [util/time.go]),
    [GoText], [GoCrypto] (SHA-256, HMAC), [GoJson], [GoNet], [GoNetip], [GoUrl],
    [GoUrlParse].  [strings.ToLower] and [ToUpper] act on ASCII letters, except
    where case tables are a parameter ([CaseTables]).

    Queues: [Queue] ([queue/sqlstore.go], [queue/transport.go]); [QueueSecure]
    ([queue/secure.go]); [Workqueue] ([server/workqueue], [server/events],
    [server/transportdb]).

    Traffic: [AgentStore] ([agent/common/store]), [UsageQueue]
    ([agent/common/usage_queue.go]), [ServerTelemetry]
    ([server/storage/telemetry_sql.go], [server/agenttelemetry]), and
    [TrafficDelivery], the three with a network that loses, repeats and
    reorders messages.

    Control plane storage: [ServerModel] ([server/model]), [ServerStore] and
    [StoreInvariant] ([server/storage/domain_sql.go] and its neighbours),
    [PortalStore], [AuthStore] (identities, in [server/storage/sqlite.go]);
    [Samples] is a small database for witnesses.

    Credentials: [SyncProtocol] ([protocol]), [ServerManifest]
    ([server/agentprotocol], [server/hysteriaagent/protocol.go]), [SyncEngine]
    ([agent/common/sync_engine.go], [agent/*/sync]), [SyncConvergence] (an agent
    and a control plane given by the promises of their parts), [HysteriaSync]
    (those promises kept by the Hysteria agent and the database), [HysteriaAuth]
    ([legacy/agent/hysteria2/auth]).

    AmneziaWG: [AwgConfig] ([protocol/awgconfig]), [NativeAwg]
    ([server/integrations/nativeawg]), [AmneziaSettings]
    ([server/amneziasettings]), [ConfigDelivery]
    ([server/amneziaagent/delivery.go]), [AwgAgent]
    ([agent/common/grpcclient.go], [legacy/agent/amneziawg/reconcile] and
    [runtime]), [SettingsPath], the last four joined by a lossy network, and
    [AwgPeers], a credential pass of the agent and the peers of its interface
    ([agent/amneziawg/sync]).

    Streams: [StreamHub] ([server/agentprotocol/server_stream.go]).

    Services: [AmneziaClient] ([server/integrations/amnezia]), [IPPool] and
    [Connections] ([server/connections]), [Links]
    ([server/integrations/nativehy2]), [SelfService]
    ([server/clientselfservice], [server/accounts]), [Subscriptions]
    ([server/subscriptions], [server/clienttokens]), [Httpx]
    ([server/transport/http/httpx]), [AdminAuth] ([server/adminauth]),
    [ClientAuth] and [ClientApp] ([server/transport/http/client]).

    ** What is shown

    Traffic is accounted exactly once, whatever the network does, and no
    counter leaves its range.  Credentials: every pass, also one that fails
    half-way while the control plane changes, keeps the agent in step with what
    is older than its cursor, for every connection whose changes carry versions
    not older than the answer before them; a pass ends; a connection that stays
    the same during a successful pass is up to date after it, and after a pass
    over a quiet control plane exactly the clients that should get in do.  That
    the versions must keep up is no idle condition: a change committed late is
    missed by every incremental pass.  On a WireGuard interface a successful full
    pass leaves the peers of the active connections and no other, and no user is
    forgotten before its peer is gone.  Settings: what an administrator saves is
    accepted by the agent, set on the interface once and recorded as applied,
    however often messages or answers are lost; as long as the agent keeps its
    record, a repeated message is answered and not carried out again.  Streams:
    an answer goes to the request it belongs to, and a node has one open session.
    Queues: a lease is exclusive and returns what is due; sealing is transparent
    to the users of a queue and leaves nothing in clear.  Stores: the invariants of the three
    databases hold after any sequence of operations.  Access: locked-out,
    revoked and read-only principals stay so, and accounts stay within their
    policy.  Texts: configurations, links, subscriptions and QR codes read back
    as what was put in, and the signature-packet scanner accepts its grammar.
    Some theorems show that the code does not do what it means to; the
    manifest lists them as findings.

    ** Bounds and fuel

    The page loop of the synchronisation ([SyncEngine.Run]) and the search for
    a free address ([IPPool.walk]) have fuel; one page more than there are
    connections, and one step more than the pool has addresses, are proved to be
    enough.  The loop that chooses challenge positions ([ClientAuth]) has fuel
    because it need not end, and the theorem says when it does.  The fuel of the
    text functions is the length of the text.

    ** Not modelled

    Failures of a database statement other than by its constraints, and
    concurrent transactions, except where a theorem is about a change committed
    late.  TLS, gRPC, HTTP transport and the hello handshake.  The tools that run
    awg, ip and iptables, and the configuration files they edit: external
    programs and a library for ini files; what a command does to the set of
    peers is a law of [AwgPeers].  Provisioning: scripts over SSH.  The
    generator of signature packets: DNS, QUIC and STUN libraries.  Generated
    code, the conversion between rows and records, start-up and configuration.
    Pure input and output around the modelled services: the administration API,
    the reporting figures, views and static pages.  Left out for their size and
    not for a difficulty of principle: the settings of Hysteria nodes, the
    encrypting wrapper of the domain store, and the storage of runtime
    commands. *)

From Stdlib Require Export ZArith.
From stdpp Require Export base gmap strings list sorting fin_maps option.

Set Default Proof Using "Type".

(** ** Errors

    A Go function that returns [(T, error)] is a [result T].  Errors are the
    static part of the message the source builds; the formatted arguments of
    [fmt.Errorf] are dropped, and sentinel values ([ErrNotFound], ...) are
    named constants. *)
Definition error := string.

Inductive result (A : Type) :=
| Ok (a : A)
| Err (e : error).
Arguments Ok {A} a.
Arguments Err {A} e.

#[export] Instance result_ret : MRet result := fun A a => Ok a.
#[export] Instance result_bind : MBind result := fun A B f r =>
  match r with Ok a => f a | Err e => Err e end.
#[export] Instance result_fmap : FMap result := fun A B f r =>
  match r with Ok a => Ok (f a) | Err e => Err e end.

#[export] Instance result_eq_dec `{EqDecision A} : EqDecision (result A).
Proof. solve_decision. Defined.

Definition is_ok {A} (r : result A) : bool :=
  match r with Ok _ => true | Err _ => false end.

Declare Scope go_scope.
Delimit Scope go_scope with go.
Notation "'require' b 'else' e ; k" :=
  (if b then k else Err e)
  (at level 100, b at level 99, e at level 99, k at level 200,
   right associativity, only parsing) : go_scope.
Open Scope go_scope.

Lemma bind_Ok {A B} (f : A → result B) (r : result A) b :
  (r ≫= f) = Ok b → ∃ a, r = Ok a ∧ f a = Ok b.
Proof. destruct r; simpl; [eauto|discriminate]. Qed.

Lemma Ok_inj {A} (x y : A) : Ok x = Ok y → x = y.
Proof. by intros [= ->]. Qed.

Lemma fmap_Ok {A B} (f : A → B) (r : result A) b :
  f <$> r = Ok b → ∃ a, r = Ok a ∧ b = f a.
Proof. destruct r; simpl; [|discriminate]. intros [= <-]. eauto. Qed.

(** ** Loops that may fail

    [foldlR f l s] is the loop [for _, x := range l { s, err = f(s, x); if err
    != nil { return err } }]. *)
Fixpoint foldlR {S A} (f : S → A → result S) (l : list A) (s : S) : result S :=
  match l with
  | [] => Ok s
  | x :: l => s' ← f s x; foldlR f l s'
  end.

Lemma foldlR_app {S A} (f : S → A → result S) l1 l2 s :
  foldlR f (l1 ++ l2) s = s' ← foldlR f l1 s; foldlR f l2 s'.
Proof.
  revert s; induction l1 as [|x l1 IH]; intros s; simpl; [done|].
  destruct (f s x); simpl; [apply IH|done].
Qed.

(** Rule induction for a loop: an invariant of the body is one of the loop. *)
Lemma foldlR_inv {S A} (P : S → Prop) (f : S → A → result S) l s s' :
  (∀ s x s', x ∈ l → P s → f s x = Ok s' → P s') →
  P s → foldlR f l s = Ok s' → P s'.
Proof.
  revert s; induction l as [|x l IH]; intros s Hstep Hs; simpl.
  - by intros [= <-].
  - intros (s1 & Hf & Hl)%bind_Ok.
    eapply (IH s1); [|by eapply Hstep; [left|..]|done].
    intros ????. apply Hstep. by right.
Qed.

(** Total version of a loop body that cannot fail on good states. *)
Lemma foldlR_total {S A} (P : S → Prop) (f : S → A → result S) l s :
  (∀ s x, x ∈ l → P s → ∃ s', f s x = Ok s' ∧ P s') →
  P s → ∃ s', foldlR f l s = Ok s' ∧ P s'.
Proof.
  revert s; induction l as [|x l IH]; intros s Hstep Hs; simpl; [eauto|].
  destruct (Hstep s x) as (s1 & -> & Hs1); [left|done|]. simpl.
  apply IH; [|done]. intros ???. apply Hstep. by right.
Qed.

(** ** Effectful code

    [goM W A] is a Go function with side effects on the world [W] that returns
    [(A, error)].  Unlike a transaction, what it did to the world before it
    failed stays done. *)
Definition goM (W A : Type) : Type := W → W * result A.

#[export] Instance goM_ret W : MRet (goM W) := fun A a w => (w, Ok a).
#[export] Instance goM_bind W : MBind (goM W) := fun A B f m w =>
  match m w with
  | (w', Ok a) => f a w'
  | (w', Err e) => (w', Err e)
  end.

Lemma bindM_Ok {W A B} (f : A → goM W B) (m : goM W A) w w' b :
  (m ≫= f) w = (w', Ok b) → ∃ w1 a, m w = (w1, Ok a) ∧ f a w1 = (w', Ok b).
Proof. unfold mbind, goM_bind. destruct (m w) as [w1 [a|e]]; [eauto|discriminate]. Qed.

Definition failM {W A} (e : error) : goM W A := fun w => (w, Err e).
Definition liftM {W A} (r : result A) : goM W A := fun w => (w, r).

(** A database transaction: an error rolls everything back. *)
Definition transaction {W A} (f : W → result (W * A)) : goM W A := fun w =>
  match f w with
  | Ok (w', a) => (w', Ok a)
  | Err e => (w, Err e)
  end.

Lemma transaction_Ok {W A} (f : W → result (W * A)) w w' a :
  transaction f w = (w', Ok a) ↔ f w = Ok (w', a).
Proof. unfold transaction. destruct (f w) as [[]|]; naive_solver. Qed.
Lemma transaction_Err {W A} (f : W → result (W * A)) w w' e :
  transaction f w = (w', Err e) → w' = w ∧ f w = Err e.
Proof. unfold transaction. destruct (f w) as [[]|]; naive_solver. Qed.

(** A successful transaction, or no change at all. *)
Lemma transaction_inv {W A} (P : W → Prop) (f : W → result (W * A)) w :
  (∀ w' a, f w = Ok (w', a) → P w') → P w → P (transaction f w).1.
Proof. unfold transaction. intros Hf Hw. destruct (f w) as [[w' a]|e] eqn:E; simpl; eauto. Qed.

(** A query: it reads the world and leaves it alone. *)
Definition query {W A} (f : W → result A) : goM W A := fun w => (w, f w).

Fixpoint foldlM {W S A} (f : S → A → goM W S) (l : list A) (s : S) : goM W S :=
  match l with
  | [] => mret s
  | x :: l => s' ← f s x; foldlM f l s'
  end.

Definition iterM {W A} (f : A → goM W unit) (l : list A) : goM W unit :=
  foldlM (fun _ x => f x) l tt.

(** A property of the world that every step of a loop keeps, failing or not. *)
Lemma foldlM_inv {W S A} (P : W → Prop) (f : S → A → goM W S) l s w :
  (∀ s x w, x ∈ l → P w → P (f s x w).1) → P w → P (foldlM f l s w).1.
Proof.
  revert s w; induction l as [|x l IH]; intros s w Hf Hw; simpl; [done|].
  unfold mbind, goM_bind. pose proof (Hf s x w (list_elem_of_here _ _) Hw) as H1.
  destruct (f s x w) as [w1 [s1|e]]; simpl in *; [|done].
  apply IH; [|done]. intros ????. apply Hf. by right.
Qed.

(** ** Machine integers *)
Definition max_int64 : Z := 9223372036854775807.
Definition min_int64 : Z := -9223372036854775808.
Definition in_int64 (z : Z) : Prop := (min_int64 ≤ z ≤ max_int64)%Z.

(** ** Strings

    Go compares strings byte-wise; [String.le] of stdpp is that order. *)
Definition str_ltb (a b : string) : bool :=
  bool_decide (String.le a b) && bool_decide (a ≠ b).
Definition str_lt (a b : string) : Prop := String.le a b ∧ a ≠ b.

Lemma str_ltb_lt a b : str_ltb a b = true ↔ str_lt a b.
Proof.
  unfold str_ltb, str_lt. rewrite andb_true_iff, !bool_decide_eq_true. done.
Qed.

#[export] Instance str_lt_dec : RelDecision str_lt.
Proof. intros a b. unfold str_lt. apply _. Defined.

#[export] Instance str_lt_strict : StrictOrder str_lt.
Proof.
  split.
  - intros a [_ Ha]. done.
  - intros a b c [Hab Nab] [Hbc Nbc]. split; [by etrans|].
    intros ->. apply Nab. by apply (anti_symm String.le).
Qed.

Lemma str_lt_le a b : str_lt a b → String.le a b.
Proof. by intros []. Qed.

Lemma str_not_lt a b : ¬ str_lt a b → String.le b a.
Proof.
  intros H. destruct (total String.le a b) as [Hab|]; [|done].
  destruct (decide (a = b)) as [->|Hne]; [done|]. by destruct H.
Qed.

Lemma str_lt_le_trans a b c : str_lt a b → String.le b c → str_lt a c.
Proof.
  intros [Hab Nab] Hbc. split; [by etrans|].
  intros ->. apply Nab. by apply (anti_symm String.le).
Qed.

Lemma str_le_lt_trans a b c : String.le a b → str_lt b c → str_lt a c.
Proof.
  intros Hab [Hbc Nbc]. split; [by etrans|].
  intros ->. apply Nbc. by apply (anti_symm String.le).
Qed.

Lemma str_empty_lt a : a ≠ "" → str_lt "" a.
Proof. destruct a; [done|]. intros _. split; [|done]. done. Qed.

Lemma str_lt_nonempty a b : str_lt a b → b ≠ "".
Proof.
  intros [Hle Hne] ->. apply Hne. apply (anti_symm String.le); [done|]. by destruct a.
Qed.

(** ** Lists *)
Lemma StronglySorted_mono {A} (R R' : relation A) l :
  (∀ x y, R x y → R' x y) → StronglySorted R l → StronglySorted R' l.
Proof.
  intros HR. induction 1 as [|x l Hs IH Hx]; constructor; [done|].
  eapply list.Forall_impl; [exact Hx|]. auto.
Qed.

Lemma Forall2_elem_l {A B} (P : A → B → Prop) l k x :
  Forall2 P l k → x ∈ l → ∃ y, y ∈ k ∧ P x y.
Proof.
  induction 1 as [|a b l k Hab _ IH]; intros Hx; [by apply elem_of_nil in Hx|].
  apply elem_of_cons in Hx as [->|Hx]; [exists b; split; [left|done]|].
  destruct (IH Hx) as (y & Hy & HP). exists y. split; [by right|done].
Qed.

Lemma Forall2_elem_r {A B} (P : A → B → Prop) l k y :
  Forall2 P l k → y ∈ k → ∃ x, x ∈ l ∧ P x y.
Proof.
  intros H. apply Forall2_flip in H. intros Hy.
  destruct (Forall2_elem_l _ _ _ _ H Hy) as (x & Hx & HP). eauto.
Qed.

Lemma filter_none {A} (P : A → Prop) `{∀ x, Decision (P x)} l :
  Forall (fun x => ¬ P x) l → filter P l = [].
Proof. induction 1 as [|x l Hx _ IH]; [done|]. by rewrite list.filter_cons, decide_False. Qed.
