(* ===== verification/GoLib.v ===== *)
(** * GoLib: the parts of Go's standard library the program relies on

    [time] as nanoseconds, [strings] (prefixes, trimming, splitting, joining,
    case of ASCII letters), [strconv], [encoding/base64] and [encoding/hex],
    the quoting of [encoding/json], and the three helpers of
    [src/internal/util/time.go].  A Go [string] and a Go [[]byte] are both the
    byte sequence [string] of Rocq. *)

From S2P Require Import Prelude.
From Stdlib Require Import Ascii.

(** ** Time

    A [time.Time] is its number of nanoseconds since the Unix epoch; the zero
    [time.Time] is 1 January of year 1.  A [time.Duration] is a number of
    nanoseconds. *)
Module GoTime.
Local Open Scope Z_scope.

Definition time := Z.
Definition duration := Z.

Definition zero_time : time := -62135596800 * 10^9.
Definition IsZero (t : time) : bool := t =? zero_time.
Definition Add (t : time) (d : duration) : time := t + d.
Definition After (t u : time) : bool := u <? t.
Definition Before (t u : time) : bool := t <? u.

Definition Millisecond : duration := 10^6.
Definition Second : duration := 10^9.
Definition Minute : duration := 60 * Second.
Definition Hour : duration := 60 * Minute.

(** [Duration.Milliseconds] truncates towards zero; [Time.UnixMilli] rounds
    down, because the nanosecond part of a [Time] is never negative. *)
Definition Milliseconds (d : duration) : Z := Z.quot d Millisecond.
Definition TimeUnixMilli (t : time) : Z := t / Millisecond.
Definition TimeFromUnixMilli (ms : Z) : time := ms * Millisecond.

(** [util.UnixMilli], [util.UnixMilliOrNil], [util.FromUnixMilli]. *)
Definition UnixMilli (t : time) : Z :=
  if IsZero t then 0 else TimeUnixMilli t.
Definition UnixMilliOrNil (t : time) : option Z :=
  if IsZero t then None else Some (UnixMilli t).
Definition FromUnixMilli (ms : Z) : time :=
  if ms <=? 0 then zero_time else TimeFromUnixMilli ms.

Lemma TimeUnixMilli_From ms : TimeUnixMilli (TimeFromUnixMilli ms) = ms.
Proof. unfold TimeUnixMilli, TimeFromUnixMilli. by rewrite Z.div_mul. Qed.

Lemma UnixMilli_From ms : 0 < ms → UnixMilli (FromUnixMilli ms) = ms.
Proof.
  intros H. unfold UnixMilli, FromUnixMilli, IsZero.
  rewrite (proj2 (Z.leb_gt ms 0)) by lia.
  rewrite (proj2 (Z.eqb_neq _ _)); [apply TimeUnixMilli_From|].
  unfold TimeFromUnixMilli, zero_time, Millisecond. lia.
Qed.

Lemma TimeUnixMilli_mono t u : t ≤ u → TimeUnixMilli t ≤ TimeUnixMilli u.
Proof. intros. unfold TimeUnixMilli. apply Z.div_le_mono; [done|lia]. Qed.
End GoTime.
Export GoTime.

(** ** Strings *)
Module GoStrings.
(** [cut_prefix p s] is the rest of [s] after [p] when [s] begins with [p]. *)
Fixpoint cut_prefix (p s : string) : option string :=
  match p, s with
  | EmptyString, _ => Some s
  | String a p, String b s => if decide (a = b) then cut_prefix p s else None
  | String _ _, EmptyString => None
  end.
Definition HasPrefix (s p : string) : bool :=
  match cut_prefix p s with Some _ => true | None => false end.
Definition TrimPrefix (s p : string) : string :=
  default s (cut_prefix p s).

Lemma cut_prefix_append p s : cut_prefix p (p +:+ s) = Some s.
Proof. induction p as [|a p IH]; simpl; [done|]. by rewrite decide_True. Qed.

Lemma cut_prefix_Some p s r : cut_prefix p s = Some r ↔ s = p +:+ r.
Proof.
  split; [|intros ->; apply cut_prefix_append].
  revert s; induction p as [|a p IH]; intros s; simpl; [by intros [= ->]|].
  destruct s as [|b s]; [done|]. case_decide; [subst|done].
  intros H. by rewrite (IH _ H).
Qed.

Lemma HasPrefix_append p s : HasPrefix (p +:+ s) p = true.
Proof. unfold HasPrefix. by rewrite cut_prefix_append. Qed.

Lemma HasPrefix_byte s a : HasPrefix s (String a EmptyString) = true → ∃ r, s = String a r.
Proof.
  unfold HasPrefix. destruct (cut_prefix _ s) as [r|] eqn:E; [|done]. intros _.
  apply cut_prefix_Some in E. by exists r.
Qed.

Lemma TrimPrefix_append p s : TrimPrefix (p +:+ s) p = s.
Proof. unfold TrimPrefix. by rewrite cut_prefix_append. Qed.

(** [s[:n]] and [s[n:]] for [n] within bounds. *)
Fixpoint str_take (n : nat) (s : string) : string :=
  match n, s with
  | S n, String a s => String a (str_take n s)
  | _, _ => EmptyString
  end.
Fixpoint str_drop (n : nat) (s : string) : string :=
  match n, s with
  | S n, String _ s => str_drop n s
  | 0, _ => s
  | S _, EmptyString => EmptyString
  end.

Lemma str_length_append s t : String.length (s +:+ t) = String.length s + String.length t.
Proof. induction s; simpl; [done|]. by f_equal. Qed.
Lemma string_app_cons c r t : String c r +:+ t = String c (r +:+ t).
Proof. done. Qed.
Lemma string_app_nil t : EmptyString +:+ t = t.
Proof. done. Qed.
Lemma str_append_assoc s t u : (s +:+ t) +:+ u = s +:+ (t +:+ u).
Proof. induction s as [|c s IH]; [done|]. exact (f_equal (String c) IH). Qed.
Lemma str_append_nil_r s : s +:+ EmptyString = s.
Proof. induction s as [|c s IH]; [done|]. exact (f_equal (String c) IH). Qed.
Lemma str_take_append s t : str_take (String.length s) (s +:+ t) = s.
Proof. induction s; simpl; [by destruct t|]. by f_equal. Qed.
Lemma str_drop_append s t : str_drop (String.length s) (s +:+ t) = t.
Proof. induction s; simpl; [by destruct t|done]. Qed.

(** UTF-8 encodings of the code points [unicode.IsSpace] accepts. *)
Definition byte (n : nat) : string := String (ascii_of_nat n) EmptyString.
Definition bytes (l : list nat) : string :=
  foldr (fun n s => String (ascii_of_nat n) s) EmptyString l.
Definition spaces : list string :=
  (byte <$> [9; 10; 11; 12; 13; 32]) ++
  [bytes [194; 133]; bytes [194; 160]; bytes [225; 154; 128]] ++
  ((fun n => bytes [226; 128; n]) <$> seq 128 11) ++
  [bytes [226; 128; 168]; bytes [226; 128; 169]; bytes [226; 128; 175];
   bytes [226; 129; 159]; bytes [227; 128; 128]].

Fixpoint cut_any (ps : list string) (s : string) : option string :=
  match ps with
  | [] => None
  | p :: ps => match cut_prefix p s with Some r => Some r | None => cut_any ps s end
  end.

Fixpoint trim_left (ps : list string) (fuel : nat) (s : string) : string :=
  match fuel with
  | 0 => s
  | S fuel => match cut_any ps s with Some r => trim_left ps fuel r | None => s end
  end.

(** [strings.TrimSpace]: every encoding is at least one byte long, so the
    length of the string is enough fuel on each side. *)
Definition TrimSpace (s : string) : string :=
  let s1 := trim_left spaces (String.length s) s in
  String.rev (trim_left (String.rev <$> spaces) (String.length s1) (String.rev s1)).

Lemma rev_app_append s t : String.rev_app s t = String.rev s +:+ t.
Proof.
  unfold String.rev. assert (H : ∀ s t u, String.rev_app s (t +:+ u) = String.rev_app s t +:+ u).
  { clear. induction s as [|a s IH]; intros t u; [done|]. cbn. exact (IH (String a t) u). }
  by rewrite <-H.
Qed.

Lemma str_rev_cons a s : String.rev (String a s) = String.rev s +:+ String a EmptyString.
Proof. unfold String.rev. cbn. by rewrite rev_app_append. Qed.

Lemma str_rev_append s t : String.rev (s +:+ t) = String.rev t +:+ String.rev s.
Proof.
  induction s as [|a s IH]; [by rewrite str_append_nil_r|].
  rewrite string_app_cons, !str_rev_cons, IH. by rewrite str_append_assoc.
Qed.

Lemma str_rev_involutive s : String.rev (String.rev s) = s.
Proof. induction s as [|a s IH]; [done|]. by rewrite str_rev_cons, str_rev_append, IH. Qed.

Lemma cut_any_Some ps s r : cut_any ps s = Some r → ∃ p, p ∈ ps ∧ s = p +:+ r.
Proof.
  induction ps as [|p ps IH]; cbn; [done|]. destruct (cut_prefix p s) eqn:E.
  - intros [= ->]. apply cut_prefix_Some in E. exists p. split; [by left|done].
  - intros (q & Hq & ->)%IH. exists q. split; [by right|done].
Qed.

Lemma cut_any_None_prefix ps r t : cut_any ps (r +:+ t) = None → cut_any ps r = None.
Proof.
  induction ps as [|p ps IH]; cbn; [done|].
  destruct (cut_prefix p (r +:+ t)) eqn:E; [done|]. intros H.
  destruct (cut_prefix p r) eqn:E'; [|by apply IH].
  apply cut_prefix_Some in E' as ->. by rewrite str_append_assoc, cut_prefix_append in E.
Qed.

Lemma trim_left_suffix ps fuel s : ∃ l, s = l +:+ trim_left ps fuel s.
Proof.
  revert s. induction fuel as [|fuel IH]; intros s; [by exists EmptyString|]. cbn.
  destruct (cut_any ps s) as [r|] eqn:E; [|by exists EmptyString].
  apply cut_any_Some in E as (p & _ & ->). destruct (IH r) as [l Hl].
  exists (p +:+ l). by rewrite str_append_assoc, <-Hl.
Qed.

Lemma trim_left_done ps fuel s :
  Forall (fun p => p ≠ EmptyString) ps → String.length s ≤ fuel → cut_any ps (trim_left ps fuel s) = None.
Proof.
  intros Hps. revert s. induction fuel as [|fuel IH]; intros s Hl; cbn.
  - destruct s; [|cbn in Hl; lia]. destruct (cut_any ps EmptyString) as [r|] eqn:E; [|done].
    apply cut_any_Some in E as (p & Hp & E). rewrite list.Forall_forall in Hps. specialize (Hps p Hp).
    by destruct p.
  - destruct (cut_any ps s) as [r|] eqn:E; [|done]. apply IH.
    apply cut_any_Some in E as (p & Hp & ->). rewrite list.Forall_forall in Hps. specialize (Hps p Hp).
    rewrite str_length_append in Hl. destruct p; [done|]. cbn in Hl. lia.
Qed.

Lemma trim_left_id ps fuel s : cut_any ps s = None → trim_left ps fuel s = s.
Proof. destruct fuel; [done|]. cbn. by intros ->. Qed.

Lemma TrimSpace_idem s : TrimSpace (TrimSpace s) = TrimSpace s.
Proof.
  unfold TrimSpace at 2 3. cbv zeta. set (s1 := trim_left spaces (String.length s) s).
  set (x := trim_left (String.rev <$> spaces) (String.length s1) (String.rev s1)).
  assert (Hs1 : cut_any spaces s1 = None) by (apply trim_left_done; [by repeat constructor|done]).
  assert (Hx : cut_any (String.rev <$> spaces) x = None).
  { unfold x. apply trim_left_done; [by repeat constructor|].
    assert (H : ∀ t, String.length (String.rev t) = String.length t).
    { induction t as [|c t IH]; [done|]. rewrite str_rev_cons, str_length_append, IH. cbn. lia. }
    by rewrite H. }
  assert (Hr : cut_any spaces (String.rev x) = None).
  { destruct (trim_left_suffix (String.rev <$> spaces) (String.length s1) (String.rev s1)) as [l Hl].
    fold x in Hl. apply (f_equal String.rev) in Hl. rewrite str_rev_involutive, str_rev_append in Hl.
    rewrite Hl in Hs1. by apply cut_any_None_prefix in Hs1. }
  unfold TrimSpace. rewrite (trim_left_id spaces) by done. by rewrite str_rev_involutive, trim_left_id.
Qed.

(** A text that begins and ends with a visible ASCII character is not trimmed. *)
Definition visible (c : ascii) : bool := (33 <=? nat_of_ascii c) && (nat_of_ascii c <=? 126).

Lemma cut_any_visible ps c r :
  Forall (fun p => match p with String a _ => visible a = false | EmptyString => False end) ps →
  visible c = true → cut_any ps (String c r) = None.
Proof.
  intros Hps Hc. induction Hps as [|p ps Hp _ IH]; [done|]. cbn [cut_any]. destruct p as [|a p]; [done|].
  cbn [cut_prefix]. destruct (decide (a = c)) as [->|Hne]; [congruence|].
  destruct (Ascii.ascii_dec a c); [congruence|]. exact IH.
Qed.

Lemma TrimSpace_visible c s d : visible c = true → visible d = true →
  TrimSpace (String c (s +:+ String d EmptyString)) = String c (s +:+ String d EmptyString).
Proof.
  intros Hc Hd. unfold TrimSpace. cbv zeta.
  rewrite (trim_left_id spaces) by (apply cut_any_visible; [by repeat constructor|done]).
  rewrite trim_left_id; [apply str_rev_involutive|].
  change (String c (s +:+ String d EmptyString)) with (String c s +:+ String d EmptyString).
  rewrite str_rev_append. apply cut_any_visible; [by repeat constructor|done].
Qed.

Lemma str_last_byte c s : ∃ t d, String c s = t +:+ String d EmptyString.
Proof.
  revert c. induction s as [|a s IH]; intros c; [by exists EmptyString, c|].
  destruct (IH a) as (t & d & E). exists (String c t), d. by rewrite string_app_cons, <-E.
Qed.

(** [strings.ToLower] and [strings.ToUpper] on ASCII text; a byte outside
    ASCII is left as it is. *)
Definition lower_char (c : ascii) : ascii :=
  let n := nat_of_ascii c in
  if (65 <=? n)%nat && (n <=? 90)%nat then ascii_of_nat (n + 32) else c.
Definition upper_char (c : ascii) : ascii :=
  let n := nat_of_ascii c in
  if (97 <=? n)%nat && (n <=? 122)%nat then ascii_of_nat (n - 32) else c.
Fixpoint map_string (f : ascii → ascii) (s : string) : string :=
  match s with EmptyString => EmptyString | String c s => String (f c) (map_string f s) end.
Definition ToLower (s : string) : string := map_string lower_char s.
Definition ToUpper (s : string) : string := map_string upper_char s.

(** [strings.Split] with a one-byte separator: always at least one part. *)
Fixpoint Split (c : ascii) (s : string) : list string :=
  match s with
  | EmptyString => [EmptyString]
  | String a s =>
      if bool_decide (a = c) then EmptyString :: Split c s
      else match Split c s with
           | p :: ps => String a p :: ps
           | [] => [String a EmptyString]
           end
  end.

Fixpoint Join (sep : string) (l : list string) : string :=
  match l with
  | [] => EmptyString
  | [s] => s
  | s :: l => s +:+ sep +:+ Join sep l
  end.

Fixpoint contains_byte (c : ascii) (s : string) : bool :=
  match s with EmptyString => false | String a s => bool_decide (a = c) || contains_byte c s end.

(** [strings.ContainsAny] for ASCII sets. *)
Definition ContainsAny (s : string) (cs : list ascii) : bool := existsb (fun c => contains_byte c s) cs.

Definition HasSuffix (s p : string) : bool := HasPrefix (String.rev s) (String.rev p).
Definition TrimSuffix (s p : string) : string :=
  match cut_prefix (String.rev p) (String.rev s) with Some r => String.rev r | None => s end.

Lemma contains_byte_append c s t : contains_byte c (s +:+ t) = contains_byte c s || contains_byte c t.
Proof.
  induction s as [|a s IH]; [done|]. change (String a s +:+ t) with (String a (s +:+ t)).
  cbn. rewrite IH. by rewrite orb_assoc.
Qed.

(** A text of visible ASCII characters is not trimmed. *)
Lemma TrimSpace_free s : (∀ c, visible c = false → contains_byte c s = false) → TrimSpace s = s.
Proof.
  intros H. destruct s as [|c [|a s]]; [done|..].
  - assert (Hc : visible c = true).
    { destruct (visible c) eqn:E; [done|]. specialize (H c E). cbn in H. by rewrite bool_decide_eq_true_2 in H. }
    unfold TrimSpace. cbv zeta. rewrite (trim_left_id spaces) by (apply cut_any_visible; [by repeat constructor|done]).
    rewrite trim_left_id; [apply str_rev_involutive|]. apply cut_any_visible; [by repeat constructor|done].
  - destruct (str_last_byte a s) as (t & d & E). rewrite E in *. apply TrimSpace_visible.
    + destruct (visible c) eqn:Ec; [done|]. specialize (H c Ec). cbn in H. by rewrite bool_decide_eq_true_2 in H.
    + destruct (visible d) eqn:Ed; [done|]. specialize (H d Ed). cbn [contains_byte] in H. rewrite contains_byte_append in H.
      cbn [contains_byte] in H. rewrite (bool_decide_eq_true_2 (d = d)) in H by done. by rewrite !orb_true_r in H.
Qed.

Lemma contains_byte_rev c s : contains_byte c (String.rev s) = contains_byte c s.
Proof. induction s as [|a s IH]; [done|]. rewrite str_rev_cons, contains_byte_append, IH. cbn. by rewrite orb_false_r, orb_comm. Qed.

Lemma Split_cons c s : ∃ p ps, Split c s = p :: ps.
Proof. induction s as [|a s (p & ps & IH)]; cbn; [by eauto|]. rewrite IH. case_match; by eauto. Qed.

Lemma Split_append c s t :
  contains_byte c s = false →
  Split c (s +:+ t) = match Split c t with p :: ps => (s +:+ p) :: ps | [] => [s] end.
Proof.
  intros Hs. induction s as [|a s IH].
  - destruct (Split_cons c t) as (p & ps & E). by rewrite E.
  - cbn in Hs. apply orb_false_iff in Hs as [Ha Hs].
    change (String a s +:+ t) with (String a (s +:+ t)). cbn. rewrite Ha, IH by done.
    destruct (Split_cons c t) as (p & ps & E). by rewrite E.
Qed.

Lemma Split_none c s : contains_byte c s = false → Split c s = [s].
Proof.
  intros Hs. rewrite <-(str_append_nil_r s) at 1. rewrite Split_append by done. cbn.
  by rewrite str_append_nil_r.
Qed.

(** Lines without the separator survive joining and splitting. *)
Lemma Split_Join c l :
  l ≠ [] → Forall (fun s => contains_byte c s = false) l →
  Split c (Join (String c EmptyString) l) = l.
Proof.
  intros Hl. induction 1 as [|s l Hs Hf IH]; [done|]. destruct l as [|s' l]; [by apply Split_none|].
  change (Join (String c EmptyString) (s :: s' :: l)) with
    (s +:+ String c (Join (String c EmptyString) (s' :: l))).
  rewrite Split_append by done. cbn [Split]. rewrite bool_decide_eq_true_2, IH by done.
  by rewrite str_append_nil_r.
Qed.

Example TrimSpace_ex : TrimSpace (" a b" +:+ bytes [194; 160; 10]) = "a b".
Proof. reflexivity. Qed.
End GoStrings.
Export GoStrings.

(** ** [encoding/base64]: the standard alphabet

    A byte is its eight bits, a base64 digit a sextet.  [EncodeStd] is
    [base64.StdEncoding.EncodeToString], [EncodeRaw] is
    [base64.RawStdEncoding.EncodeToString] (no padding); the decoders return
    the bytes and [false] where Go returns a [CorruptInputError] with them.  As Go does, they skip
    carriage returns and line feeds and ignore trailing non-zero bits. *)
Module Base64.
Record sextet := Sextet { x5 : bool; x4 : bool; x3 : bool; x2 : bool; x1 : bool; x0 : bool }.

Definition index (x : sextet) : N :=
  let b (v : bool) (n : N) := if v then n else 0%N in
  (b (x5 x) 32 + b (x4 x) 16 + b (x3 x) 8 + b (x2 x) 4 + b (x1 x) 2 + b (x0 x) 1)%N.

Definition char_of (x : sextet) : ascii :=
  let n := index x in
  ascii_of_N
    (if (n <? 26)%N then n + 65 else if (n <? 52)%N then n + 71
     else if (n <? 62)%N then n - 4 else if (n =? 62)%N then 43 else 47)%N.

Definition of_index (n : N) : sextet :=
  Sextet (N.testbit n 5) (N.testbit n 4) (N.testbit n 3)
         (N.testbit n 2) (N.testbit n 1) (N.testbit n 0).

Definition sextet_of (c : ascii) : option sextet :=
  let n := N_of_ascii c in
  let within lo hi := ((lo <=? n) && (n <=? hi))%N in
  if within 65%N 90%N then Some (of_index (n - 65))
  else if within 97%N 122%N then Some (of_index (n - 71))
  else if within 48%N 57%N then Some (of_index (n + 4))
  else if (n =? 43)%N then Some (of_index 62)
  else if (n =? 47)%N then Some (of_index 63)
  else None.

Definition pad : ascii := "="%char.

Lemma sextet_char x : sextet_of (char_of x) = Some x.
Proof. destruct x as [[] [] [] [] [] []]; reflexivity. Qed.

(** The four digits of three bytes, bit by bit. *)
Definition dig1 (a : ascii) : sextet :=
  let 'Ascii a0 a1 a2 a3 a4 a5 a6 a7 := a in Sextet a7 a6 a5 a4 a3 a2.
Definition dig2 (a b : ascii) : sextet :=
  let 'Ascii a0 a1 _ _ _ _ _ _ := a in
  let 'Ascii _ _ _ _ b4 b5 b6 b7 := b in Sextet a1 a0 b7 b6 b5 b4.
Definition dig3 (b c : ascii) : sextet :=
  let 'Ascii b0 b1 b2 b3 _ _ _ _ := b in
  let 'Ascii _ _ _ _ _ _ c6 c7 := c in Sextet b3 b2 b1 b0 c7 c6.
Definition dig4 (c : ascii) : sextet :=
  let 'Ascii c0 c1 c2 c3 c4 c5 _ _ := c in Sextet c5 c4 c3 c2 c1 c0.

Definition byte1 (p q : sextet) : ascii :=
  Ascii (x4 q) (x5 q) (x0 p) (x1 p) (x2 p) (x3 p) (x4 p) (x5 p).
Definition byte2 (q r : sextet) : ascii :=
  Ascii (x2 r) (x3 r) (x4 r) (x5 r) (x0 q) (x1 q) (x2 q) (x3 q).
Definition byte3 (r s : sextet) : ascii :=
  Ascii (x0 s) (x1 s) (x2 s) (x3 s) (x4 s) (x5 s) (x0 r) (x1 r).

Fixpoint encode (padded : bool) (s : string) : string :=
  match s with
  | String a (String b (String c r)) =>
      String (char_of (dig1 a)) (String (char_of (dig2 a b))
        (String (char_of (dig3 b c)) (String (char_of (dig4 c)) (encode padded r))))
  | String a (String b EmptyString) =>
      String (char_of (dig1 a)) (String (char_of (dig2 a b))
        (String (char_of (dig3 b zero)) (if padded then String pad EmptyString else EmptyString)))
  | String a EmptyString =>
      String (char_of (dig1 a)) (String (char_of (dig2 a zero))
        (if padded then String pad (String pad EmptyString) else EmptyString))
  | EmptyString => EmptyString
  end.

Fixpoint skip_newlines (s : string) : string :=
  match s with
  | EmptyString => EmptyString
  | String c r =>
      if bool_decide (c = "010"%char) || bool_decide (c = "013"%char)
      then skip_newlines r else String c (skip_newlines r)
  end.

(** One step of [decodeQuantum]: the bytes decoded and whether the input was
    well formed; on an error the bytes of the quanta before it are kept. *)
Fixpoint decode_quanta (padded : bool) (s : string) : string * bool :=
  let corrupt := (EmptyString, false) in
  match s with
  | EmptyString => (EmptyString, true)
  | String p (String q (String r (String t rest))) =>
      if padded && bool_decide (t = pad) then
        let fine := bool_decide (rest = EmptyString) in
        match sextet_of p, sextet_of q, bool_decide (r = pad), sextet_of r with
        | Some p, Some q, true, _ => (String (byte1 p q) EmptyString, fine)
        | Some p, Some q, false, Some r =>
            (String (byte1 p q) (String (byte2 q r) EmptyString), fine)
        | _, _, _, _ => corrupt
        end
      else
        match sextet_of p, sextet_of q, sextet_of r, sextet_of t with
        | Some p, Some q, Some r, Some t =>
            let '(tl, fine) := decode_quanta padded rest in
            (String (byte1 p q) (String (byte2 q r) (String (byte3 r t) tl)), fine)
        | _, _, _, _ => corrupt
        end
  | String p (String q (String r EmptyString)) =>
      match sextet_of p, sextet_of q, sextet_of r with
      | Some p, Some q, Some r =>
          if padded then corrupt
          else (String (byte1 p q) (String (byte2 q r) EmptyString), true)
      | _, _, _ => corrupt
      end
  | String p (String q EmptyString) =>
      match sextet_of p, sextet_of q with
      | Some p, Some q =>
          if padded then corrupt else (String (byte1 p q) EmptyString, true)
      | _, _ => corrupt
      end
  | String _ EmptyString => corrupt
  end.

Definition EncodeStd : string → string := encode true.
Definition EncodeRaw : string → string := encode false.
Definition DecodeStd (s : string) : string * bool := decode_quanta true (skip_newlines s).
Definition DecodeRaw (s : string) : string * bool := decode_quanta false (skip_newlines s).

Example encode_ex : EncodeStd "hello" = "aGVsbG8=".
Proof. reflexivity. Qed.
Example decode_ex : DecodeStd ("aGVs" +:+ String "010"%char "bG8=") = ("hello", true).
Proof. reflexivity. Qed.
Lemma char_plain x :
  bool_decide (char_of x = pad) = false ∧
  bool_decide (char_of x = "010"%char) || bool_decide (char_of x = "013"%char) = false.
Proof. destruct x as [[] [] [] [] [] []]; split; reflexivity. Qed.

Lemma char_not_pad x : bool_decide (char_of x = pad) = false.
Proof. apply char_plain. Qed.

Lemma char_not_newline x :
  bool_decide (char_of x = "010"%char) || bool_decide (char_of x = "013"%char) = false.
Proof. apply char_plain. Qed.

Lemma byte1_dig a b : byte1 (dig1 a) (dig2 a b) = a.
Proof. by destruct a, b. Qed.
Lemma byte2_dig a b c : byte2 (dig2 a b) (dig3 b c) = b.
Proof. by destruct a, b, c. Qed.
Lemma byte3_dig b c : byte3 (dig3 b c) (dig4 c) = c.
Proof. by destruct b, c. Qed.

(** Strings in groups of three bytes, the recursion scheme of [encode]. *)
Lemma string_ind3 (P : string → Prop) :
  P EmptyString → (∀ a, P (String a EmptyString)) →
  (∀ a b, P (String a (String b EmptyString))) →
  (∀ a b c s, P s → P (String a (String b (String c s)))) → ∀ s, P s.
Proof.
  intros H0 H1 H2 H3.
  fix IH 1. intros [|a [|b [|c s]]]; [done|apply H1|apply H2|]. apply H3, IH.
Qed.

Lemma skip_encode padded s : skip_newlines (encode padded s) = encode padded s.
Proof.
  induction s using string_ind3; simpl; destruct padded;
    simpl; rewrite ?char_not_newline; simpl; congruence.
Qed.

Lemma decode_encode padded s : decode_quanta padded (encode padded s) = (s, true).
Proof.
  induction s as [|a|a b|a b c s IH] using string_ind3; simpl; [done|..];
    destruct padded; simpl; rewrite ?char_not_pad; simpl;
    rewrite ?sextet_char; simpl; rewrite ?IH; simpl;
    by rewrite ?byte1_dig, ?byte2_dig, ?byte3_dig.
Qed.

Lemma DecodeStd_EncodeStd s : DecodeStd (EncodeStd s) = (s, true).
Proof. unfold DecodeStd, EncodeStd. by rewrite skip_encode, decode_encode. Qed.

Lemma DecodeRaw_EncodeRaw s : DecodeRaw (EncodeRaw s) = (s, true).
Proof. unfold DecodeRaw, EncodeRaw. by rewrite skip_encode, decode_encode. Qed.

Lemma encode_empty padded s : encode padded s = EmptyString ↔ s = EmptyString.
Proof. split; [|by intros ->]. destruct s as [|? [|? [|? ?]]]; done. Qed.
End Base64.

(** ** [encoding/hex] *)
Module Hex.
Definition digit (c : ascii) : option nat :=
  let n := nat_of_ascii c in
  if (48 <=? n) && (n <=? 57) then Some (n - 48)
  else if (97 <=? n) && (n <=? 102) then Some (n - 87)
  else if (65 <=? n) && (n <=? 70) then Some (n - 55)
  else None.

Lemma digit_range c n : digit c = Some n → n < 16.
Proof.
  unfold digit. cbv zeta. repeat match goal with |- context [if ?b then _ else _] => destruct b eqn:? end; try done;
    intros [= <-]; repeat match goal with H : _ && _ = true |- _ => apply andb_prop in H as [? ?%Nat.leb_le] end; lia.
Qed.

(** [hex.DecodeString]; [None] is its error. *)
Fixpoint DecodeString (s : string) : option string :=
  match s with
  | EmptyString => Some EmptyString
  | String a (String b s) =>
      x ← digit a; y ← digit b; r ← DecodeString s;
      Some (String (ascii_of_nat (16 * x + y)) r)
  | String _ EmptyString => None
  end.

Example DecodeString_ex : DecodeString "6869" = Some "hi" ∧ DecodeString "686" = None.
Proof. done. Qed.
End Hex.

(** ** [strconv]: decimal integers *)
Module Strconv.
Local Open Scope Z_scope.

Definition digit_char (d : Z) : ascii := ascii_of_nat (48 + Z.to_nat d).
Definition digit_val (c : ascii) : option Z :=
  let n := Z.of_nat (nat_of_ascii c) in
  if (48 <=? n) && (n <=? 57) then Some (n - 48) else None.

(** The decimal digits of [n >= 0] in front of [acc]. *)
Fixpoint digits (fuel : nat) (n : Z) (acc : string) : string :=
  match fuel with
  | O => acc
  | S fuel =>
      let acc := String (digit_char (n mod 10)) acc in
      if n <? 10 then acc else digits fuel (n / 10) acc
  end.

(** A number below [10 ^ k] has at most [k] digits; [1 + log2 n] is enough. *)
Definition digit_fuel (n : Z) : nat := S (Z.to_nat (Z.log2 n)).

Definition FormatInt (n : Z) : string :=
  if n <? 0 then String "-" (digits (digit_fuel (- n)) (- n) EmptyString)
  else digits (digit_fuel n) n EmptyString.

Fixpoint parse_digits (v : Z) (s : string) : option Z :=
  match s with
  | EmptyString => Some v
  | String c s => d ← digit_val c; parse_digits (10 * v + d) s
  end.

Definition ErrSyntax : error := "invalid syntax".
Definition ErrRange : error := "value out of range".

Definition in_range (v : Z) : result Z := if bool_decide (in_int64 v) then Ok v else Err ErrRange.

Definition parse_unsigned (s : string) : option Z :=
  match s with EmptyString => None | _ => parse_digits 0 s end.

(** [strconv.ParseInt(s, 10, 64)] *)
Definition ParseInt (s : string) : result Z :=
  match s with
  | EmptyString => Err ErrSyntax
  | String c rest =>
      if bool_decide (c = "-"%char) then
        match parse_unsigned rest with Some v => in_range (- v) | None => Err ErrSyntax end
      else if bool_decide (c = "+"%char) then
        match parse_unsigned rest with Some v => in_range v | None => Err ErrSyntax end
      else match parse_unsigned s with Some v => in_range v | None => Err ErrSyntax end
  end.

Lemma digit_val_range c d : digit_val c = Some d → 0 <= d < 10.
Proof.
  unfold digit_val. destruct (_ && _) eqn:E; [|done]. apply andb_prop in E as [H1%Z.leb_le H2%Z.leb_le].
  intros [= <-]. lia.
Qed.

Lemma parse_digits_nonneg s v n : 0 <= v → parse_digits v s = Some n → 0 <= n.
Proof.
  revert v. induction s as [|c s IH]; intros v Hv; cbn; [by intros [= <-]|].
  destruct (digit_val c) as [d|] eqn:E; [|done]. apply digit_val_range in E. cbn. apply IH. lia.
Qed.

Lemma parse_unsigned_nonneg s n : parse_unsigned s = Some n → 0 <= n.
Proof. destruct s; [done|]. by apply parse_digits_nonneg. Qed.

Lemma digit_val_char d : 0 <= d < 10 → digit_val (digit_char d) = Some d.
Proof.
  intros Hd. unfold digit_val, digit_char. rewrite nat_ascii_embedding by lia.
  rewrite Nat2Z.inj_add, Z2Nat.id by lia. cbn [Z.of_nat].
  change (Z.of_nat 48) with 48. rewrite (proj2 (Z.leb_le _ _)), (proj2 (Z.leb_le _ _)) by lia.
  cbn [andb]. f_equal. lia.
Qed.

Lemma parse_digits_digits fuel n acc :
  0 <= n → (n < 10 ^ Z.of_nat fuel) → (fuel ≠ 0)%nat →
  ∃ k, 0 <= k ∧ ∀ v, parse_digits v (digits fuel n acc) = parse_digits (v * 10 ^ k + n) acc.
Proof.
  revert n acc. induction fuel as [|fuel IH]; intros n acc Hn Hlt Hf; [done|]. cbn [digits].
  pose proof (Z.mod_pos_bound n 10 ltac:(lia)) as Hm.
  destruct (n <? 10) eqn:E.
  - apply Z.ltb_lt in E. exists 1. split; [lia|]. intros v. cbn [parse_digits].
    rewrite digit_val_char, Z.mod_small by lia. cbn. f_equal. lia.
  - apply Z.ltb_ge in E.
    assert (Hfuel : (fuel ≠ 0)%nat) by (intros ->; simpl in Hlt; lia).
    rewrite Nat2Z.inj_succ, Z.pow_succ_r in Hlt by lia.
    destruct (IH (n / 10) (String (digit_char (n mod 10)) acc)) as (k & Hk & Hgo);
      [apply Z.div_pos; lia|apply Z.div_lt_upper_bound; lia|done|].
    exists (k + 1). split; [lia|]. intros v. rewrite Hgo. cbn [parse_digits].
    rewrite digit_val_char by lia. cbn. f_equal. rewrite Z.pow_add_r by lia.
    pose proof (Z.div_mod n 10 ltac:(lia)). lia.
Qed.

Lemma digit_fuel_enough n : 0 <= n → n < 10 ^ Z.of_nat (digit_fuel n).
Proof.
  intros Hn. unfold digit_fuel. rewrite Nat2Z.inj_succ.
  destruct (decide (n = 0)) as [->|Hz]; [done|].
  pose proof (Z.log2_nonneg n). rewrite Z2Nat.id by lia.
  pose proof (Z.log2_spec n ltac:(lia)) as [_ Hlog].
  eapply Z.lt_le_trans; [exact Hlog|]. apply Z.pow_le_mono_l. lia.
Qed.

Lemma parse_digits_format n :
  0 <= n → parse_digits 0 (digits (digit_fuel n) n EmptyString) = Some n.
Proof.
  intros Hn.
  destruct (parse_digits_digits (digit_fuel n) n EmptyString) as (k & _ & Hk);
    [done|by apply digit_fuel_enough|done|]. rewrite Hk. done.
Qed.

(** The first character of the digits is a digit, in particular no sign. *)
Lemma digits_head fuel n acc :
  0 <= n → (fuel ≠ 0)%nat → ∃ d rest, 0 <= d < 10 ∧ digits fuel n acc = String (digit_char d) rest.
Proof.
  revert n acc. induction fuel as [|fuel IH]; intros n acc Hn Hf; [done|]. cbn [digits].
  pose proof (Z.mod_pos_bound n 10 ltac:(lia)).
  destruct (n <? 10); [by eexists _, _|].
  destruct fuel as [|fuel]; [by eexists _, _|]. apply IH; [|done]. apply Z.div_pos; lia.
Qed.

(** Without a leading zero. *)
Lemma digits_head_nonzero fuel n acc :
  0 < n → n < 10 ^ Z.of_nat fuel →
  ∃ d rest, 1 <= d < 10 ∧ digits fuel n acc = String (digit_char d) rest.
Proof.
  revert n acc. induction fuel as [|fuel IH]; intros n acc Hn Hf; [cbn in Hf; lia|]. cbn [digits].
  destruct (n <? 10) eqn:E.
  - apply Z.ltb_lt in E. eexists _, _. split; [|done]. rewrite Z.mod_small; lia.
  - apply Z.ltb_ge in E. rewrite Nat2Z.inj_succ, Z.pow_succ_r in Hf by lia. apply IH.
    + apply Z.div_str_pos. lia.
    + apply Z.div_lt_upper_bound; lia.
Qed.

Lemma digit_char_no_sign d : 0 <= d < 10 → digit_char d ≠ "-"%char ∧ digit_char d ≠ "+"%char.
Proof.
  intros Hd. pose proof (digit_val_char d Hd) as Hv.
  split; intros E; rewrite E in Hv; vm_compute in Hv; discriminate.
Qed.

(** A decimal text holds digits and a sign only. *)
Lemma digits_contains c fuel n acc :
  digit_val c = None → GoStrings.contains_byte c acc = false →
  GoStrings.contains_byte c (digits fuel n acc) = false.
Proof.
  intros Hc. revert n acc. induction fuel as [|fuel IH]; intros n acc Ha; [done|]. cbn [digits].
  assert (Hs : GoStrings.contains_byte c (String (digit_char (n mod 10)) acc) = false).
  { cbn [GoStrings.contains_byte]. rewrite Ha, bool_decide_eq_false_2; [done|]. intros <-.
    rewrite digit_val_char in Hc; [done|]. apply Z.mod_pos_bound. lia. }
  destruct (n <? 10); [done|]. by apply IH.
Qed.

Lemma FormatInt_contains c n :
  digit_val c = None → c ≠ "-"%char → GoStrings.contains_byte c (FormatInt n) = false.
Proof.
  intros Hc Hm. unfold FormatInt. destruct (n <? 0); [|by apply digits_contains].
  cbn [GoStrings.contains_byte]. rewrite bool_decide_eq_false_2 by congruence. by apply digits_contains.
Qed.

Lemma ParseInt_FormatInt n : in_int64 n → ParseInt (FormatInt n) = Ok n.
Proof.
  intros Hr. unfold FormatInt. destruct (n <? 0) eqn:E.
  - apply Z.ltb_lt in E. destruct (digits_head (digit_fuel (- n)) (- n) EmptyString) as (d & rest & _ & Hd);
      [lia|done|].
    cbn [ParseInt]. rewrite bool_decide_eq_true_2 by done. unfold parse_unsigned.
    pose proof (parse_digits_format (- n) ltac:(lia)) as Hp. rewrite Hd in *. rewrite Hp.
    unfold in_range. rewrite Z.opp_involutive. by rewrite bool_decide_eq_true_2.
  - apply Z.ltb_ge in E. destruct (digits_head (digit_fuel n) n EmptyString) as (d & rest & Hb & Hd);
      [lia|done|].
    pose proof (parse_digits_format n E) as Hp. rewrite Hd in *.
    destruct (digit_char_no_sign d Hb) as [H1 H2]. cbn [ParseInt].
    rewrite (bool_decide_eq_false_2 _ H1), (bool_decide_eq_false_2 _ H2).
    unfold parse_unsigned, in_range. rewrite Hp. by rewrite bool_decide_eq_true_2.
Qed.
End Strconv.

(** ** Text of a time

    [t.UTC().Format(time.RFC3339Nano)]: the proleptic Gregorian date, the time
    of day, and the fraction of a second without its trailing zeros. *)
Module TimeText.
Local Open Scope Z_scope.
Import GoTime.

(** Year, month and day of a day number counted from 1 January 1970. *)
Definition civil (day : Z) : Z * Z * Z :=
  let z := day + 719468 in
  let era := z / 146097 in
  let doe := z - era * 146097 in
  let yoe := (doe - doe / 1460 + doe / 36524 - doe / 146096) / 365 in
  let doy := doe - (365 * yoe + yoe / 4 - yoe / 100) in
  let mp := (5 * doy + 2) / 153 in
  let d := doy - (153 * mp + 2) / 5 + 1 in
  let m := if mp <? 10 then mp + 3 else mp - 9 in
  (yoe + era * 400 + (if m <=? 2 then 1 else 0), m, d).

(** The [w] low decimal digits of [n]. *)
Fixpoint pad (w : nat) (n : Z) (acc : string) : string :=
  match w with
  | O => acc
  | S w => pad w (n / 10) (String (Strconv.digit_char (n mod 10)) acc)
  end.

Fixpoint trim_zeros (s : string) : string :=
  match s with
  | EmptyString => EmptyString
  | String c s =>
      match trim_zeros s with
      | EmptyString => if bool_decide (c = "0"%char) then EmptyString else String c EmptyString
      | s' => String c s'
      end
  end.

Definition year_text (y : Z) : string :=
  if y <? 0 then "-" +:+ pad 4 (- y) ""
  else if y <? 10000 then pad 4 y "" else Strconv.FormatInt y.

Definition fraction_text (nanos : Z) : string :=
  match trim_zeros (pad 9 nanos "") with EmptyString => EmptyString | s => "." +:+ s end.

Definition RFC3339Nano (t : time) : string :=
  let seconds := t / Second in
  let day := seconds / 86400 in
  let sod := seconds mod 86400 in
  let '(y, m, d) := civil day in
  year_text y +:+ "-" +:+ pad 2 m "" +:+ "-" +:+ pad 2 d "" +:+ "T" +:+
  pad 2 (sod / 3600) "" +:+ ":" +:+ pad 2 (sod / 60 mod 60) "" +:+ ":" +:+
  pad 2 (sod mod 60) "" +:+ fraction_text (t mod Second) +:+ "Z".

Lemma RFC3339Nano_samples :
  RFC3339Nano 0 = "1970-01-01T00:00:00Z" ∧
  RFC3339Nano 951782400500000000 = "2000-02-29T00:00:00.5Z" ∧
  RFC3339Nano zero_time = "0001-01-01T00:00:00Z" ∧
  RFC3339Nano 1767225599000000001 = "2025-12-31T23:59:59.000000001Z".
Proof. vm_compute. done. Qed.
End TimeText.

(** ** [encoding/json]: a string literal

    [json.Marshal] of a Go string: quotes, backslashes, control characters and
    the characters HTML treats specially are escaped, as are U+2028 and U+2029;
    a byte that does not start a valid UTF-8 sequence becomes U+FFFD. *)
Module Json.
Definition cont (lo hi : nat) (c : ascii) : bool :=
  (lo <=? nat_of_ascii c)%nat && (nat_of_ascii c <=? hi)%nat.

(** The bytes of the multi-byte sequence [s] starts with, and the rest. *)
Definition split_rune (s : string) : option (string * string) :=
  match s with
  | String a (String b r) =>
      let n := nat_of_ascii a in
      if (194 <=? n)%nat && (n <=? 223)%nat then
        if cont 128 191 b then Some (String a (String b EmptyString), r) else None
      else match r with
      | String c r' =>
          if (224 <=? n)%nat && (n <=? 239)%nat then
            let lo := if (n =? 224)%nat then 160 else 128 in
            let hi := if (n =? 237)%nat then 159 else 191 in
            if cont lo hi b && cont 128 191 c
            then Some (String a (String b (String c EmptyString)), r') else None
          else match r' with
          | String d r'' =>
              if (240 <=? n)%nat && (n <=? 244)%nat then
                let lo := if (n =? 240)%nat then 144 else 128 in
                let hi := if (n =? 244)%nat then 143 else 191 in
                if cont lo hi b && cont 128 191 c && cont 128 191 d
                then Some (String a (String b (String c (String d EmptyString))), r'') else None
              else None
          | EmptyString => None
          end
      | EmptyString => None
      end
  | _ => None
  end.

Definition hex_char (n : nat) : ascii :=
  if (n <? 10)%nat then ascii_of_nat (48 + n) else ascii_of_nat (87 + n).
Definition unicode_escape (n : nat) : string :=
  "\u00" +:+ String (hex_char (n / 16)) (String (hex_char (n mod 16)) EmptyString).

Definition escape_byte (c : ascii) : string :=
  let n := nat_of_ascii c in
  if (n =? 34)%nat then bytes [92; 34]
  else if (n =? 92)%nat then bytes [92; 92]
  else if (n =? 8)%nat then "\b" else if (n =? 12)%nat then "\f"
  else if (n =? 10)%nat then "\n" else if (n =? 13)%nat then "\r"
  else if (n =? 9)%nat then "\t"
  else if (n <? 32)%nat || (n =? 60)%nat || (n =? 62)%nat || (n =? 38)%nat then unicode_escape n
  else String c EmptyString.

Definition escape_rune (r : string) : string :=
  if bool_decide (r = bytes [226; 128; 168]) then "\u2028"
  else if bool_decide (r = bytes [226; 128; 169]) then "\u2029" else r.

Fixpoint escape (fuel : nat) (s : string) : string :=
  match fuel, s with
  | S fuel, String c s' =>
      if (nat_of_ascii c <? 128)%nat then escape_byte c +:+ escape fuel s'
      else match split_rune s with
           | Some (r, rest) => escape_rune r +:+ escape fuel rest
           | None => "\ufffd" +:+ escape fuel s'
           end
  | _, _ => EmptyString
  end.

(** Every step consumes at least a byte, so the length is enough fuel. *)
Definition quote (s : string) : string :=
  bytes [34] +:+ escape (String.length s) s +:+ bytes [34].

Example quote_samples :
  quote ("a<" +:+ bytes [10; 195; 169; 255; 34]) =
  bytes [34] +:+ "a\u003c\n" +:+ bytes [195; 169] +:+ "\ufffd\" +:+ bytes [34; 34].
Proof. reflexivity. Qed.
End Json.
