(* ===== verification/GoText.v ===== *)
(** * GoText: splitting and trimming text

    The parts of Go's [strings] package that work on sets of runes: [FieldsFunc],
    [Fields] and [Trim], and [SplitN], [ReplaceAll] and [Contains].  A set of
    runes is the list of their UTF-8 encodings; no encoding starts inside
    another rune, so looking for them byte by byte finds exactly the runes. *)

From S2P Require Import Prelude GoLib.
From Stdlib Require Import Ascii.
Import GoStrings.

Module Text.

(** The text up to the first separator, and the rest. *)
Fixpoint take_field (ps : list string) (s : string) : string * string :=
  match cut_any ps s with
  | Some _ => (EmptyString, s)
  | None =>
      match s with
      | EmptyString => (EmptyString, EmptyString)
      | String c r => let '(f, rest) := take_field ps r in (String c f, rest)
      end
  end.

Fixpoint fields (ps : list string) (fuel : nat) (s : string) : list string :=
  match fuel with
  | O => []
  | S fuel =>
      match trim_left ps (String.length s) s with
      | EmptyString => []
      | s => let '(f, rest) := take_field ps s in f :: fields ps fuel rest
      end
  end.

(** Every field takes at least one byte, so the length of the text is enough. *)
Definition FieldsFunc (ps : list string) (s : string) : list string := fields ps (String.length s) s.
Definition Fields : string → list string := FieldsFunc spaces.

(** [strings.Trim] with a cut set. *)
Definition Trim (ps : list string) (s : string) : string :=
  let s1 := trim_left ps (String.length s) s in
  String.rev (trim_left (String.rev <$> ps) (String.length s1) (String.rev s1)).

Fixpoint Contains (s sub : string) : bool :=
  HasPrefix s sub || match s with EmptyString => false | String _ r => Contains r sub end.

(** [strings.ReplaceAll] of a single byte. *)
Fixpoint replace_byte (c : ascii) (new : string) (s : string) : string :=
  match s with
  | EmptyString => EmptyString
  | String a r => (if bool_decide (a = c) then new else String a EmptyString) +:+ replace_byte c new r
  end.

Lemma take_field_append ps s : (take_field ps s).1 +:+ (take_field ps s).2 = s.
Proof.
  induction s as [|c r IH]; cbn [take_field]; destruct (cut_any ps _); try done.
  destruct (take_field ps r) as [f rest]. cbn in *. rewrite string_app_cons. by rewrite IH.
Qed.

Lemma take_field_progress ps c s :
  cut_any ps (String c s) = None → ∃ f rest, take_field ps (String c s) = (String c f, rest).
Proof. intros H. cbn [take_field]. rewrite H. destruct (take_field ps s) as [f rest]. eauto. Qed.

(** A text none of whose suffixes starts with a separator. *)
Fixpoint free (ps : list string) (s : string) : bool :=
  match s with
  | EmptyString => true
  | String c r => negb (bool_decide (is_Some (cut_any ps s))) && free ps r
  end.

Lemma take_field_free ps s : free ps (take_field ps s).1 = true.
Proof.
  induction s as [|c r IH]; cbn [take_field]; destruct (cut_any ps _) eqn:E; try done.
  destruct (take_field ps r) as [f rest] eqn:Er. cbn [fst free]. rewrite andb_true_iff. split; [|exact IH].
  rewrite negb_true_iff, bool_decide_eq_false, <-eq_None_not_Some.
  apply (cut_any_None_prefix ps _ rest). pose proof (take_field_append ps r) as Ha. rewrite Er in Ha. cbn in Ha.
  rewrite string_app_cons, Ha. exact E.
Qed.

Lemma take_field_all ps s : free ps s = true → take_field ps s = (s, EmptyString).
Proof.
  induction s as [|c r IH]; cbn [take_field free].
  - intros _. by destruct (cut_any ps EmptyString).
  - rewrite andb_true_iff, negb_true_iff, bool_decide_eq_false, <-eq_None_not_Some. intros [-> H]. by rewrite IH.
Qed.

Lemma fields_free ps fuel s f : f ∈ fields ps fuel s → free ps f = true.
Proof.
  revert s. induction fuel as [|fuel IH]; intros s; cbn [fields]; [by intros ?%elem_of_nil|].
  destruct (trim_left ps _ s) as [|c r]; [by intros ?%elem_of_nil|].
  pose proof (take_field_free ps (String c r)) as Hf. destruct (take_field ps (String c r)) as [g rest].
  intros [->|H]%elem_of_cons; [done|by eapply IH].
Qed.

(** A text without separators is its own only field. *)
Lemma FieldsFunc_free ps s : free ps s = true → length (FieldsFunc ps s) ≤ 1.
Proof.
  intros Hs. unfold FieldsFunc. destruct s as [|c r]; [cbn; lia|]. cbn [String.length fields].
  rewrite trim_left_id; [|cbn in Hs; rewrite andb_true_iff, negb_true_iff, bool_decide_eq_false, <-eq_None_not_Some in Hs; tauto].
  rewrite take_field_all by done. destruct (String.length r) as [|n]; cbn; lia.
Qed.

(** More fuel changes nothing. *)
Lemma fields_fuel ps n m s :
  Forall (fun p => p ≠ EmptyString) ps → String.length s ≤ n → String.length s ≤ m → fields ps n s = fields ps m s.
Proof.
  intros Hps. revert m s. induction n as [|n IH]; intros [|m] s Hn Hm; cbn [fields]; try done.
  - destruct s; [done|cbn in Hn; lia].
  - destruct s; [done|cbn in Hm; lia].
  - pose proof (trim_left_suffix ps (String.length s) s) as [l Hl].
    assert (Hd : cut_any ps (trim_left ps (String.length s) s) = None) by (by apply trim_left_done).
    destruct (trim_left ps (String.length s) s) as [|c r]; [done|].
    destruct (take_field_progress ps c r Hd) as (f & rest & Ef). rewrite Ef. f_equal.
    pose proof (take_field_append ps (String c r)) as Ha. rewrite Ef in Ha. cbn [fst snd] in Ha.
    apply (f_equal String.length) in Ha, Hl. rewrite str_length_append in Ha, Hl. cbn in Ha, Hl. apply IH; lia.
Qed.

(** Parts of a text without separators have none. *)
Lemma free_append ps a b : free ps (a +:+ b) = true → free ps a = true ∧ free ps b = true.
Proof.
  induction a as [|c a IH]; rewrite ?string_app_nil, ?string_app_cons; [by split|]. cbn [free].
  rewrite !andb_true_iff, !negb_true_iff, !bool_decide_eq_false, <-!eq_None_not_Some. intros [Hc H].
  destruct (IH H) as [Ha Hb]. split_and!; [|done..]. apply (cut_any_None_prefix ps _ b). by rewrite string_app_cons.
Qed.

Lemma TrimSpace_part s : ∃ l r, s = l +:+ TrimSpace s +:+ r.
Proof.
  unfold TrimSpace. cbv zeta. set (s1 := trim_left spaces (String.length s) s).
  destruct (trim_left_suffix spaces (String.length s) s) as [l Hl]. fold s1 in Hl. exists l.
  destruct (trim_left_suffix (String.rev <$> spaces) (String.length s1) (String.rev s1)) as [r Hr].
  set (x := trim_left _ _ (String.rev s1)) in *. exists (String.rev r). rewrite Hl at 1. f_equal.
  rewrite <-(str_rev_involutive s1), Hr, str_rev_append. done.
Qed.

Lemma free_TrimSpace ps s : free ps s = true → free ps (TrimSpace s) = true.
Proof. destruct (TrimSpace_part s) as (l & r & E). rewrite E at 1. intros [_ [H _]%free_append]%free_append. exact H. Qed.

Example text_samples :
  Fields " a  b	c " = ["a"; "b"; "c"] ∧ FieldsFunc [" "; "-"] "de-fra 1" = ["de"; "fra"; "1"] ∧
  Trim [" "; "-"; ","] " -x y-, " = "x y" ∧ Contains "amnezia" "ezi" = true ∧ replace_byte " " "" "a b " = "ab".
Proof. vm_compute. done. Qed.
End Text.

Lemma Join_Split c s : Join (String c EmptyString) (Split c s) = s.
Proof.
  induction s as [|a s IH]; [done|]. cbn [Split]. destruct (Split_cons c s) as (p & ps & E). rewrite E in *. case_bool_decide as Ha.
  - subst a. cbn [Join]. rewrite string_app_nil, string_app_cons, string_app_nil. by rewrite <-IH.
  - destruct ps as [|q ps]; cbn [Join] in *; [by rewrite IH|]. by rewrite string_app_cons, IH.
Qed.

(** Case mapping and folding outside of ASCII follow tables of the [unicode]
    package, which are arguments of what uses them. *)
Record CaseTables := mkCaseTables {
  u_ToLower : string → string;
  u_ToUpper : string → string;
  u_EqualFold : string → string → bool;
}.

(** The tables restricted to ASCII letters. *)
Definition ascii_tables : CaseTables :=
  mkCaseTables ToLower ToUpper
    (fun a b => bool_decide (ToLower a = ToLower b)).
