(* ===== verification/GoCrypto.v ===== *)
(** * GoCrypto: SHA-256 and HMAC

    [crypto/sha256] and [crypto/hmac] on byte strings: messages are padded to blocks of sixteen
    32-bit words, each block is mixed into eight chaining words.  Words are
    numbers below [2 ^ 32]. *)

From S2P Require Import Prelude GoLib.
From Stdlib Require Import Ascii.
Import GoStrings.

Module Sha256.
Local Open Scope N_scope.

Definition wrap (x : N) : N := N.land x 4294967295.
Definition add (x y : N) : N := wrap (x + y).
Definition rotr (n x : N) : N := N.lor (N.shiftr x n) (wrap (N.shiftl x (32 - n))).
Definition not32 (x : N) : N := N.lxor x 4294967295.

(** The constants as FIPS 180-4 defines them: the first 32 bits of the
    fractional parts of the roots of the first primes. *)
Definition prime (n : N) : bool := forallb (fun d => negb (n mod N.of_nat d =? 0)) (seq 2 (N.to_nat n - 2)).
Definition primes (count : nat) : list N := take count (filter (fun n => prime n = true) (N.of_nat <$> seq 2 311)).

(** The largest [x] with [x ^ 3 <= n], found bit by bit from bit [bits] on. *)
Fixpoint cube_root (bits : nat) (x n : N) : N :=
  match bits with
  | O => x
  | S bits => let y := N.setbit x (N.of_nat bits) in cube_root bits (if y * y * y <=? n then y else x) n
  end.

Definition round_constants : list N :=
  Eval vm_compute in (fun p => wrap (cube_root 36 0 (N.shiftl p 96))) <$> primes 64.
Definition initial : list N := Eval vm_compute in (fun p => wrap (N.sqrt (N.shiftl p 64))) <$> primes 8.

(** ** Padding *)
Fixpoint to_bytes (s : string) : list N :=
  match s with EmptyString => [] | String c s => N_of_ascii c :: to_bytes s end.
Definition of_bytes (l : list N) : string := foldr (fun n s => String (ascii_of_N n) s) EmptyString l.

(** The length in bits as eight bytes, most significant first. *)
Definition length_bytes (bits : N) : list N := (fun i => N.land (N.shiftr bits (8 * N.of_nat i)) 255) <$> reverse (seq 0 8).
Definition padding (len : nat) : list N :=
  128 :: replicate ((119 - len mod 64) mod 64) 0 ++ length_bytes (8 * N.of_nat len).

Fixpoint words (l : list N) : list N :=
  match l with
  | a :: b :: c :: d :: l => N.lor (N.shiftl a 24) (N.lor (N.shiftl b 16) (N.lor (N.shiftl c 8) d)) :: words l
  | _ => []
  end.

(** ** Compression *)
Definition small0 (x : N) : N := N.lxor (rotr 7 x) (N.lxor (rotr 18 x) (N.shiftr x 3)).
Definition small1 (x : N) : N := N.lxor (rotr 17 x) (N.lxor (rotr 19 x) (N.shiftr x 10)).
Definition big0 (x : N) : N := N.lxor (rotr 2 x) (N.lxor (rotr 13 x) (rotr 22 x)).
Definition big1 (x : N) : N := N.lxor (rotr 6 x) (N.lxor (rotr 11 x) (rotr 25 x)).
Definition choose (x y z : N) : N := N.lxor (N.land x y) (N.land (not32 x) z).
Definition majority (x y z : N) : N := N.lxor (N.land x y) (N.lxor (N.land x z) (N.land y z)).

(** The message schedule, latest word first. *)
Fixpoint schedule (n : nat) (w : list N) : list N :=
  match n with
  | O => w
  | S n =>
      let at_ i := nth i w 0 in
      schedule n (add (small1 (at_ 1%nat)) (add (at_ 6%nat) (add (small0 (at_ 14%nat)) (at_ 15%nat))) :: w)
  end.

Definition round (st : list N) (kw : N * N) : list N :=
  match st with
  | [a; b; c; d; e; f; g; h] =>
      let t1 := add h (add (big1 e) (add (choose e f g) (add kw.1 kw.2))) in
      let t2 := add (big0 a) (majority a b c) in
      [add t1 t2; a; b; c; add d t1; e; f; g]
  | _ => st
  end.

Definition compress (st : list N) (block : list N) : list N :=
  zip_with add st (foldl round st (zip round_constants (reverse (schedule 48 (reverse block))))).

Fixpoint blocks (fuel : nat) (st : list N) (w : list N) : list N :=
  match fuel, w with
  | S fuel, _ :: _ => blocks fuel (compress st (take 16 w)) (drop 16 w)
  | _, _ => st
  end.

Definition digest_bytes (st : list N) : list N :=
  st ≫= fun x => [N.shiftr x 24; N.land (N.shiftr x 16) 255; N.land (N.shiftr x 8) 255; N.land x 255].

Definition Sum256 (s : string) : string :=
  let m := to_bytes s ++ padding (String.length s) in
  of_bytes (digest_bytes (blocks (length m / 64) initial (words m))).

(** ** The digest has 32 bytes *)
Lemma round_length st kw : length st = 8%nat → length (round st kw) = 8%nat.
Proof. intros H. do 9 (destruct st as [|? st]; try discriminate H). reflexivity. Qed.
Lemma rounds_length l st : length st = 8%nat → length (foldl round st l) = 8%nat.
Proof. revert st. induction l as [|kw l IH]; intros st H; [done|]. by apply IH, round_length. Qed.
Lemma blocks_length fuel st w : length st = 8%nat → length (blocks fuel st w) = 8%nat.
Proof.
  revert st w. induction fuel as [|fuel IH]; intros st [|x w] H; cbn [blocks]; try done.
  apply IH. unfold compress. rewrite length_zip_with, rounds_length by done. lia.
Qed.

Lemma of_bytes_length l : String.length (of_bytes l) = length l.
Proof. induction l as [|x l IH]; [done|]. cbn. by rewrite <-IH. Qed.

Lemma Sum256_length s : String.length (Sum256 s) = 32%nat.
Proof.
  unfold Sum256. cbv zeta. rewrite of_bytes_length. pose proof (blocks_length (length (to_bytes s ++ padding (String.length s)) / 64)
    initial (words (to_bytes s ++ padding (String.length s))) eq_refl) as H.
  set (st := blocks _ _ _) in *. clearbody st. do 9 (destruct st as [|? st]; try discriminate H). reflexivity.
Qed.

(** The digests of the empty message, of [abc] and of a message of two blocks. *)
Example Sum256_samples :
  take 4 (to_bytes (Sum256 "")) = [0xe3; 0xb0; 0xc4; 0x42] ∧
  to_bytes (Sum256 "abc") = [0xba; 0x78; 0x16; 0xbf; 0x8f; 0x1; 0xcf; 0xea; 0x41; 0x41; 0x40; 0xde; 0x5d; 0xae; 0x22; 0x23; 0xb0; 0x3; 0x61; 0xa3; 0x96; 0x17; 0x7a; 0x9c; 0xb4; 0x10; 0xff; 0x61; 0xf2; 0x0; 0x15; 0xad] ∧
  to_bytes (Sum256 "abcdbcdecdefdefgefghfghighijhijkijkljklmklmnlmnomnopnopq") = [0x24; 0x8d; 0x6a; 0x61; 0xd2; 0x6; 0x38; 0xb8; 0xe5; 0xc0; 0x26; 0x93; 0xc; 0x3e; 0x60; 0x39; 0xa3; 0x3c; 0xe4; 0x59; 0x64; 0xff; 0x21; 0x67; 0xf6; 0xec; 0xed; 0xd4; 0x19; 0xdb; 0x6; 0xc1].
Proof. vm_compute. done. Qed.
End Sha256.

(** ** [crypto/hmac] with SHA-256: blocks of 64 bytes *)
Module Hmac.
Import Sha256.

Definition block_key (key : string) : list N :=
  let k := to_bytes (if bool_decide (64 < String.length key) then Sum256 key else key) in
  k ++ replicate (64 - length k) 0%N.
Definition pad (key : string) (x : N) : string := of_bytes (N.lxor x <$> block_key key).
Definition Sum (key message : string) : string := Sum256 (pad key 92 +:+ Sum256 (pad key 54 +:+ message)).

Lemma Sum_nonempty key message : Sum key message ≠ EmptyString.
Proof. intros H. pose proof (Sum256_length (pad key 92 +:+ Sum256 (pad key 54 +:+ message))) as E. unfold Sum in H. by rewrite H in E. Qed.

(** Test case 2 of RFC 4231. *)
Example Sum_sample : take 8 (to_bytes (Sum "Jefe" "what do ya want for nothing?")) = [0x5b; 0xdc; 0xc1; 0x46; 0xbf; 0x60; 0x75; 0x4e]%N.
Proof. vm_compute. reflexivity. Qed.
End Hmac.
