(* ===== verification/GoJson.v ===== *)
(** * GoJson: reading JSON with [encoding/json]

    What [json.Unmarshal] does with the documents the program reads: the
    grammar its scanner accepts (with the nesting limit), the decoding of
    string literals (escapes, surrogate pairs, replacement of invalid UTF-8),
    and the decoding into [map[string]string], [[]string] and structs (fields
    matched first exactly and then up to case, [null] without effect, a value
    of the wrong type recorded as an error while the rest is still decoded).
    The text [Json.quote] writes is read back as the same string, and the
    text of a 64-bit integer as the same number. *)

From S2P Require Import Prelude GoLib.
From Stdlib Require Import Ascii.

Module JsonRead.
Local Open Scope N_scope.

(** ** String literals *)

Definition code (c : ascii) : N := N_of_ascii c.
Definition chr (n : N) : string := String (ascii_of_N n) EmptyString.

(** [utf8.AppendRune] for a code point that is not a surrogate. *)
Definition utf8 (n : N) : string :=
  if n <? 128 then chr n
  else if n <? 2048 then chr (192 + n / 64) +:+ chr (128 + n mod 64)
  else if n <? 65536 then
    chr (224 + n / 4096) +:+ chr (128 + n / 64 mod 64) +:+ chr (128 + n mod 64)
  else chr (240 + n / 262144) +:+ chr (128 + n / 4096 mod 64) +:+
       chr (128 + n / 64 mod 64) +:+ chr (128 + n mod 64).

Definition replacement : string := utf8 65533.

Definition hex_digit (c : ascii) : option N := N.of_nat <$> Hex.digit c.

(** The four digits of a [\u] escape. *)
Definition hex4 (s : string) : option (N * string) :=
  match s with
  | String a (String b (String c (String d r))) =>
      match hex_digit a, hex_digit b, hex_digit c, hex_digit d with
      | Some a, Some b, Some c, Some d => Some (a * 4096 + b * 256 + c * 16 + d, r)
      | _, _, _, _ => None
      end
  | _ => None
  end.

Definition backslash : ascii := ascii_of_nat 92.
Definition dquote : ascii := ascii_of_nat 34.

Definition is_surrogate (n : N) : bool := (55296 <=? n) && (n <? 57344).

(** A [\u] escape after its [u]: a high surrogate followed by an escaped low
    one is one code point, any other surrogate is replaced. *)
Definition unicode_rune (s : string) : option (string * string) :=
  match hex4 s with
  | None => None
  | Some (hi, r) =>
      if is_surrogate hi then
        match r with
        | String b (String u r') =>
            if bool_decide (b = backslash) && bool_decide (u = "u"%char) then
              match hex4 r' with
              | Some (lo, r'') =>
                  if (hi <? 56320) && (56320 <=? lo) && (lo <? 57344)
                  then Some (utf8 ((hi - 55296) * 1024 + (lo - 56320) + 65536), r'')
                  else Some (replacement, r)
              | None => Some (replacement, r)
              end
            else Some (replacement, r)
        | _ => Some (replacement, r)
        end
      else Some (utf8 hi, r)
  end.

(** The text an escape stands for, and what follows the escape. *)
Definition escape_rune (s : string) : option (string * string) :=
  match s with
  | EmptyString => None
  | String e r =>
      let n := code e in
      if (n =? 34) || (n =? 92) || (n =? 47) then Some (chr n, r)
      else if n =? 98 then Some (chr 8, r)
      else if n =? 102 then Some (chr 12, r)
      else if n =? 110 then Some (chr 10, r)
      else if n =? 114 then Some (chr 13, r)
      else if n =? 116 then Some (chr 9, r)
      else if n =? 117 then unicode_rune r
      else None
  end.

(** The next decoded piece of a string literal, [None] on a syntax error. *)
Definition piece (s : string) : option (string * string) :=
  match s with
  | EmptyString => None
  | String c r =>
      if bool_decide (c = backslash) then escape_rune r
      else if code c <? 32 then None
      else if code c <? 128 then Some (String c EmptyString, r)
      else match Json.split_rune s with
           | Some p => Some p
           | None => Some (replacement, r)
           end
  end.

(** The literal after its opening quote: its text and what follows it. *)
Fixpoint string_body (fuel : nat) (s : string) : option (string * string) :=
  match fuel with
  | O => None
  | S fuel =>
      match s with
      | EmptyString => None
      | String c r =>
          if bool_decide (c = dquote) then Some (EmptyString, r)
          else match piece s with
               | None => None
               | Some (x, rest) =>
                   match string_body fuel rest with
                   | Some (y, out) => Some (x +:+ y, out)
                   | None => None
                   end
               end
      end
  end.

(** Every piece is at least one byte long. *)
Definition literal (s : string) : option (string * string) :=
  string_body (S (String.length s)) s.

(** ** Numbers *)

Definition is_digit (c : ascii) : bool := (48 <=? code c) && (code c <=? 57).

(** The digits a text starts with. *)
Fixpoint span_digits (s : string) : string * string :=
  match s with
  | String c r =>
      if is_digit c then let '(d, rest) := span_digits r in (String c d, rest) else (EmptyString, s)
  | EmptyString => (EmptyString, EmptyString)
  end.

Definition some_digits (s : string) : option (string * string) :=
  match span_digits s with (EmptyString, _) => None | p => Some p end.

Definition integer_part (s : string) : option (string * string) :=
  match s with
  | String c r => if bool_decide (c = "0"%char) then Some ("0", r) else some_digits s
  | EmptyString => None
  end.

Definition fraction_part (s : string) : option (string * string) :=
  match s with
  | String c r =>
      if bool_decide (c = "."%char) then '(d, rest) ← some_digits r; Some (String c d, rest)
      else Some (EmptyString, s)
  | EmptyString => Some (EmptyString, s)
  end.

Definition exponent_part (s : string) : option (string * string) :=
  match s with
  | String e r =>
      if bool_decide (e = "e"%char) || bool_decide (e = "E"%char) then
        match r with
        | String sg r' =>
            if bool_decide (sg = "+"%char) || bool_decide (sg = "-"%char) then
              '(d, rest) ← some_digits r'; Some (String e (String sg d), rest)
            else '(d, rest) ← some_digits r; Some (String e d, rest)
        | EmptyString => None
        end
      else Some (EmptyString, s)
  | EmptyString => Some (EmptyString, s)
  end.

Definition unsigned_number (s : string) : option (string * string) :=
  '(i, s) ← integer_part s;
  '(f, s) ← fraction_part s;
  '(e, s) ← exponent_part s;
  Some (i +:+ f +:+ e, s).

Definition number (s : string) : option (string * string) :=
  match s with
  | String c r =>
      if bool_decide (c = "-"%char) then '(t, rest) ← unsigned_number r; Some (String c t, rest)
      else unsigned_number s
  | EmptyString => None
  end.

(** ** Documents *)

#[warnings="-register-all"]
Inductive value :=
| JNull
| JBool (b : bool)
| JNumber (text : string)
| JString (s : string)
| JArray (l : list value)
| JObject (l : list (string * value)).

Fixpoint skip_space (s : string) : string :=
  match s with
  | String c r =>
      if (code c =? 32) || (code c =? 9) || (code c =? 10) || (code c =? 13)
      then skip_space r else s
  | EmptyString => EmptyString
  end.

(** The byte [c] after white space. *)
Definition expect (c : ascii) (s : string) : option string :=
  match skip_space s with
  | String c' r => if bool_decide (c' = c) then Some r else None
  | EmptyString => None
  end.

Definition maxNestingDepth : N := 10000.

(** The items of an array or object after one of them: a comma and another
    item, or the closing bracket. *)
Fixpoint more {A} (item : string → option (A * string)) (close : ascii) (fuel : nat) (s : string) :
    option (list A * string) :=
  match fuel with
  | O => None
  | S fuel =>
      match expect close s with
      | Some rest => Some ([], rest)
      | None =>
          s ← expect ","%char s;
          '(x, s) ← item s;
          '(l, s) ← more item close fuel s;
          Some (x :: l, s)
      end
  end.

Definition items {A} (item : string → option (A * string)) (close : ascii) (s : string) :
    option (list A * string) :=
  match expect close s with
  | Some rest => Some ([], rest)
  | None =>
      '(x, s) ← item s;
      '(l, s) ← more item close (S (String.length s)) s;
      Some (x :: l, s)
  end.

Definition member (val : string → option (value * string)) (s : string) :
    option ((string * value) * string) :=
  s ← expect dquote s;
  '(k, s) ← literal s;
  s ← expect ":"%char s;
  '(v, s) ← val s;
  Some ((k, v), s).

Definition word (w : string) (v : value) (s : string) : option (value * string) :=
  s ← cut_prefix w s; Some (v, s).

(** A value: [fuel] bounds the nesting, as the scanner itself does. *)
Fixpoint read_value (fuel : nat) (s : string) : option (value * string) :=
  let nested {A} (f : (string → option (value * string)) → option A) : option A :=
    match fuel with O => None | S fuel => f (read_value fuel) end in
  match skip_space s with
  | EmptyString => None
  | String c r =>
      if bool_decide (c = dquote) then '(x, s) ← literal r; Some (JString x, s)
      else if bool_decide (c = "["%char) then
        nested (fun val => '(l, s) ← items val "]"%char r; Some (JArray l, s))
      else if bool_decide (c = "{"%char) then
        nested (fun val => '(l, s) ← items (member val) "}"%char r; Some (JObject l, s))
      else if bool_decide (c = "n"%char) then word "null" JNull (String c r)
      else if bool_decide (c = "t"%char) then word "true" (JBool true) (String c r)
      else if bool_decide (c = "f"%char) then word "false" (JBool false) (String c r)
      else '(t, s) ← number (String c r); Some (JNumber t, s)
  end.

(** The whole input is one value, surrounded by white space. *)
Definition parse (s : string) : option value :=
  match read_value (N.to_nat maxNestingDepth) s with
  | Some (v, rest) =>
      match skip_space rest with EmptyString => Some v | _ => None end
  | None => None
  end.

(** ** Decoding into Go values

    A target is updated as far as the document allows; the flag says whether
    [Unmarshal] returns no error. *)

Definition set_entry (acc : gmap string string * bool) (kv : string * value) :
    gmap string string * bool :=
  match kv.2 with
  | JString x => (<[kv.1 := x]> acc.1, acc.2)
  | JNull => (<[kv.1 := EmptyString]> acc.1, acc.2)
  | _ => (<[kv.1 := EmptyString]> acc.1, false)
  end.

(** Into a nil [map[string]string]. *)
Definition decode_map (v : value) : gmap string string * bool :=
  match v with
  | JNull => (∅, true)
  | JObject l => foldl set_entry (∅, true) l
  | _ => (∅, false)
  end.

Definition decode_item (v : value) : string * bool :=
  match v with JString x => (x, true) | JNull => (EmptyString, true) | _ => (EmptyString, false) end.

(** Into a nil [[]string]. *)
Definition decode_strings (v : value) : list string * bool :=
  match v with
  | JNull => ([], true)
  | JArray l => ((fun v => (decode_item v).1) <$> l, forallb (fun v => (decode_item v).2) l)
  | _ => ([], false)
  end.

(** [foldName]: two names fold to the same text when they differ in case
    only; the Kelvin sign and the long s fold to ASCII letters. *)
Fixpoint fold_name (s : string) : string :=
  match s with
  | String a ((String b t) as s1) =>
      if bool_decide (String a (String b EmptyString) = bytes [197; 191]%nat) then String "S" (fold_name t)
      else match t with
           | String c r =>
               if bool_decide (String a (String b (String c EmptyString)) = bytes [226; 132; 170]%nat)
               then String "K" (fold_name r)
               else String (upper_char a) (fold_name s1)
           | EmptyString => String (upper_char a) (fold_name s1)
           end
  | String a EmptyString => String (upper_char a) EmptyString
  | EmptyString => EmptyString
  end.

(** The fields of a struct by their JSON names, each with its decoder. *)
Definition field (S : Type) : Type := string * (value → S → S * bool).

Definition find_field {S} (fields : list (field S)) (key : string) : option (field S) :=
  match list_find (fun f => f.1 = key) fields with
  | Some (_, f) => Some f
  | None => snd <$> list_find (fun f => fold_name f.1 = fold_name key) fields
  end.

Definition set_member {S} (fields : list (field S)) (acc : S * bool) (kv : string * value) : S * bool :=
  match find_field fields kv.1 with
  | Some (_, set) => let '(s, ok) := set kv.2 acc.1 in (s, acc.2 && ok)
  | None => acc
  end.

Definition decode_struct {S} (fields : list (field S)) (v : value) (s : S) : S * bool :=
  match v with
  | JNull => (s, true)
  | JObject l => foldl (set_member fields) (s, true) l
  | _ => (s, false)
  end.

Definition string_field {S} (name : string) (set : string → S → S) : field S :=
  (name, fun v s => match v with JString x => (set x s, true) | JNull => (s, true) | _ => (s, false) end).

Definition int64_field {S} (name : string) (set : Z → S → S) : field S :=
  (name, fun v s =>
    match v with
    | JNumber t => match Strconv.ParseInt t with Ok n => (set n s, true) | Err _ => (s, false) end
    | JNull => (s, true)
    | _ => (s, false)
    end).

Definition bool_field {S} (name : string) (set : bool → S → S) : field S :=
  (name, fun v s => match v with JBool b => (set b s, true) | JNull => (s, true) | _ => (s, false) end).

(** [json.Unmarshal] into a zero struct; a syntax error decodes nothing. *)
Definition Unmarshal {S} (decode : value → S → S * bool) (raw : string) (zero : S) : S * bool :=
  match parse raw with Some v => decode v zero | None => (zero, false) end.

(** ** Writing objects *)

Fixpoint join_members (l : list (string * string)) : string :=
  match l with
  | [] => EmptyString
  | [(k, t)] => Json.quote k +:+ ":" +:+ t
  | (k, t) :: l => Json.quote k +:+ ":" +:+ t +:+ "," +:+ join_members l
  end.

(** A struct with the given fields, each already written. *)
Definition object (l : list (string * string)) : string := "{" +:+ join_members l +:+ "}".

Example parse_samples :
  parse (" {" +:+ Json.quote "a" +:+ ": [1, -2.5e+3, null] , " +:+ Json.quote "b" +:+ ":{}}") =
    Some (JObject [("a", JArray [JNumber "1"; JNumber "-2.5e+3"; JNull]); ("b", JObject [])]) ∧
  parse (bytes [34]%nat +:+ "\u00e9\ud83d\ude00\ud83d" +:+ bytes [34]%nat) =
    Some (JString (bytes [195; 169; 240; 159; 152; 128; 239; 191; 189]%nat)) ∧
  parse "[1,]" = None ∧ parse "01" = None ∧ parse "{} x" = None.
Proof. vm_compute. done. Qed.

(** ** Reading back a quoted string *)

(** The text with every byte that belongs to no valid UTF-8 sequence replaced
    by U+FFFD, as both [json.Marshal] and [json.Unmarshal] do. *)
Fixpoint sanitize_fuel (fuel : nat) (s : string) : string :=
  match fuel, s with
  | S fuel, String c s' =>
      if (nat_of_ascii c <? 128)%nat then String c (sanitize_fuel fuel s')
      else match Json.split_rune s with
           | Some (r, rest) => r +:+ sanitize_fuel fuel rest
           | None => replacement +:+ sanitize_fuel fuel s'
           end
  | _, _ => EmptyString
  end.
Definition sanitize (s : string) : string := sanitize_fuel (String.length s) s.

(** [utf8.ValidString]. *)
Definition ValidString (s : string) : bool := bool_decide (sanitize s = s).

Lemma split_rune_Some s r rest :
  Json.split_rune s = Some (r, rest) →
  s = r +:+ rest ∧ (∀ t, Json.split_rune (r +:+ t) = Some (r, t)) ∧
  ∃ c r', r = String c r' ∧ (194 ≤ nat_of_ascii c)%nat.
Proof.
  destruct s as [|a [|b [|c [|d s]]]]; cbn -[nat_of_ascii Nat.leb Nat.eqb Json.cont]; try done.
  all: repeat case_match; try done; intros [= <- <-]; simplify_eq; split_and!; try done.
  all: try (eexists _, _; split; [done|];
    repeat match goal with
    | H : (_ && _)%bool = true |- _ => apply andb_prop in H as [? ?]
    | H : (_ <=? _)%nat = true |- _ => apply Nat.leb_le in H
    end; lia).
  all: intros t; rewrite !string_app_cons, string_app_nil; unfold Json.split_rune; cbv zeta;
    repeat match goal with H : _ = true |- _ => rewrite H | H : _ = false |- _ => rewrite H end; try done.
Qed.

(** The bytes of a multi-byte sequence are not ASCII. *)
Lemma split_rune_high s r rest c :
  Json.split_rune s = Some (r, rest) → (nat_of_ascii c < 128)%nat → contains_byte c r = false.
Proof.
  intros Hs Hc.
  assert (Hne : ∀ d, (128 ≤ nat_of_ascii d)%nat → bool_decide (d = c) = false).
  { intros d Hd. apply bool_decide_eq_false. intros ->. lia. }
  revert Hs. destruct s as [|a [|b [|d [|e s]]]]; cbn -[nat_of_ascii Nat.leb Nat.eqb Json.cont]; try done.
  all: unfold Json.cont; repeat case_match; try done; intros [= <- _]; cbn [contains_byte];
    repeat match goal with
    | H : (_ && _)%bool = true |- _ => apply andb_prop in H as [? ?]
    | H : (_ <=? _)%nat = true |- _ => apply Nat.leb_le in H
    end; rewrite !Hne by lia; done.
Qed.

(** The result of a decoding step put before the result of the rest. *)
Definition prepend (x : string) (r : option (string * string)) : option (string * string) :=
  match r with Some (y, out) => Some (x +:+ y, out) | None => None end.

Lemma body_ascii n c t :
  (nat_of_ascii c < 128)%nat →
  string_body (S n) (Json.escape_byte c +:+ t) = prepend (String c EmptyString) (string_body n t).
Proof.
  intros Hc. destruct c as [[] [] [] [] [] [] [] []]; (reflexivity || (vm_compute in Hc; lia)).
Qed.

Lemma body_replacement n t :
  string_body (S n) ("\ufffd" +:+ t) = prepend replacement (string_body n t).
Proof. reflexivity. Qed.

Lemma body_rune n s r rest t :
  Json.split_rune s = Some (r, rest) →
  string_body (S n) (Json.escape_rune r +:+ t) = prepend r (string_body n t).
Proof.
  intros (_ & Hs & c & r' & -> & Hc)%split_rune_Some. unfold Json.escape_rune.
  case_bool_decide as H1; [rewrite H1; reflexivity|].
  case_bool_decide as H2; [rewrite H2; reflexivity|].
  specialize (Hs t). rewrite string_app_cons in *. cbn [string_body piece].
  rewrite !bool_decide_eq_false_2 by (intros ->; vm_compute in Hc; lia).
  assert (128 ≤ code c) as Hn by (unfold code, nat_of_ascii in *; lia).
  rewrite (proj2 (N.ltb_ge _ 32)), (proj2 (N.ltb_ge _ 128)) by lia.
  by rewrite Hs.
Qed.

Lemma string_body_escape fuel s rest :
  string_body (S fuel) (Json.escape fuel s +:+ String dquote rest) =
  Some (sanitize_fuel fuel s, rest).
Proof.
  revert s; induction fuel as [|fuel IH]; intros s; [reflexivity|].
  destruct s as [|c s]; [reflexivity|]. cbn [Json.escape sanitize_fuel].
  case_match eqn:Hc.
  { rewrite str_append_assoc, body_ascii, IH by (by apply Nat.ltb_lt). done. }
  destruct (Json.split_rune _) as [[r rest']|] eqn:Hr.
  - rewrite str_append_assoc, (body_rune _ _ _ _ _ Hr), IH. done.
  - rewrite str_append_assoc, body_replacement, IH. done.
Qed.

Lemma hex4_shorter s n r : hex4 s = Some (n, r) → (String.length r < String.length s)%nat.
Proof.
  destruct s as [|a [|b [|c [|d s]]]]; cbn [hex4]; try done.
  repeat case_match; try done. intros [= _ <-]. cbn. lia.
Qed.

Lemma unicode_rune_shorter s x r : unicode_rune s = Some (x, r) → (String.length r < String.length s)%nat.
Proof.
  unfold unicode_rune. destruct (hex4 s) as [[hi r1]|] eqn:H1; [|done].
  apply hex4_shorter in H1. case_match; [|by intros [= _ <-]].
  destruct r1 as [|b [|u r2]]; [by intros [= _ <-]..|].
  case_match; [|by intros [= _ <-]].
  destruct (hex4 r2) as [[lo r3]|] eqn:H2; [|by intros [= _ <-]].
  apply hex4_shorter in H2. cbn in *. case_match; intros [= _ <-]; cbn; lia.
Qed.

Lemma piece_shorter s x rest : piece s = Some (x, rest) → (String.length rest < String.length s)%nat.
Proof.
  destruct s as [|c s]; [done|]. cbn [piece].
  case_match.
  { destruct s as [|e s]; [done|]. cbn [escape_rune].
    repeat case_match; try done; try (intros [= _ <-]; cbn; lia).
    intros ?%unicode_rune_shorter. cbn. lia. }
  repeat case_match; try done; try (intros [= _ <-]; cbn; lia).
  intros [= ->]. destruct (split_rune_Some _ _ _ ltac:(eassumption)) as (Heq & _ & c' & r' & -> & _).
  rewrite Heq, str_length_append. cbn. lia.
Qed.

Lemma string_body_fuel n s p m :
  string_body n s = Some p → (String.length s < m)%nat → string_body m s = Some p.
Proof.
  revert s p m; induction n as [|n IH]; intros s p [|m]; try done; [lia|].
  intros Hb Hm. cbn [string_body] in *. destruct s as [|c s]; [done|].
  case_match; [done|]. destruct (piece _) as [[x rest]|] eqn:Hp; [|done].
  apply piece_shorter in Hp.
  destruct (string_body n rest) as [[y out]|] eqn:Hr; [|done].
  rewrite (IH _ _ m Hr) by lia. done.
Qed.

Lemma literal_escape s rest :
  literal (Json.escape (String.length s) s +:+ String dquote rest) = Some (sanitize s, rest).
Proof. eapply string_body_fuel; [apply string_body_escape|lia]. Qed.

Lemma quote_append s rest :
  Json.quote s +:+ rest =
  String dquote (Json.escape (String.length s) s +:+ String dquote rest).
Proof. unfold Json.quote. rewrite !str_append_assoc. done. Qed.

Lemma read_value_dquote n r :
  read_value n (String dquote r) = '(x, s) ← literal r; Some (JString x, s).
Proof. by destruct n. Qed.

(** A quoted string is read back as its text. *)
Lemma read_value_quote n s rest :
  read_value n (Json.quote s +:+ rest) = Some (JString (sanitize s), rest).
Proof. by rewrite quote_append, read_value_dquote, literal_escape. Qed.

(** ** Reading back an integer *)

Fixpoint all_digits (s : string) : bool :=
  match s with String c r => is_digit c && all_digits r | EmptyString => true end.

Definition ends_number (rest : string) : Prop :=
  match rest with
  | String c _ => is_digit c = false ∧ c ≠ "."%char ∧ c ≠ "e"%char ∧ c ≠ "E"%char
  | EmptyString => True
  end.

Lemma span_digits_append d rest :
  all_digits d = true → ends_number rest → span_digits (d +:+ rest) = (d, rest).
Proof.
  intros Hd Hr. induction d as [|c d IH].
  - rewrite string_app_nil. destruct rest as [|c rest]; [done|]. cbn. by destruct Hr as [-> _].
  - cbn in Hd. apply andb_prop in Hd as [Hc Hd]. rewrite string_app_cons. cbn.
    by rewrite Hc, IH.
Qed.

Lemma is_digit_char d : (0 <= d < 10)%Z → is_digit (Strconv.digit_char d) = true.
Proof.
  intros H. assert (d = 0 ∨ d = 1 ∨ d = 2 ∨ d = 3 ∨ d = 4 ∨ d = 5 ∨ d = 6 ∨ d = 7 ∨ d = 8 ∨ d = 9)%Z
    as Hd by lia.
  repeat destruct Hd as [->|Hd]; [reflexivity..|subst; reflexivity].
Qed.

Lemma digits_all fuel n acc :
  (0 <= n)%Z → all_digits acc = true → all_digits (Strconv.digits fuel n acc) = true.
Proof.
  revert n acc; induction fuel as [|fuel IH]; intros n acc Hn Hacc; [done|]. cbn.
  assert (all_digits (String (Strconv.digit_char (n mod 10)) acc) = true).
  { cbn. rewrite is_digit_char, Hacc; [done|]. apply Z.mod_pos_bound. lia. }
  case_match; [done|]. apply IH; [|done]. by apply Z.div_pos.
Qed.

Lemma unsigned_number_digits n rest :
  (0 <= n)%Z → ends_number rest →
  let d := Strconv.digits (Strconv.digit_fuel n) n EmptyString in
  unsigned_number (d +:+ rest) = Some (d, rest).
Proof.
  intros Hn Hr d.
  assert (Hi : integer_part (d +:+ rest) = Some (d, rest)).
  { destruct (decide (n = 0)%Z) as [->|Hz]; [done|].
    destruct (Strconv.digits_head_nonzero (Strconv.digit_fuel n) n EmptyString) as (k & r & Hk & Hd);
      [lia|by apply Strconv.digit_fuel_enough|].
    assert (Hs : some_digits (d +:+ rest) = Some (d, rest)).
    { unfold some_digits. rewrite span_digits_append; [|by apply digits_all|done].
      subst d. by rewrite Hd. }
    subst d. rewrite Hd in *. rewrite string_app_cons in *. cbn [integer_part].
    rewrite bool_decide_eq_false_2; [done|].
    intros E. apply (f_equal Strconv.digit_val) in E. rewrite Strconv.digit_val_char in E by lia.
    vm_compute in E. injection E. lia. }
  clearbody d. unfold unsigned_number. rewrite Hi.
  assert (Hd : d +:+ EmptyString +:+ EmptyString = d) by exact (str_append_nil_r d).
  destruct rest as [|c rest]; cbn -[String.append]; [by rewrite Hd|].
  destruct Hr as (_ & H1 & H2 & H3).
  rewrite !bool_decide_eq_false_2 by done. cbn -[String.append].
  rewrite !bool_decide_eq_false_2 by done. cbn -[String.append]. by rewrite Hd.
Qed.

Lemma number_int n rest :
  ends_number rest → number (Strconv.FormatInt n +:+ rest) = Some (Strconv.FormatInt n, rest).
Proof.
  intros Hr. unfold Strconv.FormatInt. destruct (n <? 0)%Z eqn:E.
  - apply Z.ltb_lt in E. rewrite string_app_cons. cbn [number].
    rewrite bool_decide_eq_true_2, unsigned_number_digits by (done || lia). done.
  - apply Z.ltb_ge in E. pose proof (unsigned_number_digits n rest E Hr) as Hu. cbv zeta in Hu.
    destruct (Strconv.digits_head (Strconv.digit_fuel n) n EmptyString) as (d & r & Hb & Hd); [lia|done|].
    rewrite Hd, string_app_cons in *. cbn [number]. rewrite bool_decide_eq_false_2; [done|].
    by apply Strconv.digit_char_no_sign.
Qed.

Lemma FormatInt_head n :
  ∃ c r, Strconv.FormatInt n = String c r ∧ (c = "-"%char ∨ is_digit c = true).
Proof.
  unfold Strconv.FormatInt. destruct (n <? 0)%Z eqn:E; [by eexists _, _; split; [|left]|].
  destruct (Strconv.digits_head (Strconv.digit_fuel n) n EmptyString) as (d & r & Hb & Hd);
    [by apply Z.ltb_ge|done|]. rewrite Hd. eexists _, _. split; [done|]. right. by apply is_digit_char.
Qed.

Lemma read_value_number fuel c r :
  c = "-"%char ∨ is_digit c = true →
  read_value fuel (String c r) = '(t, s) ← number (String c r); Some (JNumber t, s).
Proof.
  intros Hc.
  assert (Hsp : skip_space (String c r) = String c r).
  { cbn. destruct Hc as [->|Hc]; [done|]. unfold is_digit in Hc.
    apply andb_prop in Hc as [Hc%N.leb_le _]. repeat rewrite (proj2 (N.eqb_neq _ _)) by lia. done. }
  assert (Hne : ∀ x, is_digit x = false → x ≠ "-"%char → c ≠ x) by (intros x ??; destruct Hc; congruence).
  destruct fuel; cbn [read_value]; rewrite Hsp, !bool_decide_eq_false_2 by (by apply Hne); done.
Qed.

(** The text of an integer is read back as that number. *)
Lemma read_value_int fuel n rest :
  ends_number rest →
  read_value fuel (Strconv.FormatInt n +:+ rest) = Some (JNumber (Strconv.FormatInt n), rest).
Proof.
  intros Hr. pose proof (number_int n rest Hr) as Hnum.
  destruct (FormatInt_head n) as (c & r & Heq & Hc). rewrite Heq, string_app_cons in *.
  by rewrite read_value_number, Hnum.
Qed.

(** ** Reading back an object *)

Definition closes (rest : string) : Prop :=
  ∃ r, rest = String "," r ∨ rest = String "}" r.

(** The text of a member's value is read back as [v] wherever it stands in an
    object. *)
Definition reads (t : string) (v : value) : Prop :=
  ∀ fuel rest, closes rest → read_value fuel (t +:+ rest) = Some (v, rest).

Lemma reads_quote s : reads (Json.quote s) (JString (sanitize s)).
Proof. intros fuel rest _. apply read_value_quote. Qed.

Lemma reads_int n : reads (Strconv.FormatInt n) (JNumber (Strconv.FormatInt n)).
Proof. intros fuel rest [r [-> | ->]]; by apply read_value_int. Qed.

Lemma reads_word w v : w ∈ [("true", JBool true); ("false", JBool false); ("null", JNull)] →
  v = w.2 → reads w.1 v.
Proof.
  rewrite !elem_of_cons, elem_of_nil. intros [-> | [-> | [-> |[]]]] -> fuel rest _; by destruct fuel.
Qed.

Definition member_text (m : string * string) : string := Json.quote m.1 +:+ ":" +:+ m.2.

Fixpoint tail_text (l : list (string * string)) : string :=
  match l with [] => EmptyString | m :: l => "," +:+ member_text m +:+ tail_text l end.

Lemma join_members_cons m l : join_members (m :: l) = member_text m +:+ tail_text l.
Proof.
  revert m. induction l as [|m' l IH]; intros [k t].
  - cbn. unfold member_text. by rewrite str_append_nil_r.
  - transitivity (Json.quote k +:+ ":" +:+ t +:+ "," +:+ join_members (m' :: l)); [done|].
    rewrite IH. cbn [tail_text]. unfold member_text. cbn [fst snd]. by rewrite !str_append_assoc.
Qed.

Lemma tail_text_length l : (length l ≤ String.length (tail_text l))%nat.
Proof. induction l as [|m l IH]; [done|]. cbn [tail_text length]. rewrite !str_length_append. cbn. lia. Qed.

Definition member_reads (m : string * string) (kv : string * value) : Prop :=
  kv.1 = sanitize m.1 ∧ reads m.2 kv.2.

Lemma read_member fuel m kv rest :
  member_reads m kv → closes rest →
  member (read_value fuel) (member_text m +:+ rest) = Some (kv, rest).
Proof.
  destruct m as [k t], kv as [k' v]. intros [Hk Hv] Hr. cbn in Hk. subst k'. unfold member_text, member.
  cbn [fst snd]. rewrite !str_append_assoc, quote_append.
  change (expect dquote (String dquote ?r)) with (Some r). cbn [mbind option_bind].
  rewrite literal_escape. cbn [mbind option_bind].
  change (expect ":" (":" +:+ ?r)) with (Some r). cbn [mbind option_bind].
  by rewrite Hv.
Qed.

Lemma tail_closes l rest : closes (tail_text l +:+ "}" +:+ rest).
Proof. destruct l as [|m l]; [exists rest; by right|]. eexists; left; reflexivity. Qed.

Lemma read_tail n fuel l vs rest :
  Forall2 member_reads l vs → (length l < fuel)%nat →
  more (member (read_value n)) "}"%char fuel (tail_text l +:+ "}" +:+ rest) = Some (vs, rest).
Proof.
  intros H; revert fuel. induction H as [|m kv l vs Hm _ IH]; intros [|fuel] Hf; try (cbn in Hf; lia).
  - done.
  - cbn [tail_text more]. rewrite !str_append_assoc.
    change (expect "}" ("," +:+ ?r)) with (@None string).
    change (expect "," ("," +:+ ?r)) with (Some r). cbn [mbind option_bind].
    rewrite (read_member _ _ kv) by (done || apply tail_closes). cbn [mbind option_bind].
    rewrite IH by (cbn in Hf; lia). done.
Qed.

(** A flat object is read back member by member. *)
Lemma parse_object l vs :
  Forall2 member_reads l vs → parse (object l) = Some (JObject vs).
Proof.
  intros H. unfold parse.
  assert (∃ n, N.to_nat maxNestingDepth = S n) as [n ->]
    by (exists (N.to_nat (N.pred maxNestingDepth)); rewrite <-N2Nat.inj_succ; done).
  enough (Hr : read_value (S n) (object l) = Some (JObject vs, EmptyString)) by (by rewrite Hr).
  unfold object.
  change (read_value (S n) ("{" +:+ ?r)) with
    ('(l, s) ← items (member (read_value n)) "}"%char r; Some (JObject l, s)).
  destruct H as [|m kv l vs Hm H]; [done|].
  rewrite join_members_cons, str_append_assoc. unfold items.
  change ("}") with ("}" +:+ EmptyString).
  assert (Hq : ∀ r, expect "}"%char (member_text m +:+ r) = None).
  { intros r. unfold member_text. by rewrite str_append_assoc, quote_append. }
  rewrite Hq, (read_member _ _ kv) by (done || apply tail_closes). cbn [mbind option_bind].
  rewrite read_tail with (vs := vs); [done..|].
  rewrite !str_length_append. pose proof (tail_text_length l). cbn. lia.
Qed.

(** ** Arrays of strings *)
Definition strings (l : list string) : string := "[" +:+ Join "," (Json.quote <$> l) +:+ "]".

Fixpoint strings_tail (l : list string) : string :=
  match l with [] => EmptyString | x :: l => "," +:+ Json.quote x +:+ strings_tail l end.

Lemma Join_quote x l : Join "," (Json.quote <$> x :: l) = Json.quote x +:+ strings_tail l.
Proof.
  revert x. induction l as [|y l IH]; intros x; [cbn; by rewrite str_append_nil_r|].
  transitivity (Json.quote x +:+ "," +:+ Join "," (Json.quote <$> y :: l)); [done|]. by rewrite IH.
Qed.

Lemma strings_tail_length l : (length l ≤ String.length (strings_tail l))%nat.
Proof. induction l as [|x l IH]; [done|]. cbn [strings_tail length]. rewrite !str_length_append. cbn. lia. Qed.

Lemma read_strings_tail n fuel l rest :
  (length l < fuel)%nat →
  more (read_value n) "]"%char fuel (strings_tail l +:+ "]" +:+ rest) = Some ((JString ∘ sanitize) <$> l, rest).
Proof.
  revert fuel. induction l as [|x l IH]; intros [|fuel] Hf; try (cbn in Hf; lia); [done|].
  cbn [strings_tail more]. rewrite !str_append_assoc.
  change (expect "]" ("," +:+ ?r)) with (@None string).
  change (expect "," ("," +:+ ?r)) with (Some r). cbn [mbind option_bind].
  rewrite read_value_quote. cbn [mbind option_bind]. rewrite IH by (cbn in Hf; lia). done.
Qed.

Lemma parse_strings l : parse (strings l) = Some (JArray ((JString ∘ sanitize) <$> l)).
Proof.
  unfold parse.
  assert (∃ n, N.to_nat maxNestingDepth = S n) as [n ->]
    by (exists (N.to_nat (N.pred maxNestingDepth)); rewrite <-N2Nat.inj_succ; done).
  enough (Hr : read_value (S n) (strings l) = Some (JArray ((JString ∘ sanitize) <$> l), EmptyString)) by (by rewrite Hr).
  unfold strings.
  change (read_value (S n) ("[" +:+ ?r)) with
    ('(l, s) ← items (read_value n) "]"%char r; Some (JArray l, s)).
  destruct l as [|x l]; [done|]. rewrite Join_quote, str_append_assoc. unfold items.
  assert (Hq : ∀ r, expect "]"%char (Json.quote x +:+ r) = None) by (intros r; by rewrite quote_append).
  rewrite Hq, read_value_quote. cbn [mbind option_bind]. change ("]") with ("]" +:+ EmptyString).
  rewrite read_strings_tail; [done|].
  rewrite !str_length_append. pose proof (strings_tail_length l). cbn. lia.
Qed.

Lemma decode_strings_text l : decode_strings <$> parse (strings l) = Some (sanitize <$> l, true).
Proof.
  rewrite parse_strings. cbn. f_equal. f_equal.
  - rewrite <-list_fmap_compose. done.
  - induction l; [done|]. done.
Qed.
End JsonRead.
