(* ===== verification/GoNet.v ===== *)
(** * GoNet: the parts of Go's [net] and [net/netip] packages the program uses

    [ParseIP], [IP.To4], [IP.String], [ParseCIDR], [IPNet.Contains] and
    [JoinHostPort].  A [net.IP] is the list of its bytes: 4 or 16 of them, or
    none for [nil].  An IPv4 address printed and parsed again is the same
    address; its bytes are the big-endian digits of a number below [2^32]. *)

From S2P Require Import Prelude GoLib.
From Stdlib Require Import Ascii.

Module Net.
Local Open Scope Z_scope.

Definition IP := list Z.

Definition char_is (c : ascii) (n : nat) : bool := (nat_of_ascii c =? n)%nat.

(** ** Parsing *)

(** The fields of a dotted address.  [v] is the current octet, [d] its number
    of digits and [acc] the octets before it, the last one first. *)
Fixpoint ipv4_fields (s : string) (v d : Z) (acc : list Z) : option (list Z) :=
  match s with
  | EmptyString => if (length acc =? 3)%nat && (0 <? d) then Some (rev (v :: acc)) else None
  | String c s =>
      match Strconv.digit_val c with
      | Some x =>
          if (d =? 1) && (v =? 0) then None
          else if 255 <? v * 10 + x then None
          else ipv4_fields s (v * 10 + x) (d + 1) acc
      | None =>
          if char_is c 46 && (0 <? d) && (length acc <? 3)%nat
          then ipv4_fields s 0 0 (v :: acc) else None
      end
  end.

(** [netip.parseIPv4]: the four octets. *)
Definition parseIPv4 (s : string) : option (list Z) := ipv4_fields s 0 0 [].

Definition hex_val (c : ascii) : option Z := Z.of_nat <$> Hex.digit c.

(** The hexadecimal digits of a group, with their number and the rest; more
    than four digits are an error. *)
Fixpoint hex_group (s : string) (acc : Z) (n : nat) : option (Z * nat * string) :=
  match s with
  | String c r =>
      match hex_val c with
      | Some x => if (3 <? n)%nat then None else hex_group r (acc * 16 + x) (S n)
      | None => Some (acc, n, s)
      end
  | EmptyString => Some (acc, n, s)
  end.

(** The groups of an IPv6 address from byte [length ip] on: [ip] holds the
    bytes read so far and [ellipsis] the position of [::]. *)
Fixpoint ipv6_groups (fuel : nat) (s : string) (ip : list Z) (ellipsis : option nat) :
    option (list Z * option nat * string) :=
  match fuel with
  | O => Some (ip, ellipsis, s)
  | S fuel =>
      match hex_group s 0 0 with
      | None | Some (_, O, _) => None
      | Some (acc, _, rest) =>
          let v4 := match rest with String c _ => char_is c 46 | EmptyString => false end in
          if v4 then
            if bool_decide (ellipsis = None) && negb (length ip =? 12)%nat then None
            else if (16 <? length ip + 4)%nat then None
            else octets ← parseIPv4 s; Some (ip ++ octets, ellipsis, EmptyString)
          else
            let ip := ip ++ [acc / 256; acc mod 256] in
            match rest with
            | EmptyString => Some (ip, ellipsis, EmptyString)
            | String c more =>
                if negb (char_is c 58) then None
                else match more with
                | EmptyString => None
                | String c' more' =>
                    if char_is c' 58 then
                      if bool_decide (ellipsis ≠ None) then None
                      else match more' with
                           | EmptyString => Some (ip, Some (length ip), EmptyString)
                           | _ => ipv6_groups fuel more' ip (Some (length ip))
                           end
                    else ipv6_groups fuel more ip ellipsis
                end
            end
      end
  end.

(** [netip.parseIPv6] of a text without zone; there are at most eight groups. *)
Definition parseIPv6 (s : string) : option (list Z) :=
  let '(leading, s) :=
    match cut_prefix "::" s with Some r => (Some 0%nat, r) | None => (None, s) end in
  match leading, s with
  | Some _, EmptyString => Some (replicate 16 0)
  | _, _ =>
      '(ip, ellipsis, rest) ← ipv6_groups 8 s [] leading;
      match rest with
      | String _ _ => None
      | EmptyString =>
          match ellipsis with
          | None => if (length ip =? 16)%nat then Some ip else None
          | Some e =>
              if (length ip <? 16)%nat
              then Some (take e ip ++ replicate (16 - length ip) 0 ++ drop e ip) else None
          end
      end
  end.

(** Which of ['.'], [':'] and ['%'] comes first decides the family. *)
Fixpoint family (s : string) : option bool :=
  match s with
  | EmptyString => None
  | String c s =>
      if char_is c 46 then Some true else if char_is c 58 then Some false
      else if char_is c 37 then None else family s
  end.

Definition v4InV6Prefix : list Z := replicate 10 0 ++ [255; 255].

Fixpoint has_char (n : nat) (s : string) : bool :=
  match s with EmptyString => false | String c s => char_is c n || has_char n s end.

(** [netip.ParseAddr] for an address that is to have no zone: the 4 or 16
    bytes.  A text with [%] has a zone or is no address. *)
Definition parseAddr (s : string) : option (list Z) :=
  match family s with
  | Some true => parseIPv4 s
  | Some false => if has_char 37 s then None else parseIPv6 s
  | None => None
  end.

Definition As16 (b : list Z) : list Z := if (length b =? 4)%nat then v4InV6Prefix ++ b else b.

(** [net.ParseIP]: 16 bytes or [nil]. *)
Definition ParseIP (s : string) : IP :=
  match parseAddr s with Some b => As16 b | None => [] end.

Definition To4 (ip : IP) : IP :=
  if (length ip =? 4)%nat then ip
  else if (length ip =? 16)%nat && bool_decide (take 12 ip = v4InV6Prefix) then drop 12 ip
  else [].

(** ** Printing *)

Definition octet_text (b : Z) : string := Strconv.FormatInt b.

Fixpoint dotted (l : list Z) : string :=
  match l with
  | [] => EmptyString
  | [b] => octet_text b
  | b :: l => octet_text b +:+ "." +:+ dotted l
  end.

Definition hex_digit_char (d : Z) : ascii := Json.hex_char (Z.to_nat d).

(** [strconv] hexadecimal of a 16-bit group, without leading zeros. *)
Fixpoint hex_text (fuel : nat) (x : Z) (acc : string) : string :=
  match fuel with
  | O => acc
  | S fuel =>
      let acc := String (hex_digit_char (x mod 16)) acc in
      if x <? 16 then acc else hex_text fuel (x / 16) acc
  end.

Fixpoint groups (ip : list Z) : list Z :=
  match ip with a :: b :: r => (a * 256 + b) :: groups r | _ => [] end.

Fixpoint zeros (l : list Z) : nat :=
  match l with x :: l => if x =? 0 then S (zeros l) else O | [] => O end.

(** The first longest run of at least two zero groups from position [i] on:
    where it starts and where it ends. *)
Fixpoint longest_zeros (l : list Z) (i : nat) (best : nat * nat) : nat * nat :=
  match l with
  | [] => best
  | x :: l' =>
      let n := zeros l in
      longest_zeros l' (S i)
        (if (2 <=? n)%nat && (best.2 - best.1 <? n)%nat then (i, (i + n)%nat) else best)
  end.

Definition group_text (x : Z) : string := hex_text 4 x EmptyString.

Fixpoint colons (l : list Z) : string :=
  match l with
  | [] => EmptyString
  | [x] => group_text x
  | x :: l => group_text x +:+ ":" +:+ colons l
  end.

Definition ipv6_text (ip : list Z) : string :=
  let g := groups ip in
  let '(a, b) := longest_zeros g 0 (0%nat, 0%nat) in
  if (a =? b)%nat then colons g else colons (take a g) +:+ "::" +:+ colons (drop b g).

Fixpoint hex_bytes (l : list Z) : string :=
  match l with
  | [] => EmptyString
  | b :: l => String (hex_digit_char (b / 16)) (String (hex_digit_char (b mod 16)) (hex_bytes l))
  end.

(** [net.IP.String] *)
Definition IP_String (ip : IP) : string :=
  match ip with
  | [] => "<nil>"
  | _ =>
      match To4 ip with
      | [] => if (length ip =? 16)%nat then ipv6_text ip else "?" +:+ hex_bytes ip
      | v4 => dotted v4
      end
  end.

Definition JoinHostPort (host port : string) : string :=
  if has_char 58 host || has_char 37 host
  then "[" +:+ host +:+ "]:" +:+ port else host +:+ ":" +:+ port.

(** ** Networks *)

Record IPNet := mkIPNet { net_IP : IP; net_Mask : list Z }.

(** [CIDRMask(ones, 8 * n)] *)
Fixpoint CIDRMask (n : nat) (ones : Z) : list Z :=
  match n with
  | O => []
  | S n =>
      (if 8 <=? ones then 255 else if 0 <? ones then 256 - 2 ^ (8 - ones) else 0) :: CIDRMask n (ones - 8)
  end.

Definition mask_bytes (ip mask : list Z) : list Z := zip_with Z.land ip mask.

(** [IP.Mask] for the masks [CIDRMask] makes. *)
Definition Mask (ip : IP) (mask : list Z) : IP :=
  let ip :=
    if (length mask =? 4)%nat && (length ip =? 16)%nat && bool_decide (take 12 ip = v4InV6Prefix)
    then drop 12 ip else ip in
  if (length ip =? length mask)%nat then mask_bytes ip mask else [].

(** [dtoi] on a text that has to be digits only: below [0xFFFFFF]. *)
Fixpoint dtoi (s : string) (v : Z) : option Z :=
  match s with
  | EmptyString => Some v
  | String c s =>
      d ← Strconv.digit_val c;
      if 16777215 <=? v * 10 + d then None else dtoi s (v * 10 + d)
  end.

(** The text before and after the first byte [n]. *)
Fixpoint Cut (n : nat) (s : string) : option (string * string) :=
  match s with
  | EmptyString => None
  | String c r =>
      if char_is c n then Some (EmptyString, r)
      else '(a, b) ← Cut n r; Some (String c a, b)
  end.

Definition ParseCIDR (s : string) : option (IP * IPNet) :=
  '(addr, mask) ← Cut 47 s;
  b ← parseAddr addr;
  n ← match mask with EmptyString => None | _ => dtoi mask 0 end;
  if 8 * Z.of_nat (length b) <? n then None
  else
    let m := CIDRMask (length b) n in
    Some (As16 b, mkIPNet (Mask (As16 b) m) m).

Definition Contains (n : IPNet) (ip : IP) : bool :=
  let nip := match To4 (net_IP n) with [] => net_IP n | v4 => v4 end in
  let m := if (length (net_Mask n) =? 16)%nat && (length nip =? 4)%nat
           then drop 12 (net_Mask n) else net_Mask n in
  let x := match To4 ip with [] => ip | v4 => v4 end in
  (length nip =? length m)%nat && (length x =? length nip)%nat &&
  bool_decide (mask_bytes nip m = mask_bytes x m).

Example net_samples :
  To4 (ParseIP "10.8.1.254") = [10; 8; 1; 254] ∧ ParseIP "10.8.1.256" = [] ∧
  ParseIP "10.08.1.2" = [] ∧ To4 (ParseIP "::ffff:1.2.3.4") = [1; 2; 3; 4] ∧
  IP_String (ParseIP "2001:0db8:0:0:1:0:0:1") = "2001:db8::1:0:0:1" ∧
  IP_String (ParseIP "::") = "::" ∧ IP_String (ParseIP "1::") = "1::" ∧
  (fst <$> ParseCIDR "10.8.1.7/24") = Some (ParseIP "10.8.1.7") ∧
  (net_IP ∘ snd <$> ParseCIDR "10.8.1.7/20") = Some [10; 8; 0; 0] ∧
  JoinHostPort "::1" "80" = "[::1]:80".
Proof. vm_compute. done. Qed.

(** ** IPv4 addresses *)

Definition is_octet (b : Z) : Prop := 0 <= b < 256.
Definition is_ipv4 (ip : IP) : Prop := length ip = 4%nat ∧ Forall is_octet ip.

(** A property of one octet is checked on all of them. *)
Lemma octet_ind (P : Z → Prop) : Forall P (seqZ 0 256) → ∀ b, is_octet b → P b.
Proof. intros H b Hb. rewrite list.Forall_forall in H. apply H, elem_of_seqZ. unfold is_octet in Hb. lia. Qed.

Lemma octet_text_fields b s acc :
  is_octet b →
  ipv4_fields (octet_text b +:+ s) 0 0 acc =
  ipv4_fields s b (Z.of_nat (String.length (octet_text b))) acc.
Proof.
  intros Hb. revert s acc. pattern b. revert b Hb. apply octet_ind.
  repeat (constructor; [intros; reflexivity|]). constructor.
Qed.

Lemma octet_text_family b s : is_octet b → family (octet_text b +:+ "." +:+ s) = Some true.
Proof.
  intros Hb. revert s. pattern b. revert b Hb. apply octet_ind.
  repeat (constructor; [intros; reflexivity|]). constructor.
Qed.

Lemma octet_text_length b : is_octet b → (0 <? Z.of_nat (String.length (octet_text b))) = true.
Proof.
  intros Hb. pattern b. revert b Hb. apply octet_ind.
  repeat (constructor; [intros; reflexivity|]). constructor.
Qed.

Lemma ipv4_cases ip : is_ipv4 ip →
  ∃ a b c d, ip = [a; b; c; d] ∧ is_octet a ∧ is_octet b ∧ is_octet c ∧ is_octet d.
Proof.
  intros [Hl Hf]. destruct ip as [|a [|b [|c [|d [|]]]]]; try done.
  repeat apply list.Forall_cons in Hf as [? Hf]. by exists a, b, c, d.
Qed.

Lemma ipv4_intro a b c d :
  is_octet a → is_octet b → is_octet c → is_octet d → is_ipv4 [a; b; c; d].
Proof. intros. split; [done|]. by repeat apply Forall_cons_2. Qed.

Lemma parseAddr_dotted ip : is_ipv4 ip → parseAddr (dotted ip) = Some ip.
Proof.
  intros (a & b & c & d & -> & Ha & Hb & Hc & Hd)%ipv4_cases.
  unfold parseAddr. cbn [dotted]. rewrite octet_text_family by done. unfold parseIPv4.
  assert (Hdot : ∀ x s acc, is_octet x → (length acc < 3)%nat →
    ipv4_fields (octet_text x +:+ "." +:+ s) 0 0 acc = ipv4_fields s 0 0 (x :: acc)).
  { intros x s acc Hx Hacc. rewrite octet_text_fields by done.
    change (ipv4_fields ("." +:+ s) x ?d acc) with
      (if char_is "." 46 && (0 <? d) && (length acc <? 3)%nat then ipv4_fields s 0 0 (x :: acc) else None).
    rewrite octet_text_length by done. rewrite (proj2 (Nat.ltb_lt _ _) Hacc). done. }
  rewrite !Hdot by (done || cbn; lia).
  rewrite <-(str_append_nil_r (octet_text d)), octet_text_fields by done.
  cbn [ipv4_fields]. rewrite octet_text_length by done. done.
Qed.

(** Printing and parsing an IPv4 address gives it back. *)
Lemma To4_ParseIP_dotted ip : is_ipv4 ip → To4 (ParseIP (dotted ip)) = ip.
Proof.
  intros Hip. unfold ParseIP. rewrite parseAddr_dotted by done.
  apply ipv4_cases in Hip as (a & b & c & d & -> & _). done.
Qed.

Lemma dotted_inj ip ip' : is_ipv4 ip → is_ipv4 ip' → dotted ip = dotted ip' → ip = ip'.
Proof. intros H H' E. by rewrite <-(To4_ParseIP_dotted ip), E, To4_ParseIP_dotted. Qed.

Lemma IP_String_ipv4 ip : is_ipv4 ip → IP_String ip = dotted ip.
Proof. by intros (a & b & c & d & -> & _)%ipv4_cases. Qed.

(** ** Parsed bytes are octets *)

Lemma ipv4_fields_octets s v d acc l :
  is_octet v → Forall is_octet acc → ipv4_fields s v d acc = Some l → Forall is_octet l.
Proof.
  revert v d acc. induction s as [|c s IH]; intros v d acc Hv Hacc; cbn [ipv4_fields].
  - case_match; [|done]. intros [= <-]. apply Forall_app. split; [by apply Forall_rev|by apply Forall_cons_2].
  - destruct (Strconv.digit_val c) as [x|] eqn:E.
    + apply Strconv.digit_val_range in E. destruct (_ && _); [done|].
      destruct (255 <? v * 10 + x) eqn:Hx; [done|]. apply Z.ltb_ge in Hx. apply IH; [|done].
      unfold is_octet in *. lia.
    + case_match; [|done]. apply IH; [by unfold is_octet|by constructor].
Qed.

Lemma hex_val_range c x : hex_val c = Some x → 0 <= x < 16.
Proof.
  unfold hex_val. destruct (Hex.digit c) as [n|] eqn:E; cbn; [|done]. intros [= <-].
  apply Hex.digit_range in E. lia.
Qed.

Lemma hex_group_range s acc n acc' n' rest :
  0 <= acc < 16 ^ Z.of_nat n → (n ≤ 4)%nat → hex_group s acc n = Some (acc', n', rest) → 0 <= acc' < 65536.
Proof.
  revert acc n. induction s as [|c s IH]; intros acc n Ha Hn; cbn [hex_group].
  - intros [= <- _ _]. assert (16 ^ Z.of_nat n <= 16 ^ 4) by (apply Z.pow_le_mono_r; lia). lia.
  - destruct (hex_val c) as [x|] eqn:E.
    + apply hex_val_range in E. destruct (3 <? n)%nat eqn:Hlt; [done|]. apply Nat.ltb_ge in Hlt.
      apply IH; [|lia]. rewrite Nat2Z.inj_succ, Z.pow_succ_r by lia. lia.
    + intros [= <- _ _]. assert (16 ^ Z.of_nat n <= 16 ^ 4) by (apply Z.pow_le_mono_r; lia). lia.
Qed.

Lemma ipv6_groups_octets fuel s ip e ip' e' rest :
  Forall is_octet ip → ipv6_groups fuel s ip e = Some (ip', e', rest) → Forall is_octet ip'.
Proof.
  revert s ip e. induction fuel as [|fuel IH]; intros s ip e Hip; cbn [ipv6_groups]; [by intros [= <- _ _]|].
  destruct (hex_group s 0 0) as [[[acc [|n]] more]|] eqn:E; [done| |done].
  apply hex_group_range in E; [|done|lia].
  assert (Hip' : Forall is_octet (ip ++ [acc / 256; acc mod 256])).
  { apply Forall_app. split; [done|]. apply Forall_cons_2; [|apply Forall_cons_2; [|constructor]]; unfold is_octet.
    - split; [apply Z.div_pos; lia|apply Z.div_lt_upper_bound; lia].
    - apply Z.mod_pos_bound. lia. }
  destruct (match more with String c _ => char_is c 46 | EmptyString => false end).
  { intros H. destruct (parseIPv4 s) as [o|] eqn:Hp; [|repeat case_match; done].
    apply ipv4_fields_octets in Hp; [|by unfold is_octet|constructor].
    repeat case_match; try done. injection H as <- _ _. by apply Forall_app. }
  destruct more as [|c more]; [by intros [= <- _ _]|]. case_match; [done|].
  destruct more as [|c' more']; [done|]. case_match; [|by apply IH].
  case_match; [done|]. destruct more'; [by intros [= <- _ _]|by apply IH].
Qed.

Lemma parseAddr_octets s b : parseAddr s = Some b → Forall is_octet b.
Proof.
  unfold parseAddr. destruct (family s) as [[]|]; [| |done].
  { apply ipv4_fields_octets; [by unfold is_octet|constructor]. }
  case_match; [done|]. unfold parseIPv6.
  assert (H0 : ∀ n, Forall is_octet (replicate n 0)) by (intros; by apply Forall_replicate).
  destruct (match cut_prefix "::" s with Some r => _ | None => _ end) as [leading t].
  assert (Hgo : ∀ e, (ipv6_groups 8 t [] e ≫= fun '(ip, ellipsis, rest) =>
      match rest with
      | String _ _ => None
      | EmptyString =>
          match ellipsis with
          | None => if (length ip =? 16)%nat then Some ip else None
          | Some e =>
              if (length ip <? 16)%nat
              then Some (take e ip ++ replicate (16 - length ip) 0 ++ drop e ip) else None
          end
      end) = Some b → Forall is_octet b).
  { intros e. destruct (ipv6_groups 8 t [] e) as [[[ip [e'|]] [|]]|] eqn:E; cbn; try done;
      (apply ipv6_groups_octets in E; [|constructor]); case_match; try done; intros [= <-]; [|done].
    rewrite !Forall_app. split_and!; [by apply Forall_take|done|by apply Forall_drop]. }
  destruct leading, t; [intros [= <-]; apply (H0 16%nat)|apply Hgo..].
Qed.

(** A text that denotes an IPv4 address denotes four octets. *)
Lemma To4_ParseIP_ipv4 s : To4 (ParseIP s) ≠ [] → is_ipv4 (To4 (ParseIP s)).
Proof.
  assert (Hf : Forall is_octet (ParseIP s)).
  { unfold ParseIP, As16. destruct (parseAddr s) as [b|] eqn:E; [|constructor].
    apply parseAddr_octets in E. case_match; [|done]. apply Forall_app. split; [|done].
    unfold v4InV6Prefix. apply (bool_decide_unpack _). by vm_compute. }
  unfold To4. destruct (length (ParseIP s) =? 4)%nat eqn:E4.
  { intros _. by apply Nat.eqb_eq in E4. }
  destruct (length (ParseIP s) =? 16)%nat eqn:E16; [|done]. apply Nat.eqb_eq in E16. cbn [andb].
  case_bool_decide; [|done]. intros _. split; [rewrite length_drop; lia|by apply Forall_drop].
Qed.

Lemma ipv4_fields_length s v d acc l : ipv4_fields s v d acc = Some l → length l = 4%nat.
Proof.
  revert v d acc. induction s as [|c s IH]; intros v d acc; cbn [ipv4_fields].
  - destruct (length acc =? 3)%nat eqn:E; [|done]. apply Nat.eqb_eq in E. cbn [andb].
    case_match; [|done]. intros [= <-]. cbn. rewrite length_app, length_rev. cbn. lia.
  - repeat case_match; try done; by apply IH.
Qed.

Lemma parseIPv6_length s b : parseIPv6 s = Some b → length b = 16%nat.
Proof.
  unfold parseIPv6. destruct (match cut_prefix "::" s with Some r => _ | None => _ end) as [leading t].
  assert (Hgo : ∀ x, match x with
    | Some (ip, ellipsis, rest) =>
        match rest with
        | String _ _ => None
        | EmptyString =>
            match ellipsis with
            | None => if (length ip =? 16)%nat then Some ip else None
            | Some e =>
                if (length ip <? 16)%nat
                then Some (take e ip ++ replicate (16 - length ip) 0 ++ drop e ip) else None
            end
        end
    | None => None
    end = Some b → length b = 16%nat).
  { intros [[[ip [e|]] [|]]|]; try done.
    - destruct (length ip <? 16)%nat eqn:Hl; [|done]. apply Nat.ltb_lt in Hl. intros [= <-].
      rewrite !length_app, length_replicate, length_take, length_drop. lia.
    - destruct (length ip =? 16)%nat eqn:Hl; [|done]. intros [= <-]. by apply Nat.eqb_eq. }
  destruct leading as [z|], t as [|c t]; [by intros [= <-]|apply Hgo..].
Qed.

Lemma parseAddr_length s b : parseAddr s = Some b → length b = 4%nat ∨ length b = 16%nat.
Proof.
  unfold parseAddr. destruct (family s) as [[]|]; [|case_match; [done|]|done].
  - intros H%ipv4_fields_length. by left.
  - intros ->%parseIPv6_length. by right.
Qed.

Lemma ParseIP_length s : ParseIP s = [] ∨ length (ParseIP s) = 16%nat.
Proof.
  unfold ParseIP. destruct (parseAddr s) as [b|] eqn:E; [right|by left].
  apply parseAddr_length in E as [Hb|Hb]; unfold As16; rewrite Hb; cbn; lia.
Qed.

(** ** Addresses as numbers *)

Definition ip_num (ip : IP) : Z := foldl (fun n b => n * 256 + b) 0 ip.

Definition ip_of (n : Z) : IP :=
  [n / 16777216 mod 256; n / 65536 mod 256; n / 256 mod 256; n mod 256].

Lemma ip_of_ipv4 n : is_ipv4 (ip_of n).
Proof. split; [done|]. repeat constructor; unfold is_octet; apply Z.mod_pos_bound; lia. Qed.

Lemma ip_num_range ip : is_ipv4 ip → 0 <= ip_num ip < 2 ^ 32.
Proof.
  intros (a & b & c & d & -> & Ha & Hb & Hc & Hd)%ipv4_cases. unfold is_octet in *. cbn. lia.
Qed.

Lemma ip_num_of n : 0 <= n < 2 ^ 32 → ip_num (ip_of n) = n.
Proof.
  intros Hn. cbn.
  assert (H1 : n / 65536 = n / 256 / 256) by (rewrite Z.div_div by lia; done).
  assert (H2 : n / 16777216 = n / 256 / 256 / 256) by (rewrite !Z.div_div by lia; done).
  assert (n / 16777216 < 256) by (apply Z.div_lt_upper_bound; lia).
  assert (0 <= n / 16777216) by (apply Z.div_pos; lia).
  pose proof (Z.div_mod n 256 ltac:(lia)). pose proof (Z.div_mod (n / 256) 256 ltac:(lia)).
  pose proof (Z.div_mod (n / 256 / 256) 256 ltac:(lia)).
  rewrite (Z.mod_small (n / 16777216)) by lia. rewrite H1, H2 in *. lia.
Qed.

Lemma ip_num_inj ip ip' : is_ipv4 ip → is_ipv4 ip' → ip_num ip = ip_num ip' → ip = ip'.
Proof.
  intros (a & b & c & d & -> & Ha & Hb & Hc & Hd)%ipv4_cases
         (a' & b' & c' & d' & -> & Ha' & Hb' & Hc' & Hd')%ipv4_cases.
  unfold is_octet in *. cbn. intros E. repeat f_equal; lia.
Qed.

Lemma ip_num_bound b : Forall is_octet b → 0 <= ip_num b < 256 ^ Z.of_nat (length b).
Proof.
  unfold ip_num. intros Hb. enough (∀ b n, Forall is_octet b → 0 <= n →
    n * 256 ^ Z.of_nat (length b) <= foldl (fun n b => n * 256 + b) n b < (n + 1) * 256 ^ Z.of_nat (length b)) as H.
  { pose proof (H b 0 Hb). lia. }
  clear. intros b n Hb. revert n. induction Hb as [|x b Hx _ IH]; intros n Hn; cbn [foldl length]; [lia|].
  unfold is_octet in Hx. rewrite Nat2Z.inj_succ, Z.pow_succ_r by lia.
  pose proof (IH (n * 256 + x) ltac:(lia)). pose proof (Z.pow_pos_nonneg 256 (Z.of_nat (length b))). nia.
Qed.

End Net.
