(* ===== verification/GoNetip.v ===== *)
(** * GoNetip: the parts of Go's [net/netip] package the program uses

    [ParseAddr], [ParsePrefix], [Prefix.Masked], [Prefix.Contains], [Addr.Next],
    [Addr.Prev] and the texts of both.  As in the library an address is a
    number together with its family.  An IPv4 address or network that is printed
    reads back as itself, and a network contains exactly the addresses between
    its first and its last one. *)

From S2P Require Import Prelude GoLib GoNet.
From Stdlib Require Import Ascii.
Import Net GoStrings.
Local Open Scope Z_scope.

Module Netip.
Record Addr := mkAddr { Is4 : bool; num : Z }.
#[export] Instance Addr_eq_dec : EqDecision Addr.
Proof. solve_decision. Defined.

Definition BitLen (is4 : bool) : Z := if is4 then 32 else 128.
Definition valid (a : Addr) : Prop := 0 <= num a < 2 ^ BitLen (Is4 a).

(** An address with a zone, which is never an IPv4 address and which no network
    contains, is not read. *)
Definition ParseAddr (s : string) : option Addr :=
  b ← parseAddr s; Some (mkAddr (length b =? 4)%nat (ip_num b)).

Fixpoint octets (n : nat) (x : Z) : list Z :=
  match n with O => [] | S n => x / 256 ^ Z.of_nat n mod 256 :: octets n x end.

Definition String (a : Addr) : string :=
  if Is4 a then dotted (octets 4 (num a))
  else if num a / 2 ^ 32 =? 65535 then "::ffff:" +:+ dotted (octets 4 (num a))
  else ipv6_text (octets 16 (num a)).

(** [None] is the zero address. *)
Definition Next (a : Addr) : option Addr :=
  if num a + 1 =? 2 ^ BitLen (Is4 a) then None else Some (mkAddr (Is4 a) (num a + 1)).
Definition Prev (a : Addr) : option Addr :=
  if num a =? 0 then None else Some (mkAddr (Is4 a) (num a - 1)).

(** ** Networks *)
Record Prefix := mkPrefix { Address : Addr; Bits : Z }.
#[export] Instance Prefix_eq_dec : EqDecision Prefix.
Proof. solve_decision. Defined.

Definition host_bits (p : Prefix) : Z := BitLen (Is4 (Address p)) - Bits p.
Definition valid_prefix (p : Prefix) : Prop := valid (Address p) ∧ 0 <= Bits p <= BitLen (Is4 (Address p)).

(** The text before and after the last byte [c]. *)
Definition CutLast (c : ascii) (s : string) : option (string * string) :=
  '(a, b) ← Cut (nat_of_ascii c) (String.rev s); Some (String.rev b, String.rev a).

Definition one_to_nine (s : string) : bool :=
  match s with
  | EmptyString => false
  | String.String c _ => (49 <=? nat_of_ascii c)%nat && (nat_of_ascii c <=? 57)%nat
  end.

Definition ParsePrefix (s : string) : option Prefix :=
  '(ip, bitsStr) ← CutLast "/" s;
  a ← ParseAddr ip;
  if (1 <? String.length bitsStr)%nat && negb (one_to_nine bitsStr) then None
  else match Strconv.ParseInt bitsStr with
       | Err _ => None
       | Ok bits => if (bits <? 0) || (BitLen (Is4 a) <? bits) then None else Some (mkPrefix a bits)
       end.

Definition Masked (p : Prefix) : Prefix :=
  mkPrefix (mkAddr (Is4 (Address p)) (num (Address p) / 2 ^ host_bits p * 2 ^ host_bits p)) (Bits p).

Definition Contains (p : Prefix) (a : Addr) : bool :=
  Bool.eqb (Is4 (Address p)) (Is4 a) && (Z.shiftr (Z.lxor (num a) (num (Address p))) (host_bits p) =? 0).

Definition Prefix_String (p : Prefix) : string := String (Address p) +:+ "/" +:+ Strconv.FormatInt (Bits p).

Example netip_samples :
  (Prefix_String ∘ Masked <$> ParsePrefix "10.8.1.7/20") = Some "10.8.0.0/20" ∧
  ParsePrefix "10.8.1.7/024" = None ∧ ParsePrefix "10.8.1.7/33" = None ∧ ParsePrefix "10.8.1.7" = None ∧
  (Prefix_String ∘ Masked <$> ParsePrefix "2001:db8:ffff::1/33") = Some "2001:db8:8000::/33" ∧
  (String <$> ParseAddr "::ffff:1.2.3.4") = Some "::ffff:1.2.3.4" ∧
  (p ← ParsePrefix "10.8.0.0/20"; a ← ParseAddr "10.8.15.255"; Some (Contains p a)) = Some true ∧
  (p ← ParsePrefix "10.8.0.0/20"; a ← ParseAddr "10.8.16.0"; Some (Contains p a)) = Some false ∧
  (p ← ParsePrefix "0.0.0.0/0"; a ← ParseAddr "::ffff:1.2.3.4"; Some (Contains p a)) = Some false.
Proof. vm_compute. done. Qed.

(** ** Addresses *)
Lemma ParseAddr_valid s a : ParseAddr s = Some a → valid a.
Proof.
  unfold ParseAddr. destruct (parseAddr s) as [b|] eqn:E; cbn; [|done]. intros [= <-].
  pose proof (ip_num_bound b (parseAddr_octets _ _ E)) as Hb. unfold valid. cbn.
  apply parseAddr_length in E as [Hl|Hl]; rewrite Hl in *; cbn in *; lia.
Qed.

Lemma octets_ip_of n : octets 4 n = ip_of n.
Proof. cbn. by rewrite Z.div_1_r. Qed.

(** An IPv4 address reads back as itself. *)
Lemma ParseAddr_String a : Is4 a = true → valid a → ParseAddr (String a) = Some a.
Proof.
  destruct a as [b n]. cbn. intros -> Hv. unfold valid in Hv. cbn in Hv. unfold String. cbn [Is4 num].
  rewrite octets_ip_of. unfold ParseAddr. rewrite parseAddr_dotted by apply ip_of_ipv4. cbn [mbind option_bind].
  by rewrite ip_num_of.
Qed.

(** ** Networks *)
Lemma host_bits_range p : valid_prefix p → 0 <= host_bits p.
Proof. unfold valid_prefix, host_bits. lia. Qed.

Lemma Contains_spec p a :
  valid_prefix p → Contains p a = true ↔
    Is4 (Address p) = Is4 a ∧ num a / 2 ^ host_bits p = num (Address p) / 2 ^ host_bits p.
Proof.
  intros Hp%host_bits_range. unfold Contains. rewrite andb_true_iff, eqb_true_iff, Z.eqb_eq, Z.shiftr_lxor.
  rewrite !Z.shiftr_div_pow2 by done. f_equiv. split; [apply Z.lxor_eq|intros ->; apply Z.lxor_nilpotent].
Qed.

(** A network contains the addresses from its first one on, as many as the bits
    it leaves to the hosts can tell apart. *)
Lemma Contains_range p a :
  valid_prefix p → Contains p a = true ↔
    Is4 (Address p) = Is4 a ∧ num (Address (Masked p)) <= num a < num (Address (Masked p)) + 2 ^ host_bits p.
Proof.
  intros Hp. rewrite Contains_spec by done. f_equiv. apply host_bits_range in Hp. cbn.
  pose proof (Z.pow_pos_nonneg 2 (host_bits p) ltac:(lia) Hp). set (k := 2 ^ host_bits p) in *.
  pose proof (Z.div_mod (num a) k ltac:(lia)). pose proof (Z.mod_pos_bound (num a) k ltac:(lia)).
  split; [intros <-; lia|]. intros Hr. symmetry. apply Z.div_unique with (num a - num (Address p) / k * k); lia.
Qed.

Lemma Masked_valid p : valid_prefix p → valid_prefix (Masked p).
Proof.
  intros Hp. pose proof (host_bits_range _ Hp) as Hk. destruct Hp as [Ha Hb]. split; [|done]. unfold valid in *. cbn.
  pose proof (Z.pow_pos_nonneg 2 (host_bits p) ltac:(lia) Hk).
  pose proof (Z.mul_div_le (num (Address p)) (2 ^ host_bits p) ltac:(lia)).
  assert (0 <= num (Address p) / 2 ^ host_bits p) by (apply Z.div_pos; lia). nia.
Qed.

Lemma Masked_Contains p a : valid_prefix p → Contains (Masked p) a = Contains p a.
Proof.
  intros Hp. apply Bool.eq_iff_eq_true. rewrite !Contains_spec by (by try apply Masked_valid). cbn.
  change (host_bits (Masked p)) with (host_bits p). apply host_bits_range in Hp.
  by rewrite Z.div_mul by (apply Z.pow_nonzero; lia).
Qed.

Lemma Masked_idemp p : valid_prefix p → Masked (Masked p) = Masked p.
Proof.
  intros Hp%host_bits_range. unfold Masked at 1. change (host_bits (Masked p)) with (host_bits p). cbn.
  by rewrite Z.div_mul by (apply Z.pow_nonzero; lia).
Qed.

Lemma Masked_end p : valid_prefix p → num (Address (Masked p)) + 2 ^ host_bits p <= 2 ^ BitLen (Is4 (Address p)).
Proof.
  intros Hp. pose proof (host_bits_range _ Hp) as Hk. destruct Hp as [Ha Hb]. unfold valid in Ha. cbn.
  pose proof (Z.pow_pos_nonneg 2 (host_bits p) ltac:(lia) Hk).
  assert (Hw : 2 ^ BitLen (Is4 (Address p)) = 2 ^ Bits p * 2 ^ host_bits p)
    by (rewrite <-Z.pow_add_r by lia; f_equal; unfold host_bits; lia).
  assert (num (Address p) / 2 ^ host_bits p < 2 ^ Bits p) by (apply Z.div_lt_upper_bound; lia). nia.
Qed.

Lemma ParsePrefix_valid s p : ParsePrefix s = Some p → valid_prefix p.
Proof.
  unfold ParsePrefix. destruct (CutLast "/" s) as [[ip bits]|]; cbn; [|done].
  destruct (ParseAddr ip) as [a|] eqn:Ha; cbn; [|done]. apply ParseAddr_valid in Ha.
  destruct (_ && _); [done|]. destruct (Strconv.ParseInt bits) as [n|]; [|done].
  destruct ((n <? 0) || _) eqn:E; [done|]. apply orb_false_iff in E as [?%Z.ltb_ge ?%Z.ltb_ge].
  intros [= <-]. by split.
Qed.

Lemma CutLast_app c a b : contains_byte c b = false → CutLast c (a +:+ String.String c b) = Some (a, b).
Proof.
  intros Hb. unfold CutLast. rewrite str_rev_append, str_rev_cons.
  assert (H : ∀ s t, contains_byte c s = false → Cut (nat_of_ascii c) (s +:+ String.String c t) = Some (s, t)).
  { clear. induction s as [|x s IH]; intros t; cbn [contains_byte].
    - intros _. change (EmptyString +:+ String.String c t) with (String.String c t). cbn [Cut]. unfold char_is. by rewrite Nat.eqb_refl.
    - intros [Hx Hs]%orb_false_iff. apply bool_decide_eq_false in Hx. rewrite string_app_cons. cbn [Cut]. unfold char_is.
      destruct (Nat.eqb_spec (nat_of_ascii x) (nat_of_ascii c)) as [E|_].
      { exfalso. apply Hx. by rewrite <-(ascii_nat_embedding x), E, ascii_nat_embedding. }
      by rewrite IH. }
  rewrite str_append_assoc. change (String.String c EmptyString +:+ String.rev a) with (String.String c (String.rev a)).
  rewrite H by (by rewrite contains_byte_rev). cbn. by rewrite !str_rev_involutive.
Qed.

Lemma bits_text_sign n : 0 <= n → (1 <? String.length (Strconv.FormatInt n))%nat && negb (one_to_nine (Strconv.FormatInt n)) = false.
Proof.
  intros Hn. destruct (decide (n = 0)) as [->|Hz]; [done|]. unfold Strconv.FormatInt.
  destruct (Z.ltb_spec n 0); [lia|].
  destruct (Strconv.digits_head_nonzero (Strconv.digit_fuel n) n EmptyString) as (d & rest & Hd & ->);
    [lia|by apply Strconv.digit_fuel_enough|].
  assert (Hone : one_to_nine (String.String (Strconv.digit_char d) rest) = true).
  { assert (Hs : Forall (fun d => one_to_nine (String.String (Strconv.digit_char d) EmptyString) = true) (seqZ 1 9))
      by (apply (bool_decide_unpack _); by vm_compute).
    rewrite list.Forall_forall in Hs. apply (Hs d). apply elem_of_seqZ. lia. }
  by rewrite Hone, andb_false_r.
Qed.

(** A network over IPv4 addresses reads back as itself. *)
Lemma ParsePrefix_String p : Is4 (Address p) = true → valid_prefix p → ParsePrefix (Prefix_String p) = Some p.
Proof.
  intros H4 [Ha Hb]. unfold ParsePrefix, Prefix_String. rewrite H4 in Hb. cbn in Hb.
  change ("/" +:+ ?x) with (String.String "/" x).
  rewrite CutLast_app by (by apply Strconv.FormatInt_contains). cbn [mbind option_bind].
  rewrite ParseAddr_String by done. cbn [mbind option_bind]. rewrite bits_text_sign by lia.
  rewrite Strconv.ParseInt_FormatInt by (unfold in_int64, min_int64, max_int64; lia). rewrite H4. cbn.
  destruct (Z.ltb_spec (Bits p) 0); [lia|]. destruct (Z.ltb_spec 32 (Bits p)); [lia|]. by destruct p.
Qed.

(** The [net] package reads the text of a network over IPv4 addresses as the
    same network. *)
Lemma Cut_app n a b : contains_byte (ascii_of_nat n) a = false → (n < 256)%nat → Cut n (a +:+ String.String (ascii_of_nat n) b) = Some (a, b).
Proof.
  intros Ha Hn. induction a as [|x a IH].
  - rewrite string_app_nil. cbn [Cut]. unfold char_is. by rewrite nat_ascii_embedding, Nat.eqb_refl by lia.
  - cbn [contains_byte] in Ha. apply orb_false_iff in Ha as [Hx Ha]. apply bool_decide_eq_false in Hx.
    rewrite string_app_cons. cbn [Cut]. unfold char_is. destruct (Nat.eqb_spec (nat_of_ascii x) n) as [E|_].
    { exfalso. apply Hx. by rewrite <-E, ascii_nat_embedding. }
    by rewrite IH.
Qed.

Lemma dotted_contains c l : Strconv.digit_val c = None → c ≠ "."%char → c ≠ "-"%char → contains_byte c (dotted l) = false.
Proof.
  intros Hc Hdot Hm. assert (Hf : ∀ n, contains_byte c (octet_text n) = false) by (intros; by apply Strconv.FormatInt_contains).
  induction l as [|b [|b' l] IH]; [done|apply Hf|].
  change (dotted (b :: b' :: l)) with (octet_text b +:+ "." +:+ dotted (b' :: l)).
  rewrite !contains_byte_append, Hf, IH. cbn [contains_byte]. by rewrite bool_decide_eq_false_2.
Qed.

Lemma dtoi_bits n : 0 <= n <= 32 → dtoi (Strconv.FormatInt n) 0 = Some n ∧ Strconv.FormatInt n ≠ EmptyString.
Proof.
  intros Hn. assert (H : Forall (fun n => dtoi (Strconv.FormatInt n) 0 = Some n ∧ Strconv.FormatInt n ≠ EmptyString) (seqZ 0 33))
    by (apply (bool_decide_unpack _); by vm_compute).
  rewrite list.Forall_forall in H. apply H. apply elem_of_seqZ. lia.
Qed.

Lemma ParseCIDR_String p :
  Is4 (Address p) = true → valid_prefix p →
  ∃ ip, parseAddr (String (Address p)) = Some ip ∧
    ParseCIDR (Prefix_String p) = Some (As16 ip, mkIPNet (Mask (As16 ip) (CIDRMask 4 (Bits p))) (CIDRMask 4 (Bits p))).
Proof.
  intros H4 [Ha Hb]. rewrite H4 in Hb. cbn in Hb. destruct (Address p) as [is4 n] eqn:Ea. cbn in H4. subst is4.
  assert (Hip : is_ipv4 (octets 4 n)) by (rewrite octets_ip_of; apply ip_of_ipv4).
  exists (octets 4 n). unfold String. cbn [Is4 num]. split; [by apply parseAddr_dotted|].
  unfold ParseCIDR, Prefix_String. rewrite Ea. unfold String. cbn [Is4 num].
  change ("/" +:+ ?x) with (String.String (ascii_of_nat 47) x).
  rewrite Cut_app by (by apply dotted_contains || lia). cbn [mbind option_bind].
  rewrite parseAddr_dotted by done. cbn [mbind option_bind]. destruct (dtoi_bits (Bits p)) as [Hd Hne]; [lia|].
  destruct (Strconv.FormatInt (Bits p)) eqn:Ef; [done|]. rewrite Hd. cbn [mbind option_bind].
  assert (Hl : length (octets 4 n) = 4%nat) by apply Hip. rewrite Hl. change (8 * Z.of_nat 4) with 32.
  by destruct (Z.ltb_spec 32 (Bits p)); [lia|].
Qed.

Lemma invisible_digit c : visible c = false → Strconv.digit_val c = None ∧ c ≠ "."%char ∧ c ≠ "/"%char ∧ c ≠ "-"%char.
Proof.
  intros Hc. split_and!; [|by intros ->..]. unfold Strconv.digit_val. destruct (_ && _) eqn:E; [|done]. exfalso.
  unfold visible in Hc. apply andb_true_iff in E as [E1 E2]. apply andb_false_iff in Hc as [H|H];
    rewrite ?Nat.leb_le, ?Nat.leb_gt in *; lia.
Qed.

Lemma ipv4_fields_visible c s v d acc l : visible c = false → ipv4_fields s v d acc = Some l → contains_byte c s = false.
Proof.
  intros Hc. destruct (invisible_digit c Hc) as (Hd & Hdot & _). revert v d acc.
  induction s as [|a s IH]; intros v d acc; [done|]. cbn [ipv4_fields contains_byte]. intros H. apply orb_false_iff.
  destruct (Strconv.digit_val a) eqn:E.
  - split; [apply bool_decide_eq_false; congruence|]. repeat case_match; try done. by eapply IH.
  - destruct (char_is a 46) eqn:Ea; [|done]. split.
    + apply bool_decide_eq_false. intros ->. unfold char_is in Ea. apply Nat.eqb_eq in Ea. apply Hdot.
      by rewrite <-(ascii_nat_embedding c), Ea.
    + repeat case_match; try done. by eapply IH.
Qed.

(** The text of an IPv4 address has no blanks around it. *)
Lemma ParseAddr_trimmed s a : ParseAddr s = Some a → Is4 a = true → TrimSpace s = s ∧ s ≠ EmptyString.
Proof.
  unfold ParseAddr. destruct (parseAddr s) as [b|] eqn:E; [|done]. cbn. intros [= <-] H4. cbn in H4. apply Nat.eqb_eq in H4.
  unfold parseAddr in E. destruct (family s) as [[]|] eqn:Ef; [..|done].
  - split; [|by intros ->]. apply TrimSpace_free. intros c Hc. by eapply ipv4_fields_visible.
  - destruct (has_char 37 s); [done|]. apply parseIPv6_length in E. lia.
Qed.

Lemma Prefix_String_trimmed p : Is4 (Address p) = true → TrimSpace (Prefix_String p) = Prefix_String p ∧ Prefix_String p ≠ EmptyString.
Proof.
  intros H4. split.
  - apply TrimSpace_free. intros c Hc. destruct (invisible_digit c Hc) as (Hd & Hdot & Hslash & Hm). unfold Prefix_String, String. rewrite H4.
    rewrite !contains_byte_append, dotted_contains, Strconv.FormatInt_contains by done. cbn. by rewrite bool_decide_eq_false_2.
  - unfold Prefix_String. by destruct (String (Address p)).
Qed.
End Netip.
