(* ===== verification/GoUrl.v ===== *)
(** * GoUrl: the parts of [net/url] the issued links use

    [url.QueryEscape], the two ways escaped text is read back ([url.unescape]
    in a query, where a plus sign is a space, and in the other parts of a URL,
    where it is not), and [url.Values.Encode]. *)

From S2P Require Import Prelude GoLib.
From Stdlib Require Import Ascii.
Import GoStrings.

Module Url.

(** Letters, digits and the four unreserved marks. *)
Definition unreserved (c : ascii) : bool :=
  let n := nat_of_ascii c in
  bool_decide (97 ≤ n ≤ 122) || bool_decide (65 ≤ n ≤ 90) || bool_decide (48 ≤ n ≤ 57) ||
  bool_decide (c ∈ ["-"; "_"; "."; "~"]%char).

(** [upperhex] *)
Definition upper_hex (n : nat) : ascii := if decide (n < 10) then ascii_of_nat (48 + n) else ascii_of_nat (55 + n).

Definition escape_char (c : ascii) : string :=
  if bool_decide (c = " "%char) then "+"
  else if unreserved c then String c EmptyString
  else String "%" (String (upper_hex (nat_of_ascii c / 16))
                     (String (upper_hex (nat_of_ascii c mod 16)) EmptyString)).

Fixpoint QueryEscape (s : string) : string :=
  match s with
  | EmptyString => EmptyString
  | String c r => escape_char c +:+ QueryEscape r
  end.

(** [url.unescape]; in a query component a plus sign is a space. *)
Fixpoint unescape (query : bool) (s : string) : option string :=
  match s with
  | EmptyString => Some EmptyString
  | String "%" (String a (String b r)) =>
      match Hex.digit a, Hex.digit b with
      | Some x, Some y => String (ascii_of_nat (16 * x + y)) <$> unescape query r
      | _, _ => None
      end
  | String "%" _ => None
  | String c r =>
      String (if query && bool_decide (c = "+"%char) then " "%char else c) <$> unescape query r
  end.

(** The keys of a [url.Values] map with one value each, in key order. *)
Definition encode_pair (kv : string * string) : string := QueryEscape kv.1 +:+ "=" +:+ QueryEscape kv.2.
Definition Encode (values : list (string * string)) : string := Join "&" (encode_pair <$> values).

(** ** Taking a URL apart

    [strings.Cut], and the parts of [scheme://userinfo@host/path?query#fragment]
    in the order [url.Parse] splits them off. *)
Fixpoint cut_byte (c : ascii) (s : string) : option (string * string) :=
  match s with
  | EmptyString => None
  | String a r => if bool_decide (a = c) then Some (EmptyString, r) else '(x, y) ← cut_byte c r; Some (String a x, y)
  end.

Record parts := mkParts {
  pt_userinfo : string;
  pt_host : string;
  pt_query : list (string * string);
  pt_fragment : string;
}.

Definition query_pair (s : string) : option (string * string) :=
  '(k, v) ← cut_byte "=" s; k ← unescape true k; v ← unescape true v; Some (k, v).

Definition Parse (scheme s : string) : option parts :=
  rest ← cut_prefix (scheme +:+ "://") s;
  '(rest, fragment) ← cut_byte "#" rest;
  '(rest, query) ← cut_byte "?" rest;
  '(authority, _) ← cut_byte "/" rest;
  '(user, host) ← cut_byte "@" authority;
  user ← unescape false user;
  query ← mapM query_pair (Split "&" query);
  fragment ← unescape false fragment;
  Some (mkParts user host query fragment).

Lemma cut_byte_append c a b : contains_byte c a = false → cut_byte c (a +:+ String c b) = Some (a, b).
Proof.
  induction a as [|d a IH]; cbn [contains_byte].
  - intros _. rewrite string_app_nil. cbn. by rewrite bool_decide_eq_true_2.
  - intros [Hd Ha]%orb_false_iff. rewrite string_app_cons. cbn [cut_byte]. by rewrite Hd, IH.
Qed.

(** ** Reading back *)

Definition plus_for_space (c : ascii) : ascii := if bool_decide (c = " "%char) then "+"%char else c.

Lemma upper_hex_digit n : n < 16 → Hex.digit (upper_hex n) = Some n.
Proof. intros H. do 16 (destruct n as [|n]; [done|]). lia. Qed.

Lemma escape_char_cases c :
  (c = " "%char ∧ escape_char c = "+") ∨
  (c ≠ " "%char ∧ unreserved c = true ∧ escape_char c = String c EmptyString) ∨
  (c ≠ " "%char ∧ unreserved c = false ∧ escape_char c =
     String "%" (String (upper_hex (nat_of_ascii c / 16)) (String (upper_hex (nat_of_ascii c mod 16)) EmptyString))).
Proof.
  unfold escape_char. case_bool_decide; [by left|right].
  destruct (unreserved c); [by left|by right].
Qed.

Lemma unreserved_plain c : unreserved c = true → c ≠ "%"%char ∧ c ≠ "+"%char.
Proof. intros H. split; intros ->; by vm_compute in H. Qed.

Lemma unescape_plain q c r : c ≠ "%"%char →
  unescape q (String c r) =
  String (if q && bool_decide (c = "+"%char) then " "%char else c) <$> unescape q r.
Proof. intros Hc. destruct c as [[] [] [] [] [] [] [] []]; first [reflexivity|by destruct Hc]. Qed.

Lemma unescape_hex q n r : n < 256 →
  unescape q (String "%" (String (upper_hex (n / 16)) (String (upper_hex (n mod 16)) r))) =
  String (ascii_of_nat n) <$> unescape q r.
Proof.
  intros Hn. cbn [unescape]. rewrite !upper_hex_digit.
  - by rewrite <-(Nat.div_mod_eq n 16).
  - by apply Nat.mod_upper_bound.
  - apply Nat.Div0.div_lt_upper_bound. lia.
Qed.

Lemma unescape_char q c r :
  unescape q (escape_char c +:+ r) = String (if q then c else plus_for_space c) <$> unescape q r.
Proof.
  destruct (escape_char_cases c) as [[-> ->]|[(Hs & Hu & ->)|(Hs & Hu & ->)]];
    rewrite ?string_app_cons, string_app_nil.
  - rewrite unescape_plain by done. by destruct q.
  - destruct (unreserved_plain c Hu) as [Hp Hq]. rewrite unescape_plain by done.
    rewrite bool_decide_eq_false_2, andb_false_r by done. unfold plus_for_space.
    rewrite bool_decide_eq_false_2 by done. by destruct q.
  - rewrite unescape_hex by apply nat_ascii_bounded. rewrite ascii_nat_embedding.
    unfold plus_for_space. rewrite bool_decide_eq_false_2 by done. by destruct q.
Qed.

Lemma unescape_QueryEscape s : unescape true (QueryEscape s) = Some s.
Proof. induction s as [|c s IH]; [done|]. cbn [QueryEscape]. by rewrite unescape_char, IH. Qed.

Lemma unescape_component s : unescape false (QueryEscape s) = Some (map_string plus_for_space s).
Proof. induction s as [|c s IH]; [done|]. cbn [QueryEscape]. by rewrite unescape_char, IH. Qed.

(** ** Escaped text holds no separator *)

Definition separator (c : ascii) : bool := bool_decide (c ∈ [":"; "/"; "?"; "#"; "["; "]"; "@"; "&"; "="]%char).

Lemma upper_hex_separator n : n < 16 → separator (upper_hex n) = false.
Proof. intros H. do 16 (destruct n as [|n]; [done|]). lia. Qed.

Lemma unreserved_separator c : unreserved c = true → separator c = false.
Proof. destruct c as [[] [] [] [] [] [] [] []]; vm_compute; congruence. Qed.

Lemma escape_char_separator c d : separator d = true → contains_byte d (escape_char c) = false.
Proof.
  intros Hd. assert (Hne : ∀ a, separator a = false → bool_decide (a = d) = false).
  { intros a Ha. apply bool_decide_eq_false. intros ->. congruence. }
  destruct (escape_char_cases c) as [[-> ->]|[(Hs & Hu & ->)|(Hs & Hu & ->)]]; cbn [contains_byte];
    rewrite !Hne; auto using unreserved_separator.
  - apply upper_hex_separator, Nat.mod_upper_bound. lia.
  - apply upper_hex_separator, Nat.Div0.div_lt_upper_bound, nat_ascii_bounded.
Qed.

Lemma QueryEscape_separator s d : separator d = true → contains_byte d (QueryEscape s) = false.
Proof.
  intros Hd. induction s as [|c s IH]; [done|]. cbn [QueryEscape].
  by rewrite contains_byte_append, IH, escape_char_separator.
Qed.

Lemma query_pair_encode kv : query_pair (encode_pair kv) = Some kv.
Proof.
  destruct kv as [k v]. unfold query_pair, encode_pair. cbn [fst snd].
  rewrite string_app_cons, string_app_nil, cut_byte_append by (by apply QueryEscape_separator).
  cbn. by rewrite !unescape_QueryEscape.
Qed.

Lemma encode_pair_separator kv d : separator d = true → d ≠ "="%char → contains_byte d (encode_pair kv) = false.
Proof.
  intros Hd Hne. unfold encode_pair. rewrite !contains_byte_append, !QueryEscape_separator by done.
  cbn. by rewrite bool_decide_eq_false_2.
Qed.

Lemma Join_contains d sep l :
  contains_byte d sep = false → Forall (fun s => contains_byte d s = false) l → contains_byte d (Join sep l) = false.
Proof.
  intros Hsep. induction 1 as [|s l Hs Hl IH]; [done|]. destruct l; [done|].
  change (contains_byte d (s +:+ sep +:+ Join sep (s0 :: l)) = false).
  by rewrite !contains_byte_append, Hs, Hsep, IH.
Qed.

Lemma Encode_separator values d :
  separator d = true → d ≠ "="%char → d ≠ "&"%char → contains_byte d (Encode values) = false.
Proof.
  intros. apply Join_contains; [cbn; by rewrite bool_decide_eq_false_2|].
  apply Forall_fmap, Forall_true. intros kv. by apply encode_pair_separator.
Qed.

Lemma query_of_Encode values : values ≠ [] → mapM query_pair (Split "&" (Encode values)) = Some values.
Proof.
  intros Hne. unfold Encode. rewrite Split_Join.
  - apply mapM_Some. induction values as [|kv l IH]; [by constructor|]. constructor; [apply query_pair_encode|].
    destruct l; [constructor|]. by apply IH.
  - by destruct values.
  - apply Forall_fmap, Forall_true. intros kv. by apply encode_pair_separator.
Qed.
End Url.
