(* ===== verification/GoUrlParse.v ===== *)
(** * GoUrlParse: [url.Parse] and [URL.String]

    The parser and the printer of [net/url] for URLs of any shape, as the
    program uses them on links it hands out and on addresses an administrator
    enters: escaping by the kind of component, schemes, opaque parts, user
    information, hosts with ports and bracketed IPv6 addresses, paths and
    fragments with their preferred encodings. *)

From S2P Require Import Prelude GoLib GoNet GoUrl.
From Stdlib Require Import Ascii.
Import GoStrings.

Module UrlParse.

Inductive encoding := EncodePath | EncodeUserPassword | EncodeHost | EncodeZone | EncodeFragment.

#[export] Instance encoding_eq_dec : EqDecision encoding.
Proof. solve_decision. Defined.

Definition alphanum (c : ascii) : bool :=
  let n := nat_of_ascii c in
  bool_decide (97 ≤ n ≤ 122) || bool_decide (65 ≤ n ≤ 90) || bool_decide (48 ≤ n ≤ 57).

Definition one_of (cs : string) (c : ascii) : bool := contains_byte c cs.
Definition quote_char : ascii := ascii_of_nat 34.
Definition apostrophe : ascii := ascii_of_nat 39.

Definition shouldEscape (c : ascii) (mode : encoding) : bool :=
  if alphanum c then false
  else if (bool_decide (mode = EncodeHost) || bool_decide (mode = EncodeZone)) &&
          (one_of "!$&()*+,;=:[]<>" c || bool_decide (c = apostrophe) || bool_decide (c = quote_char)) then false
  else if one_of "-_.~" c then false
  else if one_of "$&+,/:;=?@" c &&
          (bool_decide (mode = EncodePath) || bool_decide (mode = EncodeUserPassword) || bool_decide (mode = EncodeFragment))
  then match mode with
       | EncodePath => bool_decide (c = "?"%char)
       | EncodeUserPassword => one_of "@/?:" c
       | _ => false
       end
  else if bool_decide (mode = EncodeFragment) && one_of "!()*" c then false
  else true.

(** [escape] for the components in which a space is no plus sign. *)
Definition escape_char (mode : encoding) (c : ascii) : string :=
  if shouldEscape c mode
  then String "%" (String (Url.upper_hex (nat_of_ascii c / 16)) (String (Url.upper_hex (nat_of_ascii c mod 16)) EmptyString))
  else String c EmptyString.
Fixpoint escape (mode : encoding) (s : string) : string :=
  match s with EmptyString => EmptyString | String c r => escape_char mode c +:+ escape mode r end.

(** Whether a host may hold the escaped byte [v], written with the digits [a] and [b]. *)
Definition host_escape_ok (mode : encoding) (a b : ascii) (x y : nat) : bool :=
  let percent := bool_decide (a = "2"%char) && bool_decide (b = "5"%char) in
  let v := ascii_of_nat (16 * x + y) in
  match mode with
  | EncodeHost => bool_decide (8 ≤ x) || percent
  | EncodeZone => percent || bool_decide (v = " "%char) || negb (shouldEscape v EncodeHost)
  | _ => true
  end.

Definition host_byte_ok (mode : encoding) (c : ascii) : bool :=
  match mode with
  | EncodeHost | EncodeZone => bool_decide (128 ≤ nat_of_ascii c) || negb (shouldEscape c mode)
  | _ => true
  end.

Fixpoint unescape (mode : encoding) (s : string) : option string :=
  match s with
  | EmptyString => Some EmptyString
  | String c r =>
      if bool_decide (c = "%"%char) then
        match r with
        | String a (String b r) =>
            match Hex.digit a, Hex.digit b with
            | Some x, Some y =>
                if host_escape_ok mode a b x y then String (ascii_of_nat (16 * x + y)) <$> unescape mode r else None
            | _, _ => None
            end
        | _ => None
        end
      else if host_byte_ok mode c then String c <$> unescape mode r else None
  end.

Record URL := mkURL {
  Scheme : string;
  Opaque : string;
  User : option (string * option string);
  Host : string;
  Path : string;
  RawPath : string;
  OmitHost : bool;
  ForceQuery : bool;
  RawQuery : string;
  Fragment : string;
  RawFragment : string;
}.

(** [strings.Cut] without the flag. *)
Definition Cut (c : ascii) (s : string) : string * string := default (s, EmptyString) (Url.cut_byte c s).

(** The text before and after the last [c]. *)
Fixpoint cut_last (c : ascii) (s : string) : option (string * string) :=
  match s with
  | EmptyString => None
  | String a r =>
      match cut_last c r with
      | Some (x, y) => Some (String a x, y)
      | None => if bool_decide (a = c) then Some (EmptyString, r) else None
      end
  end.

Fixpoint has_control (s : string) : bool :=
  match s with
  | EmptyString => false
  | String c r => bool_decide (nat_of_ascii c < 32 ∨ nat_of_ascii c = 127) || has_control r
  end.

Definition letter (c : ascii) : bool :=
  bool_decide (97 ≤ nat_of_ascii c ≤ 122) || bool_decide (65 ≤ nat_of_ascii c ≤ 90).

(** [getScheme]: [None] is the error, the scheme is empty when there is none. *)
Fixpoint scheme_tail (s : string) : option (string * string) :=
  match s with
  | EmptyString => None
  | String c r =>
      if letter c || bool_decide (48 ≤ nat_of_ascii c ≤ 57) || one_of "+-." c
      then '(x, y) ← scheme_tail r; Some (String c x, y)
      else if bool_decide (c = ":"%char) then Some (EmptyString, r) else None
  end.
Definition getScheme (s : string) : option (string * string) :=
  match s with
  | String c _ =>
      if bool_decide (c = ":"%char) then None
      else if letter c then Some (default (EmptyString, s) (scheme_tail s)) else Some (EmptyString, s)
  | EmptyString => Some (EmptyString, s)
  end.

Fixpoint all_bytes (P : ascii → bool) (s : string) : bool :=
  match s with EmptyString => true | String c r => P c && all_bytes P r end.

Definition validOptionalPort (port : string) : bool :=
  match port with
  | EmptyString => true
  | String c r => bool_decide (c = ":"%char) && all_bytes (fun d => bool_decide (48 ≤ nat_of_ascii d ≤ 57)) r
  end.

(** [netip.ParseAddr] succeeds with an address that is no IPv4 address; a zone
    may follow. *)
Definition ipv6_literal (s : string) : bool :=
  match Url.cut_byte "%" s with
  | Some (addr, zone) =>
      negb (bool_decide (zone = EmptyString)) &&
      match Net.family addr with Some false => bool_decide (is_Some (Net.parseAddr addr)) | _ => false end
  | None => match Net.family s with Some false => bool_decide (is_Some (Net.parseAddr s)) | _ => false end
  end.

(** The text before the first [%25], and from there on. *)
Fixpoint cut_zone (s : string) : option (string * string) :=
  match s with
  | EmptyString => None
  | String c r =>
      if HasPrefix s "%25" then Some (EmptyString, s) else '(x, y) ← cut_zone r; Some (String c x, y)
  end.

Definition parseHost (host : string) : option string :=
  match cut_last "[" host with
  | Some (_, after_open) =>
      '(_, colonPort) ← cut_last "]" host;
      if negb (validOptionalPort colonPort) then None else
      port ← unescape EncodeHost colonPort;
      '(hostname, _) ← cut_last "]" after_open;
      name ← match cut_zone hostname with
             | Some (h, z) => h ← unescape EncodeHost h; z ← unescape EncodeZone z; Some (h +:+ z)
             | None => unescape EncodeHost hostname
             end;
      if ipv6_literal name then Some ("[" +:+ name +:+ "]" +:+ port) else None
  | None =>
      match cut_last ":" host with
      | Some (_, port) => if validOptionalPort (String ":" port) then unescape EncodeHost host else None
      | None => unescape EncodeHost host
      end
  end.

Definition validUserinfo : string → bool :=
  all_bytes (fun c => alphanum c || one_of "-._:~!$&()*+,;=%@" c || bool_decide (c = apostrophe)).

Definition parse_user (userinfo : string) : option (string * option string) :=
  match Url.cut_byte ":" userinfo with
  | None => u ← unescape EncodeUserPassword userinfo; Some (u, None)
  | Some (user, password) =>
      u ← unescape EncodeUserPassword user; p ← unescape EncodeUserPassword password; Some (u, Some p)
  end.

Definition parseAuthority (authority : string) : option (option (string * option string) * string) :=
  match cut_last "@" authority with
  | None => host ← parseHost authority; Some (None, host)
  | Some (userinfo, h) =>
      host ← parseHost h;
      if validUserinfo userinfo then user ← parse_user userinfo; Some (Some user, host) else None
  end.

(** The path or fragment and, when its default encoding differs, the text it
    was written as. *)
Definition set_encoded (mode : encoding) (p : string) : option (string * string) :=
  path ← unescape mode p;
  Some (path, if bool_decide (escape mode path = p) then EmptyString else p).

(** The query of the part before the fragment. *)
Definition split_query (rest : string) : string * string * bool :=
  match Url.cut_byte "?" rest with
  | Some (before, EmptyString) => (before, EmptyString, true)
  | Some (before, query) => (before, query, false)
  | None => (rest, EmptyString, false)
  end.

Definition split_authority (s : string) : string * string :=
  match Url.cut_byte "/" s with Some (a, p) => (a, String "/" p) | None => (s, EmptyString) end.

Definition parse (raw : string) : option URL :=
  if has_control raw then None
  else if bool_decide (raw = "*") then
    Some (mkURL EmptyString EmptyString None EmptyString "*" EmptyString false false EmptyString EmptyString EmptyString)
  else
    '(scheme, rest) ← getScheme raw;
    let scheme := ToLower scheme in
    let '(rest, query, force) := split_query rest in
    let rooted := HasPrefix rest "/" in
    if negb rooted && negb (bool_decide (scheme = EmptyString)) then
      Some (mkURL scheme rest None EmptyString EmptyString EmptyString false force query EmptyString EmptyString)
    else if negb rooted && contains_byte ":" (Cut "/" rest).1 then None
    else if (negb (bool_decide (scheme = EmptyString)) || negb (HasPrefix rest "///")) && HasPrefix rest "//" then
      let '(authority, rest) := split_authority (TrimPrefix rest "//") in
      '(user, host) ← parseAuthority authority;
      '(path, rawPath) ← set_encoded EncodePath rest;
      Some (mkURL scheme EmptyString user host path rawPath false force query EmptyString EmptyString)
    else
      '(path, rawPath) ← set_encoded EncodePath rest;
      Some (mkURL scheme EmptyString None EmptyString path rawPath (negb (bool_decide (scheme = EmptyString)) && rooted)
        force query EmptyString EmptyString).

Definition with_fragment (u : URL) (fragment raw : string) : URL :=
  mkURL (Scheme u) (Opaque u) (User u) (Host u) (Path u) (RawPath u) (OmitHost u) (ForceQuery u) (RawQuery u) fragment raw.

Definition Parse (raw : string) : option URL :=
  let '(u, frag) := Cut "#" raw in
  url ← parse u;
  if bool_decide (frag = EmptyString) then Some url
  else '(fragment, rawFragment) ← set_encoded EncodeFragment frag; Some (with_fragment url fragment rawFragment).

(** ** Printing *)
Definition validEncoded (mode : encoding) : string → bool :=
  all_bytes (fun c => one_of "!$&()*+,;=:@[]%" c || bool_decide (c = apostrophe) || negb (shouldEscape c mode)).

(** [EscapedPath] and [EscapedFragment]: the text it was written as, if that
    still stands for it. *)
Definition escaped (mode : encoding) (raw value : string) : string :=
  if negb (bool_decide (raw = EmptyString)) && validEncoded mode raw && bool_decide (unescape mode raw = Some value)
  then raw else escape mode value.
Definition EscapedPath (u : URL) : string :=
  let p := escaped EncodePath (RawPath u) (Path u) in
  if bool_decide (Path u = "*") && negb (bool_decide (p = RawPath u)) then "*" else p.

Definition user_text (user : string * option string) : string :=
  if bool_decide (user.1 = EmptyString) && bool_decide (default EmptyString user.2 = EmptyString) then EmptyString
  else escape EncodeUserPassword user.1 +:+
       match user.2 with Some p => ":" +:+ escape EncodeUserPassword p | None => EmptyString end.

Definition blank_user (u : URL) : bool := match User u with None => true | Some _ => false end.

Definition authority_text (u : URL) : string :=
  if bool_decide (Scheme u = EmptyString) && bool_decide (Host u = EmptyString) && blank_user u then EmptyString
  else if OmitHost u && bool_decide (Host u = EmptyString) && blank_user u then EmptyString
  else
    (if bool_decide (Host u = EmptyString) && bool_decide (Path u = EmptyString) && blank_user u then EmptyString else "//") +:+
    match User u with Some user => user_text user +:+ "@" | None => EmptyString end +:+
    escape EncodeHost (Host u).

Definition hierarchical_text (u : URL) (scheme : string) : string :=
  let before := scheme +:+ authority_text u in
  let path := EscapedPath u in
  let slash := if negb (bool_decide (path = EmptyString)) && negb (HasPrefix path "/") &&
                  negb (bool_decide (Host u = EmptyString)) then "/" else EmptyString in
  let dot := if bool_decide (before +:+ slash = EmptyString) && contains_byte ":" (Cut "/" path).1 then "./" else EmptyString in
  before +:+ slash +:+ dot +:+ path.

Definition URL_String (u : URL) : string :=
  let scheme := if bool_decide (Scheme u = EmptyString) then EmptyString else Scheme u +:+ ":" in
  (if bool_decide (Opaque u = EmptyString) then hierarchical_text u scheme else scheme +:+ Opaque u) +:+
  (if ForceQuery u || negb (bool_decide (RawQuery u = EmptyString)) then "?" +:+ RawQuery u else EmptyString) +:+
  (if bool_decide (Fragment u = EmptyString) then EmptyString
   else "#" +:+ escaped EncodeFragment (RawFragment u) (Fragment u)).

(** [URL.Hostname] and [URL.Port] *)
Definition split_port (hostPort : string) : string * string :=
  match cut_last ":" hostPort with
  | Some (host, port) => if validOptionalPort (String ":" port) then (host, port) else (hostPort, EmptyString)
  | None => (hostPort, EmptyString)
  end.
Definition strip_brackets (host : string) : string :=
  if HasPrefix host "[" && HasSuffix host "]" then TrimSuffix (TrimPrefix host "[") "]" else host.
Definition Hostname (u : URL) : string := strip_brackets (split_port (Host u)).1.
Definition Port (u : URL) : string := (split_port (Host u)).2.

(** ** Reading printed text back *)

Lemma all_bytes_append P s t : all_bytes P (s +:+ t) = all_bytes P s && all_bytes P t.
Proof. induction s as [|c s IH]; rewrite ?string_app_nil, ?string_app_cons; cbn; [done|]. by rewrite IH, andb_assoc. Qed.

Lemma all_bytes_impl P Q s : (∀ c, P c = true → Q c = true) → all_bytes P s = true → all_bytes Q s = true.
Proof. intros H. induction s as [|c s IH]; cbn; [done|]. rewrite !andb_true_iff. naive_solver. Qed.

Lemma all_bytes_contains P c s : P c = false → all_bytes P s = true → contains_byte c s = false.
Proof.
  intros Hc. induction s as [|a s IH]; cbn; [done|]. rewrite andb_true_iff. intros [Ha Hs].
  rewrite IH, orb_false_r by done. apply bool_decide_eq_false. congruence.
Qed.

Lemma all_bytes_control P s : (∀ c, P c = true → 33 ≤ nat_of_ascii c ≤ 126) → all_bytes P s = true → has_control s = false.
Proof.
  intros H. induction s as [|c s IH]; cbn; [done|]. rewrite andb_true_iff. intros [Hc Hs].
  rewrite IH, orb_false_r by done. apply bool_decide_eq_false. specialize (H c Hc). lia.
Qed.

Lemma has_control_append s t : has_control (s +:+ t) = has_control s || has_control t.
Proof. induction s as [|c s IH]; rewrite ?string_app_nil, ?string_app_cons; cbn; [done|]. by rewrite IH, orb_assoc. Qed.

Lemma cut_last_none c s : contains_byte c s = false → cut_last c s = None.
Proof. induction s as [|a s IH]; cbn; [done|]. intros [Ha Hs]%orb_false_iff. by rewrite IH, Ha. Qed.

Lemma cut_last_append c s t : contains_byte c t = false → cut_last c (s +:+ String c t) = Some (s, t).
Proof.
  intros Ht. induction s as [|a s IH]; rewrite ?string_app_nil, ?string_app_cons; cbn.
  - by rewrite cut_last_none, bool_decide_eq_true_2.
  - by rewrite IH.
Qed.

Lemma cut_byte_none c s : contains_byte c s = false → Url.cut_byte c s = None.
Proof. induction s as [|a s IH]; cbn; [done|]. intros [Ha Hs]%orb_false_iff. by rewrite Ha, IH. Qed.

Definition plain_mode (mode : encoding) : Prop := mode ≠ EncodeHost ∧ mode ≠ EncodeZone.

Lemma plain_user : plain_mode EncodeUserPassword.
Proof. by split. Qed.
Lemma plain_fragment : plain_mode EncodeFragment.
Proof. by split. Qed.

(** Outside of hosts the escaping of [net/url] reads like that of a component. *)
Lemma unescape_plain_mode mode s : plain_mode mode → unescape mode s = Url.unescape false s.
Proof.
  intros [Hh Hz]. assert (Hx : ∀ a b x y, host_escape_ok mode a b x y = true) by (destruct mode; done).
  assert (Hb : ∀ c, host_byte_ok mode c = true) by (destruct mode; done).
  remember (String.length s) as n eqn:Hn. assert (Hlen : String.length s ≤ n) by lia. clear Hn.
  revert s Hlen. induction n as [|n IH]; intros [|c s] Hlen; cbn in Hlen; try done; [lia|].
  destruct (decide (c = "%"%char)) as [->|Hc].
  - destruct s as [|a [|b s]]; [done..|]. cbn [unescape Url.unescape]. rewrite bool_decide_eq_true_2 by done.
    destruct (Hex.digit a), (Hex.digit b); try done. rewrite Hx, IH; [done|cbn in Hlen; lia].
  - rewrite Url.unescape_plain by done. cbn [unescape andb]. rewrite bool_decide_eq_false_2, Hb, IH by (done || lia). done.
Qed.

Lemma unescape_escape mode s : plain_mode mode → unescape mode (escape mode s) = Some s.
Proof.
  intros Hm. rewrite unescape_plain_mode by done. induction s as [|c s IH]; [done|]. cbn [escape].
  unfold escape_char. destruct (shouldEscape c mode) eqn:E; rewrite ?string_app_cons, string_app_nil.
  - rewrite Url.unescape_hex, IH by apply nat_ascii_bounded. cbn. by rewrite ascii_nat_embedding.
  - rewrite Url.unescape_plain, IH; [done|]. intros ->. destruct Hm. by destruct mode.
Qed.

(** What an escaped user name is made of. *)
Definition user_byte (c : ascii) : bool := alphanum c || one_of "-._~$&+,;=%" c.

Lemma user_byte_printable c : user_byte c = true → 33 ≤ nat_of_ascii c ≤ 126.
Proof. destruct c as [[] [] [] [] [] [] [] []]; vm_compute; intros H; (discriminate H || lia). Qed.
Lemma user_byte_valid c : user_byte c = true →
  alphanum c || one_of "-._:~!$&()*+,;=%@" c || bool_decide (c = apostrophe) = true.
Proof. destruct c as [[] [] [] [] [] [] [] []]; vm_compute; congruence. Qed.

Lemma hex_user_byte n : n < 16 → user_byte (Url.upper_hex n) = true.
Proof. intros H. do 16 (destruct n as [|n]; [reflexivity|]). lia. Qed.

Lemma hex_escape_user c :
  all_bytes user_byte (String "%" (String (Url.upper_hex (nat_of_ascii c / 16)) (String (Url.upper_hex (nat_of_ascii c mod 16)) EmptyString))) = true.
Proof.
  cbn [all_bytes]. rewrite !hex_user_byte; [done| |].
  - apply Nat.mod_upper_bound. lia.
  - apply Nat.Div0.div_lt_upper_bound, nat_ascii_bounded.
Qed.

Lemma escape_user_bytes s : all_bytes user_byte (escape EncodeUserPassword s) = true.
Proof.
  induction s as [|c s IH]; [done|]. cbn [escape]. rewrite all_bytes_append, IH, andb_true_r. unfold escape_char.
  destruct (shouldEscape c EncodeUserPassword) eqn:E; [apply hex_escape_user|]. cbn. rewrite andb_true_r.
  revert E. destruct c as [[] [] [] [] [] [] [] []]; vm_compute; congruence.
Qed.

Lemma QueryEscape_user_bytes s : all_bytes user_byte (Url.QueryEscape s) = true.
Proof.
  induction s as [|c s IH]; [done|]. cbn [Url.QueryEscape]. rewrite all_bytes_append, IH, andb_true_r.
  destruct (Url.escape_char_cases c) as [[-> ->]|[(Hs & Hu & ->)|(Hs & Hu & ->)]]; [done| |apply hex_escape_user].
  cbn. rewrite andb_true_r. revert Hu. destruct c as [[] [] [] [] [] [] [] []]; vm_compute; congruence.
Qed.

(** A host name or an IPv4 address. *)
Definition name_byte (c : ascii) : bool := alphanum c || one_of "-." c.

Lemma name_byte_host c : name_byte c || bool_decide (c = ":"%char) = true →
  c ≠ "%"%char ∧ host_byte_ok EncodeHost c = true ∧ shouldEscape c EncodeHost = false ∧ 33 ≤ nat_of_ascii c ≤ 126.
Proof. destruct c as [[] [] [] [] [] [] [] []]; vm_compute; intros H; (discriminate H || (split_and!; [congruence|reflexivity..|lia|lia])). Qed.

Lemma host_unescape h : all_bytes (fun c => name_byte c || bool_decide (c = ":"%char)) h = true →
  unescape EncodeHost h = Some h ∧ escape EncodeHost h = h ∧ has_control h = false.
Proof.
  induction h as [|c h IH]; [done|]. cbn [all_bytes]. rewrite andb_true_iff. intros [Hc Hh].
  destruct (IH Hh) as (I1 & I2 & I3). destruct (name_byte_host c Hc) as (H1 & H2 & H3 & H4). split_and!.
  - cbn [unescape]. by rewrite bool_decide_eq_false_2, H2, I1.
  - cbn [escape]. unfold escape_char. rewrite H3, string_app_cons, string_app_nil. by rewrite I2.
  - cbn [has_control]. rewrite I3, orb_false_r. apply bool_decide_eq_false. lia.
Qed.

Lemma parseHost_name h port :
  all_bytes name_byte h = true → all_bytes (fun d => bool_decide (48 ≤ nat_of_ascii d ≤ 57)) port = true →
  parseHost (h +:+ String ":" port) = Some (h +:+ String ":" port) ∧
  escape EncodeHost (h +:+ String ":" port) = h +:+ String ":" port ∧ has_control (h +:+ String ":" port) = false.
Proof.
  intros Hh Hp.
  assert (Hd : all_bytes name_byte port = true).
  { eapply all_bytes_impl; [|exact Hp]. cbn. intros c Hc. unfold name_byte, alphanum. rewrite Hc. by rewrite orb_true_r. }
  destruct (host_unescape (h +:+ String ":" port)) as (H1 & H2 & H3).
  { rewrite all_bytes_append. cbn [all_bytes]. rewrite bool_decide_eq_true_2, orb_true_r by done. cbn [andb].
    rewrite andb_true_iff. split; (eapply all_bytes_impl; [|eassumption]); cbn; by intros c ->. }
  split_and!; [|done..]. unfold parseHost. rewrite cut_last_none.
  - rewrite cut_last_append by (eapply all_bytes_contains; [|exact Hd]; reflexivity). cbn [validOptionalPort].
    rewrite bool_decide_eq_true_2 by done. by rewrite Hp.
  - rewrite contains_byte_append. cbn [contains_byte].
    rewrite !(all_bytes_contains name_byte "[") by done. done.
Qed.

Lemma has_prefix_slashes s : HasPrefix ("//" +:+ s) "/" = true ∧ HasPrefix ("//" +:+ s) "//" = true ∧ TrimPrefix ("//" +:+ s) "//" = s.
Proof. split_and!; [reflexivity|apply HasPrefix_append|apply TrimPrefix_append]. Qed.

Lemma getScheme_hy2 s : getScheme ("hy2:" +:+ s) = Some ("hy2", s).
Proof. rewrite !string_app_cons, string_app_nil. reflexivity. Qed.

(** A link [hy2://user@host:port/?query#fragment] is read part by part. *)
Lemma Parse_hy2 user U h port q frag label :
  all_bytes user_byte user = true → unescape EncodeUserPassword user = Some U →
  all_bytes name_byte h = true → all_bytes (fun d => bool_decide (48 ≤ nat_of_ascii d ≤ 57)) port = true →
  q ≠ EmptyString → all_bytes user_byte q = true → unescape EncodeFragment frag = Some label →
  ∃ rawFragment, Parse ("hy2://" +:+ user +:+ "@" +:+ h +:+ ":" +:+ port +:+ "/?" +:+ q +:+ "#" +:+ frag) =
    Some (mkURL "hy2" EmptyString (Some (U, None)) (h +:+ String ":" port) "/" EmptyString false false q label rawFragment).
Proof.
  intros Hu HU Hh Hp Hq Hqb Hf.
  assert (Hn : ∀ c, user_byte c = false → contains_byte c user = false ∧ contains_byte c q = false).
  { intros c Hc. split; by eapply all_bytes_contains. }
  destruct (parseHost_name h port Hh Hp) as (Hhost & _ & Hctl). set (host := h +:+ String ":" port) in *.
  assert (Hhn : ∀ c, name_byte c = false → c ≠ ":"%char → contains_byte c host = false).
  { intros c Hc Hne. unfold host. rewrite contains_byte_append. cbn [contains_byte]. rewrite bool_decide_eq_false_2 by done.
    rewrite (all_bytes_contains name_byte c h) by done. apply (all_bytes_contains (fun d => bool_decide (48 ≤ nat_of_ascii d ≤ 57))); [|done].
    apply bool_decide_eq_false. intros Hd. unfold name_byte, alphanum in Hc. by rewrite (bool_decide_eq_true_2 _ Hd), orb_true_r in Hc. }
  set (auth := user +:+ String "@" host).
  assert (Hsplit : "hy2://" +:+ user +:+ "@" +:+ h +:+ ":" +:+ port +:+ "/?" +:+ q +:+ "#" +:+ frag =
    ("hy2:" +:+ "//" +:+ (auth +:+ String "/" EmptyString) +:+ String "?" q) +:+ String "#" frag).
  { unfold auth, host. repeat (rewrite ?str_append_assoc, ?string_app_cons, ?string_app_nil). reflexivity. }
  rewrite Hsplit. unfold Parse, Cut. rewrite Url.cut_byte_append.
  2: { unfold auth. repeat progress (rewrite ?contains_byte_append; cbn [contains_byte]).
       destruct (Hn "#"%char) as [-> ->]; [done|]. by rewrite Hhn. }
  cbn beta iota delta [from_option id].
  assert (Hparse : parse ("hy2:" +:+ "//" +:+ (auth +:+ String "/" EmptyString) +:+ String "?" q) =
    Some (mkURL "hy2" EmptyString (Some (U, None)) host "/" EmptyString false false q EmptyString EmptyString)).
  { unfold parse.
    assert (Hc : has_control ("hy2:" +:+ "//" +:+ (auth +:+ String "/" EmptyString) +:+ String "?" q) = false).
    { unfold auth. rewrite !has_control_append. change (String "@" host) with ("@" +:+ host). change (String "?" q) with ("?" +:+ q).
      rewrite !has_control_append, Hctl.
      rewrite (all_bytes_control user_byte user), (all_bytes_control user_byte q) by (done || apply user_byte_printable). done. }
    rewrite Hc. rewrite bool_decide_eq_false_2 by (rewrite string_app_cons; discriminate). rewrite getScheme_hy2. cbn [mbind option_bind].
    unfold split_query. rewrite <-(str_append_assoc "//"), Url.cut_byte_append.
    2: { unfold auth. repeat progress (rewrite ?contains_byte_append; cbn [contains_byte]).
         destruct (Hn "?"%char) as [-> _]; [done|]. by rewrite Hhn. }
    destruct q as [|q0 q]; [done|]. destruct (has_prefix_slashes (auth +:+ String "/" EmptyString)) as (-> & -> & ->).
    cbn [negb andb orb]. rewrite bool_decide_eq_false_2 by done. cbn [negb andb orb].
    unfold split_authority. rewrite Url.cut_byte_append.
    2: { unfold auth. rewrite contains_byte_append. cbn [contains_byte]. destruct (Hn "/"%char) as [-> _]; [done|]. by rewrite Hhn. }
    unfold parseAuthority, auth. rewrite cut_last_append by (by apply Hhn). rewrite Hhost. cbn [mbind option_bind].
    unfold validUserinfo. rewrite (all_bytes_impl user_byte _ user user_byte_valid Hu). unfold parse_user.
    rewrite cut_byte_none by (by apply Hn). rewrite HU. reflexivity. }
  rewrite Hparse. cbn [mbind option_bind]. case_bool_decide as Hfe.
  - subst frag. injection Hf as <-. by eexists.
  - unfold set_encoded. rewrite Hf. cbn [mbind option_bind]. by eexists.
Qed.

Lemma escaped_unescape mode raw value : plain_mode mode → unescape mode (escaped mode raw value) = Some value.
Proof.
  intros Hm. unfold escaped. destruct (negb _ && _ && _) eqn:E; [|by apply unescape_escape].
  apply andb_prop in E as [_ E]. by apply bool_decide_eq_true in E.
Qed.

(** Such a link is printed in the same shape, with the user name in its default
    encoding. *)
Lemma String_hy2 U h port q label raw :
  U ≠ EmptyString → q ≠ EmptyString → label ≠ EmptyString →
  all_bytes name_byte h = true → all_bytes (fun d => bool_decide (48 ≤ nat_of_ascii d ≤ 57)) port = true →
  ∃ frag, unescape EncodeFragment frag = Some label ∧
    URL_String (mkURL "hy2" EmptyString (Some (U, None)) (h +:+ String ":" port) "/" EmptyString false false q label raw) =
    "hy2://" +:+ escape EncodeUserPassword U +:+ "@" +:+ h +:+ ":" +:+ port +:+ "/?" +:+ q +:+ "#" +:+ frag.
Proof.
  intros HU Hq Hl Hh Hp. exists (escaped EncodeFragment raw label). split; [apply escaped_unescape, plain_fragment|].
  destruct (parseHost_name h port Hh Hp) as (_ & Hesc & _). unfold URL_String, hierarchical_text, authority_text, user_text.
  cbn [Scheme Opaque User Host Path RawPath OmitHost ForceQuery RawQuery Fragment RawFragment blank_user fst snd].
  change (EscapedPath _) with "/".
  rewrite Hesc, (bool_decide_eq_false_2 (U = EmptyString)), (bool_decide_eq_false_2 (q = EmptyString)),
    (bool_decide_eq_false_2 (label = EmptyString)) by done.
  rewrite !andb_false_r. cbn [negb orb andb].
  change (bool_decide ("hy2" = EmptyString)) with false. change (bool_decide (EmptyString = EmptyString)) with true.
  change (bool_decide ("/" = EmptyString)) with false. change (HasPrefix "/" "/") with true. cbn [negb andb].
  repeat (rewrite ?str_append_assoc, ?string_app_cons, ?string_app_nil). reflexivity.
Qed.

(** [net.SplitHostPort]; the kinds of its error are not told apart. *)
Definition SplitHostPort (hostport : string) : option (string * string) :=
  match cut_last ":" hostport with
  | None => None
  | Some (before, port) =>
      if HasPrefix hostport "[" then
        '(inside, after) ← Url.cut_byte "]" hostport;
        if negb (bool_decide (before = inside +:+ "]")) || contains_byte "[" (str_drop 1 hostport) || contains_byte "]" after
        then None else Some (str_drop 1 inside, port)
      else if contains_byte ":" before || contains_byte "[" hostport || contains_byte "]" hostport
      then None else Some (before, port)
  end.

Example SplitHostPort_samples :
  SplitHostPort "fra.example.net:443" = Some ("fra.example.net", "443") ∧ SplitHostPort "[2001:db8::1]:80" = Some ("2001:db8::1", "80") ∧
  SplitHostPort "fra.example.net" = None ∧ SplitHostPort "2001:db8::1:80" = None ∧ SplitHostPort "[::1]x:80" = None ∧
  SplitHostPort ":80" = Some (EmptyString, "80") ∧ SplitHostPort "[::1]" = None.
Proof. vm_compute. split_and!; reflexivity. Qed.

Example url_parse_samples :
  (URL_String <$> Parse "hy2://u%3Ap%40@fra.example.net:443/?a=b#old title") = Some "hy2://u%3Ap%40@fra.example.net:443/?a=b#old%20title" ∧
  (Hostname <$> Parse "https://[2001:db8::1]:8443/x") = Some "2001:db8::1" ∧
  (Port <$> Parse "https://[2001:db8::1]:8443/x") = Some "8443" ∧
  Parse "https://[127.0.0.1]/" = None ∧ Parse "http://a b/" = None ∧ Parse ":x" = None ∧
  (URL_String <$> Parse "mailto:a@b?c") = Some "mailto:a@b?c" ∧
  (URL_String <$> Parse "//h/a%2Fb") = Some "//h/a%2Fb" ∧
  (Path <$> Parse "/a%20b?") = Some "/a b" ∧ (URL_String <$> Parse "/a%20b?") = Some "/a%20b?".
Proof. vm_compute. split_and!; reflexivity. Qed.
End UrlParse.
