(* ===== verification/AwgConfig.v ===== *)
(** * AwgConfig: parameters of an AmneziaWG interface

    [src/internal/protocol/awgconfig/parameters.go], shared by the control
    plane and the agents: header ranges, padding, timings, and the signature
    packets written in the tag language called CPS.  The regular expressions
    of the source are spelled out as scanners. *)

From S2P Require Import Prelude GoLib.
From Stdlib Require Import Ascii.

Module AwgConfig.
Local Open Scope Z_scope.

Definition Timings : list string :=
  ["RekeyAfterTime"; "RekeyTimeout"; "RejectAfterTime"; "KeepaliveTimeout"; "MaxHandshakeAttempts"].

Definition FormatBool (value : bool) : string := if value then "on" else "off".

(** ** Ranges *)

Definition is_digit (c : ascii) : bool := bool_decide (is_Some (Strconv.digit_val c)).
Definition is_hex (c : ascii) : bool := bool_decide (is_Some (Hex.digit c)).

(** The longest prefix of bytes satisfying [f], and the rest. *)
Fixpoint span (f : ascii → bool) (s : string) : string * string :=
  match s with
  | String c r => if f c then let '(a, b) := span f r in (String c a, b) else (EmptyString, s)
  | EmptyString => (EmptyString, EmptyString)
  end.

(** [rangePattern.FindStringSubmatch]: the two groups, the second one empty
    when it is absent. *)
Definition range_groups (value : string) : option (string * string) :=
  match span is_digit value with
  | (EmptyString, _) => None
  | (a, EmptyString) => Some (a, EmptyString)
  | (a, String c r) =>
      if bool_decide (c = "-"%char) then
        match span is_digit r with
        | (EmptyString, _) => None
        | (b, EmptyString) => Some (a, b)
        | _ => None
        end
      else None
  end.

(** [strconv.ParseUint(s, 10, bits)] of a text of digits. *)
Definition ParseUint (bits : Z) (s : string) : option Z :=
  v ← Strconv.parse_unsigned s; if v <? 2 ^ bits then Some v else None.

Definition Range (value : string) : result (Z * Z) :=
  match range_groups value with
  | None => Err "expected uint32 or uint32 range"
  | Some (a, b) =>
      match ParseUint 32 a with
      | None => Err "invalid uint32 range"
      | Some a =>
          match (match b with EmptyString => Some a | _ => ParseUint 32 b end) with
          | None => Err "invalid uint32 range"
          | Some b => if b <? a then Err "invalid uint32 range" else Ok (a, b)
          end
      end
  end.

(** ** Signature packets *)

Inductive tag :=
| TBytes (digits : string)
| TRandom (kind digits : string)
| TTime.

(** The rest after the closing bracket of a tag whose digits are [f]. *)
Definition close_tag (f : ascii → bool) (mk : string → tag) (s : string) : option (tag * string) :=
  match span f s with
  | (EmptyString, _) => None
  | (d, String c r) => if bool_decide (c = ">"%char) then Some (mk d, r) else None
  | (_, EmptyString) => None
  end.

(** [cpsPattern] at the beginning of a text. *)
Definition match_tag (s : string) : option (tag * string) :=
  match cut_prefix "<b 0x" s with
  | Some r => close_tag is_hex TBytes r
  | None =>
  match cut_prefix "<r " s with
  | Some r => close_tag is_digit (TRandom "r") r
  | None =>
  match cut_prefix "<rc " s with
  | Some r => close_tag is_digit (TRandom "rc") r
  | None =>
  match cut_prefix "<rd " s with
  | Some r => close_tag is_digit (TRandom "rd") r
  | None =>
  match cut_prefix "<t>" s with
  | Some r => Some (TTime, r)
  | None => None
  end end end end end.

(** [FindAllStringSubmatchIndex]: the matches from left to right, each with
    the text skipped before it, and the text after the last one.  Every step
    consumes a byte, so the length is enough fuel. *)
Fixpoint find_tags (fuel : nat) (s gap : string) : list (string * tag) * string :=
  match fuel with
  | O => ([], gap)
  | S fuel =>
      match s with
      | EmptyString => ([], gap)
      | String c r =>
          match match_tag s with
          | Some (t, rest) =>
              let '(l, tail) := find_tags fuel rest EmptyString in ((gap, t) :: l, tail)
          | None => find_tags fuel r (gap +:+ String c EmptyString)
          end
      end
  end.

(** The bytes a tag adds to the packet. *)
Definition tag_size (t : tag) : result Z :=
  match t with
  | TBytes d =>
      let n := Z.of_nat (String.length d) in
      if n mod 2 =? 0 then Ok (n / 2) else Err "CPS hex must contain whole bytes"
  | TRandom _ d =>
      match ParseUint 16 d with
      | Some n => if n =? 0 then Err "invalid CPS random length" else Ok n
      | None => Err "invalid CPS random length"
      end
  | TTime => Ok 4
  end.

Definition max_payload : Z := 65507.

Definition check_tag (size : Z) (m : string * tag) : result Z :=
  if bool_decide (TrimSpace m.1 ≠ EmptyString) then Err "invalid CPS tag"
  else
    n ← tag_size m.2;
    if max_payload <? size + n then Err "CPS exceeds maximum UDP payload" else Ok (size + n).

Definition max_cps : Z := 150000.

Definition ValidateCPS (value : string) : result unit :=
  if ContainsAny value [ascii_of_nat 13; ascii_of_nat 10; ascii_of_nat 0]
  then Err "CPS must be a single line"
  else if bool_decide (value = EmptyString) then Ok tt
  else if max_cps <? Z.of_nat (String.length value) then Err "CPS string is too long"
  else
    let '(matches, tail) := find_tags (String.length value) value EmptyString in
    _ ← foldlR check_tag matches 0;
    if bool_decide (matches = []) || bool_decide (TrimSpace tail ≠ EmptyString)
    then Err "invalid CPS syntax" else Ok tt.

(** ** All parameters *)

Definition number_text (n : nat) : string := Strconv.FormatInt (Z.of_nat n).

(** The ranges of the headers before [i], the last one first. *)
Definition overlaps (a b : Z) (r : Z * Z) : bool := (a <=? r.2) && (r.1 <=? b).

Fixpoint first_overlap (a b : Z) (ranges : list (Z * Z)) (j : nat) : option nat :=
  match ranges with
  | [] => None
  | r :: rs => if overlaps a b r then Some j else first_overlap a b rs (S j)
  end.

Definition check_header (ranges : list (Z * Z)) (value : string) : result (list (Z * Z)) :=
  let i := S (length ranges) in
  match Range value with
  | Err e => Err ("H" +:+ number_text i +:+ ": " +:+ e)
  | Ok (a, b) =>
      match first_overlap a b ranges 1 with
      | Some j => Err ("H" +:+ number_text i +:+ " overlaps H" +:+ number_text j)
      | None => Ok (ranges ++ [(a, b)])
      end
  end.

(** An empty value and [(off)] leave a parameter out. *)
Definition small_range (value : string) : bool :=
  bool_decide (value = EmptyString) || bool_decide (value = "(off)") ||
  match Range value with Ok (_, high) => high <=? 65535 | Err _ => false end.

Definition check_timing (u : unit) (kv : string * string) : result unit :=
  if negb (bool_decide (kv.1 ∈ Timings)) then Err "unknown timing parameter"
  else if small_range kv.2 then Ok tt else Err (kv.1 +:+ " must be in 0..65535").

Definition check_signature (i : nat) (value : string) : result nat :=
  match ValidateCPS value with
  | Ok _ => Ok (S i)
  | Err e => Err ("I" +:+ number_text i +:+ ": " +:+ e)
  end.

(** [Validate]; which of several bad timings is reported depends on the order
    in which Go walks the map. *)
Definition Validate (headers signatures : list string) (padding : string)
    (timings : gmap string string) : result unit :=
  _ ← foldlR check_header headers [];
  if negb (small_range padding) then Err "ContentPaddingAddition must be in 0..65535"
  else
    _ ← foldlR check_timing (map_to_list timings) tt;
    _ ← foldlR check_signature signatures 1%nat;
    Ok tt.

Example awg_samples :
  Range "5-10" = Ok (5, 10) ∧ is_ok (Range "4294967296") = false ∧ is_ok (Range "7-3") = false ∧
  ValidateCPS "<b 0xff00> <r 12><t>" = Ok tt ∧
  ValidateCPS "<b 0xf>" = Err "CPS hex must contain whole bytes" ∧
  ValidateCPS "<r 12>x" = Err "invalid CPS syntax" ∧ ValidateCPS "x<t>" = Err "invalid CPS tag" ∧
  Validate ["1"; "2"; "3-9"; "8"] [] "" ∅ = Err "H4 overlaps H3".
Proof. vm_compute. done. Qed.

(** ** The grammar of signature packets

    A reference definition, without scanning: tags with blanks around them. *)

Fixpoint all_bytes (f : ascii → bool) (s : string) : bool :=
  match s with EmptyString => true | String c s => f c && all_bytes f s end.

Definition tag_text (t : tag) : string :=
  match t with
  | TBytes d => "<b 0x" +:+ d +:+ ">"
  | TRandom k d => "<" +:+ k +:+ " " +:+ d +:+ ">"
  | TTime => "<t>"
  end.

(** The shape of a tag the scanner finds. *)
Definition tag_shape (t : tag) : Prop :=
  match t with
  | TBytes d => d ≠ EmptyString ∧ all_bytes is_hex d = true
  | TRandom k d => k ∈ ["r"; "rc"; "rd"] ∧ d ≠ EmptyString ∧ all_bytes is_digit d = true
  | TTime => True
  end.

Definition blank (s : string) : Prop := TrimSpace s = EmptyString.

Fixpoint cps_text (l : list (string * tag)) (tail : string) : string :=
  match l with
  | [] => tail
  | (gap, t) :: l => gap +:+ tag_text t +:+ cps_text l tail
  end.

Definition payload_size (l : list (string * tag)) : Z :=
  foldr (fun m n => match tag_size m.2 with Ok k => k + n | Err _ => n end) 0 l.

Definition cps_item (m : string * tag) : Prop :=
  blank m.1 ∧ tag_shape m.2 ∧ is_ok (tag_size m.2) = true.

Definition cps (value : string) : Prop :=
  ContainsAny value [ascii_of_nat 13; ascii_of_nat 10; ascii_of_nat 0] = false ∧
  (value = EmptyString ∨
   Z.of_nat (String.length value) <= max_cps ∧
   ∃ l tail, l ≠ [] ∧ value = cps_text l tail ∧ Forall cps_item l ∧ blank tail ∧
             payload_size l <= max_payload).

Lemma trim_left_contains c ps fuel s :
  Forall (fun p => contains_byte c p = false) ps →
  contains_byte c (trim_left ps fuel s) = contains_byte c s.
Proof.
  intros Hps. revert s; induction fuel as [|fuel IH]; intros s; [done|]. cbn.
  destruct (cut_any ps s) as [r|] eqn:E; [|done]. rewrite IH. clear IH.
  induction Hps as [|p ps Hp _ IHps]; [done|]. cbn in E.
  destruct (cut_prefix p s) eqn:Ep; [|by auto]. injection E as ->.
  apply cut_prefix_Some in Ep as ->. by rewrite contains_byte_append, Hp.
Qed.

Lemma blank_free c s : c ∈ ["<"; "="]%char → blank s → contains_byte c s = false.
Proof.
  intros Hc. unfold blank, TrimSpace. intros H. apply (f_equal (contains_byte c)) in H. cbn [contains_byte] in H.
  rewrite contains_byte_rev, trim_left_contains, contains_byte_rev, trim_left_contains in H; [done|..].
  all: set_unfold in Hc; destruct Hc as [->|[->|[]]].
  all: repeat (constructor; [reflexivity|]); constructor.
Qed.

Lemma span_append f d c r :
  all_bytes f d = true → f c = false → span f (d +:+ String c r) = (d, String c r).
Proof.
  intros Hd Hc. induction d as [|a d IH]; [rewrite string_app_nil; cbn; by rewrite Hc|].
  cbn in Hd. apply andb_prop in Hd as [Ha Hd].
  change (String a d +:+ String c r) with (String a (d +:+ String c r)). cbn. by rewrite Ha, IH.
Qed.

Lemma span_spec f s a b : span f s = (a, b) → s = a +:+ b ∧ all_bytes f a = true.
Proof.
  revert a b; induction s as [|c s IH]; intros a b; cbn; [by intros [= <- <-]|].
  destruct (f c) eqn:Hc; [|by intros [= <- <-]].
  destruct (span f s) as [a' b'] eqn:E. intros [= <- <-].
  destruct (IH a' b' eq_refl) as [-> Ha]. cbn. by rewrite Hc, Ha.
Qed.

Lemma close_tag_append f mk d r :
  f ">"%char = false → d ≠ EmptyString → all_bytes f d = true →
  close_tag f mk (d +:+ ">" +:+ r) = Some (mk d, r).
Proof.
  intros Hf Hd Ha. unfold close_tag.
  change (">" +:+ r) with (String ">" r). rewrite span_append by done. by destruct d.
Qed.

Lemma close_tag_Some f mk s t r :
  close_tag f mk s = Some (t, r) →
  ∃ d, t = mk d ∧ s = d +:+ ">" +:+ r ∧ d ≠ EmptyString ∧ all_bytes f d = true.
Proof.
  unfold close_tag. destruct (span f s) as [d rest] eqn:E. apply span_spec in E as [-> Hd].
  destruct d as [|c d]; [done|]. destruct rest as [|c' rest]; [done|].
  case_bool_decide; [subst|done]. intros [= <- <-]. by exists (String c d).
Qed.

Lemma match_tag_text t r : tag_shape t → match_tag (tag_text t +:+ r) = Some (t, r).
Proof.
  destruct t as [d|k d|]; [intros [Hd Ha]|intros (Hk & Hd & Ha)|done];
    unfold match_tag; cbn [tag_text]; rewrite !str_append_assoc.
  - rewrite cut_prefix_append. by apply close_tag_append.
  - rewrite !elem_of_cons, elem_of_nil in Hk. destruct Hk as [-> | [-> | [-> |[]]]];
      by apply (close_tag_append is_digit).
Qed.

Lemma match_tag_Some s t r :
  match_tag s = Some (t, r) → s = tag_text t +:+ r ∧ tag_shape t.
Proof.
  unfold match_tag.
  repeat match goal with
  | |- context [cut_prefix ?p s] =>
      let E := fresh "E" in destruct (cut_prefix p s) eqn:E;
      [apply cut_prefix_Some in E; subst s;
       try (intros (d & -> & -> & Hd & Ha)%close_tag_Some; cbn [tag_text tag_shape];
            rewrite !str_append_assoc; repeat split; (done || set_solver))|]
  end; [|done]. by intros [= <- <-].
Qed.

Lemma match_tag_other c r : c ≠ "<"%char → match_tag (String c r) = None.
Proof. intros Hc. unfold match_tag. cbn. by rewrite !decide_False by congruence. Qed.

Lemma tag_text_length t : (0 < String.length (tag_text t))%nat.
Proof. destruct t; cbn [tag_text]; rewrite ?str_length_append; cbn; lia. Qed.

Lemma match_tag_shorter s t r :
  match_tag s = Some (t, r) → (String.length r < String.length s)%nat.
Proof.
  intros [-> _]%match_tag_Some. rewrite str_length_append. pose proof (tag_text_length t). lia.
Qed.

Lemma find_tags_fuel n m s gap :
  (String.length s ≤ n)%nat → (String.length s ≤ m)%nat → find_tags n s gap = find_tags m s gap.
Proof.
  revert m s gap. induction n as [|n IH]; intros m s gap Hn Hm.
  { destruct s; [|cbn in Hn; lia]. by destruct m. }
  destruct m as [|m]; [destruct s; [done|cbn in Hm; lia]|].
  destruct s as [|c s]; [done|]. cbn [find_tags].
  destruct (match_tag (String c s)) as [[t r]|] eqn:E.
  - apply match_tag_shorter in E. cbn in *. by rewrite (IH m) by lia.
  - cbn in *. apply IH; lia.
Qed.

(** The scanner passes over a gap without a bracket. *)
Lemma find_tags_gap fuel g s gap :
  contains_byte "<" g = false →
  find_tags (String.length g + fuel) (g +:+ s) gap = find_tags fuel s (gap +:+ g).
Proof.
  intros Hg. revert gap; induction g as [|c g IH]; intros gap; [by rewrite str_append_nil_r|].
  cbn in Hg. apply orb_false_iff in Hg as [Hc%bool_decide_eq_false Hg].
  change (String c g +:+ s) with (String c (g +:+ s)). cbn [String.length Nat.add find_tags].
  rewrite match_tag_other, IH by done. by rewrite str_append_assoc.
Qed.

Lemma find_tags_cps l tail gap :
  Forall (fun m => contains_byte "<" m.1 = false ∧ tag_shape m.2) l →
  contains_byte "<" tail = false →
  find_tags (String.length (cps_text l tail)) (cps_text l tail) gap =
  match l with
  | [] => ([], gap +:+ tail)
  | (g, t) :: l => ((gap +:+ g, t) :: l, tail)
  end.
Proof.
  intros Hl Ht. revert gap. induction Hl as [|[g t] l [Hg Hs] _ IH]; intros gap; cbn [cps_text].
  - rewrite <-(str_append_nil_r tail) at 2. rewrite <-(Nat.add_0_r (String.length tail)).
    by rewrite find_tags_gap.
  - set (rest := cps_text l tail) in *. rewrite str_length_append, find_tags_gap by done.
    pose proof (tag_text_length t) as Hlen.
    destruct (tag_text t +:+ rest) as [|c r] eqn:E.
    { apply (f_equal String.length) in E. rewrite str_length_append in E. cbn in E. lia. }
    cbn [String.length find_tags]. rewrite <-E, match_tag_text by done.
    apply (f_equal String.length) in E. rewrite str_length_append in E. cbn in E.
    rewrite (find_tags_fuel _ (String.length rest)), IH by lia.
    destruct l as [|[g' t'] l']; done.
Qed.

Lemma find_tags_sound fuel s gap l tail :
  (String.length s ≤ fuel)%nat → find_tags fuel s gap = (l, tail) →
  gap +:+ s = cps_text l tail ∧ Forall (fun m => tag_shape m.2) l.
Proof.
  revert s gap l. induction fuel as [|fuel IH]; intros s gap l Hf; cbn [find_tags].
  { destruct s; [|cbn in Hf; lia]. intros [= <- <-]. by rewrite str_append_nil_r. }
  destruct s as [|c s]; [intros [= <- <-]; by rewrite str_append_nil_r|].
  destruct (match_tag (String c s)) as [[t r]|] eqn:E.
  - pose proof (match_tag_shorter _ _ _ E) as Hr. apply match_tag_Some in E as [-> Ht].
    destruct (find_tags fuel r EmptyString) as [l' tail'] eqn:E'. intros [= <- <-].
    cbn [String.length] in *. apply IH in E' as [E' Hl]; [|lia].
    rewrite string_app_nil in E'. rewrite E'. by repeat constructor.
  - intros Hgo. apply IH in Hgo as [Hgo Hl]; [|cbn in Hf; lia].
    rewrite str_append_assoc in Hgo. done.
Qed.

Lemma tag_size_nonneg t n : tag_size t = Ok n → 0 <= n.
Proof.
  destruct t as [d|k d|]; cbn [tag_size]; [..|intros [= <-]; lia].
  - case_match; [|done]. intros [= <-]. apply Z.div_pos; lia.
  - unfold ParseUint. destruct (Strconv.parse_unsigned d) as [v|] eqn:E; cbn; [|done].
    destruct (v <? 2 ^ 16); [|done]. destruct (v =? 0); [done|]. intros [= <-].
    by eapply Strconv.parse_unsigned_nonneg.
Qed.

Lemma payload_size_cons g t l :
  payload_size ((g, t) :: l) =
  match tag_size t with Ok k => k + payload_size l | Err _ => payload_size l end.
Proof. done. Qed.

Lemma payload_size_nonneg l : 0 <= payload_size l.
Proof.
  induction l as [|[g t] l IH]; [done|]. rewrite payload_size_cons.
  destruct (tag_size t) as [n|] eqn:E; [|done]. apply tag_size_nonneg in E. lia.
Qed.

Definition checked (m : string * tag) : Prop := blank m.1 ∧ is_ok (tag_size m.2) = true.

Lemma check_tags_Ok l size n :
  foldlR check_tag l size = Ok n →
  Forall checked l ∧ n = size + payload_size l ∧ (l ≠ [] → n <= max_payload).
Proof.
  revert size. induction l as [|[g t] l IH]; intros size; cbn [foldlR].
  { intros [= <-]. split_and!; [done|cbn; lia|done]. }
  intros (size' & Hc & Hgo)%bind_Ok. unfold check_tag in Hc. cbn [fst snd] in Hc.
  case_bool_decide as Hb; [done|]. apply bind_Ok in Hc as (k & Hk & Hc).
  case_match eqn:Hm; [done|]. injection Hc as <-. apply Z.ltb_ge in Hm.
  apply IH in Hgo as (Hl & -> & Hle). split_and!.
  - constructor; [|done]. split; [exact Hb|]. cbn. by rewrite Hk.
  - rewrite payload_size_cons, Hk. lia.
  - intros _. destruct l as [|m l]; [cbn; lia|]. by apply Hle.
Qed.

Lemma check_tags_total l size :
  Forall checked l → size + payload_size l <= max_payload →
  foldlR check_tag l size = Ok (size + payload_size l).
Proof.
  intros Hl. revert size. induction Hl as [|[g t] l [Hb Ht] _ IH]; intros size Hle.
  { cbn. f_equal. lia. }
  rewrite payload_size_cons in *. cbn [fst snd] in *.
  destruct (tag_size t) as [k|] eqn:Hk; [|done]. pose proof (payload_size_nonneg l).
  assert (Hc : check_tag size (g, t) = Ok (size + k)).
  { unfold check_tag. cbn [fst snd]. rewrite bool_decide_eq_false_2 by (intros H'; by apply H').
    rewrite Hk. cbn [mbind result_bind]. by rewrite (proj2 (Z.ltb_ge _ _)) by lia. }
  cbn [foldlR]. rewrite Hc. cbn [mbind result_bind]. rewrite IH by lia. f_equal. lia.
Qed.

Lemma ValidateCPS_cps value : ValidateCPS value = Ok tt → cps value.
Proof.
  unfold ValidateCPS, cps. destruct (ContainsAny _ _); [done|].
  case_bool_decide as Hv; [naive_solver|].
  destruct (max_cps <? Z.of_nat (String.length value)) eqn:Hlen; [done|]. apply Z.ltb_ge in Hlen.
  destruct (find_tags _ _ _) as [l tail] eqn:E. apply find_tags_sound in E as [E Hs]; [|done].
  intros (n & Hn & Hend)%bind_Ok. apply check_tags_Ok in Hn as (Hc & -> & Hle).
  case_bool_decide as Hne; [done|]. case_bool_decide as Ht; [done|]. rewrite string_app_nil in E.
  split; [done|]. right. split; [done|]. exists l, tail. split_and!; try done.
  - eapply list.Forall_impl; [apply list.Forall_and; split; [exact Hc|exact Hs]|]. firstorder.
  - by apply Hle.
Qed.

(** C22. The scanner behind [ValidateCPS], a left-to-right search with a
    regular expression and bookkeeping of what was skipped, accepts exactly
    the grammar: an empty value, or one line of at most 150000 bytes made of
    at least one well-formed tag with blanks around the tags, whose packet
    fits a UDP payload. *)
Theorem ValidateCPS_grammar value : ValidateCPS value = Ok tt ↔ cps value.
Proof.
  split; [apply ValidateCPS_cps|]. unfold ValidateCPS, cps. intros [-> [->|[Hlen (l & tail & Hne & -> & Hl & Ht & Hsz)]]]; [done|].
  case_bool_decide as Hv; [done|]. rewrite (proj2 (Z.ltb_ge _ _)) by done.
  rewrite find_tags_cps; [|eapply list.Forall_impl; [exact Hl|]; intros m (Hb & Hs & _);
    split; [apply blank_free; [set_solver|done]|done]|apply blank_free; [set_solver|done]].
  destruct l as [|[g t] l]; [done|]. rewrite string_app_nil.
  rewrite check_tags_total; [|eapply list.Forall_impl; [exact Hl|]; by intros m (? & ? & ?)|done].
  cbn. rewrite bool_decide_eq_false_2; [done|]. intros H. by apply H.
Qed.

Lemma all_bytes_free f c s : f c = false → all_bytes f s = true → contains_byte c s = false.
Proof.
  intros Hc. induction s as [|a s IH]; [done|]. cbn. intros [Ha Hs]%andb_true_iff. rewrite (IH Hs), orb_false_r.
  apply bool_decide_eq_false. intros ->. congruence.
Qed.

(** No signature packet contains an equals sign. *)
Lemma ValidateCPS_no_equals value : ValidateCPS value = Ok tt → contains_byte "=" value = false.
Proof.
  intros [_ [->|[_ (l & tail & _ & -> & Hl & Ht & _)]]]%ValidateCPS_cps; [done|].
  induction Hl as [|[g t] l (Hg & Hs & _) _ IH]; cbn [cps_text]; [by apply blank_free; [set_solver|]|].
  rewrite !contains_byte_append, IH, (blank_free "=") by (done || set_solver). rewrite orb_false_r. cbn [orb].
  destruct t as [d|k d|]; cbn [tag_text tag_shape snd] in *; [| |done]; rewrite !contains_byte_append.
  - destruct Hs as [_ Hs]. by rewrite (all_bytes_free is_hex _ d).
  - destruct Hs as (Hk & _ & Hd). rewrite (all_bytes_free is_digit _ d) by done.
    set_unfold in Hk. by destruct Hk as [->|[->|[->|[]]]].
Qed.

(** ** What a valid parameter set is *)

Lemma ParseUint_range bits s n : ParseUint bits s = Some n → 0 <= n < 2 ^ bits.
Proof.
  unfold ParseUint. destruct (Strconv.parse_unsigned s) as [v|] eqn:E; cbn; [|done].
  apply Strconv.parse_unsigned_nonneg in E. destruct (v <? 2 ^ bits) eqn:H; [|done].
  apply Z.ltb_lt in H. intros [= <-]. lia.
Qed.

Lemma Range_bounds v a b : Range v = Ok (a, b) → 0 <= a <= b ∧ b < 2 ^ 32.
Proof.
  unfold Range. destruct (range_groups v) as [[x y]|]; [|done].
  destruct (ParseUint 32 x) as [a'|] eqn:Ha; [|done]. apply ParseUint_range in Ha.
  destruct (match y with EmptyString => Some a' | _ => ParseUint 32 y end) as [b'|] eqn:Hb; [|done].
  destruct (b' <? a') eqn:Hlt; [done|]. apply Z.ltb_ge in Hlt. intros [= <- <-].
  destruct y; [simplify_eq; lia|]. apply ParseUint_range in Hb. lia.
Qed.

Definition apart (r r' : Z * Z) : Prop := r.2 < r'.1 ∨ r'.2 < r.1.

Lemma overlaps_false r r' : overlaps r.1 r.2 r' = false ↔ apart r' r.
Proof. unfold overlaps, apart. rewrite andb_false_iff, !Z.leb_gt. lia. Qed.

Lemma first_overlap_None r rs j : first_overlap r.1 r.2 rs j = None ↔ Forall (fun r' => apart r' r) rs.
Proof.
  revert j. induction rs as [|r' rs IH]; intros j; cbn; [by split; [constructor|]|].
  rewrite list.Forall_cons, <-overlaps_false. destruct (overlaps _ _ r'); [naive_solver|].
  rewrite IH. naive_solver.
Qed.

Lemma check_header_Ok rs h rs' :
  check_header rs h = Ok rs' ↔
  ∃ r, Range h = Ok r ∧ Forall (fun r' => apart r' r) rs ∧ rs' = rs ++ [r].
Proof.
  unfold check_header. destruct (Range h) as [[a b]|e]; [|naive_solver].
  pose proof (first_overlap_None (a, b) rs 1) as Ho. cbn [fst snd] in Ho.
  destruct (first_overlap a b rs 1); naive_solver.
Qed.

(** Every range is apart from those before it. *)
Definition pairwise_apart (rs : list (Z * Z)) : Prop :=
  ∀ i j r r', (i < j)%nat → rs !! i = Some r → rs !! j = Some r' → apart r r'.

Lemma pairwise_apart_snoc rs r :
  pairwise_apart (rs ++ [r]) ↔ pairwise_apart rs ∧ Forall (fun r' => apart r' r) rs.
Proof.
  split.
  - intros H. split.
    + intros i j x y Hij Hx Hy. apply (H i j); [done|by apply lookup_app_l_Some..].
    + apply list.Forall_forall. intros x [i Hi]%list_elem_of_lookup.
      apply (H i (length rs)); [by eapply lookup_lt_Some|by apply lookup_app_l_Some|].
      by rewrite lookup_app_r, Nat.sub_diag by done.
  - intros [Hp Hf] i j x y Hij Hx Hy.
    apply lookup_app_Some in Hy as [Hy|[Hlen Hy]].
    + rewrite lookup_app_l in Hx by (apply lookup_lt_Some in Hy; lia). by eapply Hp.
    + apply list_lookup_singleton_Some in Hy as [Hj <-].
      rewrite lookup_app_l in Hx by lia. rewrite list.Forall_forall in Hf.
      apply Hf. by eapply list_elem_of_lookup_2.
Qed.

Lemma check_headers_Ok hs rs0 :
  pairwise_apart rs0 →
  ((∃ rs, foldlR check_header hs rs0 = Ok rs) ↔
   ∃ new, Forall2 (fun h r => Range h = Ok r) hs new ∧ pairwise_apart (rs0 ++ new)).
Proof.
  revert rs0. induction hs as [|h hs IH]; intros rs0 H0; cbn [foldlR].
  { split; [|by eauto]. intros _. exists []. rewrite app_nil_r. by split. }
  split.
  - intros (rs & (rs1 & (r & Hr & Ha & ->)%check_header_Ok & Hgo)%bind_Ok).
    destruct (IH (rs0 ++ [r])) as [IH1 _]; [by apply pairwise_apart_snoc|].
    destruct IH1 as (new & Hn & Hp); [by eauto|]. exists (r :: new).
    split; [by constructor|]. by rewrite <-app_assoc in Hp.
  - intros (new & Hn & Hp). inversion Hn as [|? r ? new' Hr Hn']; subst.
    rewrite cons_middle, app_assoc in Hp.
    assert (Hp1 : pairwise_apart (rs0 ++ [r])).
    { intros i j x y Hij Hx Hy. apply (Hp i j); [done|by apply lookup_app_l_Some..]. }
    destruct (IH (rs0 ++ [r]) Hp1) as [_ IH2]. destruct IH2 as [rs Hrs]; [by eauto|].
    exists rs. assert (Hc : check_header rs0 h = Ok (rs0 ++ [r])).
    { apply check_header_Ok. exists r. by apply pairwise_apart_snoc in Hp1 as [_ ?]. }
    by rewrite Hc.
Qed.

Lemma check_signatures_Ok l i :
  is_ok (foldlR check_signature l i) = true ↔ Forall (fun v => ValidateCPS v = Ok tt) l.
Proof.
  revert i. induction l as [|v l IH]; intros i; cbn [foldlR]; [by split; [constructor|]|].
  rewrite list.Forall_cons.
  assert (Hc : is_ok (check_signature i v) = true ↔ ValidateCPS v = Ok tt).
  { unfold check_signature. destruct (ValidateCPS v) as [[]|e]; naive_solver. }
  destruct (check_signature i v); cbn [mbind result_bind]; [rewrite IH|cbn]; naive_solver.
Qed.

Lemma check_timings_Ok l :
  is_ok (foldlR check_timing l tt) = true ↔
  Forall (fun kv => kv.1 ∈ Timings ∧ small_range kv.2 = true) l.
Proof.
  induction l as [|[k v] l IH]; cbn [foldlR]; [by split; [constructor|]|].
  rewrite list.Forall_cons, <-IH.
  assert (Hc : is_ok (check_timing tt (k, v)) = true ↔ k ∈ Timings ∧ small_range v = true).
  { unfold check_timing. cbn [fst snd]. case_bool_decide; cbn [negb]; [|naive_solver].
    destruct (small_range v); naive_solver. }
  destruct (check_timing tt (k, v)) as [[]|]; cbn [mbind result_bind]; naive_solver.
Qed.

Lemma timings_checked (timings : gmap string string) :
  map_Forall (fun k v => k ∈ Timings ∧ small_range v = true) timings ↔
  is_ok (foldlR check_timing (map_to_list timings) tt) = true.
Proof.
  rewrite check_timings_Ok, list.Forall_forall. split.
  - intros H [k v] Hkv%elem_of_map_to_list. by apply H.
  - intros H k v Hkv%elem_of_map_to_list. exact (H (k, v) Hkv).
Qed.

Lemma Validate_Ok headers signatures padding timings :
  Validate headers signatures padding timings = Ok tt →
  (∃ rs, foldlR check_header headers [] = Ok rs) ∧ small_range padding = true ∧
  is_ok (foldlR check_timing (map_to_list timings) tt) = true ∧
  is_ok (foldlR check_signature signatures 1%nat) = true.
Proof.
  unfold Validate. intros (rs & Hrs & H)%bind_Ok. destruct (small_range padding); [|done]. cbn [negb] in H.
  apply bind_Ok in H as (u & Ht & H). apply bind_Ok in H as (n & Hs & _).
  rewrite Ht, Hs. eauto.
Qed.

Lemma pairwise_apart_nil : pairwise_apart [].
Proof. intros i j ?? _. by rewrite lookup_nil. Qed.

Lemma Validate_values headers signatures padding timings :
  Validate headers signatures padding timings = Ok tt →
  Forall (fun h => is_ok (Range h) = true) headers ∧ small_range padding = true ∧
  map_Forall (fun k v => k ∈ Timings ∧ small_range v = true) timings ∧
  Forall (fun v => ValidateCPS v = Ok tt) signatures.
Proof.
  intros (Hh & Hp & Ht & Hs)%Validate_Ok. split_and!; [|done|by apply timings_checked|].
  - apply (check_headers_Ok headers []) in Hh as (rs & Hrs & _); [|apply pairwise_apart_nil].
    apply list.Forall_forall. intros h [r [_ Hr]]%(Forall2_elem_l _ _ _ _ Hrs). by rewrite Hr.
  - by apply check_signatures_Ok in Hs.
Qed.

(** [Validate] accepts a parameter set exactly when every header is a
    [uint32] or a [uint32] range, no two of the header ranges overlap, padding
    and timings are left out or at most 65535, the timings are the known ones,
    and every signature packet is valid. *)
Theorem Validate_spec headers signatures padding timings :
  Validate headers signatures padding timings = Ok tt ↔
  (∃ rs, Forall2 (fun h r => Range h = Ok r) headers rs ∧
         Forall (fun r => 0 <= r.1 <= r.2 ∧ r.2 < 2 ^ 32) rs ∧ pairwise_apart rs) ∧
  small_range padding = true ∧
  map_Forall (fun k v => k ∈ Timings ∧ small_range v = true) timings ∧
  Forall (fun v => ValidateCPS v = Ok tt) signatures.
Proof.
  rewrite <-(check_signatures_Ok _ 1), timings_checked.
  pose proof (check_headers_Ok headers []) as Hh. cbn [app] in Hh.
  transitivity (is_ok (Validate headers signatures padding timings) = true).
  { destruct (Validate _ _ _ _) as [[]|]; naive_solver. }
  unfold Validate. destruct (foldlR check_header headers []) as [rs|e]; cbn [mbind result_bind].
  - destruct Hh as [(new & Hn & Hp) _]; [apply pairwise_apart_nil|by eauto|].
    assert (Hb : Forall (fun r => 0 <= r.1 <= r.2 ∧ r.2 < 2 ^ 32) new).
    { apply list.Forall_forall. intros [a b] [h [_ Hr]]%(Forall2_elem_r _ _ _ _ Hn). by apply Range_bounds in Hr. }
    destruct (small_range padding); cbn [negb]; [|naive_solver].
    destruct (foldlR check_timing _ _); cbn [mbind result_bind]; [|naive_solver].
    destruct (foldlR check_signature _ _); cbn [mbind result_bind]; naive_solver.
  - split; [done|]. intros [(rs & Hr & _ & Hp) _].
    destruct Hh as [_ [rs' ?]]; [apply pairwise_apart_nil|by eauto|done].
Qed.
End AwgConfig.
