(* ===== verification/Sql.v ===== *)
(** * Sql: tables and the statements the stores run on them

    A table is a [gmap] from its primary key to its row.  The statements are
    the shapes that occur in the source: [update .. where], [delete .. where],
    [select .. where], [order by .. limit], and [insert .. on conflict].  Each
    has its lookup lemma, collected in the rewrite database [sql]. *)

From S2P Require Import Prelude.

Create Rewrite HintDb sql.

Section Statements.
Context {K : Type} `{Countable K} {A : Type}.
Implicit Types (t : gmap K A) (k : K) (P : A → bool) (f : A → A).

(** [update t set .. where P] *)
Definition sql_update P f t : gmap K A := (fun r => if P r then f r else r) <$> t.

(** [delete from t where P] *)
Definition sql_delete P t : gmap K A := filter (fun kr => P kr.2 = false) t.

(** [select * from t where P], in key order of the model *)
Definition sql_select P t : list A := filter (fun r => P r = true) (map_to_list t).*2.

(** [insert into t .. on conflict do update] *)
Definition sql_upsert k (new : A) (merge : A → A) t : gmap K A :=
  <[k := match t !! k with Some old => merge old | None => new end]> t.

(** [insert into t .. on conflict do nothing] *)
Definition sql_insert_if_absent k (new : A) t : gmap K A := sql_upsert k new id t.

Lemma lookup_sql_update P f t k :
  sql_update P f t !! k = (fun r => if P r then f r else r) <$> t !! k.
Proof. apply lookup_fmap. Qed.

Lemma lookup_sql_delete P t k :
  sql_delete P t !! k = r ← t !! k; if P r then None else Some r.
Proof.
  unfold sql_delete. rewrite map_lookup_filter.
  destruct (t !! k) as [r|]; simpl; [|done].
  by destruct (P r).
Qed.

Lemma elem_of_sql_select P t r :
  r ∈ sql_select P t ↔ P r = true ∧ ∃ k, t !! k = Some r.
Proof.
  unfold sql_select. rewrite list_elem_of_filter, list_elem_of_fmap.
  split; intros [HP Hk]; (split; [done|]).
  - destruct Hk as ([k r'] & -> & Hin%elem_of_map_to_list). by exists k.
  - destruct Hk as [k Hk]. exists (k, r). by rewrite elem_of_map_to_list.
Qed.

Lemma lookup_sql_upsert k new merge t k' :
  sql_upsert k new merge t !! k' =
  if decide (k = k') then Some (from_option merge new (t !! k)) else t !! k'.
Proof.
  unfold sql_upsert. rewrite lookup_insert. case_decide; [|done].
  by destruct (t !! k).
Qed.

Lemma lookup_sql_insert_if_absent k new t k' :
  sql_insert_if_absent k new t !! k' =
  if decide (k = k') then Some (default new (t !! k)) else t !! k'.
Proof.
  unfold sql_insert_if_absent. rewrite lookup_sql_upsert.
  case_decide; [|done]. by destruct (t !! k).
Qed.

(** [insert into t ..] of a row whose primary key must be new *)
Definition sql_insert (e : error) k (new : A) t : result (gmap K A) :=
  match t !! k with Some _ => Err e | None => Ok (<[k := new]> t) end.

(** [exists (select .. from t where P)], as the unique indexes are checked *)
Definition sql_exists P t : bool := existsb P (map_to_list t).*2.

Lemma sql_insert_Ok e k new t t' :
  sql_insert e k new t = Ok t' ↔ t !! k = None ∧ t' = <[k := new]> t.
Proof. unfold sql_insert. destruct (t !! k); naive_solver. Qed.

Lemma sql_exists_true P t : sql_exists P t = true ↔ ∃ k r, t !! k = Some r ∧ P r = true.
Proof.
  unfold sql_exists. rewrite existsb_exists. split.
  - intros (r & Hr & HP). apply list_elem_of_In, list_elem_of_fmap in Hr as ([k r'] & -> & Hk).
    apply elem_of_map_to_list in Hk. eauto.
  - intros (k & r & Hk & HP). exists r. split; [|done].
    apply list_elem_of_In, list_elem_of_fmap. exists (k, r).
    by rewrite elem_of_map_to_list.
Qed.

Lemma sql_exists_false P t : sql_exists P t = false ↔ ∀ k r, t !! k = Some r → P r = false.
Proof.
  rewrite <-not_true_iff_false, sql_exists_true. split.
  - intros Hn k r Hk. apply not_true_iff_false. intros HP. apply Hn. eauto.
  - intros Hall (k & r & Hk & HP). by rewrite (Hall k r Hk) in HP.
Qed.

(** Row invariants *)
Lemma sql_update_Forall (I : A → Prop) P f t :
  (∀ r, I r → I (f r)) → map_Forall (fun _ => I) t → map_Forall (fun _ => I) (sql_update P f t).
Proof.
  intros Hf HI k r. rewrite lookup_sql_update. intros (r0 & Hr0 & ->)%fmap_Some.
  destruct (P r0); eauto.
Qed.

Lemma sql_delete_Forall (I : A → Prop) P t :
  map_Forall (fun _ => I) t → map_Forall (fun _ => I) (sql_delete P t).
Proof. intros HI k r [Hr _]%map_lookup_filter_Some. by apply (HI k). Qed.

Lemma sql_upsert_Forall (I : A → Prop) k new m t :
  I new → (∀ r, I r → I (m r)) → map_Forall (fun _ => I) t →
  map_Forall (fun _ => I) (sql_upsert k new m t).
Proof.
  intros Hn Hm HI. apply map_Forall_insert_2; [|done]. destruct (t !! k) eqn:E; eauto.
Qed.

Lemma sql_update_false P f t :
  (∀ k r, t !! k = Some r → P r = false) → sql_update P f t = t.
Proof.
  intros HP. apply map_eq. intros k. rewrite lookup_sql_update.
  destruct (t !! k) as [r|] eqn:E; simpl; [|done]. by rewrite (HP _ _ E).
Qed.
End Statements.

#[export] Hint Rewrite @lookup_sql_update @lookup_sql_delete @lookup_sql_upsert
  @lookup_sql_insert_if_absent : sql.

(** ** [order by .. limit]

    Rows come out of [merge_sort]; for the total orders of the source, which
    end in the primary key, the result is the only sorted one. *)
Section OrderBy.
Context {A : Type} (R : relation A) `{!RelDecision R, !Transitive R, !Total R}.

Definition sql_order_limit (limit : nat) (l : list A) : list A :=
  take limit (merge_sort R l).

Lemma sql_order_limit_elem limit l x : x ∈ sql_order_limit limit l → x ∈ l.
Proof.
  unfold sql_order_limit. intros Hx.
  rewrite <-(merge_sort_Permutation R l). by eapply subseteq_take.
Qed.

Lemma sql_order_limit_all limit l x :
  length l ≤ limit → x ∈ l → x ∈ sql_order_limit limit l.
Proof.
  unfold sql_order_limit. intros Hlen Hx.
  rewrite take_ge; [by rewrite merge_sort_Permutation|].
  by rewrite merge_sort_Permutation.
Qed.

Lemma sql_order_limit_sorted limit l : StronglySorted R (sql_order_limit limit l).
Proof.
  unfold sql_order_limit.
  assert (Hs : StronglySorted R (merge_sort R l)) by (apply StronglySorted_merge_sort; done).
  rewrite <-(take_drop limit (merge_sort R l)) in Hs.
  by apply StronglySorted_app_1_l in Hs.
Qed.

(** What the limit leaves out comes after everything that is returned. *)
Lemma sql_order_limit_prefix limit l x y :
  x ∈ sql_order_limit limit l → y ∈ l → y ∉ sql_order_limit limit l → R x y.
Proof.
  unfold sql_order_limit. intros Hx Hy Hny.
  assert (Hs : StronglySorted R (merge_sort R l)) by (apply StronglySorted_merge_sort; done).
  rewrite <-(take_drop limit (merge_sort R l)) in Hs.
  eapply StronglySorted_app_1_elem_of; [exact Hs|done|].
  rewrite <-(merge_sort_Permutation R l), <-(take_drop limit (merge_sort R l)) in Hy.
  apply elem_of_app in Hy as [|]; done.
Qed.

Lemma sql_order_limit_length limit l : length (sql_order_limit limit l) ≤ limit.
Proof. unfold sql_order_limit. rewrite length_take. lia. Qed.

Lemma sql_order_limit_NoDup limit l : NoDup l → NoDup (sql_order_limit limit l).
Proof.
  intros Hnd. unfold sql_order_limit.
  rewrite <-(merge_sort_Permutation R l) in Hnd.
  rewrite <-(take_drop limit (merge_sort R l)) in Hnd.
  by apply list.NoDup_app in Hnd as [? _].
Qed.
End OrderBy.

(** ** Statements under a view of the rows

    [g] maps each row to what a reader sees of it.  A statement whose condition
    and assignment respect the view commutes with it. *)
Section View.
Context `{Countable K} {A B : Type} (g : A → B).
Implicit Types (t : gmap K A).

Lemma sql_update_fmap P Q f h t :
  (∀ r, P r = Q (g r)) → (∀ r, g (f r) = h (g r)) →
  g <$> sql_update P f t = sql_update Q h (g <$> t).
Proof.
  intros HP Hf. apply map_eq. intros k.
  rewrite lookup_fmap, !lookup_sql_update, lookup_fmap.
  destruct (t !! k) as [r|]; simpl; [|done]. rewrite <-HP. destruct (P r); by rewrite ?Hf.
Qed.

Lemma sql_delete_fmap P Q t :
  (∀ r, P r = Q (g r)) → g <$> sql_delete P t = sql_delete Q (g <$> t).
Proof.
  intros HP. apply map_eq. intros k.
  rewrite lookup_fmap, !lookup_sql_delete, lookup_fmap.
  destruct (t !! k) as [r|]; simpl; [|done]. rewrite <-HP. by destruct (P r).
Qed.

Lemma sql_upsert_fmap k new m m' t :
  (∀ r, g (m r) = m' (g r)) →
  g <$> sql_upsert k new m t = sql_upsert k (g new) m' (g <$> t).
Proof.
  intros Hm. apply map_eq. intros k'.
  rewrite lookup_fmap, !lookup_sql_upsert, !lookup_fmap.
  case_decide; [|done]. destruct (t !! k); simpl; by rewrite ?Hm.
Qed.

Lemma sql_select_fmap P Q t :
  (∀ r, P r = Q (g r)) → sql_select Q (g <$> t) = g <$> sql_select P t.
Proof.
  intros HP. unfold sql_select. rewrite map_to_list_fmap, <-!list_fmap_compose.
  induction (map_to_list t) as [|[k r] l IH]; [done|].
  rewrite !fmap_cons, !filter_cons. cbn [compose fst snd prod_map]. rewrite (HP r), IH.
  by case_decide.
Qed.

Context (R : relation A) (S : relation B) `{!RelDecision R, !RelDecision S}.
Context (HRS : ∀ x y, R x y ↔ S (g x) (g y)).

Lemma list_merge_fmap l1 l2 :
  list_merge S (g <$> l1) (g <$> l2) = g <$> list_merge R l1 l2.
Proof.
  revert l2; induction l1 as [|x l1 IH1]; [by intros []|].
  induction l2 as [|y l2 IH2]; [done|].
  cbn. destruct (decide (R x y)) as [HR|HR], (decide (S (g x) (g y))) as [HS|HS].
  - cbn. f_equal. apply (IH1 (y :: l2)).
  - by apply HRS in HR.
  - by apply HRS in HS.
  - cbn. f_equal. apply IH2.
Qed.

Definition view_stack : list (option (list A)) → list (option (list B)) :=
  map (option_map (map g)).

Lemma merge_list_to_stack_fmap st l :
  merge_list_to_stack S (view_stack st) (map g l) = view_stack (merge_list_to_stack R st l).
Proof.
  revert l; induction st as [|[l'|] st IH]; intros l; cbn; [done| |done].
  rewrite (list_merge_fmap l' l : list_merge S (map g l') (map g l) = map g _). by rewrite IH.
Qed.

Lemma merge_sort_fmap l : merge_sort S (g <$> l) = g <$> merge_sort R l.
Proof.
  unfold merge_sort. change (@nil (option (list B))) with (view_stack []).
  generalize (@nil (option (list A))) as st. induction l as [|x l IH]; intros st; cbn.
  - induction st as [|[l'|] st IH]; cbn; [done| |done]. rewrite IH. apply list_merge_fmap.
  - rewrite <-IH. f_equal. apply (merge_list_to_stack_fmap st [x]).
Qed.

Lemma sql_order_limit_fmap n l :
  sql_order_limit S n (g <$> l) = g <$> sql_order_limit R n l.
Proof. unfold sql_order_limit. by rewrite merge_sort_fmap, fmap_take. Qed.
End View.

(** ** Loops that write one row per element

    [f t x] computes the new row of [key x] from the old one.  When the keys
    are distinct, every row is computed from the table the loop started with. *)
Section Keyed.
Context `{Countable K} {A V : Type} (key : A → K).
Context (f : gmap K V → A → result (gmap K V)) (g : A → option V → result V).
Context (Hf : ∀ t x, f t x = v ← g x (t !! key x); Ok (<[key x := v]> t)).

Lemma foldlR_keyed_Ok l t t' :
  NoDup (key <$> l) → foldlR f l t = Ok t' →
  (∀ x, x ∈ l → ∃ v, g x (t !! key x) = Ok v ∧ t' !! key x = Some v) ∧
  (∀ k, k ∉ key <$> l → t' !! k = t !! k).
Proof.
  revert t. induction l as [|x l IH]; intros t; cbn [fmap list_fmap foldlR].
  { intros _ [= <-]. split; [|done]. intros x Hx. by apply elem_of_nil in Hx. }
  intros [Hnx Hnd]%list.NoDup_cons (t1 & Hx & Hl)%bind_Ok.
  rewrite Hf in Hx. apply bind_Ok in Hx as (v & Hv & [= <-]).
  destruct (IH _ Hnd Hl) as [IH1 IH2]. split.
  - intros y [->|Hy]%elem_of_cons.
    + exists v. split; [done|]. rewrite IH2 by done. by rewrite lookup_insert_eq.
    + destruct (IH1 y Hy) as (w & Hw & Ht'). exists w. split; [|done].
      rewrite lookup_insert_ne in Hw; [done|]. intros E. apply Hnx. rewrite E.
      by apply list_elem_of_fmap_2.
  - intros k [Hk1 Hk2]%not_elem_of_cons. rewrite IH2 by done. by rewrite lookup_insert_ne.
Qed.

Lemma foldlR_keyed_total l t :
  NoDup (key <$> l) → (∀ x, x ∈ l → ∃ v, g x (t !! key x) = Ok v) →
  ∃ t', foldlR f l t = Ok t'.
Proof.
  revert t. induction l as [|x l IH]; intros t; cbn [fmap list_fmap foldlR]; [eauto|].
  intros [Hnx Hnd]%list.NoDup_cons Hok. destruct (Hok x) as [v Hv]; [left|].
  rewrite Hf, Hv. cbn. apply IH; [done|]. intros y Hy. rewrite lookup_insert_ne.
  - apply Hok. by right.
  - intros E. apply Hnx. rewrite E. by apply list_elem_of_fmap_2.
Qed.
End Keyed.
