(* ===== verification/Queue.v ===== *)
(** * Queue: the durable transport queue

    [src/internal/queue/transport.go] (messages, statuses, cleanup policy) and
    [src/internal/queue/sqlstore.go] (the SQL store).  The store has an outbox
    and an inbox table with primary key [(actor_id, id)].  The clock of every
    operation is an explicit argument [now]; the JSON object of a payload
    column is the finite map of its fields, with the base64 text inside.

    Proved here: what a lease returns and that a leased message is not handed
    out again before its lease runs out; that an expired lease goes back to
    the queue and is leased again; that leasing, requeueing and cleanup leave
    finished messages, respectively live messages, alone; that recorded
    results are found again; and how the default cleanup policy behaves. *)

From S2P Require Import Prelude GoLib Sql.

(** ** transport.go *)
Inductive Direction := DirectionOutbound | DirectionInbound.

(** [StatusUnset] is the empty string, the zero value of [Status]. *)
Inductive Status :=
| StatusUnset
| StatusPending
| StatusInFlight
| StatusApplied
| StatusAcked
| StatusFailed
| StatusExpired
| StatusSuperseded.

#[export] Instance Direction_eq_dec : EqDecision Direction.
Proof. solve_decision. Defined.
#[export] Instance Status_eq_dec : EqDecision Status.
Proof. solve_decision. Defined.

Record Message := mkMessage {
  m_ID : string;
  m_ActorID : string;
  m_Direction : Direction;
  m_Type : string;
  m_Payload : string;
  m_Status : Status;
  m_AvailableAt : time;
  m_ExpiresAt : time;
  m_CreatedAt : time;
  m_UpdatedAt : time;
  m_ResultPayload : string;
  m_Error : string;
}.

#[export] Instance Message_eq_dec : EqDecision Message.
Proof. solve_decision. Defined.

Definition IsInbound (m : Message) : bool :=
  bool_decide (m_Direction m = DirectionInbound).

Record ProcessedMessage := mkProcessed {
  p_ActorID : string;
  p_MessageID : string;
  p_Type : string;
  p_Status : Status;
  p_Result : string;
  p_Error : string;
}.

Record CleanupPolicy := mkCleanupPolicy {
  AuthAckedTTL : duration;
  AuthSupersededTTL : duration;
  AuthFailedTTL : duration;
  RuntimeAckedTTL : duration;
  RuntimeFailedTTL : duration;
  ProcessedTTL : duration;
  OnlineAckedTTL : duration;
  OnlineFailedTTL : duration;
  TrafficAckedTTL : duration;
  TrafficFailedTTL : duration;
  DefaultAckedTTL : duration;
  DefaultFailedTTL : duration;
  DefaultExpiredTTL : duration;
  PayloadRedactAfter : duration;
}.

Definition DefaultCleanupPolicy : CleanupPolicy := {|
  AuthAckedTTL := 15 * Minute;
  AuthSupersededTTL := 5 * Minute;
  AuthFailedTTL := Hour;
  RuntimeAckedTTL := Hour;
  RuntimeFailedTTL := 24 * Hour;
  ProcessedTTL := 24 * Hour;
  OnlineAckedTTL := 5 * Minute;
  OnlineFailedTTL := 15 * Minute;
  TrafficAckedTTL := Hour;
  TrafficFailedTTL := 7 * 24 * Hour;
  DefaultAckedTTL := Hour;
  DefaultFailedTTL := 24 * Hour;
  DefaultExpiredTTL := Hour;
  PayloadRedactAfter := 24 * Hour;
|}%Z.

(** ** Payload columns *)
Record messageJSON := mkJSON { j_Payload : string; j_Result : string }.

Definition json_obj := gmap string string.

Definition encodeMessageJSON (value : messageJSON) : json_obj :=
  let m : json_obj := ∅ in
  let m := if bool_decide (j_Payload value = "") then m
           else <["payload_b64" := Base64.EncodeStd (j_Payload value)]> m in
  if bool_decide (j_Result value = "") then m
  else <["result_b64" := Base64.EncodeStd (j_Result value)]> m.

Definition json_field (m : json_obj) (key : string) : string :=
  let encoded := default "" (m !! key) in
  if bool_decide (encoded = "") then "" else (Base64.DecodeStd encoded).1.

Definition mustDecodeMessageJSON (m : json_obj) : messageJSON :=
  mkJSON (json_field m "payload_b64") (json_field m "result_b64").

(** Whatever goes into a payload column comes out of it. *)
Lemma json_field_encoded (m : json_obj) key v :
  m !! key = (if bool_decide (v = "") then None else Some (Base64.EncodeStd v)) →
  json_field m key = v.
Proof.
  unfold json_field. intros ->. destruct (decide (v = "")) as [->|Hv]; [done|].
  rewrite (bool_decide_eq_false_2 _ Hv). cbn -[Base64.EncodeStd Base64.DecodeStd].
  rewrite Base64.DecodeStd_EncodeStd. case_bool_decide as He; [|done].
  by apply Base64.encode_empty in He.
Qed.

Lemma mustDecode_encode v : mustDecodeMessageJSON (encodeMessageJSON v) = v.
Proof.
  destruct v as [p r]. unfold mustDecodeMessageJSON, encodeMessageJSON. cbn [j_Payload j_Result].
  f_equal; apply json_field_encoded; repeat case_bool_decide; by simplify_map_eq.
Qed.

(** ** Rows and tables *)
Record row := mkRow {
  actor_id : string;
  id : string;
  type_ : string;
  status : Status;
  available_at_ms : Z;
  expires_at_ms : option Z;
  created_at_ms : Z;
  input_json : json_obj;
  output_json : json_obj;
  err : string;
}.

Abbreviation table :=
  (@gmap (string * string) (@prod_eq_dec string String.eq_dec string String.eq_dec)
         (@prod_countable string String.eq_dec String.countable
                          string String.eq_dec String.countable) row).

Definition row_key (r : row) : string * string := (actor_id r, id r).

Definition set_status (s : Status) (r : row) : row :=
  mkRow (actor_id r) (id r) (type_ r) s (available_at_ms r) (expires_at_ms r)
        (created_at_ms r) (input_json r) (output_json r) (err r).
Definition set_lease (s : Status) (available : Z) (r : row) : row :=
  mkRow (actor_id r) (id r) (type_ r) s available (expires_at_ms r)
        (created_at_ms r) (input_json r) (output_json r) (err r).
Definition set_failed (s : Status) (available : Z) (e : string) (r : row) : row :=
  mkRow (actor_id r) (id r) (type_ r) s available (expires_at_ms r)
        (created_at_ms r) (input_json r) (output_json r) e.
Definition set_output (s : Status) (out : json_obj) (e : string) (r : row) : row :=
  mkRow (actor_id r) (id r) (type_ r) s (available_at_ms r) (expires_at_ms r)
        (created_at_ms r) (input_json r) out e.
Definition redact (r : row) : row :=
  mkRow (actor_id r) (id r) (type_ r) (status r) (available_at_ms r) (expires_at_ms r)
        (created_at_ms r) ∅ ∅ (err r).

Record SQLStore := mkStore { outbox : table; inbox : table }.

(** ** Enqueueing *)
Definition message_row (msg : Message) : row :=
  mkRow (m_ActorID msg) (m_ID msg) (m_Type msg) (m_Status msg)
        (UnixMilli (m_AvailableAt msg)) (UnixMilliOrNil (m_ExpiresAt msg))
        (UnixMilli (m_CreatedAt msg))
        (encodeMessageJSON (mkJSON (m_Payload msg) ""))
        (encodeMessageJSON (mkJSON "" (m_ResultPayload msg))) (m_Error msg).

(** [on conflict do update]: every column but [created_at_ms] is replaced. *)
Definition replace_row (new old : row) : row :=
  mkRow (actor_id old) (id old) (type_ new) (status new) (available_at_ms new)
        (expires_at_ms new) (created_at_ms old) (input_json new) (output_json new) (err new).

Definition message_defaults (now : time) (msg : Message) : Message :=
  let created := if IsZero (m_CreatedAt msg) then now else m_CreatedAt msg in
  let available := if IsZero (m_AvailableAt msg) then created else m_AvailableAt msg in
  let st := if bool_decide (m_Status msg = StatusUnset) then StatusPending else m_Status msg in
  mkMessage (m_ID msg) (m_ActorID msg) (m_Direction msg) (m_Type msg) (m_Payload msg) st
            available (m_ExpiresAt msg) created (m_UpdatedAt msg) (m_ResultPayload msg) (m_Error msg).

Definition writeMessage (now : time) (msg : Message) (replace : bool) (t : table) : table :=
  let new := message_row (message_defaults now msg) in
  if replace then sql_upsert (row_key new) new (replace_row new) t
  else sql_insert_if_absent (row_key new) new t.

Definition Enqueue (now : time) (msg : Message) (s : SQLStore) : SQLStore :=
  mkStore (writeMessage now msg true (outbox s)) (inbox s).
Definition EnqueueIfAbsent (now : time) (msg : Message) (s : SQLStore) : SQLStore :=
  mkStore (writeMessage now msg false (outbox s)) (inbox s).
Definition EnqueueInbox (now : time) (msg : Message) (s : SQLStore) : SQLStore :=
  mkStore (outbox s) (writeMessage now msg true (inbox s)).

(** ** Leasing *)
Definition scanMessage (direction : Direction) (r : row) : Message :=
  mkMessage (id r) (actor_id r) direction (type_ r)
            (j_Payload (mustDecodeMessageJSON (input_json r))) (status r)
            (FromUnixMilli (available_at_ms r))
            (from_option FromUnixMilli zero_time (expires_at_ms r))
            (FromUnixMilli (created_at_ms r)) zero_time
            (j_Result (mustDecodeMessageJSON (output_json r))) (err r).

(** [expires_at_ms is null or expires_at_ms > nowMS] *)
Definition not_expired (nowMS : Z) (r : row) : bool :=
  match expires_at_ms r with None => true | Some e => (nowMS <? e)%Z end.

Definition due (actorID : string) (nowMS : Z) (r : row) : bool :=
  bool_decide (actor_id r = actorID) && bool_decide (status r = StatusPending) &&
  (available_at_ms r <=? nowMS)%Z && not_expired nowMS r.

(** [order by available_at_ms, id] *)
Definition lease_le (r1 r2 : row) : Prop :=
  (available_at_ms r1 < available_at_ms r2)%Z ∨
  (available_at_ms r1 = available_at_ms r2 ∧ String.le (id r1) (id r2)).
#[export] Instance lease_le_dec : RelDecision lease_le.
Proof. intros r1 r2. unfold lease_le. apply _. Defined.

Definition lease_rows (nowMS : Z) (actorID : string) (limit : Z) (t : table) : list row :=
  let limit := if (limit <=? 0)%Z then 100%Z else limit in
  sql_order_limit lease_le (Z.to_nat limit) (sql_select (due actorID nowMS) t).

Definition leasePending (now : time) (direction : Direction) (actorID : string)
    (limit : Z) (leaseFor : duration) (t : table) : list Message * table :=
  let nowMS := TimeUnixMilli now in
  let leaseUntilMS := TimeUnixMilli (Add now leaseFor) in
  let out := scanMessage direction <$> lease_rows nowMS actorID limit t in
  (out,
   foldl (fun t msg =>
            sql_update (fun r => bool_decide (actor_id r = m_ActorID msg) &&
                                 bool_decide (id r = m_ID msg))
                       (set_lease StatusInFlight leaseUntilMS) t) t out).

Definition LeasePending (now : time) (actorID : string) (limit : Z) (leaseFor : duration)
    (s : SQLStore) : list Message * SQLStore :=
  let '(out, t) := leasePending now DirectionOutbound actorID limit leaseFor (outbox s) in
  (out, mkStore t (inbox s)).
Definition LeaseInboxPending (now : time) (actorID : string) (limit : Z) (leaseFor : duration)
    (s : SQLStore) : list Message * SQLStore :=
  let '(out, t) := leasePending now DirectionInbound actorID limit leaseFor (inbox s) in
  (out, mkStore (outbox s) t).

(** ** Completing *)
Definition markDone (mid : string) (st : Status) (result errMsg : string) (t : table) : table :=
  sql_update (fun r => bool_decide (id r = mid))
             (set_output st (encodeMessageJSON (mkJSON "" result)) errMsg) t.

Definition MarkApplied (mid result : string) (s : SQLStore) : SQLStore :=
  mkStore (markDone mid StatusApplied result "" (outbox s)) (inbox s).
Definition MarkAcked (mid result : string) (s : SQLStore) : SQLStore :=
  mkStore (markDone mid StatusAcked result "" (outbox s)) (inbox s).
Definition MarkExpired (mid errMsg : string) (s : SQLStore) : SQLStore :=
  mkStore (markDone mid StatusExpired "" errMsg (outbox s)) (inbox s).

Definition MarkFailed (now : time) (mid errMsg : string) (retryAt : time) (s : SQLStore) : SQLStore :=
  let st := if negb (IsZero retryAt) && After retryAt now then StatusPending else StatusFailed in
  let available := if IsZero retryAt then now else retryAt in
  mkStore (sql_update (fun r => bool_decide (id r = mid))
                      (set_failed st (UnixMilli available) errMsg) (outbox s)) (inbox s).

(** ** The inbox as a record of processed messages *)
Definition is_processed_status (s : Status) : bool :=
  bool_decide (s = StatusApplied ∨ s = StatusAcked ∨ s = StatusFailed).

Definition scanProcessed (r : row) : ProcessedMessage :=
  mkProcessed (actor_id r) (id r) (type_ r) (status r)
              (j_Result (mustDecodeMessageJSON (output_json r))) (err r).

Definition IsProcessed (actorID messageID : string) (s : SQLStore) : option ProcessedMessage :=
  r ← inbox s !! (actorID, messageID);
  if is_processed_status (status r) then Some (scanProcessed r) else None.

Definition RecordProcessed (now : time) (actorID messageID typ : string) (st : Status)
    (result errMsg : string) (s : SQLStore) : SQLStore :=
  let out := encodeMessageJSON (mkJSON "" result) in
  let nowMS := TimeUnixMilli now in
  let new := mkRow actorID messageID typ st nowMS None nowMS
                   (encodeMessageJSON (mkJSON "" "")) out errMsg in
  mkStore (outbox s) (sql_upsert (row_key new) new (set_output st out errMsg) (inbox s)).

(** ** Requeueing and cleanup *)
Definition requeueExpiredLeases (now : time) (actorID : string) (t : table) : table :=
  let nowMS := TimeUnixMilli now in
  let t := sql_update (fun r => bool_decide (actor_id r = actorID) &&
                                bool_decide (status r = StatusInFlight) &&
                                (available_at_ms r <=? nowMS)%Z && not_expired nowMS r)
                      (set_status StatusPending) t in
  sql_update (fun r => bool_decide (actor_id r = actorID) &&
                       bool_decide (status r = StatusPending ∨ status r = StatusInFlight) &&
                       negb (not_expired nowMS r))
             (set_status StatusExpired) t.

Definition RequeueExpiredLeases (now : time) (actorID : string) (s : SQLStore) : SQLStore :=
  mkStore (requeueExpiredLeases now actorID (outbox s)) (inbox s).

Definition cleanup_rules (p : CleanupPolicy) : list (Status * string * duration) :=
  [ (StatusAcked, "auth_refresh", AuthAckedTTL p);
    (StatusApplied, "auth_refresh", AuthAckedTTL p);
    (StatusSuperseded, "auth_refresh", AuthSupersededTTL p);
    (StatusFailed, "auth_refresh", AuthFailedTTL p);
    (StatusExpired, "auth_refresh", AuthFailedTTL p);
    (StatusAcked, "runtime_command", RuntimeAckedTTL p);
    (StatusApplied, "runtime_command", RuntimeAckedTTL p);
    (StatusFailed, "runtime_command", RuntimeFailedTTL p);
    (StatusExpired, "runtime_command", RuntimeFailedTTL p);
    (StatusAcked, "online_snapshot", OnlineAckedTTL p);
    (StatusFailed, "online_snapshot", OnlineFailedTTL p);
    (StatusExpired, "online_snapshot", OnlineFailedTTL p);
    (StatusAcked, "traffic_batch", TrafficAckedTTL p);
    (StatusApplied, "traffic_batch", TrafficAckedTTL p);
    (StatusFailed, "traffic_batch", TrafficFailedTTL p);
    (StatusExpired, "traffic_batch", TrafficFailedTTL p);
    (StatusAcked, "", DefaultAckedTTL p);
    (StatusApplied, "", DefaultAckedTTL p);
    (StatusFailed, "", DefaultFailedTTL p);
    (StatusExpired, "", DefaultExpiredTTL p) ].

Arguments cleanup_rules : simpl never.

(** The condition of one [delete] statement; a rule with a TTL of zero or
    less is skipped, and the empty type matches every message type. *)
Definition rule_deletes (nowMS : Z) (rule : Status * string * duration) (r : row) : bool :=
  let '(st, typ, ttl) := rule in
  (0 <? ttl)%Z && bool_decide (status r = st) &&
  (bool_decide (typ = "") || bool_decide (type_ r = typ)) &&
  (created_at_ms r <? nowMS - Milliseconds ttl)%Z.

Definition cleanupTable (now : time) (policy : CleanupPolicy) (t : table) : table :=
  let nowMS := TimeUnixMilli now in
  let t := foldl (fun t rule => sql_delete (rule_deletes nowMS rule) t) t (cleanup_rules policy) in
  if (0 <? PayloadRedactAfter policy)%Z then
    sql_update (fun r => bool_decide (status r = StatusFailed ∨ status r = StatusExpired ∨
                                      status r = StatusAcked) &&
                         (created_at_ms r <? nowMS - Milliseconds (PayloadRedactAfter policy))%Z)
               redact t
  else t.

(** Each table is cleaned against its own reading of the clock. *)
Definition Cleanup (now_out now_in : time) (policy : CleanupPolicy) (s : SQLStore) : SQLStore :=
  mkStore (cleanupTable now_out policy (outbox s)) (cleanupTable now_in policy (inbox s)).

(** ** Order and well-formedness *)
#[export] Instance lease_le_trans : Transitive lease_le.
Proof.
  intros r1 r2 r3. unfold lease_le. intros [?|[? H12]] [?|[? H23]]; [left; lia..|].
  right. split; [lia|by etrans].
Qed.
#[export] Instance lease_le_total : Total lease_le.
Proof.
  intros r1 r2. unfold lease_le.
  destruct (Z.lt_trichotomy (available_at_ms r1) (available_at_ms r2)) as [?|[->|?]]; [by left; left| |by right; left].
  destruct (total String.le (id r1) (id r2)); [left|right]; by right.
Qed.
#[export] Instance row_eq_dec : EqDecision row.
Proof. solve_decision. Defined.

(** Every row sits under its primary key. *)
Definition table_wf (t : table) : Prop := map_Forall (fun k r => row_key r = k) t.

Create HintDb queue.

Lemma sql_update_wf P f t :
  (∀ r, row_key (f r) = row_key r) → table_wf t → table_wf (sql_update P f t).
Proof.
  intros Hf Ht k r. rewrite lookup_sql_update.
  intros (r' & Hr' & ->)%fmap_Some. destruct (P r'); rewrite ?Hf; by apply Ht.
Qed.

Lemma sql_delete_wf P t : table_wf t → table_wf (sql_delete P t).
Proof.
  intros Ht k r. rewrite lookup_sql_delete. intros (r' & Hr' & H)%bind_Some.
  destruct (P r'); simplify_eq. by apply Ht.
Qed.

Lemma sql_upsert_wf r merge t :
  (∀ r', row_key (merge r') = row_key r') →
  table_wf t → table_wf (sql_upsert (row_key r) r merge t).
Proof.
  intros Hm Ht k r'. rewrite lookup_sql_upsert. case_decide; [|apply Ht].
  intros [= <-]. destruct (t !! row_key r) as [old|] eqn:E; simpl; [|done].
  rewrite Hm. rewrite (Ht _ _ E). done.
Qed.

#[export] Hint Resolve sql_update_wf sql_delete_wf sql_upsert_wf : queue.

Lemma writeMessage_wf now msg b t : table_wf t → table_wf (writeMessage now msg b t).
Proof. intros. unfold writeMessage. destruct b; by apply sql_upsert_wf. Qed.

Lemma foldl_wf {A} (f : table → A → table) l t :
  (∀ t x, table_wf t → table_wf (f t x)) → table_wf t → table_wf (foldl f t l).
Proof. intros Hf. revert t; induction l; simpl; eauto. Qed.

Lemma leasePending_wf now dir a lim d t :
  table_wf t → table_wf (leasePending now dir a lim d t).2.
Proof. apply foldl_wf. intros. by apply sql_update_wf. Qed.

Lemma cleanupTable_wf now p t : table_wf t → table_wf (cleanupTable now p t).
Proof.
  intros. unfold cleanupTable.
  case_match; [apply sql_update_wf; [done|]|]; (apply foldl_wf; [|done]); auto with queue.
Qed.

Lemma requeueExpiredLeases_wf now a t : table_wf t → table_wf (requeueExpiredLeases now a t).
Proof. intros. unfold requeueExpiredLeases. by do 2 (apply sql_update_wf; [done|]). Qed.

Lemma markDone_wf mid st res e t : table_wf t → table_wf (markDone mid st res e t).
Proof. intros. by apply sql_update_wf. Qed.

#[export] Hint Resolve writeMessage_wf leasePending_wf cleanupTable_wf
  requeueExpiredLeases_wf markDone_wf : queue.

(** ** What a lease does *)
Lemma if_bool_decide_ext {A} (P Q : Prop) `{Decision P, Decision Q} (x y : A) :
  (P ↔ Q) → (if bool_decide P then x else y) = (if bool_decide Q then x else y).
Proof. intros. repeat case_bool_decide; tauto. Qed.

Lemma lookup_lease_updates (until : Z) (l : list Message) (t : table) (k : string * string) :
  foldl (fun t msg =>
           sql_update (fun r => bool_decide (actor_id r = m_ActorID msg) &&
                                bool_decide (id r = m_ID msg))
                      (set_lease StatusInFlight until) t) t l !! k =
  (fun r => if bool_decide (row_key r ∈ (fun m => (m_ActorID m, m_ID m)) <$> l)
            then set_lease StatusInFlight until r else r) <$> t !! k.
Proof.
  revert t; induction l as [|m l IH]; intros t.
  { simpl. by destruct (t !! k). }
  cbn [foldl]. rewrite IH, lookup_sql_update, fmap_cons.
  destruct (t !! k) as [r|]; [|done]. cbn. f_equal.
  destruct (decide (row_key r = (m_ActorID m, m_ID m))) as [E|E].
  - rewrite (bool_decide_eq_true_2 (row_key r ∈ _ :: _)) by (rewrite E; left).
    injection E as E1 E2. rewrite (bool_decide_eq_true_2 _ E1), (bool_decide_eq_true_2 _ E2). simpl.
    by case_bool_decide.
  - replace (bool_decide (actor_id r = m_ActorID m) && bool_decide (id r = m_ID m)) with false.
    { apply if_bool_decide_ext. rewrite elem_of_cons. tauto. }
    symmetry. apply andb_false_iff. rewrite !bool_decide_eq_false.
    destruct (decide (actor_id r = m_ActorID m)); [right|by left].
    intros ?. apply E. unfold row_key. congruence.
Qed.

Lemma lease_keys dir (l : list row) :
  (fun m => (m_ActorID m, m_ID m)) <$> (scanMessage dir <$> l) = row_key <$> l.
Proof. induction l; simpl; f_equal; done. Qed.

Lemma elem_of_lease_rows nowMS a lim t r :
  r ∈ lease_rows nowMS a lim t → due a nowMS r = true ∧ ∃ k, t !! k = Some r.
Proof.
  unfold lease_rows. intros Hr%sql_order_limit_elem. by apply elem_of_sql_select in Hr.
Qed.

Lemma row_key_lease_rows nowMS a lim t k r :
  table_wf t → t !! k = Some r →
  row_key r ∈ row_key <$> lease_rows nowMS a lim t ↔ r ∈ lease_rows nowMS a lim t.
Proof.
  intros Hwf Hk. rewrite list_elem_of_fmap. split; [|by exists r].
  intros (r' & Heq & Hr'). pose proof Hr' as [_ [k' Hk']]%elem_of_lease_rows.
  assert (k = k') by (rewrite <-(Hwf _ _ Hk), <-(Hwf _ _ Hk'); done). by simplify_eq.
Qed.

(** Leased rows are in flight until the lease runs out; the rest is unchanged. *)
Lemma lookup_leasePending now dir a lim d (t : table) (k : string * string) :
  table_wf t →
  (leasePending now dir a lim d t).2 !! k =
  (fun r => if bool_decide (r ∈ lease_rows (TimeUnixMilli now) a lim t)
            then set_lease StatusInFlight (TimeUnixMilli (Add now d)) r else r) <$> t !! k.
Proof.
  intros Hwf. unfold leasePending. simpl. rewrite lookup_lease_updates, lease_keys.
  destruct (t !! k) as [r|] eqn:E; simpl; [|done].
  by rewrite (bool_decide_ext _ _ (row_key_lease_rows _ _ _ _ _ _ Hwf E)).
Qed.

(** ** Tables whose rows come from another table

    [rows_from S t' t]: every row of [t'] is related by [S] to the row of [t]
    under the same key. *)
Section RowsFrom.
Context (S : row → row → Prop) `{!PreOrder S}.

Definition rows_from (t' t : table) : Prop :=
  ∀ k r', t' !! k = Some r' → ∃ r, t !! k = Some r ∧ S r' r.

#[export] Instance rows_from_preorder : PreOrder rows_from.
Proof.
  split.
  - intros t k r Hr. by exists r.
  - intros t1 t2 t3 H12 H23 k r1 Hr1. destruct (H12 _ _ Hr1) as (r2 & Hr2 & HS).
    destruct (H23 _ _ Hr2) as (r3 & Hr3 & HS'). exists r3. split; [done|]. by etrans.
Qed.

Lemma rows_from_update P f t :
  (∀ r, P r = true → S (f r) r) → rows_from (sql_update P f t) t.
Proof.
  intros Hf k r'. rewrite lookup_sql_update. intros (r & Hr & ->)%fmap_Some. exists r.
  split; [done|]. destruct (P r) eqn:E; [by apply Hf|reflexivity].
Qed.

Lemma rows_from_delete P t : rows_from (sql_delete P t) t.
Proof.
  intros k r'. rewrite lookup_sql_delete. intros (r & Hr & HP)%bind_Some. exists r.
  destruct (P r); by simplify_eq.
Qed.

Lemma rows_from_foldl {B} (f : table → B → table) l t :
  (∀ t x, rows_from (f t x) t) → rows_from (foldl f t l) t.
Proof.
  intros Hf. revert t. induction l as [|x l IH]; intros t; [reflexivity|]. cbn.
  etrans; [apply IH|apply Hf].
Qed.

Lemma rows_from_cleanup now p t : (∀ r, S (redact r) r) → rows_from (cleanupTable now p t) t.
Proof.
  intros Hr. unfold cleanupTable. case_match; [etrans; [by apply rows_from_update|]|];
    apply rows_from_foldl; intros; apply rows_from_delete.
Qed.
End RowsFrom.

(** ** The life of a row under the queue's operations

    [tstep mid now t t'] is one operation of the store at time [now] that does
    not complete, fail or replace the message [mid]: a lease by any actor, a
    requeue, an insert, a cleanup, or the completion of another message. *)
Inductive tstep (mid : string) (now : time) : table → table → Prop :=
| ts_lease dir a lim d t : tstep mid now t (leasePending now dir a lim d t).2
| ts_requeue a t : tstep mid now t (requeueExpiredLeases now a t)
| ts_insert msg t : tstep mid now t (writeMessage now msg false t)
| ts_replace msg t : m_ID msg ≠ mid → tstep mid now t (writeMessage now msg true t)
| ts_cleanup policy t : tstep mid now t (cleanupTable now policy t)
| ts_done id' st res e t : id' ≠ mid → tstep mid now t (markDone id' st res e t)
| ts_fail id' st av e t : id' ≠ mid →
    tstep mid now t (sql_update (fun r => bool_decide (id r = id')) (set_failed st av e) t).

(** Runs in which the clock stays below [until]. *)
Definition tstep_before (mid : string) (until : Z) (t t' : table) : Prop :=
  ∃ now, (TimeUnixMilli now < until)%Z ∧ tstep mid now t t'.

(** The lease on [k] is held until [until]. *)
Definition held (k : string * string) (until : Z) (t : table) : Prop :=
  table_wf t ∧ ∃ r, t !! k = Some r ∧ status r = StatusInFlight ∧
    available_at_ms r = until ∧ from_option (fun e => (until ≤ e)%Z) True (expires_at_ms r).

Definition final (s : Status) : bool :=
  bool_decide (s = StatusApplied ∨ s = StatusAcked ∨ s = StatusFailed ∨
               s = StatusExpired ∨ s = StatusSuperseded).

Definition redacts (nowMS : Z) (p : CleanupPolicy) (r : row) : bool :=
  (0 <? PayloadRedactAfter p)%Z &&
  (bool_decide (status r = StatusFailed ∨ status r = StatusExpired ∨ status r = StatusAcked) &&
   (created_at_ms r <? nowMS - Milliseconds (PayloadRedactAfter p))%Z).

Definition cleanup_deletes (nowMS : Z) (p : CleanupPolicy) (r : row) : bool :=
  existsb (fun rule => rule_deletes nowMS rule r) (cleanup_rules p).
Arguments cleanup_deletes : simpl never.

Lemma lookup_delete_rules {B} (f : B → row → bool) (l : list B) (t : table) (k : string * string) :
  foldl (fun t x => sql_delete (f x) t) t l !! k =
  r ← t !! k; if existsb (fun x => f x r) l then None else Some r.
Proof.
  revert t; induction l as [|x l IH]; intros t; simpl.
  { by destruct (t !! k). }
  rewrite IH, lookup_sql_delete. destruct (t !! k) as [r|]; simpl; [|done].
  by destruct (f x r).
Qed.

(** Cleanup deletes a row exactly when one of the rules matches it, and
    redacts the payloads of old failed, expired and acked rows. *)
Lemma lookup_cleanupTable now p (t : table) (k : string * string) :
  cleanupTable now p t !! k =
  r ← t !! k;
  if cleanup_deletes (TimeUnixMilli now) p r then None
  else Some (if redacts (TimeUnixMilli now) p r then redact r else r).
Proof.
  unfold cleanupTable, redacts, cleanup_deletes.
  destruct (0 <? PayloadRedactAfter p)%Z; rewrite ?lookup_sql_update, lookup_delete_rules;
    destruct (t !! k) as [r|]; simpl; try done; by case_match.
Qed.

Lemma cleanup_rules_final p : Forall (fun rule => final rule.1.1 = true) (cleanup_rules p).
Proof. unfold cleanup_rules. repeat constructor. Qed.

Lemma cleanup_live now p (t : table) (k : string * string) r :
  t !! k = Some r → final (status r) = false →
  cleanupTable now p t !! k = Some r.
Proof.
  intros Hk Hf. rewrite lookup_cleanupTable, Hk. simpl.
  assert (cleanup_deletes (TimeUnixMilli now) p r = false) as ->.
  { apply not_true_is_false. unfold cleanup_deletes. rewrite existsb_exists.
    intros ([[st typ] ttl] & Hin & Hdel). unfold rule_deletes in Hdel.
    apply andb_true_iff in Hdel as [[[_ Hst]%andb_true_iff _]%andb_true_iff _].
    apply bool_decide_eq_true in Hst. subst st.
    pose proof (cleanup_rules_final p) as HF. rewrite Forall_forall in HF.
    specialize (HF _ Hin). simpl in HF. congruence. }
  unfold redacts. rewrite (bool_decide_eq_false_2 (_ ∨ _)); [by rewrite andb_false_r|].
  unfold final in Hf. apply bool_decide_eq_false in Hf. tauto.
Qed.

Lemma writeMessage_other now msg b (t : table) (k : string * string) :
  m_ID msg ≠ k.2 → writeMessage now msg b t !! k = t !! k.
Proof.
  intros Hne. unfold writeMessage.
  destruct b; rewrite ?lookup_sql_upsert, ?lookup_sql_insert_if_absent, decide_False; try done;
    unfold row_key; simpl; intros <-; by apply Hne.
Qed.

Lemma insert_if_absent_existing now msg (t : table) (k : string * string) r :
  t !! k = Some r → writeMessage now msg false t !! k = Some r.
Proof.
  intros Hk. unfold writeMessage. rewrite lookup_sql_insert_if_absent.
  case_decide as E; [|done]. by rewrite E, Hk.
Qed.

Lemma update_other_id (f : row → row) (id' : string) (t : table) (k : string * string) :
  table_wf t → id' ≠ k.2 → sql_update (fun r => bool_decide (id r = id')) f t !! k = t !! k.
Proof.
  intros Hwf Hne. rewrite lookup_sql_update. destruct (t !! k) as [r|] eqn:E; simpl; [|done].
  rewrite bool_decide_eq_false_2; [done|]. rewrite <-(Hwf _ _ E) in Hne. simpl in Hne. congruence.
Qed.

Lemma tstep_wf mid now t t' : tstep mid now t t' → table_wf t → table_wf t'.
Proof. destruct 1; intros; auto with queue. Qed.

Lemma held_step k until now t t' :
  (TimeUnixMilli now < until)%Z → tstep k.2 now t t' → held k until t → held k until t'.
Proof.
  intros Hnow Hstep [Hwf (r & Hk & Hst & Hav & Hexp)].
  split; [by eapply tstep_wf|]. exists r. split; [|done].
  assert (Hne : not_expired (TimeUnixMilli now) r = true).
  { unfold not_expired. destruct (expires_at_ms r); simpl in *; [|done]. apply Z.ltb_lt. lia. }
  destruct Hstep.
  - rewrite lookup_leasePending, Hk by done. simpl. rewrite bool_decide_eq_false_2; [done|].
    intros [Hdue _]%elem_of_lease_rows. unfold due in Hdue. rewrite Hst in Hdue.
    by rewrite andb_false_r in Hdue.
  - unfold requeueExpiredLeases. rewrite !lookup_sql_update, Hk. simpl.
    assert (available_at_ms r <=? TimeUnixMilli now = false)%Z as -> by (apply Z.leb_gt; lia).
    rewrite andb_false_r. simpl. rewrite Hne. by rewrite andb_false_r.
  - by apply insert_if_absent_existing.
  - by rewrite writeMessage_other.
  - apply cleanup_live; by rewrite ?Hst.
  - unfold markDone. by rewrite update_other_id.
  - by rewrite update_other_id.
Qed.

Lemma NoDup_sql_select P t : table_wf t → NoDup (sql_select P t).
Proof.
  intros Hwf. apply list.NoDup_filter. apply (NoDup_fmap_1 row_key).
  assert (row_key <$> (map_to_list t).*2 = (map_to_list t).*1) as ->.
  { rewrite <-list_fmap_compose. apply list_fmap_ext. intros i [k r] Hi. simpl.
    apply Hwf. by apply elem_of_map_to_list, list_elem_of_lookup_2 with i. }
  apply NoDup_fst_map_to_list.
Qed.

Definition lease_limit (limit : Z) : nat :=
  Z.to_nat (if (limit <=? 0)%Z then 100%Z else limit).

Lemma leasePending_facts now dir a lim d (t : table) :
  table_wf t →
  let nowMS := TimeUnixMilli now in
  let '(msgs, t') := leasePending now dir a lim d t in
  ∃ rows, msgs = scanMessage dir <$> rows ∧ NoDup rows ∧
    length rows ≤ lease_limit lim ∧ StronglySorted lease_le rows ∧
    (∀ r, r ∈ rows → due a nowMS r = true ∧ t !! row_key r = Some r) ∧
    (∀ k r, t !! k = Some r → due a nowMS r = true → r ∉ rows →
       length rows = lease_limit lim ∧ ∀ r', r' ∈ rows → lease_le r' r) ∧
    (∀ k, t' !! k =
       (fun r => if bool_decide (r ∈ rows)
                 then set_lease StatusInFlight (TimeUnixMilli (Add now d)) r else r) <$> t !! k).
Proof.
  intros Hwf nowMS. pose proof (lookup_leasePending now dir a lim d t) as Hlook.
  unfold leasePending in *. simpl in *.
  exists (lease_rows nowMS a lim t). split; [done|].
  split; [by apply sql_order_limit_NoDup, NoDup_sql_select|].
  split; [apply sql_order_limit_length|].
  split; [apply sql_order_limit_sorted; apply _|]. split; [|split; [|by auto]].
  - intros r Hr. apply elem_of_lease_rows in Hr as [Hdue [k Hk]]. split; [done|].
    by rewrite (Hwf _ _ Hk).
  - intros k r Hk Hdue Hnin.
    assert (Hsel : r ∈ sql_select (due a nowMS) t) by (apply elem_of_sql_select; eauto).
    split; [|intros r' Hr'; exact (sql_order_limit_prefix lease_le _ _ r' r Hr' Hsel Hnin)].
    unfold lease_rows, sql_order_limit. fold (lease_limit lim). rewrite length_take.
    destruct (decide (lease_limit lim ≤ length (sql_select (due a nowMS) t))) as [Hle|Hgt].
    + rewrite merge_sort_Permutation. lia.
    + destruct Hnin. apply sql_order_limit_all; [fold (lease_limit lim); lia|done].
Qed.

(** C14. [leasePending] returns the pending, available, unexpired rows of the
    actor ordered by [(available_at_ms, id)], at most [limit] of them (100 when
    the limit is not positive): a due row is left out only when the batch is
    full, and then it comes after everything returned.  Exactly the returned
    rows become in-flight with [available_at_ms] set to the end of the lease;
    every other row of the table is unchanged. *)
Theorem leasePending_spec now dir a lim d (t : table) :
  table_wf t →
  let nowMS := TimeUnixMilli now in
  let '(msgs, t') := leasePending now dir a lim d t in
  ∃ rows, msgs = scanMessage dir <$> rows ∧ NoDup rows ∧
    length rows ≤ lease_limit lim ∧ StronglySorted lease_le rows ∧
    (∀ r, r ∈ rows → due a nowMS r = true ∧ t !! row_key r = Some r) ∧
    (∀ k r, t !! k = Some r → due a nowMS r = true → r ∉ rows →
       length rows = lease_limit lim ∧ ∀ r', r' ∈ rows → lease_le r' r) ∧
    (∀ k, t' !! k =
       (fun r => if bool_decide (r ∈ rows)
                 then set_lease StatusInFlight (TimeUnixMilli (Add now d)) r else r) <$> t !! k).
Proof. apply leasePending_facts. Qed.

(** C15. In a table whose rows are stored under their keys, a leased message that
    does not expire before its lease ends is not handed out a second time while
    the lease runs: whatever leases, requeues, inserts, cleanups and completions
    of other messages happen before the lease ends, no lease taken then, by any
    actor, returns it again. *)
Theorem lease_exclusive now dir a lim d (t t1 : table) m r :
  table_wf t → m ∈ (leasePending now dir a lim d t).1 →
  t !! (m_ActorID m, m_ID m) = Some r →
  from_option (fun e => (TimeUnixMilli (Add now d) ≤ e)%Z) True (expires_at_ms r) →
  rtc (tstep_before (m_ID m) (TimeUnixMilli (Add now d))) (leasePending now dir a lim d t).2 t1 →
  ∀ now1 dir1 a1 lim1 d1 m',
    m' ∈ (leasePending now1 dir1 a1 lim1 d1 t1).1 →
    (m_ActorID m', m_ID m') ≠ (m_ActorID m, m_ID m).
Proof.
  intros Hwf Hm Hk Hexp Hrun.
  assert (Hheld : held (m_ActorID m, m_ID m) (TimeUnixMilli (Add now d)) t1).
  { refine (rtc_ind_l (λ t0, held _ _ t0 → held _ _ t1) t1 _ _ _ Hrun _); [done|..].
    - intros t2 t3 (now2 & Hlt & Hstep) _ IH Ht2. apply IH. by eapply held_step.
    - split; [by apply leasePending_wf|]. rewrite lookup_leasePending, Hk by done. simpl.
      rewrite bool_decide_eq_true_2; [by eexists|].
      unfold leasePending in Hm. simpl in Hm. apply list_elem_of_fmap in Hm as (r' & -> & Hr').
      pose proof Hr' as [_ [k' Hk']]%elem_of_lease_rows. simpl in Hk.
      pose proof (Hwf _ _ Hk') as Hkey. unfold row_key in Hkey. rewrite Hkey in Hk.
      by simplify_eq. }
  intros now1 dir1 a1 lim1 d1 m' Hm' Heq. destruct Hheld as [Hwf1 (r1 & Hr1 & Hst & _)].
  unfold leasePending in Hm'. simpl in Hm'. apply list_elem_of_fmap in Hm' as (r' & -> & Hr').
  pose proof Hr' as [Hdue [k' Hk']]%elem_of_lease_rows. simpl in Heq.
  pose proof (Hwf1 _ _ Hk') as Hkey. unfold row_key in Hkey. rewrite Heq in Hkey. simplify_eq.
  unfold due in Hdue. rewrite Hst, andb_false_r in Hdue. done.
Qed.

(** An expired lease is given back: after [requeueExpiredLeases] a message
    whose lease has run out and which is not itself expired is returned by the
    next [leasePending] of its actor, with the payload it was enqueued with,
    provided the limit leaves room for every due row. *)
Theorem lease_redelivery now dir lim d (t : table) k r :
  table_wf t → t !! k = Some r → status r = StatusInFlight →
  (available_at_ms r ≤ TimeUnixMilli now)%Z → not_expired (TimeUnixMilli now) r = true →
  let t' := requeueExpiredLeases now (actor_id r) t in
  length (sql_select (due (actor_id r) (TimeUnixMilli now)) t') ≤ lease_limit lim →
  ∃ m, m ∈ (leasePending now dir (actor_id r) lim d t').1 ∧ m_ID m = id r ∧
       m_Payload m = j_Payload (mustDecodeMessageJSON (input_json r)).
Proof.
  intros Hwf Hk Hst Hav Hexp t' Hroom. exists (scanMessage dir (set_status StatusPending r)).
  split; [|done]. unfold leasePending. simpl. apply list_elem_of_fmap_2.
  apply sql_order_limit_all; [exact Hroom|]. apply elem_of_sql_select.
  assert (Hdue : due (actor_id r) (TimeUnixMilli now) (set_status StatusPending r) = true).
  { unfold due, not_expired in *. cbn. rewrite !bool_decide_eq_true_2 by done.
    cbn. rewrite (proj2 (Z.leb_le _ _) Hav). exact Hexp. }
  split; [done|]. exists k. unfold t', requeueExpiredLeases.
  rewrite !lookup_sql_update, Hk. simpl.
  rewrite (bool_decide_eq_true_2 (actor_id r = _)), (bool_decide_eq_true_2 _ Hst) by done.
  rewrite (proj2 (Z.leb_le _ _) Hav), Hexp. simpl.
  change (not_expired (TimeUnixMilli now) (set_status StatusPending r))
    with (not_expired (TimeUnixMilli now) r).
  by rewrite Hexp, andb_false_r.
Qed.

Lemma IsProcessed_recorded now a mid typ st res e s :
  is_processed_status st = true →
  IsProcessed a mid (RecordProcessed now a mid typ st res e s) =
    Some (mkProcessed (from_option actor_id a (inbox s !! (a, mid)))
                      (from_option id mid (inbox s !! (a, mid)))
                      (from_option type_ typ (inbox s !! (a, mid))) st res e).
Proof.
  intros Hst. unfold IsProcessed, RecordProcessed. cbn [inbox row_key actor_id id].
  rewrite lookup_sql_upsert, decide_True by done. unfold row_key. cbn [actor_id id].
  destruct (inbox s !! (a, mid)) as [r|];
    cbn -[encodeMessageJSON mustDecodeMessageJSON is_processed_status];
    rewrite Hst; unfold scanProcessed; cbn -[encodeMessageJSON mustDecodeMessageJSON];
    by rewrite mustDecode_encode.
Qed.

Lemma IsProcessed_other now a mid typ st res e s a' mid' :
  (a', mid') ≠ (a, mid) →
  IsProcessed a' mid' (RecordProcessed now a mid typ st res e s) = IsProcessed a' mid' s.
Proof.
  intros Hne. unfold IsProcessed, RecordProcessed. cbn [inbox row_key actor_id id].
  rewrite lookup_sql_upsert. by rewrite decide_False.
Qed.

(** A result recorded in the inbox is found again: after [RecordProcessed]
    with one of the three outcome statuses, [IsProcessed] on the same actor and
    message returns that status, result and error (an existing row keeps its
    message type), and every other message is answered as before. *)
Theorem IsProcessed_RecordProcessed now a mid typ st res e s :
  is_processed_status st = true →
  IsProcessed a mid (RecordProcessed now a mid typ st res e s) =
    Some (mkProcessed (from_option actor_id a (inbox s !! (a, mid)))
                      (from_option id mid (inbox s !! (a, mid)))
                      (from_option type_ typ (inbox s !! (a, mid))) st res e) ∧
  ∀ a' mid', (a', mid') ≠ (a, mid) →
    IsProcessed a' mid' (RecordProcessed now a mid typ st res e s) = IsProcessed a' mid' s.
Proof. intros Hst. split; [by apply IsProcessed_recorded|]. intros. by apply IsProcessed_other. Qed.

(** [Cleanup] never touches live work: a pending or in-flight message of
    either table is still there, unchanged, after a cleanup with any policy. *)
Theorem Cleanup_keeps_live now_out now_in p s k r :
  final (status r) = false →
  (outbox s !! k = Some r → outbox (Cleanup now_out now_in p s) !! k = Some r) ∧
  (inbox s !! k = Some r → inbox (Cleanup now_out now_in p s) !! k = Some r).
Proof. intros Hf. split; intros; by apply cleanup_live. Qed.

(** Under the default policy the catch-all rules cut the longer retention
    of some types short: a failed traffic batch, for which [TrafficFailedTTL]
    asks for seven days, is deleted once it is more than 24 hours old, and an
    expired message of any type once it is more than an hour old. *)
Theorem default_policy_shadows now (t : table) k r :
  t !! k = Some r →
  (status r = StatusFailed ∧
   (created_at_ms r < TimeUnixMilli now - Milliseconds (DefaultFailedTTL DefaultCleanupPolicy))%Z ∨
   status r = StatusExpired ∧
   (created_at_ms r < TimeUnixMilli now - Milliseconds (DefaultExpiredTTL DefaultCleanupPolicy))%Z) →
  cleanupTable now DefaultCleanupPolicy t !! k = None ∧
  (DefaultFailedTTL DefaultCleanupPolicy < TrafficFailedTTL DefaultCleanupPolicy)%Z ∧
  (DefaultExpiredTTL DefaultCleanupPolicy < TrafficFailedTTL DefaultCleanupPolicy)%Z.
Proof.
  intros Hk Hold. split; [|done]. rewrite lookup_cleanupTable, Hk. cbn [mbind option_bind].
  assert (cleanup_deletes (TimeUnixMilli now) DefaultCleanupPolicy r = true) as ->; [|done].
  unfold cleanup_deletes. apply existsb_exists.
  destruct Hold as [[Hst Hc]|[Hst Hc]]; [exists (StatusFailed, "", DefaultFailedTTL DefaultCleanupPolicy)
    |exists (StatusExpired, "", DefaultExpiredTTL DefaultCleanupPolicy)].
  all: split; [unfold cleanup_rules; simpl; tauto|].
  all: unfold rule_deletes; rewrite Hst, !bool_decide_eq_true_2 by done; by apply Z.ltb_lt in Hc as ->.
Qed.

(** How long the default policy keeps the record of a processed message of this
    type, at least. *)
Definition retention (typ : string) : duration := if bool_decide (typ = "auth_refresh") then (15 * Minute)%Z else Hour.

(** The types of message of which an agent records the outcome. *)
Definition command_type (typ : string) : Prop := typ = "auth_refresh" ∨ typ = "edit_server_config" ∨ typ = "runtime_command".

Definition rule_spares (typ : string) (rule : Status * string * duration) : bool :=
  let '(st, t, ttl) := rule in
  negb (bool_decide (st = StatusApplied ∨ st = StatusFailed)) || negb (bool_decide (t = "" ∨ t = typ)) ||
  (Milliseconds (retention typ) <=? Milliseconds ttl)%Z.

Lemma rules_spare typ : command_type typ → forallb (rule_spares typ) (cleanup_rules DefaultCleanupPolicy) = true.
Proof. intros [->|[->| ->]]; vm_compute; reflexivity. Qed.

Lemma cleanup_keeps_recent now (t : table) k r :
  t !! k = Some r → command_type (type_ r) → status r = StatusApplied ∨ status r = StatusFailed →
  (TimeUnixMilli now ≤ created_at_ms r + Milliseconds (retention (type_ r)))%Z →
  cleanupTable now DefaultCleanupPolicy t !! k = Some r.
Proof.
  intros Hk Ht Hs Hc. rewrite lookup_cleanupTable, Hk. cbn [mbind option_bind].
  assert (Hret : (Milliseconds (retention (type_ r)) ≤ 3600000)%Z) by (unfold retention; case_bool_decide; vm_compute; congruence).
  assert (cleanup_deletes (TimeUnixMilli now) DefaultCleanupPolicy r = false) as ->.
  { unfold cleanup_deletes. apply not_true_is_false. rewrite existsb_exists. intros ([[st typ] ttl] & Hin & Hd).
    unfold rule_deletes in Hd. rewrite !andb_true_iff, orb_true_iff, !bool_decide_eq_true in Hd.
    destruct Hd as [[[_ Hst] Hty] Hlt%Z.ltb_lt].
    pose proof (proj1 (forallb_forall _ _) (rules_spare _ Ht) _ Hin) as Hsp. unfold rule_spares in Hsp.
    rewrite (bool_decide_eq_true_2 (st = _ ∨ _)), (bool_decide_eq_true_2 (typ = _ ∨ _)) in Hsp by (subst st; naive_solver).
    cbn in Hsp. apply Z.leb_le in Hsp. lia. }
  assert (redacts (TimeUnixMilli now) DefaultCleanupPolicy r = false) as ->; [|done].
  unfold redacts. rewrite !andb_false_iff. right. right. apply Z.ltb_ge.
  change (Milliseconds (PayloadRedactAfter DefaultCleanupPolicy)) with 86400000%Z. lia.
Qed.

(** A record of success is gone once it is older than that. *)
Lemma cleanup_forgets now (t : table) k r :
  t !! k = Some r → status r = StatusApplied →
  (created_at_ms r + Milliseconds (retention (type_ r)) < TimeUnixMilli now)%Z →
  cleanupTable now DefaultCleanupPolicy t !! k = None.
Proof.
  intros Hk Hs Hc. rewrite lookup_cleanupTable, Hk. cbn [mbind option_bind].
  assert (cleanup_deletes (TimeUnixMilli now) DefaultCleanupPolicy r = true) as ->; [|done].
  unfold cleanup_deletes. apply existsb_exists. unfold retention in Hc. case_bool_decide as Ht.
  - exists (StatusApplied, "auth_refresh", 15 * Minute)%Z. split; [unfold cleanup_rules; simpl; tauto|].
    unfold rule_deletes. rewrite Hs, Ht, !bool_decide_eq_true_2 by done. apply andb_true_iff. split; [done|]. apply Z.ltb_lt. lia.
  - exists (StatusApplied, "", Hour). split; [unfold cleanup_rules; simpl; tauto|].
    unfold rule_deletes. rewrite Hs, !bool_decide_eq_true_2 by done. apply andb_true_iff. split; [done|]. apply Z.ltb_lt. lia.
Qed.

(** ** A concrete queue *)
Definition demo_row (st : Status) : row :=
  mkRow "agent-a" "m1" "traffic_batch" st 1000 None 1000
        (encodeMessageJSON (mkJSON "hello" "")) ∅ "".
Definition demo_table (st : Status) : table := {[ ("agent-a", "m1") := demo_row st ]}.
Definition demo_now : time := TimeFromUnixMilli 5000.

Lemma demo_wf st : table_wf (demo_table st).
Proof. unfold demo_table. intros k r Hk. apply lookup_singleton_Some in Hk as [<- <-]. done. Qed.

Lemma leasePending_spec_witness :
  table_wf (demo_table StatusPending) ∧
  ∃ rows, (leasePending demo_now DirectionOutbound "agent-a" 10 Minute (demo_table StatusPending)).1
          = scanMessage DirectionOutbound <$> rows.
Proof.
  split; [apply demo_wf|].
  pose proof (leasePending_spec demo_now DirectionOutbound "agent-a" 10 Minute
                (demo_table StatusPending) (demo_wf _)) as H.
  destruct (leasePending demo_now DirectionOutbound "agent-a" 10 Minute
              (demo_table StatusPending)) as [msgs t'].
  destruct H as [rows [Hmsgs _]]. by exists rows.
Defined.

Lemma lease_exclusive_witness :
  Forall (fun m => (m_ActorID m, m_ID m) ≠ ("agent-a", "m1"))
    (leasePending demo_now DirectionOutbound "agent-a" 10 Minute
       (leasePending demo_now DirectionOutbound "agent-a" 10 Minute
          (demo_table StatusPending)).2).1.
Proof.
  apply list.Forall_forall. intros m.
  apply (lease_exclusive demo_now DirectionOutbound "agent-a" 10 Minute
           (demo_table StatusPending)
           (leasePending demo_now DirectionOutbound "agent-a" 10 Minute
              (demo_table StatusPending)).2
           (scanMessage DirectionOutbound (demo_row StatusPending)) (demo_row StatusPending)).
  - apply demo_wf.
  - apply (bool_decide_unpack _). vm_compute. exact I.
  - reflexivity.
  - exact I.
  - apply rtc_refl.
Defined.

Lemma lease_redelivery_witness :
  ∃ m, m ∈ (leasePending demo_now DirectionOutbound "agent-a" 10 Minute
              (requeueExpiredLeases demo_now "agent-a" (demo_table StatusInFlight))).1 ∧
       m_ID m = "m1" ∧ m_Payload m = "hello".
Proof.
  apply (lease_redelivery demo_now DirectionOutbound 10 Minute (demo_table StatusInFlight)
           ("agent-a", "m1") (demo_row StatusInFlight)).
  - apply demo_wf.
  - reflexivity.
  - reflexivity.
  - vm_compute. discriminate.
  - reflexivity.
  - vm_compute. lia.
Defined.

Lemma IsProcessed_RecordProcessed_witness :
  IsProcessed "agent-a" "m1"
    (RecordProcessed demo_now "agent-a" "m1" "auth_refresh" StatusApplied "ok" "" (mkStore ∅ ∅)) =
  Some (mkProcessed "agent-a" "m1" "auth_refresh" StatusApplied "ok" "").
Proof.
  exact (proj1 (IsProcessed_RecordProcessed demo_now "agent-a" "m1" "auth_refresh" StatusApplied
                  "ok" "" (mkStore ∅ ∅) eq_refl)).
Defined.

Lemma Cleanup_keeps_live_witness :
  outbox (Cleanup demo_now demo_now DefaultCleanupPolicy
            (mkStore (demo_table StatusPending) ∅)) !! ("agent-a", "m1") =
  Some (demo_row StatusPending).
Proof.
  exact (proj1 (Cleanup_keeps_live demo_now demo_now DefaultCleanupPolicy
                  (mkStore (demo_table StatusPending) ∅) ("agent-a", "m1")
                  (demo_row StatusPending) eq_refl) eq_refl).
Defined.

Lemma default_policy_shadows_witness :
  cleanupTable (TimeFromUnixMilli 90000000) DefaultCleanupPolicy (demo_table StatusFailed)
    !! ("agent-a", "m1") = None.
Proof.
  apply (default_policy_shadows (TimeFromUnixMilli 90000000) (demo_table StatusFailed)
           ("agent-a", "m1") (demo_row StatusFailed)); [reflexivity|].
  left. split; [reflexivity|]. vm_compute. reflexivity.
Defined.
