(* ===== verification/QueueSecure.v ===== *)
(** * QueueSecure: the queue interface and its encrypting wrapper

    [src/internal/queue/secure.go] and the [Store] interface of
    [src/internal/queue/transport.go].  [Store] is a class of queue operations
    with instances for the SQL store, for [NopStore] and for [SecureStore],
    which seals payloads and results on the way in and opens them on the way
    out.  AES-GCM and SHA-256 are used through the two classes [AEAD] and
    [Sum256], which state what [crypto/cipher] and [crypto/sha256] document.
    The random bytes of the nonces come from a tape.

    Proved here: an encrypted store answers every sequence of operations as
    the plain store does; nothing but sealed text is at rest; and wrapping a
    store never fails on a key. *)

From S2P Require Import Prelude GoLib Sql Queue.

(** ** The [Store] interface *)
Class Store (S : Type) := {
  st_Enqueue : time → Message → S → S;
  st_EnqueueIfAbsent : time → Message → S → S;
  st_EnqueueInbox : time → Message → S → S;
  st_LeasePending : time → string → Z → duration → S → list Message * S;
  st_LeaseInboxPending : time → string → Z → duration → S → list Message * S;
  st_MarkApplied : string → string → S → S;
  st_MarkAcked : string → string → S → S;
  st_MarkFailed : time → string → string → time → S → S;
  st_MarkExpired : string → string → S → S;
  st_IsProcessed : string → string → S → option ProcessedMessage;
  st_RecordProcessed : time → string → string → string → Status → string → string → S → S;
  st_RequeueExpiredLeases : time → string → S → S;
  st_Cleanup : time → time → CleanupPolicy → S → S;
}.

#[export] Instance SQLStore_Store : Store SQLStore := {|
  st_Enqueue := Enqueue;
  st_EnqueueIfAbsent := EnqueueIfAbsent;
  st_EnqueueInbox := EnqueueInbox;
  st_LeasePending := LeasePending;
  st_LeaseInboxPending := LeaseInboxPending;
  st_MarkApplied := MarkApplied;
  st_MarkAcked := MarkAcked;
  st_MarkFailed := MarkFailed;
  st_MarkExpired := MarkExpired;
  st_IsProcessed := IsProcessed;
  st_RecordProcessed := RecordProcessed;
  st_RequeueExpiredLeases := RequeueExpiredLeases;
  st_Cleanup := Cleanup;
|}.

(** [NopStore] keeps nothing. *)
Inductive NopStore := mkNopStore.
#[export] Instance NopStore_Store : Store NopStore := {|
  st_Enqueue _ _ s := s;
  st_EnqueueIfAbsent _ _ s := s;
  st_EnqueueInbox _ _ s := s;
  st_LeasePending _ _ _ _ s := ([], s);
  st_LeaseInboxPending _ _ _ _ s := ([], s);
  st_MarkApplied _ _ s := s;
  st_MarkAcked _ _ s := s;
  st_MarkFailed _ _ _ _ s := s;
  st_MarkExpired _ _ s := s;
  st_IsProcessed _ _ _ := None;
  st_RecordProcessed _ _ _ _ _ _ _ s := s;
  st_RequeueExpiredLeases _ _ s := s;
  st_Cleanup _ _ _ s := s;
|}.

(** ** Cryptography of the Go library

    [gcm_Open key nonce (gcm_Seal key nonce plain)] gives the plain text back
    for a nonce of [NonceSize] bytes; a digest has 32 bytes. *)
Definition NonceSize : nat := 12.

Class AEAD := {
  gcm_Seal : string → string → string → string;
  gcm_Open : string → string → string → option string;
  gcm_Open_Seal key nonce plain :
    String.length nonce = NonceSize → gcm_Open key nonce (gcm_Seal key nonce plain) = Some plain;
}.

Class Sum256 := {
  sha256 : string → string;
  sha256_length s : String.length (sha256 s) = 32;
}.

(** [aes.NewCipher] accepts keys of 16, 24 and 32 bytes. *)
Definition NewCipher (key : string) : result string :=
  if bool_decide (String.length key ∈ [16; 24; 32]) then Ok key
  else Err "crypto/aes: invalid key size".

(** ** Sealing *)
Definition encryptedPrefix : string := "enc:v1:".

Section Box.
Context `{!AEAD}.

(** A [SecretBox] is the key of its cipher; [None] is the nil box. *)
Definition Seal (b : option string) (nonce raw : string) : string :=
  match b with
  | None => raw
  | Some key =>
      if bool_decide (raw = "") || HasPrefix raw encryptedPrefix then raw
      else encryptedPrefix +:+ Base64.EncodeRaw (nonce +:+ gcm_Seal key nonce raw)
  end.

Definition open (key raw : string) : string :=
  if negb (HasPrefix raw encryptedPrefix) then raw
  else
    let '(payload, ok) := Base64.DecodeRaw (TrimPrefix raw encryptedPrefix) in
    if negb ok || (String.length payload <? NonceSize) then ""
    else default "" (gcm_Open key (str_take NonceSize payload) (str_drop NonceSize payload)).

Lemma open_Seal key nonce raw :
  String.length nonce = NonceSize → HasPrefix raw encryptedPrefix = false →
  open key (Seal (Some key) nonce raw) = raw.
Proof.
  intros Hn Hp. unfold Seal, open. destruct (decide (raw = "")) as [->|Hne]; [done|].
  rewrite (bool_decide_eq_false_2 _ Hne), Hp. cbn [orb].
  rewrite HasPrefix_append, TrimPrefix_append, Base64.DecodeRaw_EncodeRaw. cbn [negb orb].
  rewrite str_length_append, Hn, (proj2 (Nat.ltb_ge _ _)) by lia.
  by rewrite <-Hn, str_take_append, str_drop_append, gcm_Open_Seal.
Qed.

(** Text without the prefix was never sealed and is passed through. *)
Lemma open_plain key raw : HasPrefix raw encryptedPrefix = false → open key raw = raw.
Proof. unfold open. by intros ->. Qed.
End Box.

(** ** Keys *)
Section Key.
Context `{!Sum256}.

Definition secretKeyBytes (value : string) : string :=
  let '(raw, raw_ok) := Base64.DecodeRaw value in
  if raw_ok && (String.length raw =? 32) then raw
  else
    let '(std, std_ok) := Base64.DecodeStd value in
    if std_ok && (String.length std =? 32) then std
    else match Hex.DecodeString value with
         | Some decoded => if String.length decoded =? 32 then decoded else sha256 value
         | None => sha256 value
         end.

Lemma secretKeyBytes_length value : String.length (secretKeyBytes value) = 32.
Proof.
  unfold secretKeyBytes. destruct (Base64.DecodeRaw value) as [raw raw_ok].
  destruct (raw_ok && (String.length raw =? 32)) eqn:E1.
  { by apply andb_true_iff in E1 as [_ ?%Nat.eqb_eq]. }
  destruct (Base64.DecodeStd value) as [std std_ok].
  destruct (std_ok && (String.length std =? 32)) eqn:E2.
  { by apply andb_true_iff in E2 as [_ ?%Nat.eqb_eq]. }
  destruct (Hex.DecodeString value) as [h|]; [|apply sha256_length].
  destruct (String.length h =? 32) eqn:E3; [by apply Nat.eqb_eq|apply sha256_length].
Qed.

Definition NewSecretBox (key : string) : result (option string) :=
  let key := TrimSpace key in
  if bool_decide (key = "") then Ok None
  else aead ← NewCipher (secretKeyBytes key); Ok (Some aead).

(** A secret box can be built from every key: a key of white space gives
    the nil box, which leaves text alone, and every other key a cipher with a
    32-byte key, so the error paths of [NewSecretBox] are never taken. *)
Theorem NewSecretBox_total key :
  (TrimSpace key = "" ∧ NewSecretBox key = Ok None) ∨
  (TrimSpace key ≠ "" ∧
   ∃ raw, String.length raw = 32 ∧ NewSecretBox key = Ok (Some raw)).
Proof.
  unfold NewSecretBox. destruct (decide (TrimSpace key = "")) as [E|E]; [left|right]; (split; [done|]).
  - by rewrite (bool_decide_eq_true_2 _ E).
  - rewrite (bool_decide_eq_false_2 _ E). exists (secretKeyBytes (TrimSpace key)).
    split; [apply secretKeyBytes_length|].
    unfold NewCipher. rewrite secretKeyBytes_length. done.
Qed.
End Key.

(** ** The wrapper

    [aead] is the key of the cipher; [tape i] is the [i]-th nonce read from
    [crypto/rand] and [drawn] counts the nonces read so far. *)
Record SecureStore (S : Type) := mkSecure { inner : S; drawn : nat }.
Arguments mkSecure {_} _ _.
Arguments inner {_} _.
Arguments drawn {_} _.

Section Secure.
Context `{!AEAD} (aead : string) (tape : nat → string).

Definition seal (raw : string) (n : nat) : string * nat :=
  if bool_decide (raw = "") || HasPrefix raw encryptedPrefix
  then (raw, n)
  else (Seal (Some aead) (tape n) raw, S n).

Definition set_payloads (payload result : string) (msg : Message) : Message :=
  mkMessage (m_ID msg) (m_ActorID msg) (m_Direction msg) (m_Type msg) payload (m_Status msg)
            (m_AvailableAt msg) (m_ExpiresAt msg) (m_CreatedAt msg) (m_UpdatedAt msg)
            result (m_Error msg).

Definition protect (msg : Message) (n : nat) : Message * nat :=
  let '(payload, n) := seal (m_Payload msg) n in
  let '(result, n) := seal (m_ResultPayload msg) n in
  (set_payloads payload result msg, n).

Definition reveal (msg : Message) : Message :=
  set_payloads (open aead (m_Payload msg)) (open aead (m_ResultPayload msg)) msg.

Definition reveal_processed (p : ProcessedMessage) : ProcessedMessage :=
  mkProcessed (p_ActorID p) (p_MessageID p) (p_Type p) (p_Status p)
              (open aead (p_Result p)) (p_Error p).

Definition SecureStore_Store {T : Type} `{!Store T} : Store (SecureStore T) := {|
  st_Enqueue now msg s :=
    let '(msg, n) := protect msg (drawn s) in mkSecure (st_Enqueue now msg (inner s)) n;
  st_EnqueueIfAbsent now msg s :=
    let '(msg, n) := protect msg (drawn s) in mkSecure (st_EnqueueIfAbsent now msg (inner s)) n;
  st_EnqueueInbox now msg s :=
    let '(msg, n) := protect msg (drawn s) in mkSecure (st_EnqueueInbox now msg (inner s)) n;
  st_LeasePending now actorID limit leaseFor s :=
    let '(msgs, s') := st_LeasePending now actorID limit leaseFor (inner s) in
    (reveal <$> msgs, mkSecure s' (drawn s));
  st_LeaseInboxPending now actorID limit leaseFor s :=
    let '(msgs, s') := st_LeaseInboxPending now actorID limit leaseFor (inner s) in
    (reveal <$> msgs, mkSecure s' (drawn s));
  st_MarkApplied id result s :=
    let '(result, n) := seal result (drawn s) in mkSecure (st_MarkApplied id result (inner s)) n;
  st_MarkAcked id result s :=
    let '(result, n) := seal result (drawn s) in mkSecure (st_MarkAcked id result (inner s)) n;
  st_MarkFailed now id errMsg retryAt s :=
    mkSecure (st_MarkFailed now id errMsg retryAt (inner s)) (drawn s);
  st_MarkExpired id errMsg s := mkSecure (st_MarkExpired id errMsg (inner s)) (drawn s);
  st_IsProcessed actorID messageID s :=
    reveal_processed <$> st_IsProcessed actorID messageID (inner s);
  st_RecordProcessed now actorID messageID typ st result errMsg s :=
    let '(result, n) := seal result (drawn s) in
    mkSecure (st_RecordProcessed now actorID messageID typ st result errMsg (inner s)) n;
  st_RequeueExpiredLeases now actorID s :=
    mkSecure (st_RequeueExpiredLeases now actorID (inner s)) (drawn s);
  st_Cleanup now_out now_in policy s :=
    mkSecure (st_Cleanup now_out now_in policy (inner s)) (drawn s);
|}.
End Secure.

(** [WrapSecrets] leaves the store as it is when there is no key. *)
Inductive Wrapped (T : Type) :=
| Plain (s : T)
| Secured (aead : string) (s : SecureStore T).
Arguments Plain {_} _.
Arguments Secured {_} _ _.

Definition WrapSecrets `{!Sum256} {T : Type} (s : T) (key : string) : result (Wrapped T) :=
  box ← NewSecretBox key;
  match box with
  | None => Ok (Plain s)
  | Some aead => Ok (Secured aead (mkSecure s 0))
  end.

(** ** Sequences of operations and what a caller sees of them *)
Inductive op :=
| OEnqueue (now : time) (msg : Message)
| OEnqueueIfAbsent (now : time) (msg : Message)
| OEnqueueInbox (now : time) (msg : Message)
| OLeasePending (now : time) (actorID : string) (limit : Z) (leaseFor : duration)
| OLeaseInboxPending (now : time) (actorID : string) (limit : Z) (leaseFor : duration)
| OMarkApplied (id result : string)
| OMarkAcked (id result : string)
| OMarkFailed (now : time) (id errMsg : string) (retryAt : time)
| OMarkExpired (id errMsg : string)
| OIsProcessed (actorID messageID : string)
| ORecordProcessed (now : time) (actorID messageID typ : string) (st : Status)
    (result errMsg : string)
| ORequeue (now : time) (actorID : string)
| OCleanup (now_out now_in : time) (policy : CleanupPolicy).

Inductive obs :=
| Done
| Leased (msgs : list Message)
| Processed (p : option ProcessedMessage).

Definition perform {T : Type} {ops : Store T} (o : op) (s : T) : obs * T :=
  match o with
  | OEnqueue now msg => (Done, st_Enqueue now msg s)
  | OEnqueueIfAbsent now msg => (Done, st_EnqueueIfAbsent now msg s)
  | OEnqueueInbox now msg => (Done, st_EnqueueInbox now msg s)
  | OLeasePending now a lim d => let '(l, s) := st_LeasePending now a lim d s in (Leased l, s)
  | OLeaseInboxPending now a lim d =>
      let '(l, s) := st_LeaseInboxPending now a lim d s in (Leased l, s)
  | OMarkApplied id res => (Done, st_MarkApplied id res s)
  | OMarkAcked id res => (Done, st_MarkAcked id res s)
  | OMarkFailed now id e retryAt => (Done, st_MarkFailed now id e retryAt s)
  | OMarkExpired id e => (Done, st_MarkExpired id e s)
  | OIsProcessed a mid => (Processed (st_IsProcessed a mid s), s)
  | ORecordProcessed now a mid typ st res e => (Done, st_RecordProcessed now a mid typ st res e s)
  | ORequeue now a => (Done, st_RequeueExpiredLeases now a s)
  | OCleanup now_out now_in p => (Done, st_Cleanup now_out now_in p s)
  end.

Fixpoint perform_all {T : Type} {ops : Store T} (os : list op) (s : T) : list obs * T :=
  match os with
  | [] => ([], s)
  | o :: os =>
      let '(x, s) := perform o s in
      let '(xs, s) := perform_all os s in (x :: xs, s)
  end.

(** Payloads that do not look sealed already. *)
Definition unsealed (raw : string) : bool := negb (HasPrefix raw encryptedPrefix).
Definition unsealed_msg (msg : Message) : bool :=
  unsealed (m_Payload msg) && unsealed (m_ResultPayload msg).
Definition unsealed_op (o : op) : bool :=
  match o with
  | OEnqueue _ msg | OEnqueueIfAbsent _ msg | OEnqueueInbox _ msg => unsealed_msg msg
  | OMarkApplied _ res | OMarkAcked _ res | ORecordProcessed _ _ _ _ _ res _ => unsealed res
  | _ => true
  end.

(** ** What the encrypted rows show when opened *)
Section Reveal.
Context `{!AEAD} (aead : string) (tape : nat → string).
Context (tape_length : ∀ i, String.length (tape i) = NonceSize).
#[local] Existing Instance SecureStore_Store.

Definition reveal_row (r : row) : row :=
  mkRow (actor_id r) (id r) (type_ r) (status r) (available_at_ms r) (expires_at_ms r)
        (created_at_ms r)
        (encodeMessageJSON (mkJSON (open aead (j_Payload (mustDecodeMessageJSON (input_json r)))) ""))
        (encodeMessageJSON (mkJSON "" (open aead (j_Result (mustDecodeMessageJSON (output_json r))))))
        (err r).

Definition reveal_store (s : SQLStore) : SQLStore :=
  mkStore (reveal_row <$> outbox s) (reveal_row <$> inbox s).

Lemma open_seal raw n : unsealed raw = true → open aead (seal aead tape raw n).1 = raw.
Proof.
  unfold unsealed, seal. intros Hu%negb_true_iff. rewrite Hu, orb_false_r.
  case_bool_decide; simpl; [by apply open_plain|]. by apply open_Seal.
Qed.

Lemma reveal_redact r : reveal_row (redact r) = redact (reveal_row r).
Proof. done. Qed.

Lemma reveal_set_output st raw e n r :
  unsealed raw = true →
  reveal_row (set_output st (encodeMessageJSON (mkJSON "" (seal aead tape raw n).1)) e r) =
  set_output st (encodeMessageJSON (mkJSON "" raw)) e (reveal_row r).
Proof.
  intros Hu. unfold reveal_row. cbn -[encodeMessageJSON mustDecodeMessageJSON seal].
  rewrite mustDecode_encode. cbn [j_Result]. by rewrite open_seal.
Qed.

Lemma reveal_scan dir r : reveal aead (scanMessage dir r) = scanMessage dir (reveal_row r).
Proof.
  unfold reveal, scanMessage. cbn -[encodeMessageJSON mustDecodeMessageJSON].
  unfold set_payloads. cbn -[encodeMessageJSON mustDecodeMessageJSON].
  by rewrite !mustDecode_encode.
Qed.

Lemma reveal_message_row now msg n :
  unsealed_msg msg = true →
  reveal_row (message_row (message_defaults now (protect aead tape msg n).1)) =
  message_row (message_defaults now msg).
Proof.
  intros [Hp Hr]%andb_true_iff. unfold protect.
  pose proof (open_seal (m_Payload msg) n Hp) as Ep.
  destruct (seal aead tape (m_Payload msg) n) as [p n1]. simpl in Ep.
  pose proof (open_seal (m_ResultPayload msg) n1 Hr) as Er.
  destruct (seal aead tape (m_ResultPayload msg) n1) as [q n2]. simpl in Er.
  unfold reveal_row, message_row, message_defaults, set_payloads.
  cbn -[encodeMessageJSON mustDecodeMessageJSON]. rewrite !mustDecode_encode. cbn [j_Payload j_Result].
  by rewrite Ep, Er.
Qed.

Lemma reveal_writeMessage now msg n b t :
  unsealed_msg msg = true →
  reveal_row <$> writeMessage now (protect aead tape msg n).1 b t =
  writeMessage now msg b (reveal_row <$> t).
Proof.
  intros Hu. unfold writeMessage. rewrite <-(reveal_message_row now msg n Hu).
  change (row_key (reveal_row ?r)) with (row_key r).
  destruct b; by apply sql_upsert_fmap.
Qed.

Lemma reveal_lease_rows nowMS a lim t :
  lease_rows nowMS a lim (reveal_row <$> t) = reveal_row <$> lease_rows nowMS a lim t.
Proof.
  unfold lease_rows. rewrite (sql_select_fmap reveal_row (due a nowMS) (due a nowMS)) by done.
  by apply sql_order_limit_fmap.
Qed.

Lemma reveal_leasePending now dir a lim d t :
  leasePending now dir a lim d (reveal_row <$> t) =
  let '(msgs, t') := leasePending now dir a lim d t in
  (reveal aead <$> msgs, reveal_row <$> t').
Proof.
  unfold leasePending. rewrite reveal_lease_rows.
  generalize (lease_rows (TimeUnixMilli now) a lim t) as rows. intros rows. f_equal.
  - rewrite <-!list_fmap_compose. apply list_fmap_ext. intros i r _. simpl. by rewrite reveal_scan.
  - revert t; induction rows as [|r rows IH]; intros t; [done|].
    rewrite !fmap_cons. cbn [foldl]. rewrite <-IH. f_equal. symmetry. by apply sql_update_fmap.
Qed.

Lemma reveal_markDone mid st raw e n t :
  unsealed raw = true →
  reveal_row <$> markDone mid st (seal aead tape raw n).1 e t =
  markDone mid st raw e (reveal_row <$> t).
Proof. intros Hu. apply sql_update_fmap; [done|]. intros r. by apply reveal_set_output. Qed.

Lemma reveal_requeue now a t :
  reveal_row <$> requeueExpiredLeases now a t = requeueExpiredLeases now a (reveal_row <$> t).
Proof.
  unfold requeueExpiredLeases.
  rewrite <-(sql_update_fmap reveal_row _ _ (set_status StatusPending)) by done.
  by apply sql_update_fmap.
Qed.

Lemma reveal_cleanupTable now p t :
  reveal_row <$> cleanupTable now p t = cleanupTable now p (reveal_row <$> t).
Proof.
  assert (Hdel : ∀ l (t : table), reveal_row <$>
            foldl (fun (t : table) rule => sql_delete (rule_deletes (TimeUnixMilli now) rule) t) t l =
            foldl (fun (t : table) rule => sql_delete (rule_deletes (TimeUnixMilli now) rule) t)
                  (reveal_row <$> t) l).
  { induction l as [|[[st typ] ttl] l IH]; intros t0; [done|]. cbn [foldl]. rewrite IH. f_equal.
    by apply sql_delete_fmap. }
  unfold cleanupTable. rewrite <-Hdel. destruct (0 <? PayloadRedactAfter p)%Z; [|done].
  by apply sql_update_fmap.
Qed.

Lemma reveal_IsProcessed a mid s :
  IsProcessed a mid (reveal_store s) = reveal_processed aead <$> IsProcessed a mid s.
Proof.
  unfold IsProcessed, reveal_store. cbn [inbox]. rewrite lookup_fmap.
  destruct (inbox s !! (a, mid)) as [r|]; [|done].
  cbn -[encodeMessageJSON mustDecodeMessageJSON is_processed_status].
  destruct (is_processed_status (status r)); [|done].
  unfold scanProcessed, reveal_processed. cbn -[encodeMessageJSON mustDecodeMessageJSON].
  by rewrite mustDecode_encode.
Qed.

#[local] Arguments writeMessage : simpl never.
#[local] Arguments leasePending : simpl never.
#[local] Arguments markDone : simpl never.
#[local] Arguments requeueExpiredLeases : simpl never.
#[local] Arguments cleanupTable : simpl never.
#[local] Arguments encodeMessageJSON : simpl never.
#[local] Arguments mustDecodeMessageJSON : simpl never.
#[local] Arguments protect : simpl never.
#[local] Arguments seal : simpl never.
#[local] Arguments IsProcessed : simpl never.

(** One operation of the encrypted store is the same operation of the store
    that holds the opened rows. *)
Lemma perform_secure o (s : SecureStore SQLStore) :
  unsealed_op o = true →
  perform o (reveal_store (inner s)) =
  let '(x, s') := perform (ops := SecureStore_Store aead tape) o s in
  (x, reveal_store (inner s')).
Proof.
  intros Hu. destruct o; cbn [unsealed_op] in Hu; cbn -[protect seal reveal].
  1-3: rewrite (surjective_pairing (protect aead tape _ _)); cbn; unfold reveal_store; cbn;
       by rewrite reveal_writeMessage.
  1-2: unfold LeasePending, LeaseInboxPending, reveal_store; cbn -[leasePending];
       rewrite reveal_leasePending; by destruct (leasePending _ _ _ _ _ _).
  1-2: rewrite (surjective_pairing (seal aead tape _ _)); cbn; unfold reveal_store; cbn;
       by rewrite reveal_markDone.
  - unfold MarkFailed, reveal_store; cbn. do 2 f_equal. symmetry. by apply sql_update_fmap.
  - unfold MarkExpired, reveal_store; cbn. do 2 f_equal. symmetry. by apply sql_update_fmap.
  - f_equal. f_equal. apply reveal_IsProcessed.
  - rewrite (surjective_pairing (seal aead tape _ _)). cbn -[encodeMessageJSON seal].
    unfold RecordProcessed, reveal_store. cbn -[encodeMessageJSON seal sql_upsert]. do 2 f_equal.
    symmetry. rewrite (sql_upsert_fmap reveal_row _ _ _ _ _
                         (fun r => reveal_set_output _ _ _ (drawn s) r Hu)).
    f_equal. unfold reveal_row. cbn -[encodeMessageJSON mustDecodeMessageJSON seal].
    rewrite !mustDecode_encode. cbn [j_Payload j_Result]. by rewrite open_seal.
  - unfold RequeueExpiredLeases, reveal_store; cbn. by rewrite reveal_requeue.
  - unfold Cleanup, reveal_store; cbn. by rewrite !reveal_cleanupTable.
Qed.

(** C17. Encryption is transparent: whatever rows an encrypted store holds,
    every sequence of queue operations whose payloads and results do not begin
    with the reserved prefix is answered, lease by lease and lookup by lookup,
    exactly as a plain store answers it that holds the opened rows, and leads
    to a plain store that again holds the opened rows. *)
Theorem SecureStore_refines_plain os (s : SecureStore SQLStore) :
  Forall (fun o => unsealed_op o = true) os →
  perform_all os (reveal_store (inner s)) =
  let '(xs, s') := perform_all (ops := SecureStore_Store aead tape) os s in
  (xs, reveal_store (inner s')).
Proof.
  intros Hos. revert s. induction Hos as [|o os Ho _ IH]; intros s; [done|].
  cbn [perform_all]. rewrite perform_secure by done.
  destruct (perform o s) as [x s1]. rewrite IH. by destruct (perform_all os s1).
Qed.

(** ** Text at rest *)
Definition sealed_text (raw : string) : Prop :=
  raw = "" ∨ HasPrefix raw encryptedPrefix = true.
Definition sealed_row (r : row) : Prop :=
  sealed_text (j_Payload (mustDecodeMessageJSON (input_json r))) ∧
  sealed_text (j_Result (mustDecodeMessageJSON (output_json r))).
Definition sealed_table (t : table) : Prop := map_Forall (fun _ => sealed_row) t.
Definition sealed_store (s : SQLStore) : Prop := sealed_table (outbox s) ∧ sealed_table (inbox s).

Lemma sealed_seal raw n : sealed_text (seal aead tape raw n).1.
Proof.
  unfold seal. destruct (bool_decide (raw = "") || HasPrefix raw encryptedPrefix) eqn:E; cbn.
  - apply orb_true_iff in E as [E%bool_decide_eq_true|E]; [by left|by right].
  - apply orb_false_iff in E as [E1 E2]. right. unfold Seal. rewrite E1, E2.
    apply HasPrefix_append.
Qed.

Lemma sealed_output st raw e n r :
  sealed_row r →
  sealed_row (set_output st (encodeMessageJSON (mkJSON "" (seal aead tape raw n).1)) e r).
Proof.
  intros [Hp _]. split; [done|]. cbn. rewrite mustDecode_encode. apply sealed_seal.
Qed.

Lemma sealed_writeMessage now msg n b t :
  sealed_table t → sealed_table (writeMessage now (protect aead tape msg n).1 b t).
Proof.
  intros Ht. unfold writeMessage.
  assert (Hnew : sealed_row (message_row (message_defaults now (protect aead tape msg n).1))).
  { unfold protect. rewrite (surjective_pairing (seal aead tape (m_Payload msg) n)).
    rewrite (surjective_pairing (seal aead tape (m_ResultPayload msg) _)).
    split; cbn; rewrite mustDecode_encode; apply sealed_seal. }
  destruct b; apply sql_upsert_Forall; auto.
Qed.

Lemma sealed_leasePending now dir a lim d t :
  sealed_table t → sealed_table (leasePending now dir a lim d t).2.
Proof.
  unfold leasePending. cbn. generalize (scanMessage dir <$> lease_rows (TimeUnixMilli now) a lim t).
  intros l. revert t. induction l as [|m l IH]; intros t Ht; [done|]. cbn. apply IH.
  by apply sql_update_Forall.
Qed.

Lemma sealed_cleanupTable now p t : sealed_table t → sealed_table (cleanupTable now p t).
Proof.
  intros Ht. unfold cleanupTable.
  assert (Hdel : sealed_table (foldl (fun (t : table) rule =>
            sql_delete (rule_deletes (TimeUnixMilli now) rule) t) t (cleanup_rules p))).
  { revert t Ht. induction (cleanup_rules p) as [|rule l IH]; intros t Ht; [done|].
    apply IH. by apply sql_delete_Forall. }
  destruct (0 <? PayloadRedactAfter p)%Z; [|done].
  apply sql_update_Forall; [|done]. intros r _. split; by left.
Qed.

Lemma sealed_perform o (s : SecureStore SQLStore) :
  sealed_store (inner s) →
  sealed_store (inner (perform (ops := SecureStore_Store aead tape) o s).2).
Proof.
  intros [Ho Hi]. destruct o; cbn.
  1-3: rewrite (surjective_pairing (protect aead tape _ _)); split; cbn; auto using sealed_writeMessage.
  1-2: unfold LeasePending, LeaseInboxPending; rewrite (surjective_pairing (leasePending _ _ _ _ _ _));
       split; cbn; auto using sealed_leasePending.
  1-2: rewrite (surjective_pairing (seal aead tape _ _)); split; cbn; [|done];
       apply sql_update_Forall; auto using sealed_output.
  - split; [|done]. by apply sql_update_Forall.
  - split; [|done]. apply sql_update_Forall; [|done]. intros r [Hp _]. split; [done|by left].
  - by split.
  - rewrite (surjective_pairing (seal aead tape _ _)). split; cbn; [done|].
    apply sql_upsert_Forall; auto using sealed_output.
    split; cbn; rewrite mustDecode_encode; [by left|apply sealed_seal].
  - split; [|done]. unfold RequeueExpiredLeases, requeueExpiredLeases.
    apply sql_update_Forall; [done|]. by apply sql_update_Forall.
  - split; by apply sealed_cleanupTable.
Qed.

(** C18. Nothing is at rest in the clear: after any sequence of operations on
    an encrypted store that started empty, every payload and every result in
    its tables is empty or carries the prefix of sealed text. *)
Theorem SecureStore_sealed_at_rest os n :
  sealed_store (inner (perform_all (ops := SecureStore_Store aead tape) os
                         (mkSecure (mkStore ∅ ∅) n)).2).
Proof.
  assert (Hrun : ∀ s, sealed_store (inner s) →
            sealed_store (inner (perform_all (ops := SecureStore_Store aead tape) os s).2)).
  { induction os as [|o os IH]; intros s Hs; [done|]. cbn.
    pose proof (sealed_perform o s Hs) as Hs1. destruct (perform o s) as [x s1].
    specialize (IH s1 Hs1). by destruct (perform_all os s1). }
  apply Hrun. split; apply map_Forall_empty.
Qed.
End Reveal.

(** ** A concrete instance: a cipher that tags the text with its nonce *)
#[export] Instance tag_AEAD : AEAD := {|
  gcm_Seal _ nonce plain := nonce +:+ plain;
  gcm_Open _ nonce sealed := cut_prefix nonce sealed;
  gcm_Open_Seal _ nonce plain _ := cut_prefix_append nonce plain;
|}.

Definition demo_tape (i : nat) : string := "000000000000".
Definition demo_msg : Message :=
  mkMessage "m1" "agent-a" DirectionOutbound "traffic_batch" "hello" StatusUnset zero_time
            zero_time zero_time zero_time "" "".
Definition demo_ops : list op :=
  [OEnqueue demo_now demo_msg; OLeasePending demo_now "agent-a" 10 Minute].

Definition demo_secure : SecureStore SQLStore := mkSecure (mkStore ∅ ∅) 0.

Lemma demo_ops_unsealed : Forall (fun o => unsealed_op o = true) demo_ops.
Proof. repeat constructor. Qed.

Lemma SecureStore_refines_plain_witness :
  perform_all demo_ops (reveal_store "key" (inner demo_secure)) =
  let '(xs, s') := perform_all (ops := SecureStore_Store "key" demo_tape) demo_ops demo_secure in
  (xs, reveal_store "key" (inner s')).
Proof.
  exact (SecureStore_refines_plain "key" demo_tape (fun _ => eq_refl) demo_ops demo_secure
           demo_ops_unsealed).
Defined.

Lemma SecureStore_sealed_at_rest_witness :
  sealed_store (inner (perform_all (ops := SecureStore_Store "key" demo_tape) demo_ops
                         (mkSecure (mkStore ∅ ∅) 0)).2).
Proof. exact (SecureStore_sealed_at_rest "key" demo_tape demo_ops 0). Defined.

(** A digest that is the same for every text. *)
#[export] Instance const_Sum256 : Sum256 := {|
  sha256 _ := "0123456789abcdef0123456789abcdef";
  sha256_length _ := eq_refl;
|}.

Lemma NewSecretBox_total_witness :
  ∃ raw, String.length raw = 32 ∧ NewSecretBox " passphrase " = Ok (Some raw).
Proof.
  destruct (NewSecretBox_total " passphrase ") as [[E _]|[_ H]]; [|exact H].
  vm_compute in E. discriminate E.
Defined.
