(* ===== verification/AgentStore.v ===== *)
(** * AgentStore: the database of a node agent

    [src/internal/agent/common/store/store.go] and its schema: the synchronised
    credentials ([auth_users]), the sync cursors ([sync_state]) and the traffic
    counters of each connection ([connection_traffic_state]).  A transaction
    that returns an error leaves the database as it was; the constraints of
    the schema are checked by every write, and a violated one is an error.

    Proved here: the traffic operations keep the table well formed, in the
    range of a 64-bit integer, and never run into a schema constraint; what
    each of them does to a row; and which acknowledgements are accepted. *)

From S2P Require Import Prelude GoLib Sql.

(** ** Data *)
Record AuthUser := mkAuthUser {
  u_ConnectionID : string;
  u_NativeAuthID : string;
  u_NativeMeta : string;
}.

Record UsageRecord := mkUsageRecord {
  ur_ConnectionID : string;
  ur_TXBytes : Z;
  ur_RXBytes : Z;
}.

Record UsageBatch := mkUsageBatch {
  ub_RequestID : string;
  ub_NodeID : string;
  ub_FromMS : Z;
  ub_ToMS : Z;
  ub_Records : list UsageRecord;
  ub_CreatedMS : Z;
}.

Record TrafficSnapshot := mkTrafficSnapshot {
  ts_CollectedMS : Z;
  ts_Records : list UsageRecord;
}.

Record AcknowledgedUsage := mkAcknowledgedUsage {
  ack_ConnectionID : string;
  ack_RXBytes : Z;
  ack_TXBytes : Z;
}.

(** A row of [connection_traffic_state]; [request_id] is nullable. *)
Record ConnectionTrafficState := mkTraffic {
  ct_ConnectionID : string;
  ct_ObservedRXBytes : Z;
  ct_ObservedTXBytes : Z;
  ct_AcknowledgedRXBytes : Z;
  ct_AcknowledgedTXBytes : Z;
  ct_UnacknowledgedRXBytes : Z;
  ct_UnacknowledgedTXBytes : Z;
  ct_SentRXBytes : Z;
  ct_SentTXBytes : Z;
  ct_RequestID : option string;
}.

#[export] Instance AuthUser_eq_dec : EqDecision AuthUser.
Proof. solve_decision. Defined.
#[export] Instance UsageRecord_eq_dec : EqDecision UsageRecord.
Proof. solve_decision. Defined.
#[export] Instance AcknowledgedUsage_eq_dec : EqDecision AcknowledgedUsage.
Proof. solve_decision. Defined.
#[export] Instance ConnectionTrafficState_eq_dec : EqDecision ConnectionTrafficState.
Proof. solve_decision. Defined.

Abbreviation traffic_table := (gmap string ConnectionTrafficState).

Record DB := mkDB {
  auth_users : gmap string AuthUser;
  sync_state : gmap string string;
  connection_traffic_state : traffic_table;
}.

Definition set_auth_users (v : gmap string AuthUser) (db : DB) : DB :=
  mkDB v (sync_state db) (connection_traffic_state db).
Definition set_sync_state (v : gmap string string) (db : DB) : DB :=
  mkDB (auth_users db) v (connection_traffic_state db).
Definition set_traffic (v : traffic_table) (db : DB) : DB :=
  mkDB (auth_users db) (sync_state db) v.

Definition ErrNotFound : error := "not found".
Definition ErrUnique : error := "UNIQUE constraint failed: auth_users.native_auth_id".
Definition ErrCheck : error := "CHECK constraint failed: connection_traffic_state".

(** ** Credentials *)

(** [native_auth_id] is unique in [auth_users]. *)
Definition native_id_free (user : AuthUser) (t : gmap string AuthUser) : bool :=
  forallb (fun u => negb (bool_decide (u_NativeAuthID u = u_NativeAuthID user)) ||
                    bool_decide (u_ConnectionID u = u_ConnectionID user))
          (map_to_list t).*2.

Definition put_auth_user (user : AuthUser) (t : gmap string AuthUser)
    : result (gmap string AuthUser) :=
  if native_id_free user t then Ok (<[u_ConnectionID user := user]> t) else Err ErrUnique.

Definition UpsertAuthUser (user : AuthUser) (db : DB) : result DB :=
  t ← put_auth_user user (auth_users db); Ok (set_auth_users t db).

Definition DeleteAuthUser (connectionID : string) (db : DB) : DB :=
  set_auth_users (delete connectionID (auth_users db)) db.

Definition GetAuthUserByConnectionID (connectionID : string) (db : DB) : result AuthUser :=
  match auth_users db !! connectionID with Some u => Ok u | None => Err ErrNotFound end.

Definition find_native (nativeID : string) (db : DB) : option AuthUser :=
  head (sql_select (fun u => bool_decide (u_NativeAuthID u = nativeID)) (auth_users db)).

Definition GetAuthUserByNativeAuthID (nativeID : string) (db : DB) : result AuthUser :=
  match find_native nativeID db with Some u => Ok u | None => Err ErrNotFound end.

Definition GetConnectionIDByNativeAuthID (nativeID : string) (db : DB) : result string :=
  match find_native nativeID db with Some u => Ok (u_ConnectionID u) | None => Err ErrNotFound end.

Definition user_le (u1 u2 : AuthUser) : Prop := String.le (u_ConnectionID u1) (u_ConnectionID u2).
#[export] Instance user_le_dec : RelDecision user_le.
Proof. intros u1 u2. unfold user_le. apply _. Defined.

(** [order by connection_id] *)
Definition ListAuthUsers (db : DB) : list AuthUser :=
  merge_sort user_le (map_to_list (auth_users db)).*2.

(** A plain [insert]: the primary key must be new, too. *)
Definition insert_auth_user (t : gmap string AuthUser) (user : AuthUser)
    : result (gmap string AuthUser) :=
  if bool_decide (t !! u_ConnectionID user = None) then put_auth_user user t
  else Err "UNIQUE constraint failed: auth_users.connection_id".

(** The iteration order of the Go map [keep] is not specified; whether all
    inserts succeed, and the table they give, does not depend on it. *)
Definition ApplyFullAuthSnapshot (keep : gmap string AuthUser) (cursorKey : string)
    (cursorMS : Z) (db : DB) : result DB :=
  t ← foldlR insert_auth_user (map_to_list keep).*2 ∅;
  Ok (set_sync_state (<[cursorKey := Strconv.FormatInt cursorMS]> (sync_state db))
        (set_auth_users t db)).

(** ** Sync cursors *)
Definition GetState (key : string) (db : DB) : result string :=
  match sync_state db !! key with Some v => Ok v | None => Err ErrNotFound end.

Definition SetState (key value : string) (db : DB) : DB :=
  set_sync_state (<[key := value]> (sync_state db)) db.

(** ** Traffic counters *)
Definition zero_traffic (connectionID : string) : ConnectionTrafficState :=
  mkTraffic connectionID 0 0 0 0 0 0 0 0 None.

(** The [check] constraints of [connection_traffic_state]. *)
Definition traffic_check (r : ConnectionTrafficState) : bool :=
  ((0 <=? ct_ObservedRXBytes r) && (0 <=? ct_ObservedTXBytes r) &&
   (0 <=? ct_AcknowledgedRXBytes r) && (0 <=? ct_AcknowledgedTXBytes r) &&
   (0 <=? ct_UnacknowledgedRXBytes r) && (0 <=? ct_UnacknowledgedTXBytes r) &&
   (0 <=? ct_SentRXBytes r) && (0 <=? ct_SentTXBytes r) &&
   match ct_RequestID r with
   | None => (ct_SentRXBytes r =? 0) && (ct_SentTXBytes r =? 0)
   | Some _ => (ct_SentRXBytes r <=? ct_UnacknowledgedRXBytes r) &&
               (ct_SentTXBytes r <=? ct_UnacknowledgedTXBytes r)
   end)%Z.

Definition checked (r : ConnectionTrafficState) : result ConnectionTrafficState :=
  if traffic_check r then Ok r else Err ErrCheck.

(** Writing the row of connection [cid]. *)
Definition put_traffic (cid : string) (r : ConnectionTrafficState) (t : traffic_table)
    : result traffic_table :=
  r ← checked r; Ok (<[cid := r]> t).

Definition cumulativeDelta (current observed : Z) : Z :=
  if (observed <=? current)%Z then (current - observed)%Z else current.

Definition addNonnegative (a b : Z) : result Z :=
  if ((a <? 0) || (b <? 0) || (max_int64 - b <? a))%Z then Err "traffic counter overflow"
  else Ok (a + b)%Z.

Definition observe_row (record : UsageRecord) (rxDelta txDelta : Z)
    (r : ConnectionTrafficState) : ConnectionTrafficState :=
  mkTraffic (ct_ConnectionID r) (ur_RXBytes record) (ur_TXBytes record)
            (ct_AcknowledgedRXBytes r) (ct_AcknowledgedTXBytes r)
            (ct_UnacknowledgedRXBytes r + rxDelta) (ct_UnacknowledgedTXBytes r + txDelta)
            (ct_SentRXBytes r) (ct_SentTXBytes r) (ct_RequestID r).

Definition invalid_record (record : UsageRecord) : bool :=
  bool_decide (ur_ConnectionID record = "") || (ur_RXBytes record <? 0)%Z ||
  (ur_TXBytes record <? 0)%Z.

Definition observe_record (t : traffic_table) (record : UsageRecord) : result traffic_table :=
  if invalid_record record then Err "traffic snapshot contains invalid values"
  else
    let cid := ur_ConnectionID record in
    t ← (match t !! cid with Some _ => Ok t | None => put_traffic cid (zero_traffic cid) t end);
    match t !! cid with
    | None => Err "sql: no rows in result set"
    | Some r =>
        let rxDelta := cumulativeDelta (ur_RXBytes record) (ct_ObservedRXBytes r) in
        let txDelta := cumulativeDelta (ur_TXBytes record) (ct_ObservedTXBytes r) in
        _ ← addNonnegative (ct_UnacknowledgedRXBytes r) rxDelta;
        _ ← addNonnegative (ct_UnacknowledgedTXBytes r) txDelta;
        put_traffic cid (observe_row record rxDelta txDelta r) t
    end.

Definition ObserveTraffic (snapshot : TrafficSnapshot) (t : traffic_table) : result traffic_table :=
  foldlR observe_record (ts_Records snapshot) t.

(** [order by connection_id] *)
Definition traffic_le (r1 r2 : ConnectionTrafficState) : Prop :=
  String.le (ct_ConnectionID r1) (ct_ConnectionID r2).
#[export] Instance traffic_le_dec : RelDecision traffic_le.
Proof. intros r1 r2. unfold traffic_le. apply _. Defined.

Definition unprepared (r : ConnectionTrafficState) : bool :=
  bool_decide (ct_RequestID r = None) &&
  ((0 <? ct_UnacknowledgedRXBytes r) || (0 <? ct_UnacknowledgedTXBytes r))%Z.

Definition unacknowledged_record (r : ConnectionTrafficState) : UsageRecord :=
  mkUsageRecord (ct_ConnectionID r) (ct_UnacknowledgedTXBytes r) (ct_UnacknowledgedRXBytes r).

Definition freeze_row (requestID : string) (r : ConnectionTrafficState) : ConnectionTrafficState :=
  mkTraffic (ct_ConnectionID r) (ct_ObservedRXBytes r) (ct_ObservedTXBytes r)
            (ct_AcknowledgedRXBytes r) (ct_AcknowledgedTXBytes r)
            (ct_UnacknowledgedRXBytes r) (ct_UnacknowledgedTXBytes r)
            (ct_UnacknowledgedRXBytes r) (ct_UnacknowledgedTXBytes r) (Some requestID).

(** The update must hit exactly one row whose [request_id] is null. *)
Definition freeze_record (requestID : string) (t : traffic_table) (record : UsageRecord)
    : result traffic_table :=
  match t !! ur_ConnectionID record with
  | Some r => if bool_decide (ct_RequestID r = None) then put_traffic (ur_ConnectionID record) (freeze_row requestID r) t
              else Err "traffic state changed while preparing request"
  | None => Err "traffic state changed while preparing request"
  end.

Definition prepare_rows (limit : Z) (t : traffic_table) : list ConnectionTrafficState :=
  let limit := if (limit <=? 0)%Z then 100%Z else limit in
  sql_order_limit traffic_le (Z.to_nat limit) (sql_select unprepared t).

Definition PrepareUsageRequest (requestID nodeID : string) (limit : Z) (t : traffic_table)
    : result (option UsageBatch * traffic_table) :=
  if bool_decide (requestID = "") then Err "traffic request_id is required"
  else
    let records := unacknowledged_record <$> prepare_rows limit t in
    if bool_decide (records = []) then Ok (None, t)
    else
      t' ← foldlR (freeze_record requestID) records t;
      Ok (Some (mkUsageBatch requestID nodeID 0 0 records 0), t').

(** [order by request_id, connection_id] *)
Definition prepared_le (r1 r2 : ConnectionTrafficState) : Prop :=
  str_lt (default "" (ct_RequestID r1)) (default "" (ct_RequestID r2)) ∨
  (default "" (ct_RequestID r1) = default "" (ct_RequestID r2) ∧
   String.le (ct_ConnectionID r1) (ct_ConnectionID r2)).
#[export] Instance prepared_le_dec : RelDecision prepared_le.
Proof. intros r1 r2. unfold prepared_le. apply _. Defined.

Definition sent_record (r : ConnectionTrafficState) : UsageRecord :=
  mkUsageRecord (ct_ConnectionID r) (ct_SentTXBytes r) (ct_SentRXBytes r).

Definition append_record (record : UsageRecord) (b : UsageBatch) : UsageBatch :=
  mkUsageBatch (ub_RequestID b) (ub_NodeID b) (ub_FromMS b) (ub_ToMS b)
               (ub_Records b ++ [record]) (ub_CreatedMS b).

(** [byID] maps a request to the index of its batch in [out]. *)
Definition group_row (nodeID : string) (acc : gmap string nat * list UsageBatch)
    (r : ConnectionTrafficState) : gmap string nat * list UsageBatch :=
  let '(byID, out) := acc in
  let requestID := default "" (ct_RequestID r) in
  let '(index, byID, out) :=
    match byID !! requestID with
    | Some index => (index, byID, out)
    | None => (length out, <[requestID := length out]> byID,
               out ++ [mkUsageBatch requestID nodeID 0 0 [] 0])
    end in
  (byID, alter (append_record (sent_record r)) index out).

Definition ListPreparedUsageRequests (nodeID : string) (t : traffic_table) : list UsageBatch :=
  let rows := merge_sort prepared_le
                (sql_select (fun r => bool_decide (ct_RequestID r ≠ None)) t) in
  (foldl (group_row nodeID) (∅, []) rows).2.

(** ** Acknowledgements *)
Definition collect_ack (acc : gmap string AcknowledgedUsage) (record : AcknowledgedUsage)
    : result (gmap string AcknowledgedUsage) :=
  if bool_decide (ack_ConnectionID record = "") || (ack_RXBytes record <? 0)%Z ||
     (ack_TXBytes record <? 0)%Z
  then Err "usage acknowledgement contains invalid values"
  else match acc !! ack_ConnectionID record with
       | Some _ => Err "usage acknowledgement contains duplicate connection"
       | None => Ok (<[ack_ConnectionID record := record]> acc)
       end.

Definition ack_row (accepted : AcknowledgedUsage) (r : ConnectionTrafficState)
    : ConnectionTrafficState :=
  mkTraffic (ct_ConnectionID r) (ct_ObservedRXBytes r) (ct_ObservedTXBytes r)
            (ack_RXBytes accepted) (ack_TXBytes accepted)
            (ct_UnacknowledgedRXBytes r - ct_SentRXBytes r)
            (ct_UnacknowledgedTXBytes r - ct_SentTXBytes r) 0 0 None.

Definition apply_ack (ack : gmap string AcknowledgedUsage) (t : traffic_table)
    (state : ConnectionTrafficState) : result traffic_table :=
  match ack !! ct_ConnectionID state with
  | None => Err "usage acknowledgement misses connection"
  | Some accepted =>
      if ((ct_UnacknowledgedRXBytes state <? ct_SentRXBytes state) ||
          (ct_UnacknowledgedTXBytes state <? ct_SentTXBytes state))%Z
      then Err "invalid persisted traffic state"
      else if ((ack_RXBytes accepted <? ct_SentRXBytes state) ||
               (ack_TXBytes accepted <? ct_SentTXBytes state))%Z
      then Err "authoritative usage is lower than sent usage for connection"
      else put_traffic (ct_ConnectionID state) (ack_row accepted state) t
  end.

Definition prepared_for (requestID : string) (r : ConnectionTrafficState) : bool :=
  bool_decide (ct_RequestID r = Some requestID).

Definition AcknowledgeUsage (requestID : string) (records : list AcknowledgedUsage)
    (t : traffic_table) : result traffic_table :=
  ack ← foldlR collect_ack records ∅;
  let states := merge_sort traffic_le (sql_select (prepared_for requestID) t) in
  if bool_decide (states = []) then Ok t
  else if negb (size ack =? length states)%nat
  then Err "usage acknowledgement does not match prepared connections"
  else foldlR (apply_ack ack) states t.

Definition GetConnectionTrafficState (connectionID : string) (t : traffic_table)
    : ConnectionTrafficState :=
  default (zero_traffic connectionID) (t !! connectionID).

(** ** Well-formed traffic tables

    A row satisfies the constraints of the schema and its counters fit a
    64-bit integer; it is stored under its connection. *)
Definition row_in_range (r : ConnectionTrafficState) : Prop :=
  (ct_ObservedRXBytes r ≤ max_int64 ∧ ct_ObservedTXBytes r ≤ max_int64 ∧
   ct_AcknowledgedRXBytes r ≤ max_int64 ∧ ct_AcknowledgedTXBytes r ≤ max_int64 ∧
   ct_UnacknowledgedRXBytes r ≤ max_int64 ∧ ct_UnacknowledgedTXBytes r ≤ max_int64)%Z.

Definition traffic_wf (t : traffic_table) : Prop :=
  ∀ k r, t !! k = Some r → ct_ConnectionID r = k ∧ traffic_check r = true ∧ row_in_range r.

(** The constraints as facts of arithmetic. *)
Lemma traffic_check_spec r :
  traffic_check r = true ↔
  (0 ≤ ct_ObservedRXBytes r ∧ 0 ≤ ct_ObservedTXBytes r ∧
   0 ≤ ct_AcknowledgedRXBytes r ∧ 0 ≤ ct_AcknowledgedTXBytes r ∧
   0 ≤ ct_UnacknowledgedRXBytes r ∧ 0 ≤ ct_UnacknowledgedTXBytes r ∧
   0 ≤ ct_SentRXBytes r ∧ 0 ≤ ct_SentTXBytes r ∧
   match ct_RequestID r with
   | None => ct_SentRXBytes r = 0 ∧ ct_SentTXBytes r = 0
   | Some _ => ct_SentRXBytes r ≤ ct_UnacknowledgedRXBytes r ∧
               ct_SentTXBytes r ≤ ct_UnacknowledgedTXBytes r
   end)%Z.
Proof.
  unfold traffic_check. destruct (ct_RequestID r);
    rewrite !andb_true_iff, !Z.leb_le, ?Z.eqb_eq; tauto.
Qed.

Lemma zero_traffic_check cid : traffic_check (zero_traffic cid) = true.
Proof. done. Qed.

Ltac traffic_solve :=
  repeat match goal with
  | H : traffic_check _ = true |- _ => apply traffic_check_spec in H
  | |- traffic_check _ = true => apply traffic_check_spec
  | H : row_in_range _ |- _ => unfold row_in_range in H
  | |- row_in_range _ => unfold row_in_range
  end; simpl in *; unfold max_int64 in *; repeat case_match; simplify_eq/=; try lia.

(** ** Observing *)
Lemma cumulativeDelta_bounds c o : (0 ≤ c → 0 ≤ o → 0 ≤ cumulativeDelta c o ≤ c)%Z.
Proof. unfold cumulativeDelta. intros. case_match; lia. Qed.

Lemma addNonnegative_Ok a b c :
  addNonnegative a b = Ok c → (0 ≤ a ∧ 0 ≤ b ∧ c = a + b ∧ a + b ≤ max_int64)%Z.
Proof.
  unfold addNonnegative. destruct (_ || _) eqn:E; [done|]. intros [= <-].
  apply orb_false_iff in E as [[E1%Z.ltb_ge E2%Z.ltb_ge]%orb_false_iff E3%Z.ltb_ge]. lia.
Qed.

(** The row of a connection, or the fresh one [observe_record] inserts. *)
Definition row_of (t : traffic_table) (cid : string) : ConnectionTrafficState :=
  default (zero_traffic cid) (t !! cid).

Definition rx_delta (t : traffic_table) (record : UsageRecord) : Z :=
  cumulativeDelta (ur_RXBytes record) (ct_ObservedRXBytes (row_of t (ur_ConnectionID record))).
Definition tx_delta (t : traffic_table) (record : UsageRecord) : Z :=
  cumulativeDelta (ur_TXBytes record) (ct_ObservedTXBytes (row_of t (ur_ConnectionID record))).

Lemma row_of_wf t cid :
  traffic_wf t → ct_ConnectionID (row_of t cid) = cid ∧
  traffic_check (row_of t cid) = true ∧ row_in_range (row_of t cid).
Proof.
  intros Hwf. unfold row_of. destruct (t !! cid) eqn:E; simpl; [by apply Hwf|].
  split_and!; [done|apply zero_traffic_check|traffic_solve].
Qed.

(** [observe_record] in one equation. *)
Lemma observe_record_eq t record :
  observe_record t record =
  if invalid_record record then Err "traffic snapshot contains invalid values"
  else
    let r := row_of t (ur_ConnectionID record) in
    _ ← addNonnegative (ct_UnacknowledgedRXBytes r) (rx_delta t record);
    _ ← addNonnegative (ct_UnacknowledgedTXBytes r) (tx_delta t record);
    put_traffic (ur_ConnectionID record)
      (observe_row record (rx_delta t record) (tx_delta t record) r) t.
Proof.
  unfold observe_record, rx_delta, tx_delta, row_of. destruct (invalid_record record); [done|].
  destruct (t !! ur_ConnectionID record) as [r|] eqn:E; cbn [mbind result_bind]; rewrite ?E; [done|].
  unfold put_traffic, checked. rewrite zero_traffic_check. cbn [mbind result_bind default from_option].
  rewrite lookup_insert_eq. change (default ?x None) with x.
  destruct (addNonnegative (ct_UnacknowledgedRXBytes _) _); [|done]. cbn [mbind result_bind].
  destruct (addNonnegative (ct_UnacknowledgedTXBytes _) _); [|done]. cbn [mbind result_bind].
  destruct (traffic_check _); [|done]. cbn [mbind result_bind]. by rewrite insert_insert_eq.
Qed.

Lemma observe_record_Ok t record t' :
  traffic_wf t → observe_record t record = Ok t' →
  let r := row_of t (ur_ConnectionID record) in
  invalid_record record = false ∧
  (0 ≤ rx_delta t record ∧ ct_UnacknowledgedRXBytes r + rx_delta t record ≤ max_int64)%Z ∧
  (0 ≤ tx_delta t record ∧ ct_UnacknowledgedTXBytes r + tx_delta t record ≤ max_int64)%Z ∧
  t' = <[ur_ConnectionID record :=
         observe_row record (rx_delta t record) (tx_delta t record) r]> t.
Proof.
  intros Hwf. rewrite observe_record_eq. destruct (invalid_record record); [done|].
  intros (? & Hrx%addNonnegative_Ok & (? & Htx%addNonnegative_Ok & Hput)%bind_Ok)%bind_Ok.
  unfold put_traffic, checked in Hput. apply bind_Ok in Hput as (r' & Hr' & [= <-]).
  destruct (traffic_check _); [|done]. simplify_eq. split_and!; done || lia.
Qed.

(** Records come from the runtime as signed 64-bit counters. *)
Definition record_in_range (record : UsageRecord) : Prop :=
  (ur_RXBytes record ≤ max_int64 ∧ ur_TXBytes record ≤ max_int64)%Z.

Lemma observed_row_ok t record :
  traffic_wf t → record_in_range record → invalid_record record = false →
  let r := row_of t (ur_ConnectionID record) in
  (0 ≤ rx_delta t record ∧ 0 ≤ tx_delta t record)%Z ∧
  traffic_check (observe_row record (rx_delta t record) (tx_delta t record) r) = true.
Proof.
  intros Hwf Hin Hinv r. destruct (row_of_wf t (ur_ConnectionID record) Hwf) as (_ & Hc & Hr).
  unfold invalid_record in Hinv.
  apply orb_false_iff in Hinv as [[_ Hrx%Z.ltb_ge]%orb_false_iff Htx%Z.ltb_ge].
  assert (0 ≤ rx_delta t record ∧ 0 ≤ tx_delta t record)%Z as [H1 H2].
  { unfold rx_delta, tx_delta. apply traffic_check_spec in Hc.
    split; apply cumulativeDelta_bounds; tauto. }
  split; [done|]. fold r in Hc. clearbody r. traffic_solve.
Qed.

Lemma observe_record_wf t record t' :
  traffic_wf t → record_in_range record → observe_record t record = Ok t' → traffic_wf t'.
Proof.
  intros Hwf Hin Hok. destruct (observe_record_Ok _ _ _ Hwf Hok) as (Hinv & Hrx & Htx & ->).
  pose proof (row_of_wf t (ur_ConnectionID record) Hwf) as (Hk & Hc & Hr).
  destruct (observed_row_ok t record Hwf Hin Hinv) as [_ Hck].
  intros k r. destruct (decide (k = ur_ConnectionID record)) as [->|Hne].
  - rewrite lookup_insert_eq. intros [= <-]. split_and!; [done|done|].
    unfold row_in_range, record_in_range in *. simpl. lia.
  - rewrite lookup_insert_ne by done. apply Hwf.
Qed.

(** C13. Observing traffic is safe: from a well-formed table and 64-bit
    counters, [ObserveTraffic] either fails with one of its two own errors
    (an invalid record or a counter overflow), or gives a well-formed table
    again.  No constraint of the schema is ever hit and no counter leaves the
    range of a 64-bit integer. *)
Theorem ObserveTraffic_safe snapshot t :
  traffic_wf t → Forall record_in_range (ts_Records snapshot) →
  match ObserveTraffic snapshot t with
  | Ok t' => traffic_wf t'
  | Err e => e = "traffic snapshot contains invalid values" ∨ e = "traffic counter overflow"
  end.
Proof.
  unfold ObserveTraffic. intros Hwf Hin. revert t Hwf.
  induction Hin as [|record l Hrec _ IH]; intros t Hwf; [done|]. cbn [foldlR].
  destruct (observe_record t record) as [t1|e] eqn:E; cbn [mbind result_bind].
  - apply IH. by eapply observe_record_wf.
  - rewrite observe_record_eq in E.
    destruct (invalid_record record) eqn:Hinv; [left; congruence|]. right. cbn zeta in E.
    destruct (addNonnegative (ct_UnacknowledgedRXBytes _) _) as [rx|] eqn:Erx;
      [|unfold addNonnegative in Erx; case_match; by simplify_eq/=].
    cbn [mbind result_bind] in E.
    destruct (addNonnegative (ct_UnacknowledgedTXBytes _) _) as [tx|] eqn:Etx;
      [|unfold addNonnegative in Etx; case_match; by simplify_eq/=].
    cbn [mbind result_bind] in E.
    apply addNonnegative_Ok in Erx, Etx.
    destruct (observed_row_ok t record Hwf Hrec Hinv) as [_ Hck].
    unfold put_traffic, checked in E. by rewrite Hck in E.
Qed.

(** ** Preparing *)
Lemma traffic_rows_keys (l : list ConnectionTrafficState) t :
  traffic_wf t → (∀ r, r ∈ l → ∃ k, t !! k = Some r) → NoDup l →
  NoDup (ct_ConnectionID <$> l).
Proof.
  intros Hwf Hl Hnd. apply NoDup_fmap_2_strong; [|done].
  intros r1 r2 H1 H2 E. destruct (Hl _ H1) as [k1 Hk1], (Hl _ H2) as [k2 Hk2].
  destruct (Hwf _ _ Hk1) as [<- _], (Hwf _ _ Hk2) as [<- _]. rewrite E in Hk1. congruence.
Qed.

Lemma NoDup_traffic_select P t : traffic_wf t → NoDup (sql_select P t).
Proof.
  intros Hwf. apply list.NoDup_filter. apply (NoDup_fmap_1 ct_ConnectionID).
  assert (ct_ConnectionID <$> (map_to_list t).*2 = (map_to_list t).*1) as ->.
  { rewrite <-list_fmap_compose. apply list_fmap_ext. intros i [k r] Hi. simpl.
    apply Hwf. by apply elem_of_map_to_list, list_elem_of_lookup_2 with i. }
  apply NoDup_fst_map_to_list.
Qed.

Lemma elem_of_prepare_rows limit t r :
  traffic_wf t → r ∈ prepare_rows limit t →
  unprepared r = true ∧ t !! ct_ConnectionID r = Some r.
Proof.
  intros Hwf [Hu [k Hk]]%sql_order_limit_elem%elem_of_sql_select. split; [done|].
  by destruct (Hwf _ _ Hk) as [-> _].
Qed.

Lemma prepare_rows_keys limit t :
  traffic_wf t → NoDup (ct_ConnectionID <$> prepare_rows limit t).
Proof.
  intros Hwf. apply (traffic_rows_keys _ t Hwf).
  - intros r Hr. destruct (elem_of_prepare_rows _ _ _ Hwf Hr). eauto.
  - apply sql_order_limit_NoDup. by apply NoDup_traffic_select.
Qed.

Lemma freeze_row_check requestID r :
  traffic_check r = true → traffic_check (freeze_row requestID r) = true.
Proof. intros. traffic_solve. Qed.

(** The new row of a connection that is being prepared. *)
Definition freeze_new (requestID : string) (_ : UsageRecord) (o : option ConnectionTrafficState)
    : result ConnectionTrafficState :=
  match o with
  | Some r => if bool_decide (ct_RequestID r = None) then checked (freeze_row requestID r)
              else Err "traffic state changed while preparing request"
  | None => Err "traffic state changed while preparing request"
  end.

Lemma freeze_record_keyed requestID t record :
  freeze_record requestID t record =
  v ← freeze_new requestID record (t !! ur_ConnectionID record);
  Ok (<[ur_ConnectionID record := v]> t).
Proof.
  unfold freeze_record, freeze_new. destruct (t !! _) as [r|]; [|done].
  by destruct (bool_decide _).
Qed.

Definition frozen (requestID : string) (rows : list ConnectionTrafficState)
    (r : ConnectionTrafficState) : ConnectionTrafficState :=
  if bool_decide (r ∈ rows) then freeze_row requestID r else r.

Lemma frozen_wf requestID rows t t' :
  traffic_wf t → (∀ k, t' !! k = frozen requestID rows <$> t !! k) → traffic_wf t'.
Proof.
  intros Hwf Ht' k r'. rewrite Ht'. intros (r & Hr & ->)%fmap_Some.
  destruct (Hwf _ _ Hr) as (Hk & Hc & Hb). unfold frozen. case_bool_decide; [|done].
  split_and!; [done|by apply freeze_row_check|]. unfold row_in_range in *. simpl. lia.
Qed.

(** [PrepareUsageRequest] never fails on a well-formed table: it freezes the
    first connections with unacknowledged traffic, or there are none. *)
Lemma PrepareUsageRequest_eq requestID nodeID limit t :
  traffic_wf t → requestID ≠ "" →
  let rows := prepare_rows limit t in
  (rows = [] ∧ PrepareUsageRequest requestID nodeID limit t = Ok (None, t)) ∨
  (rows ≠ [] ∧ ∃ t',
     PrepareUsageRequest requestID nodeID limit t =
       Ok (Some (mkUsageBatch requestID nodeID 0 0 (unacknowledged_record <$> rows) 0), t') ∧
     ∀ k, t' !! k = frozen requestID rows <$> t !! k).
Proof.
  intros Hwf Hid rows. unfold PrepareUsageRequest. rewrite (bool_decide_eq_false_2 _ Hid).
  fold rows. destruct (decide (rows = [])) as [E|E].
  { left. split; [done|]. by rewrite E. }
  right. split; [done|]. rewrite bool_decide_eq_false_2 by (by intros ?%fmap_nil_inv).
  assert (Hkeys : ur_ConnectionID <$> (unacknowledged_record <$> rows) = ct_ConnectionID <$> rows)
    by (rewrite <-list_fmap_compose; done).
  assert (Hnd : NoDup (ur_ConnectionID <$> (unacknowledged_record <$> rows))).
  { rewrite Hkeys. by apply prepare_rows_keys. }
  assert (Hnew : ∀ r, r ∈ rows →
            freeze_new requestID (unacknowledged_record r) (t !! ct_ConnectionID r) =
            Ok (freeze_row requestID r)).
  { intros r Hr. destruct (elem_of_prepare_rows _ _ _ Hwf Hr) as [Hu Hk]. rewrite Hk.
    apply andb_true_iff in Hu as [Hn _]. unfold freeze_new, checked. rewrite Hn.
    rewrite freeze_row_check; [done|]. by destruct (Hwf _ _ Hk) as (_ & ? & _). }
  destruct (foldlR_keyed_total ur_ConnectionID (freeze_record requestID) (freeze_new requestID)
              (freeze_record_keyed requestID) (unacknowledged_record <$> rows) t) as [t' Ht'];
    [done| |].
  { intros x (r & -> & Hr)%list_elem_of_fmap. eauto. }
  exists t'. rewrite Ht'. split; [done|].
  destruct (foldlR_keyed_Ok ur_ConnectionID _ _ (freeze_record_keyed requestID) _ _ _ Hnd Ht')
    as [Hin Hout].
  intros k. destruct (decide (k ∈ ct_ConnectionID <$> rows)) as [Hk|Hk].
  - apply list_elem_of_fmap in Hk as (r & -> & Hr).
    destruct (Hin (unacknowledged_record r)) as (v & Hv & Hl); [by apply list_elem_of_fmap_2|].
    cbn [unacknowledged_record ur_ConnectionID] in *. rewrite (Hnew r Hr) in Hv. simplify_eq.
    rewrite Hl. destruct (elem_of_prepare_rows _ _ _ Hwf Hr) as [_ ->]. cbn.
    unfold frozen. by rewrite bool_decide_eq_true_2.
  - rewrite Hout by (by rewrite Hkeys). destruct (t !! k) as [r|] eqn:Hr; [|done]. cbn.
    unfold frozen. rewrite bool_decide_eq_false_2; [done|]. intros Hin'. apply Hk.
    destruct (Hwf _ _ Hr) as [<- _]. by apply list_elem_of_fmap_2.
Qed.

(** ** Acknowledging *)
Definition ack_valid (a : AcknowledgedUsage) : Prop :=
  ack_ConnectionID a ≠ "" ∧ (0 ≤ ack_RXBytes a ∧ 0 ≤ ack_TXBytes a)%Z.

Definition ack_new (a : AcknowledgedUsage) (o : option AcknowledgedUsage)
    : result AcknowledgedUsage :=
  if bool_decide (ack_ConnectionID a = "") || (ack_RXBytes a <? 0)%Z || (ack_TXBytes a <? 0)%Z
  then Err "usage acknowledgement contains invalid values"
  else match o with
       | Some _ => Err "usage acknowledgement contains duplicate connection"
       | None => Ok a
       end.

Lemma collect_ack_keyed m a :
  collect_ack m a = v ← ack_new a (m !! ack_ConnectionID a); Ok (<[ack_ConnectionID a := v]> m).
Proof. unfold collect_ack, ack_new. destruct (_ || _); [done|]. by destruct (m !! _). Qed.

Lemma ack_new_None a v : ack_new a None = Ok v ↔ v = a ∧ ack_valid a.
Proof.
  unfold ack_new, ack_valid. destruct (_ || _) eqn:E.
  - split; [done|]. intros (_ & Hne & Hrx & Htx).
    apply orb_true_iff in E as [[E%bool_decide_eq_true|E%Z.ltb_lt]%orb_true_iff|E%Z.ltb_lt]; [done|lia..].
  - apply orb_false_iff in E as [[E%bool_decide_eq_false E2%Z.ltb_ge]%orb_false_iff E3%Z.ltb_ge].
    split; [intros [= <-]|intros [-> _]]; done.
Qed.

(** What an accepted list of acknowledgements is. *)
Lemma collect_ack_Ok records m :
  foldlR collect_ack records ∅ = Ok m →
  ∀ k a, m !! k = Some a → a ∈ records ∧ ack_ConnectionID a = k ∧ ack_valid a.
Proof.
  apply (foldlR_inv (fun m => ∀ k a, m !! k = Some a → a ∈ records ∧ ack_ConnectionID a = k ∧ ack_valid a));
    [|by intros k a; rewrite lookup_empty].
  intros m0 x m1 Hx Hm0. rewrite collect_ack_keyed.
  intros (v & Hv & [= <-])%bind_Ok k a. unfold ack_new in Hv.
  destruct (m0 !! ack_ConnectionID x); [by destruct (_ || _) in Hv|].
  fold (ack_new x None) in Hv. apply ack_new_None in Hv as [-> Hval].
  destruct (decide (ack_ConnectionID x = k)) as [<-|Hne].
  - rewrite lookup_insert_eq. by intros [= <-].
  - rewrite lookup_insert_ne by done. apply Hm0.
Qed.

Lemma collect_ack_total records :
  NoDup (ack_ConnectionID <$> records) → Forall ack_valid records →
  ∃ m, foldlR collect_ack records ∅ = Ok m ∧ size m = length records ∧
       ∀ a, a ∈ records → m !! ack_ConnectionID a = Some a.
Proof.
  intros Hnd Hval.
  destruct (foldlR_keyed_total ack_ConnectionID _ _ collect_ack_keyed records ∅ Hnd) as [m Hm].
  { intros a Ha. exists a. rewrite lookup_empty. apply ack_new_None.
    rewrite list.Forall_forall in Hval. auto. }
  exists m. split; [done|].
  destruct (foldlR_keyed_Ok ack_ConnectionID _ _ collect_ack_keyed _ _ _ Hnd Hm) as [Hin Hout].
  assert (Hlook : ∀ a, a ∈ records → m !! ack_ConnectionID a = Some a).
  { intros a Ha. destruct (Hin a Ha) as (v & Hv & ->). rewrite lookup_empty in Hv.
    by apply ack_new_None in Hv as [-> _]. }
  split; [|done].
  assert (dom m = list_to_set (ack_ConnectionID <$> records)) as Hdom.
  { apply set_eq. intros k. rewrite elem_of_dom, elem_of_list_to_set. split.
    - intros [a Ha]. destruct (decide (k ∈ ack_ConnectionID <$> records)); [done|].
      by rewrite Hout, lookup_empty in Ha.
    - intros (a & -> & Ha)%list_elem_of_fmap. rewrite Hlook by done. eauto. }
  by rewrite <-size_dom, Hdom, size_list_to_set, length_fmap.
Qed.

Definition ack_states (requestID : string) (t : traffic_table) : list ConnectionTrafficState :=
  merge_sort traffic_le (sql_select (prepared_for requestID) t).

Lemma elem_of_ack_states requestID t r :
  traffic_wf t →
  r ∈ ack_states requestID t ↔
  ct_RequestID r = Some requestID ∧ t !! ct_ConnectionID r = Some r.
Proof.
  intros Hwf. unfold ack_states. rewrite merge_sort_Permutation, elem_of_sql_select.
  unfold prepared_for. rewrite bool_decide_eq_true. split; intros [Hr Hk]; (split; [done|]); [|eauto].
  destruct Hk as [k Hk]. by destruct (Hwf _ _ Hk) as [-> _].
Qed.

Lemma ack_states_keys requestID t :
  traffic_wf t → NoDup (ct_ConnectionID <$> ack_states requestID t).
Proof.
  intros Hwf. apply (traffic_rows_keys _ t Hwf).
  - intros r Hr. apply elem_of_ack_states in Hr as [_ Hk]; eauto.
  - unfold ack_states. rewrite merge_sort_Permutation. by apply NoDup_traffic_select.
Qed.

(** The row an acknowledgement leaves behind. *)
Definition apply_new (ack : gmap string AcknowledgedUsage) (state : ConnectionTrafficState)
    (_ : option ConnectionTrafficState) : result ConnectionTrafficState :=
  match ack !! ct_ConnectionID state with
  | None => Err "usage acknowledgement misses connection"
  | Some accepted =>
      if ((ct_UnacknowledgedRXBytes state <? ct_SentRXBytes state) ||
          (ct_UnacknowledgedTXBytes state <? ct_SentTXBytes state))%Z
      then Err "invalid persisted traffic state"
      else if ((ack_RXBytes accepted <? ct_SentRXBytes state) ||
               (ack_TXBytes accepted <? ct_SentTXBytes state))%Z
      then Err "authoritative usage is lower than sent usage for connection"
      else checked (ack_row accepted state)
  end.

Lemma apply_ack_keyed ack t state :
  apply_ack ack t state =
  v ← apply_new ack state (t !! ct_ConnectionID state); Ok (<[ct_ConnectionID state := v]> t).
Proof.
  unfold apply_ack, apply_new. destruct (ack !! _); [|done]. by repeat destruct (_ || _).
Qed.

(** Traffic sent for a row and the acknowledged totals that cover it. *)
Definition covers (a : AcknowledgedUsage) (r : ConnectionTrafficState) : Prop :=
  (ct_SentRXBytes r ≤ ack_RXBytes a ∧ ct_SentTXBytes r ≤ ack_TXBytes a)%Z.

Lemma apply_new_Ok ack state o v :
  apply_new ack state o = Ok v →
  ∃ a, ack !! ct_ConnectionID state = Some a ∧ covers a state ∧ v = ack_row a state.
Proof.
  unfold apply_new, checked, covers. destruct (ack !! _) as [a|]; [|done].
  destruct (_ || _)%Z; [done|]. destruct (_ || _)%Z eqn:E; [done|].
  apply orb_false_iff in E as [E1%Z.ltb_ge E2%Z.ltb_ge].
  destruct (traffic_check _); [|done]. intros [= <-]. eauto.
Qed.

Lemma apply_new_total ack state o a requestID :
  traffic_check state = true → ct_RequestID state = Some requestID →
  ack !! ct_ConnectionID state = Some a → covers a state → ack_valid a →
  apply_new ack state o = Ok (ack_row a state).
Proof.
  intros Hc Hreq Ha [Hrx Htx] (_ & Hr0 & Ht0). unfold apply_new, checked. rewrite Ha.
  assert (Hchk : traffic_check (ack_row a state) = true) by traffic_solve.
  apply traffic_check_spec in Hc. rewrite Hreq in Hc.
  rewrite !(proj2 (Z.ltb_ge _ _)) by lia. cbn. by rewrite Hchk.
Qed.

Lemma AcknowledgeUsage_Ok requestID records t t' :
  traffic_wf t → AcknowledgeUsage requestID records t = Ok t' →
  ∀ k, match t !! k with
       | None => t' !! k = None
       | Some r =>
           if prepared_for requestID r
           then ∃ a, a ∈ records ∧ ack_ConnectionID a = k ∧ ack_valid a ∧ covers a r ∧
                     t' !! k = Some (ack_row a r)
           else t' !! k = Some r
       end.
Proof.
  intros Hwf. unfold AcknowledgeUsage. fold (ack_states requestID t).
  intros (ack & Hack & Hrun)%bind_Ok k.
  assert (Hprep : ∀ r, t !! k = Some r → prepared_for requestID r = true ↔ r ∈ ack_states requestID t).
  { intros r Hr. rewrite elem_of_ack_states by done. unfold prepared_for.
    rewrite bool_decide_eq_true. destruct (Hwf _ _ Hr) as [-> _]. tauto. }
  case_bool_decide as Hnil.
  { simplify_eq. destruct (t' !! k) as [r|] eqn:Hr; [|done].
    destruct (prepared_for requestID r) eqn:Hp; [|done].
    apply Hprep in Hp; [|done]. rewrite Hnil in Hp. by apply elem_of_nil in Hp. }
  destruct (negb _); [done|].
  destruct (foldlR_keyed_Ok ct_ConnectionID _ _ (apply_ack_keyed ack) _ _ _
              (ack_states_keys requestID t Hwf) Hrun) as [Hin Hout].
  destruct (t !! k) as [r|] eqn:Hr.
  - destruct (Hwf _ _ Hr) as [<- _]. destruct (prepared_for requestID r) eqn:Hp.
    + apply Hprep in Hp; [|done]. destruct (Hin r Hp) as (v & Hv & Hl).
      apply apply_new_Ok in Hv as (a & Ha & Hcov & ->).
      destruct (collect_ack_Ok _ _ Hack _ _ Ha) as (Hel & Hk & Hval). eauto 10.
    + rewrite Hout, Hr; [done|]. intros (r' & Hk & Hr')%list_elem_of_fmap.
      apply elem_of_ack_states in Hr' as [Hreq Hk']; [|done]. rewrite <-Hk, Hr in Hk'. simplify_eq.
      unfold prepared_for in Hp. by rewrite bool_decide_eq_true_2 in Hp.
  - rewrite Hout, Hr; [done|]. intros (r' & Hk & Hr')%list_elem_of_fmap.
    apply elem_of_ack_states in Hr' as [_ Hk']; [|done]. by rewrite <-Hk, Hr in Hk'.
Qed.

Definition ack_in_range (a : AcknowledgedUsage) : Prop :=
  (ack_RXBytes a ≤ max_int64 ∧ ack_TXBytes a ≤ max_int64)%Z.

Lemma AcknowledgeUsage_wf requestID records t t' :
  traffic_wf t → Forall ack_in_range records →
  AcknowledgeUsage requestID records t = Ok t' → traffic_wf t'.
Proof.
  intros Hwf Hin Hok k r' Hr'. pose proof (AcknowledgeUsage_Ok _ _ _ _ Hwf Hok k) as Hk.
  destruct (t !! k) as [r|] eqn:Hr; [|by rewrite Hk in Hr'].
  destruct (Hwf _ _ Hr) as (Hid & Hc & Hb).
  destruct (prepared_for requestID r) eqn:Hp.
  - destruct Hk as (a & Ha & _ & (_ & Hval) & [Hc1 Hc2] & Hl). rewrite Hr' in Hl. simplify_eq.
    rewrite list.Forall_forall in Hin. specialize (Hin _ Ha). unfold ack_in_range in Hin.
    apply bool_decide_eq_true in Hp.
    split_and!; [done|traffic_solve|]. apply traffic_check_spec in Hc. rewrite Hp in Hc.
    unfold row_in_range in *. simpl. unfold max_int64 in *. lia.
  - rewrite Hk in Hr'. by simplify_eq.
Qed.

Lemma ack_states_perm requestID records t :
  traffic_wf t → NoDup (ack_ConnectionID <$> records) →
  (∀ k, k ∈ ack_ConnectionID <$> records ↔
        ∃ r, t !! k = Some r ∧ ct_RequestID r = Some requestID) →
  ct_ConnectionID <$> ack_states requestID t ≡ₚ ack_ConnectionID <$> records.
Proof.
  intros Hwf Hnd Hkeys. apply NoDup_Permutation; [by apply ack_states_keys|done|].
  intros k. rewrite Hkeys, list_elem_of_fmap. split.
  - intros (r & -> & Hr). apply elem_of_ack_states in Hr as [? ?]; eauto.
  - intros (r & Hr & Hreq). exists r. destruct (Hwf _ _ Hr) as [<- _]. split; [done|].
    by apply elem_of_ack_states.
Qed.

(** An acknowledgement that names exactly the connections frozen for the
    request, each once, with totals that are not below what was sent, is
    accepted: the sent bytes leave the unacknowledged counters, the totals are
    recorded, the connections are free for the next request, and every other
    row stays as it is. *)
Lemma AcknowledgeUsage_settles requestID records t :
  traffic_wf t → NoDup (ack_ConnectionID <$> records) → Forall ack_valid records →
  (∀ k, k ∈ ack_ConnectionID <$> records ↔
        ∃ r, t !! k = Some r ∧ ct_RequestID r = Some requestID) →
  (∀ a r, a ∈ records → t !! ack_ConnectionID a = Some r → covers a r) →
  ∃ t', AcknowledgeUsage requestID records t = Ok t' ∧
    (∀ a r, a ∈ records → t !! ack_ConnectionID a = Some r →
            t' !! ack_ConnectionID a = Some (ack_row a r)) ∧
    (∀ k, k ∉ ack_ConnectionID <$> records → t' !! k = t !! k).
Proof.
  intros Hwf Hnd Hval Hkeys Hcov.
  destruct (collect_ack_total records Hnd Hval) as (ack & Hack & Hsize & Hlook).
  pose proof (ack_states_perm requestID records t Hwf Hnd Hkeys) as Hst.
  assert (Hnew : ∀ r, r ∈ ack_states requestID t → ∃ a, a ∈ records ∧
            ack_ConnectionID a = ct_ConnectionID r ∧
            apply_new ack r (t !! ct_ConnectionID r) = Ok (ack_row a r)).
  { intros r Hr. pose proof Hr as [Hreq Hk]%elem_of_ack_states; [|done].
    apply (list_elem_of_fmap_2 ct_ConnectionID) in Hr. rewrite Hst in Hr.
    apply list_elem_of_fmap in Hr as (a & Hid & Ha). exists a. split_and!; [done..|].
    rewrite list.Forall_forall in Hval.
    apply (apply_new_total _ _ _ _ requestID); [by destruct (Hwf _ _ Hk) as (_ & ? & _)|done| | |auto].
    - rewrite Hid. by apply Hlook.
    - apply Hcov; [done|]. by rewrite <-Hid. }
  destruct (foldlR_keyed_total ct_ConnectionID _ _ (apply_ack_keyed ack) (ack_states requestID t) t
              (ack_states_keys requestID t Hwf)) as [t' Ht'].
  { intros r Hr. destruct (Hnew r Hr) as (a & _ & _ & ?). eauto. }
  destruct (foldlR_keyed_Ok ct_ConnectionID _ _ (apply_ack_keyed ack) _ _ _
              (ack_states_keys requestID t Hwf) Ht') as [Hin Hout].
  exists t'. split_and!.
  - unfold AcknowledgeUsage. rewrite Hack. cbn [mbind result_bind]. fold (ack_states requestID t).
    case_bool_decide as Hnil; [rewrite Hnil in Ht'; by simplify_eq/=|].
    rewrite Hsize, <-(length_fmap ack_ConnectionID), <-Hst, length_fmap, Nat.eqb_refl. done.
  - intros a r Ha Hr.
    assert (Hel : r ∈ ack_states requestID t).
    { apply (list_elem_of_fmap_2 ack_ConnectionID) in Ha. apply Hkeys in Ha as (r' & Hr' & Hreq).
      assert (r' = r) as -> by congruence. apply elem_of_ack_states; [done|]. by destruct (Hwf _ _ Hr) as [-> _]. }
    destruct (Hin r Hel) as (v & Hv & Hl). destruct (Hnew r Hel) as (a' & Ha' & Hid & Hnewr).
    rewrite Hnewr in Hv. simplify_eq. destruct (Hwf _ _ Hr) as [E _].
    assert (a' = a) as ->. { pose proof (Hlook _ Ha). pose proof (Hlook _ Ha'). congruence. }
    by rewrite <-E.
  - intros k Hk. apply Hout. by rewrite Hst.
Qed.

(** ** Prepared requests grouped into batches *)
Definition request_of (r : ConnectionTrafficState) : string := default "" (ct_RequestID r).

Definition records_for (requestID : string) (rows : list ConnectionTrafficState)
    : list UsageRecord :=
  sent_record <$> filter (fun r => request_of r = requestID) rows.

(** The batches built from the rows read so far. *)
Record grouped (nodeID : string) (rows : list ConnectionTrafficState)
    (acc : gmap string nat * list UsageBatch) : Prop := {
  gr_index : ∀ R i, acc.1 !! R = Some i →
    acc.2 !! i = Some (mkUsageBatch R nodeID 0 0 (records_for R rows) 0);
  gr_batch : ∀ i b, acc.2 !! i = Some b → acc.1 !! ub_RequestID b = Some i;
  gr_rows : ∀ R, is_Some (acc.1 !! R) ↔ R ∈ request_of <$> rows;
}.

Lemma records_for_snoc R rows r :
  records_for R (rows ++ [r]) =
  records_for R rows ++ (if bool_decide (request_of r = R) then [sent_record r] else []).
Proof.
  unfold records_for. rewrite list.filter_app, fmap_app, list.filter_cons, filter_nil.
  case_decide; case_bool_decide; done.
Qed.

Lemma records_for_other R rows r :
  request_of r ≠ R → records_for R (rows ++ [r]) = records_for R rows.
Proof.
  intros Hne. rewrite records_for_snoc, bool_decide_eq_false_2 by done. apply app_nil_r.
Qed.

Lemma records_for_same rows r :
  records_for (request_of r) (rows ++ [r]) = records_for (request_of r) rows ++ [sent_record r].
Proof. rewrite records_for_snoc. by rewrite bool_decide_eq_true_2. Qed.

Lemma records_for_none R rows : R ∉ request_of <$> rows → records_for R rows = [].
Proof.
  unfold records_for. induction rows as [|r l IH]; [done|].
  rewrite fmap_cons, not_elem_of_cons, filter_cons. intros [Hne Hl].
  rewrite decide_False by done. auto.
Qed.

Lemma grouped_old nodeID rows byID out r i :
  grouped nodeID rows (byID, out) → byID !! request_of r = Some i →
  grouped nodeID (rows ++ [r]) (byID, alter (append_record (sent_record r)) i out).
Proof.
  intros [Hi Hb Hr] E. cbn [fst snd] in *. split; cbn [fst snd].
  - intros R i' E'. destruct (decide (request_of r = R)) as [<-|Hne].
    + rewrite E in E'. simplify_eq. rewrite list_lookup_alter_eq, (Hi _ _ E), records_for_same. done.
    + rewrite records_for_other, list_lookup_alter_ne by (done || (intros ->;
        pose proof (Hi _ _ E) as H1; rewrite (Hi _ _ E') in H1; by simplify_eq)). by apply Hi.
  - intros i' b' Hl. destruct (decide (i = i')) as [<-|Hne].
    + rewrite list_lookup_alter_eq, (Hi _ _ E) in Hl. by simplify_eq/=.
    + rewrite list_lookup_alter_ne in Hl by done. by apply Hb.
  - intros R. rewrite fmap_app, elem_of_app, Hr. cbn. rewrite list_elem_of_singleton.
    split; [by left|]. intros [?| ->]; [done|]. apply Hr. by rewrite E.
Qed.

Lemma grouped_new nodeID rows byID out r :
  grouped nodeID rows (byID, out) → byID !! request_of r = None →
  grouped nodeID (rows ++ [r])
    (<[request_of r := length out]> byID,
     alter (append_record (sent_record r)) (length out)
       (out ++ [mkUsageBatch (request_of r) nodeID 0 0 [] 0])).
Proof.
  intros [Hi Hb Hr] E. cbn [fst snd] in *.
  assert (HR : records_for (request_of r) rows = []).
  { apply records_for_none. rewrite <-Hr, E. by intros []. }
  split; cbn [fst snd].
  - intros R i' E'. destruct (decide (request_of r = R)) as [<-|Hne].
    + rewrite lookup_insert_eq in E'. simplify_eq.
      rewrite list_lookup_alter_eq, lookup_app_r, Nat.sub_diag, records_for_same, HR by lia. done.
    + rewrite lookup_insert_ne in E' by done. rewrite records_for_other by done.
      pose proof (Hi _ _ E') as Hl. pose proof (lookup_lt_Some _ _ _ Hl).
      rewrite list_lookup_alter_ne, lookup_app_l by lia. done.
  - intros i' b' Hl. destruct (decide (length out = i')) as [<-|Hne].
    + rewrite list_lookup_alter_eq, lookup_app_r, Nat.sub_diag in Hl by lia. simplify_eq/=.
      by rewrite lookup_insert_eq.
    + rewrite list_lookup_alter_ne in Hl by done.
      apply lookup_app_Some in Hl as [Hl|[Hge Hl]].
      * rewrite lookup_insert_ne; [by apply Hb|]. intros Heq. apply Hb in Hl. congruence.
      * apply list_lookup_singleton_Some in Hl as [Hz _]. lia.
  - intros R. rewrite fmap_app, elem_of_app, <-Hr. cbn. rewrite list_elem_of_singleton.
    destruct (decide (request_of r = R)) as [<-|Hne].
    + rewrite lookup_insert_eq. split; eauto.
    + rewrite lookup_insert_ne by done. split; [by left|]. intros [?| ->]; done.
Qed.

Lemma grouped_fold nodeID done_ rows acc :
  grouped nodeID done_ acc → grouped nodeID (done_ ++ rows) (foldl (group_row nodeID) acc rows).
Proof.
  revert done_ acc. induction rows as [|r rows IH]; intros done_ acc Hg.
  { by rewrite app_nil_r. }
  rewrite cons_middle, app_assoc. cbn [foldl]. apply IH. destruct acc as [byID out].
  unfold group_row. fold (request_of r).
  destruct (byID !! request_of r) eqn:E; [by apply grouped_old|by apply grouped_new].
Qed.

Definition prepared_rows (t : traffic_table) : list ConnectionTrafficState :=
  merge_sort prepared_le (sql_select (fun r => bool_decide (ct_RequestID r ≠ None)) t).

Lemma elem_of_prepared_rows t r :
  traffic_wf t →
  r ∈ prepared_rows t ↔ t !! ct_ConnectionID r = Some r ∧ ct_RequestID r ≠ None.
Proof.
  intros Hwf. unfold prepared_rows. rewrite merge_sort_Permutation, elem_of_sql_select.
  rewrite bool_decide_eq_true. split; [|intros []; eauto].
  intros [Hr [k Hk]]. by destruct (Hwf _ _ Hk) as [-> _].
Qed.

(** [ListPreparedUsageRequests] has one batch for each frozen request, with
    the sent bytes of exactly the connections frozen for it. *)
Lemma elem_of_ListPrepared nodeID t b :
  traffic_wf t →
  b ∈ ListPreparedUsageRequests nodeID t ↔
  ub_RequestID b ∈ request_of <$> prepared_rows t ∧
  b = mkUsageBatch (ub_RequestID b) nodeID 0 0 (records_for (ub_RequestID b) (prepared_rows t)) 0.
Proof.
  intros Hwf. unfold ListPreparedUsageRequests. fold (prepared_rows t).
  assert (Hg : grouped nodeID ([] ++ prepared_rows t)
                 (foldl (group_row nodeID) (∅, []) (prepared_rows t))).
  { apply grouped_fold. split; cbn.
    - intros R i. by rewrite lookup_empty.
    - intros i b'. by rewrite lookup_nil.
    - intros R. rewrite lookup_empty, elem_of_nil. split; [by intros []|done]. }
  destruct Hg as [Hi Hb Hr]. cbn [app] in *. split.
  - intros [i Hl]%list_elem_of_lookup. pose proof (Hb _ _ Hl) as Hx.
    split; [apply Hr; eauto|]. rewrite (Hi _ _ Hx) in Hl. by simplify_eq/=.
  - intros [HR ->]. apply Hr in HR as [i HR]. apply Hi in HR. cbn in *.
    by eapply list_elem_of_lookup_2.
Qed.

Lemma ObserveTraffic_safe_witness :
  match ObserveTraffic (mkTrafficSnapshot 0 [mkUsageRecord "c1" 20 10]) ∅ with
  | Ok t' => traffic_wf t'
  | Err e => e = "traffic snapshot contains invalid values" ∨ e = "traffic counter overflow"
  end.
Proof.
  apply (ObserveTraffic_safe (mkTrafficSnapshot 0 [mkUsageRecord "c1" 20 10]) ∅).
  - by intros k r ?%lookup_empty_Some.
  - repeat constructor; vm_compute; discriminate.
Defined.

(** ** Full snapshots *)
Lemma insert_auth_users_Ok l t t' :
  foldlR insert_auth_user l t = Ok t' → t' = foldl (fun t u => <[u_ConnectionID u := u]> t) t l.
Proof.
  revert t; induction l as [|u l IH]; intros t; simpl; [by intros [= <-]|].
  intros (t1 & Ht1 & Hl)%bind_Ok. apply IH in Hl as ->. f_equal.
  unfold insert_auth_user, put_auth_user in Ht1. repeat case_match; by simplify_eq.
Qed.

Lemma insert_fold_lookup_other l (t : gmap string AuthUser) id :
  id ∉ u_ConnectionID <$> l → foldl (fun t u => <[u_ConnectionID u := u]> t) t l !! id = t !! id.
Proof.
  revert t; induction l as [|u l IH]; intros t Hid; csimpl in *; [done|].
  apply not_elem_of_cons in Hid as [Hne Hid]. rewrite IH by done. by rewrite lookup_insert_ne.
Qed.

Lemma insert_fold_lookup l (t : gmap string AuthUser) u :
  NoDup (u_ConnectionID <$> l) → u ∈ l →
  foldl (fun t u => <[u_ConnectionID u := u]> t) t l !! u_ConnectionID u = Some u.
Proof.
  revert t; induction l as [|v l IH]; intros t Hnd Hu; csimpl in *; [by apply elem_of_nil in Hu|].
  apply list.NoDup_cons in Hnd as [Hni Hnd]. apply elem_of_cons in Hu as [->|Hu]; [|by apply IH].
  rewrite insert_fold_lookup_other by done. by rewrite lookup_insert_eq.
Qed.

(** A snapshot that is accepted replaces the credentials and the cursor. *)
Lemma ApplyFullAuthSnapshot_Ok keep cursorKey cursorMS db db' :
  (∀ id u, keep !! id = Some u → u_ConnectionID u = id) →
  ApplyFullAuthSnapshot keep cursorKey cursorMS db = Ok db' →
  auth_users db' = keep ∧
  sync_state db' = <[cursorKey := Strconv.FormatInt cursorMS]> (sync_state db).
Proof.
  intros Hkey. unfold ApplyFullAuthSnapshot. intros (t & ->%insert_auth_users_Ok & [= <-])%bind_Ok.
  split; [|done]. cbn [auth_users set_auth_users set_sync_state]. apply map_eq. intros id.
  assert (Hids : u_ConnectionID <$> (map_to_list keep).*2 = (map_to_list keep).*1).
  { rewrite <-list_fmap_compose. apply list_fmap_ext. intros i [k u] Hk. simpl. apply Hkey.
    apply elem_of_map_to_list. by eapply list_elem_of_lookup_2. }
  destruct (keep !! id) as [u|] eqn:E.
  - rewrite <-(Hkey _ _ E) at 1. apply insert_fold_lookup.
    + rewrite Hids. apply NoDup_fst_map_to_list.
    + apply list_elem_of_fmap. exists (id, u). by rewrite elem_of_map_to_list.
  - rewrite insert_fold_lookup_other; [by rewrite lookup_empty|]. rewrite Hids.
    intros ([k u] & -> & Hk)%list_elem_of_fmap. apply elem_of_map_to_list in Hk. simpl in *. congruence.
Qed.
