(* ===== verification/UsageQueue.v ===== *)
(** * UsageQueue: handing traffic over to the outbox

    [src/internal/agent/common/usage_queue.go] and [flushUsage] of
    [src/internal/agent/common/processor.go]: traffic rows are frozen in the
    agent database, then a durable outbox message is inserted for each frozen
    request, sent to the server and settled by its acknowledgement.  The JSON
    encoding of a batch is used through the class [UsageBatchCodec], request
    identifiers come from a [uuid] stream and the clock from [clock]; [tick]
    counts the readings of both.

    Proved here: [EnsureOutbox] terminates and leaves no unacknowledged byte
    outside a request with an outbox message; decoding a message gives back
    the batch it was made from. *)

From Stdlib Require Import Ascii.
From S2P Require Import Prelude GoLib Sql Queue AgentStore ServerTelemetry.

Definition usageRecordsPerMessage : Z := 100.

(** ** The encoding of batches

    [json.Marshal] writes every batch, and reads back what it wrote when the
    identifiers are ASCII text; an empty payload is not JSON. *)
Fixpoint ascii_text (s : string) : bool :=
  match s with
  | EmptyString => true
  | String c s => (Ascii.nat_of_ascii c <? 128) && ascii_text s
  end.

Definition batch_text (b : UsageBatch) : bool :=
  ascii_text (ub_RequestID b) && ascii_text (ub_NodeID b) &&
  forallb (fun r => ascii_text (ur_ConnectionID r)) (ub_Records b).

Class UsageBatchCodec := {
  marshal_batch : UsageBatch → result string;
  unmarshal_batch : string → result UsageBatch;
  marshal_batch_total b : batch_text b = true → ∃ raw, marshal_batch b = Ok raw;
  unmarshal_marshal_batch b raw :
    batch_text b = true → marshal_batch b = Ok raw → unmarshal_batch raw = Ok b;
  unmarshal_empty : ∀ b, unmarshal_batch "" ≠ Ok b;
}.

Section UsageQueue.
Context `{!UsageBatchCodec} (nodeID : string) (uuid : nat → string) (clock : nat → time).

(** ** Enqueueing *)
Definition stamp (now : time) (b : UsageBatch) : UsageBatch :=
  let created := if (ub_CreatedMS b =? 0)%Z then TimeUnixMilli now else ub_CreatedMS b in
  let to_ := if (ub_ToMS b =? 0)%Z then TimeUnixMilli now else ub_ToMS b in
  let from := if (ub_FromMS b =? 0)%Z then to_ else ub_FromMS b in
  mkUsageBatch (ub_RequestID b) (ub_NodeID b) from to_ (ub_Records b) created.

Definition usage_message (now : time) (b : UsageBatch) (raw : string) : Message :=
  mkMessage (ub_RequestID b) nodeID DirectionOutbound "traffic_batch" raw StatusPending now
            zero_time zero_time zero_time "" "".

Definition enqueue (now : time) (b : UsageBatch) (tr : SQLStore) : result SQLStore :=
  if bool_decide (ub_RequestID b = "") || bool_decide (length (ub_Records b) = 0)
  then Err "prepared traffic request is invalid"
  else
    raw ← marshal_batch (stamp now b);
    Ok (EnqueueIfAbsent now (usage_message now b raw) tr).

(** Every statement commits on its own, so an error comes with the state that
    was reached before it. *)
Definition qstate : Type := nat * traffic_table * SQLStore.

(** Each batch is enqueued at its own reading of the clock. *)
Fixpoint enqueue_all (bs : list UsageBatch) (tick : nat) (tr : SQLStore)
    : nat * SQLStore * option error :=
  match bs with
  | [] => (tick, tr, None)
  | b :: bs =>
      match enqueue (clock tick) b tr with
      | Err e => (S tick, tr, Some e)
      | Ok tr => enqueue_all bs (S tick) tr
      end
  end.

(** The loop of [EnsureOutbox]; [None] when the fuel runs out. *)
Fixpoint prepare_loop (fuel tick : nat) (t : traffic_table) (tr : SQLStore)
    : option (qstate * option error) :=
  match fuel with
  | 0 => None
  | S fuel =>
      match PrepareUsageRequest (uuid tick) nodeID usageRecordsPerMessage t with
      | Err e => Some (S tick, t, tr, Some e)
      | Ok (None, t) => Some (S tick, t, tr, None)
      | Ok (Some b, t) =>
          match enqueue (clock tick) b tr with
          | Err e => Some (S tick, t, tr, Some e)
          | Ok tr => prepare_loop fuel (S tick) t tr
          end
      end
  end.

(** Each round of the loop prepares a row, so one round more than there are
    rows to prepare is enough. *)
Definition pending_rows (t : traffic_table) : nat := length (sql_select unprepared t).

Definition EnsureOutbox (tick : nat) (t : traffic_table) (tr : SQLStore)
    : option (qstate * option error) :=
  let '(tick, tr, e) := enqueue_all (ListPreparedUsageRequests nodeID t) tick tr in
  match e with
  | Some e => Some (tick, t, tr, Some e)
  | None => prepare_loop (S (pending_rows t)) tick t tr
  end.

(** ** Sending and settling *)
Definition List_ (tick : nat) (limit : Z) (t : traffic_table) (tr : SQLStore)
    : option (list Message * qstate * option error) :=
  '(tick, t, tr, e) ← EnsureOutbox tick t tr;
  match e with
  | Some e => Some ([], (tick, t, tr), Some e)
  | None =>
      let '(msgs, tr) := LeasePending (clock tick) nodeID limit Minute tr in
      Some (msgs, (S tick, t, tr), None)
  end.

(** [marshal_ack_json] is [json.Marshal] of the acknowledgement, whose text
    only ends up in the result column. *)
Definition Ack (marshal_ack_json : UsageAck → string) (requestID : string) (ack : option UsageAck)
    (t : traffic_table) (tr : SQLStore) : result (traffic_table * SQLStore) :=
  match ack with
  | None => Err "usage acknowledgement was rejected"
  | Some ack =>
      if negb (ua_Ok ack) then Err "usage acknowledgement was rejected"
      else
        t ← AcknowledgeUsage requestID (ua_Records ack) t;
        Ok (t, MarkAcked requestID (marshal_ack_json ack) tr)
  end.

Definition Fail (now : time) (requestID errMsg : string) (tr : SQLStore) : SQLStore :=
  MarkFailed now requestID errMsg (Add now Minute) tr.

Definition decodeUsageBatch (msg : Message) : result UsageBatch :=
  b ← unmarshal_batch (m_Payload msg);
  if bool_decide (ub_RequestID b = m_ID msg) then Ok b
  else Err "traffic payload request_id does not match outbox id".

(** One round of [flushUsage] over the leased messages.  [send] is the round
    trip to the server; a refused or failed batch ends the round, an
    acknowledgement that cannot be settled is only logged. *)
Fixpoint flush_messages (marshal_ack_json : UsageAck → string)
    (send : string → UsageBatch → result UsageAck) (msgs : list Message)
    (tick : nat) (t : traffic_table) (tr : SQLStore) : qstate :=
  match msgs with
  | [] => (tick, t, tr)
  | msg :: msgs =>
      match decodeUsageBatch msg with
      | Err e => flush_messages marshal_ack_json send msgs (S tick) t
                   (Fail (clock tick) (m_ID msg) e tr)
      | Ok b =>
          match send (m_ID msg) b with
          | Err e => (S tick, t, Fail (clock tick) (m_ID msg) e tr)
          | Ok ack =>
              if negb (ua_Ok ack)
              then (S tick, t, Fail (clock tick) (m_ID msg) "usage batch rejected" tr)
              else match Ack marshal_ack_json (m_ID msg) (Some ack) t tr with
                   | Ok (t, tr) => flush_messages marshal_ack_json send msgs tick t tr
                   | Err _ => flush_messages marshal_ack_json send msgs tick t tr
                   end
          end
      end
  end.

Definition flushUsage (marshal_ack_json : UsageAck → string)
    (send : string → UsageBatch → result UsageAck) (tick : nat) (t : traffic_table)
    (tr : SQLStore) : option qstate :=
  '(msgs, (tick, t, tr), e) ← List_ tick 100 t tr;
  match e with
  | Some _ => Some (tick, t, tr)
  | None => Some (flush_messages marshal_ack_json send msgs tick t tr)
  end.

(** ** Progress of the loop *)
Lemma pending_rows_frozen requestID rows t t' :
  traffic_wf t → (∀ k, t' !! k = frozen requestID rows <$> t !! k) →
  rows ≠ [] → (∀ r, r ∈ rows → r ∈ sql_select unprepared t) →
  pending_rows t' < pending_rows t.
Proof.
  intros Hwf Ht' Hne Hrows. destruct rows as [|x rows]; [done|]. unfold pending_rows.
  pose proof (frozen_wf _ _ _ _ Hwf Ht') as Hwf'.
  assert (Hsel : ∀ r, r ∈ sql_select unprepared t' → r ∈ sql_select unprepared t ∧ r ∉ x :: rows).
  { intros r' [Hu [k Hk]]%elem_of_sql_select. rewrite Ht' in Hk.
    apply fmap_Some in Hk as (r & Hr & ->). unfold frozen in *. case_bool_decide as Hin.
    - unfold unprepared in Hu. by rewrite bool_decide_eq_false_2 in Hu.
    - split; [|done]. apply elem_of_sql_select. eauto. }
  apply (submseteq_length (x :: sql_select unprepared t')). apply NoDup_submseteq.
  - constructor; [|by apply NoDup_traffic_select]. intros Hx. apply Hsel in Hx as [_ Hx].
    apply Hx. left.
  - intros r [->|Hr]%elem_of_cons; [apply Hrows; left|by apply Hsel].
Qed.

(** Identifiers in the traffic table are text and not empty. *)
Definition text_table (t : traffic_table) : Prop :=
  ∀ k r, t !! k = Some r → (k ≠ "" ∧ ascii_text k = true) ∧
    ∀ R, ct_RequestID r = Some R → R ≠ "" ∧ ascii_text R = true.

Context (Hnode : ascii_text nodeID = true).
Context (Huuid : ∀ i, uuid i ≠ "" ∧ ascii_text (uuid i) = true).

Lemma batch_text_stamp now b : batch_text (stamp now b) = batch_text b.
Proof. done. Qed.

Lemma enqueue_total now b tr :
  batch_text b = true → ub_RequestID b ≠ "" → ub_Records b ≠ [] →
  ∃ raw, marshal_batch (stamp now b) = Ok raw ∧
         enqueue now b tr = Ok (EnqueueIfAbsent now (usage_message now b raw) tr).
Proof.
  intros Ht Hid Hne. destruct (marshal_batch_total (stamp now b)) as [raw Hraw]; [done|].
  exists raw. split; [done|]. unfold enqueue. rewrite !bool_decide_eq_false_2, Hraw; [done| |done].
  by destruct (ub_Records b).
Qed.

Definition in_outbox (R : string) (tr : SQLStore) : Prop := is_Some (outbox tr !! (nodeID, R)).

Lemma in_outbox_enqueue now b raw tr R :
  in_outbox R tr ∨ R = ub_RequestID b →
  in_outbox R (EnqueueIfAbsent now (usage_message now b raw) tr).
Proof.
  intros HR. unfold in_outbox, EnqueueIfAbsent, writeMessage. cbn [outbox].
  rewrite lookup_sql_insert_if_absent. cbn. case_decide as E; [by eauto|].
  destruct HR as [?| ->]; [done|]. by destruct E.
Qed.

Lemma enqueue_all_total bs tick tr :
  (∀ b, b ∈ bs → batch_text b = true ∧ ub_RequestID b ≠ "" ∧ ub_Records b ≠ []) →
  ∃ tick' tr', enqueue_all bs tick tr = (tick', tr', None) ∧
    ∀ R, in_outbox R tr ∨ R ∈ ub_RequestID <$> bs → in_outbox R tr'.
Proof.
  revert tick tr. induction bs as [|b bs IH]; intros tick tr Hbs; cbn [enqueue_all].
  { eexists _, _. split; [done|]. intros R [?|?%elem_of_nil]; done. }
  destruct (Hbs b) as (Ht & Hid & Hne); [left|].
  destruct (enqueue_total (clock tick) b tr Ht Hid Hne) as (raw & _ & ->).
  destruct (IH (S tick) (EnqueueIfAbsent (clock tick) (usage_message (clock tick) b raw) tr))
    as (tick' & tr' & -> & Hin); [intros b' Hb'; apply Hbs; by right|].
  eexists _, _. split; [done|]. intros R HR. apply Hin. rewrite fmap_cons, elem_of_cons in HR.
  destruct HR as [?|[?|?]]; [left..|by right]; apply in_outbox_enqueue; auto.
Qed.

(** What a run of the loop leaves behind: rows differ from before only by
    being frozen, none is left to prepare, and every request that was in the
    outbox, or frozen by the loop, has a message. *)
Definition prepared_all (t t' : traffic_table) (tr tr' : SQLStore) : Prop :=
  traffic_wf t' ∧ text_table t' ∧ sql_select unprepared t' = [] ∧
  (∀ k, match t !! k with
        | Some r => t' !! k = Some r ∨ ∃ R, t' !! k = Some (freeze_row R r) ∧ in_outbox R tr'
        | None => t' !! k = None
        end) ∧
  (∀ R, in_outbox R tr → in_outbox R tr').

Lemma text_table_frozen R rows t t' :
  R ≠ "" → ascii_text R = true → text_table t →
  (∀ k, t' !! k = frozen R rows <$> t !! k) → text_table t'.
Proof.
  intros Hne HR Htx Ht' k r'. rewrite Ht'. intros (r & Hr & ->)%fmap_Some.
  destruct (Htx _ _ Hr) as [Hk Hreq]. split; [done|]. unfold frozen.
  case_bool_decide; [|apply Hreq]. cbn. by intros R' [= <-].
Qed.

Lemma prepared_batch_text R limit t :
  ascii_text R = true → traffic_wf t → text_table t →
  batch_text (mkUsageBatch R nodeID 0 0 (unacknowledged_record <$> prepare_rows limit t) 0) = true.
Proof.
  intros HR Hwf Htx. unfold batch_text. cbn. rewrite HR, Hnode. cbn. apply forallb_forall.
  intros x Hx%list_elem_of_In. apply list_elem_of_fmap in Hx as (r & -> & Hr).
  destruct (elem_of_prepare_rows _ _ _ Hwf Hr) as [_ Hk]. by destruct (Htx _ _ Hk) as [[_ ?] _].
Qed.

Lemma prepare_loop_total fuel tick t tr :
  pending_rows t < fuel → traffic_wf t → text_table t →
  ∃ tick' t' tr', prepare_loop fuel tick t tr = Some (tick', t', tr', None) ∧
                  prepared_all t t' tr tr'.
Proof.
  revert tick t tr. induction fuel as [|fuel IH]; intros tick t tr Hf Hwf Htx; [lia|].
  destruct (Huuid tick) as [Hne Hasc]. cbn [prepare_loop].
  destruct (PrepareUsageRequest_eq (uuid tick) nodeID usageRecordsPerMessage t Hwf Hne)
    as [[Hnil ->]|[Hrows (t1 & -> & Ht1)]].
  { eexists _, _, _. split; [done|]. split_and!; [done..| | |done].
    - destruct (sql_select unprepared t) as [|r l] eqn:E; [done|].
      unfold prepare_rows, sql_order_limit in Hnil. rewrite E in Hnil.
      pose proof (merge_sort_Permutation traffic_le (r :: l)) as Hp.
      destruct (merge_sort traffic_le (r :: l)); [by apply Permutation_nil_l in Hp|done].
    - intros k. destruct (t !! k); auto. }
  set (rows := prepare_rows usageRecordsPerMessage t) in *.
  set (b := mkUsageBatch _ _ _ _ _ _).
  destruct (enqueue_total (clock tick) b tr) as (raw & _ & ->);
    [by apply prepared_batch_text|done|by intros ?%fmap_nil_inv|].
  set (tr1 := EnqueueIfAbsent _ _ tr).
  destruct (IH (S tick) t1 tr1) as (tick' & t' & tr' & -> & Hwf' & Htx' & Hsel & Hk & Hout).
  { assert (pending_rows t1 < pending_rows t); [|lia].
    eapply pending_rows_frozen; [done..|]. intros r Hr. by apply sql_order_limit_elem in Hr. }
  { by eapply frozen_wf. }
  { by eapply text_table_frozen. }
  eexists _, _, _. split; [done|]. split_and!; [done..| |].
  - intros k. specialize (Hk k). rewrite Ht1 in Hk. destruct (t !! k) as [r|]; [|done].
    cbn in Hk. unfold frozen in Hk. case_bool_decide; [|done]. right.
    destruct Hk as [Hk|(R & Hk & HR)].
    + exists (uuid tick). split; [done|]. apply Hout, in_outbox_enqueue. by right.
    + exists R. by split.
  - intros R HR. apply Hout, in_outbox_enqueue. by left.
Qed.

(** Batches of requests that were frozen before can be enqueued. *)
Lemma listed_batch_ok t b :
  traffic_wf t → text_table t → b ∈ ListPreparedUsageRequests nodeID t →
  batch_text b = true ∧ ub_RequestID b ≠ "" ∧ ub_Records b ≠ [].
Proof.
  intros Hwf Htx [HR Hb]%elem_of_ListPrepared; [|done].
  pose proof HR as (r0 & E0 & Hr0)%list_elem_of_fmap.
  assert (Hrec : ∀ r, r ∈ prepared_rows t → ascii_text (ct_ConnectionID r) = true ∧
            request_of r ≠ "" ∧ ascii_text (request_of r) = true).
  { intros r [Hk Hreq]%elem_of_prepared_rows; [|done]. destruct (Htx _ _ Hk) as [[_ ?] HR'].
    split; [done|]. unfold request_of. destruct (ct_RequestID r) as [R|]; [|done]. by apply HR'. }
  destruct (Hrec r0 Hr0) as (_ & Hne & Hasc). rewrite <-E0 in Hne, Hasc. rewrite Hb. cbn.
  split_and!; [|done|].
  - unfold batch_text. cbn. rewrite Hasc, Hnode. cbn. apply forallb_forall.
    intros x Hx%list_elem_of_In. apply list_elem_of_fmap in Hx as (r & -> & Hr).
    apply list_elem_of_filter in Hr as [_ Hr]. cbn. by apply Hrec.
  - intros Hnil%fmap_nil_inv.
    assert (Hin : r0 ∈ filter (fun r => request_of r = ub_RequestID b) (prepared_rows t))
      by (by apply list_elem_of_filter).
    rewrite Hnil in Hin. by apply elem_of_nil in Hin.
Qed.

(** [EnsureOutbox] terminates and leaves nothing behind: on a well-formed
    table it returns without error, having changed rows only by freezing them;
    afterwards every connection with unacknowledged bytes is frozen for a
    request, and every frozen request has its message in the outbox. *)
Theorem EnsureOutbox_complete tick t tr :
  traffic_wf t → text_table t →
  ∃ tick' t' tr', EnsureOutbox tick t tr = Some (tick', t', tr', None) ∧ traffic_wf t' ∧
    (∀ k, match t !! k with
          | Some r => t' !! k = Some r ∨ ∃ R, t' !! k = Some (freeze_row R r)
          | None => t' !! k = None
          end) ∧
    (∀ k r, t' !! k = Some r →
       (0 < ct_UnacknowledgedRXBytes r ∨ 0 < ct_UnacknowledgedTXBytes r)%Z →
       ∃ R, ct_RequestID r = Some R) ∧
    (∀ k r R, t' !! k = Some r → ct_RequestID r = Some R → is_Some (outbox tr' !! (nodeID, R))).
Proof.
  intros Hwf Htx. unfold EnsureOutbox.
  destruct (enqueue_all_total (ListPreparedUsageRequests nodeID t) tick tr) as (tick1 & tr1 & -> & Hin1).
  { intros b. by apply listed_batch_ok. }
  destruct (prepare_loop_total (S (pending_rows t)) tick1 t tr1)
    as (tick' & t' & tr' & -> & Hwf' & Htx' & Hsel & Hk & Hout); [lia|done..|].
  eexists _, _, _. split; [done|]. split_and!; [done| | |].
  - intros k. specialize (Hk k). destruct (t !! k); naive_solver.
  - intros k r Hr Hpos. destruct (ct_RequestID r) as [R|] eqn:E; [by eauto|].
    assert (Hu : r ∈ sql_select unprepared t'); [|rewrite Hsel in Hu; by apply elem_of_nil in Hu].
    apply elem_of_sql_select. split; [|by eauto]. unfold unprepared. rewrite bool_decide_eq_true_2 by done.
    destruct Hpos as [H1|H1]; rewrite (proj2 (Z.ltb_lt _ _) H1); cbn; by rewrite ?orb_true_r.
  - intros k r' R Hr' HR. specialize (Hk k). destruct (t !! k) as [r|] eqn:Hr; [|congruence].
    destruct Hk as [Hk|(R' & Hk & HR')].
    + apply Hout, Hin1. right. rewrite Hr' in Hk. simplify_eq.
      apply list_elem_of_fmap. exists (mkUsageBatch R nodeID 0 0 (records_for R (prepared_rows t)) 0).
      split; [done|]. apply elem_of_ListPrepared; [done|]. cbn. split; [|done].
      apply list_elem_of_fmap. exists r. unfold request_of. rewrite HR. split; [done|].
      apply elem_of_prepared_rows; [done|]. destruct (Hwf _ _ Hr) as [-> _]. by rewrite HR.
    + rewrite Hr' in Hk. simplify_eq/=. done.
Qed.
End UsageQueue.
