(* ===== verification/TrafficDelivery.v ===== *)
(** * TrafficDelivery: agent, network and server together

    The system of one node agent ([AgentStore], [UsageQueue], its outbox in
    [Queue]) and the server's accounting ([ServerTelemetry]) as a step
    relation.  Every step runs the functions of those files; the network may
    lose, repeat, delay and reorder batches and acknowledgements, the agent
    may stop between any two of its transactions, other nodes report traffic
    of their own, and both queues are leased, requeued and cleaned up at any
    time.  Two components of the state are bookkeeping only: [seen] sums up
    the traffic the agent has observed and [reqs] remembers what was frozen
    for a request.

    Proved here: traffic is conserved, so that it is never accounted twice
    and, once acknowledged, accounted in full; and every accepting answer of
    the server is one the agent settles. *)

From S2P Require Import Prelude GoLib Sql Queue QueueSecure AgentStore ServerTelemetry UsageQueue.

Abbreviation req_map := (gmap string (Z * Z)).  (* connection to rx and tx bytes *)

Record Sys := mkSys {
  ag : traffic_table;
  out : SQLStore;
  db : UsageDB;
  tr : SQLStore;
  seen : gmap string (Z * Z);
  reqs : gmap string req_map;
  net_batches : list (string * UsageBatch);
  net_acks : list (string * UsageAck);
}.

(** Traffic observed for a connection so far. *)
Definition seen_of (s : gmap string (Z * Z)) (c : string) : Z * Z := default (0, 0)%Z (s !! c).

Definition note (t : traffic_table) (record : UsageRecord) (s : gmap string (Z * Z))
    : gmap string (Z * Z) :=
  let c := ur_ConnectionID record in
  <[c := ((seen_of s c).1 + rx_delta t record, (seen_of s c).2 + tx_delta t record)%Z]> s.

Definition observe_note (acc : traffic_table * gmap string (Z * Z)) (record : UsageRecord)
    : result (traffic_table * gmap string (Z * Z)) :=
  t ← observe_record acc.1 record; Ok (t, note acc.1 record acc.2).

(** The bookkeeping does not influence the observation. *)
Lemma observe_note_fst records t s :
  fst <$> foldlR observe_note records (t, s) = foldlR observe_record records t.
Proof.
  revert t s. induction records as [|r l IH]; intros t s; [done|]. cbn [foldlR].
  change (observe_note (t, s) r) with (t' ← observe_record t r; Ok (t', note t r s)).
  destruct (observe_record t r) as [t1|]; cbn [mbind result_bind]; [apply IH|done].
Qed.

(** Operations of a queue that enqueue nothing. *)
Definition maintenance (o : op) : bool :=
  match o with
  | OEnqueue _ _ | OEnqueueIfAbsent _ _ | OEnqueueInbox _ _ => false
  | _ => true
  end.

(** Operations that record nothing for the messages of [actor]. *)
Definition foreign_to (actor : string) (o : op) : bool :=
  match o with
  | OEnqueueInbox _ msg => negb (bool_decide (m_ActorID msg = actor))
  | ORecordProcessed _ a _ _ _ _ _ => negb (bool_decide (a = actor))
  | _ => true
  end.

Section Delivery.
Context `{!UsageAckCodec, !UsageBatchCodec}.
Context (node inst : string) (allowed : string → bool) (ack_json : UsageAck → string).

Definition ident (installation : string) : TelemetryIdentity := mkIdentity node installation inst.

Definition content (records : list UsageRecord) : req_map :=
  list_to_map ((fun r => (ur_ConnectionID r, (ur_RXBytes r, ur_TXBytes r))) <$> records).

Definition record_ok (r : UsageRecord) : Prop :=
  record_in_range r ∧ ascii_text (ur_ConnectionID r) = true.

(** A request identifier nobody has used. *)
Definition fresh (R : string) (s : Sys) : Prop :=
  R ≠ "" ∧ ascii_text R = true ∧ reqs s !! R = None ∧ ¬ request_known R (db s).

Inductive step : Sys → Sys → Prop :=
| st_observe s records ag' seen' :
    Forall record_ok records →
    foldlR observe_note records (ag s, seen s) = Ok (ag', seen') →
    step s (mkSys ag' (out s) (db s) (tr s) seen' (reqs s) (net_batches s) (net_acks s))
| st_prepare s R limit b ag' :
    fresh R s → PrepareUsageRequest R node limit (ag s) = Ok (Some b, ag') →
    step s (mkSys ag' (out s) (db s) (tr s) (seen s) (<[R := content (ub_Records b)]> (reqs s))
                  (net_batches s) (net_acks s))
| st_prepare_enqueue s R limit b ag' now out' :
    fresh R s → PrepareUsageRequest R node limit (ag s) = Ok (Some b, ag') →
    enqueue node now b (out s) = Ok out' →
    step s (mkSys ag' out' (db s) (tr s) (seen s) (<[R := content (ub_Records b)]> (reqs s))
                  (net_batches s) (net_acks s))
| st_enqueue s b now out' :
    b ∈ ListPreparedUsageRequests node (ag s) → enqueue node now b (out s) = Ok out' →
    step s (mkSys (ag s) out' (db s) (tr s) (seen s) (reqs s) (net_batches s) (net_acks s))
| st_outbox s o :
    maintenance o = true →
    step s (mkSys (ag s) (perform o (out s)).2 (db s) (tr s) (seen s) (reqs s)
                  (net_batches s) (net_acks s))
| st_send s k r b :
    outbox (out s) !! k = Some r → decodeUsageBatch (scanMessage DirectionOutbound r) = Ok b →
    step s (mkSys (ag s) (out s) (db s) (tr s) (seen s) (reqs s)
                  ((id r, b) :: net_batches s) (net_acks s))
| st_server s now installation R b ack db' tr' :
    (R, b) ∈ net_batches s →
    HandleUsage allowed now (ident installation) R (Some b) (db s) (tr s) = (Some ack, db', tr') →
    step s (mkSys (ag s) (out s) db' tr' (seen s) (reqs s) (net_batches s)
                  ((R, ack) :: net_acks s))
| st_ack s R ack ag' out' :
    (R, ack) ∈ net_acks s → Ack ack_json R (Some ack) (ag s) (out s) = Ok (ag', out') →
    step s (mkSys ag' out' (db s) (tr s) (seen s) (reqs s) (net_batches s) (net_acks s))
| st_other s now id R b ack db' tr' :
    ti_NodeID id ≠ node → reqs s !! R = None →
    node_instances (db s) !! ti_NodeInstanceID id = Some (ti_NodeID id) →
    HandleUsage allowed now id R b (db s) (tr s) = (ack, db', tr') →
    step s (mkSys (ag s) (out s) db' tr' (seen s) (reqs s) (net_batches s) (net_acks s))
| st_transport s o :
    foreign_to node o = true →
    step s (mkSys (ag s) (out s) (db s) (perform o (tr s)).2 (seen s) (reqs s)
                  (net_batches s) (net_acks s)).

(** A new agent at a server that knows the node. *)
Record initial (s : Sys) : Prop := {
  in_ag : ag s = ∅;
  in_out : out s = mkStore ∅ ∅;
  in_db : usage_wf (db s);
  in_inst : node_instances (db s) !! inst = Some node;
  in_tr : ∀ R p, IsProcessed node R (tr s) = Some p → False;
  in_seen : ∀ c, seen_of (seen s) c =
    (from_option tot_RXBytes 0%Z (usage_totals (db s) !! c),
     from_option tot_TXBytes 0%Z (usage_totals (db s) !! c));
  in_reqs : reqs s = ∅;
  in_net : net_batches s = [] ∧ net_acks s = [];
}.

(** ** The invariant *)
Definition knownb (R : string) (d : UsageDB) : bool := bool_decide (rows_of_request R d ≠ []).

(** The part of the unacknowledged bytes of a row the server has accounted. *)
Definition counted (d : UsageDB) (r : ConnectionTrafficState) : Z * Z :=
  match ct_RequestID r with
  | Some R => if knownb R d then (ct_SentRXBytes r, ct_SentTXBytes r) else (0, 0)%Z
  | None => (0, 0)%Z
  end.

Definition total_rx (d : UsageDB) (c : string) : Z := from_option tot_RXBytes 0%Z (usage_totals d !! c).
Definition total_tx (d : UsageDB) (c : string) : Z := from_option tot_TXBytes 0%Z (usage_totals d !! c).

Definition conserved (a : traffic_table) (d : UsageDB) (sn : gmap string (Z * Z)) (c : string) : Prop :=
  (seen_of sn c).1 =
    (total_rx d c + ct_UnacknowledgedRXBytes (row_of a c) - (counted d (row_of a c)).1)%Z ∧
  (seen_of sn c).2 =
    (total_tx d c + ct_UnacknowledgedTXBytes (row_of a c) - (counted d (row_of a c)).2)%Z.

(** A frozen row holds its share of the request. *)
Definition rows_frozen (a : traffic_table) (q : gmap string req_map) : Prop :=
  ∀ k r R, a !! k = Some r → ct_RequestID r = Some R →
    ∃ m, q !! R = Some m ∧ m !! k = Some (ct_SentRXBytes r, ct_SentTXBytes r).

(** A request is frozen in all of its rows, or settled in all of them. *)
Definition requests_whole (a : traffic_table) (q : gmap string req_map) (d : UsageDB) : Prop :=
  ∀ R m, q !! R = Some m →
    (∀ k v, m !! k = Some v → ∃ r, a !! k = Some r ∧ ct_RequestID r = Some R) ∨
    (request_known R d ∧ ∀ k r, a !! k = Some r → ct_RequestID r ≠ Some R).

(** What the server has of a request is what was frozen for it. *)
Definition requests_accounted (q : gmap string req_map) (d : UsageDB) : Prop :=
  ∀ R m, q !! R = Some m → request_known R d →
    ∀ c, match m !! c with
         | Some (rx, tx) => ∃ u, usage_records d !! (R, c) = Some u ∧
                                 us_rx_bytes u = rx ∧ us_tx_bytes u = tx
         | None => usage_records d !! (R, c) = None
         end.

Definition batch_of (q : gmap string req_map) (R : string) (b : UsageBatch) : Prop :=
  q !! R = Some (content (ub_Records b)) ∧ ub_RequestID b = R ∧ ub_NodeID b = node ∧
  NoDup (ur_ConnectionID <$> ub_Records b) ∧ ub_Records b ≠ [].

Definition outbox_ok (q : gmap string req_map) (t : table) : Prop :=
  ∀ k r b, t !! k = Some r → decodeUsageBatch (scanMessage DirectionOutbound r) = Ok b →
    batch_of q (id r) b.

(** An acknowledgement the agent accepts for the frozen content [m]. *)
Definition fits (m : req_map) (a : UsageAck) : Prop :=
  NoDup (ack_ConnectionID <$> ua_Records a) ∧ Forall ack_valid (ua_Records a) ∧
  Forall ack_in_range (ua_Records a) ∧
  (∀ c, c ∈ ack_ConnectionID <$> ua_Records a ↔ is_Some (m !! c)) ∧
  (∀ x rx tx, x ∈ ua_Records a → m !! ack_ConnectionID x = Some (rx, tx) →
     (rx ≤ ack_RXBytes x ∧ tx ≤ ack_TXBytes x)%Z).

Definition ack_fits (q : gmap string req_map) (d : UsageDB) (R : string) (a : UsageAck) : Prop :=
  ua_Ok a = true → ∃ m, q !! R = Some m ∧ request_known R d ∧ fits m a.

Definition inbox_fits (q : gmap string req_map) (d : UsageDB) (t : SQLStore) : Prop :=
  ∀ R p a, IsProcessed node R t = Some p → unmarshal_ack (p_Result p) = Some a →
    ack_fits q d R a.

Record inv (s : Sys) : Prop := {
  i_ag : traffic_wf (ag s);
  i_text : text_table (ag s);
  i_db : usage_wf (db s);
  i_inst : node_instances (db s) !! inst = Some node;
  i_rows : rows_frozen (ag s) (reqs s);
  i_whole : requests_whole (ag s) (reqs s) (db s);
  i_acc : requests_accounted (reqs s) (db s);
  i_req_text : ∀ R m c, reqs s !! R = Some m → is_Some (m !! c) → c ≠ "";
  i_out : outbox_ok (reqs s) (outbox (out s));
  i_batches : ∀ R b, (R, b) ∈ net_batches s → batch_of (reqs s) R b;
  i_acks : ∀ R a, (R, a) ∈ net_acks s → ack_fits (reqs s) (db s) R a;
  i_inbox : inbox_fits (reqs s) (db s) (tr s);
  i_conserve : ∀ c, connections (db s) !! c = Some node → conserved (ag s) (db s) (seen s) c;
}.

Lemma knownb_spec R d : usage_wf d → knownb R d = true ↔ request_known R d.
Proof.
  intros Hwf. unfold knownb. rewrite bool_decide_eq_true. pose proof (head_rows_None R d Hwf) as Hh.
  destruct (rows_of_request R d) as [|u l] eqn:E; cbn in Hh; [tauto|]. split; [|done]. intros _.
  exists (us_connection_id u), u. apply elem_of_rows_of_request; [done|]. rewrite E. left.
Qed.

Lemma knownb_false R d : usage_wf d → ¬ request_known R d → knownb R d = false.
Proof. intros Hwf Hn. apply not_true_is_false. by rewrite knownb_spec. Qed.

(** Content of a batch with distinct connections. *)
Lemma content_Some records c rx tx :
  NoDup (ur_ConnectionID <$> records) →
  content records !! c = Some (rx, tx) ↔ mkUsageRecord c tx rx ∈ records.
Proof.
  intros Hnd. unfold content. rewrite <-elem_of_list_to_map.
  - rewrite list_elem_of_fmap. split.
    + intros ([c' tx' rx'] & [= -> -> ->] & Hr). done.
    + intros Hr. by exists (mkUsageRecord c tx rx).
  - rewrite <-list_fmap_compose. exact Hnd.
Qed.

Lemma content_None records c :
  content records !! c = None ↔ c ∉ ur_ConnectionID <$> records.
Proof.
  unfold content. rewrite <-not_elem_of_list_to_map, <-list_fmap_compose. done.
Qed.

Lemma row_of_Some a c r : a !! c = Some r → row_of a c = r.
Proof. unfold row_of. by intros ->. Qed.

Lemma row_of_insert a k v c :
  row_of (<[k := v]> a) c = if decide (k = c) then v else row_of a c.
Proof. unfold row_of. rewrite lookup_insert. by case_decide. Qed.

(** *** Observing *)
Definition agent_inv (q : gmap string req_map) (d : UsageDB)
    (acc : traffic_table * gmap string (Z * Z)) : Prop :=
  traffic_wf acc.1 ∧ text_table acc.1 ∧ rows_frozen acc.1 q ∧ requests_whole acc.1 q d ∧
  ∀ c, connections d !! c = Some node → conserved acc.1 d acc.2 c.

(** Rewriting a row without touching what is frozen of it. *)
Lemma rows_frozen_insert a q k v :
  rows_frozen a q → ct_RequestID v = ct_RequestID (row_of a k) →
  (ct_SentRXBytes v, ct_SentTXBytes v) = (ct_SentRXBytes (row_of a k), ct_SentTXBytes (row_of a k)) →
  rows_frozen (<[k := v]> a) q.
Proof.
  intros Hfr Hreq Hsent k' r R Hr HR. destruct (decide (k = k')) as [<-|Hne].
  - rewrite lookup_insert_eq in Hr. injection Hr as <-. unfold row_of in *.
    destruct (a !! k) as [r0|] eqn:E; cbn in *; [|congruence].
    rewrite Hsent. apply Hfr; [done|congruence].
  - rewrite lookup_insert_ne in Hr by done. by eapply Hfr.
Qed.

Lemma requests_whole_insert a q d k v :
  requests_whole a q d → ct_RequestID v = ct_RequestID (row_of a k) →
  requests_whole (<[k := v]> a) q d.
Proof.
  intros Hwh Hreq R m Hm. destruct (Hwh R m Hm) as [Hall|[Hk Hnone]]; [left|right; split; [done|]].
  - intros k' v' Hv'. destruct (Hall k' v' Hv') as (r & Hr & HR).
    destruct (decide (k = k')) as [<-|Hne].
    + exists v. rewrite lookup_insert_eq, Hreq, (row_of_Some _ _ _ Hr). done.
    + exists r. by rewrite lookup_insert_ne.
  - intros k' r. destruct (decide (k = k')) as [<-|Hne].
    + rewrite lookup_insert_eq. intros [= <-]. rewrite Hreq. unfold row_of.
      destruct (a !! k) as [r0|] eqn:E; cbn; [by apply (Hnone k)|done].
    + rewrite lookup_insert_ne by done. apply Hnone.
Qed.

Lemma observe_note_inv q d acc record acc' :
  record_ok record → agent_inv q d acc → observe_note acc record = Ok acc' → agent_inv q d acc'.
Proof.
  destruct acc as [a sn]. intros [Hrange Hasc] (Hwf & Htx & Hfr & Hwh & Hc).
  unfold observe_note. cbn [fst snd] in *. intros (a' & Hob & [= <-])%bind_Ok.
  pose proof (observe_record_wf _ _ _ Hwf Hrange Hob) as Hwf'.
  apply observe_record_Ok in Hob as (Hinv & _ & _ & ->); [|done].
  set (c0 := ur_ConnectionID record) in *. split_and!; cbn [fst snd]; [done| | | |].
  - intros k r. destruct (decide (c0 = k)) as [<-|Hne]; [|rewrite lookup_insert_ne by done; apply Htx].
    rewrite lookup_insert_eq. intros [= <-]. cbn.
    apply orb_false_iff in Hinv as [[Hne%bool_decide_eq_false _]%orb_false_iff _].
    split; [done|]. intros R HR. unfold row_of in HR.
    destruct (a !! c0) as [r0|] eqn:E; cbn in HR; [|done]. by apply (Htx c0 r0).
  - by apply rows_frozen_insert.
  - by apply requests_whole_insert.
  - intros c Hnode. destruct (Hc c Hnode) as [Hrx Htx']. unfold conserved, note, seen_of in *.
    rewrite row_of_insert, lookup_insert. fold c0. case_decide as Heq; [subst c|done].
    cbn [default from_option fst snd observe_row ct_UnacknowledgedRXBytes ct_UnacknowledgedTXBytes].
    change (counted d (observe_row _ _ _ ?r)) with (counted d r). fold (seen_of sn c0) in *. unfold Datatypes.id. cbn [fst snd]. lia.
Qed.

Lemma inv_observe s records ag' seen' :
  inv s → Forall record_ok records →
  foldlR observe_note records (ag s, seen s) = Ok (ag', seen') →
  inv (mkSys ag' (out s) (db s) (tr s) seen' (reqs s) (net_batches s) (net_acks s)).
Proof.
  intros Hi Hrec Hrun.
  assert (Ha : agent_inv (reqs s) (db s) (ag', seen')).
  { refine (foldlR_inv (agent_inv (reqs s) (db s)) _ _ _ _ _ _ Hrun); [|by split_and!; apply Hi].
    intros acc x acc' Hx Hacc. rewrite list.Forall_forall in Hrec. apply observe_note_inv; auto. }
  destruct Ha as (? & ? & ? & ? & ?). destruct Hi. by split.
Qed.

(** *** Preparing *)
Lemma batch_of_mono q q' R b : q ⊆ q' → batch_of q R b → batch_of q' R b.
Proof. intros Hq (Hm & ? & ? & ? & ?). split_and!; [by eapply lookup_weaken|done..]. Qed.

Lemma ack_fits_mono q q' d R a : q ⊆ q' → ack_fits q d R a → ack_fits q' d R a.
Proof.
  intros Hq Hf Hok. destruct (Hf Hok) as (m & Hm & ? & ?). exists m.
  split; [by eapply lookup_weaken|done].
Qed.

(** The batch made from prepared rows. *)
Lemma prepared_content limit a k :
  traffic_wf a →
  content (unacknowledged_record <$> prepare_rows limit a) !! k =
  (r ← a !! k; if bool_decide (r ∈ prepare_rows limit a)
               then Some (ct_UnacknowledgedRXBytes r, ct_UnacknowledgedTXBytes r) else None).
Proof.
  intros Hwf. set (rows := prepare_rows limit a).
  assert (Hnd : NoDup (ur_ConnectionID <$> (unacknowledged_record <$> rows))).
  { rewrite <-list_fmap_compose. by apply prepare_rows_keys. }
  apply option_eq. intros [rx tx]. rewrite content_Some by done.
  rewrite list_elem_of_fmap, bind_Some. split.
  - intros (r & [= -> -> ->] & Hr). destruct (elem_of_prepare_rows _ _ _ Hwf Hr) as [_ Hk].
    exists r. split; [done|]. by rewrite bool_decide_eq_true_2.
  - intros (r & Hr & Hin). case_bool_decide as Hel; [|done]. simplify_eq.
    exists r. split; [|done]. unfold unacknowledged_record. by destruct (Hwf _ _ Hr) as [-> _].
Qed.

Lemma counted_frozen R rows d r :
  usage_wf d → ¬ request_known R d → (r ∈ rows → ct_RequestID r = None) →
  counted d (frozen R rows r) = counted d r.
Proof.
  intros Hwf Hn Hnone. unfold frozen. case_bool_decide as Hin; [|done].
  unfold counted. cbn. rewrite (knownb_false R d Hwf Hn), (Hnone Hin). done.
Qed.

Section Prepared.
Context (a a' : traffic_table) (q : gmap string req_map) (d : UsageDB) (R : string) (limit : Z).
Context (Hwf : traffic_wf a) (Hd : usage_wf d) (HqR : q !! R = None) (Hnk : ¬ request_known R d).
Let rows := prepare_rows limit a.
Let m := content (unacknowledged_record <$> rows).
Context (Ha' : ∀ k, a' !! k = frozen R rows <$> a !! k).

Lemma row_not_requested r : r ∈ rows → ct_RequestID r = None.
Proof.
  intros Hr. destruct (elem_of_prepare_rows _ _ _ Hwf Hr) as [Hu _].
  by apply andb_true_iff in Hu as [?%bool_decide_eq_true _].
Qed.

Lemma rows_frozen_prepare : rows_frozen a q → rows_frozen a' (<[R := m]> q).
Proof.
  intros Hfr k r' R' Hr' HR'. rewrite Ha' in Hr'. apply fmap_Some in Hr' as (r & Hr & ->).
  unfold frozen in *. case_bool_decide as Hin.
  - cbn in HR'. simplify_eq. exists m. rewrite lookup_insert_eq. split; [done|].
    unfold m, rows. rewrite prepared_content, Hr by done. cbn. by rewrite bool_decide_eq_true_2.
  - destruct (Hfr k r R' Hr HR') as (m' & Hm' & Hv). exists m'.
    rewrite lookup_insert_ne by congruence. done.
Qed.

Lemma requests_whole_prepare : requests_whole a q d → requests_whole a' (<[R := m]> q) d.
Proof.
  intros Hwh R' m' Hm'. destruct (decide (R = R')) as [<-|Hne].
  - rewrite lookup_insert_eq in Hm'. injection Hm' as <-. left. intros k v.
    unfold m, rows. rewrite prepared_content by done. intros (r & Hr & Hv)%bind_Some.
    case_bool_decide as Hin; [|done]. exists (freeze_row R r). rewrite Ha', Hr. cbn.
    unfold frozen, rows. by rewrite bool_decide_eq_true_2.
  - rewrite lookup_insert_ne in Hm' by done.
    destruct (Hwh R' m' Hm') as [Hall|[Hk Hno]]; [left|right; split; [done|]].
    + intros k v Hv. destruct (Hall k v Hv) as (r & Hr & HR'). exists r. rewrite Ha', Hr. cbn.
      unfold frozen. rewrite bool_decide_eq_false_2; [done|].
      intros Hin. rewrite (row_not_requested r Hin) in HR'. done.
    + intros k r' Hr'. rewrite Ha' in Hr'. apply fmap_Some in Hr' as (r & Hr & ->).
      unfold frozen. case_bool_decide; [cbn; congruence|]. by apply (Hno k).
Qed.

Lemma conserved_prepare sn c : conserved a d sn c → conserved a' d sn c.
Proof.
  unfold conserved, row_of. rewrite Ha'. destruct (a !! c) as [r|]; [|done]. cbn.
  rewrite counted_frozen by (done || apply row_not_requested).
  unfold frozen. by case_bool_decide.
Qed.

Lemma accounted_prepare : requests_accounted q d → requests_accounted (<[R := m]> q) d.
Proof.
  intros Hac R' m' Hm' Hk. destruct (decide (R = R')) as [<-|Hne]; [done|].
  rewrite lookup_insert_ne in Hm' by done. by apply Hac.
Qed.

Lemma prepared_keys c : is_Some (m !! c) → is_Some (a !! c).
Proof.
  intros [v Hv]. unfold m, rows in Hv. rewrite prepared_content in Hv by done.
  apply bind_Some in Hv as (r & Hr & _). eauto.
Qed.
End Prepared.

Context (Hnode : ascii_text node = true).

Lemma inv_prepare s R limit b ag' :
  inv s → fresh R s → PrepareUsageRequest R node limit (ag s) = Ok (Some b, ag') →
  batch_of (<[R := content (ub_Records b)]> (reqs s)) R b ∧ batch_text b = true ∧
  inv (mkSys ag' (out s) (db s) (tr s) (seen s) (<[R := content (ub_Records b)]> (reqs s))
             (net_batches s) (net_acks s)).
Proof.
  intros Hi (HR & Hasc & HqR & Hnk) Hprep. pose proof (i_ag s Hi) as Hwf.
  destruct (PrepareUsageRequest_eq R node limit (ag s) Hwf HR) as [[_ E]|[Hrows (a' & E & Ha')]];
    rewrite E in Hprep; simplify_eq. cbn [ub_Records].
  set (rows := prepare_rows limit (ag s)) in *.
  assert (Hq : reqs s ⊆ <[R := content (unacknowledged_record <$> rows)]> (reqs s))
    by (by apply insert_subseteq).
  split_and!.
  - split_and!; cbn; [by rewrite lookup_insert_eq|done|done| |by intros ?%fmap_nil_inv].
    rewrite <-list_fmap_compose. by apply prepare_rows_keys.
  - eapply prepared_batch_text; [done|done|done|apply Hi].
  - split; cbn [ag out db tr seen reqs net_batches net_acks]; try apply Hi.
    + by eapply frozen_wf.
    + eapply text_table_frozen; [done|done|apply Hi|done].
    + apply (rows_frozen_prepare (ag s) _ _ (db s)); try done; apply Hi.
    + apply (requests_whole_prepare (ag s)); try done; apply Hi.
    + apply accounted_prepare; try done; apply Hi.
    + intros R' m' c Hm' Hc. destruct (decide (R = R')) as [<-|Hne].
      * rewrite lookup_insert_eq in Hm'. simplify_eq.
        apply prepared_keys in Hc as [r Hr]; [|done]. by destruct (i_text s Hi c r Hr) as [[? _] _].
      * rewrite lookup_insert_ne in Hm' by done. by eapply i_req_text.
    + intros k r b Hr Hb. eapply batch_of_mono; [done|]. by eapply i_out.
    + intros R' b Hb. eapply batch_of_mono; [done|]. by eapply i_batches.
    + intros R' a Ha. eapply ack_fits_mono; [done|]. by eapply i_acks.
    + intros R' p a Hp Ha. eapply ack_fits_mono; [done|]. by eapply i_inbox.
    + intros c Hc. eapply (conserved_prepare (ag s)); try done; by apply Hi.
Qed.

(** *** The outbox *)
Lemma decode_enqueued now b raw :
  batch_text b = true → marshal_batch (stamp now b) = Ok raw →
  decodeUsageBatch (scanMessage DirectionOutbound
    (message_row (message_defaults now (usage_message node now b raw)))) = Ok (stamp now b).
Proof.
  intros Ht Hraw. unfold decodeUsageBatch, scanMessage, message_row, message_defaults, usage_message.
  cbn -[encodeMessageJSON mustDecodeMessageJSON]. rewrite mustDecode_encode. cbn [j_Payload].
  rewrite (unmarshal_marshal_batch (stamp now b) _ Ht Hraw). cbn. by rewrite bool_decide_eq_true_2.
Qed.

Lemma outbox_enqueue q R b now o o' :
  outbox_ok q (outbox o) → batch_of q R b → batch_text b = true →
  enqueue node now b o = Ok o' → outbox_ok q (outbox o').
Proof.
  intros Hok Hb Ht. unfold enqueue. destruct (_ || _); [done|].
  intros (raw & Hraw & [= <-])%bind_Ok k r b' Hr Hdec.
  unfold EnqueueIfAbsent, writeMessage in Hr. cbn [outbox] in Hr.
  rewrite lookup_sql_insert_if_absent in Hr. case_decide as Hk; [|by eapply Hok].
  injection Hr as <-. destruct (outbox o !! _) as [r|] eqn:E; [by eapply Hok|].
  cbn [default from_option Datatypes.id] in *. rewrite (decode_enqueued _ _ _ Ht Hraw) in Hdec.
  injection Hdec as <-. destruct Hb as (? & <- & ? & ? & ?). by split_and!.
Qed.

Lemma listed_batch_of s b :
  inv s → b ∈ ListPreparedUsageRequests node (ag s) → batch_of (reqs s) (ub_RequestID b) b.
Proof.
  intros Hi Hin. pose proof (i_ag s Hi) as Hwf.
  pose proof (listed_batch_ok node Hnode (ag s) b Hwf (i_text s Hi) Hin) as (_ & _ & Hne).
  apply elem_of_ListPrepared in Hin as [HR Hb]; [|done]. set (R := ub_RequestID b) in *.
  assert (Hrow : ∀ r, r ∈ prepared_rows (ag s) → request_of r = R →
            ag s !! ct_ConnectionID r = Some r ∧ ct_RequestID r = Some R).
  { intros r [Hk Hn]%elem_of_prepared_rows E; [|done]. split; [done|]. unfold request_of in E.
    destruct (ct_RequestID r); [f_equal; exact E|done]. }
  assert (Hnd : NoDup (ur_ConnectionID <$> records_for R (prepared_rows (ag s)))).
  { unfold records_for. rewrite <-list_fmap_compose.
    apply (traffic_rows_keys _ (ag s) Hwf).
    - intros r [HrR Hr]%list_elem_of_filter. destruct (Hrow r Hr HrR). eauto.
    - apply list.NoDup_filter. unfold prepared_rows. rewrite merge_sort_Permutation.
      by apply NoDup_traffic_select. }
  apply list_elem_of_fmap in HR as (r0 & E0 & Hr0). destruct (Hrow r0 Hr0) as [Hk0 HR0]; [done|].
  destruct (i_rows s Hi _ _ _ Hk0 HR0) as (m & Hm & Hm0).
  assert (Hwhole : ∀ k v, m !! k = Some v → ∃ r, ag s !! k = Some r ∧ ct_RequestID r = Some R).
  { destruct (i_whole s Hi R m Hm) as [?|[_ Hno]]; [done|]. by destruct (Hno _ _ Hk0). }
  assert (Hrec : ub_Records b = records_for R (prepared_rows (ag s))) by (by rewrite Hb).
  split_and!; [|done|by rewrite Hb|by rewrite Hrec|done]. rewrite Hrec.
  rewrite Hm. f_equal. apply map_eq. intros k. apply option_eq. intros [rx tx].
  rewrite content_Some by done. unfold records_for. rewrite list_elem_of_fmap. split.
  - intros Hk. destruct (Hwhole k _ Hk) as (r & Hr & HrR). exists r.
    destruct (i_rows s Hi _ _ _ Hr HrR) as (m' & Hm' & Hk'). rewrite Hm in Hm'. simplify_eq.
    destruct (Hwf _ _ Hr) as [Hid _]. split; [unfold sent_record; by rewrite Hid|].
    apply list_elem_of_filter. unfold request_of. rewrite HrR. split; [done|].
    apply elem_of_prepared_rows; [done|]. rewrite Hid, HrR. done.
  - intros (r & [= -> -> ->] & [HrR Hr]%list_elem_of_filter). destruct (Hrow r Hr HrR) as [Hk HrR'].
    destruct (i_rows s Hi _ _ _ Hk HrR') as (m' & Hm' & Hk'). rewrite Hm in Hm'. by simplify_eq.
Qed.

(** *** Maintenance of the queues *)
Definition payload_from (r' r : row) : Prop :=
  id r' = id r ∧ (input_json r' = input_json r ∨ input_json r' = ∅).
Definition result_from (r' r : row) : Prop :=
  is_processed_status (status r') = true →
  status r = status r' ∧ (output_json r' = output_json r ∨ output_json r' = ∅).

#[local] Instance payload_from_preorder : PreOrder payload_from.
Proof.
  split; [by intros r; split; [|left]|]. intros r1 r2 r3 [E12 H12] [E23 H23].
  split; [congruence|]. destruct H12 as [->|]; auto.
Qed.
#[local] Instance result_from_preorder : PreOrder result_from.
Proof.
  split; [by intros r _; split; [|left]|]. intros r1 r2 r3 H12 H23 Hp.
  destruct (H12 Hp) as [E12 O12]. rewrite <-E12 in Hp. destruct (H23 Hp) as [E23 O23].
  split; [congruence|]. destruct O12 as [->|]; auto.
Qed.

Lemma leasePending_rows_from S `{!PreOrder S} now dir a lim d t :
  (∀ r until, S (set_lease StatusInFlight until r) r) →
  rows_from S (leasePending now dir a lim d t).2 t.
Proof. intros HS. apply rows_from_foldl; [apply _|]. intros. by apply rows_from_update. Qed.

Lemma outbox_maintenance o x :
  maintenance o = true → rows_from payload_from (outbox (perform o x).2) (outbox x).
Proof.
  assert (Hset : ∀ P f t, (∀ r, payload_from (f r) r) → rows_from payload_from (sql_update P f t) t).
  { intros P f t Hf. apply rows_from_update; [apply _|auto]. }
  intros Hm. destruct o; cbn in Hm; try done; cbn -[leasePending cleanupTable sql_update];
    try reflexivity.
  - unfold LeasePending. pose proof (leasePending_rows_from payload_from now DirectionOutbound
      actorID limit leaseFor (outbox x)) as Hl.
    destruct (leasePending _ _ _ _ _ _). apply Hl. by split; [|left].
  - apply Hset. by split; [|left].
  - apply Hset. by split; [|left].
  - apply Hset. by split; [|left].
  - apply Hset. by split; [|left].
  - unfold requeueExpiredLeases. etrans; apply Hset; by split; [|left].
  - apply rows_from_cleanup; [apply _|]. by split; [|right].
Qed.

Lemma outbox_ok_from q t' t : rows_from payload_from t' t → outbox_ok q t → outbox_ok q t'.
Proof.
  intros Hfrom Hok k r' b Hr' Hdec. destruct (Hfrom _ _ Hr') as (r & Hr & Hid & Hin).
  rewrite Hid. destruct Hin as [Hin|Hin].
  - apply (Hok k); [done|]. unfold decodeUsageBatch, scanMessage in *. cbn in *. by rewrite <-Hin, <-Hid.
  - unfold decodeUsageBatch, scanMessage in Hdec. cbn -[mustDecodeMessageJSON] in Hdec.
    rewrite Hin in Hdec. apply bind_Ok in Hdec as (b0 & Hb0 & _). by apply unmarshal_empty in Hb0.
Qed.

Lemma inbox_maintenance o x R r' :
  foreign_to node o = true → inbox (perform o x).2 !! (node, R) = Some r' →
  is_processed_status (status r') = true →
  ∃ r, inbox x !! (node, R) = Some r ∧ result_from r' r.
Proof.
  assert (Hsame : inbox x !! (node, R) = Some r' → is_processed_status (status r') = true →
            ∃ r, inbox x !! (node, R) = Some r ∧ result_from r' r).
  { intros Hr' _. by exists r'. }
  intros Hf. destruct o; cbn in Hf; cbn -[leasePending cleanupTable writeMessage
    sql_upsert encodeMessageJSON]; try exact Hsame.
  - unfold writeMessage. cbv zeta iota. rewrite lookup_sql_upsert. apply negb_true_iff, bool_decide_eq_false in Hf.
    rewrite decide_False; [exact Hsame|]. cbn. intros [= E _]. done.
  - unfold LeaseInboxPending. pose proof (leasePending_rows_from result_from now DirectionInbound
      actorID limit leaseFor (inbox x)) as Hl.
    destruct (leasePending _ _ _ _ _ _) as [l t]. cbn in *. intros Hr' _. apply Hl; [|done].
    intros r until Hp. done.
  - rewrite lookup_sql_upsert. apply negb_true_iff, bool_decide_eq_false in Hf.
    rewrite decide_False; [exact Hsame|]. intros [= E _]. done.
  - intros Hr' _. eapply (rows_from_cleanup result_from); [|done].
    intros r _. split; [done|by right].
Qed.

Lemma inbox_fits_maintenance q d o x :
  foreign_to node o = true → inbox_fits q d x → inbox_fits q d (perform o x).2.
Proof.
  intros Hf Hin R p a Hp Ha. unfold IsProcessed in Hp.
  apply bind_Some in Hp as (r' & Hr' & Hp). destruct (is_processed_status (status r')) eqn:Hst; [|done].
  injection Hp as <-. destruct (inbox_maintenance _ _ _ _ Hf Hr' Hst) as (r & Hr & Hfrom).
  destruct (Hfrom Hst) as [Es [Eo|Eo]]; cbn -[mustDecodeMessageJSON] in Ha; rewrite Eo in Ha.
  - apply (Hin R (scanProcessed r)); [|done]. unfold IsProcessed. rewrite Hr. cbn -[is_processed_status].
    by rewrite Es, Hst.
  - change (unmarshal_ack "" = Some a) in Ha. rewrite unmarshal_empty_ack in Ha.
    simplify_eq. by intros Hok.
Qed.

(** *** Accounting *)
Lemma fits_totals q d R m :
  usage_wf d → requests_accounted q d → q !! R = Some m → request_known R d →
  (∀ c, is_Some (m !! c) → c ≠ "") →
  fits m (ack_of_totals (usageTotalsForRequest R d)).
Proof.
  intros Hwf Hac Hm Hk Hne. specialize (Hac R m Hm Hk).
  assert (Hkey : ∀ c, is_Some (usage_records d !! (R, c)) ↔ is_Some (m !! c)).
  { intros c. specialize (Hac c). destruct (m !! c) as [[rx tx]|].
    - destruct Hac as (u & -> & _). split; eauto.
    - rewrite Hac. done. }
  assert (Htot : ∀ t, t ∈ usageTotalsForRequest R d →
            is_Some (m !! tot_ConnectionID t) ∧ usage_totals d !! tot_ConnectionID t = Some t).
  { intros t [Hu Ht]%elem_of_usageTotals; [|done]. by rewrite <-Hkey. }
  unfold fits, ack_of_totals. cbn [ua_Records].
  assert (Hids : ack_ConnectionID <$> ((fun t => mkAcknowledgedUsage (tot_ConnectionID t)
            (tot_RXBytes t) (tot_TXBytes t)) <$> usageTotalsForRequest R d) =
            tot_ConnectionID <$> usageTotalsForRequest R d) by (by rewrite <-list_fmap_compose).
  split_and!.
  - rewrite Hids. by apply usageTotals_keys.
  - rewrite Forall_fmap. apply list.Forall_forall. intros t Ht. destruct (Htot t Ht) as [Hc Hl].
    split; [by apply Hne|]. pose proof (wf_nonneg d Hwf _ _ Hl). cbn. lia.
  - rewrite Forall_fmap. apply list.Forall_forall. intros t Ht. destruct (Htot t Ht) as [Hc Hl].
    pose proof (wf_range d Hwf _ _ Hl) as Hr. unfold ack_in_range. cbn.
    apply andb_true_iff in Hr as [?%Z.leb_le ?%Z.leb_le]. done.
  - intros c. rewrite Hids, list_elem_of_fmap. split.
    + intros (t & -> & Ht). by apply Htot.
    + intros Hc. apply Hkey in Hc as [u Hu]. destruct (wf_has_total d Hwf _ _ _ Hu) as [t Ht].
      pose proof (wf_total_key d Hwf _ _ Ht) as <-. exists t. split; [done|].
      apply elem_of_usageTotals; [done|]. split; [|done]. eauto.
  - intros x rx tx (t & -> & Ht)%list_elem_of_fmap. cbn. intros Hmc.
    destruct (Htot t Ht) as [_ Hl]. specialize (Hac (tot_ConnectionID t)). rewrite Hmc in Hac.
    destruct Hac as (u & Hu & <- & <-). destruct (wf_key d Hwf _ _ _ Hu) as (_ & Huc & _).
    destruct (wf_total d Hwf (tot_ConnectionID t)) as [Etx Erx]. rewrite Hl in Etx, Erx. cbn in Etx, Erx.
    rewrite Etx, Erx. split; eapply sum_of_ge; try done; intros [r c] u' Hu';
      by destruct (wf_key d Hwf _ _ _ Hu') as (_ & _ & ? & ?).
Qed.

Section Applied.
Context (q : gmap string req_map) (d d' : UsageDB) (R : string) (id : TelemetryIdentity)
        (at_ms : Z) (b : UsageBatch).
Context (Hwf : usage_wf d) (Hnk : ¬ request_known R d).
Let records := server_record R b id <$> ub_Records b.
Context (Hap : applied R (ti_NodeInstanceID id) at_ms records d d').

Lemma applied_ids : su_ConnectionID <$> records = ur_ConnectionID <$> ub_Records b.
Proof. unfold records. rewrite <-list_fmap_compose. done. Qed.

Lemma applied_known_mono R' : request_known R' d → request_known R' d'.
Proof.
  intros [c Hc]. exists c. rewrite (ap_out _ _ _ _ _ _ Hap); [done|]. left.
  intros ->. apply Hnk. by exists c.
Qed.

Lemma applied_known_other R' : R' ≠ R → request_known R' d' → request_known R' d.
Proof. intros Hne [c Hc]. exists c. by rewrite (ap_out _ _ _ _ _ _ Hap) in Hc by (by left). Qed.

Lemma applied_knownb R' : R' ≠ R → knownb R' d' = knownb R' d.
Proof.
  intros Hne. apply eq_true_iff_eq.
  rewrite !knownb_spec by (done || by eapply ap_wf).
  split; [by apply applied_known_other|apply applied_known_mono].
Qed.

Lemma applied_record c rx tx :
  NoDup (ur_ConnectionID <$> ub_Records b) →
  content (ub_Records b) !! c = Some (rx, tx) →
  (∃ u, usage_records d' !! (R, c) = Some u ∧ us_rx_bytes u = rx ∧ us_tx_bytes u = tx) ∧
  total_rx d' c = (total_rx d c + rx)%Z ∧ total_tx d' c = (total_tx d c + tx)%Z.
Proof.
  intros Hnd Hc. apply content_Some in Hc; [|done].
  destruct (ap_in _ _ _ _ _ _ Hap (server_record R b id (mkUsageRecord c tx rx)))
    as (_ & _ & Hu & Ht); [by apply list_elem_of_fmap_2|]. cbn in Hu, Ht.
  split; [by eexists|]. unfold total_rx, total_tx. rewrite Ht.
  destruct (usage_totals d !! c); cbn; lia.
Qed.

Lemma applied_total_other c :
  c ∉ ur_ConnectionID <$> ub_Records b → usage_totals d' !! c = usage_totals d !! c.
Proof. intros Hc. apply (ap_out_total _ _ _ _ _ _ Hap). by rewrite applied_ids. Qed.

Lemma applied_accounted :
  (∀ m, q !! R = Some m → batch_of q R b) → requests_accounted q d → requests_accounted q d'.
Proof.
  intros Hb Hac R' m Hm Hk c. destruct (decide (R' = R)) as [->|Hne].
  - destruct (Hb m Hm) as (Hm' & _ & _ & Hnd & _). rewrite Hm in Hm'. simplify_eq.
    destruct (content (ub_Records b) !! c) as [[rx tx]|] eqn:E.
    + by destruct (applied_record c rx tx Hnd E) as [? _].
    + apply content_None in E. rewrite (ap_out _ _ _ _ _ _ Hap) by (right; by rewrite applied_ids).
      destruct (usage_records d !! (R, c)) eqn:Hu; [|done]. destruct Hnk. by exists c, u.
  - specialize (Hac R' m Hm (applied_known_other R' Hne Hk) c).
    by rewrite (ap_out _ _ _ _ _ _ Hap) by (by left).
Qed.

Lemma whole_applied a : requests_whole a q d → requests_whole a q d'.
Proof.
  intros Hwh R' m Hm. destruct (Hwh R' m Hm) as [?|[Hk Hno]]; [by left|right].
  split; [by apply applied_known_mono|done].
Qed.

Lemma ack_fits_applied R' a : ack_fits q d R' a → ack_fits q d' R' a.
Proof.
  intros Hf Hok. destruct (Hf Hok) as (m & Hm & Hk & Hfit). exists m.
  split; [done|]. split; [by apply applied_known_mono|done].
Qed.
End Applied.

(** A report of this node that is accounted for the first time. *)
Lemma conserved_own q a d d' R id at_ms b sn c :
  usage_wf d → ¬ request_known R d →
  applied R (ti_NodeInstanceID id) at_ms (server_record R b id <$> ub_Records b) d d' →
  batch_of q R b → rows_frozen a q → requests_whole a q d →
  conserved a d sn c → conserved a d' sn c.
Proof.
  intros Hwf Hnk Hap (Hm & _ & _ & Hnd & Hne) Hfr Hwh Hc.
  assert (Hk' : request_known R d') by (by eapply request_known_applied).
  destruct (content (ub_Records b) !! c) as [[rx tx]|] eqn:E.
  - destruct (Hwh R _ Hm) as [Hall|[? _]]; [|done].
    destruct (Hall c _ E) as (r & Hr & HR). destruct (Hfr c r R Hr HR) as (m' & Hm' & Hsent).
    rewrite Hm in Hm'. injection Hm' as <-. rewrite E in Hsent. injection Hsent as Erx Etx.
    destruct (applied_record _ _ _ _ _ _ Hap c rx tx Hnd E) as (_ & Hrx' & Htx').
    unfold conserved in *. rewrite (row_of_Some _ _ _ Hr) in *. unfold counted in *. rewrite HR in *.
    rewrite (knownb_false R d Hwf Hnk) in Hc.
    rewrite (proj2 (knownb_spec R d' (ap_wf _ _ _ _ _ _ Hap)) Hk'). cbn in *. lia.
  - apply content_None in E. unfold conserved, total_rx, total_tx in *.
    rewrite (applied_total_other _ _ _ _ _ _ Hap c E).
    assert (counted d' (row_of a c) = counted d (row_of a c)) as ->; [|done].
    unfold counted, row_of. destruct (a !! c) as [r|] eqn:Hr; [|done]. cbn.
    destruct (ct_RequestID r) as [R'|] eqn:HR'; [|done].
    rewrite (applied_knownb _ _ _ _ _ _ Hwf Hnk Hap); [done|]. intros ->.
    destruct (Hfr c r R Hr HR') as (m' & Hm' & Hsent). rewrite Hm in Hm'. simplify_eq.
    apply content_None in E. congruence.
Qed.

(** A report of another node. *)
Lemma conserved_foreign q a d d' R id at_ms b sn c :
  usage_wf d → ¬ request_known R d →
  applied R (ti_NodeInstanceID id) at_ms (server_record R b id <$> ub_Records b) d d' →
  q !! R = None → rows_frozen a q →
  node_instances d !! ti_NodeInstanceID id = Some (ti_NodeID id) → ti_NodeID id ≠ node →
  connections d !! c = Some node →
  conserved a d sn c → conserved a d' sn c.
Proof.
  intros Hwf Hnk Hap HqR Hfr Hinst Hne Hconn Hc.
  assert (E : c ∉ ur_ConnectionID <$> ub_Records b).
  { intros (r & -> & Hr)%list_elem_of_fmap.
    destruct (ap_in _ _ _ _ _ _ Hap (server_record R b id r)) as (_ & Hreq & _);
      [by apply list_elem_of_fmap_2|].
    unfold requireConnectionOnInstance in Hreq. cbn in Hreq. rewrite Hinst, Hconn in Hreq.
    by apply bool_decide_eq_true in Hreq. }
  unfold conserved, total_rx, total_tx in *. rewrite (applied_total_other _ _ _ _ _ _ Hap c E).
  assert (counted d' (row_of a c) = counted d (row_of a c)) as ->; [|done].
  unfold counted, row_of. destruct (a !! c) as [r|] eqn:Hr; [|done]. cbn.
  destruct (ct_RequestID r) as [R'|] eqn:HR'; [|done].
  rewrite (applied_knownb _ _ _ _ _ _ Hwf Hnk Hap); [done|]. intros ->.
  destruct (Hfr c r R Hr HR') as (m' & Hm' & _). congruence.
Qed.

(** The inbox after a report has been handled. *)
Lemma inbox_fits_recorded q d id now R raw a x :
  inbox_fits q d x → unmarshal_ack raw = Some a → (ti_NodeID id = node → ack_fits q d R a) →
  inbox_fits q d (RecordProcessed now (ti_NodeID id) R "traffic_batch" StatusApplied raw "" x).
Proof.
  intros Hin Hraw Hfit R' p a' Hp Ha'.
  destruct (decide ((node, R') = (ti_NodeID id, R))) as [[= -> ->]|Hne].
  - rewrite IsProcessed_recorded in Hp by done. simplify_eq/=. auto.
  - rewrite IsProcessed_other in Hp by done. by eapply Hin.
Qed.

Lemma inv_server s now installation R b ack db' tr' :
  inv s → (R, b) ∈ net_batches s →
  HandleUsage allowed now (ident installation) R (Some b) (db s) (tr s) = (Some ack, db', tr') →
  inv (mkSys (ag s) (out s) db' tr' (seen s) (reqs s) (net_batches s) ((R, ack) :: net_acks s)).
Proof.
  intros Hi Hnet Hh. pose proof (i_db s Hi) as Hwf. pose proof (i_batches s Hi R b Hnet) as Hb.
  pose proof (HandleUsage_transport _ _ _ _ _ _ _ _ _ _ Hwf Hh) as Htr.
  assert (Hfit : ∀ d, usage_wf d → requests_accounted (reqs s) d → request_known R d →
            ack_fits (reqs s) d R (ack_of_totals (usageTotalsForRequest R d))).
  { intros d Hd Hac Hk _. destruct Hb as (Hm & _). eexists. split; [done|]. split; [done|].
    eapply fits_totals; try done. intros c. by eapply i_req_text. }
  apply HandleUsage_cases in Hh as [[-> Hans]|(b' & [= <-] & Hnk & HR & Hne & Hnode' & Hap & Hack)]; [| |done].
  - assert (Hfa : ack_fits (reqs s) (db s) R ack).
    { intros Hok. destruct (Hans ack eq_refl Hok) as [(p & Hp & Ha)|[Hk ->]].
      - by eapply (i_inbox s Hi).
      - apply Hfit; [done|apply Hi|done|done]. }
    split; cbn; try apply Hi.
    + intros R' a' [[= -> ->]|Ha']%elem_of_cons; [done|by apply Hi].
    + destruct Htr as [->|(raw & Hraw & [= ->] & ->)]; [apply Hi|].
      apply unmarshal_marshal_ack in Hraw. eapply inbox_fits_recorded; [apply Hi|done|done].
  - assert (Hk' : request_known R db') by (by eapply request_known_applied).
    assert (Hac' : requests_accounted (reqs s) db') by (eapply applied_accounted; try done; apply Hi).
    pose proof (ap_wf _ _ _ _ _ _ Hap) as Hwf'. pose proof (ap_same _ _ _ _ _ _ Hap) as (_ & Ei & Ec).
    assert (Hmono : ∀ R' a, ack_fits (reqs s) (db s) R' a → ack_fits (reqs s) db' R' a).
    { intros R' a. by eapply ack_fits_applied. }
    split; cbn; try apply Hi; try done.
    + rewrite Ei. apply Hi.
    + eapply whole_applied; try done. apply Hi.
    + intros R' a' [[= -> ->]|Ha']%elem_of_cons; [|by apply Hmono, Hi].
      destruct Hack as [[= ->]|[= ->]]; [by intros [=]|by apply Hfit].
    + destruct Htr as [->|(raw & Hraw & [= ->] & ->)];
        [intros R' p a Hp Ha; by eapply Hmono, (i_inbox s Hi)|].
      apply unmarshal_marshal_ack in Hraw. eapply inbox_fits_recorded; [|done|by intros _; apply Hfit].
      intros R' p a Hp Ha. by eapply Hmono, (i_inbox s Hi).
    + intros c. rewrite Ec. intros Hc.
      apply (conserved_own (reqs s) (ag s) (db s) db' R (ident installation) (TimeUnixMilli now) b);
        try done; by apply Hi.
Qed.

Lemma inv_other s now id R b ack db' tr' :
  inv s → ti_NodeID id ≠ node → reqs s !! R = None →
  node_instances (db s) !! ti_NodeInstanceID id = Some (ti_NodeID id) →
  HandleUsage allowed now id R b (db s) (tr s) = (ack, db', tr') →
  inv (mkSys (ag s) (out s) db' tr' (seen s) (reqs s) (net_batches s) (net_acks s)).
Proof.
  intros Hi Hid HqR Hinst Hh. pose proof (i_db s Hi) as Hwf.
  pose proof (HandleUsage_transport _ _ _ _ _ _ _ _ _ _ Hwf Hh) as Htr.
  apply HandleUsage_cases in Hh as [[-> _]|(b' & -> & Hnk & HR & Hne & Hnode' & Hap & _)]; [| |done].
  - split; cbn; try apply Hi. destruct Htr as [->|(raw & Hraw & _ & ->)]; [apply Hi|].
    apply unmarshal_marshal_ack in Hraw. eapply inbox_fits_recorded; [apply Hi|done|done].
  - pose proof (ap_wf _ _ _ _ _ _ Hap) as Hwf'. pose proof (ap_same _ _ _ _ _ _ Hap) as (_ & Ei & Ec).
    assert (Hmono : ∀ R' a, ack_fits (reqs s) (db s) R' a → ack_fits (reqs s) db' R' a).
    { intros R' a. by eapply ack_fits_applied. }
    split; cbn; try apply Hi; try done.
    + rewrite Ei. apply Hi.
    + eapply whole_applied; try done. apply Hi.
    + eapply applied_accounted; [done..| |apply Hi]. intros m Hm. congruence.
    + intros R' a Ha. by apply Hmono, Hi.
    + destruct Htr as [->|(raw & Hraw & _ & ->)];
        [intros R' p a Hp Ha; by eapply Hmono, (i_inbox s Hi)|].
      apply unmarshal_marshal_ack in Hraw. eapply inbox_fits_recorded; [|done|done].
      intros R' p a Hp Ha. by eapply Hmono, (i_inbox s Hi).
    + intros c. rewrite Ec. intros Hc.
      apply (conserved_foreign (reqs s) (ag s) (db s) db' R id (TimeUnixMilli now) b'); try done;
        by apply Hi.
Qed.

(** *** Settling *)
Section Settled.
Context (a a' : traffic_table) (q : gmap string req_map) (d : UsageDB) (R : string)
        (records : list AcknowledgedUsage).
Context (Hwf : traffic_wf a) (Hd : usage_wf d) (Hk : request_known R d).
Context (Hack : AcknowledgeUsage R records a = Ok a').

(** Rows of other requests are untouched, rows of this one are settled. *)
Lemma settled_row k r' :
  a' !! k = Some r' →
  ∃ r, a !! k = Some r ∧
    ((ct_RequestID r ≠ Some R ∧ r' = r) ∨
     (ct_RequestID r = Some R ∧ ∃ x, r' = ack_row x r)).
Proof.
  intros Hr'. pose proof (AcknowledgeUsage_Ok _ _ _ _ Hwf Hack k) as H1.
  destruct (a !! k) as [r|]; [|congruence]. exists r. split; [done|].
  unfold prepared_for in H1. case_bool_decide as HR.
  - right. split; [done|]. destruct H1 as (x & _ & _ & _ & _ & Hx). exists x. congruence.
  - left. split; [done|congruence].
Qed.

Lemma settled_text : text_table a → text_table a'.
Proof.
  intros Htx k r' Hr'. destruct (settled_row k r' Hr') as (r & Hr & [[_ ->]|[_ [x ->]]]); [by apply Htx|].
  destruct (Htx k r Hr) as [? _]. split; [done|]. by intros R' [=].
Qed.

Lemma settled_frozen : rows_frozen a q → rows_frozen a' q.
Proof.
  intros Hfr k r' R' Hr' HR'. destruct (settled_row k r' Hr') as (r & Hr & [[_ ->]|[_ [x ->]]]); [|done].
  by apply Hfr.
Qed.

Lemma settled_whole : requests_whole a q d → requests_whole a' q d.
Proof.
  intros Hwh R' m Hm. destruct (decide (R' = R)) as [->|Hne].
  - right. split; [done|]. intros k r' Hr'.
    by destruct (settled_row k r' Hr') as (r & Hr & [[? ->]|[_ [x ->]]]).
  - destruct (Hwh R' m Hm) as [Hall|[Hk' Hno]]; [left|right; split; [done|]].
    + intros k v Hv. destruct (Hall k v Hv) as (r & Hr & HR'). exists r. split; [|done].
      pose proof (AcknowledgeUsage_Ok _ _ _ _ Hwf Hack k) as H1. rewrite Hr in H1.
      unfold prepared_for in H1. rewrite bool_decide_eq_false_2 in H1; [done|]. congruence.
    + intros k r' Hr'. destruct (settled_row k r' Hr') as (r & Hr & [[? ->]|[_ [x ->]]]); [|done].
      by eapply Hno.
Qed.

Lemma settled_conserved sn c : conserved a d sn c → conserved a' d sn c.
Proof.
  pose proof (AcknowledgeUsage_Ok _ _ _ _ Hwf Hack c) as H1. unfold conserved, row_of.
  destruct (a !! c) as [r|]; [|by rewrite H1]. unfold prepared_for in H1. case_bool_decide as HR.
  - destruct H1 as (x & _ & _ & _ & _ & ->). cbn [default from_option Datatypes.id]. unfold counted.
    rewrite HR, (proj2 (knownb_spec R d Hd) Hk). cbn. lia.
  - by rewrite H1.
Qed.
End Settled.

Lemma inv_ack s R ack ag' out' :
  inv s → (R, ack) ∈ net_acks s → Ack ack_json R (Some ack) (ag s) (out s) = Ok (ag', out') →
  inv (mkSys ag' out' (db s) (tr s) (seen s) (reqs s) (net_batches s) (net_acks s)).
Proof.
  intros Hi Hnet. unfold Ack. destruct (ua_Ok ack) eqn:Hok; [|done]. cbn [negb].
  intros (a' & Hack & [= <- <-])%bind_Ok.
  destruct (i_acks s Hi R ack Hnet Hok) as (m & Hm & Hk & Hfit).
  pose proof (i_ag s Hi) as Hwf. split; cbn [ag out db tr seen reqs net_batches net_acks]; try apply Hi.
  - eapply AcknowledgeUsage_wf; [done| |done]. apply Hfit.
  - eapply settled_text; [done..|apply Hi].
  - eapply settled_frozen; [done..|apply Hi].
  - eapply settled_whole; [done..|apply Hi].
  - eapply outbox_ok_from; [|apply Hi]. by apply (outbox_maintenance (OMarkAcked R (ack_json ack))).
  - intros c Hc. eapply settled_conserved; try done; by apply Hi.
Qed.

Lemma inv_step s s' : inv s → step s s' → inv s'.
Proof.
  intros Hi Hstep. destruct Hstep.
  - by eapply inv_observe.
  - by eapply inv_prepare.
  - destruct (inv_prepare s R limit b ag' Hi) as (Hb & Ht & Hi'); [done..|].
    destruct Hi'. split; try done. cbn in *. by eapply outbox_enqueue.
  - pose proof (listed_batch_of s b Hi ltac:(done)) as Hb.
    pose proof (listed_batch_ok node Hnode (ag s) b (i_ag s Hi) (i_text s Hi) ltac:(done)) as (Ht & _).
    split; cbn; try apply Hi. eapply outbox_enqueue; try done. apply Hi.
  - split; cbn; try apply Hi. eapply outbox_ok_from; [|apply Hi]. by apply outbox_maintenance.
  - split; cbn; try apply Hi. intros R' b' [[= -> ->]|Hb']%elem_of_cons; [|by apply Hi].
    by eapply (i_out s Hi).
  - by eapply inv_server.
  - by eapply inv_ack.
  - by eapply inv_other.
  - split; cbn; try apply Hi. apply inbox_fits_maintenance; [done|apply Hi].
Qed.

Lemma inv_initial s : initial s → inv s.
Proof.
  intros [Ea Eo Hd Hi Ht Hs Hq [Hb Hk]]. split; rewrite ?Ea, ?Eo, ?Hq, ?Hb, ?Hk; try done.
  all: try (by intros ? ? ?%elem_of_nil).
  all: try (by intros ? ? ?%lookup_empty_Some).
  all: try (by intros ? ? ? ?%lookup_empty_Some).
  - intros R p a Hp. by apply Ht in Hp.
  - intros c _. unfold conserved, row_of. rewrite lookup_empty, Hs. cbn.
    unfold total_rx, total_tx. lia.
Qed.

Lemma inv_reachable s0 s : initial s0 → rtc step s0 s → inv s.
Proof.
  intros Hini Hrun. apply inv_initial in Hini.
  induction Hrun as [|s0 s1 s2 Hs _ IH]; [done|]. apply IH. by eapply inv_step.
Qed.

(** C1. Traffic is accounted exactly once.  However batches and
    acknowledgements are lost, repeated, delayed or reordered, wherever the
    agent stops between two transactions, and whatever other nodes and the
    maintenance of the queues do: for every connection of the node the server
    has accounted what the agent observed, less a rest that the agent still
    holds as unacknowledged.  So nothing is accounted twice, nothing is lost,
    and when nothing is left unacknowledged the totals are exactly the
    observed traffic. *)
Theorem traffic_accounted_once s0 s c :
  initial s0 → rtc step s0 s → connections (db s) !! c = Some node →
  ∃ rx tx, (seen_of (seen s) c).1 = (total_rx (db s) c + rx)%Z ∧
           (seen_of (seen s) c).2 = (total_tx (db s) c + tx)%Z ∧
           (0 ≤ rx ≤ ct_UnacknowledgedRXBytes (row_of (ag s) c))%Z ∧
           (0 ≤ tx ≤ ct_UnacknowledgedTXBytes (row_of (ag s) c))%Z.
Proof.
  intros Hini Hrun Hc. pose proof (inv_reachable _ _ Hini Hrun) as Hi.
  destruct (i_conserve s Hi c Hc) as [Hrx Htx]. set (r := row_of (ag s) c) in *.
  exists (ct_UnacknowledgedRXBytes r - (counted (db s) r).1)%Z,
         (ct_UnacknowledgedTXBytes r - (counted (db s) r).2)%Z.
  destruct (row_of_wf (ag s) c (i_ag s Hi)) as (_ & Hck & _). fold r in Hck.
  apply traffic_check_spec in Hck. unfold counted in *.
  destruct (ct_RequestID r) as [R|]; [destruct (knownb R (db s))|]; cbn in *; lia.
Qed.

(** C2. Every accepting answer is settled: in any state the system can reach,
    an acknowledgement with [ok] that the server has sent at any time is
    accepted by the agent, also when it comes late or repeatedly, and
    afterwards no row is frozen for its request. *)
Theorem accepting_ack_settles s0 s R ack :
  initial s0 → rtc step s0 s → (R, ack) ∈ net_acks s → ua_Ok ack = true →
  ∃ ag' out', Ack ack_json R (Some ack) (ag s) (out s) = Ok (ag', out') ∧
              ∀ k r, ag' !! k = Some r → ct_RequestID r ≠ Some R.
Proof.
  intros Hini Hrun Hnet Hok. pose proof (inv_reachable _ _ Hini Hrun) as Hi.
  pose proof (i_ag s Hi) as Hwf.
  destruct (i_acks s Hi R ack Hnet Hok) as (m & Hm & Hk & Hnd & Hval & _ & Hkeys & Hcov).
  assert (∃ a', AcknowledgeUsage R (ua_Records ack) (ag s) = Ok a') as [a' Hack].
  { destruct (i_whole s Hi R m Hm) as [Hall|[_ Hno]].
    - destruct (AcknowledgeUsage_settles R (ua_Records ack) (ag s)) as (a' & Ha' & _); [done..| | |by eauto].
      + intros k. rewrite Hkeys. split.
        * intros [v Hv]. by apply (Hall k v).
        * intros (r & Hr & HR). destruct (i_rows s Hi k r R Hr HR) as (m' & Hm' & Hv).
          rewrite Hm in Hm'. simplify_eq. eauto.
      + intros x r Hx Hr.
        assert (is_Some (m !! ack_ConnectionID x)) as [v Hv]
          by (apply Hkeys; by apply list_elem_of_fmap_2).
        destruct (Hall _ _ Hv) as (r' & Hr' & HR). rewrite Hr in Hr'. simplify_eq.
        destruct (i_rows s Hi _ _ _ Hr HR) as (m' & Hm' & Hv'). rewrite Hm in Hm'. simplify_eq.
        by eapply Hcov.
    - destruct (collect_ack_total _ Hnd Hval) as (acks & Hacks & _). exists (ag s).
      unfold AcknowledgeUsage. rewrite Hacks. cbn [mbind result_bind]. fold (ack_states R (ag s)).
      rewrite bool_decide_eq_true_2; [done|].
      destruct (ack_states R (ag s)) as [|r l] eqn:E; [done|].
      assert (Hr : r ∈ ack_states R (ag s)) by (rewrite E; left).
      apply elem_of_ack_states in Hr as [HR Hr]; [|done]. by destruct (Hno _ _ Hr). }
  eexists a', _. unfold Ack. rewrite Hok, Hack. cbn. split; [done|].
  intros k r' Hr'.
  by destruct (settled_row _ _ _ _ Hwf Hack k r' Hr') as (r & Hr & [[? ->]|[_ [x ->]]]).
Qed.
End Delivery.

(** ** A concrete system

    Codecs that write the number of a value in stdpp's enumeration. *)
#[export] Instance UsageRecord_countable : Countable UsageRecord.
Proof.
  refine (inj_countable' (fun r => (ur_ConnectionID r, ur_TXBytes r, ur_RXBytes r))
                         (fun '(c, tx, rx) => mkUsageRecord c tx rx) _).
  by intros [].
Defined.
#[export] Instance UsageBatch_eq_dec : EqDecision UsageBatch.
Proof. solve_decision. Defined.
#[export] Instance UsageBatch_countable : Countable UsageBatch.
Proof.
  refine (inj_countable' (fun b => (ub_RequestID b, ub_NodeID b, ub_FromMS b, ub_ToMS b,
                                    ub_Records b, ub_CreatedMS b))
                         (fun '(r, n, f, t, l, c) => mkUsageBatch r n f t l c) _).
  by intros [].
Defined.
#[export] Instance AcknowledgedUsage_countable : Countable AcknowledgedUsage.
Proof.
  refine (inj_countable' (fun r => (ack_ConnectionID r, ack_RXBytes r, ack_TXBytes r))
                         (fun '(c, rx, tx) => mkAcknowledgedUsage c rx tx) _).
  by intros [].
Defined.
#[export] Instance UsageAck_eq_dec : EqDecision UsageAck.
Proof. solve_decision. Defined.
#[export] Instance UsageAck_countable : Countable UsageAck.
Proof.
  refine (inj_countable' (fun a => (ua_Ok a, ua_Records a)) (fun '(o, l) => mkUsageAck o l) _).
  by intros [].
Defined.

Definition number_text {A} `{Countable A} (x : A) : string :=
  let n := Zpos (encode x) in Strconv.digits (Strconv.digit_fuel n) n "".
Definition text_number {A} `{Countable A} (s : string) : option A :=
  match Strconv.parse_unsigned s with Some (Zpos p) => decode p | _ => None end.

Lemma text_number_text {A} `{Countable A} (x : A) : text_number (number_text x) = Some x.
Proof.
  unfold text_number, number_text. set (n := Zpos (encode x)).
  destruct (Strconv.digits_head (Strconv.digit_fuel n) n "") as (d & rest & _ & E); [done..|].
  pose proof (Strconv.parse_digits_format n ltac:(done)) as Hp. rewrite E in *.
  unfold Strconv.parse_unsigned. rewrite Hp. apply decode_encode.
Qed.

Lemma number_text_nonempty {A} `{Countable A} (x : A) : number_text x ≠ "".
Proof.
  unfold number_text. set (n := Zpos (encode x)).
  by destruct (Strconv.digits_head (Strconv.digit_fuel n) n "") as (d & rest & _ & ->).
Qed.

#[export] Instance demo_batch_codec : UsageBatchCodec.
Proof.
  refine {| marshal_batch b := Ok (number_text b);
            unmarshal_batch s := match text_number s with Some b => Ok b | None => Err "json" end |}.
  - by eauto.
  - intros b raw _ [= <-]. by rewrite text_number_text.
  - done.
Defined.

#[export] Instance demo_ack_codec : UsageAckCodec.
Proof.
  refine {| marshal_ack a := Ok (if bool_decide (a = mkUsageAck false []) then "" else number_text a);
            unmarshal_ack s := if bool_decide (s = "") then Some (mkUsageAck false [])
                               else text_number s |}.
  - intros a raw [= <-]. destruct (decide (a = mkUsageAck false [])) as [->|E]; [done|].
    rewrite (bool_decide_eq_false_2 _ E), bool_decide_eq_false_2 by apply number_text_nonempty. apply text_number_text.
  - done.
Defined.

(** A node with one connection that has seen ten bytes in and twenty out. *)
Definition demo_db : UsageDB :=
  mkUsageDB {["node"]} {["inst" := "node"]} {["c1" := "node"]} ∅ ∅.
Definition demo_record : UsageRecord := mkUsageRecord "c1" 20 10.
Definition ok_or {A} (x : A) (r : result A) : A := match r with Ok a => a | Err _ => x end.

Definition demo0 : Sys := mkSys ∅ (mkStore ∅ ∅) demo_db (mkStore ∅ ∅) ∅ ∅ [] [].
Definition demo1 : Sys :=
  let '(a, sn) := ok_or (∅, ∅) (foldlR observe_note [demo_record] (∅, ∅)) in
  mkSys a (mkStore ∅ ∅) demo_db (mkStore ∅ ∅) sn ∅ [] [].
Definition demo_prep : option UsageBatch * traffic_table :=
  ok_or (None, ∅) (PrepareUsageRequest "r1" "node" 100 (ag demo1)).
Definition demo_batch : UsageBatch := default (mkUsageBatch "" "" 0 0 [] 0) demo_prep.1.
Definition demo_out : SQLStore := ok_or (mkStore ∅ ∅) (enqueue "node" demo_now demo_batch (mkStore ∅ ∅)).
Definition demo2 : Sys :=
  mkSys demo_prep.2 demo_out demo_db (mkStore ∅ ∅) (seen demo1) {["r1" := content (ub_Records demo_batch)]} [] [].
Definition demo_row0 : row := default (demo_row StatusPending) (outbox demo_out !! ("node", "r1")).
Definition demo3 : Sys :=
  mkSys (ag demo2) (out demo2) demo_db (mkStore ∅ ∅) (seen demo1) (reqs demo2)
        [(id demo_row0, stamp demo_now demo_batch)] [].
Definition demo_handled : option UsageAck * UsageDB * SQLStore :=
  HandleUsage (fun _ => true) demo_now (mkIdentity "node" "ai" "inst") "r1"
    (Some (stamp demo_now demo_batch)) demo_db (mkStore ∅ ∅).
Definition demo_ack : UsageAck := default (mkUsageAck false []) demo_handled.1.1.
Definition demo4 : Sys :=
  mkSys (ag demo2) (out demo2) demo_handled.1.2 demo_handled.2 (seen demo1) (reqs demo2)
        (net_batches demo3) [("r1", demo_ack)].

Lemma demo_initial : initial "node" "inst" demo0.
Proof. by split. Qed.

Lemma demo_run : rtc (step "node" "inst" (fun _ => true) (fun _ => "")) demo0 demo4.
Proof.
  apply (rtc_l _ _ demo1).
  { apply (st_observe _ _ _ _ demo0 [demo_record]).
    - repeat constructor; vm_compute; discriminate.
    - vm_compute. reflexivity. }
  apply (rtc_l _ _ demo2).
  { apply (st_prepare_enqueue _ _ _ _ demo1 "r1" 100 demo_batch demo_prep.2 demo_now demo_out).
    - split_and!; [done..|]. intros [c [u Hu]]. vm_compute in Hu. done.
    - vm_compute. reflexivity.
    - vm_compute. reflexivity. }
  apply (rtc_l _ _ demo3).
  { apply (st_send _ _ _ _ demo2 ("node", "r1") demo_row0 (stamp demo_now demo_batch));
      vm_compute; reflexivity. }
  apply (rtc_l _ _ demo4); [|apply rtc_refl].
  apply (st_server _ _ _ _ demo3 demo_now "ai" "r1" (stamp demo_now demo_batch) demo_ack).
  - apply list_elem_of_singleton. vm_compute. reflexivity.
  - vm_compute. reflexivity.
Qed.

Lemma traffic_accounted_once_witness :
  ∃ rx tx, (seen_of (seen demo4) "c1").1 = (total_rx (db demo4) "c1" + rx)%Z ∧
           (seen_of (seen demo4) "c1").2 = (total_tx (db demo4) "c1" + tx)%Z ∧
           (0 ≤ rx ≤ 10)%Z ∧ (0 ≤ tx ≤ 20)%Z ∧ total_tx (db demo4) "c1" = 20%Z.
Proof.
  destruct (traffic_accounted_once "node" "inst" (fun _ => true) (fun _ => "") eq_refl demo0 demo4 "c1"
              demo_initial demo_run ltac:(vm_compute; reflexivity)) as (rx & tx & H1 & H2 & H3 & H4).
  exists rx, tx. split; [exact H1|]. split; [exact H2|].
  split; [exact H3|]. split; [exact H4|]. vm_compute. reflexivity.
Defined.

Lemma accepting_ack_settles_witness :
  ∃ ag' out', Ack (fun _ => "") "r1" (Some demo_ack) (ag demo4) (out demo4) = Ok (ag', out') ∧
              ∀ k r, ag' !! k = Some r → ct_RequestID r ≠ Some "r1".
Proof.
  apply (accepting_ack_settles "node" "inst" (fun _ => true) (fun _ => "") eq_refl demo0 demo4 "r1"
           demo_ack demo_initial demo_run); [left|vm_compute; reflexivity].
Defined.

Lemma demo_db_wf : usage_wf demo_db.
Proof. by split. Qed.

Definition demo_served0 : UsageDB * SQLStore := (demo_db, mkStore ∅ ∅).
Definition demo_served1 : UsageDB * SQLStore := (demo_handled.1.2, demo_handled.2).
Definition demo_total : ConnectionUsageTotal := mkTotal "c1" 20 10 5000.

Lemma demo_served : rtc handled demo_served0 demo_served1.
Proof.
  apply rtc_once. exists (fun _ => true), demo_now, (mkIdentity "node" "ai" "inst"), "r1",
    (Some (stamp demo_now demo_batch)), (Some demo_ack). vm_compute. reflexivity.
Qed.

Lemma usage_totals_exact_witness :
  (tot_TXBytes demo_total = sum_of us_tx_bytes "c1" (usage_records demo_served1.1) ∧
   tot_RXBytes demo_total = sum_of us_rx_bytes "c1" (usage_records demo_served1.1) ∧
   0 ≤ tot_TXBytes demo_total ≤ max_int64 ∧ 0 ≤ tot_RXBytes demo_total ≤ max_int64)%Z.
Proof.
  exact (usage_totals_exact demo_served0 demo_served1 "c1" demo_total demo_db_wf demo_served
           ltac:(vm_compute; reflexivity)).
Defined.

Lemma demo_handled_eq :
  HandleUsage (fun _ => true) demo_now (mkIdentity "node" "ai" "inst") "r1"
    (Some (stamp demo_now demo_batch)) demo_db (mkStore ∅ ∅) =
  (Some demo_ack, demo_served1.1, demo_served1.2).
Proof. vm_compute. reflexivity. Qed.

Lemma demo_inbox_ok : inbox_ok "node" demo_db (mkStore ∅ ∅).
Proof. intros R p ack Hp. discriminate Hp. Qed.

Lemma HandleUsage_once_witness :
  request_known "r1" demo_served1.1.
Proof.
  exact (proj1 (HandleUsage_once (fun _ => true) demo_now (mkIdentity "node" "ai" "inst") "r1"
           (Some (stamp demo_now demo_batch)) demo_db (mkStore ∅ ∅) demo_ack
           demo_served1.1 demo_served1.2 demo_db_wf demo_inbox_ok demo_handled_eq
           ltac:(vm_compute; reflexivity))).
Defined.

Definition demo_table0 : traffic_table := {["c1" := mkTraffic "c1" 10 20 0 0 10 20 0 0 None]}.

Lemma demo_table0_wf : traffic_wf demo_table0 ∧ text_table demo_table0.
Proof.
  split; intros k r; unfold demo_table0; rewrite lookup_singleton_Some; intros [<- <-];
    split_and!; done.
Qed.

Lemma demo_uuid (i : nat) : "r1" ≠ "" ∧ ascii_text "r1" = true.
Proof. done. Qed.

Lemma EnsureOutbox_complete_witness :
  ∃ tick' t' tr', EnsureOutbox "node" (fun _ => "r1") (fun _ => demo_now) 0 demo_table0 (mkStore ∅ ∅) =
                    Some (tick', t', tr', None) ∧ traffic_wf t' ∧
    (∀ k, match demo_table0 !! k with
          | Some r => t' !! k = Some r ∨ ∃ R, t' !! k = Some (freeze_row R r)
          | None => t' !! k = None
          end) ∧
    (∀ k r, t' !! k = Some r →
       (0 < ct_UnacknowledgedRXBytes r ∨ 0 < ct_UnacknowledgedTXBytes r)%Z →
       ∃ R, ct_RequestID r = Some R) ∧
    (∀ k r R, t' !! k = Some r → ct_RequestID r = Some R → is_Some (outbox tr' !! ("node", R))).
Proof.
  exact (EnsureOutbox_complete "node" (fun _ => "r1") (fun _ => demo_now) eq_refl demo_uuid
           0 demo_table0 (mkStore ∅ ∅) (proj1 demo_table0_wf) (proj2 demo_table0_wf)).
Defined.
