(* ===== verification/ServerModel.v ===== *)
(** * ServerModel: the domain records of the control plane

    The structs of [src/internal/server/model/model.go] that the modelled
    operations store and pass around.  The string-typed enumerations of the
    source stay strings, because the code tests them for the empty string and
    the database can hold any text; their constants have the names of the
    source.  A pointer that may be nil is an [option]. *)

From S2P Require Import Prelude GoLib.
Import GoTime.

(** ** Enumerations *)
Definition StatusActive : string := "active".
Definition StatusAbsent : string := "absent".
Definition StatusHeld : string := "held".
Definition StatusDeleted : string := "deleted".
Definition StatusError : string := "error".

Definition AccountStatusActive : string := "active".
Definition AccountStatusHeld : string := "held".
Definition AccountStatusDeleted : string := "deleted".

Definition ConnectionStatusActive : string := "active".
Definition ConnectionStatusAbsent : string := "absent".
Definition ConnectionStatusHeld : string := "held".
Definition ConnectionStatusDeleted : string := "deleted".
Definition ConnectionStatusError : string := "error".

Definition NodeTypeAmneziaAPI : string := "amnezia_api".
Definition NodeTypeNativeHy2 : string := "native_hysteria".
Definition NodeTypeNativeAmneziaWG : string := "native_amneziawg".

Definition ProtocolHysteria2 : string := "hysteria2".
Definition ProtocolAmneziaWG : string := "amneziawg".

Definition ConfigHy2URI : string := "hy2_uri".
Definition ConfigAmneziaVPN : string := "amnezia_vpn".
Definition ConfigAmneziaConf : string := "amnezia_conf".

(** ** Accounts and nodes *)
Record Account := mkAccount {
  acc_ID : string;
  acc_Username : string;
  acc_DisplayName : string;
  acc_Status : string;
  acc_CreatedAt : time;
  acc_UpdatedAt : time;
}.

Record Node := mkNode {
  nd_ID : string;
  nd_Name : string;
  nd_Type : string;
  nd_Region : string;
  nd_Status : string;
  nd_CreatedAt : time;
  nd_UpdatedAt : time;
}.

Record NodeInstance := mkNodeInstance {
  ni_ID : string;
  ni_NodeID : string;
  ni_Host : string;
  ni_SSHPort : Z;
  ni_SSHUser : string;
  ni_SSHKey : string;
  ni_Status : string;
  ni_CreatedAt : time;
  ni_UpdatedAt : time;
  ni_ActivatedAt : time;
  ni_RetiredAt : time;
}.

Record AgentInstallation := mkAgentInstallation {
  ai_ID : string;
  ai_NodeInstanceID : string;
  ai_AgentType : string;
  ai_Status : string;
  ai_CertificateFingerprintSHA256 : string;
  ai_CertificateSerial : string;
  ai_CertificateNotBefore : time;
  ai_CertificateNotAfter : time;
  ai_CreatedAt : time;
  ai_UpdatedAt : time;
}.

(** ** Connections *)
Record Connection := mkConnection {
  cn_ID : string;
  cn_AccountID : string;
  cn_NodeID : string;
  cn_Name : string;
  cn_Protocol : string;
  cn_DesiredStatus : string;
  cn_AppliedStatus : string;
  cn_DesiredVersionMS : Z;
  cn_AppliedVersionMS : Z;
  cn_LastErrorID : string;
  cn_CreatedAt : time;
  cn_UpdatedAt : time;
}.

Definition Pending (c : Connection) : bool :=
  negb (bool_decide (cn_DesiredStatus c = cn_AppliedStatus c)) ||
  (cn_AppliedVersionMS c <? cn_DesiredVersionMS c)%Z.

Record IssuedConfig := mkIssuedConfig {
  ic_ID : string;
  ic_ConnectionID : string;
  ic_Kind : string;
  ic_Slug : string;
  ic_Name : string;
  ic_Client : string;
  ic_ContentType : string;
  ic_Config : string;
  ic_Status : string;
  ic_CreatedAt : time;
  ic_UpdatedAt : time;
}.

Record Hysteria2ConnectionMaterial := mkHysteria2Material {
  hm_ConnectionID : string;
  hm_Password : string;
  hm_PasswordHash : string;
  hm_CreatedAt : time;
  hm_UpdatedAt : time;
}.

Record AmneziaWGConnectionMaterial := mkAmneziaWGMaterial {
  am_ConnectionID : string;
  am_NodeID : string;
  am_ClientPublicKey : string;
  am_ClientPrivateKey : string;
  am_PresharedKey : string;
  am_AssignedIPv4 : string;
  am_CreatedAt : time;
  am_UpdatedAt : time;
}.

Record AmneziaAPIConnectionRef := mkAmneziaAPIRef {
  ar_ConnectionID : string;
  ar_RemoteID : string;
  ar_RemoteName : string;
  ar_CreatedAt : time;
  ar_UpdatedAt : time;
}.

Record ConnectionBundle := mkConnectionBundle {
  cb_ExpectedNodeConfigVersionMS : Z;
  cb_Connection : Connection;
  cb_Hysteria2Material : option Hysteria2ConnectionMaterial;
  cb_AmneziaWGMaterial : option AmneziaWGConnectionMaterial;
  cb_AmneziaAPIRef : option AmneziaAPIConnectionRef;
  cb_Configs : list IssuedConfig;
}.

(** ** Node configurations *)
Record Hysteria2NodeConfig := mkHysteria2NodeConfig {
  hc_NodeID : string;
  hc_EndpointHost : string;
  hc_EndpointPort : Z;
  hc_ObfsEnabled : bool;
  hc_ObfsType : string;
  hc_ObfsPassword : string;
  hc_UseIPv6 : bool;
  hc_MasqueradeURL : string;
  hc_ConfigVersionMS : Z;
  hc_CreatedAt : time;
  hc_UpdatedAt : time;
  hc_SettingsJSON : string;
  hc_AppliedConfigVersionMS : Z;
  hc_ConfigErrorID : string;
  hc_MasqueradeFileSetID : string;
  hc_AppliedMasqueradeFileSetID : string;
}.

Record AmneziaAPINodeConfig := mkAmneziaAPINodeConfig {
  apc_NodeID : string;
  apc_BaseURL : string;
  apc_APIKey : string;
  apc_CreatedAt : time;
  apc_UpdatedAt : time;
}.

(** The wire parameters of AmneziaWG that the control plane only passes on. *)
Record AmneziaWGObfuscation := mkAmneziaWGObfuscation {
  awg_JC : Z; awg_JMin : Z; awg_JMax : Z;
  awg_S1 : Z; awg_S2 : Z; awg_S3 : Z; awg_S4 : Z;
  awg_H1 : string; awg_H2 : string; awg_H3 : string; awg_H4 : string;
  awg_I1 : string; awg_I2 : string; awg_I3 : string; awg_I4 : string; awg_I5 : string;
  awg_HeaderProtectionKey : string;
  awg_ContentPaddingAddition : string;
  awg_TimingsJSON : string;
  awg_RandomTrailers : bool;
  awg_DisableCookies : bool;
}.

Record AmneziaWGNodeConfig := mkAmneziaWGNodeConfig {
  awg_NodeID : string;
  awg_EndpointHost : string;
  awg_EndpointPort : Z;
  awg_ListenPort : Z;
  awg_ServerIPv4 : string;
  awg_ClientIPv4CIDR : string;
  awg_FirstClientIPv4 : string;
  awg_LastClientIPv4 : string;
  awg_DNS : string;
  awg_MTU : Z;
  awg_PersistentKeepalive : Z;
  awg_ClientRouteAllowedIPs : string;
  awg_ClientRouteMode : string;
  awg_ClientExcludedRoutes : string;
  awg_ServerPrivateKey : string;
  awg_ServerPublicKey : string;
  awg_Obfuscation : AmneziaWGObfuscation;
  awg_AppliedConfigVersionMS : Z;
  awg_ConfigErrorID : string;
  awg_ConfigVersionMS : Z;
  awg_CreatedAt : time;
  awg_UpdatedAt : time;
}.

Record AmneziaWGSyncMaterial := mkAmneziaWGSyncMaterial {
  sm_NodeConfig : AmneziaWGNodeConfig;
  sm_Connection : Connection;
  sm_Material : AmneziaWGConnectionMaterial;
}.

(** ** The effective desired state of one credential

    [agentprotocol.StoredConnection]: what the storage projects for the sync
    framework, which treats the material as opaque. *)
Record StoredConnection (M : Type) := mkStoredConnection {
  sc_ConnectionID : string;
  sc_Active : bool;
  sc_UpdatedAtMS : Z;
  sc_Material : M;
}.
Arguments mkStoredConnection {M} _ _ _ _.
Arguments sc_ConnectionID {M} _.
Arguments sc_Active {M} _.
Arguments sc_UpdatedAtMS {M} _.
Arguments sc_Material {M} _.

#[export] Instance Connection_eq_dec : EqDecision Connection.
Proof. solve_decision. Defined.
#[export] Instance Node_eq_dec : EqDecision Node.
Proof. solve_decision. Defined.
#[export] Instance Account_eq_dec : EqDecision Account.
Proof. solve_decision. Defined.
