(* ===== verification/NativeAwg.v ===== *)
(** * NativeAwg: configuration texts of self-hosted AmneziaWG nodes

    [src/internal/server/integrations/nativeawg/config.go] and
    [server_config.go]: validation of a node's settings, the client and server
    configuration texts, and the issued configuration record.  The
    internationalised domain name conversion of [golang.org/x/net/idna] is a
    parameter.  A message that quotes a rejected value leaves the value out. *)

From S2P Require Import Prelude GoLib GoJson GoNet AwgConfig ServerModel.
From Stdlib Require Import Ascii.
Import Net AwgConfig.

Module NativeAwg.
Local Open Scope Z_scope.

Definition DefaultDNS : string := "1.1.1.1, 1.0.0.1".
Definition DefaultMTU : Z := 1376.
Definition DefaultPersistentKeepalive : Z := 25.
Definition DefaultClientRouteAllowedIPs : string := "0.0.0.0/0".
Definition DefaultDisabledPeerAllowedIPs : string := "0.0.0.0/32".
Definition DefaultAssignedPrefix : Z := 32.
Definition MaxParameterValue : Z := 65535.
Definition DefaultServerIPv4 : string := "10.8.1.1".
Definition DefaultClientIPv4CIDR : string := "10.8.1.0/24".
Definition DefaultFirstClientIPv4 : string := "10.8.1.2".
Definition DefaultLastClientIPv4 : string := "10.8.1.254".

Definition Itoa : Z → string := Strconv.FormatInt.

(** ** Single values *)

Definition defaultString (value fallback : string) : string :=
  match TrimSpace value with EmptyString => fallback | s => s end.

Definition defaultInt (value fallback : Z) : Z := if value =? 0 then fallback else value.

(** [unicode.IsControl] of the first rune: C0, DEL, and C1 encoded in two bytes. *)
Definition control_rune (s : string) : bool :=
  match s with
  | EmptyString => false
  | String c r =>
      let n := nat_of_ascii c in
      (n <? 32)%nat || (n =? 127)%nat ||
      ((n =? 194)%nat && match r with String d _ => Json.cont 128 159 d | EmptyString => false end)
  end.

(** The rest of a text after its first rune; an invalid byte is a rune. *)
Definition next_rune (s : string) : string :=
  match s with
  | EmptyString => EmptyString
  | String _ r => match Json.split_rune s with Some (_, rest) => rest | None => r end
  end.

Fixpoint control_runes (fuel : nat) (s : string) : bool :=
  match fuel with
  | O => false
  | S fuel => control_rune s || control_runes fuel (next_rune s)
  end.

Definition hasControlChar (value : string) : bool := control_runes (String.length value) value.

Definition validateConfigValue (label value : string) : result string :=
  let trimmed := TrimSpace value in
  if bool_decide (trimmed = EmptyString) then Err ("amneziawg config requires " +:+ label)
  else if hasControlChar trimmed then Err ("amneziawg " +:+ label +:+ " contains control characters")
  else Ok trimmed.

Definition validatePort (label : string) (port : Z) : result unit :=
  if (port <? 1) || (65535 <? port) then Err ("amneziawg " +:+ label +:+ " must be between 1 and 65535")
  else Ok tt.

Definition validateIPv4Address (label value : string) : result string :=
  ipText ← validateConfigValue label value;
  if contains_byte ":" ipText then Err ("amneziawg " +:+ label +:+ " must be dotted IPv4")
  else if bool_decide (ParseIP ipText = []) || bool_decide (To4 (ParseIP ipText) = [])
  then Err ("amneziawg " +:+ label +:+ " must be IPv4") else Ok ipText.

Definition splitCSV (value : string) : list string :=
  filter (fun s => s ≠ EmptyString) (TrimSpace <$> Split "," value).

(** A loop that only checks its elements. *)
Definition check_all {A} (f : A → result unit) (l : list A) : result unit :=
  foldlR (fun _ x => f x) l tt.

Definition validateDNS (value : string) : result string :=
  let entries := splitCSV value in
  if bool_decide (entries = []) then Err "amneziawg DNS requires at least one IPv4 address"
  else
    _ ← check_all (fun e => _ ← validateIPv4Address "DNS entry" e; Ok tt) entries;
    Ok (Join ", " entries).

Definition validateAllowedRoutes (value : string) : result string :=
  let routes := splitCSV value in
  if bool_decide (routes = []) then Err "amneziawg allowed routes require at least one IPv4 CIDR"
  else
    _ ← check_all (fun r => match ParseCIDR r with
                            | Some _ => Ok tt
                            | None => Err "amneziawg allowed route must be a CIDR"
                            end) routes;
    Ok (Join ", " routes).

Definition bytesCompareIPv4 (a b : IP) : Z :=
  match list_find (fun p => p.1 ≠ p.2) (zip (take 4 a) (take 4 b)) with
  | None => 0
  | Some (_, (x, y)) => if x <? y then -1 else 1
  end.

Definition validateIPv4Pool (clientCIDR serverIPv4 firstIPv4 lastIPv4 : string) : result unit :=
  match ParseCIDR (TrimSpace clientCIDR) with
  | None => Err "amneziawg client IPv4 CIDR must be an IPv4 network"
  | Some (_, network) =>
      if bool_decide (To4 (net_IP network) = []) then
        Err "amneziawg client IPv4 CIDR must be an IPv4 network"
      else
        let server := To4 (ParseIP (TrimSpace serverIPv4)) in
        let first := To4 (ParseIP (TrimSpace firstIPv4)) in
        let last := To4 (ParseIP (TrimSpace lastIPv4)) in
        if bool_decide (server = []) || bool_decide (first = []) || bool_decide (last = []) then
          Err "amneziawg IPv4 pool requires valid server, first client and last client addresses"
        else if negb (Contains network server) || negb (Contains network first) ||
                negb (Contains network last) then
          Err "amneziawg server and client IPv4 addresses must belong to client IPv4 CIDR"
        else if 0 <? bytesCompareIPv4 first last then
          Err "amneziawg first client IPv4 must not exceed last client IPv4"
        else Ok tt
  end.

(** The timings text as [json.Unmarshal] reads it into a nil map. *)
Definition read_timings (raw : string) : gmap string string * bool :=
  JsonRead.Unmarshal (fun v _ => JsonRead.decode_map v) raw ∅.

Definition headers (o : AmneziaWGObfuscation) : list string := [awg_H1 o; awg_H2 o; awg_H3 o; awg_H4 o].
Definition signatures (o : AmneziaWGObfuscation) : list string :=
  [awg_I1 o; awg_I2 o; awg_I3 o; awg_I4 o; awg_I5 o].

Definition validateAmneziaWGParameters (o : AmneziaWGObfuscation) : result unit :=
  timings ←
    (if bool_decide (awg_TimingsJSON o = EmptyString) then Ok ∅
     else let '(m, ok) := read_timings (awg_TimingsJSON o) in
          if ok : bool then Ok m else Err "invalid timings");
  _ ← Validate (headers o) (signatures o) (awg_ContentPaddingAddition o) timings;
  _ ← (if bool_decide (awg_HeaderProtectionKey o = EmptyString) then Ok tt
       else
         let '(key, ok) := Base64.DecodeStd (awg_HeaderProtectionKey o) in
         if negb ok || negb (String.length key =? 32)%nat then
           Err "amneziawg header protection key must encode 32 bytes"
         else if (awg_S1 o <? 12) || (awg_S2 o <? 12) || (awg_S3 o <? 12) || (awg_S4 o <? 12) then
           Err "amneziawg 3.1 S1-S4 must be >= 12"
         else Ok tt);
  _ ← check_all (fun item =>
        if (item.2 <? 0) || (MaxParameterValue <? item.2) then
          Err ("amneziawg " +:+ item.1 +:+ " must be between 1 and " +:+ Itoa MaxParameterValue)
        else Ok tt)
      [("jc", awg_JC o); ("jmin", awg_JMin o); ("jmax", awg_JMax o);
       ("s1", awg_S1 o); ("s2", awg_S2 o); ("s3", awg_S3 o); ("s4", awg_S4 o)];
  if awg_JMax o <? awg_JMin o then Err "amneziawg jmin must be <= jmax" else Ok tt.

(** ** Endpoint names *)

Definition alnum (c : ascii) : bool :=
  let n := nat_of_ascii c in
  ((48 <=? n)%nat && (n <=? 57)%nat) || ((65 <=? n)%nat && (n <=? 90)%nat) ||
  ((97 <=? n)%nat && (n <=? 122)%nat).

(** [^[a-zA-Z0-9](?:[a-zA-Z0-9-]{0,61}[a-zA-Z0-9])?$] *)
Definition domain_label (l : string) : bool :=
  let ends_alnum s := match s with String c _ => alnum c | EmptyString => false end in
  ends_alnum l && ends_alnum (String.rev l) &&
  all_bytes (fun c => alnum c || bool_decide (c = "-"%char)) l &&
  (String.length l <=? 63)%nat.

(** [^[0-9.]+$] *)
Definition numeric_name (s : string) : bool :=
  negb (bool_decide (s = EmptyString)) &&
  all_bytes (fun c => is_digit c || bool_decide (c = "."%char)) s.

Section Idna.
(** [idna.Lookup.ToASCII] *)
Variable ToASCII : string → option string.

Definition validateEndpointHost (value : string) : result string :=
  host ← validateConfigValue "endpoint host" value;
  match ParseIP host with
  | [] =>
      match ToASCII (TrimSuffix host ".") with
      | None => Err "invalid endpoint domain"
      | Some name =>
          if (253 <? String.length name)%nat || numeric_name name then Err "invalid endpoint domain"
          else if forallb domain_label (Split "." name) then Ok name
          else Err "invalid endpoint domain"
      end
  | ip => Ok (IP_String ip)
  end.

Definition ValidateNodeConfig (config : AmneziaWGNodeConfig) : result unit :=
  let serverIPv4 := defaultString (awg_ServerIPv4 config) DefaultServerIPv4 in
  let clientCIDR := defaultString (awg_ClientIPv4CIDR config) DefaultClientIPv4CIDR in
  let firstIPv4 := defaultString (awg_FirstClientIPv4 config) DefaultFirstClientIPv4 in
  let lastIPv4 := defaultString (awg_LastClientIPv4 config) DefaultLastClientIPv4 in
  _ ← validateEndpointHost (awg_EndpointHost config);
  _ ← validatePort "endpoint port" (awg_EndpointPort config);
  _ ← validatePort "listen port" (defaultInt (awg_ListenPort config) (awg_EndpointPort config));
  _ ← validateIPv4Address "server IPv4" serverIPv4;
  _ ← validateIPv4Pool clientCIDR serverIPv4 firstIPv4 lastIPv4;
  _ ← validateDNS (defaultString (awg_DNS config) DefaultDNS);
  let mtu := defaultInt (awg_MTU config) DefaultMTU in
  if (mtu <? 1) || (MaxParameterValue <? mtu) then
    Err ("amneziawg MTU must be between 1 and " +:+ Itoa MaxParameterValue)
  else
  let keepalive := awg_PersistentKeepalive config in
  if (keepalive <? 0) || (MaxParameterValue <? keepalive) then
    Err ("amneziawg persistent keepalive must be between 0 and " +:+ Itoa MaxParameterValue)
  else
  _ ← validateAllowedRoutes (defaultString (awg_ClientRouteAllowedIPs config) DefaultClientRouteAllowedIPs);
  _ ← validateConfigValue "server private key" (awg_ServerPrivateKey config);
  _ ← validateConfigValue "server public key" (awg_ServerPublicKey config);
  validateAmneziaWGParameters (awg_Obfuscation config).

(** ** Configuration texts *)

(** The lines a section header of the interface is followed by. *)
Definition interface_lines (o : AmneziaWGObfuscation) : list string :=
  (if bool_decide (awg_HeaderProtectionKey o = EmptyString) then []
   else ("HeaderProtectionKey = " +:+ awg_HeaderProtectionKey o) ::
        (if bool_decide (awg_ContentPaddingAddition o = EmptyString) then []
         else ["ContentPaddingAddition = " +:+ awg_ContentPaddingAddition o])) ++
  (let timings := (read_timings (awg_TimingsJSON o)).1 in
   flat_map (fun key =>
     match default EmptyString (timings !! key) with
     | EmptyString => []
     | v => [key +:+ " = " +:+ v]
     end) Timings) ++
  ["RandomTrailers = " +:+ FormatBool (awg_RandomTrailers o);
   "DisableCookies = " +:+ FormatBool (awg_DisableCookies o)].

Definition profile_line (o : AmneziaWGObfuscation) (line : string) : list string :=
  if HasPrefix line "I" && HasSuffix line " = " then []
  else line :: (if bool_decide (line = "[Interface]") then interface_lines o else []).

Definition newline : ascii := ascii_of_nat 10.

Definition profile_lines (o : AmneziaWGObfuscation) (lines : list string) : list string :=
  flat_map (profile_line o) lines.

Definition renderProfile (o : AmneziaWGObfuscation) (lines : list string) : string :=
  Join (String newline EmptyString) (profile_lines o lines).

(** The obfuscation parameters, the same in both texts. *)
Definition obfuscation_lines (o : AmneziaWGObfuscation) : list string :=
  ["Jc = " +:+ Itoa (awg_JC o); "Jmin = " +:+ Itoa (awg_JMin o); "Jmax = " +:+ Itoa (awg_JMax o);
   "S1 = " +:+ Itoa (awg_S1 o); "S2 = " +:+ Itoa (awg_S2 o);
   "S3 = " +:+ Itoa (awg_S3 o); "S4 = " +:+ Itoa (awg_S4 o);
   "H1 = " +:+ awg_H1 o; "H2 = " +:+ awg_H2 o; "H3 = " +:+ awg_H3 o; "H4 = " +:+ awg_H4 o;
   "I1 = " +:+ awg_I1 o; "I2 = " +:+ awg_I2 o; "I3 = " +:+ awg_I3 o; "I4 = " +:+ awg_I4 o;
   "I5 = " +:+ awg_I5 o].

Definition client_lines (config : AmneziaWGNodeConfig) (material : AmneziaWGConnectionMaterial) :
    result (list string) :=
  _ ← ValidateNodeConfig config;
  clientPrivateKey ← validateConfigValue "client private key" (am_ClientPrivateKey material);
  psk ← validateConfigValue "preshared key" (am_PresharedKey material);
  serverPublicKey ← validateConfigValue "server public key" (awg_ServerPublicKey config);
  endpointHost ← validateEndpointHost (awg_EndpointHost config);
  _ ← validatePort "endpoint port" (awg_EndpointPort config);
  assignedIPv4 ← validateIPv4Address "assigned IPv4" (am_AssignedIPv4 material);
  dns ← validateDNS (defaultString (awg_DNS config) DefaultDNS);
  let mtu := defaultInt (awg_MTU config) DefaultMTU in
  let keepalive := awg_PersistentKeepalive config in
  allowedIPs ← validateAllowedRoutes
    (defaultString (awg_ClientRouteAllowedIPs config) DefaultClientRouteAllowedIPs);
  Ok (["[Interface]"; "PrivateKey = " +:+ clientPrivateKey;
       "Address = " +:+ assignedIPv4 +:+ "/" +:+ Itoa DefaultAssignedPrefix;
       "DNS = " +:+ dns; "MTU = " +:+ Itoa mtu] ++
      obfuscation_lines (awg_Obfuscation config) ++
      [EmptyString; "[Peer]"; "PublicKey = " +:+ serverPublicKey; "PresharedKey = " +:+ psk;
       "Endpoint = " +:+ JoinHostPort endpointHost (Itoa (awg_EndpointPort config));
       "AllowedIPs = " +:+ allowedIPs; "PersistentKeepalive = " +:+ Itoa keepalive; EmptyString]).

Definition RenderClientConf (config : AmneziaWGNodeConfig) (material : AmneziaWGConnectionMaterial) :
    result string :=
  renderProfile (awg_Obfuscation config) <$> client_lines config material.

Definition ServerConnectionAllowedIPs (connection : Connection) (material : AmneziaWGConnectionMaterial) :
    result string :=
  let st := cn_DesiredStatus connection in
  if bool_decide (st = EmptyString) || bool_decide (st = ConnectionStatusActive) then
    assignedIPv4 ← validateIPv4Address "active server peer assigned IPv4" (am_AssignedIPv4 material);
    Ok (assignedIPv4 +:+ "/" +:+ Itoa DefaultAssignedPrefix)
  else if bool_decide (st = ConnectionStatusHeld) then Ok DefaultDisabledPeerAllowedIPs
  else if bool_decide (st = ConnectionStatusDeleted) then Err "amneziawg deleted peer must be omitted"
  else Err "amneziawg server peer has unknown desired status".

Definition peer_lines (lines : list string) (item : AmneziaWGSyncMaterial) : result (list string) :=
  if bool_decide (cn_DesiredStatus (sm_Connection item) = ConnectionStatusDeleted) then Ok lines
  else
    publicKey ← validateConfigValue "peer public key" (am_ClientPublicKey (sm_Material item));
    psk ← validateConfigValue "peer preshared key" (am_PresharedKey (sm_Material item));
    allowedIPs ← ServerConnectionAllowedIPs (sm_Connection item) (sm_Material item);
    Ok (lines ++ [EmptyString; "[Peer]"; "PublicKey = " +:+ publicKey; "PresharedKey = " +:+ psk;
                  "AllowedIPs = " +:+ allowedIPs]).

(** The prefix length is taken from the stored text, which validation only
    looked at after defaulting and trimming; without a slash the index
    expression panics. *)
Definition server_lines (config : AmneziaWGNodeConfig) (connections : list AmneziaWGSyncMaterial) :
    result (list string) :=
  _ ← ValidateNodeConfig config;
  serverPrivateKey ← validateConfigValue "server private key" (awg_ServerPrivateKey config);
  serverIPv4 ← validateIPv4Address "server IPv4" (awg_ServerIPv4 config);
  let listenPort := defaultInt (awg_ListenPort config) (awg_EndpointPort config) in
  _ ← validatePort "listen port" listenPort;
  match Split "/" (awg_ClientIPv4CIDR config) !! 1%nat with
  | None => Err "panic: index out of range"
  | Some prefix =>
      lines ← foldlR peer_lines connections
        (["[Interface]"; "PrivateKey = " +:+ serverPrivateKey;
          "Address = " +:+ serverIPv4 +:+ "/" +:+ prefix; "ListenPort = " +:+ Itoa listenPort] ++
         obfuscation_lines (awg_Obfuscation config));
      Ok (lines ++ [EmptyString])
  end.

Definition RenderServerConfig (config : AmneziaWGNodeConfig) (connections : list AmneziaWGSyncMaterial) :
    result string :=
  renderProfile (awg_Obfuscation config) <$> server_lines config connections.
End Idna.

Definition NewIssuedAmneziaConf (connectionID name conf : string) : IssuedConfig := {|
  ic_ID := EmptyString;
  ic_ConnectionID := connectionID;
  ic_Kind := ConfigAmneziaConf;
  ic_Slug := "awg-conf";
  ic_Name := defaultString name "AmneziaWG .conf";
  ic_Client := "amneziawg";
  ic_ContentType := "text/plain; charset=utf-8";
  ic_Config := conf;
  ic_Status := EmptyString;
  ic_CreatedAt := GoTime.zero_time;
  ic_UpdatedAt := GoTime.zero_time;
|}.

(** ** No value adds a line

    [clean s]: [s] has no line break. *)

Definition clean (s : string) : Prop := contains_byte newline s = false.

Lemma clean_append s t : clean (s +:+ t) ↔ clean s ∧ clean t.
Proof. unfold clean. rewrite contains_byte_append. apply orb_false_iff. Qed.

Lemma clean_cons c s : clean (String c s) ↔ c ≠ newline ∧ clean s.
Proof. unfold clean. cbn. rewrite orb_false_iff, bool_decide_eq_false. done. Qed.

Lemma clean_all_bytes f s : f newline = false → all_bytes f s = true → clean s.
Proof.
  intros Hf. induction s as [|c s IH]; [done|]. cbn. intros [Hc Hs]%andb_prop.
  apply clean_cons. split; [congruence|by apply IH].
Qed.

Lemma clean_Join sep l : clean sep → Forall clean l → clean (Join sep l).
Proof.
  intros Hsep. induction 1 as [|s l Hs Hl IH]; [done|]. destruct l as [|s' l]; [done|].
  change (Join sep (s :: s' :: l)) with (s +:+ sep +:+ Join sep (s' :: l)).
  rewrite !clean_append. done.
Qed.

Lemma clean_Split c s : c ≠ newline → clean s ↔ Forall clean (Split c s).
Proof.
  intros Hc. induction s as [|a s IH]; cbn; [by split; [repeat constructor|]|].
  rewrite clean_cons. case_bool_decide as Ha; subst.
  - rewrite list.Forall_cons. rewrite IH. split; [by intros [_ ?]|by intros [_ ?]].
  - destruct (Split_cons c s) as (p & ps & E). rewrite E in *. rewrite IH, !list.Forall_cons, clean_cons.
    tauto.
Qed.

Lemma clean_Itoa n : clean (Itoa n).
Proof. by apply Strconv.FormatInt_contains. Qed.

(** A control byte [x] is seen wherever it is. *)
Lemma next_rune_spec x c s :
  (nat_of_ascii x < 32)%nat → c ≠ x → (String.length (next_rune (String c s)) ≤ String.length s)%nat ∧
  (contains_byte x (next_rune (String c s)) = false → contains_byte x (String c s) = false).
Proof.
  intros Hx Hc. cbn [next_rune]. destruct (Json.split_rune (String c s)) as [[r rest]|] eqn:E.
  2:{ split; [done|]. intros H. cbn [contains_byte]. by rewrite H, bool_decide_eq_false_2. }
  assert (Hr : String c s = r +:+ rest ∧ contains_byte x r = false ∧ r ≠ EmptyString).
  { destruct (JsonRead.split_rune_Some _ _ _ E) as (Heq & _ & c' & r' & -> & _). split; [done|].
    split; [|done]. eapply JsonRead.split_rune_high; [exact E|lia]. }
  destruct Hr as (Heq & Hr & Hne). split.
  - apply (f_equal String.length) in Heq. rewrite str_length_append in Heq.
    destruct r; [done|]. cbn in Heq. lia.
  - intros. rewrite Heq, contains_byte_append. by rewrite Hr.
Qed.

Lemma control_runes_byte x fuel s :
  (nat_of_ascii x < 32)%nat → (String.length s ≤ fuel)%nat → control_runes fuel s = false → contains_byte x s = false.
Proof.
  intros Hx. revert s. induction fuel as [|fuel IH]; intros s Hl; cbn [control_runes].
  { destruct s; [done|cbn in Hl; lia]. }
  intros [Hc Hr]%orb_false_iff. destruct s as [|c s]; [done|].
  assert (Hn : c ≠ x) by (intros ->; cbn [control_rune] in Hc; apply orb_false_iff in Hc as [[Hc _]%orb_false_iff _]; apply Nat.ltb_ge in Hc; lia).
  destruct (next_rune_spec x c s Hx Hn) as [Hlen Hcl]. apply Hcl, IH; [cbn in Hl; lia|done].
Qed.

Lemma clean_control fuel s : (String.length s ≤ fuel)%nat → control_runes fuel s = false → clean s.
Proof. apply control_runes_byte. vm_compute. lia. Qed.

Lemma validateConfigValue_Ok label v x :
  validateConfigValue label v = Ok x → x = TrimSpace v ∧ x ≠ EmptyString ∧ clean x.
Proof.
  unfold validateConfigValue. case_bool_decide; [done|]. destruct (hasControlChar _) eqn:E; [done|].
  intros [= <-]. split_and!; try done. by eapply clean_control.
Qed.

Lemma validateIPv4Address_Ok label v x :
  validateIPv4Address label v = Ok x → x = TrimSpace v ∧ clean x ∧ To4 (ParseIP x) ≠ [].
Proof.
  unfold validateIPv4Address. intros (y & (-> & _ & Hy)%validateConfigValue_Ok & H)%bind_Ok.
  destruct (contains_byte _ _); [done|]. case_bool_decide; [done|]. case_bool_decide; [done|].
  by injection H as <-.
Qed.

Lemma clean_Range v r : Range v = Ok r → clean v.
Proof.
  unfold Range, range_groups. destruct (span is_digit v) as [a rest] eqn:E.
  apply span_spec in E as [-> Ha].
  apply (clean_all_bytes is_digit) in Ha; [|done].
  destruct a as [|x a]; [done|]. rewrite clean_append. intros H. split; [done|].
  destruct rest as [|c rest]; [done|]. case_bool_decide; [subst|done].
  destruct (span is_digit rest) as [b rest'] eqn:E. apply span_spec in E as [-> Hb].
  apply (clean_all_bytes is_digit) in Hb; [|done].
  apply clean_cons. split; [done|]. apply clean_append. split; [done|].
  by destruct b, rest'.
Qed.

Lemma clean_small_range v : small_range v = true → clean v.
Proof.
  unfold small_range. rewrite !orb_true_iff, !bool_decide_eq_true.
  intros [[-> | ->]|H]; [done..|]. destruct (Range v) eqn:E; [|done]. by eapply clean_Range.
Qed.

Lemma clean_ValidateCPS v : ValidateCPS v = Ok tt → clean v.
Proof.
  unfold ValidateCPS. destruct (ContainsAny _ _) eqn:E; [done|]. intros _.
  cbn in E. by apply orb_false_iff in E as [_ [? _]%orb_false_iff].
Qed.

Lemma digit_val_newline : Strconv.digit_val newline = None.
Proof. done. Qed.

Lemma clean_ipv4_fields s v d acc l : ipv4_fields s v d acc = Some l → clean s.
Proof.
  revert v d acc. induction s as [|c s IH]; intros v d acc; [done|]. cbn [ipv4_fields].
  intros H. apply clean_cons. destruct (Strconv.digit_val c) eqn:E.
  - split; [intros ->; by rewrite digit_val_newline in E|].
    repeat case_match; try done. by eapply IH.
  - destruct (char_is c 46) eqn:Ec; [|done]. split; [intros ->; done|].
    repeat case_match; try done. by eapply IH.
Qed.

Lemma clean_hex_group s acc n r : hex_group s acc n = Some r → clean r.2 → clean s.
Proof.
  revert acc n. induction s as [|c s IH]; intros acc n; cbn [hex_group]; [by intros [= <-]|].
  destruct (hex_val c) eqn:E; [|by intros [= <-]].
  case_match; [done|]. intros Hg Hr. apply clean_cons. split; [intros ->; done|]. by eapply IH.
Qed.

Lemma clean_ipv6_groups fuel s ip e ip' e' :
  ipv6_groups fuel s ip e = Some (ip', e', EmptyString) → clean s.
Proof.
  revert s ip e. induction fuel as [|fuel IH]; intros s ip e; cbn [ipv6_groups]; [by intros [= _ _ ->]|].
  destruct (hex_group s 0 0) as [[[acc [|n]] rest]|] eqn:E; [done| |done].
  pose proof (clean_hex_group _ _ _ _ E) as Hg. cbn [snd] in Hg.
  destruct (match rest with String c _ => char_is c 46 | EmptyString => false end) eqn:Hv4.
  { intros H. destruct (parseIPv4 s) eqn:Hp; [by eapply clean_ipv4_fields|].
    repeat case_match; done. }
  destruct rest as [|c more]; [by auto|].
  destruct (char_is c 58) eqn:Hc; cbn [negb]; [|done].
  assert (Hn : ∀ x, char_is x 58 = true → x ≠ newline) by (by intros x Hx ->).
  intros H. apply Hg, clean_cons. split; [by apply Hn|].
  destruct more as [|c' more']; [done|].
  destruct (char_is c' 58) eqn:Hc'; [|by eapply IH].
  apply clean_cons. split; [by apply Hn|]. case_match; [done|].
  destruct more'; [done|]. by eapply IH.
Qed.

Lemma clean_parseAddr s b : parseAddr s = Some b → clean s.
Proof.
  unfold parseAddr. destruct (family s) as [[]|]; [by apply clean_ipv4_fields| |done].
  case_match; [done|]. unfold parseIPv6.
  destruct (cut_prefix "::" s) as [r|] eqn:E; [apply cut_prefix_Some in E as ->; rewrite clean_append|].
  - intros H'. split; [done|]. destruct r as [|c r]; [done|].
    destruct (ipv6_groups _ _ _ _) as [[[ip e] [|]]|] eqn:Hg; [by eapply clean_ipv6_groups|done..].
  - intros H'. destruct (ipv6_groups _ _ _ _) as [[[ip e] [|]]|] eqn:Hg; [by eapply clean_ipv6_groups|done..].
Qed.

Lemma clean_dtoi s v n : dtoi s v = Some n → clean s.
Proof.
  revert v. induction s as [|c s IH]; intros v; [done|]. cbn [dtoi].
  destruct (Strconv.digit_val c) eqn:E; cbn; [|done]. case_match; [done|].
  intros. apply clean_cons. split; [intros ->; done|]. by eapply IH.
Qed.

Lemma Cut_spec n s a b : Cut n s = Some (a, b) → s = a +:+ String (ascii_of_nat n) b.
Proof.
  revert a. induction s as [|c s IH]; intros a; cbn [Cut]; [done|].
  destruct (char_is c n) eqn:E.
  - intros [= <- <-]. apply Nat.eqb_eq in E. rewrite <-E, ascii_nat_embedding. done.
  - destruct (Cut n s) as [[a' b']|]; cbn; [|done]. intros [= <- <-]. by rewrite (IH a').
Qed.

Lemma clean_ParseCIDR s r : ParseCIDR s = Some r → clean s.
Proof.
  unfold ParseCIDR. destruct (Cut 47 s) as [[addr mask]|] eqn:E; cbn; [|done].
  apply Cut_spec in E as ->. destruct (parseAddr addr) eqn:Ha; cbn; [|done].
  apply clean_parseAddr in Ha. intros H. apply clean_append. split; [done|].
  apply clean_cons. split; [done|]. destruct mask as [|c mask]; [done|].
  destruct (dtoi (String c mask) 0) eqn:Hm; [|done]. by eapply clean_dtoi.
Qed.

Lemma hex_digit_char_clean d : 0 <= d < 16 → hex_digit_char d ≠ newline.
Proof.
  intros Hd. assert (H : Forall (fun d => hex_digit_char d ≠ newline) (seqZ 0 16)) by (by repeat constructor).
  rewrite list.Forall_forall in H. apply H, elem_of_seqZ. lia.
Qed.

Lemma clean_hex_text fuel x acc : clean acc → clean (hex_text fuel x acc).
Proof.
  revert x acc. induction fuel as [|fuel IH]; intros x acc Ha; [done|]. cbn [hex_text].
  assert (clean (String (hex_digit_char (x mod 16)) acc)).
  { apply clean_cons. split; [|done]. apply hex_digit_char_clean, Z.mod_pos_bound. lia. }
  case_match; [done|]. by apply IH.
Qed.

Lemma clean_colons l : clean (colons l).
Proof.
  induction l as [|x l IH]; [done|]. destruct l as [|y l]; [by apply clean_hex_text|].
  change (colons (x :: y :: l)) with (group_text x +:+ ":" +:+ colons (y :: l)).
  rewrite !clean_append. split_and!; [by apply clean_hex_text|done|done].
Qed.

Lemma clean_ipv6_text ip : clean (ipv6_text ip).
Proof.
  unfold ipv6_text. destruct (longest_zeros _ _ _) as [a b].
  case_match; [apply clean_colons|]. rewrite !clean_append. split_and!; [apply clean_colons|done|apply clean_colons].
Qed.

Lemma clean_dotted l : clean (dotted l).
Proof.
  induction l as [|x l IH]; [done|]. destruct l as [|y l]; [apply clean_Itoa|].
  change (dotted (x :: y :: l)) with (octet_text x +:+ "." +:+ dotted (y :: l)).
  rewrite !clean_append. split_and!; [apply clean_Itoa|done|done].
Qed.

Lemma clean_IP_String s : clean (IP_String (ParseIP s)).
Proof.
  destruct (ParseIP_length s) as [->|Hl]; [done|]. unfold IP_String.
  destruct (ParseIP s) as [|x l] eqn:E; [done|]. rewrite Hl.
  destruct (To4 _); [apply clean_ipv6_text|apply clean_dotted].
Qed.

Lemma clean_validateEndpointHost ToASCII v x : validateEndpointHost ToASCII v = Ok x → clean x.
Proof.
  unfold validateEndpointHost. intros (h & Hh & H)%bind_Ok.
  pose proof (clean_IP_String h) as Hc. destruct (ParseIP h) as [|a l]; [|by injection H as <-].
  destruct (ToASCII _) as [name|]; [|done]. case_match; [done|].
  destruct (forallb domain_label (Split "." name)) eqn:E; [|done]. injection H as <-.
  apply (clean_Split "."%char); [done|]. apply list.Forall_forall. intros l Hl.
  rewrite forallb_forall in E. specialize (E l (proj1 (list_elem_of_In _ _) Hl)).
  unfold domain_label in E. apply andb_prop in E as [[_ E]%andb_prop _].
  by eapply clean_all_bytes; [|exact E].
Qed.

Lemma check_all_Ok {A} (f : A → result unit) l : check_all f l = Ok tt → Forall (fun x => f x = Ok tt) l.
Proof.
  unfold check_all. induction l as [|x l IH]; [by constructor|]. cbn.
  intros ([] & Hx & H)%bind_Ok. constructor; [done|by apply IH].
Qed.

Lemma splitCSV_trimmed v e : e ∈ splitCSV v → ∃ p, e = TrimSpace p.
Proof. unfold splitCSV. intros [_ (p & -> & _)%list_elem_of_fmap]%list_elem_of_filter. by exists p. Qed.

Lemma clean_validateDNS v x : validateDNS v = Ok x → clean x.
Proof.
  unfold validateDNS. case_bool_decide; [done|]. intros ([] & Hc%check_all_Ok & [= <-])%bind_Ok.
  apply clean_Join; [done|]. rewrite !list.Forall_forall in *. intros e He.
  destruct (splitCSV_trimmed _ _ He) as [p ->].
  apply Hc in He. apply bind_Ok in He as (y & (-> & Hy & _)%validateIPv4Address_Ok & _).
  by rewrite TrimSpace_idem in Hy.
Qed.

Lemma clean_validateAllowedRoutes v x : validateAllowedRoutes v = Ok x → clean x.
Proof.
  unfold validateAllowedRoutes. case_bool_decide; [done|]. intros ([] & Hc%check_all_Ok & [= <-])%bind_Ok.
  apply clean_Join; [done|]. eapply list.Forall_impl; [exact Hc|]. cbn. intros r Hr.
  destruct (ParseCIDR r) eqn:E; [|done]. by eapply clean_ParseCIDR.
Qed.

(** ** The rendered texts line by line *)

Definition is_section (line : string) : Prop := HasPrefix line "[" = true.
#[local] Instance is_section_dec line : Decision (is_section line).
Proof. unfold is_section. apply _. Defined.

(** The section headers of a text. *)
Definition sections (conf : string) : list string := filter is_section (Split newline conf).

Record clean_parameters (o : AmneziaWGObfuscation) : Prop := {
  cp_headers : Forall clean (headers o);
  cp_signatures : Forall clean (signatures o);
  cp_padding : clean (awg_ContentPaddingAddition o);
  cp_timings : map_Forall (fun _ v => clean v) (read_timings (awg_TimingsJSON o)).1;
}.

Lemma validateAmneziaWGParameters_clean o :
  validateAmneziaWGParameters o = Ok tt → clean_parameters o.
Proof.
  unfold validateAmneziaWGParameters. intros (timings & Ht & H)%bind_Ok.
  apply bind_Ok in H as ([] & (Hh & Hp & Hm & Hs)%Validate_values & _).
  assert (timings = (read_timings (awg_TimingsJSON o)).1) as ->.
  { case_bool_decide as E; [rewrite E; by injection Ht as <-|].
    destruct (read_timings _) as [m []]; [by injection Ht as <-|done]. }
  split.
  - eapply list.Forall_impl; [exact Hh|]. cbn. intros h Hr.
    destruct (Range h) eqn:E; [|done]. by eapply clean_Range.
  - eapply list.Forall_impl; [exact Hs|]. apply clean_ValidateCPS.
  - by apply clean_small_range.
  - intros k v Hv. apply clean_small_range. by apply (Hm k v).
Qed.

Definition plain (line : string) : Prop := clean line ∧ ¬ is_section line.

Lemma plain_field key v : clean v → clean key → HasPrefix (key +:+ v) "[" = false → plain (key +:+ v).
Proof. intros Hv Hk Hp. split; [by apply clean_append|]. unfold is_section. by rewrite Hp. Qed.

Lemma interface_lines_plain o :
  clean_parameters o → clean (awg_HeaderProtectionKey o) → Forall plain (interface_lines o).
Proof.
  intros [_ _ Hp Ht] Hk. unfold interface_lines. rewrite !Forall_app. split_and!.
  - case_bool_decide; [constructor|]. constructor; [by apply plain_field|].
    case_bool_decide; constructor; [by apply plain_field|constructor].
  - apply list.Forall_forall. intros line. rewrite list_elem_of_In, in_flat_map.
    intros (key & Hkey & Hline). rewrite <-list_elem_of_In in Hkey.
    destruct ((read_timings (awg_TimingsJSON o)).1 !! key) as [v|] eqn:E; [|by destruct Hline].
    apply (Ht key) in E. destruct v as [|c v]; [by destruct Hline|]. cbn in Hline.
    destruct Hline as [<-|[]]. unfold Timings in Hkey.
    assert (Hall : Forall (fun k => clean k ∧ HasPrefix (k +:+ " = " +:+ String c v) "[" = false) Timings)
      by (by repeat constructor).
    rewrite list.Forall_forall in Hall. destruct (Hall key Hkey) as [Hc Hpre].
    apply plain_field; [by apply clean_append|done|done].
  - repeat constructor; apply plain_field; try done; by destruct (_ : bool).
Qed.

Lemma profile_lines_spec o lines :
  Forall plain (interface_lines o) → Forall clean lines →
  Forall clean (profile_lines o lines) ∧ filter is_section (profile_lines o lines) = filter is_section lines.
Proof.
  intros Hi. induction 1 as [|line lines Hc _ [IHc IHf]]; [done|].
  unfold profile_lines in *. cbn [flat_map]. rewrite Forall_app, list.filter_app, IHf, list.filter_cons.
  unfold profile_line. destruct (HasPrefix line "I") eqn:HI; cbn [andb].
  - assert (Hs : ¬ is_section line).
    { by apply HasPrefix_byte in HI as [r ->]. }
    rewrite (decide_False (P := is_section line)) by done.
    destruct (HasSuffix line " = "); [by split; [split|]|].
    rewrite bool_decide_eq_false_2 by (by intros ->). rewrite list.filter_cons, decide_False by done.
    split; [split; [by constructor|done]|done].
  - case_bool_decide as E; subst.
    + assert (Hn : filter is_section (interface_lines o) = []).
      { apply filter_none. eapply list.Forall_impl; [exact Hi|]. by intros x []. }
      rewrite list.filter_cons, Hn. split; [split; [|done]|done].
      constructor; [done|]. eapply list.Forall_impl; [exact Hi|]. by intros x [].
    + split; [split; [by constructor|done]|]. rewrite list.filter_cons. by case_decide.
Qed.

Section Lines.
Context (ToASCII : string → option string).

Lemma ValidateNodeConfig_parameters config :
  ValidateNodeConfig ToASCII config = Ok tt → validateAmneziaWGParameters (awg_Obfuscation config) = Ok tt.
Proof.
  unfold ValidateNodeConfig. cbv zeta. intros H.
  repeat match type of H with
  | (_ ← _; _) = _ => apply bind_Ok in H as (? & _ & H)
  | (if ?b then _ else _) = _ => destruct b; [done|]
  end. done.
Qed.

Lemma obfuscation_lines_plain o : clean_parameters o → Forall plain (obfuscation_lines o).
Proof.
  intros [Hh Hs _ _]. unfold headers, signatures in *. rewrite !list.Forall_cons in Hh. rewrite !list.Forall_cons in Hs.
  destruct Hh as (? & ? & ? & ? & _), Hs as (? & ? & ? & ? & ? & _).
  repeat constructor; (apply plain_field; [solve [done|apply clean_Itoa]|done|done]).
Qed.

Lemma clean_JoinHostPort h p : clean h → clean p → clean (JoinHostPort h p).
Proof. intros Hh Hp. unfold JoinHostPort. case_match; rewrite !clean_append; done. Qed.

Lemma client_lines_spec config material lines :
  client_lines ToASCII config material = Ok lines →
  validateAmneziaWGParameters (awg_Obfuscation config) = Ok tt ∧
  Forall clean lines ∧ filter is_section lines = ["[Interface]"; "[Peer]"].
Proof.
  unfold client_lines. cbv zeta. intros ([] & Hv & H)%bind_Ok.
  apply ValidateNodeConfig_parameters in Hv. split; [done|].
  apply validateAmneziaWGParameters_clean, obfuscation_lines_plain in Hv.
  apply bind_Ok in H as (k & (_ & _ & Hk)%validateConfigValue_Ok & H).
  apply bind_Ok in H as (psk & (_ & _ & Hpsk)%validateConfigValue_Ok & H).
  apply bind_Ok in H as (pub & (_ & _ & Hpub)%validateConfigValue_Ok & H).
  apply bind_Ok in H as (host & Hhost%clean_validateEndpointHost & H).
  apply bind_Ok in H as (_ & _ & H).
  apply bind_Ok in H as (ip & (_ & Hip & _)%validateIPv4Address_Ok & H).
  apply bind_Ok in H as (dns & Hdns%clean_validateDNS & H).
  apply bind_Ok in H as (ips & Hips%clean_validateAllowedRoutes & H).
  apply Ok_inj in H as <-. split.
  - rewrite !Forall_app. split_and!.
    + repeat constructor; rewrite ?clean_append; split_and?; (done || apply clean_Itoa).
    + eapply list.Forall_impl; [exact Hv|]. by intros x [].
    + repeat constructor; rewrite ?clean_append; split_and?; try (done || apply clean_Itoa).
      by apply clean_JoinHostPort, clean_Itoa.
  - rewrite !list.filter_app, (filter_none is_section (obfuscation_lines _)); [done|].
    eapply list.Forall_impl; [exact Hv|]. by intros x [].
Qed.

Lemma renderProfile_lines o lines :
  lines ≠ [] → filter is_section lines ≠ [] →
  validateAmneziaWGParameters o = Ok tt → clean (awg_HeaderProtectionKey o) → Forall clean lines →
  Split newline (renderProfile o lines) = profile_lines o lines ∧
  sections (renderProfile o lines) = filter is_section lines.
Proof.
  intros Hne Hs Hv%validateAmneziaWGParameters_clean Hk Hl.
  destruct (profile_lines_spec o lines) as [Hc Hf]; [by apply interface_lines_plain|done|].
  assert (Hsp : Split newline (renderProfile o lines) = profile_lines o lines).
  { apply Split_Join; [|done]. intros E. rewrite E in Hf. by rewrite list.filter_nil in Hf. }
  split; [done|]. unfold sections. by rewrite Hsp.
Qed.

Definition listed (item : AmneziaWGSyncMaterial) : Prop :=
  cn_DesiredStatus (sm_Connection item) ≠ ConnectionStatusDeleted.

Lemma ServerConnectionAllowedIPs_clean c m x : ServerConnectionAllowedIPs c m = Ok x → clean x.
Proof.
  unfold ServerConnectionAllowedIPs. cbv zeta. destruct (_ || _).
  - intros (ip & (_ & Hip & _)%validateIPv4Address_Ok & <-%Ok_inj)%bind_Ok. by rewrite !clean_append.
  - case_bool_decide; [by intros <-%Ok_inj|]. by case_bool_decide.
Qed.

Lemma peer_lines_spec connections lines lines' :
  foldlR peer_lines connections lines = Ok lines' → Forall clean lines →
  Forall clean lines' ∧
  filter is_section lines' = filter is_section lines ++ replicate (length (filter listed connections)) "[Peer]".
Proof.
  revert lines. induction connections as [|item l IH]; intros lines; cbn [foldlR].
  { intros [= <-] Hc. by rewrite app_nil_r. }
  intros (lines1 & H1 & Hgo)%bind_Ok Hc. unfold peer_lines in H1. rewrite list.filter_cons.
  case_bool_decide as Hd.
  { injection H1 as <-. rewrite decide_False by (intros Hn; by apply Hn). by apply IH. }
  rewrite decide_True by done.
  apply bind_Ok in H1 as (pub & (_ & _ & Hpub)%validateConfigValue_Ok & H1).
  apply bind_Ok in H1 as (psk & (_ & _ & Hpsk)%validateConfigValue_Ok & H1).
  apply bind_Ok in H1 as (ips & Hips%ServerConnectionAllowedIPs_clean & H1).
  apply Ok_inj in H1 as <-. apply IH in Hgo as [Hc' Hf].
  - split; [done|]. rewrite Hf, list.filter_app. cbn [length replicate]. by rewrite <-app_assoc.
  - rewrite Forall_app. split; [done|]. repeat constructor; rewrite ?clean_append; by split_and?.
Qed.

Lemma server_lines_spec config connections lines :
  server_lines ToASCII config connections = Ok lines → clean (awg_ClientIPv4CIDR config) →
  validateAmneziaWGParameters (awg_Obfuscation config) = Ok tt ∧ Forall clean lines ∧
  filter is_section lines = "[Interface]" :: replicate (length (filter listed connections)) "[Peer]".
Proof.
  unfold server_lines. cbv zeta. intros ([] & Hv & H)%bind_Ok Hcidr.
  apply ValidateNodeConfig_parameters in Hv. split; [done|].
  apply validateAmneziaWGParameters_clean, obfuscation_lines_plain in Hv.
  apply bind_Ok in H as (k & (_ & _ & Hk)%validateConfigValue_Ok & H).
  apply bind_Ok in H as (ip & (_ & Hip & _)%validateIPv4Address_Ok & H).
  apply bind_Ok in H as (_ & _ & H).
  destruct (Split "/" (awg_ClientIPv4CIDR config) !! 1%nat) as [prefix|] eqn:Hp; [|done].
  apply (clean_Split "/"%char) in Hcidr; [|done].
  rewrite list.Forall_forall in Hcidr. apply list_elem_of_lookup_2, Hcidr in Hp.
  apply bind_Ok in H as (ls & Hls & <-%Ok_inj). apply peer_lines_spec in Hls as [Hc Hf].
  - split.
    + rewrite Forall_app. split; [done|]. by repeat constructor.
    + rewrite list.filter_app, Hf, list.filter_app, (filter_none is_section (obfuscation_lines _));
        [|eapply list.Forall_impl; [exact Hv|]; by intros x []].
      cbn. by rewrite app_nil_r.
  - rewrite Forall_app. split.
    + repeat constructor; rewrite ?clean_append; split_and?; (done || apply clean_Itoa).
    + eapply list.Forall_impl; [exact Hv|]. by intros x [].
Qed.
End Lines.

(** ** Reading a configuration back *)

(** The lines after the header of a section. *)
Fixpoint in_section (name : string) (lines : list string) : list string :=
  match lines with
  | [] => []
  | x :: l => if bool_decide (x = name) then l else in_section name l
  end.

(** The value of the first line [key = value] before the next section. *)
Fixpoint find_value (key : string) (lines : list string) : option string :=
  match lines with
  | [] => None
  | x :: l =>
      if HasPrefix x "[" then None
      else match cut_prefix (key +:+ " = ") x with Some v => Some v | None => find_value key l end
  end.

Definition ini_value (section key conf : string) : option string :=
  find_value key (in_section section (Split newline conf)).

Definition other_key (key x : string) : Prop := HasPrefix x "[" = false ∧ cut_prefix (key +:+ " = ") x = None.

Lemma find_value_skip key l rest : Forall (other_key key) l → find_value key (l ++ rest) = find_value key rest.
Proof. induction 1 as [|x l [H1 H2] _ IH]; [done|]. cbn. by rewrite H1, H2. Qed.

Lemma in_section_skip name l rest : is_section name → Forall (fun x => ¬ is_section x) l → in_section name (l ++ rest) = in_section name rest.
Proof. intros Hn. induction 1 as [|x l Hx _ IH]; [done|]. cbn. rewrite bool_decide_eq_false_2 by (by intros ->). done. Qed.

Definition signature_keys : list string := ["I1"; "I2"; "I3"; "I4"; "I5"].
Definition client_keys : list string :=
  ["PrivateKey"; "Address"; "DNS"; "MTU"; "Jc"; "Jmin"; "Jmax"; "S1"; "S2"; "S3"; "S4"; "H1"; "H2"; "H3"; "H4"].

Lemma interface_lines_other o key :
  key ∈ client_keys ++ signature_keys → Forall (other_key key) (interface_lines o).
Proof.
  intros Hk. assert (Hall : Forall (fun key => Forall (other_key key) (interface_lines o)) (client_keys ++ signature_keys));
    [|by rewrite list.Forall_forall in Hall; apply Hall]. clear key Hk.
  unfold interface_lines. generalize ((read_timings (awg_TimingsJSON o)).1). intros timings.
  repeat (apply list.Forall_cons_2; [rewrite !Forall_app; split; [|split; [|by repeat constructor]]; [|unfold Timings; cbn [flat_map]; rewrite !Forall_app]|]);
    [..|apply list.Forall_nil_2].
  all: try solve [case_bool_decide; [constructor|]; constructor; [done|]; case_bool_decide; by repeat constructor].
  all: repeat split; try done; case_match; by repeat constructor.
Qed.

(** The lines of the signature packets that are not empty. *)
Definition signature_line (key v : string) : list string :=
  if bool_decide (v = EmptyString) then [] else [key +:+ " = " +:+ v].

Lemma HasSuffix_free v pre : v ≠ EmptyString → contains_byte "=" v = false → HasSuffix (pre +:+ " = " +:+ v) " = " = false.
Proof.
  intros Hne Hv. rewrite <-contains_byte_rev in Hv. unfold HasSuffix. rewrite !str_rev_append.
  destruct (String.rev v) as [|a [|b r]] eqn:E.
  - apply (f_equal String.rev) in E. rewrite str_rev_involutive in E. done.
  - change ((String a "" +:+ String.rev " = ") +:+ ?r) with (String a (String " " (String "=" (String " " r)))).
    change (String.rev " = ") with " = ". unfold HasPrefix. cbn [cut_prefix]. by destruct (decide (" "%char = a)).
  - change ((String a (String b r) +:+ String.rev " = ") +:+ ?t) with (String a (String b ((r +:+ " = ") +:+ t))).
    change (String.rev " = ") with " = ". unfold HasPrefix. cbn [cut_prefix]. destruct (decide (" "%char = a)); [|done]. destruct (decide ("="%char = b)) as [<-|]; [|done].
    cbn in Hv. by rewrite orb_true_r in Hv.
Qed.

Lemma profile_signature o key v :
  key ∈ signature_keys → ValidateCPS v = Ok tt → profile_line o (key +:+ " = " +:+ v) = signature_line key v.
Proof.
  intros Hk Hv%ValidateCPS_no_equals. unfold signature_line. destruct (decide (v = EmptyString)) as [->|E].
  - set_unfold in Hk. by destruct Hk as [->|[->|[->|[->|[->|[]]]]]].
  - rewrite (bool_decide_eq_false_2 (v = EmptyString)) by done. unfold profile_line.
    rewrite HasSuffix_free, andb_false_r by done.
    set_unfold in Hk. by destruct Hk as [->|[->|[->|[->|[->|[]]]]]].
Qed.

(** The text of an accepted client configuration, line by line. *)
Lemma client_profile ToASCII config material lines :
  client_lines ToASCII config material = Ok lines →
  ∃ host dns routes, let o := awg_Obfuscation config in
    validateEndpointHost ToASCII (awg_EndpointHost config) = Ok host ∧
    validateDNS (defaultString (awg_DNS config) DefaultDNS) = Ok dns ∧
    validateAllowedRoutes (defaultString (awg_ClientRouteAllowedIPs config) DefaultClientRouteAllowedIPs) = Ok routes ∧
    profile_lines o lines =
      "[Interface]" :: interface_lines o ++
      ["PrivateKey = " +:+ TrimSpace (am_ClientPrivateKey material);
       "Address = " +:+ TrimSpace (am_AssignedIPv4 material) +:+ "/32";
       "DNS = " +:+ dns; "MTU = " +:+ Itoa (defaultInt (awg_MTU config) DefaultMTU);
       "Jc = " +:+ Itoa (awg_JC o); "Jmin = " +:+ Itoa (awg_JMin o); "Jmax = " +:+ Itoa (awg_JMax o);
       "S1 = " +:+ Itoa (awg_S1 o); "S2 = " +:+ Itoa (awg_S2 o); "S3 = " +:+ Itoa (awg_S3 o); "S4 = " +:+ Itoa (awg_S4 o);
       "H1 = " +:+ awg_H1 o; "H2 = " +:+ awg_H2 o; "H3 = " +:+ awg_H3 o; "H4 = " +:+ awg_H4 o] ++
      signature_line "I1" (awg_I1 o) ++ signature_line "I2" (awg_I2 o) ++ signature_line "I3" (awg_I3 o) ++
      signature_line "I4" (awg_I4 o) ++ signature_line "I5" (awg_I5 o) ++
      [EmptyString; "[Peer]"; "PublicKey = " +:+ TrimSpace (awg_ServerPublicKey config);
       "PresharedKey = " +:+ TrimSpace (am_PresharedKey material);
       "Endpoint = " +:+ JoinHostPort host (Itoa (awg_EndpointPort config));
       "AllowedIPs = " +:+ routes; "PersistentKeepalive = " +:+ Itoa (awg_PersistentKeepalive config); EmptyString].
Proof.
  unfold client_lines. cbv zeta. intros ([] & Hv%ValidateNodeConfig_parameters & H)%bind_Ok.
  unfold validateAmneziaWGParameters in Hv. apply bind_Ok in Hv as (timings & _ & Hv).
  apply bind_Ok in Hv as ([] & (_ & _ & _ & Hs)%Validate_values & _). unfold signatures in Hs. rewrite !list.Forall_cons in Hs.
  destruct Hs as (H1 & H2 & H3 & H4 & H5 & _).
  apply bind_Ok in H as (k & (-> & _ & _)%validateConfigValue_Ok & H).
  apply bind_Ok in H as (psk & (-> & _ & _)%validateConfigValue_Ok & H).
  apply bind_Ok in H as (pub & (-> & _ & _)%validateConfigValue_Ok & H).
  apply bind_Ok in H as (host & Hhost & H). apply bind_Ok in H as (_ & _ & H).
  apply bind_Ok in H as (ip & (-> & _ & _)%validateIPv4Address_Ok & H).
  apply bind_Ok in H as (dns & Hdns & H). apply bind_Ok in H as (ips & Hips & H).
  apply Ok_inj in H as <-. exists host, dns, ips. split; [done|]. split; [done|]. split; [done|].
  unfold profile_lines, obfuscation_lines. rewrite !flat_map_app. cbn [flat_map].
  change ("I1 = " +:+ ?v) with ("I1" +:+ " = " +:+ v). change ("I2 = " +:+ ?v) with ("I2" +:+ " = " +:+ v).
  change ("I3 = " +:+ ?v) with ("I3" +:+ " = " +:+ v). change ("I4 = " +:+ ?v) with ("I4" +:+ " = " +:+ v).
  change ("I5 = " +:+ ?v) with ("I5" +:+ " = " +:+ v).
  rewrite (profile_signature _ "I1"), (profile_signature _ "I2"), (profile_signature _ "I3"), (profile_signature _ "I4"),
    (profile_signature _ "I5") by (done || unfold signature_keys; set_solver).
  unfold profile_line at 1. cbn -[signature_line interface_lines]. by rewrite <-!app_assoc.
Qed.

(** A client configuration has exactly the lines the code writes: no
    stored key, endpoint name, DNS list, route, header, signature packet or
    timing can break out of its line, so the text has the one interface and
    the one peer it is meant to have.  The header protection key is the
    exception, see [header_key_line_break]. *)
Theorem RenderClientConf_lines ToASCII config material conf :
  RenderClientConf ToASCII config material = Ok conf →
  clean (awg_HeaderProtectionKey (awg_Obfuscation config)) →
  (∃ lines, client_lines ToASCII config material = Ok lines ∧
            Split newline conf = profile_lines (awg_Obfuscation config) lines) ∧
  sections conf = ["[Interface]"; "[Peer]"].
Proof.
  unfold RenderClientConf. intros (lines & Hl & ->)%fmap_Ok Hk.
  pose proof (client_lines_spec _ _ _ _ Hl) as (Hv & Hc & Hs).
  destruct (renderProfile_lines (awg_Obfuscation config) lines) as [H1 H2];
    [by intros ->|by rewrite Hs|done..|].
  split; [by eauto|]. by rewrite H2.
Qed.

(** What a program finds that reads a client configuration by section and key. *)
Definition reads (section conf : string) (kv : string * string) : Prop := ini_value section kv.1 conf = Some kv.2.

(** C23. A client configuration says what was stored.  Read by section and key,
    it gives the client's private key and address, the parameters of the node,
    each signature packet that is set and no other, and as its one peer the
    node with its public key, the client's preshared key, the endpoint, the
    routes and the keepalive: no stored text can pass for another entry.  The
    header protection key is the exception, see [header_key_line_break]. *)
Theorem RenderClientConf_read_back ToASCII config material conf :
  RenderClientConf ToASCII config material = Ok conf →
  clean (awg_HeaderProtectionKey (awg_Obfuscation config)) →
  let o := awg_Obfuscation config in
  sections conf = ["[Interface]"; "[Peer]"] ∧
  ∃ host dns routes, validateEndpointHost ToASCII (awg_EndpointHost config) = Ok host ∧
    validateDNS (defaultString (awg_DNS config) DefaultDNS) = Ok dns ∧
    validateAllowedRoutes (defaultString (awg_ClientRouteAllowedIPs config) DefaultClientRouteAllowedIPs) = Ok routes ∧
    Forall (reads "[Interface]" conf)
      [("PrivateKey", TrimSpace (am_ClientPrivateKey material)); ("Address", TrimSpace (am_AssignedIPv4 material) +:+ "/32");
       ("DNS", dns); ("MTU", Itoa (defaultInt (awg_MTU config) DefaultMTU));
       ("Jc", Itoa (awg_JC o)); ("Jmin", Itoa (awg_JMin o)); ("Jmax", Itoa (awg_JMax o)); ("S1", Itoa (awg_S1 o));
       ("S2", Itoa (awg_S2 o)); ("S3", Itoa (awg_S3 o)); ("S4", Itoa (awg_S4 o));
       ("H1", awg_H1 o); ("H2", awg_H2 o); ("H3", awg_H3 o); ("H4", awg_H4 o)] ∧
    Forall (fun kv => ini_value "[Interface]" kv.1 conf = if bool_decide (kv.2 = EmptyString) then None else Some kv.2)
      [("I1", awg_I1 o); ("I2", awg_I2 o); ("I3", awg_I3 o); ("I4", awg_I4 o); ("I5", awg_I5 o)] ∧
    Forall (reads "[Peer]" conf)
      [("PublicKey", TrimSpace (awg_ServerPublicKey config)); ("PresharedKey", TrimSpace (am_PresharedKey material));
       ("Endpoint", JoinHostPort host (Itoa (awg_EndpointPort config))); ("AllowedIPs", routes);
       ("PersistentKeepalive", Itoa (awg_PersistentKeepalive config))].
Proof.
  unfold RenderClientConf. cbv zeta. intros (lines & Hl & ->)%fmap_Ok Hk. set (o := awg_Obfuscation config) in *.
  pose proof (client_lines_spec _ _ _ _ Hl) as (Hv & Hc & Hs).
  destruct (renderProfile_lines o lines) as [H1 H2]; [by intros ->|by rewrite Hs|done..|].
  split; [by rewrite H2|]. apply client_profile in Hl as (host & dns & routes & Hhost & Hdns & Hroutes & E). fold o in E.
  exists host, dns, routes. split; [done|]. split; [done|]. split; [done|].
  apply validateAmneziaWGParameters_clean in Hv. pose proof (interface_lines_plain o Hv Hk) as Hi.
  unfold reads, ini_value. rewrite H1, E. clear - Hi. split; [|split].
  - cbn [in_section]. rewrite bool_decide_eq_true_2 by done.
    repeat first [apply list.Forall_nil_2|apply list.Forall_cons_2]; cbn [fst snd];
      (rewrite find_value_skip by (apply interface_lines_other; unfold client_keys; set_solver)); reflexivity.
  - cbn [in_section]. rewrite bool_decide_eq_true_2 by done. unfold signature_line.
    repeat first [apply list.Forall_nil_2|apply list.Forall_cons_2]; cbn [fst snd];
      (rewrite find_value_skip by (apply interface_lines_other; unfold signature_keys; set_solver)); by repeat case_bool_decide.
  - cbn [in_section]. rewrite bool_decide_eq_false_2 by done.
    rewrite in_section_skip; [|done|eapply list.Forall_impl; [exact Hi|]; by intros x []]. unfold signature_line.
    repeat first [apply list.Forall_nil_2|apply list.Forall_cons_2]; cbn [fst snd]; by repeat case_bool_decide.
Qed.

(** A server configuration has one interface and exactly one peer for
    every connection that is not deleted, whatever the stored values are. *)
Theorem RenderServerConfig_peers ToASCII config connections conf :
  RenderServerConfig ToASCII config connections = Ok conf →
  clean (awg_HeaderProtectionKey (awg_Obfuscation config)) → clean (awg_ClientIPv4CIDR config) →
  (∃ lines, server_lines ToASCII config connections = Ok lines ∧
            Split newline conf = profile_lines (awg_Obfuscation config) lines) ∧
  sections conf = "[Interface]" :: replicate (length (filter listed connections)) "[Peer]".
Proof.
  unfold RenderServerConfig. intros (lines & Hl & ->)%fmap_Ok Hk Hc.
  pose proof (server_lines_spec _ _ _ _ Hl Hc) as (Hv & Hcl & Hs).
  destruct (renderProfile_lines (awg_Obfuscation config) lines) as [H1 H2];
    [by intros ->|by rewrite Hs|done..|].
  split; [by eauto|]. by rewrite H2.
Qed.

(** ** Concrete configurations *)

Definition demo_obfuscation (key : string) : AmneziaWGObfuscation := {|
  awg_JC := 4; awg_JMin := 10; awg_JMax := 50; awg_S1 := 15; awg_S2 := 20; awg_S3 := 25; awg_S4 := 30;
  awg_H1 := "1"; awg_H2 := "2"; awg_H3 := "3"; awg_H4 := "4-9";
  awg_I1 := "<b 0xc0ff>"; awg_I2 := EmptyString; awg_I3 := EmptyString; awg_I4 := EmptyString;
  awg_I5 := EmptyString; awg_HeaderProtectionKey := key; awg_ContentPaddingAddition := EmptyString;
  awg_TimingsJSON := "{" +:+ Json.quote "RekeyTimeout" +:+ ":" +:+ Json.quote "5" +:+ "}";
  awg_RandomTrailers := false; awg_DisableCookies := true;
|}.

Definition demo_config (key : string) : AmneziaWGNodeConfig := {|
  awg_NodeID := "n1"; awg_EndpointHost := "vpn.example.org"; awg_EndpointPort := 51820; awg_ListenPort := 0;
  awg_ServerIPv4 := "10.8.1.1"; awg_ClientIPv4CIDR := "10.8.1.0/24"; awg_FirstClientIPv4 := "10.8.1.2";
  awg_LastClientIPv4 := "10.8.1.254"; awg_DNS := EmptyString; awg_MTU := 0; awg_PersistentKeepalive := 25;
  awg_ClientRouteAllowedIPs := "0.0.0.0/0, ::/0"; awg_ClientRouteMode := EmptyString;
  awg_ClientExcludedRoutes := EmptyString; awg_ServerPrivateKey := "cHJpdg=="; awg_ServerPublicKey := "cHVi";
  awg_Obfuscation := demo_obfuscation key; awg_AppliedConfigVersionMS := 0; awg_ConfigErrorID := EmptyString;
  awg_ConfigVersionMS := 1; awg_CreatedAt := GoTime.zero_time; awg_UpdatedAt := GoTime.zero_time;
|}.

Definition demo_material : AmneziaWGConnectionMaterial := {|
  am_ConnectionID := "c1"; am_NodeID := "n1"; am_ClientPublicKey := "Y2xpZW50"; am_ClientPrivateKey := "a2V5";
  am_PresharedKey := "cHNr"; am_AssignedIPv4 := "10.8.1.2"; am_CreatedAt := GoTime.zero_time;
  am_UpdatedAt := GoTime.zero_time;
|}.

Definition demo_connection (st : string) : Connection := {|
  cn_ID := "c1"; cn_AccountID := "a1"; cn_NodeID := "n1"; cn_Name := "phone"; cn_Protocol := ProtocolAmneziaWG;
  cn_DesiredStatus := st; cn_AppliedStatus := st; cn_DesiredVersionMS := 1; cn_AppliedVersionMS := 1;
  cn_LastErrorID := EmptyString; cn_CreatedAt := GoTime.zero_time; cn_UpdatedAt := GoTime.zero_time;
|}.

Definition demo_peers : list AmneziaWGSyncMaterial :=
  (fun st => mkAmneziaWGSyncMaterial (demo_config EmptyString) (demo_connection st) demo_material) <$>
  [ConnectionStatusActive; ConnectionStatusDeleted; ConnectionStatusHeld].

Definition demo_conf : string := Eval vm_compute in
  match RenderClientConf Some (demo_config EmptyString) demo_material with Ok s => s | Err e => e end.
Definition demo_server_conf : string := Eval vm_compute in
  match RenderServerConfig Some (demo_config EmptyString) demo_peers with Ok s => s | Err e => e end.

Lemma demo_conf_Ok : RenderClientConf Some (demo_config EmptyString) demo_material = Ok demo_conf.
Proof. vm_compute. reflexivity. Qed.
Lemma demo_server_conf_Ok : RenderServerConfig Some (demo_config EmptyString) demo_peers = Ok demo_server_conf.
Proof. vm_compute. reflexivity. Qed.

Lemma RenderClientConf_lines_witness :
  (∃ lines, client_lines Some (demo_config EmptyString) demo_material = Ok lines ∧
            Split newline demo_conf = profile_lines (demo_obfuscation EmptyString) lines) ∧
  sections demo_conf = ["[Interface]"; "[Peer]"].
Proof.
  exact (RenderClientConf_lines Some (demo_config EmptyString) demo_material demo_conf demo_conf_Ok eq_refl).
Defined.

Lemma RenderClientConf_read_back_witness :
  sections demo_conf = ["[Interface]"; "[Peer]"] ∧ ini_value "[Interface]" "I1" demo_conf = Some "<b 0xc0ff>" ∧
  ini_value "[Interface]" "I2" demo_conf = None.
Proof.
  destruct (RenderClientConf_read_back Some (demo_config EmptyString) demo_material demo_conf demo_conf_Ok eq_refl)
    as (H & _ & _ & _ & _ & _ & _ & _ & Hsig & _). split; [exact H|].
  split; [exact (Forall_inv Hsig)|exact (Forall_inv (Forall_inv_tail Hsig))].
Defined.

Lemma RenderServerConfig_peers_witness :
  (∃ lines, server_lines Some (demo_config EmptyString) demo_peers = Ok lines ∧
            Split newline demo_server_conf = profile_lines (demo_obfuscation EmptyString) lines) ∧
  sections demo_server_conf =
    "[Interface]" :: replicate (length (filter listed demo_peers)) "[Peer]".
Proof.
  exact (RenderServerConfig_peers Some (demo_config EmptyString) demo_peers demo_server_conf
    demo_server_conf_Ok eq_refl eq_refl).
Defined.

(** A key of 32 bytes with a line break in the middle of its text. *)
Definition broken_key : string :=
  "AAAAAAAAAAAAAAAAAAAA" +:+ String newline "AAAAAAAAAAAAAAAAAAAAAAA=".

(** The header protection key is only checked by decoding it, and the
    base64 decoder skips line breaks: a key text with a line break inside is
    accepted and written as it is, so that the configuration a client gets has
    a line that is no assignment. *)
Theorem header_key_line_break :
  ∃ conf, RenderClientConf Some (demo_config broken_key) demo_material = Ok conf ∧
    "AAAAAAAAAAAAAAAAAAAAAAA=" ∈ Split newline conf.
Proof.
  eexists. split; [vm_compute; reflexivity|]. apply (bool_decide_unpack _). vm_compute. done.
Qed.
End NativeAwg.
