(* ===== verification/AmneziaClient.v ===== *)
(** * AmneziaClient: the provider interface and its HTTP implementation

    [src/internal/server/connections/remote] declares what the connection
    service expects of a VPN server it does not run itself;
    [src/internal/server/integrations/amnezia/client.go] implements it over the
    HTTP API of an Amnezia server.  The HTTP round trip itself, with the
    remote server behind it, is a parameter: an effectful function on the
    state [R] of the outside world. *)

From S2P Require Import Prelude GoLib GoJson ServerModel.
From Stdlib Require Import Ascii.
Import JsonRead.

(** ** The provider contract *)

Record Ref := mkRef { ref_ID : string; ref_Name : string }.

Record CreateInput := mkCreateInput {
  ci_AccountID : string;
  ci_ConnectionID : string;
  ci_NodeID : string;
  ci_Name : string;
}.

Record RemoteConfig := mkRemoteConfig {
  rc_Kind : string;
  rc_Slug : string;
  rc_Name : string;
  rc_Client : string;
  rc_ContentType : string;
  rc_Value : string;
}.

Record RemoteConnection := mkRemoteConnection { rcn_Ref : Ref; rcn_Configs : list RemoteConfig }.

Record ConnectionInfo := mkConnectionInfo { info_Ref : Ref; info_Name : string; info_Status : string }.
Record ConnectionList := mkConnectionList { cl_Total : Z; cl_Items : list ConnectionInfo }.

(** [remote.Provider] *)
Record Provider (R : Type) := mkProvider {
  p_CreateConnection : CreateInput → goM R RemoteConnection;
  p_SetConnectionStatus : Ref → string → goM R unit;
  p_DeleteConnection : Ref → goM R unit;
  p_ListConnections : goM R ConnectionList;
}.
Arguments mkProvider {R} _ _ _ _.
Arguments p_CreateConnection {R} _ _.
Arguments p_SetConnectionStatus {R} _ _ _.
Arguments p_DeleteConnection {R} _ _.
Arguments p_ListConnections {R} _.

(** ** The HTTP client *)

Record HttpRequest := mkHttpRequest {
  hr_Method : string;
  hr_URL : string;
  hr_APIKey : string;
  hr_JSON : bool;
  hr_Body : string;
}.
Record HttpResponse := mkHttpResponse { hs_StatusCode : Z; hs_Status : string; hs_Body : string }.

Module Amnezia.
Section Client.
Context {R : Type} (Do : HttpRequest → goM R HttpResponse).

Record client := mkClient { baseURL : string; apiKey : string }.

(** [strings.TrimRight(s, "/")] *)
Definition trim_slashes (s : string) : string :=
  String.rev (trim_left ["/"] (String.length s) (String.rev s)).

Definition New_client (url key : string) : client := mkClient (trim_slashes url) key.

(** [client.do]: the response body, undecoded.  [json.Decoder.Decode] reads
    one value and leaves what follows. *)
Definition do (c : client) (method path : string) (body : option string) : goM R string :=
  resp ← Do (mkHttpRequest method (baseURL c +:+ path) (apiKey c)
               (bool_decide (is_Some body)) (default EmptyString body));
  if ((hs_StatusCode resp <? 200) || (300 <=? hs_StatusCode resp))%Z
  then failM ("amnezia-api " +:+ method +:+ " " +:+ path +:+ " returned " +:+ hs_Status resp)
  else mret (hs_Body resp).

Definition decode_body {S} (decode : value → S → S * bool) (raw : string) (zero : S) : goM R S :=
  match read_value (N.to_nat maxNestingDepth) raw with
  | None => failM "invalid JSON"
  | Some (v, _) => let '(s, ok) := decode v zero in if ok : bool then mret s else failM "cannot unmarshal"
  end.

(** [createClientResponse]: the part of it that is used. *)
Record createdClient := mkCreatedClient { cc_ID : string; cc_Config : string }.

Definition client_fields : list (field createdClient) :=
  [string_field "id" (fun x c => mkCreatedClient x (cc_Config c));
   string_field "config" (fun x c => mkCreatedClient (cc_ID c) x);
   string_field "protocol" (fun _ c => c)].

Definition decode_created (v : value) (c : createdClient) : createdClient * bool :=
  decode_struct [string_field "message" (fun _ c => c); ("client", decode_struct client_fields)] v c.

Definition createClient (c : client) (name : string) : goM R createdClient :=
  let body := object [("clientName", Json.quote name); ("protocol", Json.quote "amneziawg2")] in
  raw ← do c "POST" "/clients" (Some body);
  decode_body decode_created raw (mkCreatedClient EmptyString EmptyString).

Definition CreateConnection (c : client) (input : CreateInput) : goM R RemoteConnection :=
  created ← createClient c (ci_Name input);
  mret (mkRemoteConnection (mkRef (cc_ID created) (ci_Name input))
    [mkRemoteConfig ConfigAmneziaVPN "amnezia" (ci_Name input +:+ " AmneziaWG") "amnezia"
       "text/plain; charset=utf-8" (cc_Config created)]).

Definition setClientStatus (c : client) (clientID status : string) : goM R unit :=
  let body := object [("clientId", Json.quote clientID); ("protocol", Json.quote "amneziawg2");
                      ("status", Json.quote status)] in
  _ ← do c "PATCH" "/clients" (Some body);
  mret tt.

Definition SetConnectionStatus (c : client) (ref : Ref) (status : string) : goM R unit :=
  setClientStatus c (ref_ID ref)
    (if bool_decide (status = ConnectionStatusHeld) then "disabled" else "active").

Definition deleteClient (c : client) (clientID : string) : goM R unit :=
  let body := object [("clientId", Json.quote clientID); ("protocol", Json.quote "amneziawg2")] in
  _ ← do c "DELETE" "/clients" (Some body);
  mret tt.

Definition DeleteConnection (c : client) (ref : Ref) : goM R unit := deleteClient c (ref_ID ref).

(** [listClientsResponse]: a client is its name and its first peer. *)
Record clientPeer := mkClientPeer { pe_ID : string; pe_Status : string }.
Record clientRecord := mkClientRecord { cr_Username : string; cr_Peers : list clientPeer }.
Record listClientsResponse := mkListClients { lc_Total : Z; lc_Items : list clientRecord }.

(** A slice field: every element is decoded into a zero value. *)
Definition slice_field {S T} (name : string) (zero : T) (decode : value → T → T * bool)
    (set : list T → S → S) : field S :=
  (name, fun v s =>
    match v with
    | JArray l => (set ((fun v => (decode v zero).1) <$> l) s, forallb (fun v => (decode v zero).2) l)
    | JNull => (set [] s, true)
    | _ => (s, false)
    end).

Definition peer_fields : list (field clientPeer) :=
  [string_field "id" (fun x p => mkClientPeer x (pe_Status p)); string_field "name" (fun _ p => p);
   string_field "status" (fun x p => mkClientPeer (pe_ID p) x);
   slice_field "allowedIps" tt
     (fun v u => match v with JString _ | JNull => (u, true) | _ => (u, false) end) (fun _ p => p);
   string_field "protocol" (fun _ p => p)].

Definition record_fields : list (field clientRecord) :=
  [string_field "username" (fun x r => mkClientRecord x (cr_Peers r));
   slice_field "peers" (mkClientPeer EmptyString EmptyString) (decode_struct peer_fields)
     (fun l r => mkClientRecord (cr_Username r) l)].

Definition list_fields : list (field listClientsResponse) :=
  [int64_field "total" (fun n r => mkListClients n (lc_Items r));
   slice_field "items" (mkClientRecord EmptyString []) (decode_struct record_fields)
     (fun l r => mkListClients (lc_Total r) l)].

Definition listClients (c : client) : goM R listClientsResponse :=
  raw ← do c "GET" "/clients" None;
  decode_body (decode_struct list_fields) raw (mkListClients 0 []).

Definition client_info (item : clientRecord) : ConnectionInfo :=
  match cr_Peers item with
  | [] => mkConnectionInfo (mkRef EmptyString (cr_Username item)) (cr_Username item) EmptyString
  | p :: _ => mkConnectionInfo (mkRef (pe_ID p) (cr_Username item)) (cr_Username item) (pe_Status p)
  end.

Definition ListConnections (c : client) : goM R ConnectionList :=
  clients ← listClients c;
  let items := client_info <$> lc_Items clients in
  mret (mkConnectionList
    (if (lc_Total clients =? 0)%Z then Z.of_nat (length items) else lc_Total clients) items).

(** [amnezia.New] *)
Definition New (url key : string) : Provider R :=
  let c := New_client url key in
  mkProvider (CreateConnection c) (SetConnectionStatus c) (DeleteConnection c) (ListConnections c).
End Client.
End Amnezia.
