(* ===== verification/Links.v ===== *)
(** * Links: what a client is handed

    [src/internal/server/integrations/nativehy2/config.go], the share link of a
    Hysteria connection, and
    [src/internal/server/integrations/nativeawg/keys.go], the WireGuard key
    material.  Curve25519 and the random source are not in the repository:
    scalar multiplication with the base point is a parameter [X25519] of the
    key functions and the random bytes are arguments. *)

From S2P Require Import Prelude GoLib GoUrl ServerModel.
From Stdlib Require Import Ascii.
Import GoTime GoStrings.

Module NativeHy2.
Import Url.

(** [url.Values] keeps one value per key here and is encoded in key order. *)
Definition link_values (config : Hysteria2NodeConfig) : list (string * string) :=
  [("insecure", "0")] ++
  (if hc_ObfsEnabled config then [("obfs", hc_ObfsType config); ("obfs-password", hc_ObfsPassword config)] else []) ++
  [("sni", hc_EndpointHost config)].

Definition URI (config : Hysteria2NodeConfig) (connectionID password title : string) : string :=
  "hy2://" +:+ QueryEscape (TrimSpace connectionID +:+ ":" +:+ password) +:+ "@" +:+ hc_EndpointHost config +:+
  ":" +:+ Strconv.FormatInt (hc_EndpointPort config) +:+ "/?" +:+ Encode (link_values config) +:+ "#" +:+
  QueryEscape title.

Definition NewIssuedConfig (config : Hysteria2NodeConfig) (connectionID password title : string) : IssuedConfig :=
  mkIssuedConfig EmptyString connectionID ConfigHy2URI "hy2" title "happ" "text/plain; charset=utf-8"
    (URI config connectionID password title) EmptyString zero_time zero_time.

(** A host name or an address without the characters that end it in a URL. *)
Definition plain_host (host : string) : Prop :=
  Forall (fun c => contains_byte c host = false) ["#"; "?"; "/"; "@"]%char.

(** C27. A Hysteria link, taken apart the way a URL is read, gives back the
    endpoint and every query value unchanged, and the credentials and the title
    with each space turned into a plus sign: nothing in a password, an
    obfuscation password or a title can reach into another part of the link. *)
Theorem URI_read_back config connectionID password title :
  plain_host (hc_EndpointHost config) →
  Parse "hy2" (URI config connectionID password title) = Some (mkParts
    (map_string plus_for_space (TrimSpace connectionID +:+ ":" +:+ password))
    (hc_EndpointHost config +:+ ":" +:+ Strconv.FormatInt (hc_EndpointPort config))
    (link_values config)
    (map_string plus_for_space title)).
Proof.
  intros Hh. assert (Hf : ∀ c, c ∈ ["#"; "?"; "/"; "@"]%char →
    contains_byte c (hc_EndpointHost config +:+ ":" +:+ Strconv.FormatInt (hc_EndpointPort config)) = false).
  { intros c Hc. unfold plain_host in Hh. rewrite list.Forall_forall in Hh.
    rewrite !contains_byte_append, (Hh c Hc), Strconv.FormatInt_contains; set_unfold; naive_solver. }
  set (user := QueryEscape (TrimSpace connectionID +:+ ":" +:+ password)).
  set (host := hc_EndpointHost config +:+ ":" +:+ Strconv.FormatInt (hc_EndpointPort config)) in *.
  assert (Hsplit : URI config connectionID password title =
    "hy2://" +:+ (((user +:+ String "@" host) +:+ String "/" EmptyString) +:+ String "?" (Encode (link_values config)))
      +:+ String "#" (QueryEscape title)).
  { unfold URI, host. repeat (rewrite ?str_append_assoc, ?string_app_cons, ?string_app_nil). reflexivity. }
  assert (Huser : ∀ c, separator c = true → contains_byte c user = false) by (intros; by apply QueryEscape_separator).
  unfold Parse. rewrite Hsplit, cut_prefix_append. cbn [mbind option_bind].
  rewrite cut_byte_append.
  2: { rewrite !contains_byte_append. cbn [contains_byte]. rewrite Huser, Hf, Encode_separator by (done || set_solver). done. }
  cbn [mbind option_bind]. rewrite cut_byte_append.
  2: { rewrite !contains_byte_append. cbn [contains_byte]. rewrite Huser, Hf by (done || set_solver). done. }
  cbn [mbind option_bind]. rewrite cut_byte_append.
  2: { rewrite !contains_byte_append. cbn [contains_byte]. rewrite Huser, Hf by (done || set_solver). done. }
  cbn [mbind option_bind]. rewrite cut_byte_append by (by apply Huser). cbn [mbind option_bind].
  unfold user. rewrite unescape_component. cbn [mbind option_bind].
  rewrite query_of_Encode by done. cbn [mbind option_bind]. by rewrite unescape_component.
Qed.
End NativeHy2.

(** The link of a connection on a node with obfuscation: the password and the
    title hold separators. *)
Definition demo_hy2_config : Hysteria2NodeConfig :=
  mkHysteria2NodeConfig "nod" "fra.example.net" 443 true "salamander" "a&b=c" false "" 1 zero_time zero_time "" 0 "" "" "".

Lemma URI_read_back_witness :
  Url.Parse "hy2" (NativeHy2.URI demo_hy2_config "con-a" "p@ss/?#" "phone fra") = Some (Url.mkParts
    "con-a:p@ss/?#" "fra.example.net:443"
    [("insecure", "0"); ("obfs", "salamander"); ("obfs-password", "a&b=c"); ("sni", "fra.example.net")] "phone+fra").
Proof.
  exact (NativeHy2.URI_read_back demo_hy2_config "con-a" "p@ss/?#" "phone fra"
    (ltac:(repeat first [apply Forall_nil_2|apply Forall_cons_2; [reflexivity|]]))).
Defined.

(** ** WireGuard keys *)
Module NativeKeys.
Section Keys.
(** [curve25519.X25519(scalar, curve25519.Basepoint)] *)
Context (X25519 : string → result string).

(** [private[0] &= 248; private[31] &= 127; private[31] |= 64] *)
Definition clamp_byte (i : nat) (c : ascii) : ascii :=
  let n := N_of_ascii c in
  if decide (i = 0) then ascii_of_N (N.land n 248)
  else if decide (i = 31) then ascii_of_N (N.lor (N.land n 127) 64)
  else c.

Fixpoint clamp_from (i : nat) (s : string) : string :=
  match s with EmptyString => EmptyString | String c s => String (clamp_byte i c) (clamp_from (S i) s) end.
Definition clampWireGuardPrivateKey : string → string := clamp_from 0.

(** [random] is what [rand.Read] fills the buffer with, or its error. *)
Definition GenerateKeyPair (random : result string) : result (string * string) :=
  match random with
  | Err e => Err ("generate native awg private key: " +:+ e)
  | Ok private =>
      let private := clampWireGuardPrivateKey private in
      match X25519 private with
      | Err e => Err ("derive native awg public key: " +:+ e)
      | Ok public => Ok (Base64.EncodeStd private, Base64.EncodeStd public)
      end
  end.

(** The text of a decoding error names the offset, which is left out. *)
Definition PublicKeyFromPrivate (privateKey : string) : result string :=
  let '(private, ok) := Base64.DecodeStd privateKey in
  if negb ok then Err "decode native awg private key: illegal base64 data"
  else if negb (String.length private =? 32) then Err "native awg private key must be 32 bytes"
  else match X25519 (clampWireGuardPrivateKey private) with
       | Err e => Err ("derive native awg public key: " +:+ e)
       | Ok public => Ok (Base64.EncodeStd public)
       end.

Definition GeneratePresharedKey (random : result string) : result string :=
  match random with
  | Err e => Err ("generate native awg preshared key: " +:+ e)
  | Ok key => Ok (Base64.EncodeStd key)
  end.

Lemma clamp_byte_idem i c : clamp_byte i (clamp_byte i c) = clamp_byte i c.
Proof.
  unfold clamp_byte. destruct (decide (i = 0)); [|destruct (decide (i = 31)); [|done]];
    destruct c as [[] [] [] [] [] [] [] []]; reflexivity.
Qed.

Lemma clamp_from_idem i s : clamp_from i (clamp_from i s) = clamp_from i s.
Proof. revert i. induction s as [|c s IH]; intros i; [done|]. cbn. by rewrite clamp_byte_idem, IH. Qed.

Lemma clamp_from_length i s : String.length (clamp_from i s) = String.length s.
Proof. revert i. induction s as [|c s IH]; intros i; [done|]. cbn. by rewrite IH. Qed.

Lemma generated_private random private public :
  GenerateKeyPair (Ok random) = Ok (private, public) →
  Base64.DecodeStd private = (clampWireGuardPrivateKey random, true).
Proof.
  unfold GenerateKeyPair. destruct (X25519 _); [|done]. intros [= <- _]. by rewrite Base64.DecodeStd_EncodeStd.
Qed.

Lemma generated_public random private public :
  String.length random = 32 → GenerateKeyPair (Ok random) = Ok (private, public) →
  PublicKeyFromPrivate private = Ok public.
Proof.
  intros Hlen. unfold GenerateKeyPair, PublicKeyFromPrivate.
  destruct (X25519 _) as [pub|e] eqn:E; [|done]. intros [= <- <-].
  rewrite Base64.DecodeStd_EncodeStd. unfold clampWireGuardPrivateKey in *.
  by rewrite clamp_from_length, Hlen, clamp_from_idem, E.
Qed.

(** The public key that is stored with a generated pair is the one derived
    from its private key: deriving it again from the stored text gives the same
    text, since the private key is stored already clamped. *)
Theorem keypair_roundtrip random private public :
  String.length random = 32 →
  GenerateKeyPair (Ok random) = Ok (private, public) →
  PublicKeyFromPrivate private = Ok public ∧
  Base64.DecodeStd private = (clampWireGuardPrivateKey random, true).
Proof. intros Hlen Hg. split; [by eapply generated_public|by eapply generated_private]. Qed.
End Keys.
End NativeKeys.

(** A stand-in for the curve: any function of the scalar serves. *)
Definition demo_scalar : string := bytes (repeat 255 32).

Lemma keypair_roundtrip_witness :
  NativeKeys.PublicKeyFromPrivate Ok "+P///////////////////////////////////////38=" =
    Ok "+P///////////////////////////////////////38=".
Proof.
  exact (proj1 (NativeKeys.keypair_roundtrip Ok demo_scalar "+P///////////////////////////////////////38="
    "+P///////////////////////////////////////38=" eq_refl (ltac:(vm_compute; reflexivity)))).
Defined.
