(* ===== verification/IPPool.v ===== *)
(** * IPPool: choosing the address of a new AmneziaWG connection

    [nextAvailableIPv4], [compareIP] and [nextIP] of
    [src/internal/server/connections/service.go].  The loop of the source has
    no bound of its own, so the model runs it with fuel and the theorems say
    how much is enough: the size of the pool.  A pool that ends at the last
    IPv4 address is the one case in which the walk leaves it. *)

From S2P Require Import Prelude GoLib GoNet ServerModel.
Import Net.
Local Open Scope Z_scope.

(** Comparison byte by byte; both addresses have four bytes. *)
Fixpoint compare_bytes (a b : list Z) : Z :=
  match a, b with
  | x :: a, y :: b => if x <? y then -1 else if y <? x then 1 else compare_bytes a b
  | _, _ => 0
  end.
Definition compareIP (a b : IP) : Z := compare_bytes a b.

(** The carry runs from the last byte to the first; a byte wraps around. *)
Fixpoint carry (l : list Z) : list Z :=
  match l with
  | [] => []
  | b :: l => let b' := (b + 1) mod 256 in if b' =? 0 then b' :: carry l else b' :: l
  end.
Definition nextIP (ip : IP) : IP := reverse (carry (reverse ip)).

(** The walk through the pool: [None] while it is still running. *)
Fixpoint walk (fuel : nat) (used : gset string) (last current : IP) : option (result string) :=
  match fuel with
  | O => None
  | S fuel =>
      if compareIP current last <=? 0 then
        if bool_decide (IP_String current ∈ used) then walk fuel used last (nextIP current)
        else Some (Ok (IP_String current))
      else Some (Err "amneziawg IPv4 pool exhausted")
  end.

Definition pool_used (config : AmneziaWGNodeConfig) (materials : list AmneziaWGConnectionMaterial) : gset string :=
  {[awg_ServerIPv4 config]} ∪ list_to_set (am_AssignedIPv4 <$> materials).

Definition nextAvailableIPv4 (fuel : nat) (config : AmneziaWGNodeConfig)
    (materials : list AmneziaWGConnectionMaterial) : option (result string) :=
  let first := To4 (ParseIP (awg_FirstClientIPv4 config)) in
  let last := To4 (ParseIP (awg_LastClientIPv4 config)) in
  if bool_decide (first = []) || bool_decide (last = []) || (0 <? compareIP first last)
  then Some (Err "invalid amneziawg IPv4 pool")
  else walk fuel (pool_used config materials) last first.

(** ** Addresses as numbers *)

Lemma compareIP_num ip ip' : is_ipv4 ip → is_ipv4 ip' → (compareIP ip ip' <=? 0) = (ip_num ip <=? ip_num ip').
Proof.
  intros (a & b & c & d & -> & Ha & Hb & Hc & Hd)%ipv4_cases
         (a' & b' & c' & d' & -> & Ha' & Hb' & Hc' & Hd')%ipv4_cases.
  unfold is_octet, compareIP in *. cbn.
  repeat match goal with |- context [?x <? ?y] => destruct (Z.ltb_spec x y) end; cbn;
    symmetry; first [apply Z.leb_le; lia|apply Z.leb_gt; lia].
Qed.

Lemma nextIP_ipv4 ip : is_ipv4 ip → is_ipv4 (nextIP ip) ∧ ip_num (nextIP ip) = (ip_num ip + 1) mod 2 ^ 32.
Proof.
  intros (a & b & c & d & -> & Ha & Hb & Hc & Hd)%ipv4_cases.
  unfold nextIP, is_octet in *. cbn [reverse rev_append carry].
  assert (Hstep : ∀ x, 0 <= x < 256 →
    ((x + 1) mod 256 =? 0) = true ∧ x = 255 ∨ ((x + 1) mod 256 =? 0) = false ∧ (x + 1) mod 256 = x + 1 ∧ x < 255).
  { intros x Hx. destruct (decide (x = 255)) as [->|]; [by left|right].
    rewrite Z.mod_small by lia. split; [apply Z.eqb_neq; lia|lia]. }
  unfold reverse. cbn [rev_append carry].
  destruct (Hstep d Hd) as [[-> ->]|(-> & -> & ?)];
    [destruct (Hstep c Hc) as [[-> ->]|(-> & -> & ?)];
     [destruct (Hstep b Hb) as [[-> ->]|(-> & -> & ?)];
      [destruct (Hstep a Ha) as [[-> ->]|(-> & -> & ?)]|]|]|].
  all: cbn [rev_append]; change ((255 + 1) mod 256) with 0.
  all: split; [apply ipv4_intro; unfold is_octet; lia|].
  all: cbn -[Z.modulo]; first [rewrite Z.mod_small by lia; lia|reflexivity].
Qed.

(** ** The walk finds the first free address *)

(** The text under which address [n] is looked up and handed out. *)
Definition address (n : Z) : string := dotted (ip_of n).

Lemma IP_String_address ip : is_ipv4 ip → IP_String ip = address (ip_num ip).
Proof.
  intros Hip. rewrite IP_String_ipv4 by done. unfold address. f_equal.
  apply ip_num_inj; [done|apply ip_of_ipv4|]. by rewrite ip_num_of by (by apply ip_num_range).
Qed.

(** What a walk from [lo] to [hi] may answer. *)
Definition first_free (used : gset string) (lo hi : Z) (r : result string) : Prop :=
  match r with
  | Ok a => ∃ n, lo <= n <= hi ∧ a = address n ∧ a ∉ used ∧ ∀ m, lo <= m < n → address m ∈ used
  | Err e => e = "amneziawg IPv4 pool exhausted" ∧ ∀ m, lo <= m <= hi → address m ∈ used
  end.

Lemma walk_spec used last fuel current :
  is_ipv4 last → ip_num last < 2 ^ 32 - 1 → is_ipv4 current →
  ip_num current <= ip_num last + 1 → ip_num last + 1 - ip_num current < Z.of_nat fuel →
  ∃ r, walk fuel used last current = Some r ∧ first_free used (ip_num current) (ip_num last) r.
Proof.
  intros Hlast Htop. revert current.
  induction fuel as [|fuel IH]; intros current Hc Hle Hf; [lia|]. cbn [walk].
  rewrite compareIP_num by done. destruct (Z.leb_spec (ip_num current) (ip_num last)) as [Hin|Hout].
  - rewrite IP_String_address by done. case_bool_decide as Hu.
    + destruct (nextIP_ipv4 current Hc) as [Hn Hnum].
      pose proof (ip_num_range _ Hc). rewrite Z.mod_small in Hnum by lia.
      destruct (IH (nextIP current)) as (r & Hr & Hff); [done|lia|lia|].
      exists r. split; [done|]. rewrite Hnum in Hff.
      assert (Hlow : ∀ m, ip_num current <= m → m = ip_num current ∨ ip_num current + 1 <= m) by lia.
      destruct r as [a|e]; cbn in *.
      * destruct Hff as (n & Hn1 & -> & Hn2 & Hn3). exists n. split_and!; [lia|lia|done|done|].
        intros m Hm. destruct (Hlow m) as [-> |]; [lia|done|]. apply Hn3. lia.
      * destruct Hff as [-> Hall]. split; [done|]. intros m Hm.
        destruct (Hlow m) as [-> |]; [lia|done|]. apply Hall. lia.
    + eexists. split; [done|]. exists (ip_num current). split_and!; [lia|lia|done|done|]. lia.
  - eexists. split; [done|]. split; [done|]. lia.
Qed.

(** An address that is handed out is free, and lies in a pool that does not
    end at the last address. *)
Lemma walk_free used last fuel current a : walk fuel used last current = Some (Ok a) → a ∉ used.
Proof.
  revert current. induction fuel as [|fuel IH]; intros current; [done|]. cbn [walk].
  case_match; [|done]. case_bool_decide; [apply IH|]. by intros [= <-].
Qed.

Lemma walk_in_pool used last fuel lo current a :
  is_ipv4 last → is_ipv4 current → ip_num last < 2 ^ 32 - 1 → lo <= ip_num current →
  walk fuel used last current = Some (Ok a) → ∃ n, lo <= n <= ip_num last ∧ a = address n.
Proof.
  intros Hl Hc Htop. revert current Hc. induction fuel as [|fuel IH]; intros current Hc Hlo; [done|]. cbn [walk].
  rewrite compareIP_num by done. destruct (Z.leb_spec (ip_num current) (ip_num last)); [|done].
  case_bool_decide.
  - destruct (nextIP_ipv4 current Hc) as [Hn4 Hnum]. pose proof (ip_num_range _ Hc).
    rewrite Z.mod_small in Hnum by lia. apply IH; [done|lia].
  - intros [= <-]. exists (ip_num current). by rewrite IP_String_address.
Qed.

(** ** The walk ends

    Every step that goes on has seen another used address, also when the walk
    wraps around, so it takes no more steps than addresses are in use. *)
Definition visited (lo : Z) (i : nat) : gset string :=
  list_to_set ((fun j => address ((lo + Z.of_nat j) mod 2 ^ 32)) <$> seq 0 i).

Lemma address_inj m n : 0 <= m < 2 ^ 32 → 0 <= n < 2 ^ 32 → address m = address n → m = n.
Proof.
  intros Hm Hn E%dotted_inj; [|apply ip_of_ipv4..].
  rewrite <-(ip_num_of m), <-(ip_num_of n) by done. by rewrite E.
Qed.

Lemma visited_size lo i : Z.of_nat i <= 2 ^ 32 → size (visited lo i) = i.
Proof.
  intros Hi. unfold visited. rewrite size_list_to_set; [by rewrite length_fmap, length_seq|].
  apply NoDup_fmap_2_strong; [|apply NoDup_seq]. intros j k Hj%elem_of_seq Hk%elem_of_seq E.
  apply address_inj in E; [|apply Z.mod_pos_bound; lia..].
  assert (HD : (Z.of_nat j - Z.of_nat k) mod 2 ^ 32 = 0).
  { replace (Z.of_nat j - Z.of_nat k) with ((lo + Z.of_nat j) - (lo + Z.of_nat k)) by lia.
    by rewrite Zminus_mod, E, Z.sub_diag, Z.mod_0_l. }
  apply Z.mod_divide in HD as [q Hq]; [|done]. nia.
Qed.

Lemma walk_steps used last lo fuel i current :
  is_ipv4 current → ip_num current = (lo + Z.of_nat i) mod 2 ^ 32 →
  visited lo i ⊆ used → Z.of_nat (size used) < 2 ^ 32 → (size used < i + fuel)%nat →
  is_Some (walk fuel used last current).
Proof.
  revert i current. induction fuel as [|fuel IH]; intros i current Hc Hn Hsub Hsz Hf.
  { assert (Hle : (size (visited lo i) <= size used)%nat) by (by apply subseteq_size).
    destruct (Z.le_gt_cases (Z.of_nat i) (2 ^ 32)); [rewrite visited_size in Hle by done; lia|].
    assert (Hmax : (size (visited lo (Z.to_nat (2 ^ 32))) <= size used)%nat).
    { apply subseteq_size. etrans; [|exact Hsub]. unfold visited. intros x.
      rewrite !elem_of_list_to_set, !list_elem_of_fmap. intros (j & -> & Hj%elem_of_seq).
      exists j. split; [done|]. apply elem_of_seq. lia. }
    rewrite visited_size in Hmax by lia. lia. }
  cbn [walk]. case_match; [|eauto]. case_bool_decide as Hu; [|eauto].
  destruct (nextIP_ipv4 current Hc) as [Hn4 Hnum]. apply (IH (S i)); [done| | |done|lia].
  - rewrite Hnum, Hn, Zplus_mod_idemp_l. f_equal. lia.
  - unfold visited. rewrite seq_S, fmap_app, list_to_set_app_L. cbn [fmap list_fmap list_to_set]. apply union_subseteq. split; [done|].
    rewrite union_empty_r_L. apply singleton_subseteq_l.
    rewrite IP_String_address, Hn in Hu by done. exact Hu.
Qed.

Lemma list_to_set_size (l : list string) : (size (list_to_set l : gset string) <= length l)%nat.
Proof.
  induction l as [|x l IH]; [by rewrite list_to_set_nil, size_empty|]. rewrite list_to_set_cons, size_union_alt, size_singleton.
  cbn. pose proof (subseteq_size (list_to_set l ∖ {[x]}) (list_to_set l : gset string) ltac:(set_solver)). lia.
Qed.

Lemma nextAvailableIPv4_ends config materials :
  Z.of_nat (length materials) < 2 ^ 32 - 1 →
  is_Some (nextAvailableIPv4 (S (S (length materials))) config materials).
Proof.
  intros Hlen. unfold nextAvailableIPv4. destruct (bool_decide _ || _ || _) eqn:E; [eauto|].
  rewrite !orb_false_iff, !bool_decide_eq_false in E. destruct E as [[Hf Hl] _].
  set (first := To4 (ParseIP (awg_FirstClientIPv4 config))) in *.
  assert (Hf4 : is_ipv4 first) by (by apply To4_ParseIP_ipv4).
  assert (Hsize : (size (pool_used config materials) <= S (length materials))%nat).
  { pose proof (list_to_set_size (awg_ServerIPv4 config :: (am_AssignedIPv4 <$> materials))) as Hs.
    cbn in Hs. by rewrite length_fmap in Hs. }
  apply (walk_steps _ _ (ip_num first) _ 0); [done| |set_solver|lia|lia].
  rewrite Z.add_0_r, Z.mod_small; [done|]. by apply ip_num_range.
Qed.

(** Enough fuel for a pool from [first] to [last]. *)
Definition pool_fuel (first last : IP) : nat := S (S (Z.to_nat (ip_num last - ip_num first))).

(** C24. For a pool of IPv4 addresses that does not end at 255.255.255.255 the
    search ends after at most one step more than the pool has addresses; it
    returns the lowest address that is neither the server's nor assigned to
    another connection of the node, written in the form that is stored and
    compared, and reports exhaustion only when every address is taken. *)
Theorem nextAvailableIPv4_first_free config materials :
  let first := To4 (ParseIP (awg_FirstClientIPv4 config)) in
  let last := To4 (ParseIP (awg_LastClientIPv4 config)) in
  first ≠ [] → last ≠ [] → ip_num first <= ip_num last < 2 ^ 32 - 1 →
  ∃ r, nextAvailableIPv4 (pool_fuel first last) config materials = Some r ∧
       first_free ({[awg_ServerIPv4 config]} ∪ list_to_set (am_AssignedIPv4 <$> materials)) (ip_num first) (ip_num last) r.
Proof.
  intros first last Hf Hl Hle. fold (pool_used config materials). unfold nextAvailableIPv4. fold first last.
  assert (Hf4 : is_ipv4 first) by (by apply To4_ParseIP_ipv4).
  assert (Hl4 : is_ipv4 last) by (by apply To4_ParseIP_ipv4).
  rewrite !bool_decide_eq_false_2 by done.
  pose proof (compareIP_num first last Hf4 Hl4) as Hcmp.
  rewrite (proj2 (Z.leb_le (ip_num first) _)) in Hcmp by lia. apply Z.leb_le in Hcmp.
  rewrite (proj2 (Z.ltb_ge 0 _)) by lia. cbn [orb].
  apply walk_spec; [done|lia|done|lia|]. unfold pool_fuel. lia.
Qed.

Definition pool_config (server first last : string) : AmneziaWGNodeConfig :=
  mkAmneziaWGNodeConfig "n1" "vpn.example.org" 51820 51820 server "10.8.1.0/24" first last "" 0 0 "" "" ""
    "" "" (mkAmneziaWGObfuscation 0 0 0 0 0 0 0 "" "" "" "" "" "" "" "" "" "" "" "" false false) 0 "" 1
    GoTime.zero_time GoTime.zero_time.

Definition assigned (ip : string) : AmneziaWGConnectionMaterial :=
  mkAmneziaWGMaterial "c" "n1" "pub" "priv" "psk" ip GoTime.zero_time GoTime.zero_time.

Lemma nextAvailableIPv4_first_free_witness :
  let config := pool_config "10.8.1.2" "10.8.1.1" "10.8.1.9" in
  ∃ r, nextAvailableIPv4 (pool_fuel [10; 8; 1; 1] [10; 8; 1; 9]) config [assigned "10.8.1.1"] = Some r ∧
       first_free (pool_used config [assigned "10.8.1.1"]) (ip_num [10; 8; 1; 1]) (ip_num [10; 8; 1; 9]) r.
Proof.
  apply (nextAvailableIPv4_first_free (pool_config "10.8.1.2" "10.8.1.1" "10.8.1.9") [assigned "10.8.1.1"]);
    [discriminate|discriminate|split; [discriminate|reflexivity]].
Defined.

Example pool_sample :
  nextAvailableIPv4 9 (pool_config "10.8.1.2" "10.8.1.1" "10.8.1.9") [assigned "10.8.1.1"] = Some (Ok "10.8.1.3").
Proof. reflexivity. Qed.

(** A pool that ends at the last IPv4 address is left upwards: the
    successor of 255.255.255.255 is 0.0.0.0, which is below the end again, so
    a full pool yields an address outside of it instead of exhaustion. *)
Theorem pool_wraps_around :
  nextAvailableIPv4 2 (pool_config "255.255.255.254" "255.255.255.255" "255.255.255.255")
    [assigned "255.255.255.255"] = Some (Ok "0.0.0.0").
Proof. vm_compute. reflexivity. Qed.
