(* ===== verification/ServerStore.v ===== *)
(** * ServerStore: the database of the control plane

    [src/internal/server/storage/domain_sql.go], the account statements of
    [sqlite.go] and the settings updates of [amnezia_settings.go] and
    [hysteria_settings.go], over the tables of
    [migrations/sql/00001_initial_schema.sql].

    Every operation takes the current time as an argument, and the fresh
    identifiers [NewID] draws.  A transaction that fails changes nothing.  The
    unique indexes and checks of the schema are errors of the writes they
    guard; foreign keys hold because rows are never removed and every insert
    looks its parents up first.  A time column holds the text of [ts], and
    [order by] on it compares texts; the model stores the time and compares
    through [ts]. *)

From S2P Require Import Prelude GoLib Sql ServerModel.
Import GoTime GoStrings.

Definition ErrNotFound : error := "not found".
Definition ErrConflict : error := "configuration changed concurrently".
Definition ErrDuplicateConnection : error := "connection already exists for account, node and name".
Definition ErrUniqueIndex : error := "UNIQUE constraint failed".
Definition ErrCheckConstraint : error := "CHECK constraint failed".

Definition ts (t : time) : string := TimeText.RFC3339Nano t.

Record Server := mkServer {
  accounts : gmap string Account;
  nodes : gmap string Node;
  node_instances : gmap string NodeInstance;
  agent_installations : gmap string AgentInstallation;
  connections : gmap string Connection;
  hysteria2_materials : gmap string Hysteria2ConnectionMaterial;
  amneziawg_materials : gmap string AmneziaWGConnectionMaterial;
  amnezia_api_refs : gmap string AmneziaAPIConnectionRef;
  issued_configs : gmap string IssuedConfig;
  hysteria2_node_configs : gmap string Hysteria2NodeConfig;
  amneziawg_node_configs : gmap string AmneziaWGNodeConfig;
  amnezia_api_node_configs : gmap string AmneziaAPINodeConfig;
}.

Definition empty_server : Server := mkServer ∅ ∅ ∅ ∅ ∅ ∅ ∅ ∅ ∅ ∅ ∅ ∅.

Definition set_accounts v s := mkServer v (nodes s) (node_instances s) (agent_installations s)
  (connections s) (hysteria2_materials s) (amneziawg_materials s) (amnezia_api_refs s)
  (issued_configs s) (hysteria2_node_configs s) (amneziawg_node_configs s)
  (amnezia_api_node_configs s).
Definition set_nodes v s := mkServer (accounts s) v (node_instances s) (agent_installations s)
  (connections s) (hysteria2_materials s) (amneziawg_materials s) (amnezia_api_refs s)
  (issued_configs s) (hysteria2_node_configs s) (amneziawg_node_configs s)
  (amnezia_api_node_configs s).
Definition set_node_instances v s := mkServer (accounts s) (nodes s) v (agent_installations s)
  (connections s) (hysteria2_materials s) (amneziawg_materials s) (amnezia_api_refs s)
  (issued_configs s) (hysteria2_node_configs s) (amneziawg_node_configs s)
  (amnezia_api_node_configs s).
Definition set_agent_installations v s := mkServer (accounts s) (nodes s) (node_instances s) v
  (connections s) (hysteria2_materials s) (amneziawg_materials s) (amnezia_api_refs s)
  (issued_configs s) (hysteria2_node_configs s) (amneziawg_node_configs s)
  (amnezia_api_node_configs s).
Definition set_connections v s := mkServer (accounts s) (nodes s) (node_instances s)
  (agent_installations s) v (hysteria2_materials s) (amneziawg_materials s) (amnezia_api_refs s)
  (issued_configs s) (hysteria2_node_configs s) (amneziawg_node_configs s)
  (amnezia_api_node_configs s).
Definition set_hysteria2_materials v s := mkServer (accounts s) (nodes s) (node_instances s)
  (agent_installations s) (connections s) v (amneziawg_materials s) (amnezia_api_refs s)
  (issued_configs s) (hysteria2_node_configs s) (amneziawg_node_configs s)
  (amnezia_api_node_configs s).
Definition set_amneziawg_materials v s := mkServer (accounts s) (nodes s) (node_instances s)
  (agent_installations s) (connections s) (hysteria2_materials s) v (amnezia_api_refs s)
  (issued_configs s) (hysteria2_node_configs s) (amneziawg_node_configs s)
  (amnezia_api_node_configs s).
Definition set_amnezia_api_refs v s := mkServer (accounts s) (nodes s) (node_instances s)
  (agent_installations s) (connections s) (hysteria2_materials s) (amneziawg_materials s) v
  (issued_configs s) (hysteria2_node_configs s) (amneziawg_node_configs s)
  (amnezia_api_node_configs s).
Definition set_issued_configs v s := mkServer (accounts s) (nodes s) (node_instances s)
  (agent_installations s) (connections s) (hysteria2_materials s) (amneziawg_materials s)
  (amnezia_api_refs s) v (hysteria2_node_configs s) (amneziawg_node_configs s)
  (amnezia_api_node_configs s).
Definition set_hysteria2_node_configs v s := mkServer (accounts s) (nodes s) (node_instances s)
  (agent_installations s) (connections s) (hysteria2_materials s) (amneziawg_materials s)
  (amnezia_api_refs s) (issued_configs s) v (amneziawg_node_configs s)
  (amnezia_api_node_configs s).
Definition set_amneziawg_node_configs v s := mkServer (accounts s) (nodes s) (node_instances s)
  (agent_installations s) (connections s) (hysteria2_materials s) (amneziawg_materials s)
  (amnezia_api_refs s) (issued_configs s) (hysteria2_node_configs s) v
  (amnezia_api_node_configs s).
Definition set_amnezia_api_node_configs v s := mkServer (accounts s) (nodes s) (node_instances s)
  (agent_installations s) (connections s) (hysteria2_materials s) (amneziawg_materials s)
  (amnezia_api_refs s) (issued_configs s) (hysteria2_node_configs s) (amneziawg_node_configs s) v.

(** ** Helpers of the statements *)

(** [scanX(s.queryRow(.. where id = ?))] *)
Definition get_row {A} (t : gmap string A) (id : string) : result A :=
  match t !! id with Some r => Ok r | None => Err ErrNotFound end.

(** The first row of an ordered query *)
Definition first_row {A} (l : list A) : result A :=
  match l with r :: _ => Ok r | [] => Err ErrNotFound end.

Definition or_default (v d : string) : string := if bool_decide (v = "") then d else v.
Definition or_defaultZ (v d : Z) : Z := if (v =? 0)%Z then d else v.
Definition blank (v : string) : bool := bool_decide (TrimSpace v = "").

(** The orders of the listings: text columns compare byte-wise. *)
Definition lex (a b : string * string) : Prop :=
  str_lt a.1 b.1 ∨ (a.1 = b.1 ∧ String.le a.2 b.2).
Section KeyOrder.
Context {A : Type} (key : A → string * string).
Definition key_le (x y : A) : Prop := lex (key x) (key y).
#[export] Instance key_le_dec : RelDecision key_le.
Proof. intros x y. unfold key_le, lex. apply _. Defined.
Definition order_by (l : list A) : list A := merge_sort key_le l.
Lemma elem_of_order_by l x : x ∈ order_by l ↔ x ∈ l.
Proof. unfold order_by. by rewrite merge_sort_Permutation. Qed.
End KeyOrder.

(** [case when desired_version_ms >= v then desired_version_ms + 1 else v end] *)
Definition bump_version (v old : Z) : Z := if (v <=? old)%Z then (old + 1)%Z else v.

(** ** Accounts *)
Definition CreateAccount (now : time) (newID : string) (u : Account) : goM Server Account :=
  transaction (fun s =>
    let u := mkAccount newID (acc_Username u) (acc_DisplayName u) AccountStatusActive now now in
    t ← sql_insert ErrUniqueIndex newID u (accounts s);
    Ok (set_accounts t s, u)).

Definition GetAccount (id : string) (s : Server) : result Account := get_row (accounts s) id.

(** [order by username]: the rows of one username come in no fixed order. *)
Definition ListAccounts (s : Server) : list Account :=
  order_by (fun u => (acc_Username u, acc_ID u)) (map_to_list (accounts s)).*2.

Definition set_account_status (status : string) (now : time) (u : Account) : Account :=
  mkAccount (acc_ID u) (acc_Username u) (acc_DisplayName u) status (acc_CreatedAt u) now.

Definition UpdateAccountStatus (now : time) (id status : string) : goM Server Account :=
  if negb (bool_decide (status = AccountStatusActive)) &&
     negb (bool_decide (status = AccountStatusHeld)) &&
     negb (bool_decide (status = AccountStatusDeleted))
  then failM "unsupported account status"
  else fun s =>
    let s' := set_accounts (alter (set_account_status status now) id (accounts s)) s in
    (s', GetAccount id s').

(** ** Nodes *)
Definition defaultNode (now : time) (newID : string) (v : Node) : Node :=
  mkNode (or_default (nd_ID v) newID) (nd_Name v) (nd_Type v) (nd_Region v)
    (or_default (nd_Status v) StatusActive) now now.

(** [insert into nodes]: [id] and [name] are unique. *)
Definition insert_node (v : Node) (s : Server) : result Server :=
  if sql_exists (fun r => bool_decide (nd_Name r = nd_Name v)) (nodes s) then Err ErrUniqueIndex
  else t ← sql_insert ErrUniqueIndex (nd_ID v) v (nodes s); Ok (set_nodes t s).

Definition CreateNode (now : time) (newID : string) (v : Node) : goM Server Node :=
  transaction (fun s =>
    let v := defaultNode now newID v in
    s' ← insert_node v s; Ok (s', v)).

Definition ListNodes (s : Server) : list Node :=
  order_by (fun v => (nd_Name v, nd_ID v)) (map_to_list (nodes s)).*2.

Definition GetNode (id : string) (s : Server) : result Node := get_row (nodes s) id.

Definition bump_status (status : string) (version : Z) (now : time) (c : Connection) : Connection :=
  mkConnection (cn_ID c) (cn_AccountID c) (cn_NodeID c) (cn_Name c) (cn_Protocol c)
    status (cn_AppliedStatus c) (bump_version version (cn_DesiredVersionMS c))
    (cn_AppliedVersionMS c) (cn_LastErrorID c) (cn_CreatedAt c) now.

Definition set_installation_status (status : string) (now : time) (v : AgentInstallation)
    : AgentInstallation :=
  mkAgentInstallation (ai_ID v) (ai_NodeInstanceID v) (ai_AgentType v) status
    (ai_CertificateFingerprintSHA256 v) (ai_CertificateSerial v) (ai_CertificateNotBefore v)
    (ai_CertificateNotAfter v) (ai_CreatedAt v) now.

Definition retire_instance (now : time) (v : NodeInstance) : NodeInstance :=
  mkNodeInstance (ni_ID v) (ni_NodeID v) (ni_Host v) (ni_SSHPort v) (ni_SSHUser v) (ni_SSHKey v)
    StatusDeleted (ni_CreatedAt v) now (ni_ActivatedAt v) now.

Definition set_node_status (status : string) (now : time) (v : Node) : Node :=
  mkNode (nd_ID v) (nd_Name v) (nd_Type v) (nd_Region v) status (nd_CreatedAt v) now.

Definition instance_of_node (s : Server) (nodeID instanceID : string) : bool :=
  match node_instances s !! instanceID with
  | Some i => bool_decide (ni_NodeID i = nodeID)
  | None => false
  end.

(** The four statements of the transaction, in the order of the source. *)
Definition delete_node_rows (now : time) (id : string) (s : Server) : Server :=
  let version := TimeUnixMilli now in
  let s := set_connections (sql_update
    (fun c => bool_decide (cn_NodeID c = id) && negb (bool_decide (cn_DesiredStatus c = StatusDeleted)))
    (bump_status StatusDeleted version now) (connections s)) s in
  let s := set_agent_installations (sql_update
    (fun v => instance_of_node s id (ai_NodeInstanceID v) && bool_decide (ai_Status v = StatusActive))
    (set_installation_status StatusDeleted now) (agent_installations s)) s in
  let s := set_node_instances (sql_update
    (fun v => bool_decide (ni_NodeID v = id) && bool_decide (ni_Status v = StatusActive))
    (retire_instance now) (node_instances s)) s in
  set_nodes (alter (set_node_status StatusDeleted now) id (nodes s)) s.

Definition SoftDeleteNode (now : time) (id : string) : goM Server Node := fun s =>
  let s' := delete_node_rows now id s in (s', GetNode id s').

(** ** Node instances and agent installations *)
Definition defaultNodeInstance (now : time) (newID : string) (v : NodeInstance) : NodeInstance :=
  let status := or_default (ni_Status v) StatusActive in
  mkNodeInstance (or_default (ni_ID v) newID) (ni_NodeID v) (ni_Host v)
    (or_defaultZ (ni_SSHPort v) 22) (ni_SSHUser v) (ni_SSHKey v) status now now
    (if IsZero (ni_ActivatedAt v) && bool_decide (status = StatusActive) then now
     else ni_ActivatedAt v)
    (ni_RetiredAt v).

Definition insert_instance (v : NodeInstance) (s : Server) : result Server :=
  t ← sql_insert ErrUniqueIndex (ni_ID v) v (node_instances s); Ok (set_node_instances t s).

Definition CreateNodeInstance (now : time) (newID : string) (v : NodeInstance)
    : goM Server NodeInstance :=
  transaction (fun s =>
    _ ← GetNode (ni_NodeID v) s;
    let v := defaultNodeInstance now newID v in
    s' ← insert_instance v s; Ok (s', v)).

Definition GetNodeInstance (id : string) (s : Server) : result NodeInstance :=
  get_row (node_instances s) id.

(** [order by activated_at desc, created_at desc limit 1]; a null
    [activated_at] (the zero time) comes last in a descending SQLite order. *)
Definition instance_newer (x y : NodeInstance) : Prop :=
  let a v := if IsZero (ni_ActivatedAt v) then "" else ts (ni_ActivatedAt v) in
  lex (a y, ts (ni_CreatedAt y)) (a x, ts (ni_CreatedAt x)).
#[export] Instance instance_newer_dec : RelDecision instance_newer.
Proof. intros x y. unfold instance_newer, lex. apply _. Defined.

Definition GetActiveNodeInstance (nodeID : string) (s : Server) : result NodeInstance :=
  first_row (merge_sort instance_newer (sql_select
    (fun v => bool_decide (ni_NodeID v = nodeID) && bool_decide (ni_Status v = StatusActive))
    (node_instances s))).

Definition ListNodeInstances (s : Server) : list NodeInstance :=
  order_by (fun v => (ts (ni_CreatedAt v), ni_ID v)) (map_to_list (node_instances s)).*2.

Definition normalizeFingerprint (v : string) : string := ToLower (TrimSpace v).

Definition defaultAgentInstallation (now : time) (newID : string) (v : AgentInstallation)
    (instanceID : string) : AgentInstallation :=
  mkAgentInstallation (or_default (ai_ID v) newID) instanceID (TrimSpace (ai_AgentType v))
    (or_default (ai_Status v) StatusActive)
    (normalizeFingerprint (ai_CertificateFingerprintSHA256 v)) (ai_CertificateSerial v)
    (ai_CertificateNotBefore v) (ai_CertificateNotAfter v) now now.

Definition validateAgentInstallation (v : AgentInstallation) : result unit :=
  if bool_decide (ai_NodeInstanceID v = "") || bool_decide (ai_AgentType v = "") ||
     bool_decide (ai_CertificateFingerprintSHA256 v = "")
  then Err "agent installation instance, type and certificate fingerprint are required"
  else Ok tt.

(** [certificate_fingerprint_sha256] is unique, and an instance has at most
    one active installation of each agent type. *)
Definition installation_conflict (v r : AgentInstallation) : bool :=
  bool_decide (ai_CertificateFingerprintSHA256 r = ai_CertificateFingerprintSHA256 v) ||
  (bool_decide (ai_Status v = StatusActive) && bool_decide (ai_Status r = StatusActive) &&
   bool_decide (ai_NodeInstanceID r = ai_NodeInstanceID v) &&
   bool_decide (ai_AgentType r = ai_AgentType v)).

Definition insert_installation (v : AgentInstallation) (s : Server) : result Server :=
  if sql_exists (installation_conflict v) (agent_installations s) then Err ErrUniqueIndex
  else t ← sql_insert ErrUniqueIndex (ai_ID v) v (agent_installations s);
       Ok (set_agent_installations t s).

Definition CreateAgentInstallation (now : time) (newID : string) (v : AgentInstallation)
    : goM Server AgentInstallation :=
  transaction (fun s =>
    _ ← GetNodeInstance (ai_NodeInstanceID v) s;
    let v := defaultAgentInstallation now newID v (ai_NodeInstanceID v) in
    _ ← validateAgentInstallation v;
    s' ← insert_installation v s; Ok (s', v)).

Definition active_fingerprint (fingerprint : string) (v : AgentInstallation) : bool :=
  bool_decide (ai_CertificateFingerprintSHA256 v = normalizeFingerprint fingerprint) &&
  bool_decide (ai_Status v = StatusActive).

Definition GetActiveAgentInstallationByCertificateFingerprint (fingerprint : string) (s : Server)
    : result AgentInstallation :=
  first_row (sql_select (active_fingerprint fingerprint) (agent_installations s)).

(** The fields of [agentprotocol.InstallationRecord]: id, node and agent type. *)
Definition LookupActiveAgentInstallation (fingerprint : string) (s : Server)
    : result (string * string * string) :=
  first_row (omap (fun v =>
    i ← node_instances s !! ai_NodeInstanceID v;
    Some (ai_ID v, ni_NodeID i, ai_AgentType v))
    (sql_select (active_fingerprint fingerprint) (agent_installations s))).

Definition GetAgentInstallation (id : string) (s : Server) : result AgentInstallation :=
  get_row (agent_installations s) id.

Definition ListAgentInstallations (s : Server) : list AgentInstallation :=
  order_by (fun v => (ts (ai_CreatedAt v), ai_ID v)) (map_to_list (agent_installations s)).*2.

Definition set_instance_node (nodeID : string) (v : NodeInstance) : NodeInstance :=
  mkNodeInstance (ni_ID v) nodeID (ni_Host v) (ni_SSHPort v) (ni_SSHUser v) (ni_SSHKey v)
    (ni_Status v) (ni_CreatedAt v) (ni_UpdatedAt v) (ni_ActivatedAt v) (ni_RetiredAt v).

Definition CreateNodeWithInstanceAndAgentInstallation (now : time) (nodeID instanceID installationID : string)
    (node : Node) (instance : NodeInstance) (installation : AgentInstallation)
    : goM Server (Node * NodeInstance * AgentInstallation) :=
  transaction (fun s =>
    let node := defaultNode now nodeID node in
    let instance := defaultNodeInstance now instanceID (set_instance_node (nd_ID node) instance) in
    let installation := defaultAgentInstallation now installationID installation (ni_ID instance) in
    _ ← validateAgentInstallation installation;
    s1 ← insert_node node s;
    s2 ← insert_instance instance s1;
    s3 ← insert_installation installation s2;
    Ok (s3, (node, instance, installation))).

(** ** Connections *)
Definition validateConfigs (configs : list IssuedConfig) : result unit :=
  if bool_decide (configs = []) then Err "connection requires at least one issued config"
  else if existsb (fun c => bool_decide (ic_Kind c = "") || blank (ic_Name c) || blank (ic_Config c)) configs
  then Err "issued config kind, name and content are required"
  else Ok tt.

Definition validateConnectionBundle (node : Node) (bundle : ConnectionBundle) : result unit :=
  let connection := cb_Connection bundle in
  _ ← validateConfigs (cb_Configs bundle);
  if bool_decide (nd_Type node = NodeTypeNativeHy2) then
    match bool_decide (cn_Protocol connection = ProtocolHysteria2),
          cb_Hysteria2Material bundle, cb_AmneziaWGMaterial bundle, cb_AmneziaAPIRef bundle with
    | true, Some m, None, None =>
        if blank (hm_Password m) || blank (hm_PasswordHash m)
        then Err "native Hysteria2 connection password and password hash are required" else Ok tt
    | _, _, _, _ => Err "native Hysteria2 connection requires only Hysteria2 material"
    end
  else if bool_decide (nd_Type node = NodeTypeNativeAmneziaWG) then
    match bool_decide (cn_Protocol connection = ProtocolAmneziaWG),
          cb_AmneziaWGMaterial bundle, cb_Hysteria2Material bundle, cb_AmneziaAPIRef bundle with
    | true, Some m, None, None =>
        if negb (bool_decide (am_NodeID m = "")) && negb (bool_decide (am_NodeID m = cn_NodeID connection))
        then Err "native AmneziaWG connection material node mismatch"
        else if blank (am_ClientPublicKey m) || blank (am_ClientPrivateKey m) ||
                blank (am_PresharedKey m) || blank (am_AssignedIPv4 m)
        then Err "native AmneziaWG connection material is incomplete" else Ok tt
    | _, _, _, _ => Err "native AmneziaWG connection requires only AmneziaWG material"
    end
  else if bool_decide (nd_Type node = NodeTypeAmneziaAPI) then
    match bool_decide (cn_Protocol connection = ProtocolAmneziaWG),
          cb_AmneziaAPIRef bundle, cb_Hysteria2Material bundle, cb_AmneziaWGMaterial bundle with
    | true, Some r, None, None =>
        if blank (ar_RemoteID r) then Err "Amnezia API remote connection ID is required" else Ok tt
    | _, _, _, _ => Err "Amnezia API connection requires only an external connection reference"
    end
  else Err "unsupported connection node type".

Definition defaultConnection (now : time) (newID : string) (v : Connection) : Connection :=
  mkConnection (or_default (cn_ID v) newID) (cn_AccountID v) (cn_NodeID v) (cn_Name v)
    (cn_Protocol v) (or_default (cn_DesiredStatus v) ConnectionStatusActive)
    (or_default (cn_AppliedStatus v) ConnectionStatusAbsent)
    (or_defaultZ (cn_DesiredVersionMS v) (TimeUnixMilli now)) (cn_AppliedVersionMS v)
    (cn_LastErrorID v) now now.

(** The partial unique index on (account, node, name) of the connections that
    are not deleted. *)
Definition live (c : Connection) : bool :=
  negb (bool_decide (cn_DesiredStatus c = ConnectionStatusDeleted)).
Definition same_name (c r : Connection) : bool :=
  bool_decide (cn_AccountID r = cn_AccountID c) && bool_decide (cn_NodeID r = cn_NodeID c) &&
  bool_decide (cn_Name r = cn_Name c).
Definition name_taken (c : Connection) (t : gmap string Connection) : bool :=
  live c && sql_exists (fun r => live r && same_name c r && negb (bool_decide (cn_ID r = cn_ID c))) t.

Definition insert_connection (v : Connection) (s : Server) : result Server :=
  if name_taken v (connections s) then Err ErrDuplicateConnection
  else t ← sql_insert ErrDuplicateConnection (cn_ID v) v (connections s); Ok (set_connections t s).

Definition stamp_hysteria2 (now : time) (v : Connection) (m : Hysteria2ConnectionMaterial) :=
  mkHysteria2Material (cn_ID v) (hm_Password m) (hm_PasswordHash m) now now.
Definition stamp_amneziawg (now : time) (v : Connection) (m : AmneziaWGConnectionMaterial) :=
  mkAmneziaWGMaterial (cn_ID v) (cn_NodeID v) (am_ClientPublicKey m) (am_ClientPrivateKey m)
    (am_PresharedKey m) (am_AssignedIPv4 m) now now.
Definition stamp_ref (now : time) (v : Connection) (r : AmneziaAPIConnectionRef) :=
  mkAmneziaAPIRef (cn_ID v) (ar_RemoteID r) (ar_RemoteName r) now now.
Definition stamp_config (now : time) (v : Connection) (newID : string) (c : IssuedConfig) :=
  mkIssuedConfig newID (cn_ID v) (ic_Kind c) (ic_Slug c) (ic_Name c) (ic_Client c)
    (ic_ContentType c) (ic_Config c) StatusActive now now.

Definition insert_hysteria2_material (o : option Hysteria2ConnectionMaterial) (s : Server)
    : result Server :=
  match o with
  | None => Ok s
  | Some m =>
      t ← sql_insert ErrUniqueIndex (hm_ConnectionID m) m (hysteria2_materials s);
      Ok (set_hysteria2_materials t s)
  end.

(** [unique(node_id, assigned_ipv4)] and [unique(node_id, client_public_key)] *)
Definition material_conflict (m r : AmneziaWGConnectionMaterial) : bool :=
  bool_decide (am_NodeID r = am_NodeID m) &&
  (bool_decide (am_AssignedIPv4 r = am_AssignedIPv4 m) ||
   bool_decide (am_ClientPublicKey r = am_ClientPublicKey m)).

Definition insert_amneziawg_material (o : option AmneziaWGConnectionMaterial) (s : Server)
    : result Server :=
  match o with
  | None => Ok s
  | Some m =>
      if sql_exists (material_conflict m) (amneziawg_materials s) then Err ErrUniqueIndex
      else t ← sql_insert ErrUniqueIndex (am_ConnectionID m) m (amneziawg_materials s);
           Ok (set_amneziawg_materials t s)
  end.

Definition insert_ref (o : option AmneziaAPIConnectionRef) (s : Server) : result Server :=
  match o with
  | None => Ok s
  | Some r =>
      t ← sql_insert ErrUniqueIndex (ar_ConnectionID r) r (amnezia_api_refs s);
      Ok (set_amnezia_api_refs t s)
  end.

Definition insert_config (s : Server) (c : IssuedConfig) : result Server :=
  t ← sql_insert ErrUniqueIndex (ic_ID c) c (issued_configs s); Ok (set_issued_configs t s).

(** The configuration row is locked, and its version compared, first. *)
Definition lock_node_config (v : Connection) (bundle : ConnectionBundle) (s : Server) : result unit :=
  match cb_AmneziaWGMaterial bundle with
  | Some _ =>
      if (0 <? cb_ExpectedNodeConfigVersionMS bundle)%Z then
        match amneziawg_node_configs s !! cn_NodeID v with
        | Some c => if (awg_ConfigVersionMS c =? cb_ExpectedNodeConfigVersionMS bundle)%Z
                    then Ok tt else Err ErrConflict
        | None => Err ErrConflict
        end
      else Ok tt
  | None => Ok tt
  end.

(** [newID 0] is the id of the connection, [newID (S i)] of its [i]-th config. *)
Definition CreateConnectionBundle (now : time) (newID : nat → string) (bundle : ConnectionBundle)
    : goM Server ConnectionBundle :=
  transaction (fun s =>
    let v := cb_Connection bundle in
    _ ← GetAccount (cn_AccountID v) s;
    node ← GetNode (cn_NodeID v) s;
    _ ← validateConnectionBundle node bundle;
    let v := defaultConnection now (newID 0) v in
    if blank (cn_Name v) then Err "connection name is required" else
    _ ← lock_node_config v bundle s;
    s1 ← insert_connection v s;
    let hm := stamp_hysteria2 now v <$> cb_Hysteria2Material bundle in
    s2 ← insert_hysteria2_material hm s1;
    let am := stamp_amneziawg now v <$> cb_AmneziaWGMaterial bundle in
    s3 ← insert_amneziawg_material am s2;
    let ar := stamp_ref now v <$> cb_AmneziaAPIRef bundle in
    s4 ← insert_ref ar s3;
    let configs := imap (fun i c => stamp_config now v (newID (S i)) c) (cb_Configs bundle) in
    s5 ← foldlR insert_config configs s4;
    Ok (s5, mkConnectionBundle (cb_ExpectedNodeConfigVersionMS bundle) v hm am ar configs)).

Definition GetConnection (id : string) (s : Server) : result Connection := get_row (connections s) id.

Definition ListConnections (s : Server) : list Connection :=
  order_by (fun c => (ts (cn_CreatedAt c), cn_ID c)) (map_to_list (connections s)).*2.

(** [update connections set desired_status = ?, .., last_error_id = ''] *)
Definition set_desired_status (status : string) (version : Z) (now : time) (c : Connection)
    : Connection :=
  mkConnection (cn_ID c) (cn_AccountID c) (cn_NodeID c) (cn_Name c) (cn_Protocol c)
    status (cn_AppliedStatus c) (bump_version version (cn_DesiredVersionMS c))
    (cn_AppliedVersionMS c) "" (cn_CreatedAt c) now.

Definition UpdateConnectionDesiredStatus (now : time) (id status : string) : goM Server Connection :=
  if negb (bool_decide (status = ConnectionStatusActive)) &&
     negb (bool_decide (status = ConnectionStatusHeld)) &&
     negb (bool_decide (status = ConnectionStatusDeleted))
  then failM "unsupported connection desired status"
  else transaction (fun s =>
    match connections s !! id with
    | None => Err ErrNotFound
    | Some c =>
        let c' := set_desired_status status (TimeUnixMilli now) now c in
        if name_taken c' (connections s) then Err ErrUniqueIndex
        else Ok (set_connections (<[id := c']> (connections s)) s, c')
    end).

(** *** Finalising what an agent has applied *)

(** The candidates are read first, outside the transaction that updates them. *)
Definition finalize_candidate (nodeID accountID : string) (appliedVersionMS : Z) (c : Connection) : bool :=
  bool_decide (cn_NodeID c = nodeID) && bool_decide (cn_AccountID c = accountID) &&
  (cn_DesiredVersionMS c <=? appliedVersionMS)%Z &&
  (negb (bool_decide (cn_AppliedStatus c = cn_DesiredStatus c)) ||
   (cn_AppliedVersionMS c <? cn_DesiredVersionMS c)%Z).

Definition finalize_candidates (nodeID accountID : string) (appliedVersionMS : Z) (s : Server)
    : list Connection :=
  order_by (fun c => (cn_ID c, ""))
    (sql_select (finalize_candidate nodeID accountID appliedVersionMS) (connections s)).

Definition set_applied (now : time) (c : Connection) : Connection :=
  mkConnection (cn_ID c) (cn_AccountID c) (cn_NodeID c) (cn_Name c) (cn_Protocol c)
    (cn_DesiredStatus c) (cn_DesiredStatus c) (cn_DesiredVersionMS c) (cn_DesiredVersionMS c)
    "" (cn_CreatedAt c) now.

Definition mark_applied (c : Connection) : Connection :=
  mkConnection (cn_ID c) (cn_AccountID c) (cn_NodeID c) (cn_Name c) (cn_Protocol c)
    (cn_DesiredStatus c) (cn_DesiredStatus c) (cn_DesiredVersionMS c) (cn_DesiredVersionMS c)
    (cn_LastErrorID c) (cn_CreatedAt c) (cn_UpdatedAt c).

Definition set_config_status (status : string) (now : time) (c : IssuedConfig) : IssuedConfig :=
  mkIssuedConfig (ic_ID c) (ic_ConnectionID c) (ic_Kind c) (ic_Slug c) (ic_Name c) (ic_Client c)
    (ic_ContentType c) (ic_Config c) status (ic_CreatedAt c) now.

Definition finalize_one (now : time) (appliedVersionMS : Z) (v : Connection) (s : Server) : Server :=
  let s := set_connections (alter (fun c =>
    if (cn_DesiredVersionMS c <=? appliedVersionMS)%Z then set_applied now c else c)
    (cn_ID v) (connections s)) s in
  if bool_decide (cn_DesiredStatus v = ConnectionStatusDeleted) then
    set_issued_configs (sql_update
      (fun c => bool_decide (ic_ConnectionID c = cn_ID v) &&
                negb (bool_decide (ic_Status c = StatusDeleted)))
      (set_config_status StatusDeleted now) (issued_configs s)) s
  else s.

(** The transaction, on candidates read before. *)
Definition finalize_apply (now : time) (appliedVersionMS : Z) (candidates : list Connection)
    (s : Server) : Server :=
  foldl (fun s v => finalize_one now appliedVersionMS v s) s candidates.

Definition FinalizeConnectionsForAuthSnapshot (now : time) (nodeID accountID : string)
    (appliedVersionMS : Z) : goM Server (list Connection) := fun s =>
  let candidates := finalize_candidates nodeID accountID appliedVersionMS s in
  (finalize_apply now appliedVersionMS candidates s, Ok (mark_applied <$> candidates)).

Definition CountActiveConnectionsForAccount (accountID : string) (s : Server) : Z :=
  Z.of_nat (length (sql_select
    (fun c => bool_decide (cn_AccountID c = accountID) && live c) (connections s))).

(** ** Connection materials and the credential projection *)
Definition GetHysteria2ConnectionMaterial (id : string) (s : Server) := get_row (hysteria2_materials s) id.
Definition GetAmneziaWGConnectionMaterial (id : string) (s : Server) := get_row (amneziawg_materials s) id.
Definition GetAmneziaAPIConnectionRef (id : string) (s : Server) := get_row (amnezia_api_refs s) id.

Definition ListAmneziaWGConnectionMaterials (nodeID : string) (s : Server)
    : list AmneziaWGConnectionMaterial :=
  order_by (fun m => (am_AssignedIPv4 m, am_ConnectionID m))
    (sql_select (fun m => bool_decide (am_NodeID m = nodeID)) (amneziawg_materials s)).

(** [where c.node_id = ? and c.protocol = ? and c.id > ? order by c.id], joined
    with the account of the connection. *)
Definition sync_rows (nodeID protocol fromConnectionID : string) (s : Server)
    : list (Connection * Account) :=
  omap (fun c => a ← accounts s !! cn_AccountID c; Some (c, a))
    (order_by (fun c => (cn_ID c, "")) (sql_select
      (fun c => bool_decide (cn_NodeID c = nodeID) && bool_decide (cn_Protocol c = protocol) &&
                str_ltb fromConnectionID (cn_ID c)) (connections s))).

(** Scanning the NULL of a missing outer-joined column into a string fails. *)
Definition ErrScanNull : error := "converting NULL to string is unsupported".

Definition mapR {A B} (f : A → result B) : list A → result (list B) :=
  fix go l := match l with [] => Ok [] | x :: l => y ← f x; ys ← go l; Ok (y :: ys) end.

Definition hysteria_sync_row (s : Server) (ca : Connection * Account)
    : result (StoredConnection string) :=
  let '(c, a) := ca in
  match hysteria2_materials s !! cn_ID c with
  | None => Err ErrScanNull
  | Some m =>
      Ok (mkStoredConnection (cn_ID c)
            (bool_decide (acc_Status a = AccountStatusActive) &&
             bool_decide (cn_DesiredStatus c = ConnectionStatusActive) &&
             negb (bool_decide (hm_PasswordHash m = "")))
            (cn_DesiredVersionMS c) (hm_PasswordHash m))
  end.

Definition amnezia_sync_row (s : Server) (config : AmneziaWGNodeConfig) (ca : Connection * Account)
    : result (StoredConnection AmneziaWGSyncMaterial) :=
  let '(c, a) := ca in
  match amneziawg_materials s !! cn_ID c with
  | None => Err ErrScanNull
  | Some m =>
      Ok (mkStoredConnection (cn_ID c)
            (bool_decide (acc_Status a = AccountStatusActive) &&
             bool_decide (cn_DesiredStatus c = ConnectionStatusActive) &&
             negb (bool_decide (am_ConnectionID m = "")))
            (cn_DesiredVersionMS c) (mkAmneziaWGSyncMaterial config c m))
  end.

Definition ListHysteriaSyncConnections (s : Server) (nodeID fromConnectionID : string)
    : result (list (StoredConnection string)) :=
  mapR (hysteria_sync_row s) (sync_rows nodeID ProtocolHysteria2 fromConnectionID s).

Definition GetAmneziaWGNodeConfig (nodeID : string) (s : Server) : result AmneziaWGNodeConfig :=
  get_row (amneziawg_node_configs s) nodeID.

Definition ListAmneziaWGSyncConnections (s : Server) (nodeID fromConnectionID : string)
    : result (list (StoredConnection AmneziaWGSyncMaterial)) :=
  config ← GetAmneziaWGNodeConfig nodeID s;
  mapR (amnezia_sync_row s config) (sync_rows nodeID ProtocolAmneziaWG fromConnectionID s).

(** ** Node configurations *)
Definition in_port (p : Z) : bool := ((1 <=? p) && (p <=? 65535))%Z.
Definition in_uint16 (p : Z) : bool := ((0 <=? p) && (p <=? 65535))%Z.

Definition CreateHysteria2NodeConfig (now : time) (v : Hysteria2NodeConfig)
    : goM Server Hysteria2NodeConfig :=
  transaction (fun s =>
    let v := mkHysteria2NodeConfig (hc_NodeID v) (hc_EndpointHost v)
      (or_defaultZ (hc_EndpointPort v) 443) (hc_ObfsEnabled v)
      (if bool_decide (hc_ObfsType v = "") && hc_ObfsEnabled v then "salamander" else hc_ObfsType v)
      (hc_ObfsPassword v) (hc_UseIPv6 v) (hc_MasqueradeURL v)
      (or_defaultZ (hc_ConfigVersionMS v) (TimeUnixMilli now)) now now
      (hc_SettingsJSON v) (hc_AppliedConfigVersionMS v) (hc_ConfigErrorID v)
      (hc_MasqueradeFileSetID v) "" in
    if in_port (hc_EndpointPort v) then
      t ← sql_insert ErrUniqueIndex (hc_NodeID v) v (hysteria2_node_configs s);
      Ok (set_hysteria2_node_configs t s, v)
    else Err ErrCheckConstraint).

Definition GetHysteria2NodeConfig (nodeID : string) (s : Server) : result Hysteria2NodeConfig :=
  get_row (hysteria2_node_configs s) nodeID.

Definition CreateAmneziaAPINode (now : time) (newID : string) (node : Node)
    (config : AmneziaAPINodeConfig) : goM Server (Node * AmneziaAPINodeConfig) :=
  transaction (fun s =>
    let node := defaultNode now newID node in
    let config := mkAmneziaAPINodeConfig (nd_ID node) (apc_BaseURL config) (apc_APIKey config) now now in
    s1 ← insert_node node s;
    t ← sql_insert ErrUniqueIndex (apc_NodeID config) config (amnezia_api_node_configs s1);
    Ok (set_amnezia_api_node_configs t s1, (node, config))).

Definition GetAmneziaAPINodeConfig (nodeID : string) (s : Server) : result AmneziaAPINodeConfig :=
  get_row (amnezia_api_node_configs s) nodeID.

Definition defaultAmneziaWGNodeConfig (now : time) (v : AmneziaWGNodeConfig) : AmneziaWGNodeConfig :=
  let endpointPort := or_defaultZ (awg_EndpointPort v) 443 in
  mkAmneziaWGNodeConfig (awg_NodeID v) (awg_EndpointHost v) endpointPort
    (or_defaultZ (awg_ListenPort v) endpointPort)
    (or_default (awg_ServerIPv4 v) "10.8.1.1")
    (or_default (awg_ClientIPv4CIDR v) "10.8.1.0/24")
    (or_default (awg_FirstClientIPv4 v) "10.8.1.2")
    (or_default (awg_LastClientIPv4 v) "10.8.1.254")
    (or_default (awg_DNS v) "1.1.1.1, 1.0.0.1")
    (or_defaultZ (awg_MTU v) 1376)
    (or_defaultZ (awg_PersistentKeepalive v) 25)
    (or_default (awg_ClientRouteAllowedIPs v) "0.0.0.0/0")
    (awg_ClientRouteMode v) (awg_ClientExcludedRoutes v)
    (awg_ServerPrivateKey v) (awg_ServerPublicKey v) (awg_Obfuscation v)
    (awg_AppliedConfigVersionMS v) (awg_ConfigErrorID v)
    (or_defaultZ (awg_ConfigVersionMS v) (TimeUnixMilli now)) now now.

(** The checks of [amneziawg_node_configs]. *)
Definition amneziawg_check (v : AmneziaWGNodeConfig) : bool :=
  let o := awg_Obfuscation v in
  in_port (awg_EndpointPort v) && in_port (awg_ListenPort v) && in_port (awg_MTU v) &&
  in_uint16 (awg_PersistentKeepalive v) &&
  forallb in_uint16 [awg_JC o; awg_JMin o; awg_JMax o; awg_S1 o; awg_S2 o; awg_S3 o; awg_S4 o] &&
  (awg_JMin o <=? awg_JMax o)%Z.

Definition insert_amneziawg_config (v : AmneziaWGNodeConfig) (s : Server) : result Server :=
  if amneziawg_check v then
    t ← sql_insert ErrUniqueIndex (awg_NodeID v) v (amneziawg_node_configs s);
    Ok (set_amneziawg_node_configs t s)
  else Err ErrCheckConstraint.

Definition CreateAmneziaWGNodeConfig (now : time) (v : AmneziaWGNodeConfig)
    : goM Server AmneziaWGNodeConfig :=
  transaction (fun s =>
    let v := defaultAmneziaWGNodeConfig now v in
    s' ← insert_amneziawg_config v s; Ok (s', v)).

Definition set_amneziawg_node (nodeID : string) (v : AmneziaWGNodeConfig) : AmneziaWGNodeConfig :=
  mkAmneziaWGNodeConfig nodeID (awg_EndpointHost v) (awg_EndpointPort v) (awg_ListenPort v)
    (awg_ServerIPv4 v) (awg_ClientIPv4CIDR v) (awg_FirstClientIPv4 v) (awg_LastClientIPv4 v)
    (awg_DNS v) (awg_MTU v) (awg_PersistentKeepalive v) (awg_ClientRouteAllowedIPs v)
    (awg_ClientRouteMode v) (awg_ClientExcludedRoutes v) (awg_ServerPrivateKey v)
    (awg_ServerPublicKey v) (awg_Obfuscation v) (awg_AppliedConfigVersionMS v)
    (awg_ConfigErrorID v) (awg_ConfigVersionMS v) (awg_CreatedAt v) (awg_UpdatedAt v).

Definition CreateNativeAmneziaWGNode (now : time) (newID : string) (node : Node)
    (config : AmneziaWGNodeConfig) : goM Server (Node * AmneziaWGNodeConfig) :=
  transaction (fun s =>
    let node := defaultNode now newID node in
    let config := defaultAmneziaWGNodeConfig now (set_amneziawg_node (nd_ID node) config) in
    s1 ← insert_node node s;
    s2 ← insert_amneziawg_config config s1;
    Ok (s2, (node, config))).

(** ** Settings updates *)

(** Every column but [node_id] and [created_at] takes the value of [v]. *)
Definition replace_amneziawg (v old : AmneziaWGNodeConfig) : AmneziaWGNodeConfig :=
  mkAmneziaWGNodeConfig (awg_NodeID old) (awg_EndpointHost v) (awg_EndpointPort v) (awg_ListenPort v)
    (awg_ServerIPv4 v) (awg_ClientIPv4CIDR v) (awg_FirstClientIPv4 v) (awg_LastClientIPv4 v)
    (awg_DNS v) (awg_MTU v) (awg_PersistentKeepalive v) (awg_ClientRouteAllowedIPs v)
    (awg_ClientRouteMode v) (awg_ClientExcludedRoutes v) (awg_ServerPrivateKey v)
    (awg_ServerPublicKey v) (awg_Obfuscation v) (awg_AppliedConfigVersionMS v)
    (awg_ConfigErrorID v) (awg_ConfigVersionMS v) (awg_CreatedAt old) (awg_UpdatedAt v).

Definition set_config_text (config : string) (now : time) (c : IssuedConfig) : IssuedConfig :=
  mkIssuedConfig (ic_ID c) (ic_ConnectionID c) (ic_Kind c) (ic_Slug c) (ic_Name c) (ic_Client c)
    (ic_ContentType c) config (ic_Status c) (ic_CreatedAt c) now.

(** [update issued_configs set config_encrypted = ? where connection_id = ? and
    kind = ? and status != 'deleted'] *)
Definition reissue (kind : string) (now : time) (t : gmap string IssuedConfig) (c : IssuedConfig)
    : gmap string IssuedConfig :=
  sql_update (fun r => bool_decide (ic_ConnectionID r = ic_ConnectionID c) &&
                       bool_decide (ic_Kind r = kind) &&
                       negb (bool_decide (ic_Status r = StatusDeleted)))
    (set_config_text (ic_Config c) now) t.

Definition set_version (version : Z) (now : time) (c : Connection) : Connection :=
  mkConnection (cn_ID c) (cn_AccountID c) (cn_NodeID c) (cn_Name c) (cn_Protocol c)
    (cn_DesiredStatus c) (cn_AppliedStatus c) (bump_version version (cn_DesiredVersionMS c))
    (cn_AppliedVersionMS c) (cn_LastErrorID c) (cn_CreatedAt c) now.

Definition UpdateAmneziaWGNodeConfig (v : AmneziaWGNodeConfig) (expected : Z)
    (configs : list IssuedConfig) : goM Server unit :=
  transaction (fun s =>
    match amneziawg_node_configs s !! awg_NodeID v with
    | None => Err ErrConflict
    | Some old =>
        if negb (awg_ConfigVersionMS old =? expected)%Z then Err ErrConflict else
        if negb (amneziawg_check (replace_amneziawg v old)) then Err ErrCheckConstraint else
        let s1 := set_amneziawg_node_configs
          (<[awg_NodeID v := replace_amneziawg v old]> (amneziawg_node_configs s)) s in
        let materialCount := length (sql_select
          (fun m => bool_decide (am_NodeID m = awg_NodeID v)) (amneziawg_materials s1)) in
        if negb (bool_decide (materialCount = length configs)) then Err ErrConflict else
        let s2 := set_issued_configs
          (foldl (reissue ConfigAmneziaConf (awg_UpdatedAt v)) (issued_configs s1) configs) s1 in
        Ok (set_connections (sql_update
              (fun c => bool_decide (cn_NodeID c = awg_NodeID v) && live c)
              (set_version (awg_ConfigVersionMS v) (awg_UpdatedAt v)) (connections s2)) s2, tt)
    end).

Definition set_amneziawg_result (version : Z) (errorID : string) (c : AmneziaWGNodeConfig)
    : AmneziaWGNodeConfig :=
  mkAmneziaWGNodeConfig (awg_NodeID c) (awg_EndpointHost c) (awg_EndpointPort c) (awg_ListenPort c)
    (awg_ServerIPv4 c) (awg_ClientIPv4CIDR c) (awg_FirstClientIPv4 c) (awg_LastClientIPv4 c)
    (awg_DNS c) (awg_MTU c) (awg_PersistentKeepalive c) (awg_ClientRouteAllowedIPs c)
    (awg_ClientRouteMode c) (awg_ClientExcludedRoutes c) (awg_ServerPrivateKey c)
    (awg_ServerPublicKey c) (awg_Obfuscation c)
    (if bool_decide (errorID = "") then version else awg_AppliedConfigVersionMS c)
    errorID (awg_ConfigVersionMS c) (awg_CreatedAt c) (awg_UpdatedAt c).

Definition SetAmneziaWGConfigResult (nodeID : string) (version : Z) (errorID : string)
    : goM Server unit := fun s =>
  (set_amneziawg_node_configs (alter (fun c =>
     if (awg_ConfigVersionMS c =? version)%Z then set_amneziawg_result version errorID c else c)
     nodeID (amneziawg_node_configs s)) s, Ok tt).

(** Connection id, name and password of the live Hysteria connections. *)
Definition ListHysteria2ConfigSources (nodeID : string) (s : Server) : list (string * string * string) :=
  omap (fun c => m ← hysteria2_materials s !! cn_ID c; Some (cn_ID c, cn_Name c, hm_Password m))
    (order_by (fun c => (cn_ID c, "")) (sql_select
      (fun c => bool_decide (cn_NodeID c = nodeID) && live c) (connections s))).

Definition replace_hysteria2 (c old : Hysteria2NodeConfig) : Hysteria2NodeConfig :=
  mkHysteria2NodeConfig (hc_NodeID old) (hc_EndpointHost c) (hc_EndpointPort c) (hc_ObfsEnabled c)
    (hc_ObfsType c) (hc_ObfsPassword c) (hc_UseIPv6 old) (hc_MasqueradeURL c) (hc_ConfigVersionMS c)
    (hc_CreatedAt old) (hc_UpdatedAt c) (hc_SettingsJSON c) (hc_AppliedConfigVersionMS old) ""
    (hc_MasqueradeFileSetID c) (hc_AppliedMasqueradeFileSetID old).

Definition UpdateHysteria2NodeConfig (c : Hysteria2NodeConfig) (expected : Z)
    (configs : list IssuedConfig) : goM Server unit :=
  transaction (fun s =>
    match hysteria2_node_configs s !! hc_NodeID c with
    | None => Err ErrConflict
    | Some old =>
        if negb (hc_ConfigVersionMS old =? expected)%Z then Err ErrConflict else
        if negb (in_port (hc_EndpointPort c)) then Err ErrCheckConstraint else
        let count := length (sql_select
          (fun v => bool_decide (cn_NodeID v = hc_NodeID c) && live v) (connections s)) in
        if negb (bool_decide (count = length configs)) then Err ErrConflict else
        let s1 := set_hysteria2_node_configs
          (<[hc_NodeID c := replace_hysteria2 c old]> (hysteria2_node_configs s)) s in
        Ok (set_issued_configs
              (foldl (reissue ConfigHy2URI (hc_UpdatedAt c)) (issued_configs s1) configs) s1, tt)
    end).

Definition set_hysteria2_result (version : Z) (errorID : string) (c : Hysteria2NodeConfig)
    : Hysteria2NodeConfig :=
  mkHysteria2NodeConfig (hc_NodeID c) (hc_EndpointHost c) (hc_EndpointPort c) (hc_ObfsEnabled c)
    (hc_ObfsType c) (hc_ObfsPassword c) (hc_UseIPv6 c) (hc_MasqueradeURL c) (hc_ConfigVersionMS c)
    (hc_CreatedAt c) (hc_UpdatedAt c) (hc_SettingsJSON c)
    (if bool_decide (errorID = "") then version else hc_AppliedConfigVersionMS c) errorID
    (hc_MasqueradeFileSetID c)
    (if bool_decide (errorID = "") then hc_MasqueradeFileSetID c
     else hc_AppliedMasqueradeFileSetID c).

Definition SetHysteria2ConfigResult (id : string) (version : Z) (errorID : string)
    : goM Server unit := fun s =>
  (set_hysteria2_node_configs (alter (fun c =>
     if (hc_ConfigVersionMS c =? version)%Z then set_hysteria2_result version errorID c else c)
     id (hysteria2_node_configs s)) s, Ok tt).
