(* ===== verification/StoreInvariant.v ===== *)
(** * StoreInvariant: what the control plane's database always satisfies

    The writing operations of [ServerStore] as one type [store_op] with its
    interpreter [exec_op], and the well-formedness [server_wf] every sequence
    of them keeps, whether they succeed or fail: connections belong to an
    account and a node that exist, live names are unique per account and node,
    every Hysteria connection and every connection of a native AmneziaWG node
    has its key material, and no two connections of a node share an address
    or a public key. *)

From S2P Require Import Prelude GoLib Sql ServerModel ServerStore.
Import GoTime GoStrings.

(** ** Versions

    Every change of a desired state moves its version strictly up, and at
    least to the time of the change: the synchronisation relies on both. *)
Lemma mapR_Ok {A B} (f : A → result B) l l' :
  mapR f l = Ok l' ↔ Forall2 (fun x y => f x = Ok y) l l'.
Proof.
  revert l'; induction l as [|x l IH]; intros l'; simpl.
  - split; [intros [= <-]; constructor|intros H; by inversion H].
  - split.
    + intros (y & Hy & (ys & Hys & [= <-])%bind_Ok)%bind_Ok. constructor; [done|]. by apply IH.
    + intros H. inversion H as [|? y ? ys Hy Hys]; subst. rewrite Hy. simpl.
      apply IH in Hys as ->. done.
Qed.

Lemma mapR_total {A B} (f : A → result B) l :
  (∀ x, x ∈ l → is_ok (f x) = true) → ∃ l', mapR f l = Ok l'.
Proof.
  induction l as [|x l IH]; intros Hok; simpl; [eauto|].
  destruct (f x) as [y|] eqn:E; simpl.
  - destruct IH as [l' ->]; [|simpl; eauto]. intros z Hz. apply Hok. by right.
  - specialize (Hok x (list_elem_of_here _ _)). by rewrite E in Hok.
Qed.

Lemma bump_version_gt v old : (old < bump_version v old)%Z.
Proof. unfold bump_version. destruct (Z.leb_spec v old); lia. Qed.
Lemma bump_version_ge v old : (v ≤ bump_version v old)%Z.
Proof. unfold bump_version. destruct (Z.leb_spec v old); lia. Qed.

(** ** Well-formed stores *)
Definition identity_of (c : Connection) : string * string * string * string * string :=
  (cn_ID c, cn_AccountID c, cn_NodeID c, cn_Name c, cn_Protocol c).

(** No two rows of a node share an address or a public key. *)
Definition materials_unique (t : gmap string AmneziaWGConnectionMaterial) : Prop :=
  ∀ k1 k2 m1 m2, t !! k1 = Some m1 → t !! k2 = Some m2 →
    material_conflict m1 m2 = true → k1 = k2.

Record server_wf (s : Server) : Prop := {
  wf_id : ∀ id c, connections s !! id = Some c → cn_ID c = id;
  wf_account : ∀ id c, connections s !! id = Some c → is_Some (accounts s !! cn_AccountID c);
  wf_node : ∀ id c, connections s !! id = Some c → is_Some (nodes s !! cn_NodeID c);
  wf_name : ∀ id1 id2 c1 c2, connections s !! id1 = Some c1 → connections s !! id2 = Some c2 →
    live c1 = true → live c2 = true → same_name c1 c2 = true → id1 = id2;
  wf_hysteria2 : ∀ id c, connections s !! id = Some c → cn_Protocol c = ProtocolHysteria2 →
    is_Some (hysteria2_materials s !! id);
  wf_amneziawg : ∀ id c n, connections s !! id = Some c → nodes s !! cn_NodeID c = Some n →
    nd_Type n = NodeTypeNativeAmneziaWG → is_Some (amneziawg_materials s !! id);
  wf_materials : materials_unique (amneziawg_materials s);
}.

Lemma server_wf_empty : server_wf empty_server.
Proof. by constructor; intros; simpl in *; simplify_map_eq. Qed.

(** Tables that only grow, and connections that keep their identity and are
    not revived, preserve well-formedness: this covers every operation but the
    two that add or revive a connection. *)
Record extends (s s' : Server) : Prop := {
  ex_accounts : ∀ id, is_Some (accounts s !! id) → is_Some (accounts s' !! id);
  ex_nodes : ∀ id n, nodes s !! id = Some n → ∃ n', nodes s' !! id = Some n' ∧ nd_Type n' = nd_Type n;
  ex_hysteria2 : hysteria2_materials s' = hysteria2_materials s;
  ex_amneziawg : amneziawg_materials s' = amneziawg_materials s;
}.

Definition narrows (t t' : gmap string Connection) : Prop :=
  ∀ id c', t' !! id = Some c' → ∃ c, t !! id = Some c ∧ identity_of c' = identity_of c ∧
    (live c' = true → live c = true).

Lemma narrows_refl t : narrows t t.
Proof. intros id c Hc. eauto. Qed.
Lemma narrows_trans t1 t2 t3 : narrows t1 t2 → narrows t2 t3 → narrows t1 t3.
Proof.
  intros H12 H23 id c3 (c2 & Hc2 & He & Hl)%H23. apply H12 in Hc2 as (c1 & Hc1 & He' & Hl').
  exists c1. split_and!; [done|congruence|auto].
Qed.

Lemma extends_refl s : extends s s.
Proof. split; eauto. Qed.
Lemma extends_trans s1 s2 s3 : extends s1 s2 → extends s2 s3 → extends s1 s3.
Proof.
  intros [A1 N1 H1 W1] [A2 N2 H2 W2]. split; [auto| |congruence|congruence].
  intros id n (n' & Hn' & Ht)%N1. apply N2 in Hn' as (n'' & Hn'' & Ht'). exists n''. split; congruence.
Qed.

Lemma same_name_identity c1 c2 c1' c2' :
  identity_of c1' = identity_of c1 → identity_of c2' = identity_of c2 →
  same_name c1' c2' = same_name c1 c2.
Proof. unfold identity_of, same_name. intros [= _ -> -> -> _] [= _ -> -> -> _]. done. Qed.

Lemma wf_narrow s s' :
  extends s s' → narrows (connections s) (connections s') → server_wf s → server_wf s'.
Proof.
  intros [EA EN EH EW] Hn [Wid Wacc Wnode Wname Why2 Wawg Wmat].
  assert (Hc : ∀ id c', connections s' !! id = Some c' → ∃ c, connections s !! id = Some c ∧
    cn_ID c' = cn_ID c ∧ cn_AccountID c' = cn_AccountID c ∧ cn_NodeID c' = cn_NodeID c ∧
    cn_Protocol c' = cn_Protocol c).
  { intros id c' (c & Hc & He & _)%Hn. exists c. injection He as ?????. done. }
  constructor.
  - intros id c' (c & Hc1 & -> & _)%Hc. eauto.
  - intros id c' (c & Hc1 & _ & -> & _)%Hc. eauto.
  - intros id c' (c & Hc1 & _ & _ & -> & _)%Hc.
    destruct (Wnode _ _ Hc1) as [n Hnode]. apply EN in Hnode as (n' & -> & _). eauto.
  - intros id1 id2 c1' c2' (c1 & H1 & E1 & L1)%Hn (c2 & H2 & E2 & L2)%Hn Hl1 Hl2.
    rewrite (same_name_identity _ _ _ _ E1 E2). eauto.
  - intros id c' (c & Hc1 & _ & _ & _ & ->)%Hc. rewrite EH. eauto.
  - intros id c' n' (c & Hc1 & _ & _ & -> & _)%Hc Hn' Ht. rewrite EW.
    destruct (Wnode _ _ Hc1) as [n Hnode]. pose proof (EN _ _ Hnode) as (n1 & Hn1 & Ht1).
    eapply Wawg; [done|done|]. congruence.
  - by rewrite EW.
Qed.

Lemma narrows_sql_update P f t :
  (∀ c, identity_of (f c) = identity_of c ∧ (live (f c) = true → live c = true)) →
  narrows t (sql_update P f t).
Proof.
  intros Hf id c'. rewrite lookup_sql_update. intros (c & Hc & ->)%fmap_Some.
  exists c. destruct (Hf c), (P c); done.
Qed.

Lemma narrows_alter f k t :
  (∀ c, identity_of (f c) = identity_of c ∧ (live (f c) = true → live c = true)) →
  narrows t (alter f k t).
Proof.
  intros Hf id c' Hc'. destruct (decide (k = id)) as [->|Hne].
  - rewrite lookup_alter_eq in Hc'. apply fmap_Some in Hc' as (c & Hc & ->).
    exists c. destruct (Hf c); done.
  - rewrite lookup_alter_ne in Hc' by done. eauto.
Qed.

Lemma alter_same_type f id (t : gmap string Node) :
  (∀ n, nd_Type (f n) = nd_Type n) →
  ∀ k n, t !! k = Some n → ∃ n', alter f id t !! k = Some n' ∧ nd_Type n' = nd_Type n.
Proof.
  intros Hf k n Hk. destruct (decide (id = k)) as [->|Hne].
  - rewrite lookup_alter_eq, Hk. simpl. eauto.
  - rewrite lookup_alter_ne, Hk by done. eauto.
Qed.

Lemma alter_is_Some {A} f id (t : gmap string A) k : is_Some (t !! k) → is_Some (alter f id t !! k).
Proof.
  destruct (decide (id = k)) as [->|Hne]; intros [x Hx].
  - rewrite lookup_alter_eq, Hx. eauto.
  - rewrite lookup_alter_ne, Hx by done. eauto.
Qed.

Lemma name_taken_false c t :
  name_taken c t = false → live c = true →
  ∀ id r, t !! id = Some r → live r = true → same_name c r = true → cn_ID r = cn_ID c.
Proof.
  unfold name_taken. intros Hf Hlc id r Hr Hl Hs. rewrite Hlc in Hf. simpl in Hf.
  rewrite sql_exists_false in Hf. specialize (Hf _ _ Hr). rewrite Hl, Hs in Hf. simpl in Hf.
  by apply negb_false_iff, bool_decide_eq_true in Hf.
Qed.

Lemma same_name_sym c r : same_name c r = same_name r c.
Proof.
  unfold same_name.
  f_equal; [f_equal|]; apply bool_decide_ext; split; congruence.
Qed.

(** Replacing or adding one connection whose name is free. *)
Lemma wf_names_insert t id c :
  (∀ i r, t !! i = Some r → cn_ID r = i) → cn_ID c = id → name_taken c t = false →
  (∀ i j c1 c2, t !! i = Some c1 → t !! j = Some c2 → live c1 = true → live c2 = true →
    same_name c1 c2 = true → i = j) →
  ∀ i j c1 c2, <[id := c]> t !! i = Some c1 → <[id := c]> t !! j = Some c2 →
    live c1 = true → live c2 = true → same_name c1 c2 = true → i = j.
Proof.
  intros Hid Hc Hfree Hnames i j c1 c2 H1 H2 L1 L2 Hs.
  assert (Hnew : ∀ k r, t !! k = Some r → live c = true → live r = true →
    same_name c r = true → k = id).
  { intros k r Hr Lc Lr Hcr. rewrite <-(Hid _ _ Hr), <-Hc. by eapply name_taken_false. }
  rewrite lookup_insert in H1, H2. repeat case_decide; simplify_eq; [done| | |by eauto].
  - eapply Hnew; [done..|]. by rewrite same_name_sym.
  - symmetry. by eapply Hnew.
Qed.

(** *** The operations that write *)
Inductive store_op :=
| OpCreateAccount (now : time) (newID : string) (u : Account)
| OpUpdateAccountStatus (now : time) (id status : string)
| OpCreateNode (now : time) (newID : string) (v : Node)
| OpSoftDeleteNode (now : time) (id : string)
| OpCreateNodeInstance (now : time) (newID : string) (v : NodeInstance)
| OpCreateAgentInstallation (now : time) (newID : string) (v : AgentInstallation)
| OpCreateNodeWithInstance (now : time) (id1 id2 id3 : string) (n : Node) (i : NodeInstance)
    (a : AgentInstallation)
| OpCreateConnectionBundle (now : time) (newID : nat → string) (b : ConnectionBundle)
| OpUpdateConnectionDesiredStatus (now : time) (id status : string)
| OpFinalizeConnections (now : time) (nodeID accountID : string) (version : Z)
| OpCreateHysteria2NodeConfig (now : time) (v : Hysteria2NodeConfig)
| OpCreateAmneziaAPINode (now : time) (newID : string) (n : Node) (c : AmneziaAPINodeConfig)
| OpCreateAmneziaWGNodeConfig (now : time) (v : AmneziaWGNodeConfig)
| OpCreateNativeAmneziaWGNode (now : time) (newID : string) (n : Node) (c : AmneziaWGNodeConfig)
| OpUpdateAmneziaWGNodeConfig (v : AmneziaWGNodeConfig) (expected : Z) (configs : list IssuedConfig)
| OpSetAmneziaWGConfigResult (nodeID : string) (version : Z) (errorID : string)
| OpUpdateHysteria2NodeConfig (c : Hysteria2NodeConfig) (expected : Z) (configs : list IssuedConfig)
| OpSetHysteria2ConfigResult (id : string) (version : Z) (errorID : string).

(** The database after the operation, whether it succeeded or not. *)
Definition exec_op (op : store_op) (s : Server) : Server :=
  match op with
  | OpCreateAccount now id u => (CreateAccount now id u s).1
  | OpUpdateAccountStatus now id status => (UpdateAccountStatus now id status s).1
  | OpCreateNode now id v => (CreateNode now id v s).1
  | OpSoftDeleteNode now id => (SoftDeleteNode now id s).1
  | OpCreateNodeInstance now id v => (CreateNodeInstance now id v s).1
  | OpCreateAgentInstallation now id v => (CreateAgentInstallation now id v s).1
  | OpCreateNodeWithInstance now id1 id2 id3 n i a =>
      (CreateNodeWithInstanceAndAgentInstallation now id1 id2 id3 n i a s).1
  | OpCreateConnectionBundle now ids b => (CreateConnectionBundle now ids b s).1
  | OpUpdateConnectionDesiredStatus now id status => (UpdateConnectionDesiredStatus now id status s).1
  | OpFinalizeConnections now n a v => (FinalizeConnectionsForAuthSnapshot now n a v s).1
  | OpCreateHysteria2NodeConfig now v => (CreateHysteria2NodeConfig now v s).1
  | OpCreateAmneziaAPINode now id n c => (CreateAmneziaAPINode now id n c s).1
  | OpCreateAmneziaWGNodeConfig now v => (CreateAmneziaWGNodeConfig now v s).1
  | OpCreateNativeAmneziaWGNode now id n c => (CreateNativeAmneziaWGNode now id n c s).1
  | OpUpdateAmneziaWGNodeConfig v e cs => (UpdateAmneziaWGNodeConfig v e cs s).1
  | OpSetAmneziaWGConfigResult n v e => (SetAmneziaWGConfigResult n v e s).1
  | OpUpdateHysteria2NodeConfig c e cs => (UpdateHysteria2NodeConfig c e cs s).1
  | OpSetHysteria2ConfigResult i v e => (SetHysteria2ConfigResult i v e s).1
  end.

Lemma insert_node_Ok v s s' :
  insert_node v s = Ok s' → nodes s !! nd_ID v = None ∧ s' = set_nodes (<[nd_ID v := v]> (nodes s)) s.
Proof.
  unfold insert_node. destruct (sql_exists _ _); [done|].
  intros (t & [Hn ->]%sql_insert_Ok & [= <-])%bind_Ok. done.
Qed.

Lemma insert_node_extends v s s' :
  insert_node v s = Ok s' → extends s s' ∧ connections s' = connections s.
Proof.
  intros [Hn ->]%insert_node_Ok. split; [|done]. split; simpl; [done| |done|done].
  intros id n Hid. exists n. split; [|done]. rewrite lookup_insert_ne; [done|]. congruence.
Qed.

Definition unchanged_or_narrower (s s' : Server) : Prop :=
  extends s s' ∧ narrows (connections s) (connections s').

Lemma narrower_refl s : unchanged_or_narrower s s.
Proof. split; [apply extends_refl|apply narrows_refl]. Qed.

Lemma narrower_trans s1 s2 s3 :
  unchanged_or_narrower s1 s2 → unchanged_or_narrower s2 s3 → unchanged_or_narrower s1 s3.
Proof. intros [] []. split; [by eapply extends_trans|by eapply narrows_trans]. Qed.

Lemma insert_node_narrower v s s' : insert_node v s = Ok s' → unchanged_or_narrower s s'.
Proof. intros [He Hc]%insert_node_extends. split; [done|]. rewrite Hc. apply narrows_refl. Qed.

(** Writes to the tables well-formedness does not look at. *)
Lemma narrower_other s s' :
  accounts s' = accounts s → nodes s' = nodes s → connections s' = connections s →
  hysteria2_materials s' = hysteria2_materials s → amneziawg_materials s' = amneziawg_materials s →
  unchanged_or_narrower s s'.
Proof.
  intros Ha Hn Hc Hh Hw. split; [split|]; rewrite ?Ha, ?Hn, ?Hc; eauto. apply narrows_refl.
Qed.

Lemma insert_instance_narrower v s s' : insert_instance v s = Ok s' → unchanged_or_narrower s s'.
Proof. intros (t & _ & [= <-])%bind_Ok. by apply narrower_other. Qed.

Lemma insert_installation_narrower v s s' :
  insert_installation v s = Ok s' → unchanged_or_narrower s s'.
Proof.
  unfold insert_installation. case_match; [done|].
  intros (t & _ & [= <-])%bind_Ok. by apply narrower_other.
Qed.

Lemma insert_amneziawg_config_narrower v s s' :
  insert_amneziawg_config v s = Ok s' → unchanged_or_narrower s s'.
Proof.
  unfold insert_amneziawg_config. case_match; [|done].
  intros (t & _ & [= <-])%bind_Ok. by apply narrower_other.
Qed.

Lemma delete_node_rows_narrower now id s : unchanged_or_narrower s (delete_node_rows now id s).
Proof.
  unfold delete_node_rows. split; [split|]; simpl; eauto.
  - apply alter_same_type. done.
  - apply narrows_sql_update. intros c. done.
Qed.

Lemma finalize_one_narrower now version v s :
  unchanged_or_narrower s (finalize_one now version v s).
Proof.
  unfold finalize_one. split; [split|]; case_bool_decide; simpl; eauto;
    apply narrows_alter; intros c; case_match; done.
Qed.

Lemma finalize_apply_narrower now version candidates s :
  unchanged_or_narrower s (finalize_apply now version candidates s).
Proof.
  unfold finalize_apply. revert s; induction candidates as [|v l IH]; intros s; simpl;
    [apply narrower_refl|].
  eapply narrower_trans; [apply finalize_one_narrower|apply IH].
Qed.

Lemma UpdateAmneziaWGNodeConfig_narrower v expected configs s :
  unchanged_or_narrower s (UpdateAmneziaWGNodeConfig v expected configs s).1.
Proof.
  apply (transaction_inv (unchanged_or_narrower s)); [|apply narrower_refl]. intros s' [].
  destruct (amneziawg_node_configs s !! awg_NodeID v); [|done].
  cbv zeta. repeat (case_match; [done|]). intros [= <-]. split; [by split; simpl; eauto|].
  simpl. apply narrows_sql_update. intros c. done.
Qed.

Definition adds_or_revives (op : store_op) : bool :=
  match op with
  | OpCreateConnectionBundle _ _ _ | OpUpdateConnectionDesiredStatus _ _ _ => true
  | _ => false
  end.

Ltac simple_transaction :=
  match goal with |- unchanged_or_narrower ?s _ =>
    apply (transaction_inv (unchanged_or_narrower s)); [|apply narrower_refl]; intros s' a'
  end.

Lemma exec_op_narrower op s :
  adds_or_revives op = false → unchanged_or_narrower s (exec_op op s).
Proof.
  intros Hop. destruct op; try discriminate Hop; cbn [exec_op]; clear Hop.
  - simple_transaction. intros (t & [Hn ->]%sql_insert_Ok & [= <- _])%bind_Ok.
    split; [split|apply narrows_refl]; simpl; eauto.
    intros i [u' Hi]. rewrite lookup_insert_is_Some. destruct (decide (newID = i)); eauto.
  - unfold UpdateAccountStatus. case_match; [apply narrower_refl|].
    split; [split|apply narrows_refl]; simpl; eauto. intros i. apply alter_is_Some.
  - simple_transaction. intros (s1 & Hs1 & [= <- _])%bind_Ok. by eapply insert_node_narrower.
  - apply delete_node_rows_narrower.
  - simple_transaction. intros (n & _ & (s1 & Hs1 & [= <- _])%bind_Ok)%bind_Ok.
    by eapply insert_instance_narrower.
  - simple_transaction.
    intros (n & _ & (u & _ & (s1 & Hs1 & [= <- _])%bind_Ok)%bind_Ok)%bind_Ok.
    by eapply insert_installation_narrower.
  - simple_transaction.
    intros (u & _ & (s1 & H1 & (s2 & H2 & (s3 & H3 & [= <- _])%bind_Ok)%bind_Ok)%bind_Ok)%bind_Ok.
    eapply narrower_trans; [by eapply insert_node_narrower|].
    eapply narrower_trans; [by eapply insert_instance_narrower|].
    by eapply insert_installation_narrower.
  - apply finalize_apply_narrower.
  - simple_transaction. cbv zeta. destruct (in_port _); [|done]. intros (t & _ & [= <- _])%bind_Ok.
    by apply narrower_other.
  - simple_transaction. intros (s1 & H1 & (t & _ & [= <- _])%bind_Ok)%bind_Ok.
    eapply narrower_trans; [by eapply insert_node_narrower|]. by apply narrower_other.
  - simple_transaction. intros (s1 & H1 & [= <- _])%bind_Ok.
    by eapply insert_amneziawg_config_narrower.
  - simple_transaction. intros (s1 & H1 & (s2 & H2 & [= <- _])%bind_Ok)%bind_Ok.
    eapply narrower_trans; [by eapply insert_node_narrower|].
    by eapply insert_amneziawg_config_narrower.
  - apply UpdateAmneziaWGNodeConfig_narrower.
  - by apply narrower_other.
  - simple_transaction. destruct (hysteria2_node_configs s !! _); [|done].
    cbv zeta. repeat (case_match; [done|]). intros [= <- _]. by apply narrower_other.
  - by apply narrower_other.
Qed.

(** *** The two operations that add or revive a connection *)
Definition desired_status_ok (status : string) : Prop :=
  status = ConnectionStatusActive ∨ status = ConnectionStatusHeld ∨ status = ConnectionStatusDeleted.

Lemma UpdateConnectionDesiredStatus_cases now id status s :
  (∃ c, let c' := set_desired_status status (TimeUnixMilli now) now c in
    connections s !! id = Some c ∧ desired_status_ok status ∧
    name_taken c' (connections s) = false ∧
    UpdateConnectionDesiredStatus now id status s =
      (set_connections (<[id := c']> (connections s)) s, Ok c')) ∨
  ∃ e, UpdateConnectionDesiredStatus now id status s = (s, Err e).
Proof.
  unfold UpdateConnectionDesiredStatus, desired_status_ok.
  case_match eqn:E; [right; by eexists|].
  assert (Hst : desired_status_ok status).
  { unfold desired_status_ok. rewrite !andb_false_iff, !negb_false_iff, !bool_decide_eq_true in E.
    tauto. }
  unfold transaction. destruct (connections s !! id) as [c|] eqn:Hc; [|right; by eexists].
  destruct (name_taken _ _) eqn:Hn; [right; by eexists|].
  left. exists c. split_and!; done.
Qed.

(** The rows a successful bundle adds. *)
Record bundle_added (now : time) (v : Connection) (bundle : ConnectionBundle) (s s' : Server) : Prop := {
  ba_accounts : accounts s' = accounts s;
  ba_nodes : nodes s' = nodes s;
  ba_fresh : connections s !! cn_ID v = None;
  ba_free : name_taken v (connections s) = false;
  ba_connections : connections s' = <[cn_ID v := v]> (connections s);
  ba_hysteria2 : hysteria2_materials s' =
    match cb_Hysteria2Material bundle with
    | Some m => <[cn_ID v := stamp_hysteria2 now v m]> (hysteria2_materials s)
    | None => hysteria2_materials s
    end;
  ba_amneziawg : amneziawg_materials s' =
    match cb_AmneziaWGMaterial bundle with
    | Some m => <[cn_ID v := stamp_amneziawg now v m]> (amneziawg_materials s)
    | None => amneziawg_materials s
    end;
  ba_no_conflict : ∀ m, cb_AmneziaWGMaterial bundle = Some m →
    sql_exists (material_conflict (stamp_amneziawg now v m)) (amneziawg_materials s) = false;
}.

Lemma insert_config_tables s c s' :
  insert_config s c = Ok s' →
  accounts s' = accounts s ∧ nodes s' = nodes s ∧ connections s' = connections s ∧
  hysteria2_materials s' = hysteria2_materials s ∧ amneziawg_materials s' = amneziawg_materials s.
Proof. intros (t & _ & [= <-])%bind_Ok. done. Qed.

Lemma insert_configs_tables l s s' :
  foldlR insert_config l s = Ok s' →
  accounts s' = accounts s ∧ nodes s' = nodes s ∧ connections s' = connections s ∧
  hysteria2_materials s' = hysteria2_materials s ∧ amneziawg_materials s' = amneziawg_materials s.
Proof.
  apply (foldlR_inv (fun s' => accounts s' = accounts s ∧ nodes s' = nodes s ∧
    connections s' = connections s ∧ hysteria2_materials s' = hysteria2_materials s ∧
    amneziawg_materials s' = amneziawg_materials s)); [|done].
  intros s1 c s2 _ (<-&<-&<-&<-&<-). apply insert_config_tables.
Qed.

Lemma insert_connection_Ok v s s' :
  insert_connection v s = Ok s' →
  name_taken v (connections s) = false ∧ connections s !! cn_ID v = None ∧
  s' = set_connections (<[cn_ID v := v]> (connections s)) s.
Proof.
  unfold insert_connection. destruct (name_taken _ _); [done|].
  intros (t & [Hn ->]%sql_insert_Ok & [= <-])%bind_Ok. done.
Qed.

Lemma insert_hysteria2_material_Ok o s s' :
  insert_hysteria2_material o s = Ok s' →
  s' = set_hysteria2_materials match o with
    | Some m => <[hm_ConnectionID m := m]> (hysteria2_materials s)
    | None => hysteria2_materials s end s.
Proof.
  destruct o as [m|]; simpl; [|by intros [= <-]; destruct s].
  intros (t & [_ ->]%sql_insert_Ok & [= <-])%bind_Ok. done.
Qed.

Lemma insert_amneziawg_material_Ok o s s' :
  insert_amneziawg_material o s = Ok s' →
  (∀ m, o = Some m → sql_exists (material_conflict m) (amneziawg_materials s) = false) ∧
  s' = set_amneziawg_materials match o with
    | Some m => <[am_ConnectionID m := m]> (amneziawg_materials s)
    | None => amneziawg_materials s end s.
Proof.
  destruct o as [m|]; simpl; [|by intros [= <-]; destruct s].
  destruct (sql_exists _ _) eqn:E; [done|].
  intros (t & [_ ->]%sql_insert_Ok & [= <-])%bind_Ok. split; [|done]. by intros ? [= <-].
Qed.

Lemma insert_ref_Ok o s s' :
  insert_ref o s = Ok s' → ∃ t, s' = set_amnezia_api_refs t s.
Proof.
  destruct o as [r|]; simpl; [|intros [= <-]; by exists (amnezia_api_refs s); destruct s].
  intros (t & _ & [= <-])%bind_Ok. eauto.
Qed.

Lemma get_row_Ok {A} (t : gmap string A) id r : get_row t id = Ok r ↔ t !! id = Some r.
Proof. unfold get_row. destruct (t !! id); naive_solver. Qed.

Lemma CreateConnectionBundle_Ok now newID bundle s s' b' :
  CreateConnectionBundle now newID bundle s = (s', Ok b') →
  let v := defaultConnection now (newID 0) (cb_Connection bundle) in
  cb_Connection b' = v ∧ bundle_added now v bundle s s' ∧
  is_Some (accounts s !! cn_AccountID v) ∧
  ∃ node, nodes s !! cn_NodeID v = Some node ∧ validateConnectionBundle node bundle = Ok tt.
Proof.
  unfold CreateConnectionBundle. cbv zeta. intros E%transaction_Ok.
  apply bind_Ok in E as (a & Ha & E). apply bind_Ok in E as (node & Hn & E).
  apply bind_Ok in E as ([] & Hval & E). destruct (blank _); [done|].
  apply bind_Ok in E as (? & _ & E). apply bind_Ok in E as (s2 & H2 & E).
  apply bind_Ok in E as (s3 & H3 & E). apply bind_Ok in E as (s4 & H4 & E).
  apply bind_Ok in E as (s5 & H5 & E). apply bind_Ok in E as (s6 & H6 & E).
  injection E as <- <-. cbn [cb_Connection].
  split; [done|].
  apply insert_configs_tables in H6 as (HA & HN & HC & HH & HW).
  split; [|split; [|exists node; split; [|done]]].
  - apply insert_connection_Ok in H2 as (Hfree & Hfresh & ->).
    apply insert_hysteria2_material_Ok in H3 as ->.
    apply insert_amneziawg_material_Ok in H4 as (Hconf & ->).
    apply insert_ref_Ok in H5 as (t & ->). simpl in *.
    constructor; [done..| | |].
    + rewrite HH. by destruct (cb_Hysteria2Material bundle).
    + rewrite HW. by destruct (cb_AmneziaWGMaterial bundle).
    + intros m Hm. apply Hconf. by rewrite Hm.
  - exists a. by apply get_row_Ok.
  - by apply get_row_Ok.
Qed.

Lemma material_conflict_sym m r : material_conflict m r = material_conflict r m.
Proof.
  unfold material_conflict.
  f_equal; [|f_equal]; apply bool_decide_ext; split; congruence.
Qed.

Lemma materials_unique_insert t k m :
  sql_exists (material_conflict m) t = false → materials_unique t →
  materials_unique (<[k := m]> t).
Proof.
  intros Hf Ht k1 k2 m1 m2 H1 H2 Hc. rewrite sql_exists_false in Hf.
  rewrite lookup_insert in H1, H2. repeat case_decide; simplify_eq; [done| | |by eauto].
  - rewrite material_conflict_sym, (Hf _ _ H1) in Hc. done.
  - rewrite (Hf _ _ H2) in Hc. done.
Qed.

(** What a bundle that passes validation brings along. *)
Lemma validateConnectionBundle_material node bundle :
  validateConnectionBundle node bundle = Ok tt →
  (cn_Protocol (cb_Connection bundle) = ProtocolHysteria2 → is_Some (cb_Hysteria2Material bundle)) ∧
  (nd_Type node = NodeTypeNativeAmneziaWG → is_Some (cb_AmneziaWGMaterial bundle)).
Proof.
  unfold validateConnectionBundle. cbv zeta. intros ([] & _ & E)%bind_Ok.
  destruct (bool_decide_reflect (nd_Type node = NodeTypeNativeHy2)) as [H1|H1].
  { rewrite H1. destruct (bool_decide (cn_Protocol (cb_Connection bundle) = ProtocolHysteria2));
      [|done]. destruct (cb_Hysteria2Material bundle); [|done]. by split. }
  destruct (bool_decide_reflect (nd_Type node = NodeTypeNativeAmneziaWG)) as [H2|H2].
  { destruct (bool_decide_reflect (cn_Protocol (cb_Connection bundle) = ProtocolAmneziaWG)) as [->|];
      [|done]. destruct (cb_AmneziaWGMaterial bundle); [|done]. by split. }
  split; [|done].
  destruct (bool_decide_reflect (nd_Type node = NodeTypeAmneziaAPI)) as [H3|H3]; [|done].
  destruct (bool_decide_reflect (cn_Protocol (cb_Connection bundle) = ProtocolAmneziaWG)) as [->|];
    done.
Qed.

Lemma wf_bundle now v bundle s s' node :
  bundle_added now v bundle s s' → is_Some (accounts s !! cn_AccountID v) →
  nodes s !! cn_NodeID v = Some node → validateConnectionBundle node bundle = Ok tt →
  cn_Protocol v = cn_Protocol (cb_Connection bundle) → server_wf s → server_wf s'.
Proof.
  intros [HA HN Hfresh Hfree HC HH HW Hconf] Hacc Hnode Hval Hproto [Wid Wacc Wnode Wname Why2 Wawg Wmat].
  apply validateConnectionBundle_material in Hval as [Hhy2 Hawg].
  constructor; rewrite ?HA, ?HN, ?HC.
  - intros id c Hc. rewrite lookup_insert in Hc. case_decide; simplify_eq; eauto.
  - intros id c Hc. rewrite lookup_insert in Hc. case_decide; simplify_eq; eauto.
  - intros id c Hc. rewrite lookup_insert in Hc. case_decide; simplify_eq; eauto.
  - by apply wf_names_insert.
  - intros id c Hc Hp. rewrite HH. rewrite lookup_insert in Hc. case_decide; simplify_eq.
    + rewrite Hproto in Hp. destruct (Hhy2 Hp) as [m ->]. rewrite lookup_insert_eq. eauto.
    + destruct (cb_Hysteria2Material bundle); [rewrite lookup_insert_ne by done|]; eauto.
  - intros id c n Hc Hn Ht. rewrite HW. rewrite lookup_insert in Hc. case_decide; simplify_eq.
    + destruct (Hawg Ht) as [m ->]. rewrite lookup_insert_eq. eauto.
    + destruct (cb_AmneziaWGMaterial bundle); [rewrite lookup_insert_ne by done|]; eauto.
  - rewrite HW. destruct (cb_AmneziaWGMaterial bundle) as [m|]; [|done].
    apply materials_unique_insert; auto.
Qed.

Lemma wf_revive id c c' s :
  connections s !! id = Some c → identity_of c' = identity_of c →
  name_taken c' (connections s) = false → server_wf s →
  server_wf (set_connections (<[id := c']> (connections s)) s).
Proof.
  intros Hc He Hfree [Wid Wacc Wnode Wname Why2 Wawg Wmat].
  injection He as Hi Ha Hn Hnm Hp. constructor; simpl; [..|done].
  - intros i x Hx. rewrite lookup_insert in Hx. case_decide; simplify_eq; eauto. rewrite Hi. eauto.
  - intros i x Hx. rewrite lookup_insert in Hx. case_decide; simplify_eq; rewrite ?Ha; eauto.
  - intros i x Hx. rewrite lookup_insert in Hx. case_decide; simplify_eq; rewrite ?Hn; eauto.
  - apply wf_names_insert; [done| |done|done]. rewrite Hi. eauto.
  - intros i x Hx. rewrite lookup_insert in Hx. case_decide; simplify_eq; rewrite ?Hp; eauto.
  - intros i x n Hx. rewrite lookup_insert in Hx. case_decide; simplify_eq; rewrite ?Hn; eauto.
Qed.

Lemma exec_op_wf op s : server_wf s → server_wf (exec_op op s).
Proof.
  intros Hs. destruct (adds_or_revives op) eqn:E.
  2: { destruct (exec_op_narrower op s E). by eapply wf_narrow. }
  destruct op; try discriminate E; cbn [exec_op].
  - destruct (CreateConnectionBundle now newID b s) as [s' [b'|e]] eqn:Eb; simpl.
    + apply CreateConnectionBundle_Ok in Eb as (_ & Hadd & Hacc & node & Hnode & Hval).
      by eapply wf_bundle.
    + unfold CreateConnectionBundle in Eb. by apply transaction_Err in Eb as [-> _].
  - destruct (UpdateConnectionDesiredStatus_cases now id status s)
      as [(c & Hc & _ & Hfree & ->)|[e ->]]; simpl; [|done].
    by eapply wf_revive.
Qed.

Definition exec_ops (ops : list store_op) (s : Server) : Server :=
  foldl (fun s op => exec_op op s) s ops.

Lemma exec_ops_wf ops s : server_wf s → server_wf (exec_ops ops s).
Proof.
  unfold exec_ops. revert s; induction ops as [|op ops IH]; intros s Hs; simpl; [done|].
  apply IH. by apply exec_op_wf.
Qed.

(** C9. Whatever sequence of writes reaches the control plane's database,
    successful or failing, it stays well formed: every connection has its
    account, node and key material, live connection names are unique, and no
    two connections of a node share an address or a public key. *)
Theorem store_always_wf ops : server_wf (exec_ops ops empty_server).
Proof. apply exec_ops_wf, server_wf_empty. Qed.
