(* ===== verification/Samples.v ===== *)
(** * Samples: a small control-plane database

    The concrete state the witnesses of several files start from: one account,
    one native Hysteria node and two of its connections, built by running the
    operations of [ServerStore] on an empty database. *)

From S2P Require Import Prelude GoLib Sql ServerModel ServerStore StoreInvariant.
Import GoTime.

Definition demo_account : Account := mkAccount "" "ann" "" "" 0%Z 0%Z.
Definition demo_node : Node := mkNode "" "fra-1" NodeTypeNativeHy2 "DE" "" 0%Z 0%Z.
Definition demo_bundle (id name : string) : ConnectionBundle :=
  mkConnectionBundle 0%Z
    (mkConnection id "acc" "nod" name ProtocolHysteria2 "" "" 0%Z 0%Z "" 0%Z 0%Z)
    (Some (mkHysteria2Material "" "pw" ("hash-" +:+ name) 0%Z 0%Z)) None None
    [mkIssuedConfig "" "" ConfigHy2URI "" name "" "" "hy2://" "" 0%Z 0%Z].

Definition at_ms (ms : Z) : time := TimeFromUnixMilli ms.
Definition demo_ops : list store_op :=
  [OpCreateAccount (at_ms 1000) "acc" demo_account;
   OpCreateNode (at_ms 1001) "nod" demo_node;
   OpCreateConnectionBundle (at_ms 1002) (fun i => "x" +:+ Strconv.FormatInt (Z.of_nat i)) (demo_bundle "con-a" "phone");
   OpCreateConnectionBundle (at_ms 1003) (fun i => "y" +:+ Strconv.FormatInt (Z.of_nat i)) (demo_bundle "con-b" "laptop")].
Definition demo_hold : store_op := OpUpdateConnectionDesiredStatus (at_ms 2500) "con-a" ConnectionStatusHeld.

Definition demo_s0 : Server := exec_ops demo_ops empty_server.

Lemma demo_s0_wf : server_wf demo_s0.
Proof. apply exec_ops_wf, server_wf_empty. Qed.
