(* ===== verification/Tables.v ===== *)
(** * Tables: rows found, inserted and updated under unique indexes

    The statements of [src/internal/server/storage/sqlite.go] that read one row
    by a condition or write a row a unique index guards, on the tables of
    [Sql], and the lemmas on them that the identity database and the portal's
    tables share. *)

From S2P Require Import Prelude GoLib Sql ServerModel ServerStore.

(** [select .. where .. limit 1] on a condition a unique index makes decisive;
    without one the row SQLite happens to return first. *)
Definition find_row {A} (P : A → bool) (t : gmap string A) : result A := first_row (sql_select P t).

(** An insert that is refused when [clash] holds of a row that is there. *)
Definition insert_unique {A} (key : string) (new : A) (clash : A → bool) (t : gmap string A) : result (gmap string A) :=
  if sql_exists clash t then Err ErrUniqueIndex else sql_insert ErrUniqueIndex key new t.

(** An update of the row [key] that is refused when the new row clashes with
    another one. *)
Definition update_unique {A} (key : string) (f : A → A) (clash : A → A → bool) (t : gmap string A)
    : result (gmap string A) :=
  match t !! key with
  | None => Ok t
  | Some r => if sql_exists (clash (f r)) (delete key t) then Err ErrUniqueIndex else Ok (<[key := f r]> t)
  end.

Lemma find_row_Ok {A} P (t : gmap string A) r : find_row P t = Ok r → P r = true ∧ ∃ k, t !! k = Some r.
Proof.
  unfold find_row, first_row. destruct (sql_select P t) as [|x l] eqn:E; [done|]. intros [= <-].
  apply elem_of_sql_select. rewrite E. by left.
Qed.

Lemma insert_unique_Ok {A} key (new : A) clash t t' :
  insert_unique key new clash t = Ok t' →
  t !! key = None ∧ t' = <[key := new]> t ∧ ∀ k r, t !! k = Some r → clash r = false.
Proof.
  unfold insert_unique. destruct (sql_exists clash t) eqn:E; [done|]. intros [Hn ->]%sql_insert_Ok.
  split_and!; [done..|]. by apply sql_exists_false.
Qed.

Lemma update_unique_Ok {A} key (f : A → A) clash t t' :
  update_unique key f clash t = Ok t' →
  (t !! key = None ∧ t' = t) ∨
  ∃ r, t !! key = Some r ∧ t' = <[key := f r]> t ∧ ∀ k x, k ≠ key → t !! k = Some x → clash (f r) x = false.
Proof.
  unfold update_unique. destruct (t !! key) as [r|] eqn:E; [|by intros [= <-]; left].
  destruct (sql_exists _ _) eqn:Ex; [done|]. intros [= <-]. right. exists r. split_and!; [done..|].
  intros k x Hk Hx. apply (proj1 (sql_exists_false _ _) Ex k). by rewrite lookup_delete_ne.
Qed.

Lemma find_row_unique {A} P (t : gmap string A) id r :
  t !! id = Some r → P r = true → (∀ k x, t !! k = Some x → P x = true → x = r) → find_row P t = Ok r.
Proof.
  intros Hr HP Hu. unfold find_row, first_row.
  assert (Hin : r ∈ sql_select P t) by (apply elem_of_sql_select; eauto).
  destruct (sql_select P t) as [|x l] eqn:E; [by apply elem_of_nil in Hin|]. f_equal.
  assert (Hx : x ∈ sql_select P t) by (rewrite E; by left).
  apply elem_of_sql_select in Hx as [HPx [k Hk]]. by eapply Hu.
Qed.

Lemma find_row_none {A} P (t : gmap string A) : (∀ k x, t !! k = Some x → P x = false) → find_row P t = Err ErrNotFound.
Proof.
  intros Hn. unfold find_row, first_row. destruct (sql_select P t) as [|x l] eqn:E; [done|].
  assert (Hin : x ∈ sql_select P t) by (rewrite E; by left). apply elem_of_sql_select in Hin as [HP [k Hk]].
  by rewrite (Hn _ _ Hk) in HP.
Qed.

(** ** Tables compared row by row *)
Definition pointwise {A} (P : A → A → Prop) (m m' : gmap string A) : Prop :=
  ∀ id, option_Forall2 P (m !! id) (m' !! id).

Lemma pointwise_refl {A} (P : A → A → Prop) m : Reflexive P → pointwise P m m.
Proof. intros HP id. destruct (m !! id); constructor. apply HP. Qed.

Lemma pointwise_update {A} (P : A → A → Prop) Q f (m : gmap string A) :
  Reflexive P → (∀ r, Q r = true → P r (f r)) → pointwise P m (sql_update Q f m).
Proof.
  intros HP Hf id. rewrite lookup_sql_update. destruct (m !! id) as [r|]; constructor.
  destruct (Q r) eqn:E; [by apply Hf|apply HP].
Qed.

Lemma pointwise_trans {A} (P : A → A → Prop) m1 m2 m3 :
  Transitive P → pointwise P m1 m2 → pointwise P m2 m3 → pointwise P m1 m3.
Proof.
  intros HP H12 H23 id. specialize (H12 id). specialize (H23 id). revert H12 H23.
  inversion 1; inversion 1; simplify_eq; constructor. by etrans.
Qed.

Lemma pointwise_lookup {A} (P : A → A → Prop) m m' id r' :
  pointwise P m m' → m' !! id = Some r' → ∃ r, m !! id = Some r ∧ P r r'.
Proof. intros H Hr. specialize (H id). rewrite Hr in H. inversion H; simplify_eq. eauto. Qed.

Lemma pointwise_lookup_old {A} (P : A → A → Prop) m m' id r :
  pointwise P m m' → m !! id = Some r → ∃ r', m' !! id = Some r' ∧ P r r'.
Proof. intros H Hr. specialize (H id). rewrite Hr in H. inversion H; simplify_eq. eauto. Qed.
