(* ===== verification/Httpx.v ===== *)
(** * Httpx: what handlers answer

    [src/internal/server/transport/http/httpx/responses.go]: JSON answers, the
    error answers and the split of an Amnezia configuration into the frames of
    a series of QR codes.  An answer is its status, the headers and cookies it
    sets and its body; the identifier under which an error is logged is an
    argument. *)

From S2P Require Import Prelude GoLib GoJson Sql ServerModel ServerStore.
From Stdlib Require Import Ascii.
Import GoTime GoStrings.

(** [http.Cookie]; a cookie whose [SameSite] is not strict is lax. *)
Record Cookie := mkCookie {
  ck_Name : string;
  ck_Value : string;
  ck_Path : string;
  ck_HttpOnly : bool;
  ck_SameSiteStrict : bool;
  ck_Secure : bool;
  ck_MaxAge : Z;
}.

Record Response := mkResponse {
  rs_Status : Z;
  rs_Header : list (string * string);
  rs_Cookies : list Cookie;
  rs_Body : string;
}.

Definition StatusOK : Z := 200.
Definition StatusCreated : Z := 201.
Definition StatusMultiStatus : Z := 207.
Definition StatusBadRequest : Z := 400.
Definition StatusUnauthorized : Z := 401.
Definition StatusForbidden : Z := 403.
Definition StatusNotFound : Z := 404.
Definition StatusMethodNotAllowed : Z := 405.
Definition StatusConflict : Z := 409.
Definition StatusInternalServerError : Z := 500.
Definition StatusBadGateway : Z := 502.

(** [json.Encoder.Encode] ends the document with a line break. *)
Definition newline : string := byte 10.
Definition JSON (status : Z) (payload : string) : Response :=
  mkResponse status [("Content-Type", "application/json")] [] (payload +:+ newline).

Definition status_only (status : Z) : Response := mkResponse status [] [] EmptyString.

(** A refusal, or an answer with its status, the cookies it sets and its
    content. *)
Inductive Answer (P : Type) :=
| Refused (r : Response)
| Served (status : Z) (cookies : list Cookie) (payload : P).
Arguments Refused {P} _.
Arguments Served {P} _ _ _.

Definition Error (status : Z) (message : string) : Response :=
  JSON status (JsonRead.object [("error", Json.quote message)]).

Definition PrivateError (status : Z) (message errorID : string) : Response :=
  JSON status (JsonRead.object [("error", Json.quote message); ("error_id", Json.quote errorID)]).

Definition StoreError (err : error) (errorID : string) : Response :=
  if bool_decide (err = ErrConflict) then Error StatusConflict "settings changed concurrently; retry the request"
  else if bool_decide (err = ErrNotFound) then Error StatusNotFound "not found"
  else if bool_decide (err = ErrDuplicateConnection)
  then Error StatusConflict "connection name already exists for this account and node"
  else PrivateError StatusInternalServerError "internal error" errorID.

Definition ValidationError (errorID : string) : Response :=
  PrivateError StatusBadRequest "invalid request" errorID.

(** [validation] tells whether the error wraps an [apperrors.ValidationError]. *)
Definition ServiceError (validation : bool) (err : error) (errorID : string) : Response :=
  if validation then ValidationError errorID else StoreError err errorID.

(** The answer with cookies set before it was written. *)
Definition with_cookies (cs : list Cookie) (r : Response) : Response :=
  mkResponse (rs_Status r) (rs_Header r) (cs ++ rs_Cookies r) (rs_Body r).

(** ** A series of QR codes

    [AmneziaQRPayloadSeries]: the decoded configuration in chunks of 850 bytes,
    each framed by a magic number, the number of chunks, its index and its
    length.  The decoder's own message, which follows the text of the decoding
    error, is left out. *)
Module QR.

(** [base64.RawURLEncoding]: the two characters that differ from the standard
    alphabet. *)
Definition to_url (c : ascii) : ascii :=
  if bool_decide (c = "+"%char) then "-"%char else if bool_decide (c = "/"%char) then "_"%char else c.
Definition from_url (c : ascii) : ascii :=
  if bool_decide (c = "-"%char) then "+"%char else if bool_decide (c = "_"%char) then "/"%char else c.
Definition std_only (c : ascii) : bool := bool_decide (c = "+"%char) || bool_decide (c = "/"%char).
Fixpoint any_byte (P : ascii → bool) (s : string) : bool :=
  match s with EmptyString => false | String c r => P c || any_byte P r end.

Definition EncodeRawURL (s : string) : string := map_string to_url (Base64.EncodeRaw s).
Definition DecodeRawURL (s : string) : option string :=
  if any_byte std_only s then None
  else let '(data, ok) := Base64.DecodeRaw (map_string from_url s) in if ok then Some data else None.

Definition magicCode : nat := 1984.
Definition chunkSize : nat := 850.
Definition byte_at (n : nat) : ascii := ascii_of_nat (n mod 256).

(** Big-endian numbers of two and of four bytes. *)
Definition uint16 (n : nat) : string := String (byte_at (n / 256)) (String (byte_at n) EmptyString).
Definition uint32 (n : nat) : string := uint16 (n / (256 * 256)) +:+ uint16 n.

Definition frame (chunks index : nat) (chunk : string) : string :=
  uint16 magicCode +:+ String (byte_at chunks) (String (byte_at index) (uint32 (String.length chunk) +:+ chunk)).

Fixpoint frames (fuel chunks index : nat) (data : string) : list string :=
  match fuel with
  | O => []
  | S fuel =>
      match data with
      | EmptyString => []
      | _ => frame chunks index (str_take chunkSize data) :: frames fuel chunks (S index) (str_drop chunkSize data)
      end
  end.

Definition chunk_count (data : string) : nat := (String.length data + chunkSize - 1) / chunkSize.

Definition AmneziaQRPayloadSeries (config : string) : result (list string) :=
  let config := TrimSpace config in
  if negb (HasPrefix (ToLower config) "vpn://") then Err "invalid amnezia config" else
  let payload := str_drop 6 config in
  if bool_decide (payload = EmptyString) then Err "invalid amnezia config" else
  match DecodeRawURL payload with
  | None => Err "decode amnezia config"
  | Some data =>
      if bool_decide (data = EmptyString) then Err "invalid amnezia config" else
      let chunks := chunk_count data in
      if bool_decide (255 < chunks) then Err "amnezia config is too large for QR series"
      else Ok (EncodeRawURL <$> frames chunks chunks 0 data)
  end.

(** ** Reading a series back *)

(** A frame gives the number of chunks, its index and its chunk. *)
Definition num16 (a b : ascii) : nat := nat_of_ascii a * 256 + nat_of_ascii b.
Definition read_frame (s : string) : option (nat * nat * string) :=
  match s with
  | String m1 (String m2 (String n (String i (String a (String b (String c (String d r))))))) =>
      if bool_decide (num16 m1 m2 = magicCode) && bool_decide (num16 a b * (256 * 256) + num16 c d = String.length r)
      then Some (nat_of_ascii n, nat_of_ascii i, r) else None
  | _ => None
  end.

(** The reader of a whole series, in order: every frame announces the same
    number of frames and its own position. *)
Fixpoint read_frames (total index : nat) (l : list string) : option string :=
  match l with
  | [] => if bool_decide (index = total) then Some EmptyString else None
  | text :: l =>
      data ← DecodeRawURL text;
      '(n, i, chunk) ← read_frame data;
      if bool_decide (n = total) && bool_decide (i = index)
      then rest ← read_frames total (S index) l; Some (chunk +:+ rest) else None
  end.
Definition read_series (l : list string) : option string := read_frames (length l) 0 l.

Lemma map_string_compose f g s : map_string f (map_string g s) = map_string (f ∘ g) s.
Proof. induction s as [|c s IH]; [done|]. cbn. by rewrite IH. Qed.

(** The standard alphabet avoids the two characters of the other one. *)
Definition plain_alphabet (c : ascii) : bool := negb (bool_decide (c = "-"%char)) && negb (bool_decide (c = "_"%char)).
Lemma char_of_plain x : plain_alphabet (Base64.char_of x) = true.
Proof. destruct x as [[] [] [] [] [] []]; reflexivity. Qed.

Lemma encode_plain s : any_byte (fun c => negb (plain_alphabet c)) (Base64.EncodeRaw s) = false.
Proof.
  induction s as [|a|a b|a b c s IH] using Base64.string_ind3; [done|..];
    unfold Base64.EncodeRaw in *; cbn [Base64.encode any_byte]; rewrite ?char_of_plain; cbn; done.
Qed.

Lemma from_to_url s : any_byte (fun c => negb (plain_alphabet c)) s = false → map_string from_url (map_string to_url s) = s.
Proof.
  induction s as [|c s IH]; [done|]. cbn [any_byte map_string]. intros [Hc Hs]%orb_false_iff. rewrite IH by done. f_equal.
  revert Hc. destruct c as [[] [] [] [] [] [] [] []]; vm_compute; congruence.
Qed.

Lemma to_url_no_std s : any_byte std_only (map_string to_url s) = false.
Proof.
  induction s as [|c s IH]; [done|]. cbn [any_byte map_string]. rewrite IH, orb_false_r.
  destruct c as [[] [] [] [] [] [] [] []]; reflexivity.
Qed.

Lemma DecodeRawURL_EncodeRawURL s : DecodeRawURL (EncodeRawURL s) = Some s.
Proof.
  unfold DecodeRawURL, EncodeRawURL. rewrite to_url_no_std, from_to_url by apply encode_plain.
  by rewrite Base64.DecodeRaw_EncodeRaw.
Qed.

Lemma byte_at_nat n : nat_of_ascii (byte_at n) = n mod 256.
Proof. apply nat_ascii_embedding, Nat.mod_upper_bound. lia. Qed.

Lemma num16_uint16 n : n < (256 * 256) → num16 (byte_at (n / 256)) (byte_at n) = n.
Proof.
  intros Hn. unfold num16. rewrite !byte_at_nat. rewrite (Nat.mod_small (n / 256)) by (apply Nat.Div0.div_lt_upper_bound; lia).
  pose proof (Nat.div_mod_eq n 256). lia.
Qed.

Lemma str_take_length n s : String.length (str_take n s) ≤ n.
Proof. revert n. induction s as [|c s IH]; intros [|n]; cbn; try lia. specialize (IH n). lia. Qed.
Lemma str_take_drop n s : str_take n s +:+ str_drop n s = s.
Proof. revert n. induction s as [|c s IH]; intros [|n]; cbn; try done. by rewrite string_app_cons, IH. Qed.

Lemma read_frame_frame total index chunk :
  total < 256 → index < 256 → String.length chunk ≤ chunkSize → read_frame (frame total index chunk) = Some (total, index, chunk).
Proof.
  intros Ht Hi Hc. unfold chunkSize in Hc. unfold frame, uint32, uint16. repeat rewrite ?str_append_assoc, ?string_app_cons, ?string_app_nil.
  cbn [read_frame].
  rewrite !num16_uint16 by (unfold magicCode; first [lia|apply Nat.Div0.div_lt_upper_bound; lia]).
  rewrite bool_decide_eq_true_2 by done.
  replace (String.length chunk / (256 * 256)) with 0 by (symmetry; apply Nat.div_small; lia).
  rewrite bool_decide_eq_true_2 by lia. cbn [andb]. rewrite !byte_at_nat, !Nat.mod_small by lia. done.
Qed.

Lemma str_drop_length n s : String.length (str_drop n s) = String.length s - n.
Proof. revert n. induction s as [|c s IH]; intros [|n]; cbn; done. Qed.

Lemma chunk_count_step c data :
  chunk_count (String c data) = S (chunk_count (str_drop chunkSize (String c data))).
Proof.
  set (s := String c data). unfold chunk_count. rewrite str_drop_length. unfold chunkSize.
  assert (1 ≤ String.length s) by (cbn; lia). destruct (decide (String.length s ≤ 850)) as [Hs|Hs].
  - replace (String.length s - 850) with 0 by lia. change ((0 + 850 - 1) / 850) with 0.
    symmetry. apply Nat.div_unique with (String.length s - 1); lia.
  - replace (String.length s + 850 - 1) with (1 * 850 + (String.length s - 850 + 850 - 1)) by lia.
    rewrite Nat.div_add_l by lia. lia.
Qed.

Lemma frames_read fuel total index data :
  total < 256 → index + chunk_count data = total → chunk_count data ≤ fuel →
  read_frames total index (EncodeRawURL <$> frames fuel total index data) = Some data.
Proof.
  revert index data. induction fuel as [|fuel IH]; intros index data Ht Hcount Hfuel.
  - assert (data = EmptyString) as ->.
    { destruct data as [|c data]; [done|]. rewrite chunk_count_step in Hfuel. lia. }
    cbn. rewrite bool_decide_eq_true_2; [done|]. cbn in Hcount. lia.
  - destruct data as [|c data]; [cbn; rewrite bool_decide_eq_true_2; [done|cbn in Hcount; lia]|].
    set (s := String c data) in *. cbn [frames]. change (match s with EmptyString => [] | _ => ?x end) with x.
    cbn [fmap list_fmap read_frames]. rewrite DecodeRawURL_EncodeRawURL. cbn [mbind option_bind].
    assert (Hstep := chunk_count_step c data). fold s in Hstep.
    rewrite read_frame_frame by (try lia; apply str_take_length). cbn [mbind option_bind].
    rewrite !bool_decide_eq_true_2 by done. cbn [andb]. rewrite IH by lia. cbn [mbind option_bind]. by rewrite str_take_drop.
Qed.

Lemma frames_length fuel total index data : chunk_count data ≤ fuel → length (frames fuel total index data) = chunk_count data.
Proof.
  revert index data. induction fuel as [|fuel IH]; intros index data Hf; [cbn [frames length]; lia|].
  destruct data as [|c data]; [done|]. set (s := String c data) in *. cbn [frames].
  change (match s with EmptyString => [] | _ => ?x end) with x.
  assert (Hstep := chunk_count_step c data). fold s in Hstep.
  cbn [length]. rewrite IH by lia. lia.
Qed.

(** C35. The QR codes of an Amnezia configuration, read one after the other, give
    back exactly the bytes of the configuration; there are as many of them as
    the frames announce, between 1 and 255, each with its own index. *)
Theorem QR_series_read_back config l :
  AmneziaQRPayloadSeries config = Ok l →
  ∃ data, DecodeRawURL (str_drop 6 (TrimSpace config)) = Some data ∧ data ≠ EmptyString ∧
    read_series l = Some data ∧ 1 ≤ length l ≤ 255.
Proof.
  unfold AmneziaQRPayloadSeries. cbv zeta. destruct (negb _); [done|]. case_bool_decide; [done|].
  destruct (DecodeRawURL _) as [data|] eqn:Ed; [|done]. case_bool_decide as Hne; [done|]. case_bool_decide as Hbig; [done|].
  intros [= <-]. exists data. split_and!; [done|done| |..].
  - unfold read_series. rewrite length_fmap, frames_length by done. apply frames_read; lia.
  - rewrite length_fmap, frames_length by done. destruct data as [|c data]; [done|]. rewrite chunk_count_step. lia.
  - rewrite length_fmap, frames_length by done. lia.
Qed.

Lemma QR_series_read_back_witness :
  ∃ l, AmneziaQRPayloadSeries " VPN://aGVsbG8 " = Ok l ∧ read_series l = Some "hello".
Proof.
  destruct (QR_series_read_back " VPN://aGVsbG8 " ["B8ABAAAAAAVoZWxsbw"] ltac:(vm_compute; reflexivity)) as (data & Hd & _ & Hr & _).
  exists ["B8ABAAAAAAVoZWxsbw"]. split; [vm_compute; reflexivity|]. rewrite Hr. vm_compute in Hd. exact (eq_sym Hd).
Defined.
End QR.

(** ** QR codes as answers

    [encodeQRCodePNG] draws with a third-party package and is a parameter. *)
Section QRCode.
Context (encodeQRCodePNG : string → result string).

Definition amneziaQRCodeSeries (config : string) : result (list string) :=
  payloads ← QR.AmneziaQRPayloadSeries config;
  mapM (fun payload => png ← encodeQRCodePNG payload; Ok ("data:image/png;base64," +:+ Base64.encode true png)) payloads.

Definition no_store : string * string := ("Cache-Control", "no-store").

Definition QRCodePNG (errorID value : string) : Response :=
  let value := TrimSpace value in
  if bool_decide (value = EmptyString) then Error StatusBadRequest "value is required"
  else if HasPrefix (ToLower value) "vpn://" then
    match amneziaQRCodeSeries value with
    | Err _ => PrivateError StatusBadRequest "invalid QR value" errorID
    | Ok items =>
        let r := JSON StatusOK (JsonRead.object [("items", JsonRead.strings items);
                                                 ("total", Strconv.FormatInt (Z.of_nat (length items)))]) in
        mkResponse (rs_Status r) (no_store :: rs_Header r) (rs_Cookies r) (rs_Body r)
    end
  else if bool_decide (2900 < String.length value) then Error StatusBadRequest "value is too large for a QR code"
  else match encodeQRCodePNG value with
       | Err _ => PrivateError StatusBadRequest "invalid QR value" errorID
       | Ok png => mkResponse StatusOK [("Content-Type", "image/png"); no_store] [] png
       end.
End QRCode.
