(* ===== verification/PortalStore.v ===== *)
(** * PortalStore: policies, portal access, subscriptions and the audit log

    The tables of [src/internal/server/storage/migrations/sql/00001_initial_schema.sql]
    that the self-service portal, the subscription links and the administrators'
    pages use, with the operations of [sqlite.go] and [domain_sql.go] on them.
    They live in the same database as the tables of [ServerStore] and refer to
    its accounts and connections: a reference to a missing row is an error of
    the insert, as with [pragma foreign_keys = on]. *)

From S2P Require Import Prelude GoLib GoJson Sql ServerModel ServerStore Tables StoreInvariant.
Import GoTime GoStrings.

Definition ErrForeignKey : error := "FOREIGN KEY constraint failed".
Definition ConnectionLimitUnlimited : Z := -1.

(** ** Rows *)
Record PolicyTag := mkPolicyTag {
  pt_ID : string;
  pt_Slug : string;
  pt_Name : string;
  pt_AllowedNodeIDs : list string;
  pt_ConnectionLimit : Z;
  pt_Status : string;
  pt_CreatedAt : time;
  pt_UpdatedAt : time;
}.

(** The row keeps the node identifiers as a JSON text. *)
Record PolicyTagRow := mkPolicyTagRow {
  ptr_id : string;
  ptr_slug : string;
  ptr_name : string;
  ptr_allowed_node_ids : string;
  ptr_connection_limit : Z;
  ptr_status : string;
  ptr_created_at : time;
  ptr_updated_at : time;
}.

Record AccountPolicyTag := mkAccountPolicyTag {
  apt_ID : string;
  apt_AccountID : string;
  apt_TagID : string;
  apt_CreatedAt : time;
}.

Record AccountPortalToken := mkPortalToken {
  pk_ID : string;
  pk_AccountID : string;
  pk_Token : string;
  pk_TokenHash : string;
  pk_Status : string;
  pk_ExpiresAt : time;
  pk_LastUsedAt : time;
  pk_CreatedAt : time;
  pk_UpdatedAt : time;
}.

Record ConnectionSubscriptionToken := mkSubscriptionToken {
  sk_ID : string;
  sk_ConnectionID : string;
  sk_Token : string;
  sk_TokenHash : string;
  sk_Status : string;
  sk_ExpiresAt : time;
  sk_LastUsedAt : time;
  sk_CreatedAt : time;
  sk_UpdatedAt : time;
}.

Record ShortLink := mkShortLink {
  sl_ID : string;
  sl_SubscriptionTokenID : string;
  sl_Profile : string;
  sl_EncryptedURL : string;
  sl_Status : string;
  sl_CreatedAt : time;
}.

Record ConfigProfile := mkConfigProfile {
  cp_ID : string;
  cp_Protocol : string;
  cp_Kind : string;
  cp_Slug : string;
  cp_Name : string;
  cp_Client : string;
  cp_ContentType : string;
  cp_ConfigTemplate : string;
  cp_Status : string;
  cp_CreatedAt : time;
  cp_UpdatedAt : time;
}.

Record AuditLog := mkAuditLog {
  al_ID : string;
  al_Actor : string;
  al_Action : string;
  al_EntityType : string;
  al_EntityID : string;
  al_Details : string;
  al_CreatedAt : time;
}.

Record Portal := mkPortal {
  policy_tags : gmap string PolicyTagRow;
  account_policy_tags : gmap string AccountPolicyTag;
  account_portal_tokens : gmap string AccountPortalToken;
  connection_subscription_tokens : gmap string ConnectionSubscriptionToken;
  short_links : gmap string ShortLink;
  config_profiles : gmap string ConfigProfile;
  audit_logs : gmap string AuditLog;
}.

Record Database := mkDatabase { core : Server; portal : Portal }.

Definition empty_database : Database := mkDatabase empty_server (mkPortal ∅ ∅ ∅ ∅ ∅ ∅ ∅).

Definition set_policy_tags v d := let p := portal d in mkDatabase (core d) (mkPortal v (account_policy_tags p)
  (account_portal_tokens p) (connection_subscription_tokens p) (short_links p) (config_profiles p) (audit_logs p)).
Definition set_account_policy_tags v d := let p := portal d in mkDatabase (core d) (mkPortal (policy_tags p) v
  (account_portal_tokens p) (connection_subscription_tokens p) (short_links p) (config_profiles p) (audit_logs p)).
Definition set_portal_tokens v d := let p := portal d in mkDatabase (core d) (mkPortal (policy_tags p)
  (account_policy_tags p) v (connection_subscription_tokens p) (short_links p) (config_profiles p) (audit_logs p)).
Definition set_subscription_tokens v d := let p := portal d in mkDatabase (core d) (mkPortal (policy_tags p)
  (account_policy_tags p) (account_portal_tokens p) v (short_links p) (config_profiles p) (audit_logs p)).
Definition set_short_links v d := let p := portal d in mkDatabase (core d) (mkPortal (policy_tags p)
  (account_policy_tags p) (account_portal_tokens p) (connection_subscription_tokens p) v (config_profiles p)
  (audit_logs p)).
Definition set_config_profiles v d := let p := portal d in mkDatabase (core d) (mkPortal (policy_tags p)
  (account_policy_tags p) (account_portal_tokens p) (connection_subscription_tokens p) (short_links p) v
  (audit_logs p)).
Definition set_audit_logs v d := let p := portal d in mkDatabase (core d) (mkPortal (policy_tags p)
  (account_policy_tags p) (account_portal_tokens p) (connection_subscription_tokens p) (short_links p)
  (config_profiles p) v).
Definition set_core v d := mkDatabase v (portal d).

(** [references t(id)] *)
Definition reference {A} (t : gmap string A) (id : string) : result unit :=
  match t !! id with Some _ => Ok tt | None => Err ErrForeignKey end.

(** [order by created_at]: rows of the same instant come in no fixed order. *)
Definition by_created {A} (created : A → time) (id : A → string) : list A → list A :=
  order_by (fun r => (ts (created r), id r)).

(** ** Policies *)
Definition CreatePolicyTag (now : time) (newID : string) (tag : PolicyTag) : goM Database PolicyTag :=
  transaction (fun d =>
    let tag := mkPolicyTag newID (pt_Slug tag) (pt_Name tag) (pt_AllowedNodeIDs tag)
                 (if (pt_ConnectionLimit tag =? 0)%Z then ConnectionLimitUnlimited else pt_ConnectionLimit tag)
                 StatusActive now now in
    let row := mkPolicyTagRow newID (pt_Slug tag) (pt_Name tag) (JsonRead.strings (pt_AllowedNodeIDs tag))
                 (pt_ConnectionLimit tag) (pt_Status tag) now now in
    t ← insert_unique newID row (fun r => bool_decide (ptr_slug r = ptr_slug row)) (policy_tags (portal d));
    Ok (set_policy_tags t d, tag)).

(** A text that is no JSON leaves no identifiers. *)
Definition scanPolicyTag (r : PolicyTagRow) : PolicyTag :=
  let allowed := match JsonRead.parse (ptr_allowed_node_ids r) with
                 | Some v => (JsonRead.decode_strings v).1
                 | None => []
                 end in
  mkPolicyTag (ptr_id r) (ptr_slug r) (ptr_name r) allowed (ptr_connection_limit r) (ptr_status r)
    (ptr_created_at r) (ptr_updated_at r).

Definition ListPolicyTags (d : Database) : list PolicyTag :=
  order_by (fun t => (pt_Slug t, pt_ID t)) (scanPolicyTag <$> (map_to_list (policy_tags (portal d))).*2).

(** [on conflict(account_id, tag_id) do nothing] *)
Definition AssignPolicyTag (now : time) (newID : string) (userTag : AccountPolicyTag) : goM Database AccountPolicyTag :=
  transaction (fun d =>
    _ ← GetAccount (apt_AccountID userTag) (core d);
    let v := mkAccountPolicyTag newID (apt_AccountID userTag) (apt_TagID userTag) now in
    if sql_exists (fun r => bool_decide (apt_AccountID r = apt_AccountID v) && bool_decide (apt_TagID r = apt_TagID v))
         (account_policy_tags (portal d))
    then Ok (d, v)
    else
      _ ← reference (policy_tags (portal d)) (apt_TagID v);
      t ← sql_insert ErrUniqueIndex newID v (account_policy_tags (portal d));
      Ok (set_account_policy_tags t d, v)).

Definition ListAccountPolicyTags (accountID : string) (d : Database) : list AccountPolicyTag :=
  by_created apt_CreatedAt apt_ID
    (sql_select (fun r => bool_decide (apt_AccountID r = accountID)) (account_policy_tags (portal d))).

(** ** Access to the portal *)

(** [token_hash] is unique, and an account has one token that is active. *)
Definition portal_token_clash (v r : AccountPortalToken) : bool :=
  bool_decide (pk_TokenHash r = pk_TokenHash v) ||
  bool_decide (pk_Status v = StatusActive ∧ pk_Status r = StatusActive ∧ pk_AccountID r = pk_AccountID v).

Definition CreateAccountPortalToken (now : time) (newID : string) (v : AccountPortalToken)
    : goM Database AccountPortalToken :=
  transaction (fun d =>
    let v := mkPortalToken (or_default (pk_ID v) newID) (pk_AccountID v) (pk_Token v) (pk_TokenHash v)
               (or_default (pk_Status v) StatusActive) (pk_ExpiresAt v) (pk_LastUsedAt v) now now in
    _ ← reference (accounts (core d)) (pk_AccountID v);
    t ← insert_unique (pk_ID v) v (portal_token_clash v) (account_portal_tokens (portal d));
    Ok (set_portal_tokens t d, v)).

Definition ListAccountPortalTokens (d : Database) : list AccountPortalToken :=
  by_created pk_CreatedAt pk_ID (map_to_list (account_portal_tokens (portal d))).*2.

Definition GetAccountPortalTokenByHash (hash : string) (d : Database) : result AccountPortalToken :=
  find_row (fun r => bool_decide (pk_TokenHash r = hash)) (account_portal_tokens (portal d)).

Definition touch_portal_token (now now' : time) (r : AccountPortalToken) : AccountPortalToken :=
  mkPortalToken (pk_ID r) (pk_AccountID r) (pk_Token r) (pk_TokenHash r) (pk_Status r) (pk_ExpiresAt r) now
    (pk_CreatedAt r) now'.
Definition TouchAccountPortalToken (now now' : time) (id : string) (d : Database) : Database :=
  set_portal_tokens (alter (touch_portal_token now now') id (account_portal_tokens (portal d))) d.

(** ** Subscriptions *)

(** [token_hash] is unique, and a connection has one token that is active. *)
Definition subscription_token_clash (v r : ConnectionSubscriptionToken) : bool :=
  bool_decide (sk_TokenHash r = sk_TokenHash v) ||
  bool_decide (sk_Status v = StatusActive ∧ sk_Status r = StatusActive ∧ sk_ConnectionID r = sk_ConnectionID v).

Definition CreateConnectionSubscriptionToken (now : time) (newID : string) (v : ConnectionSubscriptionToken)
    : goM Database ConnectionSubscriptionToken :=
  transaction (fun d =>
    let v := mkSubscriptionToken (or_default (sk_ID v) newID) (sk_ConnectionID v) (sk_Token v) (sk_TokenHash v)
               (or_default (sk_Status v) StatusActive) (sk_ExpiresAt v) (sk_LastUsedAt v) now now in
    _ ← reference (connections (core d)) (sk_ConnectionID v);
    t ← insert_unique (sk_ID v) v (subscription_token_clash v) (connection_subscription_tokens (portal d));
    Ok (set_subscription_tokens t d, v)).

Definition ListConnectionSubscriptionTokens (d : Database) : list ConnectionSubscriptionToken :=
  by_created sk_CreatedAt sk_ID (map_to_list (connection_subscription_tokens (portal d))).*2.

Definition GetConnectionSubscriptionTokenByHash (hash : string) (d : Database) : result ConnectionSubscriptionToken :=
  find_row (fun r => bool_decide (sk_TokenHash r = hash)) (connection_subscription_tokens (portal d)).

Definition touch_subscription_token (now now' : time) (r : ConnectionSubscriptionToken) : ConnectionSubscriptionToken :=
  mkSubscriptionToken (sk_ID r) (sk_ConnectionID r) (sk_Token r) (sk_TokenHash r) (sk_Status r) (sk_ExpiresAt r) now
    (sk_CreatedAt r) now'.
Definition TouchConnectionSubscriptionToken (now now' : time) (id : string) (d : Database) : Database :=
  set_subscription_tokens (alter (touch_subscription_token now now') id (connection_subscription_tokens (portal d))) d.

Definition CreateShortLink (now : time) (newID : string) (v : ShortLink) : goM Database ShortLink :=
  transaction (fun d =>
    let v := mkShortLink (or_default (sl_ID v) newID) (sl_SubscriptionTokenID v) (sl_Profile v) (sl_EncryptedURL v)
               (or_default (sl_Status v) StatusActive) now in
    _ ← reference (connection_subscription_tokens (portal d)) (sl_SubscriptionTokenID v);
    t ← insert_unique (sl_ID v) v (fun r => bool_decide (sl_SubscriptionTokenID r = sl_SubscriptionTokenID v) &&
                                            bool_decide (sl_Profile r = sl_Profile v)) (short_links (portal d));
    Ok (set_short_links t d, v)).

Definition GetShortLink (id : string) (d : Database) : result ShortLink := get_row (short_links (portal d)) id.

Definition GetShortLinkByTokenProfile (tokenID profile : string) (d : Database) : result ShortLink :=
  find_row (fun r => bool_decide (sl_SubscriptionTokenID r = tokenID) && bool_decide (sl_Profile r = profile))
    (short_links (portal d)).

(** ** Profiles, issued configurations and the audit log *)
Definition CreateConfigProfile (now : time) (newID : string) (p : ConfigProfile) : goM Database ConfigProfile :=
  transaction (fun d =>
    let p := mkConfigProfile newID (cp_Protocol p) (cp_Kind p) (cp_Slug p) (cp_Name p) (cp_Client p) (cp_ContentType p)
               (cp_ConfigTemplate p) StatusActive now now in
    t ← insert_unique newID p (fun r => bool_decide (cp_Protocol r = cp_Protocol p) &&
          bool_decide (cp_Slug r = cp_Slug p) && bool_decide (cp_Client r = cp_Client p)) (config_profiles (portal d));
    Ok (set_config_profiles t d, p)).

(** [order by protocol, slug]: profiles of one slug for different clients come
    in no fixed order. *)
Definition ListConfigProfiles (d : Database) : list ConfigProfile :=
  order_by (fun p => (cp_Protocol p, cp_Slug p)) (map_to_list (config_profiles (portal d))).*2.

Definition CreateIssuedConfig (now : time) (newID : string) (c : IssuedConfig) : goM Database IssuedConfig :=
  transaction (fun d =>
    let c := mkIssuedConfig newID (ic_ConnectionID c) (ic_Kind c) (ic_Slug c) (ic_Name c) (ic_Client c)
               (ic_ContentType c) (ic_Config c) StatusActive now now in
    _ ← reference (connections (core d)) (ic_ConnectionID c);
    s ← insert_config (core d) c;
    Ok (set_core s d, c)).

Definition ListIssuedConfigs (s : Server) : list IssuedConfig :=
  by_created ic_CreatedAt ic_ID (map_to_list (issued_configs s)).*2.

Definition CreateAuditLog (now : time) (newID : string) (l : AuditLog) : goM Database AuditLog :=
  transaction (fun d =>
    let l := mkAuditLog newID (al_Actor l) (al_Action l) (al_EntityType l) (al_EntityID l) (al_Details l) now in
    t ← sql_insert ErrUniqueIndex newID l (audit_logs (portal d));
    Ok (set_audit_logs t d, l)).

(** Latest first. *)
Definition ListAuditLogs (d : Database) : list AuditLog :=
  reverse (by_created al_CreatedAt al_ID (map_to_list (audit_logs (portal d))).*2).

(** ** The summary of an account *)
Record ConnectionSummary := mkConnectionSummary { cs_Connection : Connection; cs_Node : Node }.

Record AccountSummary := mkAccountSummary {
  as_Account : Account;
  as_Connections : list ConnectionSummary;
  as_Configs : list IssuedConfig;
  as_Profiles : list ConfigProfile;
  as_Generated : time;
}.

Definition zero_node : Node :=
  mkNode EmptyString EmptyString EmptyString EmptyString EmptyString zero_time zero_time.

(** The map from identifiers to nodes; a later node of the list wins. *)
Definition node_map (s : Server) : gmap string Node :=
  list_to_map ((fun n => (nd_ID n, n)) <$> reverse (ListNodes s)).

Definition account_connections (accountID : string) (s : Server) : list Connection :=
  filter (fun c => cn_AccountID c = accountID) (ListConnections s).

Definition Summary (now : time) (accountID : string) (d : Database) : result AccountSummary :=
  account ← GetAccount accountID (core d);
  let own := account_connections accountID (core d) in
  let protocols := list_to_set (cn_Protocol <$> filter (fun c => cn_DesiredStatus c ≠ ConnectionStatusDeleted) own) : gset string in
  let ids := list_to_set (cn_ID <$> own) : gset string in
  Ok (mkAccountSummary account
        ((fun c => mkConnectionSummary c (default zero_node (node_map (core d) !! cn_NodeID c))) <$> own)
        (filter (fun c => ic_ConnectionID c ∈ ids) (ListIssuedConfigs (core d)))
        (filter (fun p => cp_Status p = StatusActive ∧ cp_Protocol p ∈ protocols) (ListConfigProfiles d))
        now).

(** ** References and uniqueness *)
Definition refers {A B} (key : A → string) (t : gmap string A) (u : gmap string B) : Prop :=
  ∀ id r, t !! id = Some r → is_Some (u !! key r).
Definition unique_by {A K} (key : A → K) (t : gmap string A) : Prop :=
  ∀ i j r r', t !! i = Some r → t !! j = Some r' → key r = key r' → i = j.
(** A unique index [where P]. *)
Definition unique_where {A K} (P : A → Prop) (key : A → K) (t : gmap string A) : Prop :=
  ∀ i j r r', t !! i = Some r → t !! j = Some r' → P r → P r' → key r = key r' → i = j.
Definition keeps_keys {A} (t t' : gmap string A) : Prop := ∀ id, is_Some (t !! id) → is_Some (t' !! id).

Section Integrity.
Context {A B K : Type}.
Implicit Types (t : gmap string A) (u : gmap string B).

Lemma keeps_keys_refl t : keeps_keys t t.
Proof. by intros id. Qed.
Lemma keeps_keys_trans t1 t2 t3 : keeps_keys t1 t2 → keeps_keys t2 t3 → keeps_keys t1 t3.
Proof. unfold keeps_keys. auto. Qed.
Lemma keeps_keys_insert t id r : keeps_keys t (<[id := r]> t).
Proof. intros i Hi. rewrite lookup_insert_is_Some. destruct (decide (id = i)); eauto. Qed.
Lemma keeps_keys_alter t id f : keeps_keys t (alter f id t).
Proof. intros i. apply alter_is_Some. Qed.
Lemma keeps_keys_update t P f : keeps_keys t (sql_update P f t).
Proof. intros i [r Hr]. rewrite lookup_sql_update, Hr. eauto. Qed.

Lemma refers_mono (key : A → string) t u u' : keeps_keys u u' → refers key t u → refers key t u'.
Proof. intros Hk Hr id r Hid. apply Hk, (Hr _ _ Hid). Qed.
Lemma refers_insert (key : A → string) t u id r :
  refers key t u → is_Some (u !! key r) → refers key (<[id := r]> t) u.
Proof. intros Hr Hu i x [[<- <-]|[_ Hx]]%lookup_insert_Some; [done|by eapply Hr]. Qed.
Lemma refers_alter (key : A → string) t u id f :
  (∀ r, key (f r) = key r) → refers key t u → refers key (alter f id t) u.
Proof.
  intros Hf Hr i x [(-> & r & Hx & ->)|[_ Hx]]%lookup_alter_Some; [rewrite Hf|]; by eapply Hr.
Qed.

Lemma unique_by_insert (key : A → K) t id r :
  unique_by key t → (∀ k x, t !! k = Some x → key x ≠ key r) → unique_by key (<[id := r]> t).
Proof.
  intros Hu Hn i j x y [[<- <-]|[Hi Hx]]%lookup_insert_Some [[<- <-]|[Hj Hy]]%lookup_insert_Some Hk; [done|..].
  - exfalso. by eapply Hn.
  - exfalso. by eapply Hn.
  - by eapply Hu.
Qed.
Lemma unique_by_alter (key : A → K) t id f :
  (∀ r, key (f r) = key r) → unique_by key t → unique_by key (alter f id t).
Proof.
  intros Hf Hu i j x y.
  intros [(-> & r & Hx & ->)|[_ Hx]]%lookup_alter_Some [(-> & r' & Hy & ->)|[_ Hy]]%lookup_alter_Some;
    rewrite ?Hf; [done|by eapply Hu..].
Qed.

Lemma unique_where_insert (P : A → Prop) (key : A → K) t id r :
  unique_where P key t → (∀ k x, t !! k = Some x → P r → P x → key x ≠ key r) → unique_where P key (<[id := r]> t).
Proof.
  intros Hu Hn i j x y [[<- <-]|[Hi Hx]]%lookup_insert_Some [[<- <-]|[Hj Hy]]%lookup_insert_Some HPx HPy Hk; [done|..].
  - exfalso. by eapply (Hn j y).
  - exfalso. by eapply (Hn i x).
  - by eapply Hu.
Qed.
Lemma unique_where_alter (P : A → Prop) (key : A → K) t id f :
  (∀ r, P (f r) → P r) → (∀ r, key (f r) = key r) → unique_where P key t → unique_where P key (alter f id t).
Proof.
  intros HP Hf Hu i j x y.
  intros [(-> & r & Hx & ->)|[_ Hx]]%lookup_alter_Some [(-> & r' & Hy & ->)|[_ Hy]]%lookup_alter_Some;
    rewrite ?Hf; [done|intros; eapply Hu; eauto..].
Qed.
End Integrity.

Record portal_wf (d : Database) : Prop := {
  pw_tag_key : ∀ id r, policy_tags (portal d) !! id = Some r → ptr_id r = id;
  pw_tag_slug : unique_by ptr_slug (policy_tags (portal d));
  pw_assigned_account : refers apt_AccountID (account_policy_tags (portal d)) (accounts (core d));
  pw_assigned_tag : refers apt_TagID (account_policy_tags (portal d)) (policy_tags (portal d));
  pw_assigned_once : unique_by (fun r => (apt_AccountID r, apt_TagID r)) (account_policy_tags (portal d));
  pw_portal_account : refers pk_AccountID (account_portal_tokens (portal d)) (accounts (core d));
  pw_portal_hash : unique_by pk_TokenHash (account_portal_tokens (portal d));
  pw_portal_active : unique_where (fun r => pk_Status r = StatusActive) pk_AccountID (account_portal_tokens (portal d));
  pw_subscription_connection :
    refers sk_ConnectionID (connection_subscription_tokens (portal d)) (connections (core d));
  pw_subscription_hash : unique_by sk_TokenHash (connection_subscription_tokens (portal d));
  pw_subscription_active :
    unique_where (fun r => sk_Status r = StatusActive) sk_ConnectionID (connection_subscription_tokens (portal d));
  pw_link_token : refers sl_SubscriptionTokenID (short_links (portal d)) (connection_subscription_tokens (portal d));
  pw_link_once : unique_by (fun r => (sl_SubscriptionTokenID r, sl_Profile r)) (short_links (portal d));
  pw_profile_once : unique_by (fun r => (cp_Protocol r, cp_Slug r, cp_Client r)) (config_profiles (portal d));
}.

Lemma portal_wf_empty : portal_wf empty_database.
Proof. constructor; intros ?; intros; simpl in *; simplify_map_eq. Qed.

(** Growing accounts and connections break no reference. *)
Lemma portal_wf_core s d :
  keeps_keys (accounts (core d)) (accounts s) → keeps_keys (connections (core d)) (connections s) →
  portal_wf d → portal_wf (set_core s d).
Proof. intros Ha Hc []. constructor; cbn; eauto using refers_mono. Qed.

(** No operation on the control plane's tables takes an account or a connection
    away: deleting is a status. *)
Definition accounts_keyed (s : Server) : Prop := ∀ id a, accounts s !! id = Some a → acc_ID a = id.
Definition keeps_rows (s s' : Server) : Prop :=
  keeps_keys (accounts s) (accounts s') ∧ keeps_keys (connections s) (connections s') ∧
  (accounts_keyed s → accounts_keyed s').

Lemma keeps_rows_refl s : keeps_rows s s.
Proof. split_and!; [apply keeps_keys_refl..|done]. Qed.
Lemma keeps_rows_trans s1 s2 s3 : keeps_rows s1 s2 → keeps_rows s2 s3 → keeps_rows s1 s3.
Proof. intros (?&?&?) (?&?&?). split_and!; [by eapply keeps_keys_trans..|auto]. Qed.
Lemma keeps_rows_same s s' : accounts s' = accounts s → connections s' = connections s → keeps_rows s s'.
Proof. intros Ha Hc. unfold keeps_rows, accounts_keyed. rewrite Ha, Hc. split_and!; [apply keeps_keys_refl..|done]. Qed.
Lemma keeps_rows_connections s s' :
  accounts s' = accounts s → keeps_keys (connections s) (connections s') → keeps_rows s s'.
Proof. intros Ha Hc. unfold keeps_rows, accounts_keyed. rewrite Ha. split_and!; [apply keeps_keys_refl|done..]. Qed.

Lemma finalize_apply_rows now v l s : keeps_rows s (finalize_apply now v l s).
Proof.
  unfold finalize_apply. revert s; induction l as [|x l IH]; intros s; cbn [foldl]; [apply keeps_rows_refl|].
  eapply keeps_rows_trans; [|apply IH]. unfold finalize_one.
  case_bool_decide; apply keeps_rows_connections; cbn; [done|apply keeps_keys_alter|done|apply keeps_keys_alter].
Qed.

Ltac rows_transaction :=
  match goal with |- keeps_rows ?s _ =>
    apply (transaction_inv (keeps_rows s)); [|apply keeps_rows_refl]; intros s' a'
  end.

Lemma insert_node_rows v s s' : insert_node v s = Ok s' → keeps_rows s s'.
Proof. intros [_ ->]%insert_node_Ok. by apply keeps_rows_same. Qed.
Lemma insert_instance_rows v s s' : insert_instance v s = Ok s' → keeps_rows s s'.
Proof. intros (t & _ & [= <-])%bind_Ok. by apply keeps_rows_same. Qed.
Lemma insert_installation_rows v s s' : insert_installation v s = Ok s' → keeps_rows s s'.
Proof. unfold insert_installation. case_match; [done|]. intros (t & _ & [= <-])%bind_Ok. by apply keeps_rows_same. Qed.
Lemma insert_amneziawg_config_rows v s s' : insert_amneziawg_config v s = Ok s' → keeps_rows s s'.
Proof. unfold insert_amneziawg_config. case_match; [|done]. intros (t & _ & [= <-])%bind_Ok. by apply keeps_rows_same. Qed.
Lemma CreateConnectionBundle_rows now ids b s : keeps_rows s (CreateConnectionBundle now ids b s).1.
Proof.
  destruct (CreateConnectionBundle now ids b s) as [s' [b'|e]] eqn:E.
  - apply CreateConnectionBundle_Ok in E as (_ & Hb & _). destruct Hb as [Ha _ _ _ Hc _ _ _]. cbn [fst].
    apply keeps_rows_connections; [done|]. rewrite Hc. apply keeps_keys_insert.
  - unfold CreateConnectionBundle in E. apply transaction_Err in E as [-> _]. apply keeps_rows_refl.
Qed.

Lemma exec_op_rows op s : keeps_rows s (exec_op op s).
Proof.
  destruct op; cbn [exec_op].
  - rows_transaction. intros (t & [Hn ->]%sql_insert_Ok & [= <- _])%bind_Ok.
    split_and!; cbn; [apply keeps_keys_insert|apply keeps_keys_refl|].
    intros Hk i x. cbn. intros [[<- <-]|[_ Hx]]%lookup_insert_Some; [done|by apply Hk].
  - unfold UpdateAccountStatus. case_match; [apply keeps_rows_refl|].
    split_and!; cbn; [apply keeps_keys_alter|apply keeps_keys_refl|].
    intros Hk i x. cbn. intros [(-> & r & Hx & ->)|[_ Hx]]%lookup_alter_Some; cbn; by apply Hk.
  - rows_transaction. intros (s1 & Hs1 & [= <- _])%bind_Ok. by eapply insert_node_rows.
  - apply keeps_rows_connections; cbn; [done|apply keeps_keys_update].
  - rows_transaction. intros (n & _ & (s1 & Hs1 & [= <- _])%bind_Ok)%bind_Ok. by eapply insert_instance_rows.
  - rows_transaction. intros (n & _ & (u & _ & (s1 & Hs1 & [= <- _])%bind_Ok)%bind_Ok)%bind_Ok.
    by eapply insert_installation_rows.
  - rows_transaction.
    intros (u & _ & (s1 & H1 & (s2 & H2 & (s3 & H3 & [= <- _])%bind_Ok)%bind_Ok)%bind_Ok)%bind_Ok.
    eapply keeps_rows_trans; [by eapply insert_node_rows|].
    eapply keeps_rows_trans; [by eapply insert_instance_rows|by eapply insert_installation_rows].
  - apply CreateConnectionBundle_rows.
  - unfold UpdateConnectionDesiredStatus. case_match; [apply keeps_rows_refl|]. rows_transaction.
    case_match; [|done]. cbv zeta. case_match; [done|]. intros [= <- _].
    apply keeps_rows_connections; cbn; [done|apply keeps_keys_insert].
  - apply finalize_apply_rows.
  - rows_transaction. cbv zeta. destruct (in_port _); [|done]. intros (t & _ & [= <- _])%bind_Ok. by apply keeps_rows_same.
  - rows_transaction. intros (s1 & H1 & (t & _ & [= <- _])%bind_Ok)%bind_Ok.
    eapply keeps_rows_trans; [by eapply insert_node_rows|]. by apply keeps_rows_same.
  - rows_transaction. intros (s1 & H1 & [= <- _])%bind_Ok. by eapply insert_amneziawg_config_rows.
  - rows_transaction. intros (s1 & H1 & (s2 & H2 & [= <- _])%bind_Ok)%bind_Ok.
    eapply keeps_rows_trans; [by eapply insert_node_rows|by eapply insert_amneziawg_config_rows].
  - unfold UpdateAmneziaWGNodeConfig. rows_transaction. destruct (amneziawg_node_configs s !! _); [|done].
    cbv zeta. repeat (case_match; [done|]). intros [= <- _]. apply keeps_rows_connections; cbn; [done|apply keeps_keys_update].
  - by apply keeps_rows_same.
  - rows_transaction. destruct (hysteria2_node_configs s !! _); [|done].
    cbv zeta. repeat (case_match; [done|]). intros [= <- _]. by apply keeps_rows_same.
  - by apply keeps_rows_same.
Qed.

Lemma exec_ops_keyed ops : accounts_keyed (exec_ops ops empty_server).
Proof.
  assert (Hk : accounts_keyed empty_server) by (intros ? ? H; done). revert Hk. generalize empty_server as s.
  induction ops as [|op ops IH]; intros s Hk; [done|]. cbn. apply IH. by apply exec_op_rows.
Qed.

(** ** Any operations keep references and unique columns intact *)
Inductive database_op :=
| DbCore (op : store_op)
| DbCreatePolicyTag (now : time) (newID : string) (tag : PolicyTag)
| DbAssignPolicyTag (now : time) (newID : string) (a : AccountPolicyTag)
| DbCreatePortalToken (now : time) (newID : string) (v : AccountPortalToken)
| DbTouchPortalToken (now now' : time) (id : string)
| DbCreateSubscriptionToken (now : time) (newID : string) (v : ConnectionSubscriptionToken)
| DbTouchSubscriptionToken (now now' : time) (id : string)
| DbCreateShortLink (now : time) (newID : string) (v : ShortLink)
| DbCreateConfigProfile (now : time) (newID : string) (p : ConfigProfile)
| DbCreateIssuedConfig (now : time) (newID : string) (c : IssuedConfig)
| DbCreateAuditLog (now : time) (newID : string) (l : AuditLog).

Definition exec_db (op : database_op) (d : Database) : Database :=
  match op with
  | DbCore op => set_core (exec_op op (core d)) d
  | DbCreatePolicyTag now id tag => (CreatePolicyTag now id tag d).1
  | DbAssignPolicyTag now id a => (AssignPolicyTag now id a d).1
  | DbCreatePortalToken now id v => (CreateAccountPortalToken now id v d).1
  | DbTouchPortalToken now now' id => TouchAccountPortalToken now now' id d
  | DbCreateSubscriptionToken now id v => (CreateConnectionSubscriptionToken now id v d).1
  | DbTouchSubscriptionToken now now' id => TouchConnectionSubscriptionToken now now' id d
  | DbCreateShortLink now id v => (CreateShortLink now id v d).1
  | DbCreateConfigProfile now id p => (CreateConfigProfile now id p d).1
  | DbCreateIssuedConfig now id c => (CreateIssuedConfig now id c d).1
  | DbCreateAuditLog now id l => (CreateAuditLog now id l d).1
  end.

Definition exec_dbs (ops : list database_op) (d : Database) : Database := foldl (fun d op => exec_db op d) d ops.

Lemma reference_Ok {A} (t : gmap string A) id u : reference t id = Ok u → is_Some (t !! id).
Proof. unfold reference. destruct (t !! id); [eauto|done]. Qed.

(** An insert guarded by a unique index keeps the column unique. *)
Lemma unique_by_guarded {A K} `{EqDecision K} (key : A → K) (clash : A → bool) id r t t' :
  (∀ x, clash x = false → key x ≠ key r) → insert_unique id r clash t = Ok t' →
  unique_by key t → unique_by key t'.
Proof. intros Hc (_ & -> & Hn)%insert_unique_Ok Hu. apply unique_by_insert; [done|]. intros k x Hx. apply Hc. by eapply Hn. Qed.

Lemma unique_where_guarded {A K} (P : A → Prop) (key : A → K) (clash : A → bool) id r t t' :
  (∀ x, clash x = false → P r → P x → key x ≠ key r) → insert_unique id r clash t = Ok t' →
  unique_where P key t → unique_where P key t'.
Proof. intros Hc (_ & -> & Hn)%insert_unique_Ok Hu. apply unique_where_insert; [done|]. intros k x Hx. apply Hc. by eapply Hn. Qed.

Lemma or_clash_false (P Q : Prop) `{!Decision P, !Decision Q} : bool_decide P || bool_decide Q = false → ¬ P ∧ ¬ Q.
Proof. by rewrite orb_false_iff, !bool_decide_eq_false. Qed.

Ltac portal_transaction :=
  match goal with |- portal_wf (?f _).1 => apply (transaction_inv portal_wf); [|done]; intros d' a'; cbv zeta end.

Lemma insert_config_server s c s' : insert_config s c = Ok s' → accounts s' = accounts s ∧ connections s' = connections s.
Proof. intros (t & _ & [= <-])%bind_Ok. done. Qed.

Lemma pair_clash_false (a b c e : string) : bool_decide (a = b) && bool_decide (c = e) = false → (a, c) ≠ (b, e).
Proof. intros H [= -> ->]. by rewrite !bool_decide_eq_true_2 in H. Qed.

Lemma exec_db_wf op d : portal_wf d → portal_wf (exec_db op d).
Proof.
  intros Hwf. destruct op; cbn [exec_db].
  - destruct (exec_op_rows op (core d)) as (?&?&_). by apply portal_wf_core.
  - portal_transaction. intros (t & Ht & [= <- _])%bind_Ok. pose proof Ht as (_ & Et & _)%insert_unique_Ok.
    destruct Hwf. constructor; cbn; try done.
    + rewrite Et. intros i r [[<- <-]|[_ Hr]]%lookup_insert_Some; [done|eauto].
    + eapply unique_by_guarded; [|exact Ht|done]. intros x Hx. by apply bool_decide_eq_false in Hx.
    + rewrite Et. eapply refers_mono; [apply keeps_keys_insert|done].
  - portal_transaction. intros (u & Hu & E)%bind_Ok. destruct (sql_exists _ _) eqn:Ex; [by injection E as <- _|].
    apply bind_Ok in E as (v & Hv%reference_Ok & (t & (_ & ->)%sql_insert_Ok & [= <- _])%bind_Ok).
    apply get_row_Ok in Hu. destruct Hwf. constructor; cbn; try done.
    + by apply refers_insert; [|eexists].
    + by apply refers_insert.
    + apply unique_by_insert; [done|]. intros k x Hx. cbn. apply pair_clash_false.
      exact (proj1 (sql_exists_false _ _) Ex k x Hx).
  - portal_transaction. intros (u & Hu%reference_Ok & (t & Ht & [= <- _])%bind_Ok)%bind_Ok.
    pose proof Ht as (_ & Et & _)%insert_unique_Ok. destruct Hwf. constructor; cbn; try done.
    + rewrite Et. by apply refers_insert.
    + eapply unique_by_guarded; [|exact Ht|done]. by intros x [Hx _]%or_clash_false.
    + eapply unique_where_guarded; [|exact Ht|done]. intros x [_ Hx]%or_clash_false. naive_solver.
  - destruct Hwf. constructor; cbn; try done; [by apply refers_alter|by apply unique_by_alter|by apply unique_where_alter].
  - portal_transaction. intros (u & Hu%reference_Ok & (t & Ht & [= <- _])%bind_Ok)%bind_Ok.
    pose proof Ht as (_ & Et & _)%insert_unique_Ok. destruct Hwf. constructor; cbn; try done.
    + rewrite Et. by apply refers_insert.
    + eapply unique_by_guarded; [|exact Ht|done]. by intros x [Hx _]%or_clash_false.
    + eapply unique_where_guarded; [|exact Ht|done]. intros x [_ Hx]%or_clash_false. naive_solver.
    + rewrite Et. eapply refers_mono; [apply keeps_keys_insert|done].
  - destruct Hwf. constructor; cbn; try done; [by apply refers_alter|by apply unique_by_alter|by apply unique_where_alter|].
    eapply refers_mono; [apply keeps_keys_alter|done].
  - portal_transaction. intros (u & Hu%reference_Ok & (t & Ht & [= <- _])%bind_Ok)%bind_Ok.
    pose proof Ht as (_ & Et & _)%insert_unique_Ok. destruct Hwf. constructor; cbn; try done.
    + rewrite Et. by apply refers_insert.
    + eapply unique_by_guarded; [|exact Ht|done]. intros x. apply pair_clash_false.
  - portal_transaction. intros (t & Ht & [= <- _])%bind_Ok. destruct Hwf. constructor; cbn; try done.
    eapply unique_by_guarded; [|exact Ht|done]. intros x Hx [= E1 E2 E3]. cbn in *.
    rewrite E1, E2, E3 in Hx. by rewrite !bool_decide_eq_true_2 in Hx.
  - portal_transaction. intros (u & Hu & (s & [Ha Hc]%insert_config_server & [= <- _])%bind_Ok)%bind_Ok.
    apply portal_wf_core; rewrite ?Ha, ?Hc; [apply keeps_keys_refl..|done].
  - portal_transaction. intros (t & _ & [= <- _])%bind_Ok. destruct Hwf. by constructor.
Qed.

(** C32. Whatever operations reach the database, in whatever order and whether
    they succeed or fail, every policy assignment names an existing account and
    tag and is there once, every portal token belongs to an account, every
    subscription token to a connection and every short link to a subscription
    token, token hashes are unique, an account has at most one active portal
    token and a connection at most one active subscription token, and a token
    has at most one short link per profile. *)
Theorem portal_store_wf ops : portal_wf (exec_dbs ops empty_database).
Proof.
  pose proof portal_wf_empty as Hwf. revert Hwf. generalize empty_database as d.
  induction ops as [|op ops IH]; intros d Hwf; [done|]. cbn. by apply IH, exec_db_wf.
Qed.

(** A new tag is listed with its node identifiers as JSON keeps them: bytes that
    are no UTF-8 become replacement characters; a limit of zero was stored as no
    limit. *)
Lemma CreatePolicyTag_listed now newID tag d d' tag' :
  CreatePolicyTag now newID tag d = (d', Ok tag') →
  mkPolicyTag newID (pt_Slug tag) (pt_Name tag) (JsonRead.sanitize <$> pt_AllowedNodeIDs tag) (pt_ConnectionLimit tag')
    StatusActive now now ∈ ListPolicyTags d' ∧
  pt_ConnectionLimit tag' = (if (pt_ConnectionLimit tag =? 0)%Z then ConnectionLimitUnlimited else pt_ConnectionLimit tag).
Proof.
  unfold CreatePolicyTag. intros E%transaction_Ok. cbv zeta in E.
  apply bind_Ok in E as (t & (_ & -> & _)%insert_unique_Ok & [= <- <-]).
  split; [|done]. unfold ListPolicyTags. rewrite elem_of_order_by. apply list_elem_of_fmap. eexists. split.
  2: { apply list_elem_of_fmap. eexists (newID, _). split; [reflexivity|]. apply elem_of_map_to_list. cbn. apply lookup_insert_eq. }
  unfold scanPolicyTag. cbn. f_equal. rewrite JsonRead.parse_strings. cbn. by rewrite <-list_fmap_compose.
Qed.
