(* ===== verification/Subscriptions.v ===== *)
(** * Subscriptions: the links a VPN client downloads its servers from

    [src/internal/server/subscriptions/service.go] (the lines of a
    subscription, their labels, the profile a client shows and short links),
    [src/internal/server/clienttokens/service.go] (the tokens the links carry)
    and the public handlers of
    [src/internal/server/transport/http/client/subscriptions.go] with the
    authentication by token of [app.go] and the QR references of [qr.go].
    SHA-256, the random source and the answer of the link encryption service
    are parameters. *)

From S2P Require Import Prelude GoLib GoText GoJson GoNet GoUrl GoUrlParse Sql ServerModel Links ServerStore StoreInvariant Samples Tables Httpx PortalStore.
From Stdlib Require Import Ascii.
Import GoTime GoStrings.

(** ** Labels *)
Definition middle_dot : string := bytes [194; 183].

Section Labels.
Context (tables : CaseTables).

Definition label_separators : list string := [" "; "-"; "_"; middle_dot; ","; "/"].
Definition removeLabelWord (value word : string) : string :=
  let word := TrimSpace word in
  if bool_decide (word = EmptyString) then value
  else Join " " (filter (fun field => u_EqualFold tables field word = false) (Text.FieldsFunc label_separators value)).

Definition countries : list (string * (string * string)) :=
  [("am", ("AM", "Armenia")); ("armenia", ("AM", "Armenia"));
   ("de", ("DE", "Germany")); ("germany", ("DE", "Germany"));
   ("ee", ("EE", "Estonia")); ("estonia", ("EE", "Estonia"));
   ("fi", ("FI", "Finland")); ("finland", ("FI", "Finland"));
   ("fr", ("FR", "France")); ("france", ("FR", "France"));
   ("nl", ("NL", "Netherlands")); ("netherlands", ("NL", "Netherlands"));
   ("ru", ("RU", "Russia")); ("russia", ("RU", "Russia"));
   ("tr", ("TR", "Turkey")); ("turkey", ("TR", "Turkey"));
   ("us", ("US", "United States")); ("usa", ("US", "United States")); ("unitedstates", ("US", "United States"))].

Definition capital (c : ascii) : bool := bool_decide (65 ≤ nat_of_ascii c ≤ 90).
Definition two_capitals (s : string) : bool :=
  match s with String a (String b EmptyString) => capital a && capital b | _ => false end.

(** A region that is not cut into parts. *)
Definition whole_region (value : string) : string * string :=
  let key := u_ToLower tables (Text.replace_byte "_" EmptyString (Text.replace_byte " " EmptyString value)) in
  match list_find (fun c => c.1 = key) countries with
  | Some (_, (_, item)) => item
  | None =>
      let code := u_ToUpper tables value in
      if two_capitals code then (code, code) else (EmptyString, value)
  end.

Definition region_separators : list string := ["-"; "_"; " "; "/"].

(** One level, with [deeper] for the first part. *)
Definition country_level (deeper : string → string * string) (region : string) : string * string :=
  let value := TrimSpace region in
  if bool_decide (value = EmptyString) then (EmptyString, EmptyString)
  else match Text.FieldsFunc region_separators value with
       | first :: _ :: _ =>
           let '(code, name) := deeper first in
           if negb (bool_decide (code = EmptyString)) || negb (bool_decide (name = EmptyString))
           then (code, name) else whole_region value
       | _ => whole_region value
       end.

(** The first part of a region has no parts of its own: two levels of recursion
    are enough. *)
Fixpoint country_code_name (fuel : nat) (region : string) : string * string :=
  match fuel with
  | O => (EmptyString, EmptyString)
  | S fuel => country_level (country_code_name fuel) region
  end.
Definition countryCodeName : string → string * string := country_code_name 2.

Lemma country_level_free f g region :
  (∀ s, Text.free region_separators s = true → f s = g s) → country_level f region = country_level g region.
Proof.
  intros H. unfold country_level. cbv zeta. case_bool_decide; [done|].
  destruct (Text.FieldsFunc region_separators (TrimSpace region)) as [|first [|y l]] eqn:E; [done..|].
  rewrite H; [done|]. eapply Text.fields_free. unfold Text.FieldsFunc in E. rewrite E. by left.
Qed.

Lemma country_code_name_enough n region : country_code_name (S (S n)) region = countryCodeName region.
Proof.
  apply (country_level_free (country_code_name (S n)) (country_code_name 1)). intros s Hs. cbn [country_code_name]. unfold country_level. cbv zeta.
  apply Text.free_TrimSpace, Text.FieldsFunc_free in Hs.
  destruct (Text.FieldsFunc region_separators (TrimSpace s)) as [|x [|y l]]; [done..|cbn in Hs; lia].
Qed.

Definition countryName (region : string) : string := (countryCodeName region).2.
Definition countryCode (region : string) : string := (countryCodeName region).1.

(** The regional indicator of a capital letter. *)
Definition indicator (c : ascii) : string := JsonRead.utf8 (127462 + N.of_nat (nat_of_ascii c - 65)).
Definition countryFlag (code : string) : string :=
  match u_ToUpper tables (TrimSpace code) with
  | String a (String b EmptyString) => if capital a && capital b then indicator a +:+ indicator b else EmptyString
  | _ => EmptyString
  end.

Definition countryLabel (region : string) : string :=
  let '(code, name) := countryCodeName region in
  if bool_decide (code = EmptyString) && bool_decide (name = EmptyString) then EmptyString
  else if bool_decide (code = EmptyString) then name
  else
    let flag := countryFlag code in
    if bool_decide (name = EmptyString) then TrimSpace (flag +:+ " " +:+ code) else TrimSpace (flag +:+ " " +:+ name).

Definition label_cutset : list string := [" "; "-"; "_"; middle_dot; ","].
Definition removed_words (region : string) : list string :=
  ["hysteria2"; "hysteria"; "hy2"; countryName region; countryCode region].
Definition strip_label (name region : string) : string :=
  Text.Trim label_cutset (Join " " (Text.Fields (foldl removeLabelWord name (removed_words region)))).

Definition cleanSubscriptionName (configName : string) (node : Node) : string :=
  let name := TrimSpace configName in
  let name := if bool_decide (name = EmptyString) then TrimSpace (nd_Name node) else name in
  let name := strip_label name (nd_Region node) in
  if bool_decide (name = EmptyString) then strip_label (TrimSpace (nd_Name node)) (nd_Region node) else name.

Definition SubscriptionLabel (configName : string) (node : Node) : string :=
  let country := countryLabel (nd_Region node) in
  let cleanName := cleanSubscriptionName configName node in
  if negb (bool_decide (country = EmptyString)) && negb (bool_decide (cleanName = EmptyString))
  then country +:+ " " +:+ middle_dot +:+ " " +:+ cleanName
  else if negb (bool_decide (country = EmptyString)) then country
  else cleanName.

(** ** Lines *)
Definition FormatSubscriptionLine (cfg : IssuedConfig) (node : Node) : string :=
  let line := TrimSpace (ic_Config cfg) in
  if bool_decide (line = EmptyString) then EmptyString else
  let label := SubscriptionLabel (ic_Name cfg) node in
  if bool_decide (label = EmptyString) then line else
  let relabelled := (UrlParse.Cut "#" line).1 +:+ "#" +:+ Url.QueryEscape label in
  match UrlParse.Parse line with
  | None => relabelled
  | Some parsed =>
      if bool_decide (UrlParse.Scheme parsed = EmptyString) then relabelled
      else UrlParse.URL_String (UrlParse.with_fragment parsed label (UrlParse.RawFragment parsed))
  end.

Definition activeSubscriptionConnections (token : ConnectionSubscriptionToken) (summary : AccountSummary)
    : list ConnectionSummary :=
  filter (fun item => cn_ID (cs_Connection item) = sk_ConnectionID token ∧
                      cn_DesiredStatus (cs_Connection item) = ConnectionStatusActive) (as_Connections summary).

Definition activeSubscriptionConfigs (token : ConnectionSubscriptionToken) (summary : AccountSummary)
    : list (IssuedConfig * Node) :=
  let activeConnection := foldl (fun m item => <[cn_ID (cs_Connection item) := cs_Node item]> m) (∅ : gmap string Node)
                            (activeSubscriptionConnections token summary) in
  omap (fun cfg =>
    match activeConnection !! ic_ConnectionID cfg with
    | Some node => if bool_decide (ic_Status cfg = StatusActive) then Some (cfg, node) else None
    | None => None
    end) (as_Configs summary).

Definition hy2Lines (token : ConnectionSubscriptionToken) (summary : AccountSummary) : list string :=
  omap (fun '(cfg, node) =>
    if bool_decide (ic_Kind cfg = ConfigHy2URI) && negb (bool_decide (TrimSpace (ic_Config cfg) = EmptyString))
    then Some (FormatSubscriptionLine cfg node) else None) (activeSubscriptionConfigs token summary).

Definition HPSubscriptionBody (token : ConnectionSubscriptionToken) (summary : AccountSummary) : string :=
  Join newline (hy2Lines token summary) +:+ newline.

Definition ClosedSubscriptionBody (token : ConnectionSubscriptionToken) (summary : AccountSummary) : string :=
  let body := Join newline (hy2Lines token summary) in
  Base64.encode true (if bool_decide (body = EmptyString) then body else body +:+ newline).
End Labels.

(** ** Profiles *)
Record hpRoutingProfile := mkRoutingProfile {
  rp_Name : string;
  rp_ProxySites : option (list string);
  rp_ProxyIP : option (list string);
}.
Record hpProfileTemplate := mkProfileTemplate {
  tp_Type : string;
  tp_Title : string;
  tp_Description : string;
  tp_Announce : string;
  tp_Routing : option hpRoutingProfile;
}.

(** A slice of strings; [None] is the nil slice.  A name that a template gives
    more than once is decoded afresh. *)
Definition strings_field {S} (name : string) (set : option (list string) → S → S) : JsonRead.field S :=
  (name, fun v s =>
    match v with
    | JsonRead.JNull => (set None s, true)
    | JsonRead.JArray _ => let '(l, ok) := JsonRead.decode_strings v in (set (Some l) s, ok)
    | _ => (s, false)
    end).

Definition routing_fields : list (JsonRead.field hpRoutingProfile) :=
  [JsonRead.string_field "name" (fun v r => mkRoutingProfile v (rp_ProxySites r) (rp_ProxyIP r));
   strings_field "proxy_sites" (fun v r => mkRoutingProfile (rp_Name r) v (rp_ProxyIP r));
   strings_field "proxy_ip" (fun v r => mkRoutingProfile (rp_Name r) (rp_ProxySites r) v)].

(** A pointer: null makes it nil, anything else is decoded into what it points
    to, which is allocated first. *)
Definition routing_field : JsonRead.field hpProfileTemplate :=
  ("routing", fun v t =>
    let set r := mkProfileTemplate (tp_Type t) (tp_Title t) (tp_Description t) (tp_Announce t) r in
    match v with
    | JsonRead.JNull => (set None, true)
    | _ => let '(r, ok) := JsonRead.decode_struct routing_fields v
                             (default (mkRoutingProfile EmptyString None None) (tp_Routing t)) in
           (set (Some r), ok)
    end).

Definition template_fields : list (JsonRead.field hpProfileTemplate) :=
  [JsonRead.string_field "type" (fun v t => mkProfileTemplate v (tp_Title t) (tp_Description t) (tp_Announce t) (tp_Routing t));
   JsonRead.string_field "title" (fun v t => mkProfileTemplate (tp_Type t) v (tp_Description t) (tp_Announce t) (tp_Routing t));
   JsonRead.string_field "description" (fun v t => mkProfileTemplate (tp_Type t) (tp_Title t) v (tp_Announce t) (tp_Routing t));
   JsonRead.string_field "announce" (fun v t => mkProfileTemplate (tp_Type t) (tp_Title t) (tp_Description t) v (tp_Routing t));
   routing_field].

Definition parseHPProfileTemplate (value : string) : hpProfileTemplate :=
  (JsonRead.Unmarshal (JsonRead.decode_struct template_fields) value
     (mkProfileTemplate EmptyString EmptyString EmptyString EmptyString None)).1.

Definition strings_json (l : option (list string)) : string :=
  match l with Some l => JsonRead.strings l | None => "null" end.

(** [json.Marshal] writes the keys of a map in order. *)
Definition routingLinkFor (name : string) (proxySites proxyIPs : option (list string)) : string :=
  let q := Json.quote in
  "happ://routing/onadd/" +:+ Base64.encode true (JsonRead.object
    [("BlockIp", JsonRead.strings []);
     ("BlockSites", JsonRead.strings []);
     ("DirectIp", JsonRead.strings ["10.0.0.0/8"; "172.16.0.0/12"; "192.168.0.0/16"; "169.254.0.0/16"; "224.0.0.0/4";
                                    "255.255.255.255"]);
     ("DirectSites", JsonRead.strings []);
     ("DnsHosts", JsonRead.object [("cloudflare-dns.com", q "1.1.1.1"); ("dns.google", q "8.8.8.8")]);
     ("DomainStrategy", q "IPIfNonMatch");
     ("DomesticDNSDomain", q "https://dns.google/dns-query");
     ("DomesticDNSIP", q "8.8.8.8");
     ("DomesticDNSType", q "DoH");
     ("FakeDNS", q "false");
     ("Geoipurl", q "https://github.com/Loyalsoldier/v2ray-rules-dat/releases/latest/download/geoip.dat");
     ("Geositeurl", q "https://github.com/Loyalsoldier/v2ray-rules-dat/releases/latest/download/geosite.dat");
     ("GlobalProxy", q "false");
     ("LastUpdated", q EmptyString);
     ("Name", q name);
     ("ProxyIp", strings_json proxyIPs);
     ("ProxySites", strings_json proxySites);
     ("RemoteDNSDomain", q "https://cloudflare-dns.com/dns-query");
     ("RemoteDNSIP", q "1.1.1.1");
     ("RemoteDNSType", q "DoH")]).

Definition routingLinkFromTemplate (template : hpProfileTemplate) : string :=
  match tp_Routing template with
  | None => EmptyString
  | Some r => if bool_decide (TrimSpace (rp_Name r) = EmptyString) then EmptyString
              else routingLinkFor (rp_Name r) (rp_ProxySites r) (rp_ProxyIP r)
  end.

Record ProfileMeta := mkProfileMeta { pm_Title : string; pm_Announce : string; pm_Routing : string }.

Definition or_all (profile : string) : string := or_default (TrimSpace profile) "all".

(** The profile that is found, if any. *)
Definition profile_meta (d : Database) (profile : string) : option ProfileMeta :=
  let profile := or_all profile in
  let fits item := cp_Status item = StatusActive ∧ cp_Slug item = profile ∧ cp_Client item = "happ" ∧
                   cp_Kind item = "hp_subscription" ∧
                   tp_Type (parseHPProfileTemplate (cp_ConfigTemplate item)) = "happ_subscription_profile" in
  match list_find fits (ListConfigProfiles d) with
  | None => None
  | Some (_, item) =>
      let parsed := parseHPProfileTemplate (cp_ConfigTemplate item) in
      let title := or_default (TrimSpace (tp_Title parsed)) (cp_Name item) in
      let title := if bool_decide (TrimSpace title = EmptyString) then cp_Slug item else title in
      Some (mkProfileMeta title (TrimSpace (tp_Announce parsed)) (routingLinkFromTemplate parsed))
  end.

(** ** Short links *)

(** What one call draws from outside: identifiers, the encryption of the
    absolute address of a link, clock readings and the identifiers of the
    store. *)
Record LinkFresh := mkLinkFresh {
  lf_newID : nat → result string;
  lf_targetURL : string → string;
  lf_encrypt : nat → string → result string;
  lf_clock : nat → time;
  lf_storeID : nat → string;
}.

Definition filled_link (r : result ShortLink) : option ShortLink :=
  match r with
  | Ok link => if bool_decide (TrimSpace (sl_EncryptedURL link) = EmptyString) then None else Some link
  | Err _ => None
  end.

Section ShortLinks.
Context (fr : LinkFresh) (token : ConnectionSubscriptionToken) (profile : string).

Definition new_link (id encrypted : string) : ShortLink :=
  mkShortLink id (sk_ID token) profile encrypted EmptyString zero_time.

(** The attempts left, the number of the next one and the last error. *)
Fixpoint link_attempts (n i : nat) (lastErr : error) : goM Database ShortLink := fun d =>
  match n with
  | O => (d, Err lastErr)
  | S n =>
      match lf_newID fr i with
      | Err e => (d, Err e)
      | Ok id =>
          match lf_encrypt fr i (lf_targetURL fr id) with
          | Err e => (d, Err e)
          | Ok encrypted =>
              match CreateShortLink (lf_clock fr i) (lf_storeID fr i) (new_link id encrypted) d with
              | (d, Ok link) => (d, Ok link)
              | (d, Err e) =>
                  match filled_link (GetShortLinkByTokenProfile (sk_ID token) profile d) with
                  | Some existing => (d, Ok existing)
                  | None => link_attempts n (S i) e d
                  end
              end
          end
      end
  end.

Definition GetOrCreateHPShortLink : goM Database ShortLink := fun d =>
  match profile_meta d profile with
  | None => (d, Err ErrNotFound)
  | Some _ =>
      match filled_link (GetShortLinkByTokenProfile (sk_ID token) profile d) with
      | Some link => (d, Ok link)
      | None => link_attempts 4 0 EmptyString d
      end
  end.
End ShortLinks.

(** The answer of the encryption service: its status and at most 1 MiB of its
    body.  [float64] tells which number literals [strconv.ParseFloat] accepts:
    one out of range makes [json.Unmarshal] fail. *)
Section Encryption.
Context (float64 : string → bool).

Fixpoint numbers_fit (v : JsonRead.value) : bool :=
  match v with
  | JsonRead.JNumber t => float64 t
  | JsonRead.JArray l => forallb numbers_fit l
  | JsonRead.JObject l => forallb (fun kv => numbers_fit kv.2) l
  | _ => true
  end.

(** The last member of a name wins. *)
Definition member_text (l : list (string * JsonRead.value)) (key : string) : option string :=
  match list_find (fun kv => kv.1 = key) (reverse l) with
  | Some (_, (_, JsonRead.JString s)) => if bool_decide (TrimSpace s = EmptyString) then None else Some (TrimSpace s)
  | _ => None
  end.

Definition encrypted_members (raw : string) : list (string * JsonRead.value) :=
  match JsonRead.parse raw with
  | Some (JsonRead.JObject l) => if numbers_fit (JsonRead.JObject l) then l else []
  | _ => []
  end.

Definition encrypt_answer (status : Z) (raw : string) : result string :=
  if ((status <? 200) || (300 <=? status))%Z then Err ("crypto link failed: HTTP " +:+ Strconv.FormatInt status) else
  match omap (member_text (encrypted_members raw)) ["encrypted_link"; "url"; "link"; "result"; "encrypted"] with
  | value :: _ => Ok value
  | [] =>
      let text := TrimSpace raw in
      if HasPrefix text "happ://" then Ok text else Err "crypto link response has unknown format"
  end.

(** [encryptHPLink] posts the address; [Post] is the exchange with the service. *)
Definition encryptHPLink (Post : string → result (Z * string)) (rawURL : string) : result string :=
  match Post (JsonRead.object [("url", Json.quote rawURL)]) with
  | Err e => Err e
  | Ok (status, raw) => encrypt_answer status raw
  end.
End Encryption.

(** ** The tokens links carry *)
Section ClientTokens.
Context (Hash : string → string).

Definition reusable (status token : string) (expiresAt now : time) : bool :=
  bool_decide (status = StatusActive) && negb (bool_decide (token = EmptyString)) &&
  (IsZero expiresAt || negb (After now expiresAt)).

(** [fresh] is the token [tokens.New] draws. *)
Definition GetOrCreatePortal (clock : nat → time) (newID : string) (fresh : result string) (accountID : string)
    (expiresAt : time) : goM Database (string * AccountPortalToken) := fun d =>
  let fits item := pk_AccountID item = accountID ∧
                   reusable (pk_Status item) (pk_Token item) (pk_ExpiresAt item) (clock 0) = true in
  match (if IsZero expiresAt then list_find fits (ListAccountPortalTokens d) else None) with
  | Some (_, item) => (d, Ok (pk_Token item, item))
  | None =>
      match fresh with
      | Err e => (d, Err e)
      | Ok raw =>
          let '(d, r) := CreateAccountPortalToken (clock 1) newID
            (mkPortalToken EmptyString accountID raw (Hash raw) EmptyString expiresAt zero_time zero_time zero_time) d in
          (d, record ← r; Ok (raw, record))
      end
  end.

Definition GetOrCreateSubscription (clock : nat → time) (newID : string) (fresh : result string) (connectionID : string)
    (expiresAt : time) : goM Database (string * ConnectionSubscriptionToken) := fun d =>
  let fits item := sk_ConnectionID item = connectionID ∧
                   reusable (sk_Status item) (sk_Token item) (sk_ExpiresAt item) (clock 0) = true in
  match (if IsZero expiresAt then list_find fits (ListConnectionSubscriptionTokens d) else None) with
  | Some (_, item) => (d, Ok (sk_Token item, item))
  | None =>
      match fresh with
      | Err e => (d, Err e)
      | Ok raw =>
          let '(d, r) := CreateConnectionSubscriptionToken (clock 1) newID
            (mkSubscriptionToken EmptyString connectionID raw (Hash raw) EmptyString expiresAt zero_time zero_time zero_time) d in
          (d, record ← r; Ok (raw, record))
      end
  end.

(** ** Authentication by token

    The token, or the answer the request gets. *)
Definition past (now expiresAt : time) : bool := negb (IsZero expiresAt) && After now expiresAt.
Definition refuse {A} (status : Z) (message : string) (d : Database) : Database * (A + Response) :=
  (d, inr (Error status message)).

Definition active_account (accountID : string) (d : Database) : bool :=
  match GetAccount accountID (core d) with
  | Ok account => bool_decide (acc_Status account = AccountStatusActive)
  | Err _ => false
  end.

(** A connection that is there and not deleted. *)
Definition usable_connection (id : string) (d : Database) : option Connection :=
  match GetConnection id (core d) with
  | Ok c => if bool_decide (cn_DesiredStatus c = ConnectionStatusDeleted) then None else Some c
  | Err _ => None
  end.

Definition authenticateSubscriptionToken (clock : nat → time) (raw : string) (d : Database)
    : Database * (ConnectionSubscriptionToken + Response) :=
  if bool_decide (raw = EmptyString) then refuse StatusUnauthorized "token is required" d else
  match GetConnectionSubscriptionTokenByHash (Hash raw) d with
  | Err _ => refuse StatusUnauthorized "invalid token" d
  | Ok token =>
      if negb (bool_decide (sk_TokenHash token = Hash raw)) then refuse StatusUnauthorized "invalid token" d
      else if negb (bool_decide (sk_Status token = StatusActive)) || past (clock 0) (sk_ExpiresAt token)
      then refuse StatusForbidden "token is not active" d
      else match usable_connection (sk_ConnectionID token) d with
           | None => refuse StatusForbidden "connection is unavailable" d
           | Some connection =>
               if active_account (cn_AccountID connection) d
               then (TouchConnectionSubscriptionToken (clock 1) (clock 2) (sk_ID token) d, inl token)
               else refuse StatusForbidden "account is not active" d
           end
  end.

(** Only the first token with the identifier counts. *)
Definition subscriptionTokenByID (clock : nat → time) (id : string) (d : Database)
    : Database * option ConnectionSubscriptionToken :=
  match list_find (fun token => sk_ID token = id) (ListConnectionSubscriptionTokens d) with
  | None => (d, None)
  | Some (_, token) =>
      if negb (bool_decide (sk_Status token = StatusActive)) || past (clock 0) (sk_ExpiresAt token) then (d, None)
      else match usable_connection (sk_ConnectionID token) d with
           | None => (d, None)
           | Some connection =>
               if active_account (cn_AccountID connection) d
               then (TouchConnectionSubscriptionToken (clock 1) (clock 2) (sk_ID token) d, Some token)
               else (d, None)
           end
  end.

Definition authenticatePortalToken (clock : nat → time) (errorID raw : string) (d : Database)
    : Database * (AccountPortalToken + Response) :=
  if bool_decide (raw = EmptyString) then refuse StatusUnauthorized "token is required" d else
  match GetAccountPortalTokenByHash (Hash raw) d with
  | Err _ => refuse StatusUnauthorized "invalid token" d
  | Ok token =>
      if negb (bool_decide (pk_TokenHash token = Hash raw)) then refuse StatusUnauthorized "invalid token" d
      else if negb (bool_decide (pk_Status token = StatusActive)) then refuse StatusForbidden "token is not active" d
      else if past (clock 0) (pk_ExpiresAt token) then refuse StatusForbidden "token is expired" d
      else match GetAccount (pk_AccountID token) (core d) with
           | Err e => (d, inr (StoreError e errorID))
           | Ok account =>
               if bool_decide (acc_Status account = AccountStatusActive)
               then (TouchAccountPortalToken (clock 1) (clock 2) (pk_ID token) d, inl token)
               else refuse StatusForbidden "account is not active" d
           end
  end.

(** ** The handlers *)
Context (tables : CaseTables).

(** The summary of the account the token's connection belongs to. *)
Definition token_summary (now : time) (token : ConnectionSubscriptionToken) (d : Database) : result AccountSummary :=
  connection ← GetConnection (sk_ConnectionID token) (core d);
  Summary now (cn_AccountID connection) d.

Definition optional_header (name value : string) (shown : string) : list (string * string) :=
  if bool_decide (value = EmptyString) then [] else [(name, shown)].

(** Header names in their canonical form. *)
Definition setHPProfileHeaders (meta : ProfileMeta) : list (string * string) :=
  optional_header "Routing" (pm_Routing meta) (pm_Routing meta) ++
  optional_header "Profile-Title" (pm_Title meta) (pm_Title meta) ++
  optional_header "Announce" (pm_Announce meta) ("base64:" +:+ Base64.encode true (pm_Announce meta)).

Definition text_plain (headers : list (string * string)) (body : string) : Response :=
  mkResponse StatusOK (headers ++ [("Content-Type", "text/plain; charset=utf-8")]) [] body.

(** The lines of the token for a client that shows a profile. *)
Definition hp_answer (now : time) (errorID profile : string) (token : ConnectionSubscriptionToken) (d : Database) : Response :=
  match token_summary now token d with
  | Err e => StoreError e errorID
  | Ok summary =>
      match profile_meta d profile with
      | None => Error StatusNotFound "profile not found"
      | Some meta => text_plain (setHPProfileHeaders meta) (HPSubscriptionBody tables token summary)
      end
  end.

Definition path_tail (prefix path : string) : string := Text.Trim ["/"] (TrimPrefix path prefix).

(** [profile] is the query's value of that name. *)
Definition hpSubscription (clock : nat → time) (errorID method path profile : string) (d : Database) : Database * Response :=
  if negb (bool_decide (method = "GET")) then (d, status_only StatusMethodNotAllowed) else
  match authenticateSubscriptionToken clock (path_tail "/hp/" path) d with
  | (d, inr answer) => (d, answer)
  | (d, inl token) => (d, hp_answer (clock 3) errorID (or_all profile) token d)
  end.

Definition shortSubscription (clock : nat → time) (errorID method path : string) (d : Database) : Database * Response :=
  if negb (bool_decide (method = "GET")) then (d, status_only StatusMethodNotAllowed) else
  let id := path_tail "/c/" path in
  if bool_decide (id = EmptyString) || Text.Contains id "/" then (d, Error StatusNotFound "not found") else
  match GetShortLink id d with
  | Err _ => (d, Error StatusNotFound "not found")
  | Ok link =>
      if negb (bool_decide (sl_Status link = StatusActive)) then (d, Error StatusNotFound "not found") else
      match subscriptionTokenByID clock (sl_SubscriptionTokenID link) d with
      | (d, None) => (d, Error StatusForbidden "invalid token")
      | (d, Some token) => (d, hp_answer (clock 3) errorID (sl_Profile link) token d)
      end
  end.

Definition subscription (clock : nat → time) (errorID method path : string) (d : Database) : Database * Response :=
  if negb (bool_decide (method = "GET")) then (d, status_only StatusMethodNotAllowed) else
  match authenticateSubscriptionToken clock (path_tail "/sub/" path) d with
  | (d, inr answer) => (d, answer)
  | (d, inl token) =>
      (d, match token_summary (clock 3) token d with
          | Err e => StoreError e errorID
          | Ok summary => text_plain [] (ClosedSubscriptionBody tables token summary)
          end)
  end.

(** ** What a QR code shows *)
Definition qr_config (id : string) (configs : list IssuedConfig) : result string :=
  match list_find (fun cfg => ic_ID cfg = id ∧ ic_Status cfg = StatusActive ∧ ic_Kind cfg ≠ ConfigHy2URI) configs with
  | None => Err ErrNotFound
  | Some (_, cfg) => if bool_decide (TrimSpace (ic_Config cfg) = EmptyString) then Err "qr config is empty" else Ok (ic_Config cfg)
  end.

Definition owned_token (accountID tokenID : string) (d : Database) (token : ConnectionSubscriptionToken) : Prop :=
  sk_ID token = tokenID ∧ sk_Status token = StatusActive ∧
  (c ← GetConnection (sk_ConnectionID token) (core d); Ok (cn_AccountID c)) = Ok accountID.

Definition qr_link (id accountID : string) (d : Database) : result string :=
  shortLink ← GetShortLink id d;
  if negb (bool_decide (sl_Status shortLink = StatusActive)) || bool_decide (TrimSpace (sl_EncryptedURL shortLink) = EmptyString)
  then Err ErrNotFound
  else match list_find (owned_token accountID (sl_SubscriptionTokenID shortLink) d) (ListConnectionSubscriptionTokens d) with
       | None => Err ErrNotFound
       | Some _ => Ok (sl_EncryptedURL shortLink)
       end.

Definition resolveQRCodeValue (now : time) (kind id accountID : string) (d : Database) : result string :=
  let kind := TrimSpace kind in
  let id := TrimSpace id in
  if bool_decide (kind = EmptyString) || bool_decide (id = EmptyString) then Err "qr kind and id are required" else
  summary ← Summary now accountID d;
  if bool_decide (kind = "config") then qr_config id (as_Configs summary)
  else if bool_decide (kind = "hp_link") then qr_link id accountID d
  else Err "unsupported qr kind".

Definition writeReferencedQRCode (encodeQRCodePNG : string → result string) (now : time) (errorID kind id accountID : string)
    (d : Database) : Response :=
  match resolveQRCodeValue now kind id accountID d with
  | Err e => if bool_decide (e = ErrNotFound) then Error StatusNotFound "qr reference not found" else Error StatusBadRequest e
  | Ok value => QRCodePNG encodeQRCodePNG errorID value
  end.
End ClientTokens.

(** The links of the portal: identifiers from the random source, addresses under
    [/c/], encryption by the service. *)
Definition client_links (float64 : string → bool) (Post : nat → string → result (Z * string)) (newID : nat → result string)
    (absoluteURL : string → string) (clock : nat → time) (storeID : nat → string) : LinkFresh :=
  mkLinkFresh newID (fun id => absoluteURL ("/c/" +:+ id)) (fun i => encryptHPLink float64 (Post i)) clock storeID.

(** ** A short link is made once *)
Definition nonblank_encryption (fr : LinkFresh) : Prop :=
  ∀ i raw e, lf_encrypt fr i raw = Ok e → TrimSpace e ≠ EmptyString.

Lemma member_text_nonblank l key s : member_text l key = Some s → TrimSpace s ≠ EmptyString.
Proof.
  unfold member_text. destruct (list_find _ _) as [[? [? []]]|]; try done.
  case_bool_decide as H; [done|]. intros [= <-]. by rewrite TrimSpace_idem.
Qed.

Lemma encryptHPLink_nonblank float64 Post raw e : encryptHPLink float64 Post raw = Ok e → TrimSpace e ≠ EmptyString.
Proof.
  unfold encryptHPLink, encrypt_answer. destruct (Post _) as [[status body]|]; [|done].
  destruct (_ || _)%Z; [done|]. destruct (omap _ _) as [|v vs] eqn:E.
  - destruct (HasPrefix _ _) eqn:Hp; [|done]. intros [= <-]. rewrite TrimSpace_idem. intros Ht. by rewrite Ht in Hp.
  - intros [= <-]. assert (Hv : v ∈ v :: vs) by (by left). rewrite <-E in Hv.
    apply list_elem_of_omap in Hv as (key & _ & Hk). by eapply member_text_nonblank.
Qed.

Lemma client_links_nonblank float64 Post newID absoluteURL clock storeID :
  nonblank_encryption (client_links float64 Post newID absoluteURL clock storeID).
Proof. intros i raw e. apply encryptHPLink_nonblank. Qed.

(** The link of a token for a profile. *)
Definition link_of (token : ConnectionSubscriptionToken) (profile : string) (d : Database) (link : ShortLink) : Prop :=
  sl_SubscriptionTokenID link = sk_ID token ∧ sl_Profile link = profile ∧ TrimSpace (sl_EncryptedURL link) ≠ EmptyString ∧
  ∃ id, short_links (portal d) !! id = Some link.

Lemma CreateShortLink_row now newID v d d' link :
  CreateShortLink now newID v d = (d', Ok link) →
  sl_SubscriptionTokenID link = sl_SubscriptionTokenID v ∧ sl_Profile link = sl_Profile v ∧
  sl_EncryptedURL link = sl_EncryptedURL v ∧ short_links (portal d') !! sl_ID link = Some link.
Proof.
  unfold CreateShortLink. rewrite transaction_Ok. cbv zeta.
  intros (u & _ & (t & (_ & -> & _)%insert_unique_Ok & [= <- <-])%bind_Ok)%bind_Ok. cbn.
  split_and!; [done..|]. apply lookup_insert_eq.
Qed.

Lemma filled_link_of token profile d link :
  filled_link (GetShortLinkByTokenProfile (sk_ID token) profile d) = Some link → link_of token profile d link.
Proof.
  unfold GetShortLinkByTokenProfile. destruct (find_row _ _) as [l|e] eqn:E; cbn; [|done].
  case_bool_decide as Hb; [done|]. intros [= <-]. apply find_row_Ok in E as [HP Hk].
  rewrite andb_true_iff, !bool_decide_eq_true in HP. by destruct HP.
Qed.

Lemma link_of_filled token profile d link :
  portal_wf d → link_of token profile d link →
  filled_link (GetShortLinkByTokenProfile (sk_ID token) profile d) = Some link.
Proof.
  intros Hwf (Ht & Hp & He & id & Hid). unfold GetShortLinkByTokenProfile. rewrite (find_row_unique _ _ id link).
  - cbn. by rewrite bool_decide_eq_false_2.
  - done.
  - by rewrite !bool_decide_eq_true_2.
  - intros k x Hk. rewrite andb_true_iff, !bool_decide_eq_true. intros [Hx1 Hx2].
    assert (k = id) by (eapply (pw_link_once _ Hwf); [done..|]; cbn; congruence). congruence.
Qed.

Lemma CreateShortLink_exec now newID v d : (CreateShortLink now newID v d).1 = exec_db (DbCreateShortLink now newID v) d.
Proof. done. Qed.

Lemma link_attempts_of fr token profile n i e d d' link :
  nonblank_encryption fr → portal_wf d → link_attempts fr token profile n i e d = (d', Ok link) →
  link_of token profile d' link ∧ portal_wf d' ∧ config_profiles (portal d') = config_profiles (portal d).
Proof.
  intros Hfr. revert i e d. induction n as [|n IH]; intros i e d Hwf; cbn [link_attempts]; [done|].
  destruct (lf_newID fr i) as [id|]; [|done].
  destruct (lf_encrypt fr i _) as [enc|] eqn:Henc; [|done]. apply Hfr in Henc.
  pose proof (exec_db_wf (DbCreateShortLink (lf_clock fr i) (lf_storeID fr i) (new_link token profile id enc)) d Hwf) as Hwf'.
  cbn [exec_db] in Hwf'. destruct (CreateShortLink _ _ _ d) as [d1 [l|e1]] eqn:Ec; cbn [fst] in Hwf'.
  - intros [= <- <-]. pose proof (CreateShortLink_row _ _ _ _ _ _ Ec) as (H1 & H2 & H3 & H4). split_and!; [|done|].
    + split_and!; [done..|by rewrite H3|eauto].
    + unfold CreateShortLink in Ec. rewrite transaction_Ok in Ec. cbv zeta in Ec.
      apply bind_Ok in Ec as (u & _ & (t & _ & [= <- _])%bind_Ok). done.
  - unfold CreateShortLink in Ec. apply transaction_Err in Ec as [-> _].
    destruct (filled_link _) as [l|] eqn:Ef; [|by apply IH].
    intros [= <- <-]. split_and!; [by apply filled_link_of|done..].
Qed.

(** Links and profiles are only ever added. *)
Definition keeps_links (d d' : Database) : Prop :=
  short_links (portal d) ⊆ short_links (portal d') ∧ config_profiles (portal d) ⊆ config_profiles (portal d').

Lemma exec_db_keeps_links op d : keeps_links d (exec_db op d).
Proof.
  unfold keeps_links. destruct op; cbn [exec_db]; try done; apply (transaction_inv (keeps_links d)); try done;
    intros d' r'; cbv zeta; unfold keeps_links.
  - intros (t & _ & [= <- _])%bind_Ok. done.
  - intros (u & _ & H)%bind_Ok. case_match; [by injection H as <- _|].
    apply bind_Ok in H as (v & _ & (t & _ & [= <- _])%bind_Ok). done.
  - intros (u & _ & (t & _ & [= <- _])%bind_Ok)%bind_Ok. done.
  - intros (u & _ & (t & _ & [= <- _])%bind_Ok)%bind_Ok. done.
  - intros (u & _ & (t & (Hn & -> & _)%insert_unique_Ok & [= <- _])%bind_Ok)%bind_Ok. cbn. split; [by apply insert_subseteq|done].
  - intros (t & (Hn & -> & _)%insert_unique_Ok & [= <- _])%bind_Ok. cbn. split; [done|by apply insert_subseteq].
  - intros (u & _ & (s & _ & [= <- _])%bind_Ok)%bind_Ok. done.
  - intros (t & _ & [= <- _])%bind_Ok. done.
Qed.

Lemma exec_dbs_keeps ops d :
  portal_wf d → portal_wf (exec_dbs ops d) ∧ keeps_links d (exec_dbs ops d).
Proof.
  revert d. induction ops as [|op ops IH]; intros d Hwf; cbn; [split; [done|by split]|].
  destruct (IH (exec_db op d) (exec_db_wf op d Hwf)) as [H1 [H2 H3]]. split; [done|].
  destruct (exec_db_keeps_links op d) as [H4 H5]. split; by etrans.
Qed.

Lemma profile_meta_keeps d d' profile :
  config_profiles (portal d) ⊆ config_profiles (portal d') →
  is_Some (profile_meta d profile) → is_Some (profile_meta d' profile).
Proof.
  intros Hsub. unfold profile_meta. cbv zeta.
  destruct (list_find _ (ListConfigProfiles d)) as [[i item]|] eqn:E; [|by intros []]. intros _.
  apply list_find_Some in E as (Hi%list_elem_of_lookup_2 & Hfit & _).
  unfold ListConfigProfiles in Hi. rewrite elem_of_order_by in Hi.
  apply list_elem_of_fmap in Hi as ([k r] & -> & Hk%elem_of_map_to_list).
  destruct (list_find _ (ListConfigProfiles d')) as [[j item']|] eqn:E'; [by eexists|].
  exfalso. rewrite list_find_None, list.Forall_forall in E'. apply (E' r); [|done].
  unfold ListConfigProfiles. rewrite elem_of_order_by. apply list_elem_of_fmap. exists (k, r). split; [done|].
  apply elem_of_map_to_list. by eapply lookup_weaken.
Qed.

(** A subscription token has one short link per profile: once it has been
    handed out, every later request for it, whatever has happened to the
    database in between and whatever identifiers and encryptions the request
    would draw, returns the same link and writes nothing. *)
Theorem short_link_stable fr' float64 Post newID absoluteURL clock storeID token profile d d' link ops :
  portal_wf d →
  GetOrCreateHPShortLink (client_links float64 Post newID absoluteURL clock storeID) token profile d = (d', Ok link) →
  sl_SubscriptionTokenID link = sk_ID token ∧ sl_Profile link = profile ∧
  GetOrCreateHPShortLink fr' token profile (exec_dbs ops d') = (exec_dbs ops d', Ok link).
Proof.
  intros Hwf. unfold GetOrCreateHPShortLink at 1. destruct (profile_meta d profile) as [meta|] eqn:Em; [|done]. intros E.
  assert (link_of token profile d' link ∧ portal_wf d' ∧ config_profiles (portal d') = config_profiles (portal d))
    as (Hlink & Hwf' & Hprof).
  { destruct (filled_link _) as [l|] eqn:Ef.
    - injection E as <- <-. split_and!; [by apply filled_link_of|done..].
    - eapply link_attempts_of; [apply client_links_nonblank|done|exact E]. }
  destruct (exec_dbs_keeps ops d' Hwf') as (Hwf'' & Hsl & Hcp).
  destruct (profile_meta_keeps d (exec_dbs ops d') profile) as [meta' Hm]; [by rewrite <-Hprof|by eexists|].
  destruct Hlink as (H1 & H2 & H3 & id & Hid). split_and!; [done..|].
  unfold GetOrCreateHPShortLink. rewrite Hm, (link_of_filled _ _ _ link); [done..|].
  split_and!; [done..|]. exists id. by eapply lookup_weaken.
Qed.

(** ** What a subscription holds *)
Definition subscription_configs (connectionID : string) (d : Database) : list IssuedConfig :=
  filter (fun cfg => ic_ConnectionID cfg = connectionID ∧ ic_Status cfg = StatusActive ∧ ic_Kind cfg = ConfigHy2URI ∧
                     TrimSpace (ic_Config cfg) ≠ EmptyString) (ListIssuedConfigs (core d)).

(** The lines a connection is entitled to: none while it is paused. *)
Definition connection_lines (tables : CaseTables) (c : Connection) (d : Database) : list string :=
  if bool_decide (cn_DesiredStatus c = ConnectionStatusActive)
  then (fun cfg => FormatSubscriptionLine tables cfg (default zero_node (node_map (core d) !! cn_NodeID c))) <$>
         subscription_configs (cn_ID c) d
  else [].

(** A token that is accepted, with its connection. *)
Record accepted (now : time) (d : Database) (token : ConnectionSubscriptionToken) (c : Connection) : Prop := {
  at_active : sk_Status token = StatusActive;
  at_time : past now (sk_ExpiresAt token) = false;
  at_connection : connections (core d) !! sk_ConnectionID token = Some c;
  at_kept : cn_DesiredStatus c ≠ ConnectionStatusDeleted;
  at_account : ∃ a, accounts (core d) !! cn_AccountID c = Some a ∧ acc_Status a = AccountStatusActive;
}.

Lemma elem_of_account_connections accountID s c :
  c ∈ account_connections accountID s ↔ cn_AccountID c = accountID ∧ ∃ id, connections s !! id = Some c.
Proof.
  unfold account_connections, ListConnections. rewrite list_elem_of_filter, elem_of_order_by, list_elem_of_fmap.
  split; [intros (? & [k x] & -> & H%elem_of_map_to_list); eauto|].
  intros (? & id & H%elem_of_map_to_list). split; [done|]. by exists (id, c).
Qed.

(** The map of the token's active connections holds at most the connection
    itself. *)
Lemma active_map token now d c summary :
  server_wf (core d) → connections (core d) !! sk_ConnectionID token = Some c →
  Summary now (cn_AccountID c) d = Ok summary →
  foldl (fun m item => <[cn_ID (cs_Connection item) := cs_Node item]> m) (∅ : gmap string Node)
    (activeSubscriptionConnections token summary) =
  if bool_decide (cn_DesiredStatus c = ConnectionStatusActive)
  then {[ cn_ID c := default zero_node (node_map (core d) !! cn_NodeID c) ]} else ∅.
Proof.
  intros Hwf Hc. unfold Summary. intros (a & _ & [= <-])%bind_Ok. unfold activeSubscriptionConnections. cbn [as_Connections].
  set (item c := mkConnectionSummary c (default zero_node (node_map (core d) !! cn_NodeID c))).
  set (own := account_connections _ _).
  assert (Hid : cn_ID c = sk_ConnectionID token) by (by apply (wf_id _ Hwf)).
  assert (Hin : ∀ x, x ∈ filter (fun i => cn_ID (cs_Connection i) = sk_ConnectionID token ∧
      cn_DesiredStatus (cs_Connection i) = ConnectionStatusActive) (item <$> own) ↔
      x = item c ∧ cn_DesiredStatus c = ConnectionStatusActive).
  { intros x. rewrite list_elem_of_filter, list_elem_of_fmap. unfold own. setoid_rewrite elem_of_account_connections. split.
    - intros [[Hx1 Hx2] (c' & -> & _ & id & Hc')]. cbn in *.
      assert (c' = c) as -> by (rewrite (wf_id _ Hwf _ _ Hc') in Hx1; congruence). done.
    - intros [-> Hs]. cbn. split; [done|]. exists c. eauto. }
  set (l := filter _ _) in *. clearbody l own.
  assert (Hfold : ∀ m : gmap string Node, foldl (fun m i => <[cn_ID (cs_Connection i) := cs_Node i]> m) m l =
    if decide (l = []) then m else <[cn_ID c := default zero_node (node_map (core d) !! cn_NodeID c)]> m).
  { assert (Hl : Forall (fun x => x = item c) l) by (apply list.Forall_forall; intros x Hx; by apply Hin in Hx as [-> _]).
    clear Hin. induction Hl as [|x l -> Hl IH]; intros m; [done|]. cbn [foldl]. rewrite IH. cbn [item cs_Connection cs_Node].
    case_decide; [done|]. by rewrite insert_insert_eq. }
  rewrite Hfold. case_bool_decide as Hs.
  - assert (item c ∈ l) by (by apply Hin). by destruct l; [set_solver|].
  - destruct l as [|x l]; [done|]. exfalso. apply Hs. by destruct (proj1 (Hin x)) as [_ ?]; [by left|].
Qed.

Lemma hy2Lines_exact tables token now d c summary :
  server_wf (core d) → connections (core d) !! sk_ConnectionID token = Some c →
  Summary now (cn_AccountID c) d = Ok summary →
  hy2Lines tables token summary = connection_lines tables c d.
Proof.
  intros Hwf Hc Hs. unfold hy2Lines, activeSubscriptionConfigs, connection_lines, subscription_configs. cbv zeta.
  rewrite (active_map token now d c summary) by done. case_bool_decide as Ha.
  2: { induction (as_Configs summary) as [|cfg l IH]; [done|]. cbn. rewrite lookup_empty. exact IH. }
  assert (Hcfg : as_Configs summary = filter (fun cfg => ic_ConnectionID cfg ∈
    (list_to_set (cn_ID <$> account_connections (cn_AccountID c) (core d)) : gset string)) (ListIssuedConfigs (core d))).
  { revert Hs. unfold Summary. intros (a & _ & [= <-])%bind_Ok. done. }
  rewrite Hcfg. clear Hcfg Hs. assert (Hmem : cn_ID c ∈ (list_to_set (cn_ID <$> account_connections (cn_AccountID c) (core d)) : gset string)).
  { rewrite elem_of_list_to_set. apply list_elem_of_fmap. exists c. split; [done|]. apply elem_of_account_connections. eauto. }
  induction (ListIssuedConfigs (core d)) as [|cfg l IH]; [done|]. rewrite !filter_cons.
  destruct (decide (ic_ConnectionID cfg = cn_ID c)) as [Hid|Hid].
  - rewrite decide_True by (by rewrite Hid). cbn. rewrite Hid, lookup_singleton_eq. case_bool_decide as Hst.
    + cbn. case_bool_decide as Hk; cbn; [case_bool_decide as Hb; cbn|].
      * rewrite decide_False by tauto. exact IH.
      * rewrite decide_True by done. cbn. f_equal. exact IH.
      * rewrite decide_False by tauto. exact IH.
    + rewrite decide_False by tauto. exact IH.
  - rewrite (decide_False (P := ic_ConnectionID cfg = cn_ID c ∧ _)) by tauto. case_decide; [|exact IH].
    cbn. rewrite lookup_singleton_ne by done. exact IH.
Qed.

(** Touching a token leaves everything else. *)
Lemma touch_core now now' id d : core (TouchConnectionSubscriptionToken now now' id d) = core d.
Proof. done. Qed.

Lemma Summary_core now id d d' :
  core d' = core d → (∃ s, Summary now id d = Ok s) → ∃ s, Summary now id d' = Ok s.
Proof. intros E (s & (a & Ha & _)%bind_Ok). unfold Summary. rewrite E, Ha. cbn. eauto. Qed.

Lemma usable_connection_Some id d c :
  usable_connection id d = Some c ↔ connections (core d) !! id = Some c ∧ cn_DesiredStatus c ≠ ConnectionStatusDeleted.
Proof.
  unfold usable_connection, GetConnection, get_row. destruct (connections (core d) !! id) as [x|]; [|naive_solver].
  case_bool_decide; naive_solver.
Qed.

Lemma active_account_true id d :
  active_account id d = true ↔ ∃ a, accounts (core d) !! id = Some a ∧ acc_Status a = AccountStatusActive.
Proof.
  unfold active_account, GetAccount, get_row. destruct (accounts (core d) !! id) as [x|]; [|naive_solver].
  rewrite bool_decide_eq_true. naive_solver.
Qed.

Section Accepted.
Context (Hash : string → string) (tables : CaseTables).

Definition bearer (now : time) (raw : string) (d : Database) (token : ConnectionSubscriptionToken) (c : Connection) : Prop :=
  raw ≠ EmptyString ∧ GetConnectionSubscriptionTokenByHash (Hash raw) d = Ok token ∧ accepted now d token c.

Lemma authenticate_accepts clock raw d token c :
  bearer (clock 0) raw d token c →
  authenticateSubscriptionToken Hash clock raw d =
    (TouchConnectionSubscriptionToken (clock 1) (clock 2) (sk_ID token) d, inl token).
Proof.
  intros (Hr & Ht & [H1 H2 H3 H4 H5]). unfold authenticateSubscriptionToken. rewrite bool_decide_eq_false_2 by done.
  rewrite Ht. apply find_row_Ok in Ht as [Hh%bool_decide_eq_true _]. rewrite Hh, H1, H2. rewrite !bool_decide_eq_true_2 by done. cbn.
  rewrite (proj2 (usable_connection_Some _ _ c)) by done. by rewrite (proj2 (active_account_true _ _)).
Qed.

Lemma authenticate_cases clock raw d :
  (∃ token c, bearer (clock 0) raw d token c) ∨
  ∃ answer, authenticateSubscriptionToken Hash clock raw d = (d, inr answer) ∧
    (rs_Status answer = StatusUnauthorized ∨ rs_Status answer = StatusForbidden).
Proof.
  unfold authenticateSubscriptionToken, refuse. case_bool_decide as Hr; [right; eexists; split; [done|]; cbn; tauto|].
  destruct (GetConnectionSubscriptionTokenByHash (Hash raw) d) as [token|e] eqn:Et; [|right; eexists; split; [done|]; cbn; tauto].
  case_bool_decide; [|right; eexists; split; [done|]; cbn; tauto]. cbn [negb].
  case_bool_decide; [|right; eexists; split; [done|]; cbn; tauto]. cbn [negb orb].
  destruct (past _ _) eqn:Hp; [right; eexists; split; [done|]; cbn; tauto|].
  destruct (usable_connection _ d) as [c|] eqn:Eu; [|right; eexists; split; [done|]; cbn; tauto].
  destruct (active_account _ d) eqn:Ea; [|right; eexists; split; [done|]; cbn; tauto].
  apply usable_connection_Some in Eu as [H3 H4]. apply active_account_true in Ea. left. exists token, c.
  split_and!; [done..|]. by constructor.
Qed.

Lemma token_summary_accepted now now' d d' token c :
  accepted now d token c → core d' = core d →
  ∃ s, token_summary now' token d' = Ok s ∧ Summary now' (cn_AccountID c) d' = Ok s.
Proof.
  intros [_ _ Hc _ (a & Ha & _)] Hcore. unfold token_summary, GetConnection, get_row. rewrite Hcore, Hc. cbn [mbind result_bind].
  unfold Summary, GetAccount, get_row. rewrite Hcore, Ha. cbn. eauto.
Qed.

(** C36. A subscription link answers with a subscription exactly to a token that
    is known by its hash, active and not expired, whose connection is not
    deleted and whose account is active; what it then serves is exactly the
    active Hysteria links of that one connection, each with its label, in the
    order they were issued, and nothing while the connection is paused. *)
Theorem subscription_exact clock errorID path d :
  server_wf (core d) →
  let raw := path_tail "/sub/" path in
  let answer := (subscription Hash tables clock errorID "GET" path d).2 in
  (rs_Status answer = StatusOK ↔ ∃ token c, bearer (clock 0) raw d token c) ∧
  ∀ token c, bearer (clock 0) raw d token c →
    let body := Join newline (connection_lines tables c d) in
    rs_Body answer = Base64.encode true (if bool_decide (body = EmptyString) then EmptyString else body +:+ newline).
Proof.
  intros Hwf raw answer.
  assert (Hserved : ∀ token c, bearer (clock 0) raw d token c → ∃ s, Summary (clock 3) (cn_AccountID c)
      (TouchConnectionSubscriptionToken (clock 1) (clock 2) (sk_ID token) d) = Ok s ∧
      answer = text_plain [] (ClosedSubscriptionBody tables token s)).
  { intros token c Hb. unfold answer, subscription. rewrite bool_decide_eq_true_2 by done. cbn [negb].
    rewrite (authenticate_accepts _ _ _ _ c) by done. cbn [snd]. destruct Hb as (_ & _ & Ha).
    destruct (token_summary_accepted _ (clock 3) d (TouchConnectionSubscriptionToken (clock 1) (clock 2) (sk_ID token) d) _ _ Ha)
      as (s & Hs & Hs'); [done|]. exists s. by rewrite Hs. }
  split.
  - split; [|intros (token & c & Hb); by destruct (Hserved _ _ Hb) as (s & _ & ->)].
    intros Hok. destruct (authenticate_cases clock raw d) as [H|(a & Ha & Hst)]; [done|]. exfalso. revert Hok.
    unfold answer, subscription. rewrite bool_decide_eq_true_2 by done. cbn [negb]. fold raw. rewrite Ha. cbn [snd].
    unfold StatusOK, StatusUnauthorized, StatusForbidden in *. lia.
  - intros token c Hb. destruct (Hserved _ _ Hb) as (s & Hs & ->). cbn [rs_Body text_plain]. unfold ClosedSubscriptionBody.
    destruct Hb as (_ & _ & [_ _ Hc _ _]).
    rewrite (hy2Lines_exact tables token (clock 3) (TouchConnectionSubscriptionToken (clock 1) (clock 2) (sk_ID token) d) c s) by done.
    cbv zeta. change (connection_lines tables c (TouchConnectionSubscriptionToken _ _ _ d)) with (connection_lines tables c d).
    by case_bool_decide as Hb; [rewrite Hb|].
Qed.
End Accepted.

(** A QR code shows only what belongs to the account that asks: the text of an
    active configuration of one of its connections, or the link of an active
    short link whose token belongs to one of its connections. *)
Theorem qr_only_own now kind id accountID d value :
  server_wf (core d) → resolveQRCodeValue now kind id accountID d = Ok value →
  ∃ c, connections (core d) !! cn_ID c = Some c ∧ cn_AccountID c = accountID ∧
    ((∃ k cfg, issued_configs (core d) !! k = Some cfg ∧ ic_ConnectionID cfg = cn_ID c ∧ ic_Status cfg = StatusActive ∧
        value = ic_Config cfg) ∨
     (∃ k link k' token, short_links (portal d) !! k = Some link ∧ connection_subscription_tokens (portal d) !! k' = Some token ∧
        sl_SubscriptionTokenID link = sk_ID token ∧ sk_ConnectionID token = cn_ID c ∧ sl_Status link = StatusActive ∧
        sk_Status token = StatusActive ∧ value = sl_EncryptedURL link)).
Proof.
  intros Hwf. unfold resolveQRCodeValue. cbv zeta. destruct (_ || _); [done|]. intros (summary & Hs & H)%bind_Ok. revert H.
  case_bool_decide; [|case_bool_decide; [|done]].
  - unfold qr_config. destruct (list_find _ _) as [[i cfg]|] eqn:E; [|done]. case_bool_decide; [done|]. intros [= <-].
    apply list_find_Some in E as (Hin%list_elem_of_lookup_2 & (_ & Hact & _) & _).
    apply bind_Ok in Hs as (a & _ & [= <-]). cbn [as_Configs] in Hin. rewrite list_elem_of_filter in Hin. destruct Hin as [Hown Hin].
    rewrite elem_of_list_to_set, list_elem_of_fmap in Hown. destruct Hown as (c & Hid & (Hacc & k & Hc)%elem_of_account_connections).
    unfold ListIssuedConfigs, by_created in Hin. rewrite elem_of_order_by in Hin.
    apply list_elem_of_fmap in Hin as ([k' cfg'] & -> & Hk%elem_of_map_to_list).
    exists c. rewrite (wf_id _ Hwf _ _ Hc). split_and!; [done..|]. left. exists k', cfg'. split_and!; [done| |done..].
    by rewrite <-(wf_id _ Hwf _ _ Hc).
  - unfold qr_link. intros (link & Hl%get_row_Ok & Hv)%bind_Ok. destruct (negb _ || _) eqn:El; [done|].
    destruct (list_find _ _) as [[i token]|] eqn:E; [|done]. injection Hv as <-.
    apply list_find_Some in E as (Hin%list_elem_of_lookup_2 & (Hid & Hact & Hc) & _).
    apply bind_Ok in Hc as (c & Hc%get_row_Ok & [= Hacc]).
    unfold ListConnectionSubscriptionTokens, by_created in Hin. rewrite elem_of_order_by in Hin.
    apply list_elem_of_fmap in Hin as ([k' token'] & -> & Hk%elem_of_map_to_list). cbn [snd] in *.
    apply orb_false_elim in El as [El%negb_false_iff%bool_decide_eq_true _].
    exists c. rewrite (wf_id _ Hwf _ _ Hc). split_and!; [done..|]. right. eexists _, link, k', token'. split_and!; done.
Qed.

(** ** A labelled line is still the same link *)
Lemma Encode_user_bytes l : UrlParse.all_bytes UrlParse.user_byte (Url.Encode l) = true.
Proof.
  unfold Url.Encode. induction l as [|kv l IH]; [done|]. cbn [fmap list_fmap]. destruct l as [|kv' l].
  - cbn. unfold Url.encode_pair. by rewrite !UrlParse.all_bytes_append, !UrlParse.QueryEscape_user_bytes.
  - cbn [fmap list_fmap] in *. cbn [Join]. unfold Url.encode_pair at 1.
    rewrite !UrlParse.all_bytes_append, !UrlParse.QueryEscape_user_bytes. exact IH.
Qed.

Lemma FormatInt_digits n : (0 <= n)%Z →
  UrlParse.all_bytes (fun d => bool_decide (48 ≤ nat_of_ascii d ≤ 57)) (Strconv.FormatInt n) = true.
Proof.
  intros Hn. unfold Strconv.FormatInt. rewrite (proj2 (Z.ltb_ge n 0)) by lia.
  assert (H : ∀ acc, UrlParse.all_bytes (fun d => bool_decide (48 ≤ nat_of_ascii d ≤ 57)) acc = true →
    UrlParse.all_bytes (fun d => bool_decide (48 ≤ nat_of_ascii d ≤ 57)) (Strconv.digits (Strconv.digit_fuel n) n acc) = true).
  { generalize (Strconv.digit_fuel n). clear Hn. intros fuel. revert n. induction fuel as [|fuel IH]; intros n acc Ha; [done|].
    cbn [Strconv.digits]. assert (Hd : (0 <= n mod 10 < 10)%Z) by (apply Z.mod_pos_bound; lia).
    assert (Hc : UrlParse.all_bytes (fun d => bool_decide (48 ≤ nat_of_ascii d ≤ 57)) (String (Strconv.digit_char (n mod 10)) acc) = true).
    { cbn [UrlParse.all_bytes]. rewrite Ha, andb_true_r.
      assert (Hx : (n mod 10 = 0 ∨ n mod 10 = 1 ∨ n mod 10 = 2 ∨ n mod 10 = 3 ∨ n mod 10 = 4 ∨ n mod 10 = 5 ∨ n mod 10 = 6 ∨
        n mod 10 = 7 ∨ n mod 10 = 8 ∨ n mod 10 = 9)%Z) by lia.
      by repeat destruct Hx as [Hx|Hx]; rewrite Hx. }
    destruct (n <? 10)%Z; [done|by apply IH]. }
  by apply H.
Qed.

Lemma last_byte P c s : UrlParse.all_bytes P (String c s) = true → ∃ t d, String c s = t +:+ String d EmptyString ∧ P d = true.
Proof.
  revert c. induction s as [|c' s IH]; intros c; cbn [UrlParse.all_bytes]; rewrite andb_true_iff.
  - intros [Hc _]. exists EmptyString, c. by rewrite string_app_nil.
  - intros [_ H]. destruct (IH c' H) as (t & d & -> & Hd). exists (String c t), d. by rewrite string_app_cons.
Qed.

Lemma TrimSpace_line s f :
  UrlParse.all_bytes UrlParse.user_byte f = true → TrimSpace (String "h" (s +:+ String "#" f)) = String "h" (s +:+ String "#" f).
Proof.
  intros Hf. destruct f as [|c f]; [by apply TrimSpace_visible|].
  destruct (last_byte _ _ _ Hf) as (t & d & -> & Hd). change (String "#" (t +:+ String d EmptyString)) with ("#" +:+ (t +:+ String d EmptyString)).
  rewrite <-!str_append_assoc. apply TrimSpace_visible; [done|]. apply UrlParse.user_byte_printable in Hd.
  unfold visible. rewrite andb_true_iff, !Nat.leb_le. lia.
Qed.

Lemma URI_trimmed config connectionID password title :
  TrimSpace (NativeHy2.URI config connectionID password title) = NativeHy2.URI config connectionID password title.
Proof.
  assert (∃ s, NativeHy2.URI config connectionID password title = String "h" (s +:+ String "#" (Url.QueryEscape title))) as [s ->].
  { eexists (String "y" (String "2" ("://" +:+ Url.QueryEscape (TrimSpace connectionID +:+ ":" +:+ password) +:+ "@" +:+
      hc_EndpointHost config +:+ ":" +:+ Strconv.FormatInt (hc_EndpointPort config) +:+ "/?" +:+ Url.Encode (NativeHy2.link_values config)))).
    unfold NativeHy2.URI. repeat (rewrite ?str_append_assoc, ?string_app_cons, ?string_app_nil). reflexivity. }
  apply TrimSpace_line, UrlParse.QueryEscape_user_bytes.
Qed.

Section ReadBack.
Context (tables : CaseTables).

Definition credentials (connectionID password : string) : string :=
  map_string Url.plus_for_space (TrimSpace connectionID +:+ ":" +:+ password).

Lemma map_string_append f s t : map_string f (s +:+ t) = map_string f s +:+ map_string f t.
Proof. induction s as [|c s IH]; rewrite ?string_app_nil, ?string_app_cons; cbn; [done|]. by rewrite IH, string_app_cons. Qed.

Lemma credentials_nonempty connectionID password : credentials connectionID password ≠ EmptyString.
Proof.
  unfold credentials. rewrite !map_string_append. destruct (map_string _ (TrimSpace connectionID)); rewrite ?string_app_nil, ?string_app_cons.
  - cbn. rewrite string_app_cons. discriminate.
  - discriminate.
Qed.

(** The line of a Hysteria connection in a subscription is the link that was
    issued under another title: read as a URL it names the same server, the
    same credentials and the same query as the issued link, and its title is
    the label, whatever bytes the password, the obfuscation password, the issued
    title and the label hold. *)
Theorem subscription_line_read_back config connectionID password title cfg node :
  UrlParse.all_bytes UrlParse.name_byte (hc_EndpointHost config) = true → (0 <= hc_EndpointPort config)%Z →
  ic_Config cfg = NativeHy2.URI config connectionID password title →
  let label := SubscriptionLabel tables (ic_Name cfg) node in
  label ≠ EmptyString →
  ∃ issued served,
    UrlParse.Parse (ic_Config cfg) = Some issued ∧ UrlParse.Parse (FormatSubscriptionLine tables cfg node) = Some served ∧
    UrlParse.Scheme served = "hy2" ∧
    UrlParse.User served = Some (credentials connectionID password, None) ∧ UrlParse.User issued = UrlParse.User served ∧
    UrlParse.Host served = hc_EndpointHost config +:+ ":" +:+ Strconv.FormatInt (hc_EndpointPort config) ∧
    UrlParse.Host issued = UrlParse.Host served ∧
    UrlParse.RawQuery served = Url.Encode (NativeHy2.link_values config) ∧ UrlParse.RawQuery issued = UrlParse.RawQuery served ∧
    UrlParse.Fragment served = label.
Proof.
  intros Hh Hp Hc label Hl. set (port := Strconv.FormatInt (hc_EndpointPort config)). set (q := Url.Encode (NativeHy2.link_values config)).
  assert (Hq : q ≠ EmptyString) by (unfold q, NativeHy2.link_values; by destruct (hc_ObfsEnabled config)).
  assert (Hport : UrlParse.all_bytes (fun d => bool_decide (48 ≤ nat_of_ascii d ≤ 57)) port = true) by (by apply FormatInt_digits).
  assert (Hqb : UrlParse.all_bytes UrlParse.user_byte q = true) by apply Encode_user_bytes.
  set (user := Url.QueryEscape (TrimSpace connectionID +:+ ":" +:+ password)).
  assert (Hu : UrlParse.unescape UrlParse.EncodeUserPassword user = Some (credentials connectionID password)).
  { rewrite UrlParse.unescape_plain_mode by apply UrlParse.plain_user. apply Url.unescape_component. }
  assert (Hf : UrlParse.unescape UrlParse.EncodeFragment (Url.QueryEscape title) = Some (map_string Url.plus_for_space title)).
  { rewrite UrlParse.unescape_plain_mode by apply UrlParse.plain_fragment. apply Url.unescape_component. }
  destruct (UrlParse.Parse_hy2 user _ (hc_EndpointHost config) port q _ _ (UrlParse.QueryEscape_user_bytes _) Hu Hh Hport Hq Hqb Hf)
    as [raw Hissued].
  change (UrlParse.Parse (NativeHy2.URI config connectionID password title) = Some (UrlParse.mkURL "hy2" EmptyString
    (Some (credentials connectionID password, None)) (hc_EndpointHost config +:+ String ":" port) "/" EmptyString false false q
    (map_string Url.plus_for_space title) raw)) in Hissued.
  destruct (UrlParse.String_hy2 (credentials connectionID password) (hc_EndpointHost config) port q label raw)
    as (frag & Hfrag & Htext); [apply credentials_nonempty|done..|].
  destruct (UrlParse.Parse_hy2 _ _ (hc_EndpointHost config) port q _ _ (UrlParse.escape_user_bytes _)
    (UrlParse.unescape_escape _ (credentials connectionID password) UrlParse.plain_user) Hh Hport Hq Hqb Hfrag) as [raw' Hserved].
  assert (Htrim : TrimSpace (ic_Config cfg) = ic_Config cfg) by (rewrite Hc; apply URI_trimmed).
  assert (Hline : FormatSubscriptionLine tables cfg node =
    "hy2://" +:+ UrlParse.escape UrlParse.EncodeUserPassword (credentials connectionID password) +:+ "@" +:+
      hc_EndpointHost config +:+ ":" +:+ port +:+ "/?" +:+ q +:+ "#" +:+ frag).
  { unfold FormatSubscriptionLine. rewrite Htrim. cbv zeta. rewrite bool_decide_eq_false_2 by (rewrite Hc; discriminate).
    fold label. rewrite bool_decide_eq_false_2 by done. rewrite Hc, Hissued. exact Htext. }
  exists (UrlParse.mkURL "hy2" EmptyString (Some (credentials connectionID password, None)) (hc_EndpointHost config +:+ String ":" port)
    "/" EmptyString false false q (map_string Url.plus_for_space title) raw). eexists.
  rewrite Hc, Hline. split_and!; [exact Hissued|exact Hserved|reflexivity..].
Qed.
End ReadBack.

(** ** A sample subscription *)
Definition demo_token_op : database_op :=
  DbCreateSubscriptionToken (at_ms 2000) "tok1"
    (mkSubscriptionToken EmptyString "con-a" "secret" "#secret" EmptyString zero_time zero_time zero_time zero_time).
Definition demo_template : string :=
  JsonRead.object [("type", Json.quote "happ_subscription_profile"); ("title", Json.quote "My VPN");
                   ("routing", JsonRead.object [("name", Json.quote "ru"); ("proxy_sites", JsonRead.strings ["a.example"])])].
Definition demo_profile_op : database_op :=
  DbCreateConfigProfile (at_ms 2001) "pro1"
    (mkConfigProfile EmptyString "hysteria2" "hp_subscription" "all" "All" "happ" EmptyString demo_template EmptyString zero_time zero_time).
Definition demo_link_db : Database := exec_dbs [demo_token_op; demo_profile_op] (set_core demo_s0 empty_database).
Definition demo_sha (s : string) : string := "#" +:+ s.
Definition demo_post (i : nat) (body : string) : result (Z * string) :=
  Ok (200, JsonRead.object [("encrypted_link", Json.quote " happ://crypt/abc ")])%Z.
Definition demo_link_fresh : LinkFresh :=
  client_links (fun _ => true) demo_post (fun _ => Ok "short1") (fun path => "https://vpn.example" +:+ path) (fun _ => at_ms 2500)
    (fun _ => "sl1").

Lemma token_profile_core now1 id1 v now2 id2 p d :
  core (exec_dbs [DbCreateSubscriptionToken now1 id1 v; DbCreateConfigProfile now2 id2 p] d) = core d.
Proof.
  cbn. trans (core (CreateConnectionSubscriptionToken now1 id1 v d).1).
  - generalize (CreateConnectionSubscriptionToken now1 id1 v d).1 as d1. intros d1.
    apply (transaction_inv (fun d' => core d' = core d1)); [|done]. by intros d' r (t & _ & [= <- _])%bind_Ok.
  - apply (transaction_inv (fun d' => core d' = core d)); [|done]. by intros d' r (u & _ & (t & _ & [= <- _])%bind_Ok)%bind_Ok.
Qed.

Lemma core_set_core s d : core (set_core s d) = s.
Proof. done. Qed.
Lemma portal_wf_fresh s : portal_wf (set_core s empty_database).
Proof. apply portal_wf_core; [by intros id [x Hx]..|apply portal_wf_empty]. Qed.

Lemma demo_link_db_wf : portal_wf demo_link_db ∧ server_wf (core demo_link_db).
Proof.
  unfold demo_link_db. split; [exact (proj1 (exec_dbs_keeps _ _ (portal_wf_fresh _)))|].
  unfold demo_token_op, demo_profile_op. rewrite token_profile_core, core_set_core. exact demo_s0_wf.
Qed.

Definition demo_link_token : ConnectionSubscriptionToken :=
  mkSubscriptionToken "tok1" "con-a" "secret" "#secret" StatusActive zero_time zero_time (at_ms 2000) (at_ms 2000).
Definition demo_link_call : Database * result ShortLink :=
  GetOrCreateHPShortLink demo_link_fresh demo_link_token "all" demo_link_db.

Lemma demo_link_call_ok : ∃ d' link, demo_link_call = (d', Ok link) ∧ sl_EncryptedURL link = "happ://crypt/abc".
Proof.
  assert (H : match demo_link_call.2 with Ok link => sl_EncryptedURL link = "happ://crypt/abc" | Err _ => False end)
    by (vm_compute; reflexivity).
  destruct demo_link_call as [d' [link|e]]; [eauto|done].
Qed.

#[local] Opaque demo_link_db demo_link_token.

(** The token is asked for a link, its connection is put on hold and another
    request with other identifiers comes in. *)
Definition demo_other_fresh : LinkFresh :=
  mkLinkFresh (fun _ => Err "no entropy") id (fun _ _ => Err "down") (fun _ => zero_time) (fun _ => "other").

Lemma short_link_stable_witness : ∃ d' link, demo_link_call = (d', Ok link) ∧
  GetOrCreateHPShortLink demo_other_fresh demo_link_token "all" (exec_dbs [DbCore demo_hold] d') = (exec_dbs [DbCore demo_hold] d', Ok link).
Proof.
  destruct demo_link_call_ok as (d' & link & E & _). exists d', link. split; [exact E|].
  unfold demo_link_call, demo_link_fresh in E.
  pose proof (short_link_stable demo_other_fresh _ _ _ _ _ _ _ _ _ _ _ [DbCore demo_hold] (proj1 demo_link_db_wf) E) as H.
  exact (proj2 (proj2 H)).
Defined.

Lemma bearer_intro Hash now raw d t c a :
  raw ≠ EmptyString → GetConnectionSubscriptionTokenByHash (Hash raw) d = Ok t →
  (sk_Status t, sk_ExpiresAt t) = (StatusActive, zero_time) → connections (core d) !! sk_ConnectionID t = Some c →
  cn_DesiredStatus c = ConnectionStatusActive → accounts (core d) !! cn_AccountID c = Some a → acc_Status a = AccountStatusActive →
  bearer Hash now raw d t c.
Proof.
  intros Hr Ht [= H1 H2] Hc Hs Ha Hact. split_and!; [done..|]. constructor; [done|by rewrite H2|done|by rewrite Hs|eauto].
Qed.

Definition demo_rows (d : Database) : option (ConnectionSubscriptionToken * Connection * Account) :=
  match GetConnectionSubscriptionTokenByHash "#secret" d with
  | Ok t => c ← connections (core d) !! sk_ConnectionID t; a ← accounts (core d) !! cn_AccountID c; Some (t, c, a)
  | Err _ => None
  end.
Lemma demo_rows_bearer d :
  match demo_rows d with
  | Some (t, c, a) => (sk_Status t, sk_ExpiresAt t) = (StatusActive, zero_time) ∧ cn_DesiredStatus c = ConnectionStatusActive ∧
                      acc_Status a = AccountStatusActive
  | None => False
  end → ∃ t c, bearer demo_sha (at_ms 3000) "secret" d t c.
Proof.
  unfold demo_rows. destruct (GetConnectionSubscriptionTokenByHash "#secret" d) as [t|] eqn:Et; [|done].
  destruct (connections (core d) !! sk_ConnectionID t) as [c|] eqn:Ec; [|done]. cbn [mbind option_bind].
  destruct (accounts (core d) !! cn_AccountID c) as [a|] eqn:Ea; [|done]. cbn [mbind option_bind]. intros (H1 & H2 & H3).
  exists t, c. by eapply bearer_intro.
Qed.
Lemma demo_bearer : ∃ t c, bearer demo_sha (at_ms 3000) "secret" demo_link_db t c.
Proof. apply demo_rows_bearer. vm_compute. split_and!; reflexivity. Qed.

Lemma subscription_exact_witness :
  rs_Status (subscription demo_sha ascii_tables (fun _ => at_ms 3000) "err_1" "GET" "/sub/secret" demo_link_db).2 = StatusOK.
Proof.
  apply (proj1 (subscription_exact demo_sha ascii_tables (fun _ => at_ms 3000) "err_1" "/sub/secret" demo_link_db (proj2 demo_link_db_wf))).
  exact demo_bearer.
Defined.

(** What is served for it, decoded. *)
Example demo_subscription_body :
  rs_Body (hpSubscription demo_sha ascii_tables (fun _ => at_ms 3000) "err_1" "GET" "/hp/secret/" "" demo_link_db).2 =
    "hy2:#" +:+ UrlParse.escape UrlParse.EncodeFragment (indicator "D" +:+ indicator "E" +:+ " Germany " +:+ middle_dot +:+ " phone") +:+ newline.
Proof. vm_compute. reflexivity. Qed.

Definition demo_issued : IssuedConfig :=
  NativeHy2.NewIssuedConfig demo_hy2_config "con-a" "p@ss/?#" "phone".

Lemma subscription_line_read_back_witness : ∃ served,
  UrlParse.Parse (FormatSubscriptionLine ascii_tables demo_issued demo_node) = Some served ∧
  UrlParse.User served = Some ("con-a:p@ss/?#", None) ∧ UrlParse.Host served = "fra.example.net:443".
Proof.
  destruct (subscription_line_read_back ascii_tables demo_hy2_config "con-a" "p@ss/?#" "phone" demo_issued demo_node)
    as (issued & served & _ & H & _ & Hu & _ & Hh & _);
    [vm_compute; reflexivity|vm_compute; discriminate|reflexivity|vm_compute; discriminate|].
  exists served. split_and!; [exact H|exact Hu|exact Hh].
Defined.

Lemma CreateShortLink_core now newID v d : core (CreateShortLink now newID v d).1 = core d.
Proof.
  apply (transaction_inv (fun d' => core d' = core d)); [|done]. by intros d' r (u & _ & (t & _ & [= <- _])%bind_Ok)%bind_Ok.
Qed.
Definition demo_qr_db : Database :=
  (CreateShortLink (at_ms 2600) "sl2" (mkShortLink "short2" "tok1" "all" "happ://crypt/xyz" EmptyString zero_time) demo_link_db).1.
Lemma demo_qr_db_wf : server_wf (core demo_qr_db).
Proof. unfold demo_qr_db. rewrite CreateShortLink_core. exact (proj2 demo_link_db_wf). Qed.

Lemma qr_only_own_witness : ∃ c, connections (core demo_qr_db) !! cn_ID c = Some c ∧ cn_AccountID c = "acc".
Proof.
  destruct (qr_only_own (at_ms 3000) "hp_link" " short2 " "acc" demo_qr_db "happ://crypt/xyz" demo_qr_db_wf) as (c & H1 & H2 & _);
    [vm_compute; reflexivity|].
  exists c. split; [exact H1|exact H2].
Defined.

(** ** A token that has run out *)
Lemma create_subscription_refused now newID v d k t :
  connection_subscription_tokens (portal d) !! k = Some t → sk_Status t = StatusActive →
  sk_ConnectionID t = sk_ConnectionID v → or_default (sk_Status v) StatusActive = StatusActive →
  ∃ e, CreateConnectionSubscriptionToken now newID v d = (d, Err e).
Proof.
  intros Ht Hs Hc Hv. destruct (CreateConnectionSubscriptionToken now newID v d) as [d' [a|e]] eqn:E;
    unfold CreateConnectionSubscriptionToken in E.
  2: { apply transaction_Err in E as [-> _]. eauto. }
  rewrite transaction_Ok in E. cbv zeta in E. apply bind_Ok in E as (u & _ & (t' & (_ & _ & Hn)%insert_unique_Ok & _)%bind_Ok).
  specialize (Hn _ _ Ht). apply or_clash_false in Hn as [_ Hn]. destruct Hn. by split_and!.
Qed.

(** The active subscription token of a connection cannot be replaced once it has
    run out: it is never offered again, and the unique index refuses every new
    one. *)
Theorem expired_token_blocks Hash clock newID fresh connectionID expiresAt d k t :
  portal_wf d → connection_subscription_tokens (portal d) !! k = Some t →
  sk_ConnectionID t = connectionID → sk_Status t = StatusActive → past (clock 0) (sk_ExpiresAt t) = true →
  ∃ e, GetOrCreateSubscription Hash clock newID fresh connectionID expiresAt d = (d, Err e).
Proof.
  intros Hwf Ht Hc Hs Hp. unfold GetOrCreateSubscription. cbv zeta.
  destruct (if IsZero expiresAt then _ else _) as [[i item]|] eqn:E.
  - destruct (IsZero expiresAt); [|done].
    apply list_find_Some in E as (Hin%list_elem_of_lookup_2 & (Hc' & Hr) & _). exfalso.
    unfold ListConnectionSubscriptionTokens, by_created in Hin. rewrite elem_of_order_by in Hin.
    apply list_elem_of_fmap in Hin as ([k' item'] & -> & Hi%elem_of_map_to_list). cbn in *.
    unfold reusable in Hr. rewrite !andb_true_iff, bool_decide_eq_true in Hr. destruct Hr as [[Hs' _] Hr].
    assert (k' = k) as -> by (eapply (pw_subscription_active _ Hwf); [exact Hi|exact Ht|done|done|congruence]).
    assert (item' = t) as -> by congruence. unfold past in Hp. by destruct (IsZero (sk_ExpiresAt t)), (After _ _).
  - destruct fresh as [raw|e]; [|by eexists].
    edestruct (create_subscription_refused (clock 1) newID) as [e ->]; [exact Ht|done|exact Hc|done|]. cbn. by eexists.
Qed.
