(* ===== verification/AuthStore.v ===== *)
(** * AuthStore: the identity database

    The authentication part of [src/internal/server/storage/sqlite.go] over
    the tables of [authmigrations/sql/00001_auth_schema.sql]: identities, their
    credentials, sessions, refresh tokens, recovery codes, administrator
    profiles and invitations.  As in [ServerStore], the clock and fresh
    identifiers are arguments, unique indexes are errors of the writes they
    guard, and a comparison of two time columns compares their texts. *)

From S2P Require Import Prelude GoLib Sql ServerModel ServerStore Tables.
Import GoTime GoStrings.

(** ** Rows *)
Definition AuthIdentityKindAdmin : string := "admin".
Definition AuthIdentityKindUser : string := "user".
Definition AuthCredentialTypePassword : string := "password".
Definition AdminRoleOwner : string := "owner".
Definition AdminRoleAdmin : string := "admin".
Definition AdminRoleViewer : string := "viewer".
Definition AdminInviteStatusActive : string := "active".
Definition AdminInviteStatusUsed : string := "used".
Definition AdminInviteStatusRevoked : string := "revoked".
Definition AuthRefreshTokenStatusActive : string := "active".
Definition AuthRefreshTokenStatusRotated : string := "rotated".
Definition AuthRefreshTokenStatusRevoked : string := "revoked".
Definition AuthRefreshTokenStatusReused : string := "reused".

Record AuthIdentity := mkAuthIdentity {
  id_ID : string;
  id_Kind : string;
  id_Login : string;
  id_DisplayName : string;
  id_AccountID : string;
  id_Status : string;
  id_MustChangePassword : bool;
  id_VerifiedAt : time;
  id_CreatedAt : time;
  id_UpdatedAt : time;
}.

Record AuthCredential := mkAuthCredential {
  cr_ID : string;
  cr_IdentityID : string;
  cr_Type : string;
  cr_SecretHash : string;
  cr_FailedAttempts : Z;
  cr_LockedUntil : time;
  cr_Status : string;
  cr_CreatedAt : time;
  cr_UpdatedAt : time;
}.

Record AuthSession := mkAuthSession {
  se_ID : string;
  se_IdentityID : string;
  se_AccountID : string;
  se_TokenHash : string;
  se_RefreshTokenHash : string;
  se_RefreshExpiresAt : time;
  se_RefreshAbsoluteUntil : time;
  se_Status : string;
  se_ExpiresAt : time;
  se_LastUsedAt : time;
  se_LastSeenAt : time;
  se_OnlineUntil : time;
  se_CreatedAt : time;
  se_UpdatedAt : time;
}.

Record AuthRefreshToken := mkAuthRefreshToken {
  rt_ID : string;
  rt_TokenHash : string;
  rt_SessionID : string;
  rt_IdentityID : string;
  rt_FamilyID : string;
  rt_Status : string;
  rt_ExpiresAt : time;
  rt_AbsoluteExpiresAt : time;
  rt_RotatedAt : time;
  rt_LastUsedAt : time;
  rt_CreatedAt : time;
  rt_UpdatedAt : time;
}.

Record RefreshTokenRotation := mkRotation {
  ro_Session : AuthSession;
  ro_RefreshToken : AuthRefreshToken;
  ro_GraceRefreshToken : option AuthRefreshToken;
  ro_Grace : bool;
}.

Record AuthRecoveryCode := mkAuthRecoveryCode {
  rcv_ID : string;
  rcv_IdentityID : string;
  rcv_CodeHash : string;
  rcv_Status : string;
  rcv_UsedAt : time;
  rcv_CreatedAt : time;
  rcv_UpdatedAt : time;
}.

Record AdminProfile := mkAdminProfile {
  pr_ID : string;
  pr_IdentityID : string;
  pr_Role : string;
  pr_Status : string;
  pr_CreatedAt : time;
  pr_UpdatedAt : time;
}.

Record AdminIdentityProfile := mkAdminIdentityProfile {
  aip_Identity : AuthIdentity;
  aip_Profile : AdminProfile;
  aip_LastSeenAt : time;
  aip_OnlineUntil : time;
  aip_Online : bool;
}.

Record AdminInvite := mkAdminInvite {
  inv_ID : string;
  inv_TokenHash : string;
  inv_CodeHash : string;
  inv_Role : string;
  inv_Status : string;
  inv_ExpiresAt : time;
  inv_InvitedByIdentityID : string;
  inv_InvitedByLoginSnapshot : string;
  inv_UsedByIdentityID : string;
  inv_UsedAt : time;
  inv_RevokedAt : time;
  inv_Note : string;
  inv_CreatedAt : time;
  inv_UpdatedAt : time;
}.

Record AuthDB := mkAuthDB {
  auth_identities : gmap string AuthIdentity;
  auth_credentials : gmap string AuthCredential;
  auth_sessions : gmap string AuthSession;
  auth_refresh_tokens : gmap string AuthRefreshToken;
  auth_recovery_codes : gmap string AuthRecoveryCode;
  admin_profiles : gmap string AdminProfile;
  admin_invites : gmap string AdminInvite;
}.

Definition empty_auth : AuthDB := mkAuthDB ∅ ∅ ∅ ∅ ∅ ∅ ∅.

Definition set_identities v d := mkAuthDB v (auth_credentials d) (auth_sessions d) (auth_refresh_tokens d)
  (auth_recovery_codes d) (admin_profiles d) (admin_invites d).
Definition set_credentials v d := mkAuthDB (auth_identities d) v (auth_sessions d) (auth_refresh_tokens d)
  (auth_recovery_codes d) (admin_profiles d) (admin_invites d).
Definition set_sessions v d := mkAuthDB (auth_identities d) (auth_credentials d) v (auth_refresh_tokens d)
  (auth_recovery_codes d) (admin_profiles d) (admin_invites d).
Definition set_tokens v d := mkAuthDB (auth_identities d) (auth_credentials d) (auth_sessions d) v
  (auth_recovery_codes d) (admin_profiles d) (admin_invites d).
Definition set_recovery v d := mkAuthDB (auth_identities d) (auth_credentials d) (auth_sessions d)
  (auth_refresh_tokens d) v (admin_profiles d) (admin_invites d).
Definition set_profiles v d := mkAuthDB (auth_identities d) (auth_credentials d) (auth_sessions d)
  (auth_refresh_tokens d) (auth_recovery_codes d) v (admin_invites d).
Definition set_invites v d := mkAuthDB (auth_identities d) (auth_credentials d) (auth_sessions d)
  (auth_refresh_tokens d) (auth_recovery_codes d) (admin_profiles d) v.

(** ** Identities *)

(** [unique (login) where kind = 'admin' and status = 'active'] *)
Definition active_admin (i : AuthIdentity) : bool :=
  bool_decide (id_Kind i = AuthIdentityKindAdmin) && bool_decide (id_Status i = StatusActive).
Definition login_clash (new old : AuthIdentity) : bool :=
  active_admin new && active_admin old && bool_decide (id_Login new = id_Login old).

Definition CreateAuthIdentity (now : time) (newID : string) (i : AuthIdentity) : goM AuthDB AuthIdentity :=
  transaction (fun d =>
    let i := mkAuthIdentity (or_default (id_ID i) newID) (id_Kind i) (id_Login i) (id_DisplayName i) (id_AccountID i)
               (or_default (id_Status i) StatusActive) (id_MustChangePassword i) (id_VerifiedAt i) now now in
    t ← insert_unique (id_ID i) i (login_clash i) (auth_identities d);
    Ok (set_identities t d, i)).

Definition GetAuthIdentity (id : string) (d : AuthDB) : result AuthIdentity := get_row (auth_identities d) id.

(** The kind and the creation time stay as they are. *)
Definition write_identity (now : time) (new old : AuthIdentity) : AuthIdentity :=
  mkAuthIdentity (id_ID old) (id_Kind old) (id_Login new) (id_DisplayName new) (id_AccountID new) (id_Status new)
    (id_MustChangePassword new) (id_VerifiedAt new) (id_CreatedAt old) now.

Definition UpdateAuthIdentity (now : time) (i : AuthIdentity) : goM AuthDB AuthIdentity := fun d =>
  match update_unique (id_ID i) (write_identity now i) login_clash (auth_identities d) with
  | Err e => (d, Err e)
  | Ok t => let d := set_identities t d in (d, GetAuthIdentity (id_ID i) d)
  end.

Definition FindActiveAdminIdentityByLogin (login : string) (d : AuthDB) : result AuthIdentity :=
  find_row (fun i => bool_decide (id_Kind i = AuthIdentityKindAdmin) && bool_decide (id_Login i = login) &&
                     bool_decide (id_Status i = StatusActive)) (auth_identities d).

Definition FindActiveUserIdentityByAccountID (accountID : string) (d : AuthDB) : result AuthIdentity :=
  find_row (fun i => bool_decide (id_Kind i = AuthIdentityKindUser) && bool_decide (id_AccountID i = accountID) &&
                     bool_decide (id_Status i = StatusActive)) (auth_identities d).

(** ** Administrator profiles *)
Definition profile_clash (new old : AdminProfile) : bool := bool_decide (pr_IdentityID new = pr_IdentityID old).

Definition CreateAdminProfile (now : time) (newID : string) (p : AdminProfile) : goM AuthDB AdminProfile :=
  transaction (fun d =>
    let p := mkAdminProfile (or_default (pr_ID p) newID) (pr_IdentityID p) (pr_Role p)
               (or_default (pr_Status p) StatusActive) now now in
    t ← insert_unique (pr_ID p) p (profile_clash p) (admin_profiles d);
    Ok (set_profiles t d, p)).

Definition GetAdminProfile (identityID : string) (d : AuthDB) : result AdminProfile :=
  find_row (fun p => bool_decide (pr_IdentityID p = identityID)) (admin_profiles d).

Definition UpdateAdminProfile (now : time) (p : AdminProfile) : goM AuthDB AdminProfile := fun d =>
  let d := set_profiles (alter (fun old => mkAdminProfile (pr_ID old) (pr_IdentityID old) (pr_Role p) (pr_Status p)
                                  (pr_CreatedAt old) now) (pr_ID p) (admin_profiles d)) d in
  (d, GetAdminProfile (pr_IdentityID p) d).

(** [max(column)]: the greatest text; null, the zero time, when there is none. *)
Definition max_time (l : list time) : time :=
  foldr (fun t m => if IsZero m || bool_decide (str_lt (ts m) (ts t)) then t else m) zero_time
    (filter (fun t => IsZero t = false) l).

(** The profiles of an identity, one row each, with the last sign of life of
    its active sessions. *)
Definition identity_profiles (now : time) (d : AuthDB) (i : AuthIdentity) : list AdminIdentityProfile :=
  let sessions := sql_select (fun s => bool_decide (se_IdentityID s = id_ID i) && bool_decide (se_Status s = StatusActive))
                    (auth_sessions d) in
  let until := max_time (se_OnlineUntil <$> sessions) in
  (fun p => mkAdminIdentityProfile i p (max_time (se_LastSeenAt <$> sessions)) until
              (negb (IsZero until) && Before now until)) <$>
  sql_select (fun p => bool_decide (pr_IdentityID p = id_ID i)) (admin_profiles d).

Definition ListAdminIdentityProfiles (now : time) (d : AuthDB) : list AdminIdentityProfile :=
  flat_map (identity_profiles now d)
    (order_by (fun i => (ts (id_CreatedAt i), id_ID i))
       (sql_select (fun i => bool_decide (id_Kind i = AuthIdentityKindAdmin)) (auth_identities d))).

(** ** Invitations *)
Definition CreateAdminInvite (now : time) (newID : string) (v : AdminInvite) : goM AuthDB AdminInvite :=
  transaction (fun d =>
    let v := mkAdminInvite (or_default (inv_ID v) newID) (inv_TokenHash v) (inv_CodeHash v) (inv_Role v)
               (or_default (inv_Status v) AdminInviteStatusActive) (inv_ExpiresAt v) (inv_InvitedByIdentityID v)
               (inv_InvitedByLoginSnapshot v) (inv_UsedByIdentityID v) (inv_UsedAt v) (inv_RevokedAt v) (inv_Note v)
               now now in
    t ← insert_unique (inv_ID v) v (fun old => bool_decide (inv_TokenHash old = inv_TokenHash v)) (admin_invites d);
    Ok (set_invites t d, v)).

(** [order by created_at desc]; each invitation with the login and the name of
    the identity that used it. *)
Definition ListAdminInvites (d : AuthDB) : list (AdminInvite * string * string) :=
  (fun v => match auth_identities d !! inv_UsedByIdentityID v with
            | Some i => (v, id_Login i, id_DisplayName i)
            | None => (v, EmptyString, EmptyString)
            end) <$>
  reverse (order_by (fun v => (ts (inv_CreatedAt v), inv_ID v)) (map_to_list (admin_invites d)).*2).

Definition GetAdminInvite (id : string) (d : AuthDB) : result AdminInvite := get_row (admin_invites d) id.

Definition GetAdminInviteByTokenHash (tokenHash : string) (d : AuthDB) : result AdminInvite :=
  find_row (fun v => bool_decide (inv_TokenHash v = tokenHash)) (admin_invites d).

Definition FindActiveSystemOwnerInvite (at_ : time) (d : AuthDB) : result AdminInvite :=
  first_row (reverse (order_by (fun v => (ts (inv_CreatedAt v), inv_ID v))
    (sql_select (fun v => bool_decide (inv_Status v = AdminInviteStatusActive) &&
                          bool_decide (inv_Role v = AdminRoleOwner) &&
                          bool_decide (inv_InvitedByIdentityID v = EmptyString) &&
                          bool_decide (inv_InvitedByLoginSnapshot v = "system") &&
                          bool_decide (str_lt (ts at_) (ts (inv_ExpiresAt v)))) (admin_invites d)))).

Definition close_invite (status identityID : string) (usedAt revokedAt now : time) (v : AdminInvite) : AdminInvite :=
  mkAdminInvite (inv_ID v) (inv_TokenHash v) (inv_CodeHash v) (inv_Role v) status (inv_ExpiresAt v)
    (inv_InvitedByIdentityID v) (inv_InvitedByLoginSnapshot v) identityID usedAt revokedAt (inv_Note v)
    (inv_CreatedAt v) now.

(** [update .. where id = ? and status = 'active'], an error when no row was. *)
Definition update_active_invite (id : string) (f : AdminInvite → AdminInvite) : goM AuthDB AdminInvite := fun d =>
  match admin_invites d !! id with
  | Some v => if bool_decide (inv_Status v = AdminInviteStatusActive)
              then let d := set_invites (<[id := f v]> (admin_invites d)) d in (d, GetAdminInvite id d)
              else (d, Err ErrNotFound)
  | None => (d, Err ErrNotFound)
  end.

Definition MarkAdminInviteUsed (now : time) (inviteID identityID : string) : goM AuthDB AdminInvite :=
  update_active_invite inviteID
    (fun v => close_invite AdminInviteStatusUsed identityID now (inv_RevokedAt v) now v).

Definition RevokeAdminInvite (now : time) (inviteID : string) : goM AuthDB AdminInvite :=
  update_active_invite inviteID
    (fun v => close_invite AdminInviteStatusRevoked (inv_UsedByIdentityID v) (inv_UsedAt v) now now v).

(** ** Credentials *)

(** [unique (identity_id, type) where status != 'deleted'] *)
Definition credential_clash (new old : AuthCredential) : bool :=
  negb (bool_decide (cr_Status new = StatusDeleted)) && negb (bool_decide (cr_Status old = StatusDeleted)) &&
  bool_decide (cr_IdentityID new = cr_IdentityID old) && bool_decide (cr_Type new = cr_Type old).

Definition CreateAuthCredential (now : time) (newID : string) (c : AuthCredential) : goM AuthDB AuthCredential :=
  transaction (fun d =>
    let c := mkAuthCredential (or_default (cr_ID c) newID) (cr_IdentityID c) (cr_Type c) (cr_SecretHash c)
               (cr_FailedAttempts c) (cr_LockedUntil c) (or_default (cr_Status c) StatusActive) now now in
    t ← insert_unique (cr_ID c) c (credential_clash c) (auth_credentials d);
    Ok (set_credentials t d, c)).

Definition GetAuthCredential (identityID credentialType : string) (d : AuthDB) : result AuthCredential :=
  find_row (fun c => bool_decide (cr_IdentityID c = identityID) && bool_decide (cr_Type c = credentialType) &&
                     negb (bool_decide (cr_Status c = StatusDeleted))) (auth_credentials d).

Definition write_credential (now : time) (new old : AuthCredential) : AuthCredential :=
  mkAuthCredential (cr_ID old) (cr_IdentityID old) (cr_Type old) (cr_SecretHash new) (cr_FailedAttempts new)
    (cr_LockedUntil new) (cr_Status new) (cr_CreatedAt old) now.

Definition UpdateAuthCredential (now : time) (c : AuthCredential) : goM AuthDB AuthCredential := fun d =>
  match update_unique (cr_ID c) (write_credential now c) credential_clash (auth_credentials d) with
  | Err e => (d, Err e)
  | Ok t => let d := set_credentials t d in (d, GetAuthCredential (cr_IdentityID c) (cr_Type c) d)
  end.

(** ** Recovery codes *)
Definition CreateAuthRecoveryCode (now : time) (newID : string) (c : AuthRecoveryCode) : goM AuthDB AuthRecoveryCode :=
  transaction (fun d =>
    let c := mkAuthRecoveryCode (or_default (rcv_ID c) newID) (rcv_IdentityID c) (rcv_CodeHash c)
               (or_default (rcv_Status c) StatusActive) (rcv_UsedAt c) now now in
    t ← sql_insert ErrUniqueIndex (rcv_ID c) c (auth_recovery_codes d);
    Ok (set_recovery t d, c)).

Definition ListAuthRecoveryCodes (identityID : string) (d : AuthDB) : list AuthRecoveryCode :=
  order_by (fun c => (ts (rcv_CreatedAt c), rcv_ID c))
    (sql_select (fun c => bool_decide (rcv_IdentityID c = identityID)) (auth_recovery_codes d)).

Definition MarkAuthRecoveryCodeUsed (now : time) (id : string) : goM AuthDB AuthRecoveryCode := fun d =>
  let d := set_recovery (alter (fun c => mkAuthRecoveryCode (rcv_ID c) (rcv_IdentityID c) (rcv_CodeHash c) StatusDeleted
                                  now (rcv_CreatedAt c) now) id (auth_recovery_codes d)) d in
  (d, get_row (auth_recovery_codes d) id).

(** ** Sessions and refresh tokens *)
Definition session_clash (new old : AuthSession) : bool := bool_decide (se_TokenHash new = se_TokenHash old).
Definition token_clash (new old : AuthRefreshToken) : bool := bool_decide (rt_TokenHash new = rt_TokenHash old).

(** Fresh ids of a call: the session, the token, the token family. *)
Record AuthIDs := mkAuthIDs { ai_session : string; ai_token : string; ai_family : string }.

Definition first_token (now : time) (ids : AuthIDs) (s : AuthSession) : AuthRefreshToken :=
  mkAuthRefreshToken (ai_token ids) (se_RefreshTokenHash s) (se_ID s) (se_IdentityID s) (ai_family ids)
    AuthRefreshTokenStatusActive (se_RefreshExpiresAt s) (se_RefreshAbsoluteUntil s) zero_time zero_time now now.

Definition CreateAuthSession (now : time) (ids : AuthIDs) (s : AuthSession) : goM AuthDB AuthSession :=
  transaction (fun d =>
    let s := mkAuthSession (or_default (se_ID s) (ai_session ids)) (se_IdentityID s) (se_AccountID s) (se_TokenHash s)
               (se_RefreshTokenHash s) (se_RefreshExpiresAt s) (se_RefreshAbsoluteUntil s)
               (or_default (se_Status s) StatusActive) (se_ExpiresAt s) (se_LastUsedAt s) (se_LastSeenAt s)
               (se_OnlineUntil s) now now in
    ss ← insert_unique (se_ID s) s (session_clash s) (auth_sessions d);
    let d := set_sessions ss d in
    if bool_decide (se_RefreshTokenHash s = EmptyString) then Ok (d, s)
    else
      let t := first_token now ids s in
      tt' ← insert_unique (rt_ID t) t (token_clash t) (auth_refresh_tokens d);
      Ok (set_tokens tt' d, s)).

Definition GetAuthSessionByTokenHash (tokenHash : string) (d : AuthDB) : result AuthSession :=
  find_row (fun s => bool_decide (se_TokenHash s = tokenHash)) (auth_sessions d).

Definition GetActiveAuthSessionByTokenHash (tokenHash : string) (d : AuthDB) : result AuthSession :=
  find_row (fun s => bool_decide (se_TokenHash s = tokenHash) && bool_decide (se_Status s = StatusActive))
    (auth_sessions d).

(** [join auth_refresh_tokens rt on rt.session_id = auth_sessions.id], for the
    tokens with one hash that satisfy [P]. *)
Definition session_of_token (P : AuthRefreshToken → bool) (refreshHash : string) (d : AuthDB) : result AuthSession :=
  first_row (omap (fun t =>
      match auth_sessions d !! rt_SessionID t with
      | Some s => if bool_decide (se_Status s = StatusActive) then Some s else None
      | None => None
      end)
    (sql_select (fun t => bool_decide (rt_TokenHash t = refreshHash) && P t) (auth_refresh_tokens d))).

Definition GetActiveAuthSessionByRefreshHash (refreshHash : string) : AuthDB → result AuthSession :=
  session_of_token (fun t => bool_decide (rt_Status t = AuthRefreshTokenStatusActive)) refreshHash.

(** Active, or rotated no longer than the grace window ago, by the text of the
    two times. *)
Definition rotatable (now : time) (graceWindow : duration) (t : AuthRefreshToken) : bool :=
  bool_decide (rt_Status t = AuthRefreshTokenStatusActive) ||
  (bool_decide (rt_Status t = AuthRefreshTokenStatusRotated) && negb (IsZero (rt_RotatedAt t)) &&
   bool_decide (String.le (ts (Add now (- graceWindow)%Z)) (ts (rt_RotatedAt t)))).

Definition GetAuthSessionByRefreshHashForRotation (now : time) (refreshHash : string) (graceWindow : duration)
    : AuthDB → result AuthSession :=
  session_of_token (rotatable now graceWindow) refreshHash.

Definition set_token_status (status : string) (now : time) (t : AuthRefreshToken) : AuthRefreshToken :=
  mkAuthRefreshToken (rt_ID t) (rt_TokenHash t) (rt_SessionID t) (rt_IdentityID t) (rt_FamilyID t) status
    (rt_ExpiresAt t) (rt_AbsoluteExpiresAt t) (rt_RotatedAt t) (rt_LastUsedAt t) (rt_CreatedAt t) now.

Definition use_token (status : string) (rotatedAt now : time) (t : AuthRefreshToken) : AuthRefreshToken :=
  mkAuthRefreshToken (rt_ID t) (rt_TokenHash t) (rt_SessionID t) (rt_IdentityID t) (rt_FamilyID t) status
    (rt_ExpiresAt t) (rt_AbsoluteExpiresAt t) rotatedAt now (rt_CreatedAt t) now.

Definition set_session_status (status : string) (now : time) (s : AuthSession) : AuthSession :=
  mkAuthSession (se_ID s) (se_IdentityID s) (se_AccountID s) (se_TokenHash s) (se_RefreshTokenHash s)
    (se_RefreshExpiresAt s) (se_RefreshAbsoluteUntil s) status (se_ExpiresAt s) (se_LastUsedAt s) (se_LastSeenAt s)
    (se_OnlineUntil s) (se_CreatedAt s) now.

Definition renew_session (tokenHash : string) (expiresAt : time) (refreshHash : string) (refreshExpiresAt now : time)
    (s : AuthSession) : AuthSession :=
  mkAuthSession (se_ID s) (se_IdentityID s) (se_AccountID s) tokenHash refreshHash refreshExpiresAt
    (se_RefreshAbsoluteUntil s) (se_Status s) expiresAt now (se_LastSeenAt s) (se_OnlineUntil s) (se_CreatedAt s) now.

(** The three outcomes of presenting a refresh token.  Rotation: the token is
    spent, every other active token of the session is revoked and a new one
    takes over. *)
Definition next_token (now : time) (newID refreshHash : string) (refreshExpiresAt : time) (old : AuthRefreshToken)
    (s : AuthSession) : AuthRefreshToken :=
  mkAuthRefreshToken newID refreshHash (se_ID s) (se_IdentityID s) (rt_FamilyID old) AuthRefreshTokenStatusActive
    refreshExpiresAt (rt_AbsoluteExpiresAt old) zero_time zero_time now now.

Definition spend_token (now : time) (old : AuthRefreshToken) (sessionID : string) (t : gmap string AuthRefreshToken)
    : gmap string AuthRefreshToken :=
  sql_update (fun x => bool_decide (rt_SessionID x = sessionID) &&
                       bool_decide (rt_Status x = AuthRefreshTokenStatusActive) && negb (bool_decide (rt_ID x = rt_ID old)))
    (set_token_status AuthRefreshTokenStatusRevoked now)
    (sql_update (fun x => bool_decide (rt_ID x = rt_ID old)) (use_token AuthRefreshTokenStatusRotated now now) t).

Definition rotate_token (now : time) (newID : string) (old : AuthRefreshToken) (s : AuthSession) (tokenHash : string)
    (expiresAt : time) (refreshHash : string) (refreshExpiresAt : time) (d : AuthDB)
    : result (AuthDB * RefreshTokenRotation) :=
  let new := next_token now newID refreshHash refreshExpiresAt old s in
  ss ← update_unique (se_ID s) (renew_session tokenHash expiresAt refreshHash refreshExpiresAt now) session_clash
         (auth_sessions d);
  ts' ← insert_unique (rt_ID new) new (token_clash new) (spend_token now old (se_ID s) (auth_refresh_tokens d));
  Ok (set_tokens ts' (set_sessions ss d),
      mkRotation (renew_session tokenHash expiresAt refreshHash refreshExpiresAt now s) new None false).

(** Grace: a token that was spent a moment ago; nothing is issued. *)
Definition set_refresh (hash : string) (expiresAt : time) (s : AuthSession) : AuthSession :=
  mkAuthSession (se_ID s) (se_IdentityID s) (se_AccountID s) (se_TokenHash s) hash expiresAt
    (se_RefreshAbsoluteUntil s) (se_Status s) (se_ExpiresAt s) (se_LastUsedAt s) (se_LastSeenAt s) (se_OnlineUntil s)
    (se_CreatedAt s) (se_UpdatedAt s).

Definition grace_token (now : time) (old : AuthRefreshToken) (s : AuthSession) (d : AuthDB)
    : result (AuthDB * RefreshTokenRotation) :=
  let d := set_tokens (sql_update (fun x => bool_decide (rt_ID x = rt_ID old))
             (fun x => use_token (rt_Status x) (rt_RotatedAt x) now x) (auth_refresh_tokens d)) d in
  current ← first_row (reverse (order_by (fun x => (ts (rt_CreatedAt x), rt_ID x))
    (sql_select (fun x => bool_decide (rt_SessionID x = se_ID s) && bool_decide (rt_Status x = AuthRefreshTokenStatusActive))
       (auth_refresh_tokens d))));
  Ok (d, mkRotation (set_refresh (rt_TokenHash current) (rt_ExpiresAt current) s) old (Some current) true).

(** Reuse: the family of the token is revoked and the session ended. *)
Definition punish_reuse (now : time) (old : AuthRefreshToken) (s : AuthSession) (d : AuthDB) : AuthDB :=
  set_sessions (sql_update (fun x => bool_decide (se_ID x = se_ID s)) (set_session_status StatusDeleted now) (auth_sessions d))
    (set_tokens (sql_update (fun x => bool_decide (rt_FamilyID x = rt_FamilyID old))
       (fun x => if bool_decide (rt_ID x = rt_ID old) then use_token AuthRefreshTokenStatusReused (rt_RotatedAt x) now x
                 else set_token_status AuthRefreshTokenStatusRevoked now x) (auth_refresh_tokens d)) d).

Definition in_grace (now : time) (graceWindow : duration) (t : AuthRefreshToken) : bool :=
  bool_decide (rt_Status t = AuthRefreshTokenStatusRotated) && negb (IsZero (rt_RotatedAt t)) &&
  negb (After now (Add (rt_RotatedAt t) graceWindow)).

Definition RotateAuthRefreshToken (now : time) (newID oldRefreshHash tokenHash : string) (expiresAt : time)
    (refreshHash : string) (refreshExpiresAt : time) (graceWindow : duration) : goM AuthDB RefreshTokenRotation := fun d =>
  match find_row (fun t => bool_decide (rt_TokenHash t = oldRefreshHash)) (auth_refresh_tokens d) with
  | Err e => (d, Err e)
  | Ok old =>
      match get_row (auth_sessions d) (rt_SessionID old) with
      | Err e => (d, Err e)
      | Ok s =>
          if negb (bool_decide (se_Status s = StatusActive)) then (d, Err ErrNotFound)
          else if bool_decide (rt_Status old = AuthRefreshTokenStatusActive) then
            transaction (rotate_token now newID old s tokenHash expiresAt refreshHash refreshExpiresAt) d
          else if in_grace now graceWindow old then transaction (grace_token now old s) d
          else (punish_reuse now old s d, Err ErrNotFound)
      end
  end.

Definition UpdateAuthSessionTokens (now : time) (sessionID tokenHash : string) (expiresAt : time) (refreshHash : string)
    (refreshExpiresAt : time) : goM AuthDB AuthSession := fun d =>
  match update_unique sessionID (renew_session tokenHash expiresAt refreshHash refreshExpiresAt now) session_clash
          (auth_sessions d) with
  | Err e => (d, Err e)
  | Ok ss => let d := set_sessions ss d in (d, get_row (auth_sessions d) sessionID)
  end.

Definition set_presence (lastSeenAt onlineUntil now : time) (s : AuthSession) : AuthSession :=
  mkAuthSession (se_ID s) (se_IdentityID s) (se_AccountID s) (se_TokenHash s) (se_RefreshTokenHash s)
    (se_RefreshExpiresAt s) (se_RefreshAbsoluteUntil s) (se_Status s) (se_ExpiresAt s) (se_LastUsedAt s) lastSeenAt
    onlineUntil (se_CreatedAt s) now.

Definition UpdateAuthSessionPresence (now : time) (sessionID : string) (lastSeenAt onlineUntil : time)
    : goM AuthDB AuthSession := fun d =>
  let d := set_sessions (sql_update (fun s => bool_decide (se_ID s = sessionID) && bool_decide (se_Status s = StatusActive))
             (set_presence lastSeenAt onlineUntil now) (auth_sessions d)) d in
  (d, get_row (auth_sessions d) sessionID).

(** Both revocations end the sessions and their usable refresh tokens; the
    second one spares a session. *)
Definition revoke_sessions (now : time) (identityID : string) (spared : string → bool) (d : AuthDB) : AuthDB :=
  set_tokens (sql_update (fun t => bool_decide (rt_IdentityID t = identityID) && negb (spared (rt_SessionID t)) &&
      (bool_decide (rt_Status t = AuthRefreshTokenStatusActive) || bool_decide (rt_Status t = AuthRefreshTokenStatusRotated)))
    (set_token_status AuthRefreshTokenStatusRevoked now) (auth_refresh_tokens d))
  (set_sessions (sql_update (fun s => bool_decide (se_IdentityID s = identityID) && negb (spared (se_ID s)) &&
      negb (bool_decide (se_Status s = StatusDeleted)))
    (set_session_status StatusDeleted now) (auth_sessions d)) d).

Definition RevokeAuthSessionsByIdentityID (now : time) (identityID : string) : AuthDB → AuthDB :=
  revoke_sessions now identityID (fun _ => false).

Definition RevokeOtherAuthSessionsByIdentityID (now : time) (identityID keepSessionID : string) : AuthDB → AuthDB :=
  revoke_sessions now identityID (fun id => bool_decide (id = keepSessionID)).

(** ** What every sequence of operations keeps *)

(** Rows sit under their own id, refresh tokens belong to a session that is
    there and to its identity, no two tokens share a hash, no two sessions do,
    and a session has at most one active token. *)
Record auth_wf (d : AuthDB) : Prop := {
  aw_session_key : ∀ id s, auth_sessions d !! id = Some s → se_ID s = id;
  aw_token_key : ∀ id t, auth_refresh_tokens d !! id = Some t → rt_ID t = id;
  aw_session_hash : ∀ id1 id2 s1 s2, auth_sessions d !! id1 = Some s1 → auth_sessions d !! id2 = Some s2 →
    se_TokenHash s1 = se_TokenHash s2 → id1 = id2;
  aw_token_hash : ∀ id1 id2 t1 t2, auth_refresh_tokens d !! id1 = Some t1 → auth_refresh_tokens d !! id2 = Some t2 →
    rt_TokenHash t1 = rt_TokenHash t2 → id1 = id2;
  aw_token_session : ∀ id t, auth_refresh_tokens d !! id = Some t →
    ∃ s, auth_sessions d !! rt_SessionID t = Some s ∧ se_IdentityID s = rt_IdentityID t;
  aw_one_active : ∀ id1 id2 t1 t2, auth_refresh_tokens d !! id1 = Some t1 → auth_refresh_tokens d !! id2 = Some t2 →
    rt_Status t1 = AuthRefreshTokenStatusActive → rt_Status t2 = AuthRefreshTokenStatusActive →
    rt_SessionID t1 = rt_SessionID t2 → id1 = id2;
}.

(** Rows that change without their identifying columns, and tokens that do not
    become active again. *)
Definition same_session (s s' : AuthSession) : Prop :=
  se_ID s' = se_ID s ∧ se_IdentityID s' = se_IdentityID s ∧ se_TokenHash s' = se_TokenHash s.
Definition tame_token (t t' : AuthRefreshToken) : Prop :=
  rt_ID t' = rt_ID t ∧ rt_TokenHash t' = rt_TokenHash t ∧ rt_SessionID t' = rt_SessionID t ∧
  rt_IdentityID t' = rt_IdentityID t ∧
  (rt_Status t' = AuthRefreshTokenStatusActive → rt_Status t = AuthRefreshTokenStatusActive).

#[export] Instance same_session_refl : Reflexive same_session.
Proof. by intros s. Qed.
#[export] Instance tame_token_refl : Reflexive tame_token.
Proof. by intros t. Qed.
#[export] Instance tame_token_trans : Transitive tame_token.
Proof. intros t1 t2 t3 (?&?&?&?&?) (?&?&?&?&?). repeat split; try congruence. auto. Qed.

Lemma auth_wf_tame d d' :
  pointwise same_session (auth_sessions d) (auth_sessions d') →
  pointwise tame_token (auth_refresh_tokens d) (auth_refresh_tokens d') →
  auth_wf d → auth_wf d'.
Proof.
  intros Hs Ht [K1 K2 H1 H2 B O]. constructor.
  - intros id s' Hl. destruct (pointwise_lookup _ _ _ _ _ Hs Hl) as (s & Hl0 & -> & _). eauto.
  - intros id t' Hl. destruct (pointwise_lookup _ _ _ _ _ Ht Hl) as (t & Hl0 & -> & _). eauto.
  - intros id1 id2 s1 s2 Hl1 Hl2 E. destruct (pointwise_lookup _ _ _ _ _ Hs Hl1) as (? & ? & _ & _ & ?).
    destruct (pointwise_lookup _ _ _ _ _ Hs Hl2) as (? & ? & _ & _ & ?). eapply H1; eauto. congruence.
  - intros id1 id2 t1 t2 Hl1 Hl2 E. destruct (pointwise_lookup _ _ _ _ _ Ht Hl1) as (? & ? & _ & ? & _).
    destruct (pointwise_lookup _ _ _ _ _ Ht Hl2) as (? & ? & _ & ? & _). eapply H2; eauto. congruence.
  - intros id t' Hl. destruct (pointwise_lookup _ _ _ _ _ Ht Hl) as (t & Hl0 & _ & _ & -> & -> & _).
    destruct (B _ _ Hl0) as (s & Hs0 & <-). destruct (pointwise_lookup_old _ _ _ _ _ Hs Hs0) as (s' & ? & _ & ? & _).
    eauto.
  - intros id1 id2 t1 t2 Hl1 Hl2 A1 A2 E.
    destruct (pointwise_lookup _ _ _ _ _ Ht Hl1) as (x1 & ? & _ & _ & ? & _ & F1).
    destruct (pointwise_lookup _ _ _ _ _ Ht Hl2) as (x2 & ? & _ & _ & ? & _ & F2). eapply O; eauto. congruence.
Qed.

Lemma wf_put_session d s old :
  auth_wf d → auth_sessions d !! se_ID s = old → (∀ o, old = Some o → se_IdentityID s = se_IdentityID o) →
  (∀ k x, k ≠ se_ID s → auth_sessions d !! k = Some x → se_TokenHash s ≠ se_TokenHash x) →
  auth_wf (set_sessions (<[se_ID s := s]> (auth_sessions d)) d).
Proof.
  intros [K1 K2 H1 H2 B O] Hold Hid Hhash. constructor; cbn; [|done| |done| |done].
  - intros id x. rewrite lookup_insert. case_decide; [by intros [= <-]|]. apply K1.
  - intros id1 id2 s1 s2. rewrite !lookup_insert. do 2 case_decide; intros; simplify_eq; try done.
    + exfalso. by eapply (Hhash id2).
    + exfalso. by eapply (Hhash id1).
    + by eapply H1.
  - intros id t Ht. destruct (B _ _ Ht) as (x & Hx & Hi). destruct (decide (rt_SessionID t = se_ID s)) as [E|].
    + exists s. rewrite E, lookup_insert_eq. split; [done|]. rewrite <-Hi. apply Hid. congruence.
    + exists x. by rewrite lookup_insert_ne.
Qed.

Lemma wf_add_token d t s :
  auth_wf d → auth_refresh_tokens d !! rt_ID t = None →
  auth_sessions d !! rt_SessionID t = Some s → se_IdentityID s = rt_IdentityID t →
  (∀ k x, auth_refresh_tokens d !! k = Some x → rt_TokenHash t ≠ rt_TokenHash x) →
  (∀ k x, auth_refresh_tokens d !! k = Some x → rt_SessionID x = rt_SessionID t →
     rt_Status x ≠ AuthRefreshTokenStatusActive) →
  auth_wf (set_tokens (<[rt_ID t := t]> (auth_refresh_tokens d)) d).
Proof.
  intros [K1 K2 H1 H2 B O] Hnew Hs Hi Hhash Hact. constructor; cbn; [done| |done| | |].
  - intros id x. rewrite lookup_insert. case_decide; [by intros [= <-]|]. apply K2.
  - intros id1 id2 t1 t2. rewrite !lookup_insert. do 2 case_decide; intros; simplify_eq; try done.
    + exfalso. by eapply Hhash.
    + exfalso. by eapply Hhash.
    + by eapply H2.
  - intros id x. rewrite lookup_insert. case_decide; [intros [= <-]; eauto|apply B].
  - intros id1 id2 t1 t2. rewrite !lookup_insert. do 2 case_decide; intros; simplify_eq; try done.
    + exfalso. by eapply Hact.
    + exfalso. by eapply Hact.
    + by eapply O.
Qed.

Lemma CreateAuthSession_wf now ids s d : auth_wf d → auth_wf (CreateAuthSession now ids s d).1.
Proof.
  intros Hwf. destruct (CreateAuthSession now ids s d) as [d' [s'|e]] eqn:E; cbn.
  2: { unfold CreateAuthSession in E. by apply transaction_Err in E as [-> _]. }
  unfold CreateAuthSession in E. apply transaction_Ok in E. cbv zeta in E.
  match type of E with context [first_token now ids ?x] => set (new := x) in * end.
  apply bind_Ok in E as (ss & Hss & E). apply insert_unique_Ok in Hss as (Hnone & -> & Hclash).
  assert (Hwf1 : auth_wf (set_sessions (<[se_ID new := new]> (auth_sessions d)) d)).
  { apply (wf_put_session d new None); [done|done|done|]. intros k x _ Hx.
    specialize (Hclash _ _ Hx). by apply bool_decide_eq_false in Hclash. }
  case_bool_decide; [by injection E as <- _|].
  apply bind_Ok in E as (ts' & Hts & E). injection E as <- _. apply insert_unique_Ok in Hts as (Ht & -> & Hc).
  cbn in Ht, Hc. apply (wf_add_token _ (first_token now ids new) new); [done|done| |done| |].
  - cbn. apply lookup_insert_eq.
  - intros k x Hx. specialize (Hc _ _ Hx). by apply bool_decide_eq_false in Hc.
  - intros k x Hx Hsid _. destruct (aw_token_session _ Hwf _ _ Hx) as (y & Hy & _). 
    change (rt_SessionID x = se_ID new) in Hsid. rewrite Hsid, Hnone in Hy. done.
Qed.

Lemma spend_token_tame now old sid t : pointwise tame_token t (spend_token now old sid t).
Proof.
  unfold spend_token. eapply pointwise_trans; [apply _|apply pointwise_update; [apply _|]|apply pointwise_update; [apply _|]];
    intros r _; by repeat split.
Qed.

(** After spending, no token of the session is active. *)
Lemma spend_token_inactive now old sid t k x :
  spend_token now old sid t !! k = Some x → rt_SessionID x = sid → rt_Status x ≠ AuthRefreshTokenStatusActive.
Proof.
  unfold spend_token. rewrite !lookup_sql_update. destruct (t !! k) as [y|]; [|done].
  intros [= <-]. destruct (decide (rt_ID y = rt_ID old)) as [E|E].
  - rewrite (bool_decide_eq_true_2 _ E). cbn. rewrite (bool_decide_eq_true_2 _ E), andb_false_r. done.
  - rewrite (bool_decide_eq_false_2 _ E), (bool_decide_eq_false_2 _ E). cbn [negb]. rewrite andb_true_r.
    destruct (decide (rt_SessionID y = sid)) as [Es|Es].
    + rewrite (bool_decide_eq_true_2 _ Es). case_bool_decide as Ea; cbn; done.
    + rewrite (bool_decide_eq_false_2 _ Es). cbn. done.
Qed.

Lemma rotate_token_wf now newID old s th ex rh re d d' ro :
  auth_wf d → auth_sessions d !! se_ID s = Some s →
  rotate_token now newID old s th ex rh re d = Ok (d', ro) → auth_wf d'.
Proof.
  intros Hwf Hs. unfold rotate_token. cbv zeta. intros (ss & Hss & E)%bind_Ok.
  apply bind_Ok in E as (ts' & Hts & E). injection E as <- _.
  set (new := next_token now newID rh re old s) in *. set (s' := renew_session th ex rh re now s).
  apply update_unique_Ok in Hss as [[Hn _]|(r & Hr & -> & Hc)]; [congruence|].
  rewrite Hs in Hr. injection Hr as <-. fold s' in Hc |- *.
  apply insert_unique_Ok in Hts as (Hnone & -> & Hclash).
  set (d1 := set_tokens (spend_token now old (se_ID s) (auth_refresh_tokens d)) (set_sessions (<[se_ID s := s']> (auth_sessions d)) d)).
  assert (Hwf1 : auth_wf d1).
  { apply (auth_wf_tame (set_sessions (<[se_ID s' := s']> (auth_sessions d)) d)).
    - apply pointwise_refl, _.
    - apply spend_token_tame.
    - apply (wf_put_session d s' (Some s)); [done|done| |].
      + by intros o [= <-].
      + intros k x Hk Hx. specialize (Hc k x Hk Hx). by apply bool_decide_eq_false in Hc. }
  apply (wf_add_token d1 new s'); [done|done| |done| |].
  - cbn. apply lookup_insert_eq.
  - intros k x Hx. specialize (Hclash _ _ Hx). by apply bool_decide_eq_false in Hclash.
  - intros k x Hx Hsid. exact (spend_token_inactive _ _ _ _ k x Hx Hsid).
Qed.

Lemma grace_token_wf now old s d d' ro : auth_wf d → grace_token now old s d = Ok (d', ro) → auth_wf d'.
Proof.
  intros Hwf. unfold grace_token. cbv zeta. intros (cur & _ & [= <- _])%bind_Ok.
  eapply auth_wf_tame; [| |exact Hwf]; cbn; [apply pointwise_refl, _|].
  apply pointwise_update; [apply _|]. by intros r _.
Qed.

Lemma punish_reuse_wf now old s d : auth_wf d → auth_wf (punish_reuse now old s d).
Proof.
  intros Hwf. eapply auth_wf_tame; [| |exact Hwf]; cbn; (apply pointwise_update; [apply _|]); intros r _.
  - done.
  - case_bool_decide; by repeat split.
Qed.

Lemma RotateAuthRefreshToken_wf now newID oh th ex rh re g d :
  auth_wf d → auth_wf (RotateAuthRefreshToken now newID oh th ex rh re g d).1.
Proof.
  intros Hwf. unfold RotateAuthRefreshToken. destruct (find_row _ _) as [old|e]; [|done].
  unfold get_row. destruct (auth_sessions d !! rt_SessionID old) as [s|] eqn:Es; [|done].
  rewrite <-(aw_session_key _ Hwf _ _ Es) in Es.
  destruct (negb _); [done|]. case_bool_decide; [|destruct (in_grace _ _ _)].
  - destruct (transaction _ d) as [d' [ro|e]] eqn:E; [|by apply transaction_Err in E as [-> _]].
    apply transaction_Ok in E. by eapply rotate_token_wf.
  - destruct (transaction _ d) as [d' [ro|e]] eqn:E; [|by apply transaction_Err in E as [-> _]].
    apply transaction_Ok in E. by eapply grace_token_wf.
  - by apply punish_reuse_wf.
Qed.

Lemma revoke_sessions_wf now i spared d : auth_wf d → auth_wf (revoke_sessions now i spared d).
Proof.
  intros Hwf. eapply auth_wf_tame; [| |exact Hwf]; cbn; (apply pointwise_update; [apply _|]); intros r _; by repeat split.
Qed.

Lemma UpdateAuthSessionTokens_wf now sid th ex rh re d :
  auth_wf d → auth_wf (UpdateAuthSessionTokens now sid th ex rh re d).1.
Proof.
  intros Hwf. unfold UpdateAuthSessionTokens. destruct (update_unique _ _ _ _) as [ss|e] eqn:E; [|done]. cbn.
  apply update_unique_Ok in E as [[_ ->]|(s & Hs & -> & Hc)]; [by destruct d|].
  pose proof (aw_session_key _ Hwf _ _ Hs) as <-.
  apply (wf_put_session d (renew_session th ex rh re now s) (Some s)); [done|done|by intros o [= <-]|].
  intros k x Hk Hx. specialize (Hc k x Hk Hx). by apply bool_decide_eq_false in Hc.
Qed.

Inductive auth_op :=
| AuCreateIdentity (now : time) (newID : string) (i : AuthIdentity)
| AuUpdateIdentity (now : time) (i : AuthIdentity)
| AuCreateProfile (now : time) (newID : string) (p : AdminProfile)
| AuUpdateProfile (now : time) (p : AdminProfile)
| AuCreateInvite (now : time) (newID : string) (v : AdminInvite)
| AuMarkInviteUsed (now : time) (inviteID identityID : string)
| AuRevokeInvite (now : time) (inviteID : string)
| AuCreateCredential (now : time) (newID : string) (c : AuthCredential)
| AuUpdateCredential (now : time) (c : AuthCredential)
| AuCreateRecovery (now : time) (newID : string) (c : AuthRecoveryCode)
| AuMarkRecoveryUsed (now : time) (id : string)
| AuCreateSession (now : time) (ids : AuthIDs) (s : AuthSession)
| AuRotate (now : time) (newID oldHash tokenHash : string) (expiresAt : time) (refreshHash : string)
    (refreshExpiresAt : time) (grace : duration)
| AuUpdateTokens (now : time) (sessionID tokenHash : string) (expiresAt : time) (refreshHash : string)
    (refreshExpiresAt : time)
| AuPresence (now : time) (sessionID : string) (lastSeenAt onlineUntil : time)
| AuRevoke (now : time) (identityID : string)
| AuRevokeOthers (now : time) (identityID keep : string).

(** The database after the operation, whether it succeeded or not. *)
Definition exec_auth (op : auth_op) (d : AuthDB) : AuthDB :=
  match op with
  | AuCreateIdentity now id i => (CreateAuthIdentity now id i d).1
  | AuUpdateIdentity now i => (UpdateAuthIdentity now i d).1
  | AuCreateProfile now id p => (CreateAdminProfile now id p d).1
  | AuUpdateProfile now p => (UpdateAdminProfile now p d).1
  | AuCreateInvite now id v => (CreateAdminInvite now id v d).1
  | AuMarkInviteUsed now id i => (MarkAdminInviteUsed now id i d).1
  | AuRevokeInvite now id => (RevokeAdminInvite now id d).1
  | AuCreateCredential now id c => (CreateAuthCredential now id c d).1
  | AuUpdateCredential now c => (UpdateAuthCredential now c d).1
  | AuCreateRecovery now id c => (CreateAuthRecoveryCode now id c d).1
  | AuMarkRecoveryUsed now id => (MarkAuthRecoveryCodeUsed now id d).1
  | AuCreateSession now ids s => (CreateAuthSession now ids s d).1
  | AuRotate now id oh th ex rh re g => (RotateAuthRefreshToken now id oh th ex rh re g d).1
  | AuUpdateTokens now sid th ex rh re => (UpdateAuthSessionTokens now sid th ex rh re d).1
  | AuPresence now sid a b => (UpdateAuthSessionPresence now sid a b d).1
  | AuRevoke now i => RevokeAuthSessionsByIdentityID now i d
  | AuRevokeOthers now i k => RevokeOtherAuthSessionsByIdentityID now i k d
  end.

Definition exec_auths (ops : list auth_op) (d : AuthDB) : AuthDB := foldl (fun d op => exec_auth op d) d ops.

(** Operations that leave sessions and tokens alone. *)
Definition keeps_sessions (d d' : AuthDB) : Prop :=
  auth_sessions d' = auth_sessions d ∧ auth_refresh_tokens d' = auth_refresh_tokens d.

Lemma keeps_sessions_wf d d' : keeps_sessions d d' → auth_wf d → auth_wf d'.
Proof. intros [E1 E2]. apply auth_wf_tame; rewrite ?E1, ?E2; apply pointwise_refl, _. Qed.

Lemma transaction_keeps {A} (f : AuthDB → result (AuthDB * A)) d :
  (∀ d' a, f d = Ok (d', a) → keeps_sessions d d') → keeps_sessions d (transaction f d).1.
Proof. intros Hf. unfold transaction. destruct (f d) as [[d' a]|e] eqn:E; [by eapply Hf|done]. Qed.

Definition touches_sessions (op : auth_op) : bool :=
  match op with
  | AuCreateSession _ _ _ | AuRotate _ _ _ _ _ _ _ _ | AuUpdateTokens _ _ _ _ _ _ | AuPresence _ _ _ _
  | AuRevoke _ _ | AuRevokeOthers _ _ _ => true
  | _ => false
  end.

Lemma exec_auth_keeps op d : touches_sessions op = false → keeps_sessions d (exec_auth op d).
Proof.
  destruct op; intros E; try discriminate E; cbn [exec_auth].
  all: try (apply transaction_keeps; intros d' a Hok; apply bind_Ok in Hok as (x & _ & [= <- _]); done).
  all: try (unfold UpdateAuthIdentity, UpdateAuthCredential; destruct (update_unique _ _ _ _); done).
  all: try (unfold MarkAdminInviteUsed, RevokeAdminInvite, update_active_invite; repeat case_match; done).
  all: done.
Qed.

Lemma exec_auth_wf op d : auth_wf d → auth_wf (exec_auth op d).
Proof.
  intros Hwf. destruct (touches_sessions op) eqn:E; [|by eapply keeps_sessions_wf; [apply exec_auth_keeps|]].
  destruct op; try discriminate E; cbn [exec_auth].
  - by apply CreateAuthSession_wf.
  - by apply RotateAuthRefreshToken_wf.
  - by apply UpdateAuthSessionTokens_wf.
  - eapply auth_wf_tame; [| |exact Hwf]; cbn; [|apply pointwise_refl, _].
    apply pointwise_update; [apply _|]. by intros r _.
  - by apply revoke_sessions_wf.
  - by apply revoke_sessions_wf.
Qed.

(** ** Credentials *)

(** Credentials sit under their id, and an identity has at most one of a type
    that is not deleted. *)
Record credentials_wf (d : AuthDB) : Prop := {
  cw_key : ∀ id c, auth_credentials d !! id = Some c → cr_ID c = id;
  cw_unique : ∀ id1 id2 c1 c2, auth_credentials d !! id1 = Some c1 → auth_credentials d !! id2 = Some c2 →
    credential_clash c1 c2 = true → id1 = id2;
}.

Lemma credential_clash_sym c1 c2 : credential_clash c1 c2 = credential_clash c2 c1.
Proof.
  unfold credential_clash. rewrite (andb_comm (negb _) (negb _)).
  by rewrite (bool_decide_ext (cr_IdentityID c1 = _) (cr_IdentityID c2 = cr_IdentityID c1)),
    (bool_decide_ext (cr_Type c1 = _) (cr_Type c2 = cr_Type c1)).
Qed.

Lemma credentials_wf_put d c :
  credentials_wf d → (∀ k x, k ≠ cr_ID c → auth_credentials d !! k = Some x → credential_clash c x = false) →
  credentials_wf (set_credentials (<[cr_ID c := c]> (auth_credentials d)) d).
Proof.
  intros [K U] Hc. constructor; cbn.
  - intros id x. rewrite lookup_insert. case_decide; [by intros [= <-]|]. apply K.
  - intros id1 id2 c1 c2. rewrite !lookup_insert. do 2 case_decide; intros; simplify_eq; try done.
    + exfalso. rewrite (Hc id2 c2) in *; congruence.
    + exfalso. rewrite credential_clash_sym, (Hc id1 c1) in *; congruence.
    + by eapply U.
Qed.

Lemma CreateAuthCredential_wf now id c d : credentials_wf d → credentials_wf (CreateAuthCredential now id c d).1.
Proof.
  intros Hwf. unfold CreateAuthCredential. destruct (transaction _ d) as [d' [c'|e]] eqn:E.
  2: { by apply transaction_Err in E as [-> _]. }
  apply transaction_Ok in E. cbv zeta in E. apply bind_Ok in E as (t & (_ & -> & Hc)%insert_unique_Ok & [= <- _]).
  apply credentials_wf_put; [done|]. intros k x _ Hx. by apply (Hc k).
Qed.

Lemma UpdateAuthCredential_wf now c d : credentials_wf d → credentials_wf (UpdateAuthCredential now c d).1.
Proof.
  intros Hwf. unfold UpdateAuthCredential. destruct (update_unique _ _ _ _) as [t|e] eqn:E; [|done]. cbn.
  apply update_unique_Ok in E as [[_ ->]|(r & Hr & -> & Hc)]; [by destruct d|].
  pose proof (cw_key _ Hwf _ _ Hr) as Hid. rewrite <-Hid in *.
  by apply (credentials_wf_put d (write_credential now c r)).
Qed.

Lemma credentials_wf_eq d d' : auth_credentials d' = auth_credentials d → credentials_wf d → credentials_wf d'.
Proof. intros E [K U]. constructor; rewrite E; done. Qed.

Lemma transaction_credentials {A} (f : AuthDB → result (AuthDB * A)) d :
  (∀ d' a, f d = Ok (d', a) → auth_credentials d' = auth_credentials d) →
  auth_credentials (transaction f d).1 = auth_credentials d.
Proof. intros Hf. unfold transaction. destruct (f d) as [[d' a]|e] eqn:E; [by eapply Hf|done]. Qed.

Lemma exec_auth_credentials op d : credentials_wf d → credentials_wf (exec_auth op d).
Proof.
  destruct op; cbn [exec_auth]; try apply CreateAuthCredential_wf; try apply UpdateAuthCredential_wf;
    apply credentials_wf_eq.
  all: try (apply transaction_credentials; intros d' a E; apply bind_Ok in E as (x & _ & [= <- _]); done).
  all: try (unfold UpdateAuthIdentity, UpdateAuthSessionTokens; destruct (update_unique _ _ _ _); done).
  all: try (unfold MarkAdminInviteUsed, RevokeAdminInvite, update_active_invite; repeat case_match; done).
  all: try done.
  - apply transaction_credentials. intros d' a E. cbv zeta in E. apply bind_Ok in E as (x & _ & E).
    case_bool_decide; [by injection E as <- _|]. by apply bind_Ok in E as (y & _ & [= <- _]).
  - unfold RotateAuthRefreshToken. destruct (find_row _ _); [|done]. destruct (get_row _ _); [|done].
    destruct (negb _); [done|]. case_bool_decide; [|destruct (in_grace _ _ _)]; [..|done];
      apply transaction_credentials; intros d' ro E.
    + apply bind_Ok in E as (x & _ & E). by apply bind_Ok in E as (y & _ & [= <- _]).
    + by apply bind_Ok in E as (x & _ & [= <- _]).
Qed.

(** ** Identities and profiles *)

(** Identities sit under their id, two active administrators never share a
    login, and an identity has at most one profile. *)
Record identities_wf (d : AuthDB) : Prop := {
  iw_key : ∀ id i, auth_identities d !! id = Some i → id_ID i = id;
  iw_login : ∀ id1 id2 i1 i2, auth_identities d !! id1 = Some i1 → auth_identities d !! id2 = Some i2 →
    id_Kind i1 = AuthIdentityKindAdmin → id_Status i1 = StatusActive →
    id_Kind i2 = AuthIdentityKindAdmin → id_Status i2 = StatusActive →
    id_Login i1 = id_Login i2 → id1 = id2;
  iw_profile : ∀ id1 id2 p1 p2, admin_profiles d !! id1 = Some p1 → admin_profiles d !! id2 = Some p2 →
    pr_IdentityID p1 = pr_IdentityID p2 → id1 = id2;
}.

Lemma login_clash_false i j :
  login_clash i j = false → id_Kind i = AuthIdentityKindAdmin → id_Status i = StatusActive →
  id_Kind j = AuthIdentityKindAdmin → id_Status j = StatusActive → id_Login i ≠ id_Login j.
Proof. unfold login_clash, active_admin. intros H E1 E2 E3 E4 E5. by rewrite !bool_decide_eq_true_2 in H. Qed.

Lemma identities_wf_put d i :
  identities_wf d → (∀ k x, k ≠ id_ID i → auth_identities d !! k = Some x → login_clash i x = false) →
  identities_wf (set_identities (<[id_ID i := i]> (auth_identities d)) d).
Proof.
  intros [K U P] Hc. constructor; cbn; [| |done].
  - intros id x [[<- <-]|[_ Hx]]%lookup_insert_Some; [done|by apply K].
  - intros id1 id2 i1 i2 [[<- <-]|[H1 Hx]]%lookup_insert_Some [[<- <-]|[H2 Hy]]%lookup_insert_Some; intros; [done|..].
    + exfalso. by eapply (login_clash_false i i2); [eapply Hc; [by apply not_eq_sym|done]|..].
    + exfalso. by eapply (login_clash_false i i1); [eapply Hc; [by apply not_eq_sym|done]|..].
    + by eapply (U id1 id2).
Qed.

Definition keeps_identities (d d' : AuthDB) : Prop :=
  auth_identities d' = auth_identities d ∧ admin_profiles d' = admin_profiles d.
Lemma identities_wf_eq d d' : keeps_identities d d' → identities_wf d → identities_wf d'.
Proof. intros [E1 E2] [K U P]. constructor; rewrite ?E1, ?E2; done. Qed.
Lemma transaction_identities {A} (f : AuthDB → result (AuthDB * A)) d :
  (∀ d' a, f d = Ok (d', a) → keeps_identities d d') → keeps_identities d (transaction f d).1.
Proof. intros Hf. unfold transaction. destruct (f d) as [[d' a]|e] eqn:E; [by eapply Hf|done]. Qed.

Lemma CreateAuthIdentity_wf now id i d : identities_wf d → identities_wf (CreateAuthIdentity now id i d).1.
Proof.
  intros Hwf. apply (transaction_inv identities_wf); [|done]. cbv zeta.
  intros d' a (t & (_ & -> & Hc)%insert_unique_Ok & [= <- _])%bind_Ok.
  by apply identities_wf_put; [|intros k x _ Hx; apply (Hc k)].
Qed.
Lemma UpdateAuthIdentity_wf now i d : identities_wf d → identities_wf (UpdateAuthIdentity now i d).1.
Proof.
  intros Hwf. unfold UpdateAuthIdentity. destruct (update_unique _ _ _ _) as [t|e] eqn:E; [|done]. cbn.
  apply update_unique_Ok in E as [[_ ->]|(r & Hr & -> & Hc)]; [by destruct d|].
  pose proof (iw_key _ Hwf _ _ Hr) as Hid. rewrite <-Hid in *. by apply (identities_wf_put d (write_identity now i r)).
Qed.
Lemma CreateAdminProfile_wf now id p d : identities_wf d → identities_wf (CreateAdminProfile now id p d).1.
Proof.
  intros Hwf. apply (transaction_inv identities_wf); [|done]. cbv zeta.
  intros d' a (t & (_ & -> & Hc)%insert_unique_Ok & [= <- _])%bind_Ok. destruct Hwf as [K U P]. constructor; cbn; [done..|].
  assert (Hne : ∀ k x, admin_profiles d !! k = Some x → pr_IdentityID p ≠ pr_IdentityID x).
  { intros k x Hx. specialize (Hc k x Hx). unfold profile_clash in Hc. by apply bool_decide_eq_false in Hc. }
  intros id1 id2 p1 p2 [[<- <-]|[H1 Hx]]%lookup_insert_Some [[<- <-]|[H2 Hy]]%lookup_insert_Some E; [done|..]; cbn in E.
  - by destruct (Hne _ _ Hy).
  - by destruct (Hne _ _ Hx).
  - by eapply P.
Qed.
Lemma UpdateAdminProfile_wf now p d : identities_wf d → identities_wf (UpdateAdminProfile now p d).1.
Proof.
  intros [K U P]. constructor; cbn; [done..|]. intros id1 id2 p1 p2.
  intros [(E1 & r & Hx & ->)|[_ Hx]]%lookup_alter_Some [(E2 & r' & Hy & ->)|[_ Hy]]%lookup_alter_Some; cbn; [congruence|by subst; eapply P..].
Qed.

Lemma exec_auth_identities_wf op d : identities_wf d → identities_wf (exec_auth op d).
Proof.
  destruct op; cbn [exec_auth]; try apply CreateAuthIdentity_wf; try apply UpdateAuthIdentity_wf;
    try apply CreateAdminProfile_wf; try apply UpdateAdminProfile_wf; apply identities_wf_eq.
  all: try (apply transaction_identities; intros d' a E; apply bind_Ok in E as (x & _ & [= <- _]); done).
  all: try (unfold UpdateAuthCredential, UpdateAuthSessionTokens; destruct (update_unique _ _ _ _); done).
  all: try (unfold MarkAdminInviteUsed, RevokeAdminInvite, update_active_invite; repeat case_match; done).
  all: try done.
  - apply transaction_identities. intros d' a E. cbv zeta in E. apply bind_Ok in E as (x & _ & E).
    case_bool_decide; [by injection E as <- _|]. by apply bind_Ok in E as (y & _ & [= <- _]).
  - unfold RotateAuthRefreshToken. destruct (find_row _ _); [|done]. destruct (get_row _ _); [|done].
    destruct (negb _); [done|]. case_bool_decide; [|destruct (in_grace _ _ _)]; [..|done];
      apply transaction_identities; intros d' ro E.
    + apply bind_Ok in E as (x & _ & E). by apply bind_Ok in E as (y & _ & [= <- _]).
    + by apply bind_Ok in E as (x & _ & [= <- _]).
Qed.

Lemma empty_auth_wf : auth_wf empty_auth ∧ credentials_wf empty_auth.
Proof. split; constructor; intros; simpl in *; simplify_map_eq. Qed.

Lemma exec_auths_identities_wf ops : identities_wf (exec_auths ops empty_auth).
Proof.
  assert (Hwf : identities_wf empty_auth) by (constructor; intros; simpl in *; simplify_map_eq).
  revert Hwf. generalize empty_auth as d. induction ops as [|op ops IH]; intros d Hwf; [done|].
  by apply IH, exec_auth_identities_wf.
Qed.

(** C28. Whatever operations reach the identity database, failing or not, every
    refresh token belongs to a stored session and to its identity, hashes of
    access and refresh tokens are unique, a session never has two active
    refresh tokens, an identity never has two credentials of one type or two
    profiles, and two active administrators never share a login. *)
Theorem auth_store_wf ops :
  auth_wf (exec_auths ops empty_auth) ∧ credentials_wf (exec_auths ops empty_auth) ∧ identities_wf (exec_auths ops empty_auth).
Proof.
  cut (auth_wf (exec_auths ops empty_auth) ∧ credentials_wf (exec_auths ops empty_auth)).
  { intros [? ?]. auto using exec_auths_identities_wf. }
  generalize empty_auth_wf. generalize empty_auth as d. induction ops as [|op ops IH]; intros d [H1 H2]; [done|].
  apply IH. split; [by apply exec_auth_wf|by apply exec_auth_credentials].
Qed.

(** ** What has ended stays ended *)
Definition ended (d : AuthDB) (id : string) : Prop :=
  ∃ s, auth_sessions d !! id = Some s ∧ se_Status s = StatusDeleted.

Definition status_kept (s s' : AuthSession) : Prop := se_Status s = StatusDeleted → se_Status s' = StatusDeleted.
#[export] Instance status_kept_refl : Reflexive status_kept.
Proof. intros s Hs. exact Hs. Qed.

Lemma ended_pointwise d d' id :
  pointwise status_kept (auth_sessions d) (auth_sessions d') → ended d id → ended d' id.
Proof.
  intros Hp (s & Hs & Hd). destruct (pointwise_lookup_old _ _ _ _ _ Hp Hs) as (s' & Hs' & Hk). exists s'. auto.
Qed.

Lemma renewed_kept key f clash ss ss' :
  (∀ s, se_Status (f s) = se_Status s) → update_unique key f clash ss = Ok ss' → pointwise status_kept ss ss'.
Proof.
  intros Hf [[_ ->]|(s & Hs & -> & _)]%update_unique_Ok; [apply pointwise_refl, _|].
  intros id. destruct (decide (id = key)) as [->|].
  - rewrite Hs, lookup_insert_eq. constructor. intros Hd. by rewrite Hf.
  - rewrite lookup_insert_ne by done. destruct (ss !! id); by constructor.
Qed.

Lemma revoked_kept now i spared (ss : gmap string AuthSession) :
  pointwise status_kept ss (sql_update (fun s => bool_decide (se_IdentityID s = i) && negb (spared (se_ID s)) &&
      negb (bool_decide (se_Status s = StatusDeleted))) (set_session_status StatusDeleted now) ss).
Proof. apply pointwise_update; [apply _|]. by intros r _. Qed.

Lemma CreateAuthSession_ended now ids s d id : ended d id → ended (CreateAuthSession now ids s d).1 id.
Proof.
  intros He. destruct (CreateAuthSession now ids s d) as [d' [s'|e]] eqn:E; cbn.
  2: { unfold CreateAuthSession in E. by apply transaction_Err in E as [-> _]. }
  unfold CreateAuthSession in E. apply transaction_Ok in E. cbv zeta in E.
  apply bind_Ok in E as (ss & Hss & E). apply insert_unique_Ok in Hss as (Hnone & -> & _).
  assert (Hs : auth_sessions d' = <[se_ID s' := s']> (auth_sessions d) ∧ auth_sessions d !! se_ID s' = None).
  { case_bool_decide; [by injection E as <- <-|]. apply bind_Ok in E as (x & _ & [= <- <-]). done. }
  destruct Hs as [Hs Hn]. destruct He as (o & Ho & Hd). exists o. rewrite Hs.
  rewrite lookup_insert_ne; [done|]. intros <-. congruence.
Qed.

Lemma RotateAuthRefreshToken_kept now newID oh th ex rh re g d :
  pointwise status_kept (auth_sessions d) (auth_sessions (RotateAuthRefreshToken now newID oh th ex rh re g d).1).
Proof.
  assert (Hr : pointwise status_kept (auth_sessions d) (auth_sessions d)) by apply pointwise_refl, _.
  unfold RotateAuthRefreshToken. destruct (find_row _ _) as [old|e]; [|done].
  destruct (get_row _ _) as [s|]; [|done]. destruct (negb _); [done|]. case_bool_decide; [|destruct (in_grace _ _ _)].
  - destruct (transaction _ d) as [d' [ro|e]] eqn:E; [|by apply transaction_Err in E as [-> _]].
    apply transaction_Ok, bind_Ok in E as (ss & Hss & E). apply bind_Ok in E as (t & _ & [= <- _]). cbn.
    by eapply renewed_kept; [|exact Hss].
  - destruct (transaction _ d) as [d' [ro|e]] eqn:E; [|by apply transaction_Err in E as [-> _]].
    apply transaction_Ok, bind_Ok in E as (cur & _ & [= <- _]). done.
  - apply pointwise_update; [apply _|]. by intros r _.
Qed.

Lemma exec_auth_ended op d id : ended d id → ended (exec_auth op d) id.
Proof.
  intros He. destruct (touches_sessions op) eqn:E.
  2: { destruct (exec_auth_keeps op d E) as [Es _]. destruct He as (s & Hs & Hd). exists s. by rewrite Es. }
  destruct op; try discriminate E; cbn [exec_auth].
  - by apply CreateAuthSession_ended.
  - eapply ended_pointwise; [apply RotateAuthRefreshToken_kept|done].
  - unfold UpdateAuthSessionTokens. destruct (update_unique _ _ _ _) as [ss|e] eqn:Eu; [|done].
    eapply ended_pointwise; [|exact He]. by eapply renewed_kept; [|exact Eu].
  - eapply ended_pointwise; [|exact He]. cbn. apply pointwise_update; [apply _|]. intros r _ Hd. exact Hd.
  - eapply ended_pointwise; [apply revoked_kept|done].
  - eapply ended_pointwise; [apply revoked_kept|done].
Qed.

Lemma exec_auths_ended ops d id : ended d id → ended (exec_auths ops d) id.
Proof. revert d. induction ops as [|op ops IH]; intros d He; [done|]. apply IH. by apply exec_auth_ended. Qed.

Lemma exec_auths_wf ops d : auth_wf d → auth_wf (exec_auths ops d).
Proof. revert d. induction ops as [|op ops IH]; intros d He; [done|]. apply IH. by apply exec_auth_wf. Qed.

Lemma revoke_ends now i d id s :
  auth_sessions d !! id = Some s → se_IdentityID s = i → ended (RevokeAuthSessionsByIdentityID now i d) id.
Proof.
  intros Hs Hi. unfold ended. cbn. rewrite lookup_sql_update, Hs. cbn. eexists. split; [done|].
  rewrite bool_decide_eq_true_2 by done. case_bool_decide; done.
Qed.

Lemma ended_inactive d id s : auth_wf d → ended d id → (∃ k, auth_sessions d !! k = Some s) → se_ID s = id →
  se_Status s ≠ StatusActive.
Proof.
  intros Hwf (o & Ho & Hd) [k Hk] <-. rewrite (aw_session_key _ Hwf _ _ Hk) in Ho. rewrite Hk in Ho.
  injection Ho as <-. rewrite Hd. done.
Qed.

Lemma Rotate_Ok_active now newID oh th ex rh re g d d' ro :
  auth_wf d → RotateAuthRefreshToken now newID oh th ex rh re g d = (d', Ok ro) →
  ∃ s, auth_sessions d !! se_ID s = Some s ∧ se_Status s = StatusActive ∧ se_ID (ro_Session ro) = se_ID s.
Proof.
  intros Hwf. unfold RotateAuthRefreshToken. destruct (find_row _ _) as [old|e]; [|done].
  unfold get_row. destruct (auth_sessions d !! rt_SessionID old) as [s|] eqn:Es; [|done].
  rewrite <-(aw_session_key _ Hwf _ _ Es) in Es.
  case_bool_decide as Ha; [|done]. cbn [negb]. intros E. exists s. split_and!; [done..|].
  case_bool_decide; [|destruct (in_grace _ _ _); [|done]].
  - apply transaction_Ok, bind_Ok in E as (ss & Hss & E). by apply bind_Ok in E as (t & _ & [= _ <-]).
  - by apply transaction_Ok, bind_Ok in E as (cur & _ & [= _ <-]).
Qed.

(** C29. Revoking the sessions of an identity is final: whatever happens in the
    database afterwards, no access token is ever again accepted for a session
    that existed at that time, and no refresh token ever renews one. *)
Theorem revocation_final now i d ops id s :
  auth_wf d → auth_sessions d !! id = Some s → se_IdentityID s = i →
  let d' := exec_auths ops (RevokeAuthSessionsByIdentityID now i d) in
  (∀ h s', GetActiveAuthSessionByTokenHash h d' = Ok s' → se_ID s' ≠ id) ∧
  (∀ at_ newID oh th ex rh re g d'' ro,
     RotateAuthRefreshToken at_ newID oh th ex rh re g d' = (d'', Ok ro) → se_ID (ro_Session ro) ≠ id).
Proof.
  intros Hwf Hs Hi d'. assert (He : ended d' id) by (eapply exec_auths_ended, revoke_ends; done).
  assert (Hwf' : auth_wf d') by (apply exec_auths_wf; by apply revoke_sessions_wf). split.
  - intros h s' Hf E. apply find_row_Ok in Hf as [HP Hk].
    rewrite andb_true_iff, !bool_decide_eq_true in HP.
    exact (ended_inactive d' id s' Hwf' He Hk E (proj2 HP)).
  - intros at_ newID oh th ex rh re g d'' ro Hr E.
    destruct (Rotate_Ok_active _ _ _ _ _ _ _ _ _ _ _ Hwf' Hr) as (s' & Hs' & Ha & Hid).
    eapply (ended_inactive d' id s'); [done|done|eauto|congruence|done].
Qed.

(** A spent or revoked invitation. *)
Definition invite_closed (d : AuthDB) (id : string) : Prop :=
  ∃ v, admin_invites d !! id = Some v ∧ inv_Status v ≠ AdminInviteStatusActive.

Lemma update_active_invite_closed id f d id' :
  invite_closed d id' → invite_closed (update_active_invite id f d).1 id'.
Proof.
  intros (v & Hv & Hc). unfold update_active_invite. destruct (admin_invites d !! id) as [w|] eqn:E; [|by exists v].
  case_bool_decide as Ha; [|by exists v]. exists v. cbn. rewrite lookup_insert_ne; [done|].
  intros ->. congruence.
Qed.

Lemma exec_auth_closed op d id : invite_closed d id → invite_closed (exec_auth op d) id.
Proof.
  intros Hc. assert (Hsame : ∀ d', admin_invites d' = admin_invites d → invite_closed d' id).
  { intros d' E. destruct Hc as (v & Hv & Hn). exists v. by rewrite E. }
  assert (Htr : ∀ {A} (f : AuthDB → result (AuthDB * A)),
    (∀ d' a, f d = Ok (d', a) → admin_invites d' = admin_invites d) → invite_closed (transaction f d).1 id).
  { intros A f Hf. unfold transaction. destruct (f d) as [[d' a]|e] eqn:E; [|done]. apply Hsame. by eapply Hf. }
  destruct op; cbn [exec_auth];
    try (apply update_active_invite_closed; done);
    try (apply Htr; intros d' a E; apply bind_Ok in E as (x & _ & [= <- _]); done);
    try (apply Hsame; unfold UpdateAuthIdentity, UpdateAuthCredential, UpdateAuthSessionTokens;
         destruct (update_unique _ _ _ _); done);
    try (by apply Hsame).
  - destruct Hc as (w & Hw & Hn). unfold CreateAdminInvite. destruct (transaction _ _) as [d' [v'|e]] eqn:E.
    + apply transaction_Ok, bind_Ok in E as (t & (Hnone & -> & _)%insert_unique_Ok & [= <- _]). exists w. cbn.
      rewrite lookup_insert_ne; [done|]. intros E. cbn in Hnone, E. rewrite E in Hnone. congruence.
    + apply transaction_Err in E as [-> _]. by exists w.
  - apply Htr. intros d' a E. cbv zeta in E. apply bind_Ok in E as (x & _ & E). case_bool_decide; [by injection E as <- _|].
    by apply bind_Ok in E as (y & _ & [= <- _]).
  - unfold RotateAuthRefreshToken. destruct (find_row _ _); [|by apply Hsame]. destruct (get_row _ _); [|by apply Hsame].
    destruct (negb _); [by apply Hsame|]. case_bool_decide; [|destruct (in_grace _ _ _)].
    + apply Htr. intros d' ro E. apply bind_Ok in E as (x & _ & E). by apply bind_Ok in E as (y & _ & [= <- _]).
    + apply Htr. intros d' ro E. by apply bind_Ok in E as (x & _ & [= <- _]).
    + by apply Hsame.
Qed.

Lemma MarkAdminInviteUsed_closes now id i d d' v :
  MarkAdminInviteUsed now id i d = (d', Ok v) → invite_closed d' id ∧ inv_UsedByIdentityID v = i.
Proof.
  unfold MarkAdminInviteUsed, update_active_invite. destruct (admin_invites d !! id) as [w|]; [|done].
  case_bool_decide; [|done]. cbn. unfold GetAdminInvite, get_row. cbn. rewrite lookup_insert_eq. intros [= <- <-].
  split; [|done]. eexists. cbn. rewrite lookup_insert_eq. by split.
Qed.

(** An invitation is used at most once: after it has been used, every
    later attempt to use it is refused, whatever else was done to the database
    in between. *)
Theorem invite_used_once now id i d d' v ops now' i' :
  MarkAdminInviteUsed now id i d = (d', Ok v) →
  (MarkAdminInviteUsed now' id i' (exec_auths ops d')).2 = Err ErrNotFound.
Proof.
  intros [Hc _]%MarkAdminInviteUsed_closes.
  assert (Hc' : invite_closed (exec_auths ops d') id).
  { revert d' Hc. induction ops as [|op ops IH]; intros d' Hc; [done|]. apply IH. by apply exec_auth_closed. }
  destruct Hc' as (w & Hw & Hn). unfold MarkAdminInviteUsed, update_active_invite. rewrite Hw.
  by rewrite bool_decide_eq_false_2.
Qed.

(** ** A sample: an administrator with one session, and an invitation *)
Definition demo_ids (n : string) : AuthIDs := mkAuthIDs ("ase" +:+ n) ("art" +:+ n) ("arf" +:+ n).
Definition sec (n : Z) : time := (n * Second)%Z.
Definition demo_identity : AuthIdentity :=
  mkAuthIdentity "aid1" AuthIdentityKindAdmin "root" "" "" StatusActive false zero_time zero_time zero_time.
Definition demo_credential : AuthCredential :=
  mkAuthCredential "acr1" "aid1" AuthCredentialTypePassword "hash:secret" 0 zero_time StatusActive zero_time zero_time.
Definition demo_session : AuthSession :=
  mkAuthSession "" "aid1" "" "h:access1" "h:refresh1" (sec 3400) (sec 22600) StatusActive (sec 1600) zero_time zero_time
    zero_time zero_time zero_time.
Definition demo_invite : AdminInvite :=
  mkAdminInvite "ain1" "h:invite" "h:code" AdminRoleAdmin "" (sec 90000) "aid1" "root" "" zero_time zero_time ""
    zero_time zero_time.
Definition demo_auth_ops : list auth_op :=
  [AuCreateIdentity (sec 1000) "" demo_identity; AuCreateCredential (sec 1000) "" demo_credential;
   AuCreateProfile (sec 1000) "apr1" (mkAdminProfile "" "aid1" AdminRoleOwner "" zero_time zero_time);
   AuCreateInvite (sec 1000) "" demo_invite; AuCreateSession (sec 1000) (demo_ids "1") demo_session].
Definition demo_auth : AuthDB := exec_auths demo_auth_ops empty_auth.

Lemma demo_auth_wf : auth_wf demo_auth.
Proof. apply exec_auths_wf, empty_auth_wf. Qed.

Lemma demo_auth_session : ∃ s, auth_sessions demo_auth !! "ase1" = Some s ∧ se_IdentityID s = "aid1".
Proof. eexists. split; [vm_compute; reflexivity|reflexivity]. Qed.

Lemma revocation_final_witness :
  (∃ s, auth_sessions demo_auth !! "ase1" = Some s ∧ se_IdentityID s = "aid1") ∧
  ∀ h s', GetActiveAuthSessionByTokenHash h (exec_auths demo_auth_ops (RevokeAuthSessionsByIdentityID (sec 1100) "aid1" demo_auth)) = Ok s' →
    se_ID s' ≠ "ase1".
Proof.
  destruct demo_auth_session as (s & Hs & Hi). split; [exists s; split; [exact Hs|exact Hi]|].
  exact (proj1 (revocation_final (sec 1100) "aid1" demo_auth demo_auth_ops "ase1" s demo_auth_wf Hs Hi)).
Defined.

Lemma demo_invite_used : ∃ d' v, MarkAdminInviteUsed (sec 1200) "ain1" "aid2" demo_auth = (d', Ok v).
Proof.
  assert (Hok : is_ok (MarkAdminInviteUsed (sec 1200) "ain1" "aid2" demo_auth).2 = true) by (vm_compute; reflexivity).
  destruct (MarkAdminInviteUsed (sec 1200) "ain1" "aid2" demo_auth) as [d' [v|e]]; [eauto|discriminate Hok].
Qed.

Lemma invite_used_once_witness :
  ∃ d', (MarkAdminInviteUsed (sec 1300) "ain1" "aid3" (exec_auths demo_auth_ops d')).2 = Err ErrNotFound.
Proof.
  destruct demo_invite_used as (d' & v & H). exists d'.
  exact (invite_used_once (sec 1200) "ain1" "aid2" demo_auth d' v demo_auth_ops (sec 1300) "aid3" H).
Defined.
