(* ===== verification/AdminAuth.v ===== *)
(** * AdminAuth: administrators signing in

    [src/internal/server/adminauth/auth.go] and [bootstrap.go]: passwords with
    a lockout, sessions with rotating refresh tokens, tokens against
    cross-site requests, roles and permissions, on the identity database of
    [AuthStore].  bcrypt, SHA-256 and HMAC-SHA-256 are parameters, and so are
    the Unicode tables behind [strings.EqualFold], [unicode.IsLetter] and
    [unicode.IsDigit] outside of ASCII.  A call may read the clock several
    times: [clock i] is the [i]-th reading. *)

From S2P Require Import Prelude GoLib GoJson Sql ServerModel ServerStore Tables Httpx AuthStore.
From Stdlib Require Import Ascii.
Import GoTime GoStrings.

Definition ErrInvalidCredentials : error := "invalid credentials".
Definition ErrPasswordChangeRequired : error := "password change required".

(** ** Roles and permissions *)
Definition PermissionAdminRead : string := "admin:read".
Definition PermissionUsersWrite : string := "accounts:write".
Definition PermissionNodesWrite : string := "nodes:write".
Definition PermissionAccessWrite : string := "connection:write".
Definition PermissionConfigsWrite : string := "configs:write".
Definition PermissionTokensWrite : string := "tokens:write".
Definition PermissionProvisionWrite : string := "provision:write".
Definition PermissionAuditRead : string := "audit:read".

Definition PermissionsForRole (role : string) : list string :=
  let all := [PermissionAdminRead; PermissionUsersWrite; PermissionNodesWrite; PermissionAccessWrite;
              PermissionConfigsWrite; PermissionTokensWrite; PermissionProvisionWrite; PermissionAuditRead] in
  if bool_decide (role = AdminRoleOwner) then all
  else if bool_decide (role = AdminRoleAdmin) then all
  else if bool_decide (role = AdminRoleViewer) then [PermissionAdminRead; PermissionAuditRead]
  else [].

Record Principal := mkPrincipal {
  p_Name : string;
  p_Role : string;
  p_Permissions : list string;
  p_IdentityID : string;
  p_SessionID : string;
}.

Definition HasPermission (principal : Principal) (permission : string) : bool :=
  bool_decide (permission ∈ p_Permissions principal).

(** The principal a request carries, if any. *)
Definition Authorize (principal : option Principal) (permission : string) : option Principal :=
  p ← principal; if HasPermission p permission then Some p else None.

(** ** Settings *)
Local Open Scope Z_scope.
Definition passwordMinLength : nat := 6.
Definition lockoutAttempts : Z := 10.
Definition lockoutDuration : duration := 15 * Minute.
Definition accessTTL : duration := 10 * Minute.
Definition refreshTTL : duration := 40 * Minute.
Definition refreshAbsoluteTTL : duration := 6 * Hour.
Definition csrfTTL : duration := accessTTL.
Definition refreshReuseGrace : duration := 10 * Second.
Definition changeTTL : duration := 15 * Minute.

Record Authenticator := mkAuthenticator {
  au_cookieName : string;
  au_cookiePath : string;
  au_sessionTTL : duration;
  au_csrfSecret : string;
}.

(** [strings.Trim(value, "/")] *)
Definition trim_slashes (s : string) : string :=
  let front := trim_left ["/"] (String.length s) s in
  String.rev (trim_left ["/"] (String.length front) (String.rev front)).

Definition normalizeCookiePath (value : string) : string :=
  let value := TrimSpace value in
  if bool_decide (value = EmptyString) || bool_decide (value = "/") then "/" else "/" +:+ trim_slashes value.

Definition New (cookieName cookiePath : string) (sessionTTL : duration) (csrfSecret : string) : Authenticator :=
  mkAuthenticator (or_default (TrimSpace cookieName) "laz_admin_session") (normalizeCookiePath cookiePath)
    (if sessionTTL <=? 0 then accessTTL else sessionTTL)
    (or_default (TrimSpace csrfSecret) "laz-admin-csrf-development-secret").

(** ** Cookies *)
Definition CookieName (a : Authenticator) : string := or_default (au_cookieName a) "laz_admin_session".
Definition CookiePath (a : Authenticator) : string := or_default (au_cookiePath a) "/".
Definition RefreshCookieName (a : Authenticator) : string := CookieName a +:+ "_refresh".

(** [int(d.Seconds())]: rounded towards zero. *)
Definition seconds (d : duration) : Z := Z.quot d Second.

Definition NewSessionCookie (a : Authenticator) (token : string) : Cookie :=
  mkCookie (CookieName a) token (CookiePath a) true true false (seconds (au_sessionTTL a)).
Definition NewRefreshCookie (a : Authenticator) (now : time) (token : string) (expiresAt : time) : Cookie :=
  mkCookie (RefreshCookieName a) token (CookiePath a) true true false (Z.max 0 (seconds (expiresAt - now))).
Definition ExpiredSessionCookie (a : Authenticator) : Cookie :=
  mkCookie (CookieName a) EmptyString (CookiePath a) true true false (-1).
Definition ExpiredRefreshCookie (a : Authenticator) : Cookie :=
  mkCookie (RefreshCookieName a) EmptyString (CookiePath a) true true false (-1).

(** When the client should refresh: two minutes early, but not in the past. *)
Definition refresh_after (now : time) (s : AuthSession) : time :=
  let t := Add (se_ExpiresAt s) (- (2 * Minute)) in if Before t now then now else t.

(** ** Passwords *)
Section Password.
(** Unicode case folding, and the classes of runes outside of ASCII. *)
Context (EqualFold : string → string → bool) (other_letter other_digit : string → bool).

Definition weakPasswords : list string := ["admin"; "password"; "123456"; "12345678"; "qwerty"; "letmein"].

Definition ascii_letter (c : ascii) : bool :=
  let n := nat_of_ascii c in bool_decide (97 ≤ n ≤ 122)%nat || bool_decide (65 ≤ n ≤ 90)%nat.
Definition ascii_digit (c : ascii) : bool := bool_decide (48 ≤ nat_of_ascii c ≤ 57)%nat.

(** The first rune of a non-empty text: one byte below 128, a UTF-8 sequence,
    or a byte that is part of neither. *)
Definition first_rune (c : ascii) (s : string) : string * string :=
  if bool_decide (nat_of_ascii c < 128)%nat then (String c EmptyString, s)
  else match Json.split_rune (String c s) with
       | Some (r, rest) => (r, rest)
       | None => (String c EmptyString, s)
       end.

Inductive rune_class := Letter | Digit | Symbol.
Definition classify (r : string) : rune_class :=
  match r with
  | String c EmptyString =>
      if ascii_letter c then Letter else if ascii_digit c then Digit else Symbol
  | _ => if other_letter r then Letter else if other_digit r then Digit else Symbol
  end.

(** The classes of the runes of a text; the fuel is its length. *)
Fixpoint rune_classes (fuel : nat) (s : string) : list rune_class :=
  match fuel, s with
  | S fuel, String c r => let '(x, rest) := first_rune c r in classify x :: rune_classes fuel rest
  | _, _ => []
  end.

#[export] Instance rune_class_eq_dec : EqDecision rune_class.
Proof. solve_decision. Defined.

Definition hasRequiredPasswordComposition (password : string) : bool :=
  let cs := rune_classes (String.length password) password in
  bool_decide (Letter ∈ cs) && bool_decide (Digit ∈ cs) && bool_decide (Symbol ∈ cs).

Definition ValidateAdminPassword (login password : string) : result unit :=
  let password := TrimSpace password in
  if bool_decide (String.length password < passwordMinLength)%nat then Err "password must be at least 6 characters"
  else if bool_decide (ToLower password ∈ weakPasswords) || EqualFold (TrimSpace login) password
  then Err "password is too weak"
  else if negb (hasRequiredPasswordComposition password)
  then Err "password must include at least one letter, one digit, and one symbol"
  else Ok tt.
End Password.

(** ** Tokens against cross-site requests *)
Fixpoint hex_encode (s : string) : string :=
  match s with
  | EmptyString => EmptyString
  | String c s => String (Json.hex_char (nat_of_ascii c / 16)) (String (Json.hex_char (nat_of_ascii c mod 16)) (hex_encode s))
  end.

(** [fmt.Sscanf(text, "%d", &exp)]: leading spaces, a sign, digits; what
    follows the digits is not read.  A line break among the spaces is an
    error. *)
Fixpoint take_digits (s : string) : string :=
  match s with
  | String c r => match Strconv.digit_val c with Some _ => String c (take_digits r) | None => EmptyString end
  | EmptyString => EmptyString
  end.
Definition inline_spaces : list string := filter (fun p => p ≠ byte 10) spaces.
Definition scan_int (text : string) : result Z :=
  let s := trim_left inline_spaces (String.length text) text in
  let '(sign, r) := match s with
                    | String "-" r => ("-", r)
                    | String "+" r => (EmptyString, r)
                    | _ => (EmptyString, s)
                    end in
  match take_digits r with
  | EmptyString => Err "expected integer"
  | digits => Strconv.ParseInt (sign +:+ digits)
  end.

Definition Unix (t : time) : Z := t / Second.

Section CSRF.
(** [hmac.New(sha256.New, key)] over a message. *)
Context (HMAC : string → string → string).

Definition csrfSignature (a : Authenticator) (payload : string) : string := hex_encode (HMAC (au_csrfSecret a) payload).

Definition NewCSRFToken (a : Authenticator) (now : time) (sessionID : string) : string :=
  let payload := sessionID +:+ ":" +:+ Strconv.FormatInt (Unix (Add now csrfTTL)) in
  payload +:+ ":" +:+ csrfSignature a payload.

Definition ValidateCSRF (a : Authenticator) (now : time) (session : AuthSession) (token : string) : bool :=
  let token := TrimSpace token in
  if bool_decide (token = EmptyString) then false else
  match Split ":" token with
  | [sessionID; expText; sig] =>
      if negb (bool_decide (sessionID = se_ID session)) then false else
      match scan_int expText with
      | Err _ => false
      | Ok exp =>
          if exp <? Unix now then false
          else bool_decide (sig = csrfSignature a (sessionID +:+ ":" +:+ expText))
      end
  | _ => false
  end.
End CSRF.

(** ** Signing in *)
Record LoginResult := mkLoginResult {
  lr_Principal : Principal;
  lr_Session : AuthSession;
  lr_SessionToken : string;
  lr_RefreshToken : string;
  lr_CSRFToken : string;
}.

(** The session in which only the password can be changed. *)
Record PasswordChange := mkPasswordChange { pc_Token : string; pc_SessionID : string }.

(** What a call draws from outside. *)
Record AuthFresh := mkAuthFresh {
  af_clock : nat → time;
  af_sessionToken : result string;
  af_refreshToken : result string;
  af_ids : AuthIDs;
}.

Section Authenticate.
(** [tokens.Hash]: the SHA-256 of a token, in hexadecimal. *)
Context (Hash : string → string).
Context (HMAC : string → string → string).
(** [bcrypt.CompareHashAndPassword] succeeds; [bcrypt.GenerateFromPassword]. *)
Context (Matches : string → string → bool) (GenerateFromPassword : string → result string).
Context (EqualFold : string → string → bool) (other_letter other_digit : string → bool).
Context (a : Authenticator).

Definition principal_of (ident : AuthIdentity) (profile : AdminProfile) (session : AuthSession) : Principal :=
  mkPrincipal (id_Login ident) (pr_Role profile) (PermissionsForRole (pr_Role profile)) (id_ID ident) (se_ID session).

(** [err != nil || row.Status != StatusActive] *)
Definition active_row {A} (status : A → string) (r : result A) : option A :=
  match r with
  | Ok x => if bool_decide (status x = StatusActive) then Some x else None
  | Err _ => None
  end.

Definition AuthenticateSessionRequest (now : time) (cookie : option string) (d : AuthDB)
    : AuthDB * option (Principal * AuthSession) :=
  match cookie with
  | None => (d, None)
  | Some value =>
      if bool_decide (TrimSpace value = EmptyString) then (d, None) else
      match active_row se_Status (GetActiveAuthSessionByTokenHash (Hash value) d) with
      | None => (d, None)
      | Some session =>
          if negb (IsZero (se_ExpiresAt session)) && After now (se_ExpiresAt session)
          then (RevokeAuthSessionsByIdentityID now (se_IdentityID session) d, None)
          else (d,
            ident ← active_row id_Status (GetAuthIdentity (se_IdentityID session) d);
            if id_MustChangePassword ident then None else
            profile ← active_row pr_Status (GetAdminProfile (id_ID ident) d);
            Some (principal_of ident profile session, session))
      end
  end.

Definition new_session (now : time) (ident : AuthIdentity) (sessionToken refreshToken : string) : AuthSession :=
  mkAuthSession EmptyString (id_ID ident) (id_AccountID ident) (Hash sessionToken) (Hash refreshToken)
    (Add now refreshTTL) (Add now refreshAbsoluteTTL) StatusActive (Add now (au_sessionTTL a))
    zero_time zero_time zero_time zero_time zero_time.

Definition issueNormalSession (fr : AuthFresh) (ident : AuthIdentity) : goM AuthDB LoginResult := fun d =>
  match active_row pr_Status (GetAdminProfile (id_ID ident) d) with
  | None => (d, Err ErrInvalidCredentials)
  | Some profile =>
      (sessionToken ← liftM (af_sessionToken fr);
       refreshToken ← liftM (af_refreshToken fr);
       session ← CreateAuthSession (af_clock fr 3) (af_ids fr)
                   (new_session (af_clock fr 2) ident sessionToken refreshToken);
       mret (mkLoginResult (principal_of ident profile session) session sessionToken refreshToken
               (NewCSRFToken HMAC a (af_clock fr 4) (se_ID session)))) d
  end.

Definition count_failure (c : AuthCredential) (now : time) : AuthCredential :=
  mkAuthCredential (cr_ID c) (cr_IdentityID c) (cr_Type c) (cr_SecretHash c) (cr_FailedAttempts c + 1)
    (if lockoutAttempts <=? cr_FailedAttempts c + 1 then Add now lockoutDuration else cr_LockedUntil c)
    (cr_Status c) (cr_CreatedAt c) (cr_UpdatedAt c).

Definition recordFailedLogin (now nowStore : time) (c : AuthCredential) : goM AuthDB AuthCredential :=
  UpdateAuthCredential nowStore (count_failure c now).

Definition reset_failures (c : AuthCredential) : AuthCredential :=
  mkAuthCredential (cr_ID c) (cr_IdentityID c) (cr_Type c) (cr_SecretHash c) 0 zero_time (cr_Status c)
    (cr_CreatedAt c) (cr_UpdatedAt c).

(** A session, or the token with which the password must be changed first. *)
Definition LoginWithPassword (fr : AuthFresh) (login password : string) : goM AuthDB (LoginResult + PasswordChange) := fun d =>
  match active_row id_Status (FindActiveAdminIdentityByLogin (TrimSpace login) d) with
  | None => (d, Err ErrInvalidCredentials)
  | Some ident =>
  match active_row cr_Status (GetAuthCredential (id_ID ident) AuthCredentialTypePassword d) with
  | None => (d, Err ErrInvalidCredentials)
  | Some credential =>
      if negb (IsZero (cr_LockedUntil credential)) && Before (af_clock fr 0) (cr_LockedUntil credential)
      then (d, Err ErrInvalidCredentials)
      else if negb (Matches (cr_SecretHash credential) password)
      then ((recordFailedLogin (af_clock fr 1) (af_clock fr 2) credential d).1, Err ErrInvalidCredentials)
      else
      let d := if negb (cr_FailedAttempts credential =? 0) || negb (IsZero (cr_LockedUntil credential))
               then (UpdateAuthCredential (af_clock fr 1) (reset_failures credential) d).1 else d in
      if id_MustChangePassword ident then
        (changeToken ← liftM (af_sessionToken fr);
         limited ← CreateAuthSession (af_clock fr 3) (af_ids fr)
           (mkAuthSession EmptyString (id_ID ident) EmptyString (Hash changeToken) EmptyString zero_time zero_time
              StatusHeld (Add (af_clock fr 2) changeTTL) zero_time zero_time zero_time zero_time zero_time);
         mret (inr (mkPasswordChange changeToken (se_ID limited)))) d
      else (r ← issueNormalSession fr ident; mret (inl r)) d
  end
  end.

Definition set_password (hash : string) (c : AuthCredential) : AuthCredential :=
  mkAuthCredential (cr_ID c) (cr_IdentityID c) (cr_Type c) hash 0 zero_time StatusActive (cr_CreatedAt c) (cr_UpdatedAt c).
Definition password_changed (i : AuthIdentity) : AuthIdentity :=
  mkAuthIdentity (id_ID i) (id_Kind i) (id_Login i) (id_DisplayName i) (id_AccountID i) (id_Status i) false
    (id_VerifiedAt i) (id_CreatedAt i) (id_UpdatedAt i).

Definition ChangePassword (fr : AuthFresh) (changeToken newPassword : string) : goM AuthDB LoginResult := fun d =>
  match GetAuthSessionByTokenHash (Hash changeToken) d with
  | Err _ => (d, Err ErrInvalidCredentials)
  | Ok session =>
      if negb (bool_decide (se_Status session = StatusHeld)) ||
         (negb (IsZero (se_ExpiresAt session)) && After (af_clock fr 0) (se_ExpiresAt session))
      then (d, Err ErrInvalidCredentials) else
      match active_row id_Status (GetAuthIdentity (se_IdentityID session) d) with
      | None => (d, Err ErrInvalidCredentials)
      | Some ident =>
          if negb (id_MustChangePassword ident) then (d, Err ErrInvalidCredentials) else
          (_ ← liftM (ValidateAdminPassword EqualFold other_letter other_digit (id_Login ident) newPassword);
           hash ← liftM (GenerateFromPassword newPassword);
           credential ← query (GetAuthCredential (id_ID ident) AuthCredentialTypePassword);
           _ ← UpdateAuthCredential (af_clock fr 1) (set_password hash credential);
           _ ← UpdateAuthIdentity (af_clock fr 1) (password_changed ident);
           _ ← (fun d => (RevokeAuthSessionsByIdentityID (af_clock fr 1) (id_ID ident) d, Ok tt));
           issueNormalSession fr (password_changed ident)) d
      end
  end.

Definition Logout (now : time) (cookie : option string) : goM AuthDB unit := fun d =>
  match AuthenticateSessionRequest now cookie d with
  | (d, None) => (d, Err ErrInvalidCredentials)
  | (d, Some (_, session)) => (RevokeAuthSessionsByIdentityID now (se_IdentityID session) d, Ok tt)
  end.

(** The stored session decides, then the token is rotated.  A rotation within
    the grace window leaves the hash of the current refresh token in the
    session it returns. *)
Definition refresh_session (fr : AuthFresh) (refreshHash csrfToken sessionToken refreshToken : string)
    : goM AuthDB LoginResult := fun d =>
  let now := af_clock fr 0 in
  match GetAuthSessionByRefreshHashForRotation (af_clock fr 1) refreshHash refreshReuseGrace d with
  | Err _ => (d, Err ErrInvalidCredentials)
  | Ok session =>
      if bool_decide (se_RefreshTokenHash session = EmptyString) || After now (se_RefreshExpiresAt session) ||
         After now (se_RefreshAbsoluteUntil session) then (d, Err ErrInvalidCredentials)
      else if negb (ValidateCSRF HMAC a (af_clock fr 2) session csrfToken) then (d, Err ErrInvalidCredentials)
      else
      match active_row id_Status (GetAuthIdentity (se_IdentityID session) d) with
      | None => (d, Err ErrInvalidCredentials)
      | Some ident =>
          if id_MustChangePassword ident then (d, Err ErrInvalidCredentials) else
          match active_row pr_Status (GetAdminProfile (id_ID ident) d) with
          | None => (d, Err ErrInvalidCredentials)
          | Some profile =>
              (rotation ← RotateAuthRefreshToken (af_clock fr 3) (ai_token (af_ids fr)) refreshHash
                  (Hash sessionToken) (Add now (au_sessionTTL a)) (Hash refreshToken) (Add now refreshTTL)
                  refreshReuseGrace;
               let session := ro_Session rotation in
               mret (mkLoginResult (principal_of ident profile session) session sessionToken refreshToken
                       (NewCSRFToken HMAC a (af_clock fr 4) (se_ID session)))) d
          end
      end
  end.

Definition Refresh (fr : AuthFresh) (rawRefreshToken csrfToken : string) : goM AuthDB LoginResult :=
  sessionToken ← liftM (af_sessionToken fr);
  refreshToken ← liftM (af_refreshToken fr);
  refresh_session fr (Hash rawRefreshToken) csrfToken sessionToken refreshToken.
End Authenticate.

(** ** The first owner *)
Definition activeOwnerExists (items : list AdminIdentityProfile) : bool :=
  existsb (fun item => bool_decide (id_Status (aip_Identity item) = StatusActive) &&
                       bool_decide (pr_Status (aip_Profile item) = StatusActive) &&
                       bool_decide (pr_Role (aip_Profile item) = AdminRoleOwner)) items.

(** [create role ttl note invitedByID invitedByLogin] is the handler that makes
    an invitation; the outcome says whether one was made. *)
Definition EnsureBootstrapOwnerInvite {I} (create : string → duration → string → string → string → goM AuthDB I)
    (clock : nat → time) : goM AuthDB (option I) := fun d =>
  if activeOwnerExists (ListAdminIdentityProfiles (clock 0%nat) d) then (d, Ok None) else
  let d := match FindActiveSystemOwnerInvite (clock 1%nat) d with
           | Ok existing => (RevokeAdminInvite (clock 2%nat) (inv_ID existing) d).1
           | Err _ => d
           end in
  (invite ← create AdminRoleOwner (24 * Hour) "bootstrap owner invite" EmptyString "system"; mret (Some invite)) d.

(** ** The lockout *)

(** The password of the identity [i] is the credential [c]. *)
Record has_password (i : AuthIdentity) (c : AuthCredential) (d : AuthDB) : Prop := {
  hp_wf : credentials_wf d;
  hp_row : auth_credentials d !! cr_ID c = Some c;
  hp_identity : cr_IdentityID c = id_ID i;
  hp_type : cr_Type c = AuthCredentialTypePassword;
  hp_status : cr_Status c = StatusActive;
}.

Lemma has_password_found i c d : has_password i c d → GetAuthCredential (id_ID i) AuthCredentialTypePassword d = Ok c.
Proof.
  intros [Hwf Hr Hi Ht Hs]. unfold GetAuthCredential. eapply find_row_unique; [exact Hr| |].
  - rewrite Hi, Ht, Hs, !bool_decide_eq_true_2 by done. done.
  - intros k x Hx HP. rewrite !andb_true_iff, negb_true_iff, !bool_decide_eq_true, bool_decide_eq_false in HP.
    destruct HP as [[Hxi Hxt] Hxs].
    assert (k = cr_ID c) as ->; [|congruence].
    apply (cw_unique _ Hwf _ _ _ _ Hx Hr). unfold credential_clash. rewrite Hi, Ht, Hs, Hxi, Hxt.
    rewrite (bool_decide_eq_false_2 _ Hxs), (bool_decide_eq_true_2 (id_ID i = id_ID i)) by done. done.
Qed.

(** Rewriting counters and lock of a credential in place. *)
Lemma UpdateAuthCredential_password now i c c' d :
  has_password i c d → cr_ID c' = cr_ID c → cr_Status c' = StatusActive →
  let d' := (UpdateAuthCredential now c' d).1 in
  has_password i (write_credential now c' c) d' ∧ auth_identities d' = auth_identities d.
Proof.
  intros Hp Hid Hst. pose proof (UpdateAuthCredential_wf now c' d (hp_wf _ _ _ Hp)) as Hwf'.
  destruct Hp as [Hwf Hr Hi Ht Hs]. revert Hwf'. unfold UpdateAuthCredential, update_unique. rewrite Hid, Hr.
  destruct (sql_exists _ _) eqn:E.
  { apply sql_exists_true in E as (k & x & Hx & Hc). apply lookup_delete_Some in Hx as [Hk Hx].
    exfalso. apply Hk. symmetry. apply (cw_unique _ Hwf _ _ _ _ Hx Hr). rewrite credential_clash_sym.
    unfold credential_clash in *. cbn in Hc. by rewrite Hst in Hc; rewrite Hs. }
  cbn. intros Hwf'. split; [|done]. constructor; cbn; [done| |done..]. apply lookup_insert_eq.
Qed.

Section Lockout.
Context (Hash : string → string) (HMAC : string → string → string).
Context (Matches : string → string → bool) (a : Authenticator).
Local Abbreviation Login := (LoginWithPassword Hash HMAC Matches a).

Lemma failed_login fr login password i c d :
  FindActiveAdminIdentityByLogin (TrimSpace login) d = Ok i → id_Status i = StatusActive → has_password i c d →
  IsZero (cr_LockedUntil c) = true → Matches (cr_SecretHash c) password = false →
  let d' := (Login fr login password d).1 in
  FindActiveAdminIdentityByLogin (TrimSpace login) d' = Ok i ∧
  has_password i (write_credential (af_clock fr 2) (count_failure c (af_clock fr 1)) c) d'.
Proof.
  intros Hf Hst Hp Hz Hm. unfold LoginWithPassword. rewrite Hf. cbn [active_row].
  rewrite bool_decide_eq_true_2 by done. rewrite (has_password_found _ _ _ Hp). cbn [active_row].
  rewrite bool_decide_eq_true_2 by apply Hp. rewrite Hz, Hm. cbn [negb andb fst]. unfold recordFailedLogin.
  destruct (UpdateAuthCredential_password (af_clock fr 2) i c (count_failure c (af_clock fr 1)) d Hp eq_refl
    (hp_status _ _ _ Hp)) as [Hp' Hi]. split; [|done].
  unfold FindActiveAdminIdentityByLogin in *. by rewrite Hi.
Qed.

Lemma locked_login fr login password i c d :
  FindActiveAdminIdentityByLogin (TrimSpace login) d = Ok i → id_Status i = StatusActive → has_password i c d →
  IsZero (cr_LockedUntil c) = false → af_clock fr 0 < cr_LockedUntil c →
  Login fr login password d = (d, Err ErrInvalidCredentials).
Proof.
  intros Hf Hst Hp Hz Hlt. unfold LoginWithPassword. rewrite Hf. cbn [active_row].
  rewrite bool_decide_eq_true_2 by done. rewrite (has_password_found _ _ _ Hp). cbn [active_row].
  rewrite bool_decide_eq_true_2 by apply Hp. rewrite Hz. unfold Before. by rewrite (proj2 (Z.ltb_lt _ _) Hlt).
Qed.

(** The failures before the tenth only count. *)
Lemma failures_count login i (attempts : list (AuthFresh * string)) c d :
  FindActiveAdminIdentityByLogin (TrimSpace login) d = Ok i → id_Status i = StatusActive → has_password i c d →
  IsZero (cr_LockedUntil c) = true → 0 <= cr_FailedAttempts c →
  cr_FailedAttempts c + Z.of_nat (length attempts) < lockoutAttempts →
  Forall (fun at_ => Matches (cr_SecretHash c) at_.2 = false) attempts →
  let d' := foldl (fun d at_ => (Login at_.1 login at_.2 d).1) d attempts in
  FindActiveAdminIdentityByLogin (TrimSpace login) d' = Ok i ∧
  ∃ c', has_password i c' d' ∧ IsZero (cr_LockedUntil c') = true ∧ cr_SecretHash c' = cr_SecretHash c ∧
        cr_FailedAttempts c' = cr_FailedAttempts c + Z.of_nat (length attempts).
Proof.
  intros Hf Hst. revert c d Hf. induction attempts as [|[fr pw] l IH]; intros c d Hf Hp Hz H0 Hlt Hm; cbn [foldl].
  { split; [done|]. exists c. split_and!; [done..|]. cbn. lia. }
  cbn [length] in *. apply list.Forall_cons in Hm as [Hm Hl].
  destruct (failed_login fr login pw i c d Hf Hst Hp Hz Hm) as [Hf' Hp']. cbn [fst snd] in *.
  assert (Hns : (lockoutAttempts <=? cr_FailedAttempts c + 1) = false) by (apply Z.leb_gt; lia).
  destruct (IH _ _ Hf' Hp') as (Hf2 & c' & Hp2 & Hz2 & Hh & Hn); cbn; rewrite ?Hns; [done|lia|lia|done|].
  split; [done|]. exists c'. split_and!; [done..|]. cbn in Hn. lia.
Qed.
End Lockout.

(** C30. Ten wrong passwords in a row lock an administrator out: for fifteen
    minutes from the tenth failure every further attempt to sign in under that
    login is refused, the correct password included, and changes nothing. *)
Theorem ten_failures_lock Hash HMAC Matches a login i c d (attempts : list (AuthFresh * string)) fr10 pw10 :
  FindActiveAdminIdentityByLogin (TrimSpace login) d = Ok i → has_password i c d →
  cr_FailedAttempts c = 0 → cr_LockedUntil c = zero_time → length attempts = 9%nat →
  Forall (fun at_ => Matches (cr_SecretHash c) at_.2 = false) (attempts ++ [(fr10, pw10)]) →
  0 <= af_clock fr10 1 →
  let d' := foldl (fun d at_ => (LoginWithPassword Hash HMAC Matches a at_.1 login at_.2 d).1) d (attempts ++ [(fr10, pw10)]) in
  ∀ fr password, af_clock fr 0 < af_clock fr10 1 + lockoutDuration →
    LoginWithPassword Hash HMAC Matches a fr login password d' = (d', Err ErrInvalidCredentials).
Proof.
  intros Hf Hp H0 Hz Hlen [Hm Hm10]%Forall_app H1970 d' fr password Hlt. unfold d'. rewrite foldl_app. cbn [foldl fst snd].
  assert (Hst : id_Status i = StatusActive).
  { apply find_row_Ok in Hf as [HP _]. rewrite !andb_true_iff, !bool_decide_eq_true in HP. by destruct HP. }
  destruct (failures_count Hash HMAC Matches a login i attempts c d) as (Hf9 & c9 & Hp9 & Hz9 & Hh9 & Hn9);
    [done|done|done|by rewrite Hz|lia|rewrite Hlen, H0; done|done|].
  apply list.Forall_cons in Hm10 as [Hm10 _]. rewrite <-Hh9 in Hm10.
  destruct (failed_login Hash HMAC Matches a fr10 login pw10 i c9 _ Hf9 Hst Hp9 Hz9 Hm10) as [Hf10 Hp10].
  eapply locked_login; [exact Hf10|done|exact Hp10|..]; cbn; rewrite Hn9, Hlen, H0;
    change (lockoutAttempts <=? 0 + Z.of_nat 9 + 1) with true; cbn iota.
  - assert (zero_time < 0) by reflexivity. assert (0 < lockoutDuration) by reflexivity.
    unfold IsZero, Add. apply Z.eqb_neq. lia.
  - exact Hlt.
Qed.

(** ** Refresh tokens *)

Lemma session_of_token_none P h d :
  (∀ id t, auth_refresh_tokens d !! id = Some t → rt_TokenHash t = h → P t = false) →
  session_of_token P h d = Err ErrNotFound.
Proof.
  intros Hn. unfold session_of_token.
  assert (sql_select (fun t => bool_decide (rt_TokenHash t = h) && P t) (auth_refresh_tokens d) = []) as ->; [|done].
  apply elem_of_nil_inv. intros t [HP [id Ht]]%elem_of_sql_select. apply andb_prop in HP as [Hh%bool_decide_eq_true HP].
  by rewrite (Hn _ _ Ht Hh) in HP.
Qed.

Lemma session_of_token_Ok P h d s :
  session_of_token P h d = Ok s →
  ∃ id t, auth_refresh_tokens d !! id = Some t ∧ rt_TokenHash t = h ∧ P t = true ∧
    auth_sessions d !! rt_SessionID t = Some s ∧ se_Status s = StatusActive.
Proof.
  unfold session_of_token, first_row. destruct (omap _ _) as [|x l] eqn:E; [done|]. intros [= <-].
  assert (Hin : x ∈ x :: l) by (by left). rewrite <-E in Hin.
  apply list_elem_of_omap in Hin as (t & [HP [id Ht]]%elem_of_sql_select & Hs).
  apply andb_prop in HP as [Hh%bool_decide_eq_true HP]. exists id, t. split_and!; [done..| |].
  - by destruct (auth_sessions d !! rt_SessionID t) as [y|]; [case_bool_decide; simplify_eq|].
  - by destruct (auth_sessions d !! rt_SessionID t) as [y|]; [case_bool_decide; simplify_eq|].
Qed.

Lemma session_of_token_unique P d id t s :
  auth_wf d → auth_refresh_tokens d !! id = Some t → P t = true →
  auth_sessions d !! rt_SessionID t = Some s → se_Status s = StatusActive →
  session_of_token P (rt_TokenHash t) d = Ok s.
Proof.
  intros Hwf Ht HP Hs Ha. destruct (session_of_token P (rt_TokenHash t) d) as [s'|e] eqn:E.
  - apply session_of_token_Ok in E as (id' & t' & Ht' & Hh & _ & Hs' & _).
    assert (id' = id) as -> by (by eapply (aw_token_hash _ Hwf)). congruence.
  - exfalso. unfold session_of_token, first_row in E. destruct (omap _ _) as [|x l] eqn:El; [|done].
    assert (Hin : s ∈ omap (fun t => match auth_sessions d !! rt_SessionID t with
      | Some s => if bool_decide (se_Status s = StatusActive) then Some s else None | None => None end)
      (sql_select (fun x => bool_decide (rt_TokenHash x = rt_TokenHash t) && P x) (auth_refresh_tokens d))).
    { apply list_elem_of_omap. exists t. split.
      - apply elem_of_sql_select. rewrite bool_decide_eq_true_2, HP by done. eauto.
      - by rewrite Hs, bool_decide_eq_true_2. }
    rewrite El in Hin. by apply elem_of_nil in Hin.
Qed.

Section Refreshing.
Context (Hash : string → string) (HMAC : string → string → string) (a : Authenticator).

(** Storage would end the session of a reused token. *)
Lemma reuse_ends_session now newID th ex rh re g d id t s :
  auth_wf d → auth_refresh_tokens d !! id = Some t → auth_sessions d !! rt_SessionID t = Some s →
  se_Status s = StatusActive → rt_Status t = AuthRefreshTokenStatusRotated → in_grace now g t = false →
  ended (RotateAuthRefreshToken now newID (rt_TokenHash t) th ex rh re g d).1 (rt_SessionID t).
Proof.
  intros Hwf Ht Hs Ha Hr Hg. unfold RotateAuthRefreshToken.
  rewrite (find_row_unique _ _ id t); [|done|by apply bool_decide_eq_true|].
  2: { intros k x Hx Hh%bool_decide_eq_true. assert (k = id) as -> by (by eapply (aw_token_hash _ Hwf)). congruence. }
  unfold get_row. rewrite Hs, bool_decide_eq_true_2 by done. cbn [negb].
  rewrite bool_decide_eq_false_2 by (by rewrite Hr). rewrite Hg. unfold ended. cbn.
  rewrite lookup_sql_update, Hs. cbn. rewrite bool_decide_eq_true_2 by done. by eexists.
Qed.

Lemma refresh_session_none fr h csrf st rt d :
  GetAuthSessionByRefreshHashForRotation (af_clock fr 1) h refreshReuseGrace d = Err ErrNotFound →
  refresh_session Hash HMAC a fr h csrf st rt d = (d, Err ErrInvalidCredentials).
Proof. intros E. unfold refresh_session. by rewrite E. Qed.

Lemma Refresh_none fr raw csrf d :
  GetAuthSessionByRefreshHashForRotation (af_clock fr 1) (Hash raw) refreshReuseGrace d = Err ErrNotFound →
  (Refresh Hash HMAC a fr raw csrf d).1 = d ∧ is_ok (Refresh Hash HMAC a fr raw csrf d).2 = false.
Proof.
  intros E. unfold Refresh, mbind, goM_bind, liftM. destruct (af_sessionToken fr); [|done].
  destruct (af_refreshToken fr); [|done]. by rewrite refresh_session_none.
Qed.
End Refreshing.

(** A refresh token that was spent longer than the grace window ago is
    refused when it is presented again, and that is all: although storage
    would end the session of a reused token, the request is turned away by the
    lookup in front of it and the database stays as it is, so the session and
    the token that replaced the spent one remain usable. *)
Theorem reuse_goes_unpunished Hash HMAC a fr raw csrf d id t s :
  auth_wf d → auth_refresh_tokens d !! id = Some t → rt_TokenHash t = Hash raw →
  auth_sessions d !! rt_SessionID t = Some s → se_Status s = StatusActive →
  rt_Status t = AuthRefreshTokenStatusRotated →
  ¬ String.le (ts (Add (af_clock fr 1) (- refreshReuseGrace))) (ts (rt_RotatedAt t)) →
  ((Refresh Hash HMAC a fr raw csrf d).1 = d ∧ is_ok (Refresh Hash HMAC a fr raw csrf d).2 = false) ∧
  (∀ now newID th ex rh re g, in_grace now g t = false →
     ended (RotateAuthRefreshToken now newID (Hash raw) th ex rh re g d).1 (rt_SessionID t)).
Proof.
  intros Hwf Ht Hh Hs Ha Hr Hlate. split.
  - apply Refresh_none, session_of_token_none. intros id' t' Ht' Hh'.
    assert (id' = id) as -> by (eapply (aw_token_hash _ Hwf); [done|done|congruence]).
    assert (t' = t) as -> by congruence. unfold rotatable. rewrite Hr.
    rewrite (bool_decide_eq_false_2 (String.le _ _)) by done. by rewrite andb_false_r.
  - intros. rewrite <-Hh. by eapply reuse_ends_session.
Qed.

(** What [Refresh] found when it succeeded. *)
Lemma Refresh_Ok Hash HMAC a fr raw csrf d d' lr :
  Refresh Hash HMAC a fr raw csrf d = (d', Ok lr) →
  ∃ ro, RotateAuthRefreshToken (af_clock fr 3) (ai_token (af_ids fr)) (Hash raw) (Hash (lr_SessionToken lr))
          (Add (af_clock fr 0) (au_sessionTTL a)) (Hash (lr_RefreshToken lr)) (Add (af_clock fr 0) refreshTTL)
          refreshReuseGrace d = (d', Ok ro) ∧ lr_Session lr = ro_Session ro.
Proof.
  intros (w1 & st & [= <- _] & E)%bindM_Ok. apply bindM_Ok in E as (w2 & rt & [= <- _] & E).
  unfold refresh_session in E. destruct (GetAuthSessionByRefreshHashForRotation _ _ _ _) as [s|e]; [|done].
  destruct (_ || _); [done|]. destruct (negb _); [done|].
  destruct (active_row id_Status _) as [i|]; [|done]. destruct (id_MustChangePassword i); [done|].
  destruct (active_row pr_Status _) as [p|]; [|done].
  apply bindM_Ok in E as (w3 & ro & Hro & [= <- <-]). by exists ro.
Qed.

(** A rotation replaces the hashes of the session and spends the token. *)
Lemma rotate_token_effect now newID old s th ex rh re d d' ro :
  auth_wf d → auth_refresh_tokens d !! rt_ID old = Some old → auth_sessions d !! se_ID s = Some s →
  se_Status s = StatusActive →
  rotate_token now newID old s th ex rh re d = Ok (d', ro) →
  GetActiveAuthSessionByTokenHash th d' = Ok (ro_Session ro) ∧
  GetActiveAuthSessionByRefreshHash rh d' = Ok (ro_Session ro) ∧
  GetActiveAuthSessionByRefreshHash (rt_TokenHash old) d' = Err ErrNotFound.
Proof.
  intros Hwf Hold Hs Ha E. pose proof (rotate_token_wf _ _ _ _ _ _ _ _ _ _ _ Hwf Hs E) as Hwf'.
  unfold rotate_token in E. cbv zeta in E. apply bind_Ok in E as (ss & Hss & E).
  apply bind_Ok in E as (ts' & (Hnone & -> & _)%insert_unique_Ok & E). injection E as <- <-. cbn [ro_Session].
  set (s' := renew_session th ex rh re now s) in *. set (new := next_token now newID rh re old s) in *.
  apply update_unique_Ok in Hss as [[Hn _]|(r & Hr & -> & _)]; [congruence|].
  assert (r = s) as -> by congruence. fold s' in Hwf' |- *. clear Hr.
  set (d' := set_tokens _ _) in *.
  assert (Hs' : auth_sessions d' !! se_ID s = Some s') by (cbn; apply lookup_insert_eq).
  assert (Hnew : auth_refresh_tokens d' !! rt_ID new = Some new) by (cbn; apply lookup_insert_eq).
  split_and!.
  - eapply find_row_unique; [exact Hs'| |].
    + by rewrite !bool_decide_eq_true_2.
    + intros k x Hx HP. rewrite andb_true_iff, !bool_decide_eq_true in HP. destruct HP as [Hh _].
      assert (k = se_ID s) as -> by (by eapply (aw_session_hash _ Hwf')). congruence.
  - by eapply (session_of_token_unique _ _ (rt_ID new) new s' Hwf' Hnew).
  - apply session_of_token_none. intros k x Hx Hh. apply bool_decide_eq_false.
    assert (Hrot : auth_refresh_tokens d' !! rt_ID old = Some (use_token AuthRefreshTokenStatusRotated now now old)).
    { cbn. rewrite lookup_insert_ne.
      - unfold spend_token. rewrite !lookup_sql_update, Hold. cbn [fmap option_fmap option_map].
        rewrite (bool_decide_eq_true_2 (rt_ID old = rt_ID old)) by done. cbn.
        rewrite (bool_decide_eq_true_2 (rt_ID old = rt_ID old)) by done. by rewrite andb_false_r.
      - intros Ee. change (rt_ID new) with newID in Hnone. unfold spend_token in Hnone.
        rewrite !lookup_sql_update, Ee, Hold in Hnone. done. }
    assert (k = rt_ID old) as -> by (by eapply (aw_token_hash _ Hwf')). rewrite Hx in Hrot. injection Hrot as ->. cbn. done.
Qed.

(** What a caller can do with the tokens of a login result. *)
Definition tokens_work (Hash : string → string) (lr : LoginResult) (d : AuthDB) : Prop :=
  GetActiveAuthSessionByTokenHash (Hash (lr_SessionToken lr)) d = Ok (lr_Session lr) ∧
  GetActiveAuthSessionByRefreshHash (Hash (lr_RefreshToken lr)) d = Ok (lr_Session lr).

(** Neither token is known to the database. *)
Definition tokens_unknown (Hash : string → string) (lr : LoginResult) (d : AuthDB) : Prop :=
  GetActiveAuthSessionByTokenHash (Hash (lr_SessionToken lr)) d = Err ErrNotFound ∧
  GetActiveAuthSessionByRefreshHash (Hash (lr_RefreshToken lr)) d = Err ErrNotFound.

Lemma grace_token_effect now old s d d' ro :
  grace_token now old s d = Ok (d', ro) →
  auth_sessions d' = auth_sessions d ∧ pointwise tame_token (auth_refresh_tokens d) (auth_refresh_tokens d').
Proof.
  unfold grace_token. cbv zeta. intros (cur & _ & [= <- _])%bind_Ok. split; [done|]. cbn.
  apply pointwise_update; [apply _|]. by intros r _.
Qed.

(** C31. A successful refresh with an active token hands out an access and a
    refresh token that work, and the presented token is no longer active.  Not
    so within the grace window: a token that was just spent is answered with
    two tokens the database has never seen, so that, unless they happen to
    collide with stored ones, neither of them is accepted afterwards. *)
Theorem refresh_hands_out Hash HMAC a fr raw csrf d d' lr :
  auth_wf d → Refresh Hash HMAC a fr raw csrf d = (d', Ok lr) →
  ∃ id t, auth_refresh_tokens d !! id = Some t ∧ rt_TokenHash t = Hash raw ∧
    ((rt_Status t = AuthRefreshTokenStatusActive ∧ tokens_work Hash lr d' ∧
      GetActiveAuthSessionByRefreshHash (Hash raw) d' = Err ErrNotFound) ∨
     (rt_Status t = AuthRefreshTokenStatusRotated ∧
      ((∀ k s, auth_sessions d !! k = Some s → se_TokenHash s ≠ Hash (lr_SessionToken lr)) →
       (∀ k x, auth_refresh_tokens d !! k = Some x → rt_TokenHash x ≠ Hash (lr_RefreshToken lr)) →
       tokens_unknown Hash lr d'))).
Proof.
  intros Hwf (ro & E & Hlr)%Refresh_Ok. unfold RotateAuthRefreshToken in E.
  destruct (find_row _ _) as [old|e] eqn:Ef; [|done]. apply find_row_Ok in Ef as [Hh%bool_decide_eq_true [id Hid]].
  exists id, old. split_and!; [done..|]. pose proof (aw_token_key _ Hwf _ _ Hid) as Hk. rewrite <-Hk in Hid.
  unfold get_row in E. destruct (auth_sessions d !! rt_SessionID old) as [s|] eqn:Es; [|done].
  rewrite <-(aw_session_key _ Hwf _ _ Es) in Es. case_bool_decide as Ha; [|done]. cbn [negb] in E.
  case_bool_decide as Hact; [left|right].
  - apply transaction_Ok in E. destruct (rotate_token_effect _ _ _ _ _ _ _ _ _ _ _ Hwf Hid Es Ha E) as (H1 & H2 & H3).
    rewrite Hh in H3. unfold tokens_work. by rewrite Hlr.
  - destruct (in_grace _ _ old) eqn:Eg; [|done]. unfold in_grace in Eg. rewrite !andb_true_iff in Eg.
    destruct Eg as [[Hrot%bool_decide_eq_true _] _]. split; [done|]. intros Hns Hnt.
    apply transaction_Ok, grace_token_effect in E as [Hss Htt]. split.
    + apply find_row_none. intros k x. rewrite Hss. intros Hx. rewrite bool_decide_eq_false_2; [done|]. by eapply Hns.
    + apply session_of_token_none. intros k x Hx Heq. destruct (pointwise_lookup _ _ _ _ _ Htt Hx) as (y & Hy & _ & Hhy & _).
      exfalso. apply (Hnt _ _ Hy). congruence.
Qed.

(** ** Which CSRF tokens are accepted *)

Lemma hex_char_facts n : (n < 16)%nat → Json.hex_char n ≠ ":"%char ∧ visible (Json.hex_char n) = true.
Proof. intros H. do 16 (destruct n as [|n]; [by split|]). lia. Qed.

Lemma nibbles c : (nat_of_ascii c / 16 < 16)%nat ∧ (nat_of_ascii c mod 16 < 16)%nat.
Proof.
  split; [apply Nat.Div0.div_lt_upper_bound, nat_ascii_bounded|apply Nat.mod_upper_bound; lia].
Qed.

Lemma hex_encode_colon s : contains_byte ":" (hex_encode s) = false.
Proof.
  induction s as [|c s IH]; [done|]. cbn [hex_encode contains_byte]. destruct (nibbles c) as [H1 H2].
  apply hex_char_facts in H1 as [H1 _]. apply hex_char_facts in H2 as [H2 _].
  by rewrite IH, !bool_decide_eq_false_2.
Qed.

Lemma hex_encode_last s : s ≠ EmptyString → ∃ x d, hex_encode s = x +:+ String d EmptyString ∧ visible d = true.
Proof.
  induction s as [|c s IH]; [done|]. intros _. cbn [hex_encode]. destruct (nibbles c) as [H1 H2].
  apply hex_char_facts in H2 as [_ H2]. destruct s as [|c' s].
  - eexists (String _ EmptyString), _. split; [by rewrite string_app_cons, string_app_nil|done].
  - destruct IH as (x & d & -> & Hd); [done|]. eexists (String _ (String _ x)), d. by rewrite !string_app_cons.
Qed.

Lemma take_digits_digits fuel n acc :
  take_digits acc = acc → take_digits (Strconv.digits fuel n acc) = Strconv.digits fuel n acc.
Proof.
  revert n acc. induction fuel as [|fuel IH]; intros n acc Ha; [done|]. cbn [Strconv.digits].
  assert (Hs : take_digits (String (Strconv.digit_char (n mod 10)) acc) = String (Strconv.digit_char (n mod 10)) acc).
  { cbn [take_digits]. rewrite Strconv.digit_val_char by (apply Z.mod_pos_bound; lia). by rewrite Ha. }
  destruct (n <? 10); [done|]. by apply IH.
Qed.

Lemma digit_visible d : 0 <= d < 10 → visible (Strconv.digit_char d) = true.
Proof.
  intros Hd. assert (Hc : d ∈ [0;1;2;3;4;5;6;7;8;9]) by (rewrite !elem_of_cons; lia).
  repeat (apply elem_of_cons in Hc as [-> |Hc]; [done|]). by apply elem_of_nil in Hc.
Qed.

Lemma scan_int_FormatInt n : 0 <= n <= max_int64 → scan_int (Strconv.FormatInt n) = Ok n.
Proof.
  intros Hn. assert (Hp : Strconv.ParseInt (Strconv.FormatInt n) = Ok n).
  { apply Strconv.ParseInt_FormatInt. unfold in_int64, min_int64. lia. }
  unfold scan_int. unfold Strconv.FormatInt in *. rewrite (proj2 (Z.ltb_ge n 0)) in * by lia.
  destruct (Strconv.digits_head (Strconv.digit_fuel n) n EmptyString) as (d & rest & Hd & E); [lia|done|].
  pose proof (take_digits_digits (Strconv.digit_fuel n) n EmptyString eq_refl) as Htake. rewrite E in *.
  rewrite trim_left_id.
  2: { apply cut_any_visible; [by repeat constructor|by apply digit_visible]. }
  destruct (Strconv.digit_char_no_sign d Hd) as [H1 H2].
  assert (Hm : ∀ c r, c ≠ "-"%char → c ≠ "+"%char →
    match String c r with String "-" r => ("-", r) | String "+" r => (EmptyString, r) | _ => (EmptyString, String c r) end
      = (EmptyString, String c r)).
  { intros c r Hc1 Hc2. destruct c as [[] [] [] [] [] [] [] []]; first [reflexivity|by destruct Hc1|by destruct Hc2]. }
  rewrite Hm by done. rewrite Htake. by rewrite string_app_nil.
Qed.

(** A token issued for a session at some time is accepted exactly for that
    session, and until ten minutes after. *)
Theorem csrf_token_scope HMAC a s t now c r :
  (∀ key msg, HMAC key msg ≠ EmptyString) →
  visible c = true → contains_byte ":" (String c r) = false → 0 <= Unix (Add t csrfTTL) <= max_int64 →
  ValidateCSRF HMAC a now s (NewCSRFToken HMAC a t (String c r)) = true ↔
  String c r = se_ID s ∧ Unix now <= Unix (Add t csrfTTL).
Proof.
  intros Hmac Hc Hid Hexp. unfold NewCSRFToken. cbv zeta.
  set (exp := Strconv.FormatInt (Unix (Add t csrfTTL))). set (sig := csrfSignature HMAC a (String c r +:+ ":" +:+ exp)).
  assert (Htok : (String c r +:+ ":" +:+ exp) +:+ ":" +:+ sig = Join ":" [String c r; exp; sig]).
  { cbn [Join]. by rewrite !str_append_assoc. }
  unfold ValidateCSRF. rewrite Htok.
  assert (Htrim : TrimSpace (Join ":" [String c r; exp; sig]) = Join ":" [String c r; exp; sig]).
  { destruct (hex_encode_last (HMAC (au_csrfSecret a) (String c r +:+ ":" +:+ exp))) as (x & d & Hx & Hd); [done|].
    fold (csrfSignature HMAC a (String c r +:+ ":" +:+ exp)) in Hx. fold sig in Hx. rewrite Hx. cbn [Join].
    replace (String c r +:+ ":" +:+ exp +:+ ":" +:+ x +:+ String d EmptyString)
      with (String c ((r +:+ ":" +:+ exp +:+ ":" +:+ x) +:+ String d EmptyString))
      by (repeat (rewrite ?str_append_assoc, ?string_app_cons, ?string_app_nil); reflexivity).
    by apply TrimSpace_visible. }
  rewrite Htrim. rewrite Split_Join; [|done|].
  2: { repeat apply Forall_cons_2; [done| |apply hex_encode_colon|apply Forall_nil_2].
       by apply Strconv.FormatInt_contains. }
  rewrite bool_decide_eq_false_2 by (cbn [Join]; by rewrite string_app_cons).
  destruct (decide (String c r = se_ID s)) as [E|E].
  - rewrite (bool_decide_eq_true_2 _ E). cbn [negb]. unfold exp at 1. rewrite scan_int_FormatInt by done.
    rewrite (bool_decide_eq_true_2 (sig = _)) by done.
    destruct (Z.ltb_spec (Unix (Add t csrfTTL)) (Unix now)); split; intros; try done; try lia.
  - rewrite (bool_decide_eq_false_2 _ E). cbn [negb]. split; [done|]. by intros [].
Qed.

(** ** Who may write *)
Lemma active_row_Some {A} (status : A → string) r x : active_row status r = Some x → r = Ok x ∧ status x = StatusActive.
Proof. unfold active_row. destruct r as [y|e]; [|done]. case_bool_decide; [|done]. by intros [= <-]. Qed.

(** A request is authorised to change something only if it carries the
    token of an active, unexpired session of an active identity that does not
    have to change its password, and whose active profile is that of an owner
    or an administrator. *)
Theorem write_needs_admin Hash now cookie d d' p s permission q :
  AuthenticateSessionRequest Hash now cookie d = (d', Some (p, s)) →
  Authorize (Some p) permission = Some q →
  permission ≠ PermissionAdminRead → permission ≠ PermissionAuditRead →
  ∃ value i pr, cookie = Some value ∧ d' = d ∧
    GetActiveAuthSessionByTokenHash (Hash value) d = Ok s ∧ se_Status s = StatusActive ∧
    (IsZero (se_ExpiresAt s) = false → now <= se_ExpiresAt s) ∧
    auth_identities d !! se_IdentityID s = Some i ∧ id_Status i = StatusActive ∧ id_MustChangePassword i = false ∧
    GetAdminProfile (id_ID i) d = Ok pr ∧ pr_Status pr = StatusActive ∧
    (pr_Role pr = AdminRoleOwner ∨ pr_Role pr = AdminRoleAdmin).
Proof.
  unfold AuthenticateSessionRequest. destruct cookie as [value|]; [|done]. case_bool_decide; [done|].
  destruct (active_row se_Status _) as [s0|] eqn:Es; [|done]. apply active_row_Some in Es as [Es Ha].
  destruct (negb _ && _) eqn:Ex; [done|]. intros [= <- E] Hauth Hp1 Hp2.
  destruct (active_row id_Status _) as [i|] eqn:Ei; [|done]. cbn in E. apply active_row_Some in Ei as [Ei Hi].
  destruct (id_MustChangePassword i) eqn:Em; [done|].
  destruct (active_row pr_Status _) as [pr|] eqn:Ep; [|done]. apply active_row_Some in Ep as [Ep Hpr].
  injection E as <- <-. exists value, i, pr. split_and!; try done.
  - intros Hz. rewrite Hz in Ex. cbn in Ex. unfold After in Ex. by apply Z.ltb_ge in Ex.
  - unfold GetAuthIdentity, get_row in Ei. by destruct (auth_identities d !! _); simplify_eq.
  - cbn in Hauth. destruct (HasPermission _ permission) eqn:Hh; [|done]. unfold HasPermission in Hh.
    apply bool_decide_eq_true in Hh. cbn in Hh. unfold PermissionsForRole in Hh.
    case_bool_decide; [by left|]. case_bool_decide; [by right|]. exfalso. case_bool_decide; set_solver.
Qed.

(** ** A sample

    Tokens are hashed by a prefix, and a password matches the hash that names
    it. *)
Definition demo_hash (x : string) : string := "h:" +:+ x.
Definition demo_matches (h p : string) : bool := bool_decide (h = "hash:" +:+ p).
Definition demo_mac (key msg : string) : string := "m" +:+ msg.
Definition demo_a : Authenticator := New "" "" 0 "key".
Definition demo_fr (t : time) (n : string) : AuthFresh :=
  mkAuthFresh (fun _ => t) (Ok ("access" +:+ n)) (Ok ("refresh" +:+ n)) (demo_ids n).

Definition demo_password : AuthCredential :=
  mkAuthCredential "acr1" "aid1" AuthCredentialTypePassword "hash:secret" 0 zero_time StatusActive (sec 1000) (sec 1000).
Definition demo_admin : AuthIdentity :=
  mkAuthIdentity "aid1" AuthIdentityKindAdmin "root" "" "" StatusActive false zero_time (sec 1000) (sec 1000).

Lemma demo_has_password : has_password demo_admin demo_password demo_auth.
Proof.
  constructor; try reflexivity.
  assert (H : ∀ ops d, credentials_wf d → credentials_wf (exec_auths ops d)).
  { induction ops as [|op ops IH]; intros d Hd; [done|]. apply IH. by apply exec_auth_credentials. }
  apply H, empty_auth_wf.
Qed.

Definition demo_locked : AuthDB :=
  foldl (fun d at_ => (LoginWithPassword demo_hash demo_mac demo_matches demo_a at_.1 "root" at_.2 d).1)
    demo_auth (repeat (demo_fr (sec 1000) "x", "guess") 9 ++ [(demo_fr (sec 1001) "x", "guess")]).

Lemma ten_failures_lock_witness :
  LoginWithPassword demo_hash demo_mac demo_matches demo_a (demo_fr (sec 1900) "y") "root" "secret" demo_locked =
    (demo_locked, Err ErrInvalidCredentials).
Proof.
  exact (ten_failures_lock demo_hash demo_mac demo_matches demo_a "root" demo_admin demo_password demo_auth
    (repeat (demo_fr (sec 1000) "x", "guess") 9) (demo_fr (sec 1001) "x") "guess" eq_refl demo_has_password eq_refl eq_refl
    eq_refl (ltac:(repeat first [apply Forall_nil_2|apply Forall_cons_2; [reflexivity|]])) (ltac:(discriminate))
    (demo_fr (sec 1900) "y") "secret" (ltac:(reflexivity))).
Defined.

(** The session is refreshed once; its first refresh token is spent. *)
Definition demo_rotated : AuthDB :=
  exec_auth (AuRotate (sec 1100) "art2" "h:refresh1" "h:access2" (sec 1700) "h:refresh2" (sec 3500) refreshReuseGrace) demo_auth.

Lemma demo_spent : ∃ t s, auth_refresh_tokens demo_rotated !! "art1" = Some t ∧ rt_TokenHash t = demo_hash "refresh1" ∧
  auth_sessions demo_rotated !! rt_SessionID t = Some s ∧ se_Status s = StatusActive ∧
  rt_Status t = AuthRefreshTokenStatusRotated ∧ rt_RotatedAt t = sec 1100.
Proof. eexists _, _. split; [vm_compute; reflexivity|]. split_and!; vm_compute; reflexivity. Qed.

Lemma leb_false_not_le x y : String.leb x y = false → ¬ String.le x y.
Proof. intros H. unfold String.le. rewrite H. exact id. Qed.

Lemma demo_late : ¬ String.le (ts (Add (sec 1200) (- refreshReuseGrace))) (ts (sec 1100)).
Proof. apply leb_false_not_le. vm_compute. reflexivity. Qed.

Lemma reuse_goes_unpunished_witness :
  (Refresh demo_hash demo_mac demo_a (demo_fr (sec 1200) "3") "refresh1" "" demo_rotated).1 = demo_rotated.
Proof.
  destruct demo_spent as (t & s & Ht & Hh & Hs & Ha & Hr & Hat).
  exact (proj1 (proj1 (reuse_goes_unpunished demo_hash demo_mac demo_a (demo_fr (sec 1200) "3") "refresh1" "" demo_rotated
    "art1" t s (exec_auth_wf _ _ demo_auth_wf) Ht Hh Hs Ha Hr
    (eq_rect_r (fun x => ¬ String.le (ts (Add (sec 1200) (- refreshReuseGrace))) (ts x)) demo_late Hat)))).
Defined.

(** The same token again, five seconds after it was spent. *)
Definition demo_grace : AuthDB * result LoginResult :=
  Refresh demo_hash demo_mac demo_a (demo_fr (sec 1105) "3") "refresh1" (NewCSRFToken demo_mac demo_a (sec 1100) "ase1") demo_rotated.

Lemma demo_grace_ok : ∃ d' lr, demo_grace = (d', Ok lr).
Proof.
  assert (Hok : is_ok demo_grace.2 = true) by (vm_compute; reflexivity).
  destruct demo_grace as [d' [lr|e]]; [eauto|discriminate Hok].
Qed.

Lemma refresh_hands_out_witness :
  ∃ d' lr id t, demo_grace = (d', Ok lr) ∧ auth_refresh_tokens demo_rotated !! id = Some t ∧ rt_TokenHash t = "h:refresh1".
Proof.
  destruct demo_grace_ok as (d' & lr & E). exists d', lr. unfold demo_grace in *.
  destruct (refresh_hands_out demo_hash demo_mac demo_a (demo_fr (sec 1105) "3") "refresh1"
    (NewCSRFToken demo_mac demo_a (sec 1100) "ase1") demo_rotated d' lr (exec_auth_wf _ _ demo_auth_wf) E)
    as (id & t & Ht & Hh & _).
  exists id, t. split; [exact E|]. split; [exact Ht|exact Hh].
Defined.

(** The tokens of that answer are indeed unknown. *)
Example grace_tokens_unknown :
  match demo_grace with
  | (d', Ok lr) => GetActiveAuthSessionByTokenHash (demo_hash (lr_SessionToken lr)) d' = Err ErrNotFound
  | _ => False
  end.
Proof. vm_compute. reflexivity. Qed.

Lemma csrf_token_scope_witness :
  ValidateCSRF demo_mac demo_a (sec 1500) demo_session (NewCSRFToken demo_mac demo_a (sec 1000) "ase1") = true ↔
  "ase1" = se_ID demo_session ∧ Unix (sec 1500) <= Unix (Add (sec 1000) csrfTTL).
Proof.
  exact (csrf_token_scope demo_mac demo_a demo_session (sec 1000) (sec 1500) "a" "se1" (fun _ _ => ltac:(discriminate))
    eq_refl eq_refl (ltac:(split; discriminate))).
Defined.

Lemma demo_authenticated : ∃ d' p s, AuthenticateSessionRequest demo_hash (sec 1100) (Some "access1") demo_auth = (d', Some (p, s)) ∧
  Authorize (Some p) PermissionNodesWrite = Some p.
Proof. eexists _, _, _. split; vm_compute; reflexivity. Qed.

Lemma write_needs_admin_witness :
  ∃ i pr, auth_identities demo_auth !! "aid1" = Some i ∧ GetAdminProfile (id_ID i) demo_auth = Ok pr ∧
    (pr_Role pr = AdminRoleOwner ∨ pr_Role pr = AdminRoleAdmin).
Proof.
  destruct demo_authenticated as (d' & p & s & Ha & Hq).
  destruct (write_needs_admin demo_hash (sec 1100) (Some "access1") demo_auth d' p s PermissionNodesWrite p Ha Hq
    ltac:(discriminate) ltac:(discriminate)) as (value & i & pr & Hv & _ & Hs & _ & _ & Hi & _ & _ & Hp & _ & Hr).
  exists i, pr. split_and!; [|exact Hp|exact Hr].
  apply find_row_Ok in Hs as [_ [k Hk]]. rewrite <-Hi. f_equal.
  revert k s Hk Ha Hi. intros k s Hk _ _. revert k s Hk.
  change (map_Forall (fun _ s => "aid1" = se_IdentityID s) (auth_sessions demo_auth)).
  apply (bool_decide_unpack _). vm_compute. exact I.
Defined.
