(* ===== verification/ClientAuth.v ===== *)
(** * ClientAuth: clients of the portal proving who they are

    [src/internal/server/transport/http/client/lite_auth.go], [challenge.go] and
    [strong_auth.go] with [src/internal/server/security/tokens/tokens.go]: the
    challenge on the user name with its proof of work, signed cookies and tokens
    against cross-site requests, passwords with a lockout, sessions and recovery
    codes, on the databases of [PortalStore] and [AuthStore].  SHA-256 and HMAC
    are those of [GoCrypto]; bcrypt, the random source and the Unicode tables
    are parameters. *)

From S2P Require Import Prelude GoLib GoText GoCrypto GoJson GoUrl GoUrlParse Sql ServerModel ServerStore StoreInvariant Samples Tables Httpx PortalStore Subscriptions AuthStore AdminAuth.
From Stdlib Require Import Ascii.
Import GoTime GoStrings.

(** ** Runes *)

(** [[]rune(s)], every rune as its encoding; a byte that belongs to none becomes
    U+FFFD.  Every rune takes at least a byte. *)
Fixpoint rune_list (fuel : nat) (s : string) : list string :=
  match fuel, s with
  | S fuel, String c r =>
      let '(x, rest) := first_rune c r in
      (match x with
       | String a EmptyString => if bool_decide (nat_of_ascii a < 128) then x else JsonRead.replacement
       | _ => x
       end) :: rune_list fuel rest
  | _, _ => []
  end.
Definition runes (s : string) : list string := rune_list (String.length s) s.
Definition of_runes (l : list string) : string := foldr String.append EmptyString l.

(** ** Tokens *)

(** [tokens.Hash] *)
Definition Hash (token : string) : string := hex_encode (Sha256.Sum256 token).

(** [tokens.New] and [tokens.NewShortID] encode 32 and 9 random bytes. *)
Definition NewToken (random : result string) : result string := raw ← random; Ok (QR.EncodeRawURL raw).

(** ** The challenge on the user name *)
Definition liteChallengeTTL : duration := (5 * Minute)%Z.
Definition liteAccessTTL : duration := (15 * Minute)%Z.
Definition liteChallengePoWBits : nat := 18.
Definition liteChallengePosition : nat := 4.
Definition liteChallengePurpose : string := "lite-challenge-v1".
Definition liteCookiePurpose : string := "lite-cookie-v1".
Definition liteCSRFPurpose : string := "lite-csrf-v1".
Definition liteCookieName : string := "laz_lite_session".
Definition errLiteInvalid : error := "invalid lite auth".

Record liteChallenge := mkLiteChallenge {
  lc_TokenHash : string;
  lc_Positions : list Z;
  lc_Nonce : string;
  lc_ExpiresAt : Z;
  lc_Signature : string;
}.

(** The loop over the bytes of the seed, [n] iterations from the [i]-th on.  It
    ends when it has found enough positions; [None] when it has not. *)
Fixpoint position_loop (seed : list nat) (len n i : nat) (positions : list nat) : option (list nat) :=
  if bool_decide (liteChallengePosition ≤ length positions) then Some positions
  else match n with
       | O => None
       | S n =>
           let idx := nth (i mod length seed) seed 0 mod len in
           position_loop seed len n (S i) (if bool_decide (idx ∈ positions) then positions else positions ++ [idx])
       end.

Definition byte_list (s : string) : list nat := N.to_nat <$> Sha256.to_bytes s.

(** ** Sessions *)
Definition strongCookiePurpose : string := "strong-user-cookie-v1".
Definition strongRefreshPurpose : string := "strong-user-refresh-v1".
Definition strongCSRFPurpose : string := "strong-user-csrf-v1".
Definition strongCookieName : string := "laz_user_session".
Definition strongRefreshCookieName : string := "laz_user_refresh".
Definition strongSessionTTL : duration := (10 * Minute)%Z.
Definition strongRefreshTTL : duration := (40 * Minute)%Z.
Definition strongRefreshAbsoluteTTL : duration := (6 * Hour)%Z.
Definition strongLockAttempts : Z := 10.
Definition strongLockDuration : duration := (15 * Minute)%Z.
Definition strongReuseGrace : duration := (10 * Second)%Z.
Definition errInvalid : error := "invalid credentials".
Definition errLocked : error := "temporarily locked".

(** Both databases of the server. *)
Record ClientDB := mkClientDB { cd_db : Database; cd_auth : AuthDB }.

(** What a call draws from outside. *)
Record StrongFresh := mkStrongFresh {
  sf_clock : nat → time;
  sf_token : result string;
  sf_refresh : result string;
  sf_ids : AuthIDs;
  sf_identityID : string;
  sf_credentialID : string;
  sf_recovery : result string;
  sf_recoveryID : string;
}.

Definition zero_identity : AuthIdentity :=
  mkAuthIdentity EmptyString EmptyString EmptyString EmptyString EmptyString EmptyString false zero_time zero_time zero_time.
Definition zero_session : AuthSession :=
  mkAuthSession EmptyString EmptyString EmptyString EmptyString EmptyString zero_time zero_time EmptyString zero_time zero_time
    zero_time zero_time zero_time zero_time.

Section Client.
Context (tables : CaseTables) (other_letter other_digit : string → bool).
(** The configured secret. *)
Context (app_secret : string).

Definition challenge_seed (username : string) : list nat :=
  byte_list (Sha256.Sum256 (u_ToLower tables (TrimSpace username))).

(** [None]: the call does not return.  One round over the seed decides. *)
Definition challengePositions (username : string) : option (result (list Z)) :=
  let rs := runes (TrimSpace username) in
  if bool_decide (length rs < liteChallengePosition) then Some (Err errLiteInvalid)
  else positions ← position_loop (challenge_seed username) (length rs) 32 0 [];
       Some (Ok (Z.of_nat <$> merge_sort le positions)).

Definition signingKey (purpose : string) : string :=
  let secret := or_default (TrimSpace app_secret) "laz-lite-development-secret" in
  Sha256.Sum256 ("laz:" +:+ purpose +:+ ":" +:+ secret).

Definition sign (purpose payload : string) : string := hex_encode (Hmac.Sum (signingKey purpose) payload).

Definition signedValue (purpose subject : string) (expiresAt : Z) : string :=
  let payload := subject +:+ ":" +:+ Strconv.FormatInt expiresAt in
  payload +:+ ":" +:+ sign purpose payload.

Definition challengePayload (c : liteChallenge) : string :=
  Join "|" [lc_TokenHash c; Join "," (Strconv.FormatInt <$> lc_Positions c); lc_Nonce c; Strconv.FormatInt (lc_ExpiresAt c)].

(** [nonce] is what the random source fills 16 bytes with. *)
Definition newLiteChallenge (now : time) (nonce : result string) (rawToken username : string) : option (result liteChallenge) :=
  positions ← challengePositions username;
  Some (positions ← positions;
        nonce ← nonce;
        let c := mkLiteChallenge (Hash rawToken) positions (QR.EncodeRawURL nonce) (Unix (Add now liteChallengeTTL)) EmptyString in
        Ok (mkLiteChallenge (lc_TokenHash c) (lc_Positions c) (lc_Nonce c) (lc_ExpiresAt c)
              (sign liteChallengePurpose (challengePayload c)))).

Definition validPoW (signature nonce : string) (bits : nat) : bool :=
  let sum := byte_list (Sha256.Sum256 (signature +:+ ":" +:+ TrimSpace nonce)) in
  let fullBytes := bits / 8 in
  let remaining := bits mod 8 in
  if negb (forallb (fun b => bool_decide (b = 0)) (take fullBytes sum)) then false
  else if bool_decide (remaining = 0) then true
  else bool_decide (N.land (N.of_nat (nth fullBytes sum 0)) (N.land (N.shiftl 255 (N.of_nat (8 - remaining))) 255) = 0%N).

(** The runes at the given positions; [None] for one out of range. *)
Definition rune_at (rs : list string) (position : Z) : option string :=
  if (position <? 0)%Z then None else rs !! Z.to_nat position.

Definition verifyLiteChallenge (now : time) (rawToken username answer powNonce : string) (c : liteChallenge) : option bool :=
  if (lc_ExpiresAt c <? Unix now)%Z || negb (bool_decide (lc_TokenHash c = Hash rawToken)) then Some false
  else if negb (bool_decide (lc_Signature c = sign liteChallengePurpose (challengePayload c))) then Some false
  else
    positions ← challengePositions username;
    Some (match positions with
          | Err _ => false
          | Ok positions =>
              if negb (bool_decide (positions = lc_Positions c)) then false
              else match mapM (rune_at (runes (u_ToLower tables (TrimSpace username)))) (lc_Positions c) with
                   | None => false
                   | Some want =>
                       if negb (bool_decide (of_runes want = u_ToLower tables (TrimSpace answer))) then false
                       else validPoW (lc_Signature c) powNonce liteChallengePoWBits
                   end
          end).

(** The challenge of older pages: the user name, or its first and last two
    runes. *)
Definition challengeForAccountname (username : string) : string :=
  let rs := runes (u_ToLower tables (TrimSpace username)) in
  if bool_decide (length rs ≤ 4) then of_runes rs else of_runes (take 2 rs) +:+ of_runes (drop (length rs - 2) rs).

Definition challengeMatches (username challenge : string) : bool :=
  let want := challengeForAccountname username in
  negb (bool_decide (want = EmptyString)) && bool_decide (want = u_ToLower tables (TrimSpace challenge)).

(** ** Requests *)
Record Request := mkRequest {
  rq_Method : string;
  rq_Cookie : string → option string;
  rq_Header : string → string;
  rq_TLS : bool;
  rq_Host : string;
}.

Definition requestIsHTTPS (r : Request) : bool := rq_TLS r || u_EqualFold tables (rq_Header r "X-Forwarded-Proto") "https".

Definition clientPath : string := "/client/".
Definition client_cookie (name value : string) (secure : bool) (maxAge : Z) : Cookie :=
  mkCookie name value clientPath true false secure maxAge.

(** [subject:expiry:signature], not expired and signed for the purpose: the
    subject. *)
Definition signed_subject (now : time) (purpose value : string) : option string :=
  match Split ":" value with
  | [subject; expires; signature] =>
      match Strconv.ParseInt expires with
      | Err _ => None
      | Ok expiresAt =>
          if (expiresAt <? Unix now)%Z then None
          else if bool_decide (signature = sign purpose (subject +:+ ":" +:+ expires)) then Some subject else None
      end
  | _ => None
  end.

(** ** The light session: a cookie for the holder of a portal link *)
Definition newLiteCSRF (now : time) (cookieValue : string) : string :=
  signedValue liteCSRFPurpose (Hash cookieValue) (Unix (Add now liteAccessTTL)).

Definition validateLiteCSRF (now : time) (cookieValue csrf : string) : bool :=
  bool_decide (signed_subject now liteCSRFPurpose (TrimSpace csrf) = Some (Hash cookieValue)).

(** The cookie and the token against cross-site requests. *)
Definition issueLiteCookie (clock : nat → time) (r : Request) (rawToken : string) : Cookie * string :=
  let value := signedValue liteCookiePurpose (Hash rawToken) (Unix (Add (clock 0) liteAccessTTL)) in
  (client_cookie liteCookieName value (requestIsHTTPS r) (seconds liteAccessTTL), newLiteCSRF (clock 1) value).

Definition clearLiteCookie : Cookie := client_cookie liteCookieName EmptyString false (-1).

Definition authenticateLite (clock : nat → time) (r : Request) : string + Response :=
  match rq_Cookie r liteCookieName with
  | None => inr (Error StatusUnauthorized "lite cookie required")
  | Some value =>
      if bool_decide (TrimSpace value = EmptyString) then inr (Error StatusUnauthorized "lite cookie required") else
      match signed_subject (clock 0) liteCookiePurpose value with
      | None => inr (Error StatusUnauthorized "invalid lite cookie")
      | Some tokenHash =>
          if validateLiteCSRF (clock 1) value (rq_Header r "X-CSRF-Token") then inl tokenHash
          else inr (Error StatusForbidden "csrf token required")
      end
  end.

(** ** The strong session: a password, or a recovery code *)
Context (Matches : string → string → bool) (GenerateFromPassword : string → result string).

Definition userPasswordMinLen : nat := 6.
Definition weakUserPasswords : list string := ["admin"; "password"; "123456"; "12345678"; "qwerty"; "letmein"].

Definition hasRequiredUserPasswordComposition (password : string) : bool :=
  let cs := rune_classes other_letter other_digit (String.length password) password in
  bool_decide (Letter ∈ cs) && bool_decide (Digit ∈ cs) && bool_decide (Symbol ∈ cs).

Definition validateUserPassword (login password : string) : result unit :=
  let password := TrimSpace password in
  if bool_decide (String.length password < userPasswordMinLen) then Err "password must be at least 6 characters"
  else if u_EqualFold tables (TrimSpace login) password || bool_decide (u_ToLower tables password ∈ weakUserPasswords)
  then Err "password is too weak"
  else if negb (hasRequiredUserPasswordComposition password)
  then Err "password must include at least one letter, one digit, and one symbol"
  else Ok tt.

Definition new_session (now : time) (ident : AuthIdentity) (accountID raw refresh : string) : AuthSession :=
  mkAuthSession EmptyString (id_ID ident) accountID (Hash raw) (Hash refresh) (Add now strongRefreshTTL)
    (Add now strongRefreshAbsoluteTTL) StatusActive (Add now strongSessionTTL)
    zero_time zero_time zero_time zero_time zero_time.

Definition createStrongSession (fr : StrongFresh) (ident : AuthIdentity) (accountID : string)
    : goM AuthDB (string * AuthIdentity * AuthSession) :=
  raw ← liftM (sf_token fr);
  refresh ← liftM (sf_refresh fr);
  session ← CreateAuthSession (sf_clock fr 4) (sf_ids fr) (new_session (sf_clock fr 3) ident accountID raw refresh);
  mret (raw +:+ ":" +:+ refresh, ident, session).

(** The identity of an account, made when there is none. *)
Definition user_identity (fr : StrongFresh) (account : Account) : goM AuthDB AuthIdentity := fun d =>
  match FindActiveUserIdentityByAccountID (acc_ID account) d with
  | Ok ident => (d, Ok ident)
  | Err e =>
      if bool_decide (e = ErrNotFound)
      then CreateAuthIdentity (sf_clock fr 0) (sf_identityID fr)
             (mkAuthIdentity EmptyString AuthIdentityKindUser (acc_Username account) EmptyString (acc_ID account) StatusActive
                false zero_time zero_time zero_time) d
      else (d, Err e)
  end.

Definition write_password (fr : StrongFresh) (ident : AuthIdentity) (hash : string) : goM AuthDB AuthCredential := fun d =>
  match GetAuthCredential (id_ID ident) AuthCredentialTypePassword d with
  | Ok credential => UpdateAuthCredential (sf_clock fr 1) (set_password hash credential) d
  | Err e =>
      if bool_decide (e = ErrNotFound)
      then CreateAuthCredential (sf_clock fr 1) (sf_credentialID fr)
             (mkAuthCredential EmptyString (id_ID ident) AuthCredentialTypePassword hash 0 zero_time StatusActive zero_time zero_time) d
      else (d, Err e)
  end.

Definition setupStrongUser (fr : StrongFresh) (account : Account) (password : string)
    : goM AuthDB (string * AuthIdentity * AuthSession) :=
  _ ← liftM (validateUserPassword (acc_Username account) password);
  ident ← user_identity fr account;
  hash ← liftM (GenerateFromPassword password);
  _ ← write_password fr ident hash;
  createStrongSession fr ident (acc_ID account).

Definition count_failure (c : AuthCredential) (now : time) : AuthCredential :=
  mkAuthCredential (cr_ID c) (cr_IdentityID c) (cr_Type c) (cr_SecretHash c) (cr_FailedAttempts c + 1)
    (if (strongLockAttempts <=? cr_FailedAttempts c + 1)%Z then Add now strongLockDuration else cr_LockedUntil c)
    (cr_Status c) (cr_CreatedAt c) (cr_UpdatedAt c).

(** A credential that is not active makes the call return no error and nothing
    else: [err] is nil on that path. *)
Definition loginStrongUser (fr : StrongFresh) (account : Account) (password : string)
    : goM AuthDB (string * AuthIdentity * AuthSession) := fun d =>
  match FindActiveUserIdentityByAccountID (acc_ID account) d with
  | Err e => (d, Err e)
  | Ok ident =>
      match GetAuthCredential (id_ID ident) AuthCredentialTypePassword d with
      | Err e => (d, Err e)
      | Ok credential =>
          if negb (bool_decide (cr_Status credential = StatusActive)) then (d, Ok (EmptyString, zero_identity, zero_session))
          else if negb (IsZero (cr_LockedUntil credential)) && Before (sf_clock fr 0) (cr_LockedUntil credential)
          then (d, Err errLocked)
          else if negb (Matches (cr_SecretHash credential) password)
          then ((UpdateAuthCredential (sf_clock fr 2) (count_failure credential (sf_clock fr 1)) d).1, Err errInvalid)
          else createStrongSession fr ident (acc_ID account)
                 (UpdateAuthCredential (sf_clock fr 1) (reset_failures credential) d).1
      end
  end.

(** *** Cookies *)
Definition splitStrongRawTokens (rawTokens : string) : string * string := UrlParse.Cut ":" rawTokens.

Definition newStrongCSRF (now : time) (cookieValue : string) : string :=
  signedValue strongCSRFPurpose (Hash cookieValue) (Unix (Add now strongSessionTTL)).

Definition issueStrongRefreshCookie (now : time) (r : Request) (rawRefresh : string) (expiresAt : time) : Cookie :=
  client_cookie strongRefreshCookieName (signedValue strongRefreshPurpose (Hash rawRefresh) (Unix expiresAt)) (requestIsHTTPS r)
    (Z.max 0 (seconds (expiresAt - now)%Z)).

(** The cookies that are set and the token against cross-site requests. *)
Definition issueStrongCookie (clock : nat → time) (r : Request) (rawTokens : string) : list Cookie * string :=
  let '(rawSession, rawRefresh) := splitStrongRawTokens rawTokens in
  let value := signedValue strongCookiePurpose (Hash rawSession) (Unix (Add (clock 0) strongSessionTTL)) in
  (client_cookie strongCookieName value (requestIsHTTPS r) (seconds strongSessionTTL) ::
     (if bool_decide (rawRefresh = EmptyString) then []
      else [issueStrongRefreshCookie (clock 2) r rawRefresh (Add (clock 1) strongRefreshTTL)]),
   newStrongCSRF (clock 3) value).

Definition clearStrongCookie : list Cookie :=
  [client_cookie strongCookieName EmptyString false (-1); client_cookie strongRefreshCookieName EmptyString false (-1)].

Definition validateSignedCookie (now : time) (purpose value : string) : bool :=
  match signed_subject now purpose value with Some _ => true | None => false end.

Definition validateStrongRefreshCookie (now : time) (value : string) : string :=
  default EmptyString (signed_subject now strongRefreshPurpose value).

Definition validateStrongCSRF (now : time) (cookieValue csrf : string) : bool :=
  bool_decide (signed_subject now strongCSRFPurpose (TrimSpace csrf) = Some (Hash cookieValue)).

(** *** Who is signed in *)
Record strongAuthContext := mkStrongContext { sc_Identity : AuthIdentity; sc_Session : AuthSession; sc_Account : Account }.

Definition strongContextFromSessionIgnoringAccessExpiry (session : AuthSession) (w : ClientDB) : option strongAuthContext :=
  if negb (bool_decide (se_Status session = StatusActive)) then None else
  match GetAuthIdentity (se_IdentityID session) (cd_auth w) with
  | Err _ => None
  | Ok ident =>
      if negb (bool_decide (id_Kind ident = AuthIdentityKindUser)) || negb (bool_decide (id_Status ident = StatusActive)) then None else
      match GetAccount (id_AccountID ident) (core (cd_db w)) with
      | Err _ => None
      | Ok account =>
          if bool_decide (acc_Status account = AccountStatusActive) then Some (mkStrongContext ident session account) else None
      end
  end.

Definition strongContextFromSession (clock : nat → time) (session : AuthSession) (w : ClientDB) : ClientDB * option strongAuthContext :=
  if negb (bool_decide (se_Status session = StatusActive)) || past (clock 0) (se_ExpiresAt session) then
    (if bool_decide (se_IdentityID session = EmptyString) then w
     else mkClientDB (cd_db w) (RevokeAuthSessionsByIdentityID (clock 1) (se_IdentityID session) (cd_auth w)), None)
  else (w, strongContextFromSessionIgnoringAccessExpiry session w).

(** The session a request's cookie names, when the cookie is signed and, for
    requests that change something, the token against cross-site requests is
    there. *)
Definition cookie_session (clock : nat → time) (r : Request) (requireCSRF : bool) (w : ClientDB) : option AuthSession :=
  value ← rq_Cookie r strongCookieName;
  if bool_decide (TrimSpace value = EmptyString) then None else
  match Split ":" value with
  | [tokenHash; _; _] =>
      match GetActiveAuthSessionByTokenHash tokenHash (cd_auth w) with
      | Err _ => None
      | Ok session =>
          if validateSignedCookie (clock 0) strongCookiePurpose value &&
             (negb requireCSRF || validateStrongCSRF (clock 1) value (rq_Header r "X-CSRF-Token"))
          then Some session else None
      end
  | _ => None
  end.

Definition strong_refusal (requireCSRF : bool) : Response :=
  if requireCSRF then Error StatusForbidden "strong session and csrf required"
  else Error StatusUnauthorized "strong session required".

Definition authenticateStrong (clock : nat → time) (r : Request) (requireCSRF : bool) (w : ClientDB)
    : ClientDB * (strongAuthContext + Response) :=
  match cookie_session clock r requireCSRF w with
  | None => (w, inr (strong_refusal requireCSRF))
  | Some session =>
      match strongContextFromSession (fun i => clock (2 + i)) session w with
      | (w, Some ctx) => (w, inl ctx)
      | (w, None) => (w, inr (strong_refusal requireCSRF))
      end
  end.

(** *** Recovery codes *)

(** The first 12 characters of the 16 random bytes in base 32. *)
Definition byte_bits (n : N) : list bool := (fun i => N.testbit n (N.of_nat i)) <$> reverse (seq 0 8).
Definition base32_char (n : nat) : ascii := if decide (n < 26) then ascii_of_nat (65 + n) else ascii_of_nat (24 + n).
Definition quintet (l : list bool) : nat := foldl (fun v b => 2 * v + (if b : bool then 1 else 0)) 0 (l ++ replicate (5 - length l) false).
Fixpoint base32 (fuel : nat) (bits : list bool) : string :=
  match fuel, bits with
  | S fuel, _ :: _ => String (base32_char (quintet (take 5 bits))) (base32 fuel (drop 5 bits))
  | _, _ => EmptyString
  end.
Definition base32_encode (s : string) : string :=
  let bits := Sha256.to_bytes s ≫= byte_bits in base32 (length bits) bits.

Definition newStrongRecoveryCode (random : result string) : result (string * string) :=
  raw ← random;
  let encoded := base32_encode raw in
  let code := str_take 4 encoded +:+ "-" +:+ str_take 4 (str_drop 4 encoded) +:+ "-" +:+ str_take 4 (str_drop 8 encoded) in
  Ok (code, Hash code).

Definition recoveryCodeHash (code : string) : string := Hash (u_ToUpper tables (TrimSpace code)).

(** What a client is told about the lifetime of its session. *)
Record Timings := mkTimings { tm_access : time; tm_refresh : time; tm_refreshAfter : time; tm_server : time }.
Definition strongAuthTimings (now : time) (session : AuthSession) : Timings :=
  mkTimings (se_ExpiresAt session) (se_RefreshExpiresAt session) (refresh_after now session) now.
End Client.

(** ** The loop for the positions

    It ends exactly if the bytes of the seed give four different positions, and
    then within one round over the seed. *)
Section Positions.
Context (seed : list nat) (len : nat).
Hypothesis seed_bytes : seed ≠ [].

Definition residue (i : nat) : nat := nth (i mod length seed) seed 0 mod len.
Definition residues : gset nat := list_to_set ((fun b => b mod len) <$> seed).

Lemma residue_residues i : residue i ∈ residues.
Proof.
  unfold residue, residues. rewrite elem_of_list_to_set, list_elem_of_fmap. eexists. split; [done|].
  rewrite nth_lookup. destruct (lookup_lt_is_Some_2 seed (i mod length seed)) as [x Hx].
  - apply Nat.mod_upper_bound. intros H. by apply seed_bytes, nil_length_inv.
  - rewrite Hx. cbn. by eapply list_elem_of_lookup_2.
Qed.

Lemma residues_residue x : x ∈ residues → ∃ i, i < length seed ∧ residue i = x.
Proof.
  unfold residues. rewrite elem_of_list_to_set, list_elem_of_fmap. intros (b & -> & [i Hi]%list_elem_of_lookup_1).
  pose proof (lookup_lt_Some _ _ _ Hi) as Hlt. exists i. split; [done|]. unfold residue.
  rewrite (Nat.mod_small i) by done. by rewrite nth_lookup, Hi.
Qed.

Definition add_position (ps : list nat) (x : nat) : list nat := if bool_decide (x ∈ ps) then ps else ps ++ [x].

Lemma add_position_NoDup ps x : NoDup ps → NoDup (add_position ps x).
Proof.
  intros H. unfold add_position. case_bool_decide as Hx; [done|]. rewrite list.NoDup_app. split_and!; [done| |by apply NoDup_singleton].
  intros y Hy Hyx%list_elem_of_singleton. congruence.
Qed.
Lemma elem_of_add_position ps x y : y ∈ add_position ps x ↔ y ∈ ps ∨ y = x.
Proof. unfold add_position. case_bool_decide; [naive_solver|]. rewrite elem_of_app, list_elem_of_singleton. done. Qed.

(** What the loop has found when it ends: four different positions. *)
Lemma position_loop_Some n i ps qs :
  position_loop seed len n i ps = Some qs → NoDup ps → length ps ≤ 4 → (∀ x, x ∈ ps → x ∈ residues) →
  NoDup qs ∧ length qs = 4 ∧ ∀ x, x ∈ qs → x ∈ residues.
Proof.
  revert i ps. induction n as [|n IH]; intros i ps; cbn [position_loop]; case_bool_decide as Hl; unfold liteChallengePosition in *.
  - intros [= <-] Hd Hle Hr. split_and!; [done|lia|done].
  - done.
  - intros [= <-] Hd Hle Hr. split_and!; [done|lia|done].
  - intros H Hd Hle Hr. fold (residue i) in H. fold (add_position ps (residue i)) in H. apply IH in H; [done|..].
    + by apply add_position_NoDup.
    + unfold add_position. case_bool_decide; rewrite ?length_app; cbn; lia.
    + intros x [Hx| ->]%elem_of_add_position; [by apply Hr|apply residue_residues].
Qed.

(** What it has found when it has not ended: every position of the bytes it has
    read, fewer than four. *)
Lemma position_loop_None n i ps :
  position_loop seed len n i ps = None →
  ∃ qs, length qs < 4 ∧ (∀ x, x ∈ ps → x ∈ qs) ∧ ∀ j, i ≤ j < i + n → residue j ∈ qs.
Proof.
  revert i ps. induction n as [|n IH]; intros i ps; cbn [position_loop]; case_bool_decide as Hl; unfold liteChallengePosition in *; try done.
  - intros _. exists ps. split_and!; [lia|done|]. intros j Hj. lia.
  - intros H. fold (residue i) in H. fold (add_position ps (residue i)) in H. apply IH in H as (qs & Hq & Hin & Hr).
    exists qs. split_and!; [done| |].
    + intros x Hx. apply Hin, elem_of_add_position. by left.
    + intros j Hj. destruct (decide (j = i)) as [-> |Hne]; [apply Hin, elem_of_add_position; by right|]. apply Hr. lia.
Qed.

Lemma size_list_to_set_le (l : list nat) : size (list_to_set l : gset nat) ≤ length l.
Proof.
  induction l as [|x l IH]; [done|]. cbn [list_to_set length]. destruct (decide (x ∈ (list_to_set l : gset nat))) as [Hx|Hx].
  - replace ({[x]} ∪ list_to_set l : gset nat) with (list_to_set l : gset nat) by set_solver. lia.
  - rewrite size_union, size_singleton by set_solver. lia.
Qed.

Lemma position_loop_ends : 4 ≤ size residues → is_Some (position_loop seed len (length seed) 0 []).
Proof.
  intros Hs. destruct (position_loop seed len (length seed) 0 []) as [qs|] eqn:E; [by eexists|exfalso].
  apply position_loop_None in E as (qs & Hq & _ & Hr).
  assert (Hsub : residues ⊆ list_to_set qs).
  { intros x (i & Hi & <-)%residues_residue. rewrite elem_of_list_to_set. apply Hr. lia. }
  apply subseteq_size in Hsub. pose proof (size_list_to_set_le qs). lia.
Qed.

Lemma position_loop_hangs n : size residues < 4 → position_loop seed len n 0 [] = None.
Proof.
  intros Hs. destruct (position_loop seed len n 0 []) as [qs|] eqn:E; [exfalso|done].
  apply position_loop_Some in E as (Hd & Hl & Hr); [|by constructor|cbn; lia|by intros x ?%elem_of_nil].
  assert (Hsub : (list_to_set qs : gset nat) ⊆ residues) by (intros x; rewrite elem_of_list_to_set; apply Hr).
  apply subseteq_size in Hsub. rewrite size_list_to_set in Hsub by done. lia.
Qed.
End Positions.

Lemma byte_list_length s : length (byte_list s) = String.length s.
Proof. unfold byte_list. rewrite length_fmap. induction s as [|c s IH]; [done|]. cbn. by rewrite IH. Qed.

Lemma challenge_seed_length tables username : length (challenge_seed tables username) = 32.
Proof. unfold challenge_seed. by rewrite byte_list_length, Sha256.Sum256_length. Qed.

Lemma sorted_positions l : NoDup l → StronglySorted lt (merge_sort le l).
Proof.
  intros Hd. assert (Hs : StronglySorted le (merge_sort le l)) by (apply (StronglySorted_merge_sort le); apply _).
  assert (Hd' : NoDup (merge_sort le l)) by (by rewrite merge_sort_Permutation). revert Hs Hd'.
  induction 1 as [|x l' Hl IH Hx]; intros Hd'; [constructor|]. apply list.NoDup_cons in Hd' as [Hni Hd'].
  constructor; [by apply IH|]. rewrite !list.Forall_forall in *. intros y Hy. specialize (Hx y Hy).
  assert (x ≠ y) by congruence. lia.
Qed.

(** C37. For a user name of at least four runes the positions are asked for exactly
    if the digest of the name has bytes that give four different ones: then
    they are four increasing positions inside of the name; otherwise the loop
    goes on for ever, and the request is never answered. *)
Theorem challengePositions_spec tables username :
  let len := length (runes (TrimSpace username)) in
  let seed := challenge_seed tables username in
  4 ≤ len →
  (4 ≤ size (residues seed len) → ∃ l, challengePositions tables username = Some (Ok (Z.of_nat <$> l)) ∧
     length l = 4 ∧ StronglySorted lt l ∧ Forall (fun p => p < len) l) ∧
  (size (residues seed len) < 4 → challengePositions tables username = None ∧ ∀ n, position_loop seed len n 0 [] = None).
Proof.
  intros len seed Hlen. assert (Hseed : length seed = 32) by apply challenge_seed_length.
  assert (Hne : seed ≠ []) by (by intros E; rewrite E in Hseed).
  unfold challengePositions. fold len seed. rewrite bool_decide_eq_false_2 by (unfold liteChallengePosition; lia). split.
  - intros Hs. destruct (position_loop_ends seed len Hne Hs) as [qs Hq]. rewrite Hseed in Hq. rewrite Hq. cbn [mbind option_bind].
    apply position_loop_Some in Hq as (Hd & Hl & Hr); [|done|by constructor|cbn; lia|by intros x ?%elem_of_nil].
    exists (merge_sort le qs). split_and!; [done|by rewrite merge_sort_Permutation|by apply sorted_positions|].
    rewrite merge_sort_Permutation. apply list.Forall_forall. intros x (i & _ & <-)%Hr%residues_residue.
    unfold residue. apply Nat.mod_upper_bound. lia.
  - intros Hs. split; [|intros n; by apply position_loop_hangs]. by rewrite position_loop_hangs.
Qed.

(** The user name [akna]: its digest leaves only 0, 1 and 2 modulo four. *)
Lemma challengePositions_spec_witness :
  challengePositions ascii_tables "akna" = None ∧
  ∀ n, position_loop (challenge_seed ascii_tables "akna") 4 n 0 [] = None.
Proof.
  apply (challengePositions_spec ascii_tables "akna"); vm_compute; lia.
Defined.

(** ** Signed values *)
Lemma Hash_colon s : contains_byte ":" (Hash s) = false.
Proof. apply hex_encode_colon. Qed.

Lemma hex_encode_first s : s ≠ EmptyString → ∃ c r, hex_encode s = String c r ∧ visible c = true.
Proof. destruct s as [|c s]; [done|]. intros _. eexists _, _. split; [done|]. apply hex_char_facts, nibbles. Qed.

Lemma Hash_first s : ∃ c r, Hash s = String c r ∧ visible c = true.
Proof. apply hex_encode_first. intros H. pose proof (Sha256.Sum256_length s) as E. by rewrite H in E. Qed.

Section Signed.
Context (secret : string).

Lemma signedValue_parts purpose subject e :
  signedValue secret purpose subject e =
  Join ":" [subject; Strconv.FormatInt e; sign secret purpose (subject +:+ ":" +:+ Strconv.FormatInt e)].
Proof. unfold signedValue. cbn [Join]. by rewrite !str_append_assoc. Qed.

Lemma signed_subject_signedValue now purpose subject e :
  contains_byte ":" subject = false → in_int64 e →
  signed_subject secret now purpose (signedValue secret purpose subject e) = if (e <? Unix now)%Z then None else Some subject.
Proof.
  intros Hs He. unfold signed_subject. rewrite signedValue_parts, Split_Join; [|done|].
  - rewrite Strconv.ParseInt_FormatInt by done. rewrite bool_decide_eq_true_2 by done. done.
  - repeat apply Forall_cons_2; [done|by apply Strconv.FormatInt_contains|apply hex_encode_colon|apply Forall_nil_2].
Qed.

(** A value that is accepted is the one that is signed for its subject. *)
Lemma signed_subject_Some now purpose value subject :
  signed_subject secret now purpose value = Some subject →
  ∃ expires e, value = subject +:+ ":" +:+ expires +:+ ":" +:+ sign secret purpose (subject +:+ ":" +:+ expires) ∧
    Strconv.ParseInt expires = Ok e ∧ (Unix now <= e)%Z.
Proof.
  unfold signed_subject. pose proof (Join_Split ":" value) as Hj. destruct (Split ":" value) as [|a [|b [|c [|]]]]; try done.
  destruct (Strconv.ParseInt b) as [e|] eqn:Ee; [|done]. destruct (Z.ltb_spec e (Unix now)); [done|].
  case_bool_decide as Hc; [|done]. intros [= <-]. exists b, e. rewrite <-Hc. split_and!; [by rewrite <-Hj|done|lia].
Qed.

Lemma signedValue_trim purpose s e : TrimSpace (signedValue secret purpose (Hash s) e) = signedValue secret purpose (Hash s) e.
Proof.
  rewrite signedValue_parts. destruct (Hash_first s) as (c & r & Hh & Hc).
  destruct (hex_encode_last (Hmac.Sum (signingKey secret purpose) (Hash s +:+ ":" +:+ Strconv.FormatInt e))) as (x & d & Hx & Hd);
    [apply Hmac.Sum_nonempty|].
  fold (sign secret purpose (Hash s +:+ ":" +:+ Strconv.FormatInt e)) in Hx. rewrite Hx, Hh. cbn [Join].
  replace (String c r +:+ ":" +:+ Strconv.FormatInt e +:+ ":" +:+ x +:+ String d EmptyString)
    with (String c ((r +:+ ":" +:+ Strconv.FormatInt e +:+ ":" +:+ x) +:+ String d EmptyString))
    by (repeat (rewrite ?str_append_assoc, ?string_app_cons, ?string_app_nil); reflexivity).
  by apply TrimSpace_visible.
Qed.

Lemma signedValue_nonempty purpose s e : signedValue secret purpose (Hash s) e ≠ EmptyString.
Proof. destruct (Hash_first s) as (c & r & Hh & _). unfold signedValue. rewrite Hh, !string_app_cons. discriminate. Qed.
End Signed.

(** The cookie and the token a client gets for a portal link authenticate it
    as the holder of that link exactly until fifteen minutes after they were
    issued. *)
Theorem lite_cookie_scope tables secret clock r raw clock' r' :
  let cookie := (issueLiteCookie tables secret clock r raw).1 in
  let csrf := (issueLiteCookie tables secret clock r raw).2 in
  in_int64 (Unix (Add (clock 0) liteAccessTTL)) → in_int64 (Unix (Add (clock 1) liteAccessTTL)) →
  rq_Cookie r' (ck_Name cookie) = Some (ck_Value cookie) → rq_Header r' "X-CSRF-Token" = csrf →
  ((∃ who, authenticateLite secret clock' r' = inl who) ↔
     (Unix (clock' 0%nat) <= Unix (Add (clock 0%nat) liteAccessTTL))%Z ∧ (Unix (clock' 1%nat) <= Unix (Add (clock 1%nat) liteAccessTTL))%Z) ∧
  (∀ who, authenticateLite secret clock' r' = inl who → who = Hash raw).
Proof.
  intros cookie csrf H0 H1 Hc Hh. unfold cookie, issueLiteCookie, client_cookie in Hc. cbn [fst ck_Name ck_Value] in Hc.
  unfold authenticateLite. rewrite Hc, Hh. clear Hc Hh.
  rewrite signedValue_trim, bool_decide_eq_false_2 by apply signedValue_nonempty.
  rewrite signed_subject_signedValue by (done || apply Hash_colon).
  unfold validateLiteCSRF, csrf, issueLiteCookie, newLiteCSRF. cbn [snd].
  rewrite signedValue_trim, signed_subject_signedValue by (done || apply Hash_colon).
  destruct (Z.ltb_spec (Unix (Add (clock 0) liteAccessTTL)) (Unix (clock' 0))).
  { split; [|done]. split; [by intros []|lia]. }
  destruct (Z.ltb_spec (Unix (Add (clock 1) liteAccessTTL)) (Unix (clock' 1))); cbn.
  - split; [|done]. split; [by intros []|lia].
  - rewrite bool_decide_eq_true_2 by done. split; [|by intros ? [= <-]]. split; [lia|eauto].
Qed.

(** ** Who a strong session stands for *)
Section Strong.
Context (secret : string).

(** A request with a session is served only for the account the session's
    identity belongs to: its cookie carries a signature for the hash of a stored
    session that is active and has not expired, the identity is an active user,
    the account is active, a request that changes something also carries a
    token signed for that very cookie, and nothing was written on the way. *)
Theorem strong_session_owner clock r requireCSRF w w' ctx :
  authenticateStrong secret clock r requireCSRF w = (w', inl ctx) →
  w' = w ∧
  (∃ id value expires,
     rq_Cookie r strongCookieName = Some value ∧ auth_sessions (cd_auth w) !! id = Some (sc_Session ctx) ∧
     value = se_TokenHash (sc_Session ctx) +:+ ":" +:+ expires +:+ ":" +:+
             sign secret strongCookiePurpose (se_TokenHash (sc_Session ctx) +:+ ":" +:+ expires) ∧
     (requireCSRF = true → signed_subject secret (clock 1) strongCSRFPurpose (TrimSpace (rq_Header r "X-CSRF-Token")) = Some (Hash value))) ∧
  se_Status (sc_Session ctx) = StatusActive ∧ past (clock 2) (se_ExpiresAt (sc_Session ctx)) = false ∧
  auth_identities (cd_auth w) !! se_IdentityID (sc_Session ctx) = Some (sc_Identity ctx) ∧
  id_Kind (sc_Identity ctx) = AuthIdentityKindUser ∧ id_Status (sc_Identity ctx) = StatusActive ∧
  accounts (core (cd_db w)) !! id_AccountID (sc_Identity ctx) = Some (sc_Account ctx) ∧
  acc_Status (sc_Account ctx) = AccountStatusActive.
Proof.
  unfold authenticateStrong, cookie_session. destruct (rq_Cookie r strongCookieName) as [value|] eqn:Ev; [|done].
  cbn [mbind option_bind]. case_bool_decide; [done|].
  destruct (Split ":" value) as [|h [|e0 [|s0 [|]]]] eqn:Es; try done.
  destruct (GetActiveAuthSessionByTokenHash h (cd_auth w)) as [s|] eqn:Eg; [|done].
  destruct (validateSignedCookie _ _ _ value) eqn:Ec; [|done]. cbn [andb].
  destruct (negb requireCSRF || _) eqn:Ex; [|done].
  unfold strongContextFromSession. case_bool_decide as Hact; [|done]. cbn [negb orb].
  destruct (past _ (se_ExpiresAt s)) eqn:Ep; [done|]. unfold strongContextFromSessionIgnoringAccessExpiry.
  rewrite (bool_decide_eq_true_2 _ Hact). cbn [negb].
  destruct (GetAuthIdentity (se_IdentityID s) (cd_auth w)) as [ident|] eqn:Ei; [|done]. case_bool_decide; [|done]. case_bool_decide; [|done].
  cbn [negb orb]. destruct (GetAccount _ _) as [account|] eqn:Ea; [|done]. case_bool_decide; [|done]. intros [= <- <-].
  cbn [sc_Session sc_Identity sc_Account]. apply get_row_Ok in Ei, Ea.
  apply find_row_Ok in Eg as [HP [id Hid]]. rewrite andb_true_iff, !bool_decide_eq_true in HP. destruct HP as [<- _].
  split_and!; try done. unfold validateSignedCookie in Ec. destruct (signed_subject _ _ _ value) as [sub|] eqn:Esub; [|done].
  assert (sub = se_TokenHash s) as ->.
  { unfold signed_subject in Esub. rewrite Es in Esub. repeat case_match; by simplify_eq. }
  apply signed_subject_Some in Esub as (expires & e & Hv & _). exists id, value, expires. split_and!; [done..|].
  intros ->. by apply bool_decide_eq_true in Ex.
Qed.

(** ** Signing in *)
Context (tables : CaseTables) (other_letter other_digit : string → bool).
Context (Matches : string → string → bool) (GenerateFromPassword : string → result string).

Definition identities_keyed (d : AuthDB) : Prop := ∀ id i, auth_identities d !! id = Some i → id_ID i = id.

(** An active user identity of the account that is stored. *)
Definition stored_user (account : Account) (d : AuthDB) (ident : AuthIdentity) : Prop :=
  auth_identities d !! id_ID ident = Some ident ∧ id_Kind ident = AuthIdentityKindUser ∧ id_Status ident = StatusActive ∧
  id_AccountID ident = acc_ID account.

Lemma user_identity_stored fr account d d' ident :
  identities_keyed d → user_identity fr account d = (d', Ok ident) → stored_user account d' ident.
Proof.
  intros Hk. unfold user_identity. destruct (FindActiveUserIdentityByAccountID _ d) as [i|e] eqn:E.
  - intros [= <- <-]. apply find_row_Ok in E as [HP [id Hid]]. rewrite !andb_true_iff, !bool_decide_eq_true in HP.
    destruct HP as [[? ?] ?]. split_and!; [by rewrite (Hk _ _ Hid)|done..].
  - case_bool_decide; [|done]. unfold CreateAuthIdentity. rewrite transaction_Ok. cbv zeta.
    intros (t & (_ & -> & _)%insert_unique_Ok & [= <- <-])%bind_Ok. split_and!; [|done..]. apply lookup_insert_eq.
Qed.

Lemma write_password_identities fr ident hash d d' c :
  write_password fr ident hash d = (d', Ok c) → auth_identities d' = auth_identities d.
Proof.
  unfold write_password. destruct (GetAuthCredential _ _ d) as [c0|e].
  - unfold UpdateAuthCredential. destruct (update_unique _ _ _ _); [|done]. by intros [= <- _].
  - case_bool_decide; [|done]. unfold CreateAuthCredential. rewrite transaction_Ok. cbv zeta.
    by intros (t & _ & [= <- _])%bind_Ok.
Qed.

Lemma createStrongSession_Ok fr ident accountID d d' rawTokens ident' session :
  createStrongSession fr ident accountID d = (d', Ok (rawTokens, ident', session)) →
  ∃ raw refresh, sf_token fr = Ok raw ∧ rawTokens = raw +:+ ":" +:+ refresh ∧ ident' = ident ∧
    auth_identities d' = auth_identities d ∧ GetActiveAuthSessionByTokenHash (Hash raw) d' = Ok session ∧
    se_IdentityID session = id_ID ident ∧ se_Status session = StatusActive ∧ se_ExpiresAt session = Add (sf_clock fr 3) strongSessionTTL.
Proof.
  unfold createStrongSession. intros (w1 & raw & [= <- Ht] & H)%bindM_Ok. apply bindM_Ok in H as (w2 & refresh & [= <- Hr] & H).
  apply bindM_Ok in H as (w3 & s & Hs & [= <- <- <- <-]). exists raw, refresh. unfold CreateAuthSession in Hs.
  rewrite transaction_Ok in Hs. cbv zeta in Hs. apply bind_Ok in Hs as (ss & Hss & Hs).
  apply insert_unique_Ok in Hss as (_ & -> & Hno).
  set (row := mkAuthSession _ _ _ _ _ _ _ _ _ _ _ _ _ _) in *.
  assert (auth_identities w3 = auth_identities d ∧ auth_sessions w3 = <[se_ID row := row]> (auth_sessions d) ∧ s = row) as (Hi & Hss & ->).
  { case_bool_decide; [by injection Hs as <- <-|]. by apply bind_Ok in Hs as (t & _ & [= <- <-]). }
  split_and!; try done. unfold GetActiveAuthSessionByTokenHash. rewrite Hss.
  apply (find_row_unique _ _ (se_ID row)); [apply lookup_insert_eq|by rewrite !bool_decide_eq_true_2|].
  intros k x [[_ <-]|[_ Hx]]%lookup_insert_Some; [done|]. rewrite andb_true_iff, !bool_decide_eq_true. intros [Hh _].
  specialize (Hno _ _ Hx). unfold session_clash in Hno. apply bool_decide_eq_false in Hno. by rewrite Hh in Hno.
Qed.
(** The request that carries the cookie and the token of [issueStrongCookie],
    while neither has expired. *)
Record carries (clock clock' : nat → time) (r r' : Request) (rawTokens : string) : Prop := {
  ca_cookie : option_map ck_Value (head (issueStrongCookie tables secret clock r rawTokens).1) = rq_Cookie r' strongCookieName;
  ca_csrf : rq_Header r' "X-CSRF-Token" = (issueStrongCookie tables secret clock r rawTokens).2;
  ca_range : in_int64 (Unix (Add (clock 0%nat) strongSessionTTL)) ∧ in_int64 (Unix (Add (clock 3%nat) strongSessionTTL));
  ca_time : (Unix (clock' 0%nat) <= Unix (Add (clock 0%nat) strongSessionTTL))%Z ∧
            (Unix (clock' 1%nat) <= Unix (Add (clock 3%nat) strongSessionTTL))%Z;
}.

Lemma carried_session clock clock' r r' raw refresh w session :
  contains_byte ":" raw = false → carries clock clock' r r' (raw +:+ ":" +:+ refresh) →
  GetActiveAuthSessionByTokenHash (Hash raw) (cd_auth w) = Ok session → cookie_session secret clock' r' true w = Some session.
Proof.
  intros Hraw [Hc Hx [R0 R3] [T0 T1]] Hs. unfold issueStrongCookie, splitStrongRawTokens, UrlParse.Cut in Hc, Hx.
  change (":" +:+ refresh) with (String ":" refresh) in Hc, Hx. rewrite Url.cut_byte_append in Hc, Hx by done.
  cbn [from_option id fst snd head option_map client_cookie ck_Value] in Hc, Hx. unfold cookie_session. rewrite <-Hc. cbn [mbind option_bind].
  rewrite signedValue_trim, bool_decide_eq_false_2 by apply signedValue_nonempty.
  unfold validateSignedCookie, validateStrongCSRF. rewrite Hx, signed_subject_signedValue by (done || apply Hash_colon).
  rewrite (proj2 (Z.ltb_ge _ _) T0). unfold newStrongCSRF.
  rewrite signedValue_trim, signed_subject_signedValue by (done || apply Hash_colon). rewrite (proj2 (Z.ltb_ge _ _) T1).
  rewrite signedValue_parts, Split_Join; [|done|].
  - rewrite Hs, <-signedValue_parts, bool_decide_eq_true_2 by done. done.
  - repeat apply Forall_cons_2; [apply Hash_colon|by apply Strconv.FormatInt_contains|apply hex_encode_colon|apply Forall_nil_2].
Qed.

(** Setting a password signs the client in: as long as the cookies it is
    given have not expired, a request that carries them is authenticated as the
    account and identity the password was set for. *)
Theorem setup_signs_in fr account password raw d d' rawTokens ident session db clock clock' r r' :
  identities_keyed d → accounts (core db) !! acc_ID account = Some account → acc_Status account = AccountStatusActive →
  sf_token fr = Ok raw → contains_byte ":" raw = false →
  setupStrongUser tables other_letter other_digit GenerateFromPassword fr account password d = (d', Ok (rawTokens, ident, session)) →
  carries clock clock' r r' rawTokens → past (clock' 2%nat) (Add (sf_clock fr 3%nat) strongSessionTTL) = false →
  let w := mkClientDB db d' in
  authenticateStrong secret clock' r' true w = (w, inl (mkStrongContext ident session account)).
Proof.
  intros Hk Hacc Hact Htok Hraw H Hcar Hpast w. unfold setupStrongUser in H.
  apply bindM_Ok in H as (w1 & u & [= <- _] & H). apply bindM_Ok in H as (w2 & i & Hi & H).
  apply bindM_Ok in H as (w3 & hash & [= <- _] & H). apply bindM_Ok in H as (w4 & c & Hc & H).
  apply user_identity_stored in Hi as (Hrow & Hkind & Hst & Hown); [|done]. apply write_password_identities in Hc.
  apply createStrongSession_Ok in H as (raw' & refresh & Hraw' & -> & -> & Hids & Hses & Hsi & Hss & Hse).
  rewrite Htok in Hraw'. injection Hraw' as <-. unfold authenticateStrong.
  rewrite (carried_session clock clock' r r' raw refresh w session) by done.
  unfold strongContextFromSession, strongContextFromSessionIgnoringAccessExpiry. cbn [Nat.add].
  rewrite (bool_decide_eq_true_2 _ Hss), Hse, Hpast. cbn [negb orb]. unfold GetAuthIdentity, GetAccount.
  rewrite (proj2 (get_row_Ok _ _ i)) by (cbn [w cd_auth]; by rewrite Hids, Hc, Hsi).
  rewrite !bool_decide_eq_true_2 by done. cbn [negb orb].
  rewrite (proj2 (get_row_Ok _ _ account)) by (cbn [w cd_db]; by rewrite Hown). by rewrite bool_decide_eq_true_2.
Qed.
End Strong.

(** Identities sit under their own identifiers whatever operations run. *)
Lemma exec_auths_identities ops : identities_keyed (exec_auths ops empty_auth).
Proof. exact (iw_key _ (exec_auths_identities_wf ops)). Qed.

Lemma empty_identities_keyed : identities_keyed empty_auth.
Proof. by intros id i H. Qed.

(** ** A sample client *)
Definition plain_request : Request := mkRequest "POST" (fun _ => None) (fun _ => EmptyString) true "vpn.example".
(** The request that sends a cookie and a token back. *)
Definition carrying (name value csrf : string) : Request :=
  mkRequest "POST" (fun n => if bool_decide (n = name) then Some value else None)
    (fun h => if bool_decide (h = "X-CSRF-Token") then csrf else EmptyString) true "vpn.example".
Definition demo_lite : Cookie * string := issueLiteCookie ascii_tables "s" (fun _ => sec 1000) plain_request "portal".
Definition demo_lite_request : Request := carrying (ck_Name demo_lite.1) (ck_Value demo_lite.1) demo_lite.2.

Lemma lite_cookie_scope_witness :
  ∃ who, authenticateLite "s" (fun _ => sec 1899) demo_lite_request = inl who ∧ who = Hash "portal".
Proof.
  destruct (lite_cookie_scope ascii_tables "s" (fun _ => sec 1000) plain_request "portal" (fun _ => sec 1899) demo_lite_request)
    as [[_ H1] H2]; [vm_compute; split; discriminate|vm_compute; split; discriminate|reflexivity|reflexivity|].
  destruct H1 as [who Hw]; [split; vm_compute; discriminate|]. exists who. split; [exact Hw|exact (H2 who Hw)].
Defined.

Definition demo_client_fresh : StrongFresh :=
  mkStrongFresh (fun _ => sec 2000) (Ok "access") (Ok "refresh") (demo_ids "7") "aid7" "acr7" (Ok "0123456789abcdef") "arc7".
Definition demo_client_account : Account := mkAccount "acc" "ann" "" AccountStatusActive (at_ms 1000) (at_ms 1000).
Definition demo_client_db : Database := set_core demo_s0 empty_database.
Definition no_rune (r : string) : bool := false.
Definition demo_generate (password : string) : result string := Ok ("bcrypt:" +:+ password).
Definition demo_setup : AuthDB * result (string * AuthIdentity * AuthSession) :=
  setupStrongUser ascii_tables no_rune no_rune demo_generate demo_client_fresh demo_client_account "s3cret pw!" empty_auth.

Lemma demo_setup_ok : ∃ d' rawTokens ident session, demo_setup = (d', Ok (rawTokens, ident, session)).
Proof.
  assert (H : match demo_setup.2 with Ok _ => True | Err _ => False end) by (vm_compute; exact I).
  destruct demo_setup as [d' [[[raws ident] session]|e]]; [by exists d', raws, ident, session|done].
Qed.
Lemma demo_client_row : accounts (core demo_client_db) !! "acc" = Some demo_client_account.
Proof. vm_compute. reflexivity. Qed.

Definition demo_strong_request (rawTokens : string) : Request :=
  let '(cookies, csrf) := issueStrongCookie ascii_tables "s" (fun _ => sec 2000) plain_request rawTokens in
  carrying strongCookieName (default EmptyString (option_map ck_Value (head cookies))) csrf.

Lemma demo_carries rawTokens :
  carries "s" ascii_tables (fun _ => sec 2000) (fun _ => sec 2500) plain_request (demo_strong_request rawTokens) rawTokens.
Proof.
  unfold demo_strong_request, issueStrongCookie. destruct (splitStrongRawTokens rawTokens) as [raw refresh] eqn:E.
  constructor; unfold issueStrongCookie; rewrite ?E; [reflexivity|reflexivity| |]; vm_compute; repeat split; discriminate.
Qed.

Lemma setup_signs_in_witness : ∃ d' rawTokens ident session, demo_setup = (d', Ok (rawTokens, ident, session)) ∧
  authenticateStrong "s" (fun _ => sec 2500) (demo_strong_request rawTokens) true (mkClientDB demo_client_db d') =
    (mkClientDB demo_client_db d', inl (mkStrongContext ident session demo_client_account)).
Proof.
  destruct demo_setup_ok as (d' & raws & ident & session & E). exists d', raws, ident, session. split; [exact E|].
  unfold demo_setup in E.
  exact (setup_signs_in "s" ascii_tables no_rune no_rune demo_generate demo_client_fresh demo_client_account "s3cret pw!" "access"
    empty_auth d' raws ident session demo_client_db (fun _ => sec 2000) (fun _ => sec 2500) plain_request (demo_strong_request raws)
    empty_identities_keyed demo_client_row eq_refl eq_refl eq_refl E (demo_carries raws) eq_refl).
Defined.

Definition demo_signed_in : ClientDB * (strongAuthContext + Response) :=
  authenticateStrong "s" (fun _ => sec 2500) (demo_strong_request "access:refresh") true (mkClientDB demo_client_db demo_setup.1).
Lemma demo_signed_in_ok : ∃ w ctx, demo_signed_in = (w, inl ctx).
Proof.
  assert (H : match demo_signed_in.2 with inl _ => True | inr _ => False end) by (vm_compute; exact I).
  destruct demo_signed_in as [w [ctx|a]]; [by exists w, ctx|done].
Qed.

Lemma strong_session_owner_witness : ∃ ctx,
  demo_signed_in = (mkClientDB demo_client_db demo_setup.1, inl ctx) ∧ acc_Status (sc_Account ctx) = AccountStatusActive.
Proof.
  destruct demo_signed_in_ok as (w & ctx & E). exists ctx. pose proof E as E'. unfold demo_signed_in in E'.
  destruct (strong_session_owner "s" _ _ _ _ _ _ E') as (Hw & _ & _ & _ & _ & _ & _ & _ & Ha).
  split; [rewrite <-Hw; exact E|exact Ha].
Defined.
