(* ===== verification/Workqueue.v ===== *)
(** * Workqueue: background jobs of the control plane

    [src/internal/server/workqueue]: the worker that leases jobs from the
    durable queue and dispatches them, and the handler of credential refresh
    jobs; [src/internal/server/transportdb/store.go]: the event table and the
    transaction that completes a job; [src/internal/server/events/bus.go]: the
    event bus.  A handler is an effectful function on the state of the parts
    it works on.  [seal] and [open] stand for [transportdb.Store.seal] and the
    opening the encrypting queue does on a lease; both are the identity when
    no secret key is configured. *)

From S2P Require Import Prelude GoLib GoJson Sql Queue ServerModel ServerStore StoreInvariant Samples.
From Stdlib Require Import Ascii.
Import GoTime JsonRead.

(** ** Events *)

Definition EventPending : string := "pending".
Definition EventDelivered : string := "delivered".
Definition EventExpired : string := "expired".

Record Event := mkEvent {
  ev_ID : string;
  ev_Topic : string;
  ev_Status : string;
  ev_Type : string;
  ev_EntityType : string;
  ev_EntityID : string;
  ev_Actor : string;
  ev_Message : string;
  ev_PayloadJSON : string;
  ev_CreatedAtMS : Z;
  ev_DeliveredAtMS : Z;
  ev_ExpiresAtMS : Z;
}.

(** The tables the queue and the event store share. *)
Record DB := mkDB { db_queue : SQLStore; db_events : gmap string Event }.

Definition set_queue (f : SQLStore → SQLStore) (d : DB) : DB := mkDB (f (db_queue d)) (db_events d).
Definition set_events (f : gmap string Event → gmap string Event) (d : DB) : DB :=
  mkDB (db_queue d) (f (db_events d)).

Module TransportDB.
Local Open Scope Z_scope.

Record CleanupPolicy := mkCleanupPolicy { DeliveredTTL : duration; ExpiredTTL : duration }.
Definition DefaultCleanupPolicy : CleanupPolicy := mkCleanupPolicy (15 * Minute) Hour.

Definition normalizeEvent (now : time) (newID : string) (e : Event) : Event :=
  mkEvent (or_default (ev_ID e) newID) (or_default (ev_Topic e) "admin")
    (or_default (ev_Status e) EventPending) (ev_Type e) (ev_EntityType e) (ev_EntityID e)
    (ev_Actor e) (ev_Message e) (or_default (ev_PayloadJSON e) "{}")
    (if ev_CreatedAtMS e =? 0 then TimeUnixMilli now else ev_CreatedAtMS e)
    (ev_DeliveredAtMS e)
    (if ev_ExpiresAtMS e =? 0 then TimeUnixMilli (Add now (10 * Minute)) else ev_ExpiresAtMS e).

Definition insert_event (e : Event) (t : gmap string Event) : result (gmap string Event) :=
  sql_insert "UNIQUE constraint failed: server_events.id" (ev_ID e) e t.

Definition CreateEvent (now : time) (newID : string) (e : Event) : goM DB Event :=
  transaction (fun d =>
    let e := normalizeEvent now newID e in
    t ← insert_event e (db_events d);
    Ok (mkDB (db_queue d) t, e)).

Definition event_le (e1 e2 : Event) : Prop :=
  ev_CreatedAtMS e1 < ev_CreatedAtMS e2 ∨
  ev_CreatedAtMS e1 = ev_CreatedAtMS e2 ∧ String.le (ev_ID e1) (ev_ID e2).
#[export] Instance event_le_dec : RelDecision event_le.
Proof. intros e1 e2. unfold event_le. apply _. Defined.

Definition ListPendingEvents (topic : string) (limit : Z) (d : DB) : list Event :=
  let limit := if limit <=? 0 then 100 else limit in
  sql_order_limit event_le (Z.to_nat limit)
    (sql_select (fun e => bool_decide (ev_Topic e = topic) && bool_decide (ev_Status e = EventPending))
       (db_events d)).

Definition set_event_status (st : string) (delivered : Z) (e : Event) : Event :=
  mkEvent (ev_ID e) (ev_Topic e) st (ev_Type e) (ev_EntityType e) (ev_EntityID e) (ev_Actor e)
    (ev_Message e) (ev_PayloadJSON e) (ev_CreatedAtMS e) delivered (ev_ExpiresAtMS e).

Definition MarkEventDelivered (now : time) (id : string) (deliveredAtMS : Z) : DB → DB :=
  let at_ := if deliveredAtMS =? 0 then TimeUnixMilli now else deliveredAtMS in
  set_events (sql_update (fun e => bool_decide (ev_ID e = id)) (set_event_status EventDelivered at_)).

(** An expiry of zero is stored as null. *)
Definition ExpireEvents (now : time) (nowMS : Z) : DB → DB :=
  let nowMS := if nowMS =? 0 then TimeUnixMilli now else nowMS in
  set_events (sql_update
    (fun e => bool_decide (ev_Status e = EventPending) && negb (ev_ExpiresAtMS e =? 0) &&
              (ev_ExpiresAtMS e <=? nowMS))
    (fun e => set_event_status EventExpired (ev_DeliveredAtMS e) e)).

Definition delete_older (st : string) (ttl : duration) (now : time) (d : DB) : DB :=
  if 0 <? ttl then
    set_events (sql_delete (fun e => bool_decide (ev_Status e = st) &&
      (ev_CreatedAtMS e <? TimeUnixMilli now - Milliseconds ttl))) d
  else d.

Definition Cleanup (now : time) (policy : CleanupPolicy) (d : DB) : DB :=
  delete_older EventExpired (ExpiredTTL policy) now
    (delete_older EventDelivered (DeliveredTTL policy) now d).
End TransportDB.

(** ** The event bus *)
Module Bus.
Local Open Scope Z_scope.

Definition AdminTopic (principal : string) : string := "admin:" +:+ or_default principal "admin".
Definition ClientTopic (accountID : string) : string := "client:" +:+ accountID.

(** The event is returned as given when it cannot be stored. *)
Definition Publish (now : time) (newID : string) (e : Event) (d : DB) : DB * Event :=
  let e := mkEvent (ev_ID e) (ev_Topic e) (or_default (ev_Status e) EventPending) (ev_Type e)
    (ev_EntityType e) (ev_EntityID e) (ev_Actor e) (ev_Message e) (or_default (ev_PayloadJSON e) "{}")
    (if ev_CreatedAtMS e =? 0 then TimeUnixMilli now else ev_CreatedAtMS e) (ev_DeliveredAtMS e)
    (if ev_ExpiresAtMS e =? 0 then TimeUnixMilli (Add now (10 * Minute)) else ev_ExpiresAtMS e) in
  match TransportDB.CreateEvent now newID e d with
  | (d', Ok saved) => (d', saved)
  | (d', Err _) => (d', e)
  end.

Definition ListPending (now : time) (topic : string) (limit : Z) (d : DB) : DB * list Event :=
  let d := TransportDB.ExpireEvents now (TimeUnixMilli now) d in
  (d, TransportDB.ListPendingEvents topic limit d).

Definition MarkDelivered (now : time) (id : string) : DB → DB :=
  TransportDB.MarkEventDelivered now id (TimeUnixMilli now).
End Bus.

(** ** Results of a job *)
Record Result := mkResult {
  rs_Status : Status;
  rs_Output : string;
  rs_Next : list Message;
  rs_Events : list Event;
  rs_RetryAt : time;
}.

Module Completer.
Section Completer.
Context (seal : string → string).

Definition seal_message (msg : Message) : Message :=
  mkMessage (m_ID msg) (m_ActorID msg) (m_Direction msg) (m_Type msg) (seal (m_Payload msg))
    (m_Status msg) (m_AvailableAt msg) (m_ExpiresAt msg) (m_CreatedAt msg) (m_UpdatedAt msg)
    (seal (m_ResultPayload msg)) (m_Error msg).

(** The same row as [SQLStore.Enqueue] writes. *)
Definition enqueueOutboxTx (now : time) (msg : Message) (t : table) : table :=
  writeMessage now (seal_message msg) true t.

Definition complete_row (now : time) (res : Result) (r : row) : row :=
  let st := if bool_decide (rs_Status res = StatusUnset) then StatusApplied else rs_Status res in
  match st with
  | StatusApplied | StatusAcked =>
      set_output st (encodeMessageJSON (mkJSON "" (seal (rs_Output res)))) "" r
  | StatusExpired => set_output st ∅ "" r
  | StatusFailed =>
      let available := if IsZero (rs_RetryAt res) then now else rs_RetryAt res in
      let stored := if After available now then StatusPending else StatusFailed in
      set_failed stored (UnixMilli available) (rs_Output res) r
  | _ => set_failed StatusFailed (UnixMilli now) "unsupported handler status" r
  end.

Definition completeMessageTx (now : time) (id' : string) (res : Result) (t : table) : table :=
  sql_update (fun r => bool_decide (id r = id')) (complete_row now res) t.

(** [newID i] is the id of the [i]-th event that has none. *)
Definition Complete (now : time) (newID : nat → string) (msg : Message) (res : Result) : goM DB unit :=
  transaction (fun d =>
    let out := foldl (fun t next => enqueueOutboxTx now next t) (outbox (db_queue d)) (rs_Next res) in
    ev ← foldlR (fun t e => TransportDB.insert_event e t)
           (imap (fun i e => TransportDB.normalizeEvent now (newID i) e) (rs_Events res)) (db_events d);
    Ok (mkDB (mkStore (completeMessageTx now (m_ID msg) res out) (inbox (db_queue d))) ev, tt)).
End Completer.
End Completer.

(** ** The worker *)
Module Worker.
Section Worker.
Context (seal open : string → string).
Context {H : Type}.

(** A handler returns its result together with the error, if any. *)
Definition Handler : Type := Message → H → H * (Result * option error).

Record Worker := mkWorker {
  wk_actorID : string;
  wk_handlers : gmap string Handler;
}.

Definition Register (typ : string) (handler : Handler) (w : Worker) : Worker :=
  mkWorker (wk_actorID w) (<[typ := handler]> (wk_handlers w)).

Definition next_defaults (now : time) (actorID : string) (m : Message) : Message :=
  mkMessage (m_ID m) (or_default (m_ActorID m) actorID) (m_Direction m) (m_Type m) (m_Payload m)
    (if bool_decide (m_Status m = StatusUnset) then StatusPending else m_Status m)
    (if IsZero (m_AvailableAt m) then now else m_AvailableAt m)
    (m_ExpiresAt m) (m_CreatedAt m) (m_UpdatedAt m) (m_ResultPayload m) (m_Error m).

(** The result handed to the completer. *)
Definition completed (now : time) (actorID : string) (res : Result) (e : option error) : Result :=
  match e with
  | Some e =>
      let retryAt := if IsZero (rs_RetryAt res) then Add now (10 * Second)%Z else rs_RetryAt res in
      mkResult StatusFailed e (rs_Next res) (rs_Events res) retryAt
  | None =>
      mkResult (rs_Status res) (rs_Output res) (next_defaults now actorID <$> rs_Next res)
        (rs_Events res) (rs_RetryAt res)
  end.

Definition finish (now : time) (newID : nat → string) (msg : Message) (res : Result) (d : DB) : DB :=
  match Completer.Complete seal now newID msg res d with
  | (d', Ok _) => d'
  | (d', Err e) => set_queue (MarkFailed now (m_ID msg) e (Add now (10 * Second)%Z)) d'
  end.

Definition handle (now : time) (newID : nat → string) (w : Worker) (msg : Message) (s : DB * H) : DB * H :=
  let '(d, h) := s in
  match wk_handlers w !! m_Type msg with
  | None => (set_queue (MarkFailed now (m_ID msg) "unknown message type" zero_time) d, h)
  | Some handler =>
      let '(h', (res, e)) := handler msg h in
      (finish now newID msg (completed now (wk_actorID w) res e) d, h')
  end.

Definition open_message (msg : Message) : Message :=
  mkMessage (m_ID msg) (m_ActorID msg) (m_Direction msg) (m_Type msg) (open (m_Payload msg))
    (m_Status msg) (m_AvailableAt msg) (m_ExpiresAt msg) (m_CreatedAt msg) (m_UpdatedAt msg)
    (open (m_ResultPayload msg)) (m_Error msg).

(** One round: expired leases are returned, at most ten jobs are leased for
    thirty seconds and handled one after the other; [clock i] is the time and
    [newID i] the source of ids when the [i]-th of them is handled. *)
Definition runOnce (now : time) (clock : nat → time) (newID : nat → nat → string) (w : Worker)
    (s : DB * H) : DB * H :=
  let d := set_queue (RequeueExpiredLeases now (wk_actorID w)) s.1 in
  let '(messages, q) := LeasePending now (wk_actorID w) 10 (30 * Second)%Z (db_queue d) in
  foldl (fun s im => handle (clock im.1) (newID im.1) w im.2 s) (mkDB q (db_events d), s.2)
    (imap (fun i m => (i, open_message m)) messages).
End Worker.
Arguments mkWorker {H} _ _.
Arguments wk_actorID {H} _.
Arguments wk_handlers {H} _.
End Worker.

(** ** Credential refresh *)

Record AuthRefreshPayload := mkAuthRefreshPayload {
  ap_NodeID : string;
  ap_AccountID : string;
  ap_SnapshotVersionMS : Z;
}.

Module AuthRefresh.
Definition TypeNodeAuthRefresh : string := "node.auth.refresh".

(** [json.Marshal] and [json.Unmarshal] of the payload. *)
Definition marshal (p : AuthRefreshPayload) : string :=
  object [("node_id", Json.quote (ap_NodeID p)); ("account_id", Json.quote (ap_AccountID p));
          ("snapshot_version_ms", Strconv.FormatInt (ap_SnapshotVersionMS p))].

Definition payload_fields : list (field AuthRefreshPayload) :=
  [string_field "node_id" (fun x p => mkAuthRefreshPayload x (ap_AccountID p) (ap_SnapshotVersionMS p));
   string_field "account_id" (fun x p => mkAuthRefreshPayload (ap_NodeID p) x (ap_SnapshotVersionMS p));
   int64_field "snapshot_version_ms" (fun n p => mkAuthRefreshPayload (ap_NodeID p) (ap_AccountID p) n)].

Definition unmarshal (raw : string) : AuthRefreshPayload * bool :=
  Unmarshal (decode_struct payload_fields) raw (mkAuthRefreshPayload EmptyString EmptyString 0).

Definition NewAuthRefreshMessage (now : time) (newID : string) (p : AuthRefreshPayload) : Message :=
  mkMessage newID "server" DirectionOutbound TypeNodeAuthRefresh (marshal p) StatusPending now
    (Add now (15 * Minute)%Z) zero_time zero_time EmptyString EmptyString.

Record connectionAction := mkAction { ca_Name : string; ca_AdminVerb : string; ca_ClientVerb : string }.

Definition connectionAppliedAction (status : string) : connectionAction :=
  if bool_decide (status = ConnectionStatusActive) then mkAction "active" "активировано" "активировано"
  else if bool_decide (status = ConnectionStatusHeld) then mkAction "held" "заблокировано" "заблокировано"
  else if bool_decide (status = ConnectionStatusDeleted) then mkAction "deleted" "удалено" "удалено"
  else mkAction "updated" "обновлено" "обновлено".

Definition accountEventLabel (id : string) (s : Server) : string :=
  match GetAccount id s with
  | Err _ => id
  | Ok v =>
      match TrimSpace (acc_DisplayName v) with
      | EmptyString => match TrimSpace (acc_Username v) with EmptyString => id | x => x end
      | x => x
      end
  end.

Definition nodeEventLabel (id : string) (s : Server) : string :=
  match GetNode id s with
  | Err _ => id
  | Ok v => match TrimSpace (nd_Name v) with EmptyString => id | x => x end
  end.

Definition applied_events (p : AuthRefreshPayload) (accountLabel nodeLabel : string) (c : Connection) :
    list Event :=
  let action := connectionAppliedAction (cn_AppliedStatus c) in
  let data := object
    [("account_id", Json.quote (ap_AccountID p)); ("account_name", Json.quote accountLabel);
     ("action", Json.quote (ca_Name action)); ("applied_status", Json.quote (cn_AppliedStatus c));
     ("applied_version_ms", Strconv.FormatInt (cn_AppliedVersionMS c));
     ("connection_id", Json.quote (cn_ID c)); ("connection_name", Json.quote (cn_Name c));
     ("desired_status", Json.quote (cn_DesiredStatus c)); ("node_id", Json.quote (ap_NodeID p));
     ("node_name", Json.quote nodeLabel)] in
  let event topic message :=
    mkEvent EmptyString topic EmptyString "connection.applied" "connection" (cn_ID c) EmptyString
      message data 0 0 0 in
  [event (Bus.AdminTopic "admin")
     ("Подключение " +:+ cn_Name c +:+ " для " +:+ accountLabel +:+ " " +:+ ca_AdminVerb action +:+
      " на " +:+ nodeLabel +:+ ".");
   event (Bus.ClientTopic (ap_AccountID p))
     ("Подключение " +:+ cn_Name c +:+ " " +:+ ca_ClientVerb action +:+ ".")].

Section Handler.
Context {R : Type}.
(** [AuthRefresher.RefreshAuthApplied]: asks the agent of a node to apply the
    snapshot and returns the version it applied. *)
Context (RefreshAuthApplied : string → string → Z → goM (Server * R) Z).

Definition retry (now : time) : Result := mkResult StatusUnset EmptyString [] [] (Add now (15 * Second)%Z).

Definition Handle (now : time) (msg : Message) (h : Server * R) : (Server * R) * (Result * option error) :=
  let '(p, ok) := unmarshal (m_Payload msg) in
  if negb ok then (h, (mkResult StatusFailed EmptyString [] [] zero_time, Some "invalid payload"))
  else
    match RefreshAuthApplied (ap_NodeID p) (ap_AccountID p) (ap_SnapshotVersionMS p) h with
    | (h1, Err e) => (h1, (retry now, Some e))
    | ((s1, r1), Ok applied) =>
        match FinalizeConnectionsForAuthSnapshot now (ap_NodeID p) (ap_AccountID p) applied s1 with
        | (s2, Err e) => ((s2, r1), (retry now, Some e))
        | (s2, Ok finalized) =>
            let accountLabel := accountEventLabel (ap_AccountID p) s2 in
            let nodeLabel := nodeEventLabel (ap_NodeID p) s2 in
            let out := object [("applied_snapshot_version_ms", Strconv.FormatInt applied);
                               ("finalized", Strconv.FormatInt (Z.of_nat (length finalized)))] in
            ((s2, r1), (mkResult StatusApplied out []
              (flat_map (applied_events p accountLabel nodeLabel) finalized) zero_time, None))
        end
    end.
End Handler.
End AuthRefresh.

(** ** Payloads are read back *)

Lemma unmarshal_marshal p :
  ValidString (ap_NodeID p) = true → ValidString (ap_AccountID p) = true →
  in_int64 (ap_SnapshotVersionMS p) →
  AuthRefresh.unmarshal (AuthRefresh.marshal p) = (p, true).
Proof.
  unfold ValidString. rewrite !bool_decide_eq_true. intros Hn Ha Hv.
  unfold AuthRefresh.unmarshal, AuthRefresh.marshal, Unmarshal.
  rewrite (parse_object _
    [("node_id", JString (sanitize (ap_NodeID p))); ("account_id", JString (sanitize (ap_AccountID p)));
     ("snapshot_version_ms", JNumber (Strconv.FormatInt (ap_SnapshotVersionMS p)))]);
    [|repeat (apply Forall2_cons_2); try apply Forall2_nil_2;
      (split; [by vm_compute|]); first [apply reads_quote|apply reads_int]].
  cbn [decode_struct foldl].
  assert (H1 : ∀ acc x, set_member AuthRefresh.payload_fields acc ("node_id", JString x) =
    (mkAuthRefreshPayload x (ap_AccountID acc.1) (ap_SnapshotVersionMS acc.1), acc.2 && true)) by reflexivity.
  assert (H2 : ∀ acc x, set_member AuthRefresh.payload_fields acc ("account_id", JString x) =
    (mkAuthRefreshPayload (ap_NodeID acc.1) x (ap_SnapshotVersionMS acc.1), acc.2 && true)) by reflexivity.
  assert (H3 : ∀ acc t, set_member AuthRefresh.payload_fields acc ("snapshot_version_ms", JNumber t) =
    let '(q, ok) := match Strconv.ParseInt t with
      | Ok n => (mkAuthRefreshPayload (ap_NodeID acc.1) (ap_AccountID acc.1) n, true)
      | Err _ => (acc.1, false) end in (q, acc.2 && ok)) by reflexivity.
  rewrite H1, H2, H3, Strconv.ParseInt_FormatInt, Hn, Ha by done. by destruct p.
Qed.

(** ** What finalising does to the connections *)

Lemma set_applied_idem now c : set_applied now (set_applied now c) = set_applied now c.
Proof. done. Qed.

Definition apply_version (now : time) (version : Z) (c : Connection) : Connection :=
  if (cn_DesiredVersionMS c <=? version)%Z then set_applied now c else c.

Lemma apply_version_idem now version c :
  apply_version now version (apply_version now version c) = apply_version now version c.
Proof.
  unfold apply_version. destruct (cn_DesiredVersionMS c <=? version)%Z eqn:E; [|by rewrite E].
  cbn. by rewrite E.
Qed.

Lemma finalize_one_lookup now version v s id' :
  connections (finalize_one now version v s) !! id' =
  if decide (id' = cn_ID v) then apply_version now version <$> connections s !! id' else connections s !! id'.
Proof.
  unfold finalize_one. case_bool_decide; cbn; case_decide; subst;
    rewrite ?lookup_alter_eq, ?lookup_alter_ne by done; done.
Qed.

Lemma finalize_apply_lookup now version cands s id' :
  connections (finalize_apply now version cands s) !! id' =
  if decide (id' ∈ cn_ID <$> cands) then apply_version now version <$> connections s !! id'
  else connections s !! id'.
Proof.
  unfold finalize_apply. revert s. induction cands as [|v l IH]; intros s; cbn [foldl].
  { by rewrite decide_False by (by apply not_elem_of_nil). }
  rewrite IH, finalize_one_lookup, fmap_cons.
  destruct (decide (id' = cn_ID v)) as [->|Hne].
  - rewrite (decide_True (P := _ ∈ _ :: _)) by (by left). case_decide; [|done].
    destruct (connections s !! cn_ID v); [|done]. cbn. by rewrite apply_version_idem.
  - case_decide as Hd; [rewrite decide_True by (by right); done|].
    rewrite decide_False; [done|]. by intros [?|?]%elem_of_cons.
Qed.

Definition of_snapshot (nodeID accountID : string) (version : Z) (c : Connection) : Prop :=
  cn_NodeID c = nodeID ∧ cn_AccountID c = accountID ∧ (cn_DesiredVersionMS c <= version)%Z.
#[export] Instance of_snapshot_dec n a v c : Decision (of_snapshot n a v c).
Proof. unfold of_snapshot. apply _. Defined.

Lemma finalize_candidate_spec n a v c :
  finalize_candidate n a v c = true ↔ of_snapshot n a v c ∧ Pending c = true.
Proof.
  unfold finalize_candidate, of_snapshot, Pending.
  rewrite !andb_true_iff, !orb_true_iff, !negb_true_iff, !bool_decide_eq_true, !bool_decide_eq_false, Z.leb_le.
  split; intros; split_and?; destruct_and?; try done; naive_solver.
Qed.

Lemma Pending_set_applied now c : Pending (set_applied now c) = false.
Proof. unfold Pending. cbn. rewrite bool_decide_eq_true_2 by done. by rewrite Z.ltb_irrefl. Qed.

(** A connection the snapshot covers is settled, another one is left alone. *)
Lemma finalize_connections now n a v s s' cs :
  server_wf s → FinalizeConnectionsForAuthSnapshot now n a v s = (s', Ok cs) →
  ∀ id' c, connections s !! id' = Some c →
    ∃ c', connections s' !! id' = Some c' ∧
      if decide (of_snapshot n a v c)
      then Pending c' = false ∧ cn_AppliedStatus c' = cn_DesiredStatus c ∧ cn_DesiredStatus c' = cn_DesiredStatus c
      else c' = c.
Proof.
  intros Hwf [= <- _] id' c Hc. rewrite finalize_apply_lookup, Hc. pose proof (wf_id _ Hwf _ _ Hc) as Hid.
  assert (Hin : id' ∈ cn_ID <$> finalize_candidates n a v s ↔ finalize_candidate n a v c = true).
  { unfold finalize_candidates. rewrite list_elem_of_fmap. split.
    - intros (c' & Heq & Hc'). rewrite elem_of_order_by in Hc'. apply elem_of_sql_select in Hc' as (Hcand & k & Hk).
      pose proof (wf_id _ Hwf _ _ Hk). congruence.
    - intros Hcand. exists c. split; [done|]. rewrite elem_of_order_by. apply elem_of_sql_select. eauto. }
  rewrite finalize_candidate_spec in Hin. case_decide as Hm.
  - apply Hin in Hm as [Hs Hp]. eexists. split; [done|].
    rewrite decide_True by done. unfold apply_version.
    rewrite (proj2 (Z.leb_le _ _)) by apply Hs. by rewrite Pending_set_applied.
  - exists c. split; [done|]. case_decide as Hs; [|done].
    destruct (Pending c) eqn:Hp; [by destruct Hm; apply Hin|].
    unfold Pending in Hp. apply orb_false_iff in Hp as [Hp%negb_false_iff%bool_decide_eq_true _]. done.
Qed.

(** Each connection that is finalised is announced to its owner. *)
Lemma announced p al nl l c v :
  c ∈ l → v = cn_ID c →
  ∃ e, e ∈ flat_map (AuthRefresh.applied_events p al nl) (mark_applied <$> l) ∧ ev_EntityID e = v ∧
       ev_Topic e = Bus.ClientTopic (ap_AccountID p).
Proof.
  intros Hc ->. eexists. split; [|split; [|]].
  - apply list_elem_of_In, in_flat_map. exists (mark_applied c). split; [|right; left; done].
    apply list_elem_of_In, list_elem_of_fmap. eauto.
  - done.
  - done.
Qed.

(** ** No leased job is left behind *)

Definition settled (i : string) (t : table) : Prop :=
  map_Forall (fun _ r => id r = i → status r ≠ StatusInFlight) t.

(** An update that takes rows out of flight. *)
Definition lands (f : row → row) : Prop := ∀ r, id (f r) = id r ∧ status (f r) ≠ StatusInFlight.

Lemma lands_settled j P f t : lands f → settled j t → settled j (sql_update P f t).
Proof.
  intros Hf Ht k r. rewrite lookup_sql_update. intros (r0 & Hr0 & ->)%fmap_Some.
  destruct (P r0); [intros _; apply Hf|]. by apply (Ht k).
Qed.

Lemma lands_settles i f t : lands f → settled i (sql_update (fun r => bool_decide (id r = i)) f t).
Proof.
  intros Hf k r. rewrite lookup_sql_update. intros (r0 & Hr0 & ->)%fmap_Some.
  case_bool_decide as E; [intros _; apply Hf|done].
Qed.

Lemma complete_row_lands seal now res : lands (Completer.complete_row seal now res).
Proof.
  intros r. unfold Completer.complete_row. cbv zeta.
  destruct (if bool_decide _ then _ else _); cbn; try done. by case_match.
Qed.

Lemma writeMessage_settled now msg b j t :
  m_Status msg ≠ StatusInFlight → settled j t → settled j (writeMessage now msg b t).
Proof.
  intros Hm Ht. unfold writeMessage. cbv zeta.
  assert (Hs : status (message_row (message_defaults now msg)) ≠ StatusInFlight)
    by (cbn; by case_bool_decide).
  destruct b; intros k r; [rewrite lookup_sql_upsert|rewrite lookup_sql_insert_if_absent].
  - case_decide; [|by apply (Ht k)]. intros [= <-] _. by destruct (t !! _).
  - case_decide; [|by apply (Ht k)]. destruct (t !! _) eqn:E; intros [= <-]; [|done]. by apply (Ht _ _ E).
Qed.

Lemma MarkFailed_settled now mid e at_ j q :
  settled j (outbox q) → settled j (outbox (MarkFailed now mid e at_ q)).
Proof. apply lands_settled. intros r. cbn. by case_match. Qed.

Lemma MarkFailed_settles now mid e at_ q : settled mid (outbox (MarkFailed now mid e at_ q)).
Proof. apply lands_settles. intros r. cbn. by case_match. Qed.

Definition grounded (ms : list Message) : Prop := Forall (fun m => m_Status m ≠ StatusInFlight) ms.

Lemma enqueue_all_settled seal now ms j t :
  grounded ms → settled j t →
  settled j (foldl (fun t next => Completer.enqueueOutboxTx seal now next t) t ms).
Proof.
  intros Hms. revert t. induction Hms as [|m ms Hm _ IH]; intros t Ht; [done|]. cbn [foldl].
  apply IH. by apply writeMessage_settled.
Qed.

Lemma finish_settled seal now newID msg res d :
  grounded (rs_Next res) →
  settled (m_ID msg) (outbox (db_queue (Worker.finish seal now newID msg res d))) ∧
  ∀ j, settled j (outbox (db_queue d)) → settled j (outbox (db_queue (Worker.finish seal now newID msg res d))).
Proof.
  intros Hn. unfold Worker.finish, Completer.Complete. destruct (transaction _ _) as [d' [u|e]] eqn:E.
  - apply transaction_Ok in E. apply bind_Ok in E as (ev & _ & [= <- _]). cbn. split.
    + apply lands_settles, complete_row_lands.
    + intros j Hj. apply lands_settled; [apply complete_row_lands|]. by apply enqueue_all_settled.
  - apply transaction_Err in E as [-> _]. split; [apply MarkFailed_settles|].
    intros j. apply MarkFailed_settled.
Qed.

Section Settles.
Context (seal open : string → string) {H : Type}.

(** The jobs a handler adds are not marked as leased. *)
Definition well_behaved (w : Worker.Worker (H := H)) : Prop :=
  ∀ typ handler msg h, Worker.wk_handlers w !! typ = Some handler → grounded (rs_Next (handler msg h).2.1).

Lemma completed_grounded now a res e : grounded (rs_Next res) → grounded (rs_Next (Worker.completed now a res e)).
Proof.
  destruct e; [done|]. cbn. intros Hn. apply Forall_fmap. eapply list.Forall_impl; [exact Hn|].
  intros m Hm. cbn. by case_bool_decide.
Qed.

Lemma handle_settled now newID w msg (s : DB * H) :
  well_behaved w →
  settled (m_ID msg) (outbox (db_queue (Worker.handle seal now newID w msg s).1)) ∧
  ∀ j, settled j (outbox (db_queue s.1)) →
       settled j (outbox (db_queue (Worker.handle seal now newID w msg s).1)).
Proof.
  intros Hw. destruct s as [d h]. unfold Worker.handle.
  destruct (Worker.wk_handlers w !! m_Type msg) as [handler|] eqn:E.
  - specialize (Hw _ _ msg h E). destruct (handler msg h) as [h' [res e]]. cbn in *.
    by apply finish_settled, completed_grounded.
  - cbn. split; [apply MarkFailed_settles|]. intros j. apply MarkFailed_settled.
Qed.

Lemma handle_all_settled clock newID w l (s : DB * H) j :
  well_behaved w → settled j (outbox (db_queue s.1)) ∨ j ∈ (fun im : nat * Message => m_ID im.2) <$> l →
  settled j (outbox (db_queue
    (foldl (fun s im => Worker.handle seal (clock im.1) (newID im.1) w im.2 s) s l).1)).
Proof.
  intros Hw. revert s. induction l as [|[i m] l IH]; intros s Hj; cbn [foldl].
  - destruct Hj as [?|Hj]; [done|]. by apply elem_of_nil in Hj.
  - destruct (handle_settled (clock i) (newID i) w m s Hw) as [H1 H2]. apply IH.
    destruct Hj as [Hj|[-> |Hj]%elem_of_cons]; [left; by apply H2|by left|by right].
Qed.
End Settles.

(** One round of the worker settles every job it leased: whatever the
    handlers return, whether they fail, the job type is unknown, or the
    completing transaction is refused, afterwards the job is done, failed or
    waiting for its next attempt, and never stuck under its lease. *)
Theorem runOnce_settles seal open {H} now clock newID (w : Worker.Worker (H := H)) (s : DB * H) m k r :
  well_behaved w →
  m ∈ (LeasePending now (Worker.wk_actorID w) 10 (30 * Second)%Z
         (RequeueExpiredLeases now (Worker.wk_actorID w) (db_queue s.1))).1 →
  outbox (db_queue (Worker.runOnce seal open now clock newID w s).1) !! k = Some r →
  id r = m_ID m → status r ≠ StatusInFlight.
Proof.
  intros Hw Hm Hr. revert k r Hr. change (settled (m_ID m) (outbox (db_queue (Worker.runOnce seal open now clock newID w s).1))).
  unfold Worker.runOnce. cbn [set_queue db_queue db_events].
  destruct (LeasePending now _ 10 _ _) as [messages q]. cbn in Hm.
  apply handle_all_settled; [done|]. right.
  apply list_elem_of_lookup in Hm as [i Hi]. apply list_elem_of_fmap.
  exists (i, Worker.open_message open m). split; [done|].
  apply list_elem_of_lookup. exists i. by rewrite list_lookup_imap, Hi.
Qed.

(** ** A run of the worker

    The first job holds a refresh, the second one a type nobody registered. *)
Definition demo_payload : AuthRefreshPayload := mkAuthRefreshPayload "nod" "acc" 2500.
Definition demo_jobs : SQLStore :=
  Enqueue (at_ms 2500) (AuthRefresh.NewAuthRefreshMessage (at_ms 2500) "job-1" demo_payload)
    (Enqueue (at_ms 2500)
       (mkMessage "job-2" "server" DirectionOutbound "other" EmptyString StatusPending
          (at_ms 2500) (at_ms 9000) zero_time zero_time EmptyString EmptyString) (mkStore ∅ ∅)).

(** An agent that applies what it is asked to. *)
Definition demo_refresh (nodeID accountID : string) (version : Z) : goM (Server * unit) Z :=
  fun h => (h, Ok version).
Definition demo_worker : Worker.Worker :=
  Worker.Register AuthRefresh.TypeNodeAuthRefresh (AuthRefresh.Handle demo_refresh (at_ms 3000))
    (Worker.mkWorker "server" ∅).
Definition demo_state : DB * (Server * unit) := (mkDB demo_jobs ∅, (exec_op demo_hold demo_s0, tt)).

Lemma demo_worker_behaves : well_behaved demo_worker.
Proof.
  intros typ handler msg h. unfold demo_worker, Worker.Register. cbn.
  intros [[<- <-]|[_ [=]]]%lookup_insert_Some. unfold AuthRefresh.Handle.
  repeat case_match; simplify_eq; apply Forall_nil_2.
Qed.

Definition demo_round : DB * (Server * unit) :=
  Worker.runOnce (fun x => x) (fun x => x) (at_ms 3000) (fun _ => at_ms 3001)
    (fun i j => "ev" +:+ Strconv.FormatInt (Z.of_nat (2 * i + j))) demo_worker demo_state.
Definition demo_leased : list Message :=
  (LeasePending (at_ms 3000) (Worker.wk_actorID demo_worker) 10 (30 * Second)%Z
     (RequeueExpiredLeases (at_ms 3000) (Worker.wk_actorID demo_worker) (db_queue demo_state.1))).1.

Lemma demo_leased_ids : m_ID <$> demo_leased = ["job-1"; "job-2"].
Proof. vm_compute. reflexivity. Qed.

Lemma demo_round_row : ∃ m r, m ∈ demo_leased ∧
  outbox (db_queue demo_round.1) !! ("server", "job-1") = Some r ∧ id r = m_ID m.
Proof.
  assert (∃ m, m ∈ demo_leased ∧ m_ID m = "job-1") as (m & Hm & Hid).
  { assert ("job-1" ∈ m_ID <$> demo_leased) as (m & ? & ?)%list_elem_of_fmap by (rewrite demo_leased_ids; by left).
    eauto. }
  exists m. rewrite Hid. assert (id <$> outbox (db_queue demo_round.1) !! ("server", "job-1") = Some "job-1")
    as (r & Hr & Hr')%fmap_Some by (vm_compute; reflexivity). eauto.
Qed.

Lemma runOnce_settles_witness :
  ∃ r, outbox (db_queue demo_round.1) !! ("server", "job-1") = Some r ∧ status r ≠ StatusInFlight.
Proof.
  destruct demo_round_row as (m & r & Hm & Hr & Hid). exists r. split; [exact Hr|].
  exact (runOnce_settles (fun x => x) (fun x => x) (at_ms 3000) (fun _ => at_ms 3001)
    (fun i j => "ev" +:+ Strconv.FormatInt (Z.of_nat (2 * i + j))) demo_worker demo_state m _ r
    demo_worker_behaves Hm Hr Hid).
Defined.

(** ** A refresh settles the connections it covers *)

Section HandleFinalizes.
Context {R : Type} (refresh : string → string → Z → goM (Server * R) Z).

(** What the handler of a refresh with payload [p] promises once the agent has
    applied a version, leaving the database [s1] behind. *)
Definition finalizes (p : AuthRefreshPayload) (applied : Z) (s1 s2 : Server) (res : Result) : Prop :=
  rs_Status res = StatusApplied ∧
  ∀ id' c, connections s1 !! id' = Some c → ∃ c', connections s2 !! id' = Some c' ∧
    if decide (of_snapshot (ap_NodeID p) (ap_AccountID p) applied c)
    then Pending c' = false ∧ cn_AppliedStatus c' = cn_DesiredStatus c ∧ cn_DesiredStatus c' = cn_DesiredStatus c ∧
         (Pending c = true → ∃ e, e ∈ rs_Events res ∧ ev_EntityID e = id' ∧ ev_Topic e = Bus.ClientTopic (ap_AccountID p))
    else c' = c.

Lemma handle_finalizes now msg p s r s1 r1 applied :
  m_Payload msg = AuthRefresh.marshal p →
  ValidString (ap_NodeID p) = true → ValidString (ap_AccountID p) = true →
  in_int64 (ap_SnapshotVersionMS p) →
  refresh (ap_NodeID p) (ap_AccountID p) (ap_SnapshotVersionMS p) (s, r) = ((s1, r1), Ok applied) →
  server_wf s1 →
  ∃ s2 res, AuthRefresh.Handle refresh now msg (s, r) = ((s2, r1), (res, None)) ∧ finalizes p applied s1 s2 res.
Proof.
  intros Hm Hn Ha Hv Href Hwf. unfold AuthRefresh.Handle. rewrite Hm, unmarshal_marshal by done.
  cbn [negb]. rewrite Href.
  destruct (FinalizeConnectionsForAuthSnapshot _ _ _ _ _) as [s2 [cs|e]] eqn:Ef; [|done].
  eexists s2, _. split; [done|]. split; [done|]. intros id' c Hc.
  destruct (finalize_connections _ _ _ _ _ _ _ Hwf Ef id' c Hc) as (c' & Hc' & Hs). exists c'. split; [done|].
  case_decide as Hd; [|done]. destruct Hs as (Hp & Has & Hds). split_and!; [done..|]. intros Hpend.
  injection Ef as _ <-. apply announced with c; [|symmetry; by apply (wf_id _ Hwf)].
  unfold finalize_candidates. rewrite elem_of_order_by. apply elem_of_sql_select.
  split; [by apply finalize_candidate_spec|eauto].
Qed.
End HandleFinalizes.

(** The handler of credential refreshes reads back the payload its
    producer wrote and, once the agent has applied some version, finishes the
    job without an error: every connection of that account on that node whose
    desired version the agent has reached is no longer pending and has the
    desired status applied, every other connection is untouched, and each
    connection that was pending is announced to its owner. *)
Theorem auth_refresh_finalizes {R} (refresh : string → string → Z → goM (Server * R) Z) now t i p s r s1 r1 applied :
  ValidString (ap_NodeID p) = true → ValidString (ap_AccountID p) = true →
  in_int64 (ap_SnapshotVersionMS p) →
  refresh (ap_NodeID p) (ap_AccountID p) (ap_SnapshotVersionMS p) (s, r) = ((s1, r1), Ok applied) →
  server_wf s1 →
  ∃ s2 res, AuthRefresh.Handle refresh now (AuthRefresh.NewAuthRefreshMessage t i p) (s, r) = ((s2, r1), (res, None)) ∧
    finalizes p applied s1 s2 res.
Proof. by apply handle_finalizes. Qed.

Lemma demo_held_con : ∃ c, connections (exec_op demo_hold demo_s0) !! "con-a" = Some c ∧
  of_snapshot "nod" "acc" 2500 c ∧ Pending c = true ∧ cn_DesiredStatus c = ConnectionStatusHeld.
Proof. eexists. split; [by vm_compute|]. by vm_compute. Qed.

Lemma demo_held_wf : server_wf (exec_op demo_hold demo_s0).
Proof. apply exec_op_wf, demo_s0_wf. Qed.

(** The connection put on hold is on hold once the job has run. *)
Lemma auth_refresh_finalizes_witness :
  ∃ s2 res c', AuthRefresh.Handle demo_refresh (at_ms 3000)
      (AuthRefresh.NewAuthRefreshMessage (at_ms 2500) "job-1" demo_payload) (exec_op demo_hold demo_s0, tt)
    = ((s2, tt), (res, None)) ∧
    connections s2 !! "con-a" = Some c' ∧ cn_AppliedStatus c' = ConnectionStatusHeld.
Proof.
  destruct demo_held_con as (c & Hc & Hof & Hp & Hs).
  destruct (auth_refresh_finalizes demo_refresh (at_ms 3000) (at_ms 2500) "job-1" demo_payload
    (exec_op demo_hold demo_s0) tt (exec_op demo_hold demo_s0) tt 2500%Z eq_refl eq_refl
    (ltac:(vm_compute; split; congruence)) eq_refl demo_held_wf) as (s2 & res & Hh & Hst & Hcs).
  destruct (Hcs "con-a" c Hc) as (c' & Hc' & Hif). exists s2, res, c'.
  split; [exact Hh|]. split; [exact Hc'|]. rewrite <-Hs.
  rewrite (decide_True _ _ Hof) in Hif. exact (proj1 (proj2 Hif)).
Defined.
