(* ===== verification/Connections.v ===== *)
(** * Connections: creating, changing and deleting VPN connections

    [src/internal/server/connections/service.go].  The service works on the
    control plane's database, on the durable queue, where it leaves a refresh
    job for the agent of the node, and on the management API of nodes that are
    run by somebody else.  Random keys, passwords, identifiers and the readings
    of the clock are inputs of a call; bcrypt, Curve25519, IDNA and the region
    table are parameters, and so is the transport of the HTTP client. *)

From S2P Require Import Prelude GoLib GoJson GoNet Sql Queue ServerModel ServerStore StoreInvariant Samples.
From S2P Require Import NativeAwg AmneziaClient IPPool Links Workqueue.
From Stdlib Require Import Ascii.
Import GoTime GoStrings Net.

Record ConnectionInput := mkConnectionInput {
  in_AccountID : string;
  in_Node : Node;
  in_Protocol : string;
  in_Name : string;
}.

Record ConnectionResult := mkConnectionResult {
  res_Connection : Connection;
  res_Configs : list IssuedConfig;
}.

(** What a call draws from outside: [fr_now i] is the [i]-th reading of the
    clock. *)
Record Fresh := mkFresh {
  fr_now : nat → time;
  fr_connectionID : string;
  fr_ids : nat → string;
  fr_messageID : string;
  fr_password : result string;
  fr_key : result string;
  fr_psk : result string;
}.

(** ** Naming *)
Definition EnrollmentProtocolForNode (node : Node) : string :=
  if bool_decide (nd_Type node = NodeTypeAmneziaAPI) || bool_decide (nd_Type node = NodeTypeNativeAmneziaWG)
  then ProtocolAmneziaWG
  else if bool_decide (nd_Type node = NodeTypeNativeHy2) then ProtocolHysteria2
  else EmptyString.

(** The text before the first of the four location separators. *)
Fixpoint before_separator (s : string) : string :=
  match s with
  | EmptyString => EmptyString
  | String c r => if bool_decide (c ∈ ["-"; "_"; "/"; " "]%char) then EmptyString else String c (before_separator r)
  end.

(** The regional indicator of a letter: [0x1F1E6 + rune(c - 'A')], the
    difference taken on bytes. *)
Definition regional_indicator (c : ascii) : string :=
  JsonRead.utf8 (127462 + (N_of_ascii c + 256 - 65) mod 256).

Section Service.
(** [language.ParseRegion] succeeds on the code and names a country. *)
Context (is_country : string → bool).
(** [idna.Lookup.ToASCII] *)
Context (ToASCII : string → option string).
(** [bcrypt.GenerateFromPassword] with the default cost. *)
Context (GenerateFromPassword : string → result string).
Context (X25519 : string → result string).
Context {R : Type} (Do : HttpRequest → goM R HttpResponse).
(** [transportstore.Store.Enqueue] *)
Context {Q : Type} (Enqueue : time → Message → goM Q unit).

Definition ConfigName (node : Node) (connectionName : string) : string :=
  let regionCode := before_separator (ToUpper (TrimSpace (nd_Region node))) in
  let flag :=
    match regionCode with
    | String a (String b EmptyString) =>
        if is_country regionCode then [regional_indicator a +:+ regional_indicator b] else []
    | _ => []
    end in
  let part s := if bool_decide (TrimSpace s = EmptyString) then [] else [TrimSpace s] in
  Join " " (part connectionName ++ flag ++ part (nd_Name node)).

(** ** The parts the service works on *)
Record World := mkWorld { w_store : Server; w_queue : Q; w_remote : R }.

Definition on_store {A} (f : goM Server A) : goM World A := fun w =>
  let '(s, r) := f (w_store w) in (mkWorld s (w_queue w) (w_remote w), r).
Definition on_queue {A} (f : goM Q A) : goM World A := fun w =>
  let '(q, r) := f (w_queue w) in (mkWorld (w_store w) q (w_remote w), r).
Definition on_remote {A} (f : goM R A) : goM World A := fun w =>
  let '(m, r) := f (w_remote w) in (mkWorld (w_store w) (w_queue w) m, r).

(** [_ = f()]: the error is dropped. *)
Definition ignore {W A} (f : goM W A) : goM W unit := fun w => ((f w).1, Ok tt).

Definition enqueueAuthRefresh (fr : Fresh) (connection : Connection) : goM World unit :=
  on_queue (Enqueue (fr_now fr 1) (AuthRefresh.NewAuthRefreshMessage (fr_now fr 1) (fr_messageID fr)
    (mkAuthRefreshPayload (cn_NodeID connection) (cn_AccountID connection) (cn_DesiredVersionMS connection)))).

Definition result_of (bundle : ConnectionBundle) : ConnectionResult :=
  mkConnectionResult (cb_Connection bundle) (cb_Configs bundle).

(** ** Creating *)
Definition createNativeHysteria (fr : Fresh) (connection : Connection) (input : ConnectionInput)
    : goM World ConnectionResult :=
  config ← on_store (query (GetHysteria2NodeConfig (cn_NodeID connection)));
  password ← liftM (fr_password fr);
  passwordHash ← liftM (match GenerateFromPassword password with
                        | Ok h => Ok h
                        | Err e => Err ("hash Hysteria password: " +:+ e)
                        end);
  let title := ConfigName (in_Node input) (cn_Name connection) in
  let issued := NativeHy2.NewIssuedConfig config (cn_ID connection) password title in
  bundle ← on_store (CreateConnectionBundle (fr_now fr 0) (fr_ids fr) (mkConnectionBundle 0 connection
    (Some (mkHysteria2Material EmptyString password passwordHash zero_time zero_time)) None None [issued]));
  _ ← enqueueAuthRefresh fr (cb_Connection bundle);
  mret (result_of bundle).

(** The allocator tests at most one address more than there are materials. *)
Definition allocate (config : AmneziaWGNodeConfig) (materials : list AmneziaWGConnectionMaterial) : result string :=
  default (Err EmptyString) (nextAvailableIPv4 (S (S (length materials))) config materials).

Definition createNativeAmneziaWG (fr : Fresh) (connection : Connection) (input : ConnectionInput)
    : goM World ConnectionResult :=
  config ← on_store (query (GetAmneziaWGNodeConfig (cn_NodeID connection)));
  '(privateKey, publicKey) ← liftM (NativeKeys.GenerateKeyPair X25519 (fr_key fr));
  psk ← liftM (NativeKeys.GeneratePresharedKey (fr_psk fr));
  assigned ← on_store (query (fun s => allocate config (ListAmneziaWGConnectionMaterials (cn_NodeID connection) s)));
  let material := mkAmneziaWGMaterial (cn_ID connection) (cn_NodeID connection) publicKey privateKey psk assigned
                    zero_time zero_time in
  conf ← liftM (NativeAwg.RenderClientConf ToASCII config material);
  let title := ConfigName (in_Node input) (cn_Name connection) in
  let issued := NativeAwg.NewIssuedAmneziaConf (cn_ID connection) title conf in
  bundle ← on_store (CreateConnectionBundle (fr_now fr 0) (fr_ids fr)
    (mkConnectionBundle (awg_ConfigVersionMS config) connection None (Some material) None [issued]));
  _ ← enqueueAuthRefresh fr (cb_Connection bundle);
  mret (result_of bundle).

Definition provider (config : AmneziaAPINodeConfig) : Provider R :=
  Amnezia.New Do (apc_BaseURL config) (apc_APIKey config).

Definition applied_at (now : time) (c : Connection) : Connection :=
  mkConnection (cn_ID c) (cn_AccountID c) (cn_NodeID c) (cn_Name c) (cn_Protocol c) (cn_DesiredStatus c)
    ConnectionStatusActive (TimeUnixMilli now) (TimeUnixMilli now) (cn_LastErrorID c) (cn_CreatedAt c) (cn_UpdatedAt c).

Definition remote_config (title : string) (item : RemoteConfig) : IssuedConfig :=
  mkIssuedConfig EmptyString EmptyString (rc_Kind item) (rc_Slug item) title (rc_Client item) (rc_ContentType item)
    (rc_Value item) EmptyString zero_time zero_time.

(** The remote connection is deleted again when the bundle cannot be stored. *)
Definition store_or_undo (fr : Fresh) (p : Provider R) (ref : Ref) (bundle : ConnectionBundle)
    : goM World ConnectionResult := fun w =>
  match on_store (CreateConnectionBundle (fr_now fr 0) (fr_ids fr) bundle) w with
  | (w1, Ok bundle) => (w1, Ok (result_of bundle))
  | (w1, Err e) => ((ignore (on_remote (p_DeleteConnection p ref)) w1).1, Err e)
  end.

Definition createAmneziaAPI (fr : Fresh) (connection : Connection) (input : ConnectionInput)
    : goM World ConnectionResult :=
  config ← on_store (query (GetAmneziaAPINodeConfig (cn_NodeID connection)));
  let p := provider config in
  created ← on_remote (p_CreateConnection p (mkCreateInput (cn_AccountID connection) (cn_ID connection)
                         (cn_NodeID connection) (cn_Name connection)));
  let connection := applied_at (fr_now fr 2) connection in
  let configs := remote_config (ConfigName (in_Node input) (cn_Name connection)) <$> rcn_Configs created in
  store_or_undo fr p (rcn_Ref created) (mkConnectionBundle 0 connection None None
    (Some (mkAmneziaAPIRef EmptyString (ref_ID (rcn_Ref created)) (ref_Name (rcn_Ref created)) zero_time zero_time))
    configs).

Definition new_connection (fr : Fresh) (account : Account) (input : ConnectionInput) (name : string) : Connection :=
  mkConnection (fr_connectionID fr) (acc_ID account) (nd_ID (in_Node input)) name (in_Protocol input)
    ConnectionStatusActive ConnectionStatusAbsent 0 0 EmptyString zero_time zero_time.

Definition ErrUnsupportedNodeType : error := "unsupported node type".

Definition CreateConnection (fr : Fresh) (input : ConnectionInput) : goM World ConnectionResult :=
  if negb (bool_decide (in_Protocol input = EnrollmentProtocolForNode (in_Node input))) then
    failM "unsupported protocol/node type combination"
  else
  account ← on_store (query (GetAccount (in_AccountID input)));
  if negb (bool_decide (acc_Status account = AccountStatusActive)) then failM "account is not active" else
  let name := TrimSpace (in_Name input) in
  if bool_decide (name = EmptyString) then failM "connection name is required" else
  let connection := new_connection fr account input name in
  let type := nd_Type (in_Node input) in
  if bool_decide (type = NodeTypeNativeHy2) then createNativeHysteria fr connection input
  else if bool_decide (type = NodeTypeNativeAmneziaWG) then createNativeAmneziaWG fr connection input
  else if bool_decide (type = NodeTypeAmneziaAPI) then createAmneziaAPI fr connection input
  else failM ErrUnsupportedNodeType.

Definition CreateEnrollmentConnection (fr : Fresh) (node : Node) (account : Account) (name : string)
    : goM World ConnectionResult :=
  let protocol := EnrollmentProtocolForNode node in
  if bool_decide (protocol = EmptyString) then failM ("unsupported node type " +:+ nd_Type node)
  else CreateConnection fr (mkConnectionInput (acc_ID account) node protocol name).

(** ** Changing and deleting *)
Definition applyExternalStatus (connection : Connection) (node : Node) (status : string) (deleting : bool)
    : goM World unit :=
  config ← on_store (query (GetAmneziaAPINodeConfig (nd_ID node)));
  ref ← on_store (query (GetAmneziaAPIConnectionRef (cn_ID connection)));
  let p := provider config in
  let remoteRef := mkRef (ar_RemoteID ref) (ar_RemoteName ref) in
  if deleting then on_remote (p_DeleteConnection p remoteRef)
  else on_remote (p_SetConnectionStatus p remoteRef status).

Definition zero_connection : Connection :=
  mkConnection EmptyString EmptyString EmptyString EmptyString EmptyString EmptyString EmptyString 0 0 EmptyString
    zero_time zero_time.

Definition external (node : Node) : bool := bool_decide (nd_Type node = NodeTypeAmneziaAPI).

(** The common end of the two: the database first, then the agent.  On an
    external node the first of the finalised connections is returned, and the
    zero value without an error when there is none. *)
Definition settle_status (fr : Fresh) (connection : Connection) (node : Node) (desired : string)
    : goM World Connection :=
  updated ← on_store (UpdateConnectionDesiredStatus (fr_now fr 0) (cn_ID connection) desired);
  if external node then
    finalized ← on_store (FinalizeConnectionsForAuthSnapshot (fr_now fr 2) (nd_ID node) (cn_AccountID connection)
                            (cn_DesiredVersionMS updated));
    mret (default zero_connection (head finalized))
  else
    _ ← enqueueAuthRefresh fr updated;
    mret updated.

Definition SetConnectionStatus (fr : Fresh) (connection : Connection) (node : Node) (desired : string)
    : goM World Connection :=
  if negb (bool_decide (desired = ConnectionStatusActive)) && negb (bool_decide (desired = ConnectionStatusHeld))
  then failM "unsupported connection status"
  else
  _ ← (if external node then applyExternalStatus connection node desired false else mret tt);
  settle_status fr connection node desired.

Definition DeleteConnection (fr : Fresh) (connection : Connection) (node : Node) : goM World Connection :=
  _ ← (if external node then applyExternalStatus connection node ConnectionStatusDeleted true else mret tt);
  settle_status fr connection node ConnectionStatusDeleted.

(** ** Reading *)
Definition node_available (node : Node) : bool :=
  bool_decide (nd_Status node = StatusActive) && negb (bool_decide (EnrollmentProtocolForNode node = EmptyString)).

(** The loop over the identifiers, with the set of those already seen. *)
Fixpoint select_nodes (byID : gmap string Node) (seen : gset string) (ids : list string) : result (list Node) :=
  match ids with
  | [] => Ok []
  | raw :: ids =>
      let id := TrimSpace raw in
      if bool_decide (id = EmptyString) || bool_decide (id ∈ seen) then select_nodes byID seen ids
      else match byID !! id with
           | Some node =>
               if node_available node
               then nodes ← select_nodes byID ({[id]} ∪ seen) ids; Ok (node :: nodes)
               else Err ("node " +:+ id +:+ " is unavailable")
           | None => Err ("node " +:+ id +:+ " is unavailable")
           end
  end.

Definition SelectEnrollmentNodes (nodeIDs : list string) (s : Server) : result (list Node) :=
  let byID := list_to_map ((fun n => (nd_ID n, n)) <$> reverse (ListNodes s)) in
  if bool_decide (nodeIDs = []) then Err "node_ids are required"
  else
    nodes ← select_nodes byID ∅ nodeIDs;
    if bool_decide (nodes = []) then Err "no nodes selected" else Ok nodes.

Definition connection_info (c : Connection) : ConnectionInfo :=
  mkConnectionInfo (mkRef (cn_ID c) (cn_Name c)) (cn_Name c) (cn_DesiredStatus c).

Definition ListRemoteConnections (node : Node) : goM World ConnectionList :=
  if negb (external node) then
    items ← on_store (query (fun s => Ok (connection_info <$>
      filter (fun c => cn_NodeID c = nd_ID node) (ListConnections s))));
    mret (mkConnectionList (Z.of_nat (length items)) items)
  else
    config ← on_store (query (GetAmneziaAPINodeConfig (nd_ID node)));
    on_remote (p_ListConnections (provider config)).
End Service.
Arguments mkWorld {R Q} _ _ _.
Arguments w_store {R Q} _.
Arguments w_queue {R Q} _.
Arguments w_remote {R Q} _.

(** ** What a call does to the database

    A computation [tracks] when the database it leaves behind is one that a
    sequence of operations of [StoreInvariant] leads to. *)
Definition reaches (s s' : Server) : Prop := ∃ ops, s' = exec_ops ops s.

Lemma reaches_refl s : reaches s s.
Proof. by exists []. Qed.
Lemma reaches_op op s : reaches s (exec_op op s).
Proof. by exists [op]. Qed.
Lemma reaches_trans s1 s2 s3 : reaches s1 s2 → reaches s2 s3 → reaches s1 s3.
Proof. intros [o1 ->] [o2 ->]. exists (o1 ++ o2). unfold exec_ops. by rewrite foldl_app. Qed.
Lemma reaches_wf s s' : reaches s s' → server_wf s → server_wf s'.
Proof. intros [ops ->]. apply exec_ops_wf. Qed.

Create HintDb tracks.

Section Tracks.
Context {R Q : Type}.
Local Abbreviation W := (World (R := R) (Q := Q)).

Definition tracks {A} (m : goM W A) : Prop := ∀ w, reaches (w_store w) (w_store (m w).1).

Lemma tracks_ret {A} (a : A) : tracks (mret a).
Proof. intros w. apply reaches_refl. Qed.
Lemma tracks_fail {A} e : tracks (failM e : goM W A).
Proof. intros w. apply reaches_refl. Qed.
Lemma tracks_lift {A} (r : result A) : tracks (liftM r).
Proof. intros w. apply reaches_refl. Qed.
Lemma tracks_bind {A B} (f : A → goM W B) m : tracks m → (∀ a, tracks (f a)) → tracks (m ≫= f).
Proof.
  intros Hm Hf w. unfold mbind, goM_bind. specialize (Hm w). destruct (m w) as [w' [a|e]]; [|done].
  eapply reaches_trans; [exact Hm|apply Hf].
Qed.
Lemma tracks_queue {A} (m : goM Q A) : tracks (on_queue m).
Proof. intros w. unfold on_queue. destruct (m _). apply reaches_refl. Qed.
Lemma tracks_remote {A} (m : goM R A) : tracks (on_remote m).
Proof. intros w. unfold on_remote. destruct (m _). apply reaches_refl. Qed.
Lemma tracks_query {A} (f : Server → result A) : tracks (on_store (query f)).
Proof. intros w. apply reaches_refl. Qed.
Lemma tracks_op {A} (m : goM Server A) op : (∀ s, (m s).1 = exec_op op s) → tracks (on_store m).
Proof.
  intros Hm w. unfold on_store. specialize (Hm (w_store w)). destruct (m _) as [s r]. cbn in *. subst.
  apply reaches_op.
Qed.
Lemma tracks_bundle now ids b : tracks (on_store (CreateConnectionBundle now ids b)).
Proof. by apply (tracks_op _ (OpCreateConnectionBundle now ids b)). Qed.
Lemma tracks_desired now id st : tracks (on_store (UpdateConnectionDesiredStatus now id st)).
Proof. by apply (tracks_op _ (OpUpdateConnectionDesiredStatus now id st)). Qed.
Lemma tracks_finalize now n a v : tracks (on_store (FinalizeConnectionsForAuthSnapshot now n a v)).
Proof. by apply (tracks_op _ (OpFinalizeConnections now n a v)). Qed.
End Tracks.

#[export] Hint Resolve tracks_ret tracks_fail tracks_lift tracks_bind tracks_queue tracks_remote tracks_query
  tracks_bundle tracks_desired tracks_finalize : tracks.

(** Splits a call into its steps. *)
Ltac track :=
  repeat first
    [ progress intros
    | apply tracks_bind
    | match goal with
      | |- tracks (if ?b then _ else _) => destruct b
      | |- tracks (let '(_, _) := ?p in _) => destruct p
      end
    | solve [auto with tracks] ].

Section Calls.
Context (is_country : string → bool) (ToASCII : string → option string).
Context (GenerateFromPassword X25519 : string → result string).
Context {R : Type} (Do : HttpRequest → goM R HttpResponse).
Context {Q : Type} (Enqueue : time → Message → goM Q unit).

Lemma tracks_store_or_undo fr (p : Provider R) ref b : tracks (Q := Q) (store_or_undo fr p ref b).
Proof.
  intros w. unfold store_or_undo. pose proof (tracks_bundle (R := R) (Q := Q) (fr_now fr 0) (fr_ids fr) b w) as Hb.
  destruct (on_store _ w) as [w1 [b'|e]]; [exact Hb|]. cbn in *.
  eapply reaches_trans; [exact Hb|]. apply tracks_remote.
Qed.

Lemma tracks_create fr input :
  tracks (CreateConnection is_country ToASCII GenerateFromPassword X25519 Do Enqueue fr input).
Proof.
  unfold CreateConnection, createNativeHysteria, createNativeAmneziaWG, createAmneziaAPI, enqueueAuthRefresh.
  cbv zeta. track. apply tracks_store_or_undo.
Qed.

Lemma tracks_enroll fr node account name :
  tracks (CreateEnrollmentConnection is_country ToASCII GenerateFromPassword X25519 Do Enqueue fr node account name).
Proof. unfold CreateEnrollmentConnection. cbv zeta. track. apply tracks_create. Qed.

Lemma tracks_status fr c node desired : tracks (SetConnectionStatus Do Enqueue fr c node desired).
Proof.
  unfold SetConnectionStatus, settle_status, applyExternalStatus, enqueueAuthRefresh. cbv zeta. track.
Qed.

Lemma tracks_delete fr c node : tracks (DeleteConnection Do Enqueue fr c node).
Proof.
  unfold DeleteConnection, settle_status, applyExternalStatus, enqueueAuthRefresh. cbv zeta. track.
Qed.
End Calls.

(** ** Any sequence of calls keeps the database well formed *)
Inductive service_call :=
| CallCreate (fr : Fresh) (input : ConnectionInput)
| CallEnroll (fr : Fresh) (node : Node) (account : Account) (name : string)
| CallSetStatus (fr : Fresh) (c : Connection) (node : Node) (desired : string)
| CallDelete (fr : Fresh) (c : Connection) (node : Node).

Section Sequences.
Context (is_country : string → bool) (ToASCII : string → option string).
Context (GenerateFromPassword X25519 : string → result string).
Context {R : Type} (Do : HttpRequest → goM R HttpResponse).
Context {Q : Type} (Enqueue : time → Message → goM Q unit).

(** The world after a call, whether it succeeded or not. *)
Definition exec_call (c : service_call) (w : World) : World :=
  match c with
  | CallCreate fr input =>
      (CreateConnection is_country ToASCII GenerateFromPassword X25519 Do Enqueue fr input w).1
  | CallEnroll fr node account name =>
      (CreateEnrollmentConnection is_country ToASCII GenerateFromPassword X25519 Do Enqueue fr node account name w).1
  | CallSetStatus fr c node desired => (SetConnectionStatus Do Enqueue fr c node desired w).1
  | CallDelete fr c node => (DeleteConnection Do Enqueue fr c node w).1
  end.

Lemma exec_call_reaches c w : reaches (w_store w) (w_store (exec_call c w)).
Proof. destruct c; [apply tracks_create|apply tracks_enroll|apply tracks_status|apply tracks_delete]. Qed.
End Sequences.

(** Whatever requests reach the connection service, in whatever order, with
    whatever clock readings, keys and replies of remote APIs and of the queue,
    and wherever they fail, the database stays well formed. *)
Theorem service_calls_wf is_country ToASCII bcrypt X25519 {R Q} (Do : HttpRequest → goM R HttpResponse)
    (Enqueue : time → Message → goM Q unit) calls q r :
  server_wf (w_store (foldl (fun w c => exec_call is_country ToASCII bcrypt X25519 Do Enqueue c w)
    (mkWorld empty_server q r) calls)).
Proof.
  assert (Hw : server_wf (w_store (mkWorld empty_server q r : World (R := R) (Q := Q)))) by apply server_wf_empty.
  revert Hw. generalize (mkWorld empty_server q r : World (R := R) (Q := Q)) as w.
  induction calls as [|c calls IH]; intros w Hw; [done|]. cbn. apply IH.
  eapply reaches_wf; [apply exec_call_reaches|done].
Qed.

(** ** From a changed status to the agent and back *)

(** The SQL store as the transport of the service. *)
Definition sql_enqueue (now : time) (msg : Message) : goM SQLStore unit := fun q => (Enqueue now msg q, Ok tt).

Lemma enqueued_row now msg q :
  m_Status msg = StatusPending →
  ∃ r, outbox (Enqueue now msg q) !! (m_ActorID msg, m_ID msg) = Some r ∧ status r = StatusPending ∧
       m_Payload (scanMessage DirectionOutbound r) = m_Payload msg ∧ type_ r = m_Type msg.
Proof.
  intros Hp. cbn [Enqueue outbox]. unfold writeMessage. cbv zeta. rewrite lookup_sql_upsert, decide_True by done.
  eexists. split; [done|].
  destruct (outbox q !! _); cbn -[encodeMessageJSON mustDecodeMessageJSON]; rewrite mustDecode_encode, Hp; done.
Qed.

Lemma UpdateConnectionDesiredStatus_row now id' st s s' c :
  UpdateConnectionDesiredStatus now id' st s = (s', Ok c) →
  connections s' !! id' = Some c ∧ cn_DesiredStatus c = st.
Proof.
  unfold UpdateConnectionDesiredStatus. case_match; [done|]. intros E%transaction_Ok.
  destruct (connections s !! id') as [c0|]; [|done]. case_match; [done|]. injection E as <- <-.
  split; [apply lookup_insert_eq|done].
Qed.

(** A call has left the change in the database and a pending refresh job in the
    queue, and that job, whenever it is run, settles the connection. *)
Definition change_underway {R} (fr : Fresh) (c : Connection) (w : World (R := R) (Q := SQLStore)) : Prop :=
  connections (w_store w) !! cn_ID c = Some c ∧
  ∃ row, outbox (w_queue w) !! ("server", fr_messageID fr) = Some row ∧ status row = StatusPending ∧
    type_ row = AuthRefresh.TypeNodeAuthRefresh ∧
    ∀ A (refresh : string → string → Z → goM (Server * A) Z) now s a s1 a1 applied,
      refresh (cn_NodeID c) (cn_AccountID c) (cn_DesiredVersionMS c) (s, a) = ((s1, a1), Ok applied) →
      (cn_DesiredVersionMS c <= applied)%Z → server_wf s1 → connections s1 !! cn_ID c = Some c →
      ∃ s2 res c', AuthRefresh.Handle refresh now (scanMessage DirectionOutbound row) (s, a) = ((s2, a1), (res, None)) ∧
        connections s2 !! cn_ID c = Some c' ∧ Pending c' = false ∧ cn_AppliedStatus c' = cn_DesiredStatus c.

Lemma settle_status_underway {R} fr c node desired w w' c' :
  external node = false → server_wf (w_store w') →
  settle_status sql_enqueue fr c node desired w = (w', Ok c') →
  JsonRead.ValidString (cn_NodeID c') = true → JsonRead.ValidString (cn_AccountID c') = true →
  in_int64 (cn_DesiredVersionMS c') →
  cn_DesiredStatus c' = desired ∧ change_underway (R := R) fr c' w'.
Proof.
  intros Hext Hwf. unfold settle_status, mbind, goM_bind, on_store. rewrite Hext.
  destruct (UpdateConnectionDesiredStatus _ _ _ _) as [s [u|e]] eqn:Eu; [|done].
  apply UpdateConnectionDesiredStatus_row in Eu as [Hrow Hdes].
  unfold enqueueAuthRefresh, on_queue, sql_enqueue, mret, goM_ret. cbn [w_store w_queue w_remote].
  intros [= <- <-] Hn Ha Hv. cbn [w_store] in *. split; [done|].
  set (p := mkAuthRefreshPayload (cn_NodeID u) (cn_AccountID u) (cn_DesiredVersionMS u)).
  assert (Hid : cn_ID u = cn_ID c) by (by apply (wf_id _ Hwf)).
  split; [by rewrite Hid|]. cbn [w_queue].
  destruct (enqueued_row (fr_now fr 1) (AuthRefresh.NewAuthRefreshMessage (fr_now fr 1) (fr_messageID fr) p)
    (w_queue w) eq_refl) as (row & Hr & Hst & Hpay & Hty).
  exists row. split_and!; [done..|]. intros A refresh now s0 a s1 a1 applied Href Hle Hwf1 Hc.
  destruct (handle_finalizes refresh now (scanMessage DirectionOutbound row) p s0 a s1 a1 applied Hpay)
    as (s2 & res & Hh & _ & Hfin); [done..|].
  destruct (Hfin _ _ Hc) as (c2 & Hc2 & Hif). exists s2, res, c2.
  rewrite decide_True in Hif by done. destruct Hif as (? & ? & _). by split_and!.
Qed.

(** C25. Putting a connection of a native node on hold, releasing it or deleting
    it leaves the new desired status in the database together with a refresh
    job, and whenever that job is run later, against any well-formed database
    in which the connection has not changed again, and the agent confirms a
    version that is not older, the connection ends up applied and no longer
    pending. *)
Theorem status_change_settles {R} (Do : HttpRequest → goM R HttpResponse) fr c node deleted desired w w' c' :
  external node = false → server_wf (w_store w) →
  (if deleted : bool then DeleteConnection Do sql_enqueue fr c node
   else SetConnectionStatus Do sql_enqueue fr c node desired) w = (w', Ok c') →
  JsonRead.ValidString (cn_NodeID c') = true → JsonRead.ValidString (cn_AccountID c') = true →
  in_int64 (cn_DesiredVersionMS c') →
  cn_DesiredStatus c' = (if deleted then ConnectionStatusDeleted else desired) ∧ change_underway fr c' w'.
Proof.
  intros Hext Hwf Hcall. assert (Hwf' : server_wf (w_store w')).
  { eapply reaches_wf; [|exact Hwf]. destruct deleted.
    - pose proof (tracks_delete Do sql_enqueue fr c node w) as Ht. by rewrite Hcall in Ht.
    - pose proof (tracks_status Do sql_enqueue fr c node desired w) as Ht. by rewrite Hcall in Ht. }
  destruct deleted.
  - unfold DeleteConnection in Hcall. rewrite Hext in Hcall.
    intros. by apply (settle_status_underway fr c node _ w).
  - unfold SetConnectionStatus in Hcall. destruct (_ && _); [done|]. rewrite Hext in Hcall.
    intros. by apply (settle_status_underway fr c node _ w).
Qed.

Definition demo_fresh (ms : Z) : Fresh :=
  mkFresh (fun i => at_ms (ms + Z.of_nat i)) "con-new" (fun i => "id" +:+ Strconv.FormatInt (Z.of_nat i)) "job-1"
    (Ok "secret") (Ok demo_scalar) (Ok demo_scalar).
Definition no_http (req : HttpRequest) : goM unit HttpResponse := failM "unreachable".
Definition demo_world : World := mkWorld demo_s0 (mkStore ∅ ∅) tt.
Definition demo_native : Node := mkNode "nod" "fra-1" NodeTypeNativeHy2 "DE" StatusActive zero_time zero_time.
Definition demo_con : Connection := default zero_connection (connections demo_s0 !! "con-a").
Definition demo_hold_call : World * result Connection :=
  SetConnectionStatus no_http sql_enqueue (demo_fresh 2500) demo_con demo_native ConnectionStatusHeld demo_world.

Lemma demo_hold_ok : ∃ w' c', demo_hold_call = (w', Ok c') ∧ JsonRead.ValidString (cn_NodeID c') = true ∧
  JsonRead.ValidString (cn_AccountID c') = true ∧ in_int64 (cn_DesiredVersionMS c').
Proof.
  destruct demo_hold_call as [w' [c'|e]] eqn:E; [|by apply (f_equal (is_ok ∘ snd)) in E; vm_compute in E].
  exists w', c'. split; [done|]. apply (f_equal snd) in E. vm_compute in E. apply Ok_inj in E as <-.
  vm_compute. split_and!; done.
Qed.

Lemma status_change_settles_witness :
  ∃ w' c', demo_hold_call = (w', Ok c') ∧ cn_DesiredStatus c' = ConnectionStatusHeld ∧
    change_underway (demo_fresh 2500) c' w'.
Proof.
  destruct demo_hold_ok as (w' & c' & Hcall & Hn & Ha & Hv). exists w', c'. split; [exact Hcall|].
  exact (status_change_settles no_http (demo_fresh 2500) demo_con demo_native false ConnectionStatusHeld
    demo_world w' c' eq_refl demo_s0_wf Hcall Hn Ha Hv).
Defined.

(** ** A new AmneziaWG connection *)

Lemma allocate_free config materials a : allocate config materials = Ok a → a ∉ pool_used config materials.
Proof.
  unfold allocate, nextAvailableIPv4. destruct (bool_decide _ || _ || _); [done|].
  destruct (walk _ _ _ _) as [[b|e]|] eqn:E; try done. intros [= <-]. by eapply walk_free.
Qed.

Lemma allocate_in_pool config materials a :
  let first := To4 (ParseIP (awg_FirstClientIPv4 config)) in
  let last := To4 (ParseIP (awg_LastClientIPv4 config)) in
  (ip_num last < 2 ^ 32 - 1)%Z → allocate config materials = Ok a →
  ∃ n, (ip_num first <= n <= ip_num last)%Z ∧ a = address n.
Proof.
  intros first last Htop. unfold allocate, nextAvailableIPv4. fold first last.
  destruct (bool_decide _ || _ || _) eqn:E; [done|]. rewrite !orb_false_iff, !bool_decide_eq_false in E.
  destruct E as [[Hf Hl] _]. destruct (walk _ _ _ _) as [[b|e]|] eqn:Ew; try done. intros [= <-].
  eapply walk_in_pool; [| |done|reflexivity|exact Ew]; by apply To4_ParseIP_ipv4.
Qed.

Lemma CreateConnectionBundle_configs now newID bundle s s' b' :
  CreateConnectionBundle now newID bundle s = (s', Ok b') →
  ic_Config <$> cb_Configs b' = ic_Config <$> cb_Configs bundle.
Proof.
  unfold CreateConnectionBundle. cbv zeta. intros E%transaction_Ok.
  apply bind_Ok in E as (a & _ & E). apply bind_Ok in E as (n & _ & E). apply bind_Ok in E as (u & _ & E).
  destruct (blank _); [done|]. do 6 (apply bind_Ok in E as (? & _ & E)). injection E as _ <-.
  cbn [cb_Configs]. rewrite fmap_imap. apply list_eq. intros i.
  rewrite list_lookup_imap, list_lookup_fmap. by destruct (cb_Configs bundle !! i).
Qed.

Lemma on_store_Ok {R Q A} (m : goM Server A) (w w' : World (R := R) (Q := Q)) a :
  on_store m w = (w', Ok a) →
  m (w_store w) = (w_store w', Ok a) ∧ w_queue w' = w_queue w ∧ w_remote w' = w_remote w.
Proof. unfold on_store. destruct (m _) as [s r]. intros [= <- ->]. done. Qed.

Lemma enqueueAuthRefresh_Ok {R} fr c (w w' : World (R := R)) u :
  enqueueAuthRefresh sql_enqueue fr c w = (w', Ok u) → w_store w' = w_store w ∧
  ∃ row, outbox (w_queue w') !! ("server", fr_messageID fr) = Some row ∧ status row = StatusPending ∧
    type_ row = AuthRefresh.TypeNodeAuthRefresh ∧
    m_Payload (scanMessage DirectionOutbound row) =
      AuthRefresh.marshal (mkAuthRefreshPayload (cn_NodeID c) (cn_AccountID c) (cn_DesiredVersionMS c)).
Proof.
  unfold enqueueAuthRefresh, on_queue, sql_enqueue. intros [= <- _]. split; [done|]. cbn [w_queue].
  destruct (enqueued_row (fr_now fr 1) (AuthRefresh.NewAuthRefreshMessage (fr_now fr 1) (fr_messageID fr)
    (mkAuthRefreshPayload (cn_NodeID c) (cn_AccountID c) (cn_DesiredVersionMS c))) (w_queue w) eq_refl)
    as (row & Hr & Hst & Hpay & Hty). eauto 6.
Qed.

(** What there is to know of a connection [res] that was created on the native
    AmneziaWG node [nodeID], configured by [config], with key material [m]. *)
Record amneziawg_created (ToASCII : string → option string) (X25519 : string → result string) (fr : Fresh)
    (nodeID : string) (s s' : Server) (q' : SQLStore) (res : ConnectionResult) (config : AmneziaWGNodeConfig)
    (m : AmneziaWGConnectionMaterial) : Prop := {
  ac_config : amneziawg_node_configs s !! nodeID = Some config;
  ac_node : cn_NodeID (res_Connection res) = nodeID;
  ac_new : connections s !! cn_ID (res_Connection res) = None;
  ac_stored : connections s' = <[cn_ID (res_Connection res) := res_Connection res]> (connections s);
  ac_pending : cn_DesiredStatus (res_Connection res) = ConnectionStatusActive ∧ Pending (res_Connection res) = true;
  ac_material : amneziawg_materials s' !! cn_ID (res_Connection res) = Some m;
  ac_keys : (∀ k, fr_key fr = Ok k → String.length k = 32) →
    NativeKeys.PublicKeyFromPrivate X25519 (am_ClientPrivateKey m) = Ok (am_ClientPublicKey m);
  ac_not_server : am_AssignedIPv4 m ≠ awg_ServerIPv4 config;
  ac_unassigned : ∀ id' m', amneziawg_materials s !! id' = Some m' → am_NodeID m' = nodeID →
    am_AssignedIPv4 m' ≠ am_AssignedIPv4 m;
  ac_in_pool : (ip_num (To4 (ParseIP (awg_LastClientIPv4 config))) < 2 ^ 32 - 1)%Z →
    ∃ n, (ip_num (To4 (ParseIP (awg_FirstClientIPv4 config))) <= n <=
          ip_num (To4 (ParseIP (awg_LastClientIPv4 config))))%Z ∧ am_AssignedIPv4 m = address n;
  ac_conf : Ok <$> (ic_Config <$> res_Configs res) = [NativeAwg.RenderClientConf ToASCII config m];
  ac_job : ∃ row, outbox q' !! ("server", fr_messageID fr) = Some row ∧ status row = StatusPending ∧
    type_ row = AuthRefresh.TypeNodeAuthRefresh ∧
    m_Payload (scanMessage DirectionOutbound row) = AuthRefresh.marshal (mkAuthRefreshPayload nodeID
      (cn_AccountID (res_Connection res)) (cn_DesiredVersionMS (res_Connection res)));
}.

Lemma query_Ok {R Q A} (f : Server → result A) (w w' : World (R := R) (Q := Q)) a :
  on_store (query f) w = (w', Ok a) → w' = w ∧ f (w_store w) = Ok a.
Proof. unfold on_store, query. intros [= <- ->]. by destruct w. Qed.

Lemma liftM_Ok {W A} (r : result A) (w w' : W) a : liftM r w = (w', Ok a) → w' = w ∧ r = Ok a.
Proof. by intros [= <- ->]. Qed.

Section CreateAWG.
Context (is_country : string → bool) (ToASCII : string → option string).
Context (X25519 : string → result string).
Context {R : Type}.

Lemma unassigned s nodeID config a :
  a ∉ pool_used config (ListAmneziaWGConnectionMaterials nodeID s) →
  a ≠ awg_ServerIPv4 config ∧
  ∀ id' m', amneziawg_materials s !! id' = Some m' → am_NodeID m' = nodeID → am_AssignedIPv4 m' ≠ a.
Proof.
  unfold pool_used. intros [H1 H2]%not_elem_of_union. split; [set_solver|]. intros id' m' Hm Hn <-. apply H2.
  apply elem_of_list_to_set, list_elem_of_fmap. exists m'. split; [done|].
  unfold ListAmneziaWGConnectionMaterials. rewrite elem_of_order_by. apply elem_of_sql_select.
  rewrite bool_decide_eq_true_2 by done. eauto.
Qed.

Lemma generated_keys random private public :
  (∀ k, random = Ok k → String.length k = 32) →
  NativeKeys.GenerateKeyPair X25519 random = Ok (private, public) →
  NativeKeys.PublicKeyFromPrivate X25519 private = Ok public.
Proof.
  destruct random as [k|e]; [|done]. intros Hk. apply NativeKeys.generated_public. by apply Hk.
Qed.

Lemma createNativeAmneziaWG_spec fr connection input w w' res :
  cn_DesiredStatus connection = ConnectionStatusActive → cn_AppliedStatus connection = ConnectionStatusAbsent →
  createNativeAmneziaWG (R := R) is_country ToASCII X25519 sql_enqueue fr connection input w = (w', Ok res) →
  ∃ config m, amneziawg_created ToASCII X25519 fr (cn_NodeID connection) (w_store w) (w_store w') (w_queue w') res config m.
Proof.
  intros Hd Ha H. unfold createNativeAmneziaWG in H.
  apply bindM_Ok in H as (w1 & config & Hc & H). apply query_Ok in Hc as [-> Hc].
  apply bindM_Ok in H as (w1 & [private public] & Hk & H). apply liftM_Ok in Hk as [-> Hk].
  apply bindM_Ok in H as (w1 & psk & Hpsk & H). apply liftM_Ok in Hpsk as [-> Hpsk].
  apply bindM_Ok in H as (w1 & ip & Hip & H). apply query_Ok in Hip as [-> Hip].
  apply bindM_Ok in H as (w1 & conf & Hconf & H). apply liftM_Ok in Hconf as [-> Hconf].
  apply bindM_Ok in H as (w1 & b & Hb & H). apply on_store_Ok in Hb as (Hb & _ & _).
  apply bindM_Ok in H as (w2 & u & Hq & H). apply enqueueAuthRefresh_Ok in Hq as [Hs Hjob]. injection H as <- <-.
  pose proof (CreateConnectionBundle_configs _ _ _ _ _ _ Hb) as Hcfg.
  apply CreateConnectionBundle_Ok in Hb as (Hv & Hadd & _ & _).
  destruct (unassigned _ _ _ _ (allocate_free _ _ _ Hip)) as [Hsrv Hun].
  eexists config, _. split; rewrite ?Hs; cbn [result_of res_Connection res_Configs].
  - unfold GetAmneziaWGNodeConfig, get_row in Hc. by destruct (amneziawg_node_configs _ !! _); simplify_eq.
  - by rewrite Hv.
  - rewrite Hv. apply (ba_fresh _ _ _ _ _ Hadd).
  - rewrite Hv. apply (ba_connections _ _ _ _ _ Hadd).
  - rewrite Hv. unfold Pending. cbn. rewrite Hd, Ha. done.
  - rewrite (ba_amneziawg _ _ _ _ _ Hadd), Hv. cbn [cb_AmneziaWGMaterial]. apply lookup_insert_eq.
  - intros Hlen. cbn. by eapply generated_keys.
  - exact Hsrv.
  - exact Hun.
  - intros Htop. cbn. by eapply allocate_in_pool.
  - rewrite Hcfg. cbn. by rewrite <-Hconf.
  - rewrite Hv in *. exact Hjob.
Qed.
End CreateAWG.

(** C26. A connection created on a native AmneziaWG node is new, active and
    pending; its public key is derived from its private key; its address lies
    in the node's pool and is neither the server's nor that of any other
    connection of the node; the configuration handed to the client is the
    rendering of exactly this material; and a refresh job for its version waits
    in the queue. *)
Theorem new_amneziawg_connection is_country ToASCII bcrypt X25519 {R} (Do : HttpRequest → goM R HttpResponse)
    fr input w w' res :
  nd_Type (in_Node input) = NodeTypeNativeAmneziaWG →
  CreateConnection is_country ToASCII bcrypt X25519 Do sql_enqueue fr input w = (w', Ok res) →
  ∃ config m, amneziawg_created ToASCII X25519 fr (nd_ID (in_Node input)) (w_store w) (w_store w') (w_queue w') res config m.
Proof.
  intros Ht. unfold CreateConnection. cbv zeta. rewrite Ht. destruct (negb _); [done|].
  intros (w1 & account & Hacc & H)%bindM_Ok. apply query_Ok in Hacc as [-> _].
  destruct (negb _); [done|]. destruct (bool_decide (TrimSpace _ = _)); [done|].
  by eapply createNativeAmneziaWG_spec in H.
Qed.

Definition awg_node : Node := mkNode "" "awg-1" NodeTypeNativeAmneziaWG "NL-Amsterdam" "" zero_time zero_time.
Definition awg_s0 : Server := exec_ops
  [OpCreateAccount (at_ms 1000) "acc" demo_account;
   OpCreateNativeAmneziaWGNode (at_ms 1001) "awg" awg_node (NativeAwg.demo_config EmptyString)] empty_server.
Definition awg_input : ConnectionInput :=
  mkConnectionInput "acc" (mkNode "awg" "awg-1" NodeTypeNativeAmneziaWG "NL-Amsterdam" StatusActive zero_time zero_time)
    ProtocolAmneziaWG " phone ".
Definition awg_world : World := mkWorld awg_s0 (mkStore ∅ ∅) tt.
Definition awg_create : World * result ConnectionResult :=
  CreateConnection (fun code => bool_decide (code = "NL")) Some Ok Ok no_http sql_enqueue (demo_fresh 2500) awg_input
    awg_world.

Lemma awg_create_ok : ∃ w' res, awg_create = (w', Ok res).
Proof.
  assert (Hok : is_ok awg_create.2 = true) by (vm_compute; reflexivity).
  destruct awg_create as [w' [res|e]]; [eauto|discriminate Hok].
Qed.

Lemma new_amneziawg_connection_witness :
  ∃ w' res config m, awg_create = (w', Ok res) ∧
    amneziawg_created Some Ok (demo_fresh 2500) (nd_ID (in_Node awg_input)) (w_store awg_world) (w_store w') (w_queue w')
      res config m.
Proof.
  destruct awg_create_ok as (w' & res & E). exists w', res. unfold awg_create in *.
  destruct (new_amneziawg_connection (fun code => bool_decide (code = "NL")) Some Ok Ok no_http (demo_fresh 2500)
    awg_input awg_world w' res eq_refl E) as (config & m & Hm).
  exists config, m. split; [exact E|exact Hm].
Defined.

Example awg_create_sample :
  match awg_create.2 with Ok r => ic_Name <$> res_Configs r | Err e => [e] end =
    ["phone " +:+ JsonRead.utf8 127475 +:+ JsonRead.utf8 127473 +:+ " awg-1"].
Proof. vm_compute. reflexivity. Qed.

(** ** Nodes run by somebody else *)

Section External.
Context (is_country : string → bool) (ToASCII : string → option string).
Context (bcrypt X25519 : string → result string).
Context {R : Type} (Do : HttpRequest → goM R HttpResponse).
Context {Q : Type} (Enqueue : time → Message → goM Q unit).

(** The clients the remote API knows, by their ids. *)
Context (clients : R → gset string).

(** What is expected of the API: a client it reports as created is new, and
    deleting a client it knows removes that client. *)
Record api_laws (p : Provider R) : Prop := {
  law_create : ∀ input r r' c, p_CreateConnection p input r = (r', Ok c) →
    ref_ID (rcn_Ref c) ∉ clients r ∧ clients r' = {[ref_ID (rcn_Ref c)]} ∪ clients r;
  law_delete : ∀ input r0 r1 c r, p_CreateConnection p input r0 = (r1, Ok c) →
    ref_ID (rcn_Ref c) ∈ clients r →
    clients (p_DeleteConnection p (rcn_Ref c) r).1 = clients r ∖ {[ref_ID (rcn_Ref c)]};
}.

Lemma store_or_undo_clients fr p ref bundle (w w' : World (R := R) (Q := Q)) e :
  store_or_undo fr p ref bundle w = (w', Err e) →
  w_store w' = w_store w ∧ w_remote w' = (p_DeleteConnection p ref (w_remote w)).1.
Proof.
  unfold store_or_undo, on_store. destruct (CreateConnectionBundle _ _ _ _) as [s [b|e']] eqn:E; [done|].
  unfold CreateConnectionBundle in E. apply transaction_Err in E as [-> _].
  unfold ignore, on_remote. cbn [w_remote w_store]. destruct (p_DeleteConnection p ref (w_remote w)) as [r x].
  by intros [= <- _].
Qed.

(** The database is as before, and so are the clients of the API, unless it was
    the API that failed. *)
Definition undone (w w' : World (R := R) (Q := Q)) (e : error) : Prop :=
  w_store w' = w_store w ∧
  (clients (w_remote w') = clients (w_remote w) ∨
   ∃ config i, (p_CreateConnection (provider Do config) i (w_remote w)) = (w_remote w', Err e)).

Lemma createAmneziaAPI_undone fr connection input (w w' : World (R := R) (Q := Q)) e :
  (∀ config, api_laws (provider Do config)) →
  createAmneziaAPI is_country Do fr connection input w = (w', Err e) → undone w w' e.
Proof.
  intros Hlaws. unfold createAmneziaAPI, mbind, goM_bind.
  destruct (on_store (query _) w) as [w1 [config|e1]] eqn:E1.
  2: { unfold on_store, query in E1. injection E1 as <- _. intros [= <- _]. by split; [|left]. }
  apply query_Ok in E1 as [-> _]. unfold on_remote at 1.
  destruct (p_CreateConnection _ _ _) as [r1 [created|e1]] eqn:Ec.
  2: { intros [= <- <-]. split; [done|right]. by eexists _, _. }
  intros [Hs Hr]%store_or_undo_clients. cbn [w_store w_remote] in *. split; [done|left].
  destruct (law_create _ (Hlaws config) _ _ _ _ Ec) as [Hnew Hadd].
  rewrite Hr, (law_delete _ (Hlaws config) _ _ _ _ _ Ec) by (rewrite Hadd; set_solver). rewrite Hadd. set_solver.
Qed.
End External.

(** Creating a connection on a node that is run through a remote API leaves
    nothing behind when it fails: the database is unchanged, and unless it was
    the API itself that refused, the client that had been created there is
    deleted again. *)
Theorem failed_external_creation is_country ToASCII bcrypt X25519 {R Q} (Do : HttpRequest → goM R HttpResponse)
    (Enqueue : time → Message → goM Q unit) (clients : R → gset string) fr input w w' e :
  (∀ config, api_laws clients (provider Do config)) →
  nd_Type (in_Node input) = NodeTypeAmneziaAPI →
  CreateConnection is_country ToASCII bcrypt X25519 Do Enqueue fr input w = (w', Err e) →
  undone Do clients w w' e.
Proof.
  intros Hlaws Ht. unfold CreateConnection. cbv zeta. rewrite Ht.
  assert (Hsame : ∀ e', (w, Err e' : result ConnectionResult) = (w', Err e) → undone Do clients w w' e) by (intros e' [= <- _]; by split; [|left]).
  destruct (negb _); [apply Hsame|]. unfold mbind, goM_bind at 1.
  destruct (on_store (query _) w) as [w1 [account|e1]] eqn:E1.
  2: { unfold on_store, query in E1. injection E1 as <- _. destruct w. apply Hsame. }
  apply query_Ok in E1 as [-> _]. destruct (negb _); [apply Hsame|].
  destruct (bool_decide (TrimSpace _ = _)); [apply Hsame|]. by apply createAmneziaAPI_undone.
Qed.

(** An API that hands out one client id, and a database that already has a
    connection of that name. *)
Definition api_reply (body : string) : HttpResponse := mkHttpResponse 200 "200 OK" body.
Definition one_client_json : string :=
  JsonRead.object [("client", JsonRead.object [("id", Json.quote "r1"); ("config", Json.quote "vpn://x")])].
Definition one_client_api (req : HttpRequest) : goM (gset string) HttpResponse := fun r =>
  if bool_decide (hr_Method req = "POST") then
    if bool_decide ("r1" ∈ r) then (r, Ok (mkHttpResponse 500 "500" EmptyString))
    else ({["r1"]} ∪ r, Ok (api_reply one_client_json))
  else if bool_decide (hr_Method req = "DELETE") then (r ∖ {["r1"]}, Ok (api_reply EmptyString))
  else (r, Ok (api_reply EmptyString)).

Lemma one_client_decoded {R} (r : R) :
  Amnezia.decode_body Amnezia.decode_created one_client_json (Amnezia.mkCreatedClient EmptyString EmptyString) r =
    (r, Ok (Amnezia.mkCreatedClient "r1" "vpn://x")).
Proof. vm_compute. reflexivity. Qed.

Lemma one_client_created config input r r' c :
  p_CreateConnection (provider one_client_api config) input r = (r', Ok c) →
  "r1" ∉ r ∧ r' = {["r1"]} ∪ r ∧ ref_ID (rcn_Ref c) = "r1".
Proof.
  cbn [provider Amnezia.New p_CreateConnection]. unfold Amnezia.CreateConnection, Amnezia.createClient.
  intros (r1 & created & Hcr & [= <- <-])%bindM_Ok. apply bindM_Ok in Hcr as (r2 & raw & Hdo & Hdec).
  unfold Amnezia.do, mbind, goM_bind, one_client_api in Hdo. cbn [hr_Method] in Hdo.
  case_bool_decide; [|done]. case_bool_decide as Hin; [done|]. cbn [hs_StatusCode hs_Body] in Hdo.
  injection Hdo as <- <-. cbn [api_reply hs_Body] in Hdec. rewrite one_client_decoded in Hdec.
  injection Hdec as <- <-. done.
Qed.

Lemma one_client_laws config : api_laws (fun r => r) (provider one_client_api config).
Proof.
  split.
  - intros input r r' c (Hr & -> & ->)%one_client_created. done.
  - intros input r0 r1 c r (_ & _ & Hid)%one_client_created Hin. by rewrite Hid.
Qed.

Definition api_node : Node := mkNode "api" "ext-1" NodeTypeAmneziaAPI "DE" StatusActive zero_time zero_time.
Definition api_bundle (id name : string) : ConnectionBundle :=
  mkConnectionBundle 0 (mkConnection id "acc" "api" name ProtocolAmneziaWG "" ConnectionStatusActive 0 0 "" 0%Z 0%Z)
    None None (Some (mkAmneziaAPIRef "" ("remote-" +:+ id) name zero_time zero_time))
    [mkIssuedConfig "" "" ConfigAmneziaVPN "" name "" "" "vpn://" "" 0%Z 0%Z].
Definition api_s0 : Server := exec_ops
  [OpCreateAccount (at_ms 1000) "acc" demo_account;
   OpCreateAmneziaAPINode (at_ms 1001) "api" (mkNode "" "ext-1" NodeTypeAmneziaAPI "DE" "" 0%Z 0%Z)
     (mkAmneziaAPINodeConfig "" "https://api.example.net/" "key" zero_time zero_time);
   OpCreateConnectionBundle (at_ms 1002) (fun i => "x" +:+ Strconv.FormatInt (Z.of_nat i)) (api_bundle "con-a" "phone");
   OpCreateConnectionBundle (at_ms 1003) (fun i => "y" +:+ Strconv.FormatInt (Z.of_nat i)) (api_bundle "con-b" "laptop")]
  empty_server.
Definition api_world : World := mkWorld api_s0 tt (∅ : gset string).
Definition nop_enqueue (now : time) (msg : Message) : goM unit unit := mret tt.
Definition api_create : World * result ConnectionResult :=
  CreateConnection (fun _ => false) Some Ok Ok one_client_api nop_enqueue (demo_fresh 2500)
    (mkConnectionInput "acc" api_node ProtocolAmneziaWG "phone") api_world.

Lemma api_create_refused : ∃ w' e, api_create = (w', Err e).
Proof.
  assert (Hno : is_ok api_create.2 = false) by (vm_compute; reflexivity).
  destruct api_create as [w' [res|e]]; [discriminate Hno|eauto].
Qed.

Lemma failed_external_creation_witness :
  ∃ w' e, api_create = (w', Err e) ∧ undone one_client_api (fun r => r) api_world w' e.
Proof.
  destruct api_create_refused as (w' & e & E). exists w', e. unfold api_create in *. split; [exact E|].
  exact (failed_external_creation (fun _ => false) Some Ok Ok one_client_api nop_enqueue (fun r => r) (demo_fresh 2500)
    (mkConnectionInput "acc" api_node ProtocolAmneziaWG "phone") api_world w' e one_client_laws eq_refl E).
Defined.

(** ** Choosing nodes *)

(** The ids a request names: trimmed, without empty ones, each once, in the
    order of their first occurrence. *)
Fixpoint keep_first (seen : gset string) (l : list string) : list string :=
  match l with
  | [] => []
  | x :: l => if bool_decide (x ∈ seen) then keep_first seen l else x :: keep_first ({[x]} ∪ seen) l
  end.
Definition named_ids (ids : list string) : list string :=
  keep_first ∅ (filter (fun id => id ≠ EmptyString) (TrimSpace <$> ids)).

Lemma select_nodes_spec byID seen ids l :
  select_nodes byID seen ids = Ok l ↔
  Forall2 (fun id n => byID !! id = Some n ∧ node_available n = true)
    (keep_first seen (filter (fun id => id ≠ EmptyString) (TrimSpace <$> ids))) l.
Proof.
  revert seen l. induction ids as [|raw ids IH]; intros seen l.
  { cbn. split; [by intros [= <-]|]. by inversion 1. }
  rewrite fmap_cons, list.filter_cons. cbn [select_nodes].
  destruct (decide (TrimSpace raw = EmptyString)) as [He|He].
  { rewrite decide_False, bool_decide_eq_true_2 by auto. apply IH. }
  rewrite (decide_True _ _ He). rewrite bool_decide_eq_false_2 by done. cbn [orb keep_first].
  case_bool_decide; [apply IH|]. split.
  - destruct (byID !! TrimSpace raw) as [n|] eqn:Hn; [|done]. destruct (node_available n) eqn:Ha; [|done].
    intros (l' & Hl & [= <-])%bind_Ok. constructor; [done|]. by apply IH.
  - inversion 1 as [|? n ? l' [Hn Ha] Hl]; subst. rewrite Hn, Ha. apply IH in Hl as ->. done.
Qed.

Lemma nodes_by_id s :
  (∀ id n, nodes s !! id = Some n → nd_ID n = id) →
  (list_to_map ((fun n => (nd_ID n, n)) <$> reverse (ListNodes s)) : gmap string Node) = nodes s.
Proof.
  intros Hkey. apply map_eq. intros id.
  assert (Hin : ∀ n, (id, n) ∈ ((fun n => (nd_ID n, n)) <$> reverse (ListNodes s)) ↔ nodes s !! id = Some n).
  { intros n. rewrite list_elem_of_fmap. setoid_rewrite elem_of_reverse. unfold ListNodes.
    setoid_rewrite elem_of_order_by. setoid_rewrite list_elem_of_fmap. split.
    - intros (n1 & [= -> ->] & [k n2] & -> & Hk%elem_of_map_to_list). cbn in *. by rewrite (Hkey _ _ Hk).
    - intros Hn. exists n. rewrite (Hkey _ _ Hn). split; [done|]. exists (id, n). by rewrite elem_of_map_to_list. }
  destruct (nodes s !! id) as [n|] eqn:Hn.
  - apply elem_of_list_to_map_1'; [|by apply Hin]. intros n' Hn'. apply Hin in Hn'. congruence.
  - apply not_elem_of_list_to_map_1. intros (kn & -> & Hkn)%list_elem_of_fmap.
    destruct kn as [k n]. apply Hin in Hkn. congruence.
Qed.

(** An enrolment request is answered with exactly the nodes it names, each
    once and in the order of the request, provided every one of them exists, is
    active and can be enrolled on, and at least one is named; otherwise it is
    refused as a whole. *)
Theorem SelectEnrollmentNodes_spec ids s l :
  (∀ id n, nodes s !! id = Some n → nd_ID n = id) →
  SelectEnrollmentNodes ids s = Ok l ↔
  l ≠ [] ∧ Forall2 (fun id n => nodes s !! id = Some n ∧ node_available n = true) (named_ids ids) l.
Proof.
  intros Hkey. unfold SelectEnrollmentNodes, named_ids. cbv zeta. rewrite nodes_by_id, <-select_nodes_spec by done.
  case_bool_decide as Hids.
  { subst. cbn. split; [done|]. intros [Hl [= <-]]. done. }
  destruct (select_nodes _ _ _) as [l'|e]; cbn; [|by split; [|intros []]].
  case_bool_decide as Hl'; split; try done.
  - subst. by intros [? [= <-]].
  - intros [= <-]. done.
  - by intros [? [= <-]].
Qed.

Lemma demo_nodes_keyed id n : nodes demo_s0 !! id = Some n → nd_ID n = id.
Proof.
  revert id n. change (map_Forall (fun id n => nd_ID n = id) (nodes demo_s0)).
  apply (bool_decide_unpack _). vm_compute. exact I.
Qed.

Lemma SelectEnrollmentNodes_spec_witness :
  SelectEnrollmentNodes [" nod"; ""; "nod"] demo_s0 =
    Ok [default demo_node (nodes demo_s0 !! "nod")].
Proof.
  apply (SelectEnrollmentNodes_spec [" nod"; ""; "nod"] demo_s0 _ demo_nodes_keyed).
  split; [discriminate|]. vm_compute. constructor; [split; reflexivity|constructor].
Defined.

(** ** Which connection a status change returns *)

(** On an external node the call returns the first of all connections it
    finalised, in the order of their ids.  When an earlier change of another
    connection was recorded but never finalised, that one comes back. *)
Definition api_interrupted : Server := exec_op (OpUpdateConnectionDesiredStatus (at_ms 2000) "con-a" ConnectionStatusHeld) api_s0.
Example status_change_returns_another :
  match (SetConnectionStatus one_client_api nop_enqueue (demo_fresh 2500)
           (default zero_connection (connections api_s0 !! "con-b")) api_node ConnectionStatusHeld
           (mkWorld api_interrupted tt ∅)).2 with
  | Ok c => cn_ID c = "con-a"
  | Err _ => False
  end.
Proof. vm_compute. reflexivity. Qed.
