(* ===== verification/SelfService.v ===== *)
(** * SelfService: what accounts may do for themselves, and enrolment

    [src/internal/server/clientselfservice/service.go] and
    [src/internal/server/accounts/service.go].  Both services sit on top of the
    connection service of [Connections]; the portal's tables are those of
    [PortalStore].  [fr i] is what the [i]-th call of the connection service
    draws from outside. *)

From S2P Require Import Prelude GoLib GoJson Sql Queue ServerModel ServerStore StoreInvariant Tables PortalStore Samples.
From S2P Require Import AmneziaClient Links Workqueue Connections.
Import GoTime GoStrings.

(** ** The effective policy of an account *)
Record EffectiveConnectionPolicy := mkPolicy { ep_AllowedNodeIDs : list string; ep_ConnectionLimit : Z }.

(** The allowed nodes, the limit and whether a tag was found. *)
Record policy_acc := mkPolicyAcc { pa_allowed : gset string; pa_limit : Z; pa_found : bool }.

Definition allow_node (allowed : gset string) (raw : string) : gset string :=
  let nodeID := TrimSpace raw in if bool_decide (nodeID = EmptyString) then allowed else {[nodeID]} ∪ allowed.

Definition raise_limit (limit tagLimit : Z) : Z :=
  if (tagLimit =? ConnectionLimitUnlimited)%Z then ConnectionLimitUnlimited
  else if negb (limit =? ConnectionLimitUnlimited)%Z && (limit <? tagLimit)%Z then tagLimit
  else limit.

Definition add_tag (acc : policy_acc) (tag : PolicyTag) : policy_acc :=
  mkPolicyAcc (foldl allow_node (pa_allowed acc) (pt_AllowedNodeIDs tag))
    (raise_limit (pa_limit acc) (pt_ConnectionLimit tag)) true.

Definition active_tags (d : Database) : gmap string PolicyTag :=
  list_to_map ((fun t => (pt_ID t, t)) <$> reverse (filter (fun t => pt_Status t = StatusActive) (ListPolicyTags d))).

(** The identifiers come out of a Go map, in no fixed order. *)
Definition EffectivePolicy (accountID : string) (d : Database) : EffectiveConnectionPolicy :=
  let tagByID := active_tags d in
  let acc := foldl (fun acc a => match tagByID !! apt_TagID a with Some tag => add_tag acc tag | None => acc end)
               (mkPolicyAcc ∅ 0 false) (ListAccountPolicyTags accountID d) in
  if pa_found acc then mkPolicy (elements (pa_allowed acc)) (pa_limit acc) else mkPolicy [] 0.

(** ** The services *)
Record CreateConnectionInput := mkCreateConnectionInput {
  ci_AccountID : string;
  ci_ConnectionName : string;
  ci_NodeIDs : list string;
}.

Record ItemResult := mkItem {
  it_Node : Node;
  it_Connection : Connection;
  it_ConfigCount : nat;
  it_Status : string;
  it_Err : option error;
}.

Record CreateConnectionResult := mkCreateConnectionResult { cr_Results : list ItemResult; cr_Partial : bool }.

Record EnrollmentInput := mkEnrollmentInput {
  en_Username : string;
  en_DisplayName : string;
  en_ConnectionName : string;
  en_NodeIDs : list string;
}.

Record EnrollmentResult := mkEnrollmentResult {
  er_Account : Account;
  er_NodeCount : nat;
  er_Results : list ItemResult;
  er_Successes : nat;
  er_Partial : bool;
  er_Summary : result AccountSummary;
}.

Definition ErrForbidden : error := "forbidden".
Definition ErrConnectionLimitReached : error := "connection limit reached".

Definition checkConnectionLimit (accountID : string) (limit : Z) (requested : nat) (s : Server) : result unit :=
  if (limit =? ConnectionLimitUnlimited)%Z then Ok tt
  else if (limit <? CountActiveConnectionsForAccount accountID s + Z.of_nat requested)%Z
  then Err ErrConnectionLimitReached else Ok tt.

Definition wanted_nodes (requested : list string) : gset string :=
  list_to_set (filter (fun id => id ≠ EmptyString) (TrimSpace <$> requested)).

Definition selectable (allowed wanted : gset string) (node : Node) : bool :=
  bool_decide (nd_Status node = StatusActive) && bool_decide (nd_ID node ∈ allowed) && bool_decide (nd_ID node ∈ wanted) &&
  negb (bool_decide (EnrollmentProtocolForNode node = EmptyString)).

Definition allowedNodes (policy : EffectiveConnectionPolicy) (requested : list string) (s : Server) : result (list Node) :=
  let allowed := list_to_set (ep_AllowedNodeIDs policy) in
  let wanted := wanted_nodes requested in
  if bool_decide (wanted = ∅) then Err "node_ids are required"
  else
    let out := filter (fun n => selectable allowed wanted n = true) (ListNodes s) in
    if bool_decide (length out = size wanted) then Ok out else Err ErrForbidden.

(** Configurations and profiles an administrator enters by hand; the inputs are
    the fields of the rows that are to be created. *)
Definition ValidateIssuedConfig (c : IssuedConfig) : result unit :=
  if bool_decide (ic_ConnectionID c = EmptyString) || bool_decide (ic_Kind c = EmptyString) ||
     bool_decide (ic_Name c = EmptyString) || bool_decide (ic_Config c = EmptyString)
  then Err "connection_id, kind, name and config are required" else Ok tt.

Definition ValidateConfigProfile (p : ConfigProfile) : result unit :=
  if bool_decide (cp_Protocol p = EmptyString) || bool_decide (cp_Kind p = EmptyString) ||
     bool_decide (cp_Slug p = EmptyString) || bool_decide (cp_Name p = EmptyString)
  then Err "protocol, kind, slug and name are required" else Ok tt.

Definition accounts_CreateIssuedConfig (now : time) (newID : string) (c : IssuedConfig) : goM Database IssuedConfig :=
  CreateIssuedConfig now newID (mkIssuedConfig EmptyString (ic_ConnectionID c) (ic_Kind c) (ic_Slug c) (ic_Name c)
    (ic_Client c) (ic_ContentType c) (ic_Config c) EmptyString zero_time zero_time).

Definition accounts_CreateConfigProfile (now : time) (newID : string) (p : ConfigProfile) : goM Database ConfigProfile :=
  CreateConfigProfile now newID (mkConfigProfile EmptyString (cp_Protocol p) (cp_Kind p) (cp_Slug p) (cp_Name p)
    (cp_Client p) (cp_ContentType p) (cp_ConfigTemplate p) EmptyString zero_time zero_time).

Section Services.
Context (is_country : string → bool) (ToASCII : string → option string).
Context (GenerateFromPassword X25519 : string → result string).
Context {R : Type} (Do : HttpRequest → goM R HttpResponse).
Context {Q : Type} (Enqueue : time → Message → goM Q unit).

(** The connection service's world together with the portal's tables. *)
Record SWorld := mkSWorld { sw_world : World (R := R) (Q := Q); sw_portal : Portal }.
Definition sw_db (w : SWorld) : Database := mkDatabase (w_store (sw_world w)) (sw_portal w).

Definition on_world {A} (f : goM (World (R := R) (Q := Q)) A) : goM SWorld A := fun w =>
  let '(w1, r) := f (sw_world w) in (mkSWorld w1 (sw_portal w), r).
Definition read_db {A} (f : Database → result A) : goM SWorld A := fun w => (w, f (sw_db w)).

Definition create_enrollment := CreateEnrollmentConnection is_country ToASCII GenerateFromPassword X25519 Do Enqueue.

(** One node of the loop; its error becomes part of the result. *)
Definition create_item (fr : Fresh) (account : Account) (name : string) (node : Node) (w : SWorld)
    : SWorld * ItemResult :=
  match on_world (create_enrollment fr node account name) w with
  | (w, Ok created) =>
      (w, mkItem node (res_Connection created) (length (res_Configs created)) "created" None)
  | (w, Err e) => (w, mkItem node zero_connection 0 "error" (Some e))
  end.

Fixpoint create_items (fr : nat → Fresh) (i : nat) (account : Account) (name : string) (nodes : list Node) (w : SWorld)
    : SWorld * list ItemResult :=
  match nodes with
  | [] => (w, [])
  | node :: nodes =>
      let '(w, item) := create_item (fr i) account name node w in
      let '(w, items) := create_items fr (S i) account name nodes w in
      (w, item :: items)
  end.

Definition failed (item : ItemResult) : bool := match it_Err item with Some _ => true | None => false end.

Definition create_all (fr : nat → Fresh) (account : Account) (name : string) (nodes : list Node)
    : goM SWorld CreateConnectionResult := fun w =>
  let '(w, items) := create_items fr 0 account name nodes w in
  (w, Ok (mkCreateConnectionResult items (existsb failed items))).

Definition CreateConnections (fr : nat → Fresh) (input : CreateConnectionInput) : goM SWorld CreateConnectionResult :=
  account ← read_db (fun d => GetAccount (ci_AccountID input) (core d));
  if negb (bool_decide (acc_Status account = AccountStatusActive)) then failM ErrForbidden else
  let name := TrimSpace (ci_ConnectionName input) in
  if bool_decide (name = EmptyString) then failM "connection_name is required" else
  policy ← read_db (fun d => Ok (EffectivePolicy (acc_ID account) d));
  if (ep_ConnectionLimit policy =? 0)%Z then failM ErrForbidden else
  nodes ← read_db (fun d => allowedNodes policy (ci_NodeIDs input) (core d));
  _ ← read_db (fun d => checkConnectionLimit (acc_ID account) (ep_ConnectionLimit policy) (length nodes) (core d));
  create_all fr account name nodes.

(** The portal's own deletion. *)
Definition DeleteOwnConnection (fr : Fresh) (accountID connectionID : string) : goM SWorld ItemResult :=
  account ← read_db (fun d => GetAccount accountID (core d));
  if negb (bool_decide (acc_Status account = AccountStatusActive)) then failM ErrForbidden else
  connection ← read_db (fun d => GetConnection (TrimSpace connectionID) (core d));
  if negb (bool_decide (cn_AccountID connection = acc_ID account)) ||
     bool_decide (cn_DesiredStatus connection = ConnectionStatusDeleted) then failM ErrForbidden else
  node ← read_db (fun d => match node_map (core d) !! cn_NodeID connection with
                           | Some n => Ok n
                           | None => Err "node not found"
                           end);
  updated ← on_world (DeleteConnection Do Enqueue fr connection node);
  mret (mkItem node updated 0 "deleted" None).

(** ** Enrolment *)
Definition Validate (input : EnrollmentInput) : result unit :=
  if blank (en_Username input) then Err "username is required"
  else if blank (en_ConnectionName input) then Err "connection_name is required"
  else Ok tt.

Definition create_account (now : time) (newID username displayName : string) : goM SWorld Account :=
  on_world (on_store (CreateAccount now newID
    (mkAccount EmptyString (TrimSpace username) (TrimSpace displayName) EmptyString zero_time zero_time))).

Definition enroll_nodes (now : time) (fr : nat → Fresh) (input : EnrollmentInput) (nodes : list Node) (account : Account)
    : goM SWorld EnrollmentResult := fun w =>
  let '(w, items) := create_items fr 0 account (TrimSpace (en_ConnectionName input)) nodes w in
  let successes := length (filter (fun it => failed it = false) items) in
  (w, Ok (mkEnrollmentResult account (length nodes) items successes (negb (bool_decide (successes = length nodes)))
            (Summary now (acc_ID account) (sw_db w)))).

Definition Enroll (now : nat → time) (newID : string) (fr : nat → Fresh) (input : EnrollmentInput)
    : goM SWorld EnrollmentResult :=
  _ ← liftM (Validate input);
  nodes ← read_db (fun d => SelectEnrollmentNodes (en_NodeIDs input) (core d));
  account ← create_account (now 0) newID (en_Username input) (en_DisplayName input);
  enroll_nodes (now 1) fr input nodes account.
End Services.
Arguments mkSWorld {R Q} _ _.
Arguments sw_world {R Q} _.
Arguments sw_portal {R Q} _.

(** ** The policy against its description

    A node is allowed when some active tag of the account names it; the limit is
    none when some tag has none, and the largest of the tags' limits otherwise. *)
Definition holds_tag (accountID : string) (d : Database) (tag : PolicyTag) : Prop :=
  tag ∈ ListPolicyTags d ∧ pt_Status tag = StatusActive ∧
  ∃ a, a ∈ ListAccountPolicyTags accountID d ∧ apt_TagID a = pt_ID tag.

Lemma elem_of_allow_node l allowed x :
  x ∈ foldl allow_node allowed l ↔ x ∈ allowed ∨ ∃ raw, raw ∈ l ∧ TrimSpace raw = x ∧ x ≠ EmptyString.
Proof.
  revert allowed. induction l as [|raw l IH]; intros allowed; cbn [foldl]; [set_solver|].
  rewrite IH. unfold allow_node. cbv zeta. case_bool_decide as Hb.
  - setoid_rewrite elem_of_cons. split; [naive_solver|]. intros [?|(r & [->|Hr] & <- & Hn)]; [by left|done|eauto].
  - setoid_rewrite elem_of_cons. rewrite elem_of_union, elem_of_singleton. naive_solver.
Qed.

(** The limit of a list of tag limits, above [limit]. *)
Definition limit_of (limit : Z) (l : list Z) (r : Z) : Prop :=
  (r = ConnectionLimitUnlimited ↔ limit = ConnectionLimitUnlimited ∨ ConnectionLimitUnlimited ∈ l) ∧
  (r ≠ ConnectionLimitUnlimited → (limit <= r)%Z ∧ (∀ x, x ∈ l → (x <= r)%Z) ∧ (r = limit ∨ r ∈ l)).

Lemma raise_limit_of l limit : (ConnectionLimitUnlimited <= limit)%Z → limit_of limit l (foldl raise_limit limit l).
Proof.
  revert limit. induction l as [|x l IH]; intros limit Hl; cbn [foldl].
  - split; [set_solver|]. intros _. split_and!; [done|set_solver|by left].
  - unfold ConnectionLimitUnlimited in *.
    assert (Hs : (-1 <= raise_limit limit x)%Z) by (unfold raise_limit, ConnectionLimitUnlimited;
      destruct (Z.eqb_spec x (-1)); [lia|]; destruct (Z.eqb_spec limit (-1)), (Z.ltb_spec limit x); cbn; lia).
    specialize (IH _ Hs) as [I1 I2]. split.
    + rewrite I1, elem_of_cons. unfold raise_limit, ConnectionLimitUnlimited.
      destruct (Z.eqb_spec x (-1)); [naive_solver|].
      destruct (Z.eqb_spec limit (-1)), (Z.ltb_spec limit x); cbn; naive_solver lia.
    + intros Hr. destruct (I2 Hr) as (J1 & J2 & J3).
      assert (Hx : raise_limit limit x ≠ (-1)%Z) by (intros E; apply Hr, I1; by left).
      assert (Hm : (limit <= raise_limit limit x)%Z ∧ (x <= raise_limit limit x)%Z ∧
                   (raise_limit limit x = limit ∨ raise_limit limit x = x)).
      { revert Hx. unfold raise_limit, ConnectionLimitUnlimited. destruct (Z.eqb_spec x (-1)); [done|].
        destruct (Z.eqb_spec limit (-1)), (Z.ltb_spec limit x); cbn; lia. }
      setoid_rewrite elem_of_cons. split_and!; [lia| |].
      { intros y [->|Hy]; [lia|by apply J2]. }
      destruct J3 as [->|J3]; [|by right; right]. destruct Hm as (_ & _ & [->| ->]); [by left|by right; left].
Qed.

Lemma active_tags_lookup d id tag :
  portal_wf d → active_tags d !! id = Some tag ↔
    tag ∈ ListPolicyTags d ∧ pt_Status tag = StatusActive ∧ pt_ID tag = id.
Proof.
  intros Hwf. unfold active_tags.
  assert (Hin : ∀ t, (id, t) ∈ ((fun t => (pt_ID t, t)) <$> reverse (filter (fun t => pt_Status t = StatusActive) (ListPolicyTags d))) ↔
    t ∈ ListPolicyTags d ∧ pt_Status t = StatusActive ∧ pt_ID t = id).
  { intros t. rewrite list_elem_of_fmap. setoid_rewrite elem_of_reverse. setoid_rewrite list_elem_of_filter. naive_solver. }
  rewrite <-Hin. split; [apply elem_of_list_to_map_2|]. intros Ht. apply elem_of_list_to_map_1'; [|done].
  intros t' Ht'. apply Hin in Ht as (H1 & _ & <-), Ht' as (H1' & _ & E).
  unfold ListPolicyTags in H1, H1'. rewrite elem_of_order_by in H1, H1'.
  apply list_elem_of_fmap in H1 as (r & -> & ([k ?] & -> & Hr%elem_of_map_to_list)%list_elem_of_fmap).
  apply list_elem_of_fmap in H1' as (r' & -> & ([k' ?] & -> & Hr'%elem_of_map_to_list)%list_elem_of_fmap).
  cbn in *. rewrite (pw_tag_key _ Hwf _ _ Hr), (pw_tag_key _ Hwf _ _ Hr') in E. subst. congruence.
Qed.

(** The loop over the assignments visits the tags in turn. *)
Definition visited_tags (tagByID : gmap string PolicyTag) (l : list AccountPolicyTag) : list PolicyTag :=
  omap (fun a => tagByID !! apt_TagID a) l.

Lemma policy_loop tagByID l acc :
  foldl (fun acc a => match tagByID !! apt_TagID a with Some tag => add_tag acc tag | None => acc end) acc l =
  foldl add_tag acc (visited_tags tagByID l).
Proof.
  revert acc. induction l as [|a l IH]; intros acc; [done|]. cbn. rewrite IH. by destruct (tagByID !! apt_TagID a).
Qed.

Lemma add_tags tags acc :
  let acc' := foldl add_tag acc tags in
  (∀ x, x ∈ pa_allowed acc' ↔ x ∈ pa_allowed acc ∨
     ∃ tag raw, tag ∈ tags ∧ raw ∈ pt_AllowedNodeIDs tag ∧ TrimSpace raw = x ∧ x ≠ EmptyString) ∧
  pa_limit acc' = foldl raise_limit (pa_limit acc) (pt_ConnectionLimit <$> tags) ∧
  pa_found acc' = pa_found acc || negb (bool_decide (tags = [])).
Proof.
  revert acc. induction tags as [|tag tags IH]; intros acc; cbn [foldl].
  - split_and!; [set_solver|done|by rewrite orb_false_r].
  - destruct (IH (add_tag acc tag)) as (I1 & I2 & I3). split_and!; [|exact I2|by rewrite I3, orb_true_r].
    intros x. rewrite I1. unfold add_tag at 1. cbn [pa_allowed]. rewrite elem_of_allow_node.
    setoid_rewrite elem_of_cons. naive_solver.
Qed.

Lemma elem_of_visited accountID d tag :
  portal_wf d → tag ∈ visited_tags (active_tags d) (ListAccountPolicyTags accountID d) ↔ holds_tag accountID d tag.
Proof.
  intros Hwf. unfold visited_tags, holds_tag. rewrite list_elem_of_omap.
  setoid_rewrite active_tags_lookup; [|done]. naive_solver.
Qed.

(** The policy that is computed for an account is the one its tags describe:
    the allowed nodes are exactly those named by some active tag that is
    assigned to it; there is no limit exactly if one of those tags has none;
    otherwise the limit is zero or the largest limit of the tags; and an
    account without an active tag may do nothing. *)
Theorem EffectivePolicy_spec accountID d :
  portal_wf d →
  let policy := EffectivePolicy accountID d in
  (∀ node, node ∈ ep_AllowedNodeIDs policy ↔
     node ≠ EmptyString ∧ ∃ tag raw, holds_tag accountID d tag ∧ raw ∈ pt_AllowedNodeIDs tag ∧ TrimSpace raw = node) ∧
  (ep_ConnectionLimit policy = ConnectionLimitUnlimited ↔
     ∃ tag, holds_tag accountID d tag ∧ pt_ConnectionLimit tag = ConnectionLimitUnlimited) ∧
  (ep_ConnectionLimit policy ≠ ConnectionLimitUnlimited →
     (∀ tag, holds_tag accountID d tag → (pt_ConnectionLimit tag <= ep_ConnectionLimit policy)%Z) ∧
     (ep_ConnectionLimit policy = 0%Z ∨ ∃ tag, holds_tag accountID d tag ∧ pt_ConnectionLimit tag = ep_ConnectionLimit policy)) ∧
  (ep_ConnectionLimit policy = 0%Z ∨ ep_ConnectionLimit policy = ConnectionLimitUnlimited ∨ (0 < ep_ConnectionLimit policy)%Z).
Proof.
  intros Hwf. unfold EffectivePolicy. cbv zeta. rewrite policy_loop.
  set (tags := visited_tags _ _). assert (Ht : ∀ tag, tag ∈ tags ↔ holds_tag accountID d tag) by (intros; by apply elem_of_visited).
  destruct (add_tags tags (mkPolicyAcc ∅ 0 false)) as (H1 & H2 & H3). cbn in H3. rewrite H3.
  case_bool_decide as Hnil; cbn [negb ep_AllowedNodeIDs ep_ConnectionLimit].
  - setoid_rewrite <-Ht. rewrite Hnil. unfold ConnectionLimitUnlimited. split_and!; [set_solver|set_solver|set_solver|by left].
  - rewrite H2. cbn [pa_limit]. destruct (raise_limit_of (pt_ConnectionLimit <$> tags) 0) as [L1 L2];
      [unfold ConnectionLimitUnlimited; lia|]. setoid_rewrite list_elem_of_fmap in L2. rewrite list_elem_of_fmap in L1.
    setoid_rewrite <-Ht. split_and!.
    + intros node. rewrite elem_of_elements, H1. cbn [pa_allowed]. set_solver.
    + rewrite L1. unfold ConnectionLimitUnlimited. naive_solver.
    + intros Hr. destruct (L2 Hr) as (_ & J2 & J3). split; [naive_solver|]. destruct J3 as [->|(tag & -> & ?)]; eauto.
    + destruct (decide (foldl raise_limit 0%Z (pt_ConnectionLimit <$> tags) = ConnectionLimitUnlimited)) as [E|E]; [by right; left|].
      destruct (L2 E) as (J1 & _). lia.
Qed.

(** ** What creating a connection adds

    At most one connection, of the given account and on the given node, also
    when the call fails: a queue that refuses the refresh job makes the call
    fail after the connection was stored. *)
Definition adds (accountID nodeID : string) (s s' : Server) : Prop :=
  accounts s' = accounts s ∧
  (connections s' = connections s ∨
   ∃ c, connections s !! cn_ID c = None ∧ connections s' = <[cn_ID c := c]> (connections s) ∧
        cn_AccountID c = accountID ∧ cn_NodeID c = nodeID).

Create HintDb quiet.

Section Adds.
Context {R Q : Type}.
Local Abbreviation W := (World (R := R) (Q := Q)).

Definition quiet {A} (m : goM W A) : Prop := ∀ w, w_store (m w).1 = w_store w.
Definition adds_at {A} (acc node : string) (m : goM W A) : Prop := ∀ w, adds acc node (w_store w) (w_store (m w).1).

Lemma quiet_ret {A} (a : A) : quiet (mret a).
Proof. done. Qed.
Lemma quiet_fail {A} e : quiet (failM e : goM W A).
Proof. done. Qed.
Lemma quiet_lift {A} (r : result A) : quiet (liftM r).
Proof. done. Qed.
Lemma quiet_query {A} (f : Server → result A) : quiet (on_store (query f)).
Proof. done. Qed.
Lemma quiet_queue {A} (m : goM Q A) : quiet (on_queue m).
Proof. intros w. unfold on_queue. by destruct (m _). Qed.
Lemma quiet_remote {A} (m : goM R A) : quiet (on_remote m).
Proof. intros w. unfold on_remote. by destruct (m _). Qed.
Lemma quiet_bind {A B} (f : A → goM W B) m : quiet m → (∀ a, quiet (f a)) → quiet (m ≫= f).
Proof.
  intros Hm Hf w. unfold mbind, goM_bind. specialize (Hm w). destruct (m w) as [w' [a|e]]; [|done].
  cbn in *. by rewrite Hf.
Qed.

Lemma adds_refl acc node s : adds acc node s s.
Proof. split; [done|by left]. Qed.
Lemma adds_quiet {A} acc node (m : goM W A) : quiet m → adds_at acc node m.
Proof. intros Hm w. rewrite Hm. apply adds_refl. Qed.
Lemma adds_after {A B} acc node (f : A → goM W B) m : quiet m → (∀ a, adds_at acc node (f a)) → adds_at acc node (m ≫= f).
Proof.
  intros Hm Hf w. unfold mbind, goM_bind. specialize (Hm w). destruct (m w) as [w' [a|e]]; cbn in *.
  - rewrite <-Hm. apply Hf.
  - rewrite Hm. apply adds_refl.
Qed.
Lemma adds_before {A B} acc node (f : A → goM W B) m : adds_at acc node m → (∀ a, quiet (f a)) → adds_at acc node (m ≫= f).
Proof.
  intros Hm Hf w. unfold mbind, goM_bind. specialize (Hm w). destruct (m w) as [w' [a|e]]; [|done].
  cbn in *. by rewrite Hf.
Qed.
Lemma adds_bundle now ids b :
  adds_at (cn_AccountID (cb_Connection b)) (cn_NodeID (cb_Connection b)) (on_store (CreateConnectionBundle now ids b)).
Proof.
  intros w. unfold on_store. destruct (CreateConnectionBundle now ids b (w_store w)) as [s' [b'|e]] eqn:E; cbn.
  - apply CreateConnectionBundle_Ok in E as (_ & Hb & _). destruct Hb as [Ha _ Hf _ Hc _ _ _]. split; [done|]. right.
    eexists. split_and!; [exact Hf|exact Hc|done..].
  - unfold CreateConnectionBundle in E. apply transaction_Err in E as [-> _]. apply adds_refl.
Qed.
End Adds.

#[export] Hint Resolve quiet_ret quiet_fail quiet_lift quiet_query quiet_queue quiet_remote quiet_bind : quiet.

Section CreateAdds.
Context (is_country : string → bool) (ToASCII : string → option string).
Context (GenerateFromPassword X25519 : string → result string).
Context {R : Type} (Do : HttpRequest → goM R HttpResponse).
Context {Q : Type} (Enqueue : time → Message → goM Q unit).

Lemma adds_hysteria fr c input :
  adds_at (cn_AccountID c) (cn_NodeID c) (createNativeHysteria is_country GenerateFromPassword (R := R) Enqueue fr c input).
Proof.
  unfold createNativeHysteria. do 3 (apply adds_after; [auto with quiet|]; intros ?). cbv zeta.
  apply adds_before; [exact (adds_bundle _ _ _)|]. intros b. unfold enqueueAuthRefresh. auto with quiet.
Qed.

Lemma adds_amneziawg fr c input :
  adds_at (cn_AccountID c) (cn_NodeID c) (createNativeAmneziaWG is_country ToASCII X25519 (R := R) Enqueue fr c input).
Proof.
  unfold createNativeAmneziaWG. do 2 (apply adds_after; [auto with quiet|]; intros ?). case_match.
  do 2 (apply adds_after; [auto with quiet|]; intros ?). cbv zeta. apply adds_after; [auto with quiet|]; intros ?.
  apply adds_before; [exact (adds_bundle _ _ _)|]. intros b. unfold enqueueAuthRefresh. auto with quiet.
Qed.

Lemma adds_external fr c input :
  adds_at (cn_AccountID c) (cn_NodeID c) (createAmneziaAPI is_country Do (Q := Q) fr c input).
Proof.
  unfold createAmneziaAPI. apply adds_after; [auto with quiet|]; intros config. cbv zeta.
  apply adds_after; [auto with quiet|]; intros created. intros w. unfold store_or_undo.
  match goal with |- context [CreateConnectionBundle ?n ?i ?b] => pose proof (adds_bundle (R := R) (Q := Q) n i b w) as Hb end.
  destruct (on_store _ w) as [w1 [b'|e]]; [exact Hb|]. unfold ignore. cbn [fst snd] in *.
  pose proof (quiet_remote (Q := Q) (p_DeleteConnection (provider Do config) (rcn_Ref created)) w1) as Hr. by rewrite Hr.
Qed.

Lemma CreateConnection_adds fr input w :
  accounts_keyed (w_store w) →
  adds (in_AccountID input) (nd_ID (in_Node input)) (w_store w)
    (w_store (CreateConnection is_country ToASCII GenerateFromPassword X25519 Do Enqueue fr input w).1).
Proof.
  intros Hk. unfold CreateConnection. case_match; [apply adds_refl|].
  unfold mbind at 1, goM_bind at 1, on_store at 1, query. unfold GetAccount, get_row.
  destruct (accounts (w_store w) !! in_AccountID input) as [account|] eqn:Ea; [|apply adds_refl].
  apply Hk in Ea. rewrite <-Ea. destruct w as [s q r]; cbn [w_store w_queue w_remote] in *.
  case_match; [apply adds_refl|]. cbv zeta. case_match; [apply adds_refl|].
  case_match; [exact (adds_hysteria fr (new_connection fr account input _) input (mkWorld s q r))|].
  case_match; [exact (adds_amneziawg fr (new_connection fr account input _) input (mkWorld s q r))|].
  case_match; [exact (adds_external fr (new_connection fr account input _) input (mkWorld s q r))|]. apply adds_refl.
Qed.

Lemma CreateEnrollmentConnection_adds fr node account name w :
  accounts_keyed (w_store w) →
  adds (acc_ID account) (nd_ID node) (w_store w)
    (w_store (CreateEnrollmentConnection is_country ToASCII GenerateFromPassword X25519 Do Enqueue fr node account name w).1).
Proof.
  intros Hk. unfold CreateEnrollmentConnection. cbv zeta. case_match; [apply adds_refl|].
  exact (CreateConnection_adds fr (mkConnectionInput (acc_ID account) node _ name) w Hk).
Qed.
End CreateAdds.

(** ** Creating connections within the policy *)
Record grown (accountID : string) (nodeIDs : list string) (s s' : Server) : Prop := {
  gr_accounts : accounts s' = accounts s;
  gr_kept : ∀ id c, connections s !! id = Some c → connections s' !! id = Some c;
  gr_new : ∀ id c, connections s' !! id = Some c → connections s !! id = Some c ∨
    (connections s !! id = None ∧ cn_AccountID c = accountID ∧ cn_NodeID c ∈ nodeIDs);
  gr_count : (CountActiveConnectionsForAccount accountID s' <=
              CountActiveConnectionsForAccount accountID s + Z.of_nat (length nodeIDs))%Z;
}.

Lemma sql_select_insert {A} (P : A → bool) (t : gmap string A) k r :
  t !! k = None → length (sql_select P (<[k := r]> t)) ≤ S (length (sql_select P t)).
Proof.
  intros Hk. unfold sql_select. rewrite (map_to_list_insert _ _ _ Hk), fmap_cons, filter_cons. destruct (decide _); cbn; lia.
Qed.

Lemma grown_refl acc s : grown acc [] s s.
Proof. constructor; [done|done|by left|cbn; lia]. Qed.

Lemma grown_step acc n ns s1 s2 s3 : adds acc n s1 s2 → grown acc ns s2 s3 → grown acc (n :: ns) s1 s3.
Proof.
  intros [Ha Hc] [Ha' Hk Hn Hcount]. destruct Hc as [Hc|(c & Hf & Hc & Hacc & Hnode)].
  - unfold CountActiveConnectionsForAccount in *. rewrite Hc in Hcount, Hk. constructor; [congruence|done| |unfold CountActiveConnectionsForAccount; rewrite length_cons; lia].
    intros id c' [?|(? & ? & ?)]%Hn; rewrite Hc in *; [by left|right]. set_solver.
  - constructor; [congruence| | |].
    + intros id c' Hid. apply Hk. rewrite Hc, lookup_insert_ne; [done|]. congruence.
    + intros id c' [H|(H & ? & ?)]%Hn; rewrite Hc in H.
      * apply lookup_insert_Some in H as [[<- <-]|[_ H]]; [right|by left]. split_and!; [done..|]. rewrite Hnode. by left.
      * apply lookup_insert_None in H as [H _]. right. split_and!; [done..|by right].
    + unfold CountActiveConnectionsForAccount in *. rewrite Hc in Hcount.
      pose proof (sql_select_insert (fun c => bool_decide (cn_AccountID c = acc) && live c) _ _ c Hf). rewrite length_cons. lia.
Qed.

Section Policy.
Context (is_country : string → bool) (ToASCII : string → option string).
Context (GenerateFromPassword X25519 : string → result string).
Context {R : Type} (Do : HttpRequest → goM R HttpResponse).
Context {Q : Type} (Enqueue : time → Message → goM Q unit).

Lemma create_items_grown fr account name nodes i (w w' : SWorld (R := R) (Q := Q)) items :
  accounts_keyed (core (sw_db w)) →
  create_items is_country ToASCII GenerateFromPassword X25519 Do Enqueue fr i account name nodes w = (w', items) →
  grown (acc_ID account) (nd_ID <$> nodes) (core (sw_db w)) (core (sw_db w')) ∧
  sw_portal w' = sw_portal w ∧ it_Node <$> items = nodes.
Proof.
  revert i w items. induction nodes as [|node nodes IH]; intros i w items Hk; cbn [create_items].
  - intros [= <- <-]. split_and!; [apply grown_refl|done|done].
  - destruct (create_item _ _ _ _ _ _ (fr i) account name node w) as [w1 item] eqn:E1.
    destruct (create_items _ _ _ _ _ _ fr (S i) account name nodes w1) as [w2 items2] eqn:E2. intros [= <- <-].
    unfold create_item, on_world, create_enrollment in E1.
    pose proof (CreateEnrollmentConnection_adds is_country ToASCII GenerateFromPassword X25519 Do Enqueue (fr i) node account
      name (sw_world w) Hk) as Hadds.
    destruct (CreateEnrollmentConnection _ _ _ _ _ _ (fr i) node account name (sw_world w)) as [u r]. cbn in Hadds.
    assert (Hw1 : w1 = mkSWorld u (sw_portal w) ∧ it_Node item = node) by (by destruct r; injection E1 as <- <-).
    destruct Hw1 as [-> Hitem]. apply IH in E2 as (Hg & Hp & Hn).
    + split_and!; [|done|cbn; by rewrite Hitem, Hn]. by eapply grown_step.
    + intros id a. cbn. destruct Hadds as [-> _]. apply Hk.
Qed.
End Policy.

Lemma read_db_Ok {R Q A} (f : Database → result A) (w w' : SWorld (R := R) (Q := Q)) a :
  read_db f w = (w', Ok a) → w' = w ∧ f (sw_db w) = Ok a.
Proof. by intros [= <- ->]. Qed.

(** The nodes the policy and the request agree on. *)
Lemma allowedNodes_Ok policy requested s nodes n :
  allowedNodes policy requested s = Ok nodes → n ∈ nodes →
  nd_Status n = StatusActive ∧ nd_ID n ∈ ep_AllowedNodeIDs policy ∧ nd_ID n ∈ TrimSpace <$> requested.
Proof.
  unfold allowedNodes. case_bool_decide; [done|]. case_bool_decide; [|done]. intros [= <-] [Hs _]%list_elem_of_filter.
  unfold selectable in Hs. rewrite !andb_true_iff, !bool_decide_eq_true, elem_of_list_to_set in Hs.
  destruct Hs as [[[? ?] Hw] _]. split_and!; [done..|]. unfold wanted_nodes in Hw.
  rewrite elem_of_list_to_set, list_elem_of_filter in Hw. tauto.
Qed.

(** C33. When an account creates connections for itself, each new connection
    belongs to that account and lies on a node that was asked for and that its
    policy allows; nothing else changes in the table of connections; and if the
    policy has a limit the account has no more live connections afterwards than
    the limit, however many of the calls failed half-way.  A refused request
    changes nothing. *)
Theorem self_service_within_policy is_country ToASCII bcrypt X25519 {R Q} (Do : HttpRequest → goM R HttpResponse)
    (Enqueue : time → Message → goM Q unit) fr input (w w' : SWorld (R := R) (Q := Q)) res :
  accounts_keyed (core (sw_db w)) →
  CreateConnections is_country ToASCII bcrypt X25519 Do Enqueue fr input w = (w', res) →
  match res with
  | Err _ => w' = w
  | Ok _ =>
      let policy := EffectivePolicy (ci_AccountID input) (sw_db w) in
      (∀ id c, connections (core (sw_db w)) !! id = Some c → connections (core (sw_db w')) !! id = Some c) ∧
      (∀ id c, connections (core (sw_db w')) !! id = Some c → connections (core (sw_db w)) !! id = None →
         cn_AccountID c = ci_AccountID input ∧ cn_NodeID c ∈ ep_AllowedNodeIDs policy ∧
         cn_NodeID c ∈ TrimSpace <$> ci_NodeIDs input) ∧
      (ep_ConnectionLimit policy ≠ ConnectionLimitUnlimited →
         (CountActiveConnectionsForAccount (ci_AccountID input) (core (sw_db w')) <= ep_ConnectionLimit policy)%Z)
  end.
Proof.
  intros Hk. unfold CreateConnections, mbind, goM_bind, read_db. cbv beta iota zeta.
  destruct (GetAccount _ _) as [account|e] eqn:Ea; [|by intros [= <- <-]]. apply get_row_Ok, Hk in Ea.
  case_match; [by intros [= <- <-]|]. case_match; [by intros [= <- <-]|]. rewrite Ea.
  set (policy := EffectivePolicy (ci_AccountID input) (sw_db w)). case_match; [by intros [= <- <-]|].
  destruct (allowedNodes _ _ _) as [nodes|e] eqn:En; [|by intros [= <- <-]].
  destruct (checkConnectionLimit _ _ _ _) as [u|e] eqn:El; [|by intros [= <- <-]]. unfold create_all.
  destruct (create_items _ _ _ _ _ _ _ _ _ _ _ _) as [w1 items] eqn:Ec. intros [= <- <-].
  apply create_items_grown in Ec as (Hg & _ & _); [|done]. rewrite Ea in Hg. destruct Hg as [_ Hkept Hnew Hcount].
  split_and!; [done| |].
  - intros id c Hc Hn. apply Hnew in Hc as [Hc|(_ & Hacc & Hin)]; [congruence|].
    apply list_elem_of_fmap in Hin as (n & Hid & Hin). destruct (allowedNodes_Ok _ _ _ _ n En Hin) as (_ & ? & ?).
    rewrite Hid. done.
  - intros Hlim. unfold checkConnectionLimit in El. destruct (Z.eqb_spec (ep_ConnectionLimit policy) ConnectionLimitUnlimited); [done|].
    destruct (Z.ltb_spec (ep_ConnectionLimit policy)
      (CountActiveConnectionsForAccount (ci_AccountID input) (core (sw_db w)) + Z.of_nat (length nodes))); [done|].
    rewrite length_fmap in Hcount. lia.
Qed.

(** ** Deleting one's own connection *)
Definition same_wish (c c' : Connection) : Prop :=
  identity_of c' = identity_of c ∧ cn_DesiredStatus c' = cn_DesiredStatus c.

#[export] Instance same_wish_refl : Reflexive same_wish.
Proof. by intros c. Qed.
#[export] Instance same_wish_trans : Transitive same_wish.
Proof. intros c1 c2 c3 [] []. split; congruence. Qed.

Lemma finalize_one_wish now v x s : pointwise same_wish (connections s) (connections (finalize_one now v x s)).
Proof.
  assert (H : pointwise same_wish (connections s) (alter (fun c => if (cn_DesiredVersionMS c <=? v)%Z then set_applied now c else c)
    (cn_ID x) (connections s))).
  { intros id. destruct (decide (id = cn_ID x)) as [->|Hn].
    - rewrite lookup_alter_eq. destruct (connections s !! _); constructor. by destruct (_ <=? _)%Z.
    - rewrite lookup_alter_ne by done. destruct (connections s !! _); by constructor. }
  unfold finalize_one. by case_bool_decide.
Qed.

Lemma finalize_apply_wish now v l s : pointwise same_wish (connections s) (connections (finalize_apply now v l s)).
Proof.
  unfold finalize_apply. revert s. induction l as [|x l IH]; intros s; cbn [foldl]; [apply pointwise_refl, _|].
  eapply pointwise_trans; [apply _|apply finalize_one_wish|apply IH].
Qed.

(** The common end of the two changes of a status: only the connection's own
    wish changes. *)
Lemma settle_status_wish {R Q} (Enqueue : time → Message → goM Q unit) fr c node desired (w w' : World (R := R) (Q := Q)) c' :
  settle_status Enqueue fr c node desired w = (w', Ok c') →
  ∃ u, connections (w_store w) !! cn_ID c ≠ None ∧ cn_DesiredStatus u = desired ∧
    pointwise same_wish (<[cn_ID c := u]> (connections (w_store w))) (connections (w_store w')).
Proof.
  unfold settle_status, mbind, goM_bind, on_store.
  destruct (UpdateConnectionDesiredStatus _ _ _ _) as [s [u|e]] eqn:Eu; [|done].
  assert (Hs : connections (w_store w) !! cn_ID c ≠ None ∧ cn_DesiredStatus u = desired ∧
               connections s = <[cn_ID c := u]> (connections (w_store w))).
  { unfold UpdateConnectionDesiredStatus in Eu. case_match; [done|]. apply transaction_Ok in Eu.
    destruct (connections (w_store w) !! cn_ID c) as [c0|] eqn:E0; [|done]. case_match; [done|]. by injection Eu as <- <-. }
  destruct Hs as (H1 & H2 & H3). destruct (external node).
  - cbn. intros [= <- _]. exists u. split_and!; [done..|]. rewrite <-H3. apply finalize_apply_wish.
  - unfold enqueueAuthRefresh, on_queue. cbn [w_store w_queue w_remote].
    destruct (Enqueue _ _ _) as [q [[]|e]]; [|done]. cbn. intros [= <- _]. exists u. split_and!; [done..|].
    rewrite <-H3. apply pointwise_refl, _.
Qed.

Lemma applyExternalStatus_quiet {R Q} (Do : HttpRequest → goM R HttpResponse) c node st del :
  quiet (Q := Q) (applyExternalStatus Do c node st del).
Proof. unfold applyExternalStatus. do 2 (apply quiet_bind; [auto with quiet|]; intros ?). destruct del; auto with quiet. Qed.

Lemma on_world_Ok {R Q A} (f : goM (World (R := R) (Q := Q)) A) (w w' : SWorld (R := R) (Q := Q)) a :
  on_world f w = (w', Ok a) → f (sw_world w) = (sw_world w', Ok a) ∧ sw_portal w' = sw_portal w.
Proof. unfold on_world. destruct (f _) as [u r]. intros [= <- ->]. done. Qed.

(** An account can delete a connection only if it is its own and is not
    deleted already; afterwards that connection is to be deleted, and the wish
    for every other connection, of this account or of another one, is what it
    was.  Naming a connection of somebody else is refused and changes nothing. *)
Theorem delete_own_only {R Q} (Do : HttpRequest → goM R HttpResponse) (Enqueue : time → Message → goM Q unit)
    fr accountID connectionID (w w' : SWorld (R := R) (Q := Q)) res :
  accounts_keyed (core (sw_db w)) → server_wf (core (sw_db w)) →
  DeleteOwnConnection Do Enqueue fr accountID connectionID w = (w', res) →
  let id := TrimSpace connectionID in
  (∀ item, res = Ok item →
    ∃ c c', connections (core (sw_db w)) !! id = Some c ∧ cn_AccountID c = accountID ∧ live c = true ∧
      connections (core (sw_db w')) !! id = Some c' ∧ live c' = false ∧
      ∀ id' o, id' ≠ id → connections (core (sw_db w)) !! id' = Some o →
        ∃ o', connections (core (sw_db w')) !! id' = Some o' ∧ same_wish o o') ∧
  (∀ c, connections (core (sw_db w)) !! id = Some c → cn_AccountID c ≠ accountID → w' = w ∧ is_ok res = false).
Proof.
  intros Hk Hwf. unfold DeleteOwnConnection, mbind, goM_bind, read_db. cbv beta iota zeta.
  destruct (GetAccount _ _) as [account|e] eqn:Ea; [|by intros [= <- <-]]. apply get_row_Ok, Hk in Ea.
  case_match; [by intros [= <- <-]|].
  destruct (GetConnection _ _) as [c|e] eqn:Ec; [|by intros [= <- <-]]. apply get_row_Ok in Ec. rewrite Ea.
  destruct (bool_decide (cn_AccountID c = accountID)) eqn:Eown.
  2: { cbn [negb orb]. intros [= <- <-]. split; [done|]. done. }
  apply bool_decide_eq_true in Eown. cbn [negb orb].
  destruct (bool_decide (cn_DesiredStatus c = ConnectionStatusDeleted)) eqn:Hlive.
  { intros [= <- <-]. split; [done|]. intros c1 Hc1. congruence. }
  apply bool_decide_eq_false in Hlive. intros E. split.
  2: { intros c1 Hc1. congruence. }
  intros item ->. destruct (node_map _ !! _) as [node|]; [|done].
  destruct (on_world _ w) as [w1 [u|e]] eqn:Ew; [|done]. injection E as <- _. apply on_world_Ok in Ew as [Ed _].
  unfold DeleteConnection in Ed. apply bindM_Ok in Ed as (w2 & [] & Eq & Es).
  assert (Hw2 : w_store w2 = w_store (sw_world w)).
  { destruct (external node); [|by injection Eq as <-]. pose proof (applyExternalStatus_quiet (Q := Q) Do c node
      ConnectionStatusDeleted true (sw_world w)) as Hq. by rewrite Eq in Hq. }
  apply settle_status_wish in Es as (v & _ & Hv & Hp). rewrite Hw2 in Hp.
  assert (Hid : cn_ID c = TrimSpace connectionID) by (by apply (wf_id _ Hwf)). rewrite Hid in Hp.
  destruct (pointwise_lookup_old _ _ _ (TrimSpace connectionID) v Hp) as (c' & Hc' & [_ Hd]); [apply lookup_insert_eq|].
  exists c, c'. split_and!; [done..| |done| |].
  - unfold live. by rewrite bool_decide_eq_false_2.
  - unfold live. rewrite Hd, Hv. done.
  - intros id' o Hne Ho. destruct (pointwise_lookup_old _ _ _ id' o Hp) as (o' & Ho' & Hs); [by rewrite lookup_insert_ne|]. eauto.
Qed.

(** ** Enrolment *)
Definition stored (accountID nodeID : string) (s : Server) (c : Connection) : Prop :=
  connections s !! cn_ID c = Some c ∧ cn_AccountID c = accountID ∧ cn_NodeID c = nodeID.

Lemma bundle_stored {R Q} now ids b (w w' : World (R := R) (Q := Q)) b' :
  on_store (CreateConnectionBundle now ids b) w = (w', Ok b') →
  stored (cn_AccountID (cb_Connection b)) (cn_NodeID (cb_Connection b)) (w_store w') (cb_Connection b').
Proof.
  intros (E & _ & _)%on_store_Ok. apply CreateConnectionBundle_Ok in E as (-> & Hb & _).
  destruct Hb as [_ _ _ _ Hc _ _ _]. split_and!; [|done|done]. rewrite Hc. apply lookup_insert_eq.
Qed.

Section Stored.
Context (is_country : string → bool) (ToASCII : string → option string).
Context (GenerateFromPassword X25519 : string → result string).
Context {R : Type} (Do : HttpRequest → goM R HttpResponse).
Context {Q : Type} (Enqueue : time → Message → goM Q unit).

Lemma enqueue_store fr c (w w' : World (R := R) (Q := Q)) u :
  enqueueAuthRefresh Enqueue fr c w = (w', u) → w_store w' = w_store w.
Proof. intros E. pose proof (quiet_queue (R := R) (Enqueue (fr_now fr 1) (AuthRefresh.NewAuthRefreshMessage (fr_now fr 1) (fr_messageID fr)
    (mkAuthRefreshPayload (cn_NodeID c) (cn_AccountID c) (cn_DesiredVersionMS c)))) w) as Hq.
  unfold enqueueAuthRefresh in E. by rewrite E in Hq. Qed.

Lemma create_branches_stored fr c input (w w' : World (R := R) (Q := Q)) res :
  createNativeHysteria is_country GenerateFromPassword Enqueue fr c input w = (w', Ok res) ∨
  createNativeAmneziaWG is_country ToASCII X25519 Enqueue fr c input w = (w', Ok res) ∨
  createAmneziaAPI is_country Do fr c input w = (w', Ok res) →
  stored (cn_AccountID c) (cn_NodeID c) (w_store w') (res_Connection res).
Proof.
  intros [E|[E|E]].
  - do 3 (apply bindM_Ok in E as (? & ? & _ & E)). cbv zeta in E. apply bindM_Ok in E as (w1 & b & Hb & E).
    apply bindM_Ok in E as (w2 & u & Hq%enqueue_store & [= <- <-]). rewrite Hq. exact (bundle_stored _ _ _ _ _ _ Hb).
  - do 2 (apply bindM_Ok in E as (? & ? & _ & E)). case_match. do 2 (apply bindM_Ok in E as (? & ? & _ & E)).
    cbv zeta in E. apply bindM_Ok in E as (? & ? & _ & E). apply bindM_Ok in E as (w1 & b & Hb & E).
    apply bindM_Ok in E as (w2 & u & Hq%enqueue_store & [= <- <-]). rewrite Hq. exact (bundle_stored _ _ _ _ _ _ Hb).
  - apply bindM_Ok in E as (w0 & config & _ & E). cbv zeta in E. apply bindM_Ok in E as (w1 & created & _ & E).
    unfold store_or_undo in E. destruct (on_store _ _) as [w2 [b|e]] eqn:Hb; [|done]. injection E as <- <-.
    exact (bundle_stored _ _ _ _ _ _ Hb).
Qed.

Lemma enrollment_stored fr node account name (w w' : World (R := R) (Q := Q)) res :
  accounts_keyed (w_store w) →
  CreateEnrollmentConnection is_country ToASCII GenerateFromPassword X25519 Do Enqueue fr node account name w = (w', Ok res) →
  stored (acc_ID account) (nd_ID node) (w_store w') (res_Connection res).
Proof.
  intros Hk. unfold CreateEnrollmentConnection, CreateConnection. cbv zeta. cbn [in_Protocol in_Node in_AccountID in_Name].
  case_match; [done|]. case_match; [done|]. intros E. apply bindM_Ok in E as (w1 & a & [-> Ha]%query_Ok & E).
  apply get_row_Ok, Hk in Ha. rewrite <-Ha. case_match; [done|]. case_match; [done|].
  repeat (case_match; [exact (create_branches_stored fr (new_connection fr a _ _) _ _ _ _ ltac:(eauto))|]). done.
Qed.

Lemma create_items_stored fr account name nodes i (w w' : SWorld (R := R) (Q := Q)) items item :
  accounts_keyed (core (sw_db w)) →
  create_items is_country ToASCII GenerateFromPassword X25519 Do Enqueue fr i account name nodes w = (w', items) →
  item ∈ items → it_Err item = None → stored (acc_ID account) (nd_ID (it_Node item)) (core (sw_db w')) (it_Connection item).
Proof.
  revert i w items. induction nodes as [|node nodes IH]; intros i w items Hk; cbn [create_items].
  - intros [= <- <-] Hin%elem_of_nil. done.
  - destruct (create_item _ _ _ _ _ _ (fr i) account name node w) as [w1 it] eqn:E1.
    destruct (create_items _ _ _ _ _ _ fr (S i) account name nodes w1) as [w2 items2] eqn:E2. intros [= <- <-].
    unfold create_item, on_world, create_enrollment in E1.
    pose proof (CreateEnrollmentConnection_adds is_country ToASCII GenerateFromPassword X25519 Do Enqueue (fr i) node account
      name (sw_world w) Hk) as Hadds.
    destruct (CreateEnrollmentConnection _ _ _ _ _ _ (fr i) node account name (sw_world w)) as [u r] eqn:Er. cbn in Hadds.
    assert (Hw1 : w1 = mkSWorld u (sw_portal w)) by (by destruct r; injection E1 as <- <-). subst w1.
    assert (Hk1 : accounts_keyed (core (sw_db (mkSWorld u (sw_portal w))))).
    { intros id a. cbn. destruct Hadds as [-> _]. apply Hk. }
    intros [<-|Hin]%elem_of_cons Hnone; [|by eapply IH].
    destruct r as [res|e]; injection E1 as <-; [|done]. apply enrollment_stored in Er as (H1 & H2 & H3); [|done].
    apply create_items_grown in E2 as (Hg & _ & _); [|done]. split_and!; [|done|done]. by apply (gr_kept _ _ _ _ Hg).
Qed.
End Stored.

Lemma failed_false it : failed it = false ↔ it_Err it = None.
Proof. unfold failed. by destruct (it_Err it). Qed.

Lemma successes_all items :
  length (filter (fun it => failed it = false) items) = length items ↔ Forall (fun it => it_Err it = None) items.
Proof.
  induction items as [|it items IH]; [by split|]. rewrite filter_cons, list.Forall_cons, <-IH, <-failed_false.
  pose proof (length_filter (fun it => failed it = false) items) as Hle.
  destruct (decide (failed it = false)); cbn [length]; [|split; [lia|naive_solver]]. split; [|naive_solver]. split; [done|lia].
Qed.

(** C34. A successful enrolment has created exactly one account, active and with
    the trimmed names, and reports one outcome for every selected node, in the
    order of the selection: an outcome without an error is a stored connection
    of the new account on that node; every connection that was not there before
    belongs to the new account and lies on a selected node; the result is marked
    partial exactly when some node failed; and the summary it carries could be
    read.  An enrolment whose input or nodes are refused creates nothing. *)
Theorem Enroll_spec is_country ToASCII bcrypt X25519 {R Q} (Do : HttpRequest → goM R HttpResponse)
    (Enqueue : time → Message → goM Q unit) now newID fr input (w w' : SWorld (R := R) (Q := Q)) res :
  accounts_keyed (core (sw_db w)) →
  Enroll is_country ToASCII bcrypt X25519 Do Enqueue now newID fr input w = (w', res) →
  match res with
  | Err _ => w' = w
  | Ok er =>
      let account := mkAccount newID (TrimSpace (en_Username input)) (TrimSpace (en_DisplayName input)) AccountStatusActive
                       (now 0) (now 0) in
      accounts (core (sw_db w)) !! newID = None ∧
      accounts (core (sw_db w')) = <[newID := account]> (accounts (core (sw_db w))) ∧ er_Account er = account ∧
      Ok (it_Node <$> er_Results er) = SelectEnrollmentNodes (en_NodeIDs input) (core (sw_db w)) ∧
      (∀ it, it ∈ er_Results er → it_Err it = None →
         stored newID (nd_ID (it_Node it)) (core (sw_db w')) (it_Connection it)) ∧
      (∀ id c, connections (core (sw_db w')) !! id = Some c → connections (core (sw_db w)) !! id = Some c ∨
         cn_AccountID c = newID ∧ cn_NodeID c ∈ (nd_ID ∘ it_Node) <$> er_Results er) ∧
      (er_Partial er = false ↔ Forall (fun it => it_Err it = None) (er_Results er)) ∧
      ∃ sm, er_Summary er = Ok sm ∧ as_Account sm = account
  end.
Proof.
  intros Hk. unfold Enroll, mbind, goM_bind, read_db, liftM. cbv beta iota zeta.
  destruct (Validate input) as [[]|e]; [|by intros [= <- <-]].
  destruct (SelectEnrollmentNodes _ _) as [nodes|e] eqn:En; [|by intros [= <- <-]].
  unfold create_account, on_world, on_store, CreateAccount, transaction, sql_insert.
  cbn [acc_Username acc_DisplayName]. destruct (accounts _ !! newID) as [a|] eqn:Ea.
  { cbn. intros [= <- <-]. by destruct w as [[] ?]. }
  cbn [mbind result_bind]. cbn iota.
  set (account := mkAccount _ _ _ _ _ _). set (w1 := mkSWorld _ _). unfold enroll_nodes.
  destruct (create_items _ _ _ _ _ _ _ _ _ _ _ w1) as [w2 items] eqn:Ec. intros [= <- <-].
  assert (Hk1 : accounts_keyed (core (sw_db w1))).
  { intros id x. cbn. intros [[<- <-]|[_ Hx]]%lookup_insert_Some; [done|by apply Hk]. }
  pose proof Ec as (Hg & _ & Hn)%create_items_grown; [|done]. destruct Hg as [Ga _ Gn _].
  cbn [er_Account er_Results er_Partial er_Summary]. split_and!; [done|done|done|by rewrite Hn|..].
  - intros it Hin Hnone. by eapply (create_items_stored _ _ _ _ _ _ _ account).
  - intros id c [Hc|(_ & Hacc & Hin)]%Gn; [by left|right]. split; [done|]. by rewrite list_fmap_compose, Hn.
  - rewrite negb_false_iff, bool_decide_eq_true, <-successes_all, <-Hn, length_fmap. done.
  - unfold Summary. assert (Hget : GetAccount (acc_ID account) (core (sw_db w2)) = Ok account).
    { apply get_row_Ok. rewrite Ga. cbn. apply lookup_insert_eq. }
    change (acc_ID account) with newID in *. cbn. cbn in Hget. rewrite Hget. cbn. eexists. split; [reflexivity|done].
Qed.

(** ** A sample account with a policy of three connections *)
Definition demo_self_ops : list store_op :=
  demo_ops ++ [OpCreateHysteria2NodeConfig (at_ms 1100) demo_hy2_config].
Definition demo_policy_ops : list database_op :=
  [DbCreatePolicyTag (at_ms 100) "tag1" (mkPolicyTag EmptyString "basic" "Basic" [" nod "; "other"] 3 EmptyString zero_time zero_time);
   DbAssignPolicyTag (at_ms 101) "asg1" (mkAccountPolicyTag EmptyString "acc" "tag1" zero_time)].
Definition demo_database : Database := exec_dbs demo_policy_ops (exec_dbs (map DbCore demo_self_ops) empty_database).

Lemma exec_dbs_core ops d : core (exec_dbs (map DbCore ops) d) = exec_ops ops (core d).
Proof. revert d. induction ops as [|op ops IH]; intros d; [done|]. exact (IH (exec_db (DbCore op) d)). Qed.

Lemma exec_dbs_wf ops d : portal_wf d → portal_wf (exec_dbs ops d).
Proof. revert d. induction ops as [|op ops IH]; intros d Hd; [done|]. cbn. by apply IH, exec_db_wf. Qed.

Lemma policy_ops_core now1 id1 tag now2 id2 a d :
  core (exec_dbs [DbCreatePolicyTag now1 id1 tag; DbAssignPolicyTag now2 id2 a] d) = core d.
Proof.
  cbn. trans (core (CreatePolicyTag now1 id1 tag d).1).
  - generalize (CreatePolicyTag now1 id1 tag d).1 as d1. intros d1. apply (transaction_inv (fun d' => core d' = core d1)); [|done].
    intros d' v (u & _ & E)%bind_Ok. cbv zeta in E. case_match; [by injection E as <- _|].
    apply bind_Ok in E as (? & _ & (t & _ & [= <- _])%bind_Ok). done.
  - apply (transaction_inv (fun d' => core d' = core d)); [|done]. cbv zeta. by intros d' v (t & _ & [= <- _])%bind_Ok.
Qed.

Lemma demo_database_wf : portal_wf demo_database ∧ accounts_keyed (core demo_database) ∧ server_wf (core demo_database).
Proof.
  assert (Hd : core demo_database = exec_ops demo_self_ops empty_server).
  { unfold demo_database, demo_policy_ops. rewrite policy_ops_core. apply exec_dbs_core. }
  split_and!; [|rewrite Hd; apply exec_ops_keyed|rewrite Hd; apply exec_ops_wf, server_wf_empty].
  apply exec_dbs_wf, exec_dbs_wf, portal_wf_empty.
Qed.

Lemma EffectivePolicy_spec_witness : "nod" ∈ ep_AllowedNodeIDs (EffectivePolicy "acc" demo_database) ↔
  "nod" ≠ EmptyString ∧ ∃ tag raw, holds_tag "acc" demo_database tag ∧ raw ∈ pt_AllowedNodeIDs tag ∧ TrimSpace raw = "nod".
Proof. exact (proj1 (EffectivePolicy_spec "acc" demo_database (proj1 demo_database_wf)) "nod"). Defined.

(** The tag grants the node under its trimmed name, and three connections. *)
Example demo_policy : EffectivePolicy "acc" demo_database = mkPolicy ["nod"; "other"] 3 ∨
  EffectivePolicy "acc" demo_database = mkPolicy ["other"; "nod"] 3.
Proof. vm_compute. first [left; reflexivity|right; reflexivity]. Qed.

Definition demo_sworld : SWorld := mkSWorld (mkWorld (core demo_database) (mkStore ∅ ∅) tt) (portal demo_database).
Lemma core_sworld {R Q} d (q : Q) (r : R) : core (sw_db (mkSWorld (mkWorld (core d) q r) (portal d))) = core d.
Proof. done. Qed.
Lemma demo_sworld_wf : accounts_keyed (core (sw_db demo_sworld)) ∧ server_wf (core (sw_db demo_sworld)).
Proof. unfold demo_sworld. rewrite core_sworld. exact (proj2 demo_database_wf). Qed.
Definition demo_country (code : string) : bool := bool_decide (code = "DE").
Definition demo_bcrypt (p : string) : result string := Ok ("bcrypt:" +:+ p).
Definition demo_create : SWorld * result CreateConnectionResult :=
  CreateConnections demo_country Some demo_bcrypt Ok no_http sql_enqueue (fun _ => demo_fresh 3000)
    (mkCreateConnectionInput "acc" " tablet " ["nod"]) demo_sworld.

Lemma demo_create_ok : ∃ w' res, demo_create = (w', Ok res) ∧ cr_Partial res = false.
Proof.
  assert (H : match demo_create.2 with Ok res => cr_Partial res = false | Err _ => False end) by (vm_compute; reflexivity).
  destruct demo_create as [w' [res|e]]; [eauto|done].
Qed.

Lemma self_service_within_policy_witness :
  ∃ w' res, demo_create = (w', Ok res) ∧
    (ep_ConnectionLimit (EffectivePolicy "acc" (sw_db demo_sworld)) ≠ ConnectionLimitUnlimited →
     (CountActiveConnectionsForAccount "acc" (core (sw_db w')) <= ep_ConnectionLimit (EffectivePolicy "acc" (sw_db demo_sworld)))%Z).
Proof.
  destruct demo_create_ok as (w' & res & E & _). exists w', res. split; [exact E|]. unfold demo_create in E.
  pose proof (self_service_within_policy demo_country Some demo_bcrypt Ok no_http sql_enqueue (fun _ => demo_fresh 3000)
    (mkCreateConnectionInput "acc" " tablet " ["nod"]) demo_sworld w' (Ok res) (proj1 demo_sworld_wf) E) as H.
  cbn [ci_AccountID] in H. destruct H as (_ & _ & H). exact H.
Defined.

Definition demo_delete : SWorld * result ItemResult :=
  DeleteOwnConnection no_http sql_enqueue (demo_fresh 3000) "acc" " con-a " demo_sworld.

Lemma demo_delete_ok : ∃ w' res, demo_delete = (w', Ok res).
Proof.
  assert (H : is_ok demo_delete.2 = true) by (vm_compute; reflexivity).
  destruct demo_delete as [w' [res|e]]; [eauto|discriminate H].
Qed.

Lemma delete_own_only_witness :
  ∃ w' c c', demo_delete.1 = w' ∧ connections (core (sw_db demo_sworld)) !! TrimSpace " con-a " = Some c ∧ cn_AccountID c = "acc" ∧
    connections (core (sw_db w')) !! TrimSpace " con-a " = Some c' ∧ live c' = false.
Proof.
  destruct demo_delete_ok as (w' & res & E). assert (Ew : demo_delete.1 = w') by (rewrite E; exact eq_refl). unfold demo_delete in E.
  destruct (proj1 (delete_own_only no_http sql_enqueue (demo_fresh 3000) "acc" " con-a " demo_sworld w' (Ok res)
    (proj1 demo_sworld_wf) (proj2 demo_sworld_wf) E) res eq_refl) as (c & c' & H1 & H2 & _ & H3 & H4 & _).
  exists w', c, c'. split; [exact Ew|]. split; [exact H1|]. split; [exact H2|]. split; [exact H3|exact H4].
Defined.

Definition demo_enroll : SWorld * result EnrollmentResult :=
  Enroll demo_country Some demo_bcrypt Ok no_http sql_enqueue (fun _ => at_ms 4000) "acc2" (fun _ => demo_fresh 4000)
    (mkEnrollmentInput " bob " EmptyString "phone" ["nod"; " nod "]) demo_sworld.

Lemma demo_enroll_ok : ∃ w' er, demo_enroll = (w', Ok er) ∧ er_Partial er = false.
Proof.
  assert (H : match demo_enroll.2 with Ok er => er_Partial er = false | Err _ => False end) by (vm_compute; reflexivity).
  destruct demo_enroll as [w' [er|e]]; [eauto|done].
Qed.

Lemma Enroll_spec_witness :
  ∃ w' er, demo_enroll = (w', Ok er) ∧ accounts (core (sw_db demo_sworld)) !! "acc2" = None ∧
    Ok (it_Node <$> er_Results er) = SelectEnrollmentNodes ["nod"; " nod "] (core (sw_db demo_sworld)).
Proof.
  destruct demo_enroll_ok as (w' & er & E & _). exists w', er. split; [exact E|]. unfold demo_enroll in E.
  destruct (Enroll_spec demo_country Some demo_bcrypt Ok no_http sql_enqueue (fun _ => at_ms 4000) "acc2" (fun _ => demo_fresh 4000)
    (mkEnrollmentInput " bob " EmptyString "phone" ["nod"; " nod "]) demo_sworld w' (Ok er) (proj1 demo_sworld_wf) E)
    as (H1 & _ & _ & H2 & _). split; [exact H1|exact H2].
Defined.
