(* ===== verification/ClientApp.v ===== *)
(** * ClientApp: the portal's requests

    The handlers of [src/internal/server/transport/http/client/app.go] and
    [session.go] on top of [ClientAuth], [Subscriptions] and [SelfService].  The
    body of a request is given decoded, [None] when it is no JSON of the
    expected form.  What a handler answers with is a record; the JSON views of
    accounts, connections and configurations are the rows themselves. *)

From S2P Require Import Prelude GoLib GoText GoCrypto GoJson GoUrl GoUrlParse Sql ServerModel ServerStore StoreInvariant Samples Tables Httpx PortalStore Subscriptions AuthStore AdminAuth ClientAuth AmneziaClient Queue Connections SelfService.
From Stdlib Require Import Ascii.
Import GoTime GoStrings.

Definition bad_json : Response := Error StatusBadRequest "invalid json".

Definition writeClientSessionError (err : error) (errorID : string) : Response :=
  if bool_decide (err = ErrNotFound) then Error StatusNotFound "not found"
  else if bool_decide (err = ErrForbidden) || bool_decide (err = ErrConnectionLimitReached) then Error StatusForbidden "forbidden"
  else PrivateError StatusBadRequest "request failed" errorID.

(** ** Hosts *)
Definition hostWithoutPort (tables : CaseTables) (value : string) : string :=
  match UrlParse.SplitHostPort value with
  | Some (host, _) => u_ToLower tables host
  | None => u_ToLower tables value
  end.

Definition sameHostHeader (tables : CaseTables) (value requestHost : string) : bool :=
  let value := TrimSpace value in
  if bool_decide (value = EmptyString) then true else
  match UrlParse.Parse value with
  | None => false
  | Some parsed =>
      if bool_decide (UrlParse.Host parsed = EmptyString) then false
      else bool_decide (hostWithoutPort tables (UrlParse.Host parsed) = hostWithoutPort tables requestHost)
  end.

(** ** What requests carry and answers hold *)
Record ConfigsInput := mkConfigsInput {
  co_Token : string;
  co_Challenge : string;
  co_Answer : string;
  co_PoWNonce : string;
  co_ChallengeState : liteChallenge;
}.
Inductive ConfigsPayload :=
| AskChallenge (challenge : liteChallenge) (powBits : nat)
| ShowConfigs (summary : AccountSummary) (policy : EffectiveConnectionPolicy) (nodes : list Node) (pin_enabled : bool) (csrf : string).

Record LinkInput := mkLinkInput { li_Token : string; li_Profile : string; li_ConnectionID : string }.
Record LinkPayload := mkLinkPayload { lp_ID : string; lp_URL : string }.
Record PasswordInput := mkPasswordInput { pi_Token : string; pi_Password : string }.
Record RecoverInput := mkRecoverInput { ri_Token : string; ri_RecoveryCode : string; ri_NewPassword : string }.
Record SetupPayload := mkSetupPayload { su_Timings : Timings; su_Account : Account; su_RecoveryCode : string; su_CSRF : string }.
Record LoginPayload := mkLoginPayload {
  lo_Timings : Timings; lo_SessionToken : string; lo_Session : AuthSession; lo_Account : Account; lo_CSRF : string }.
Record RecoverPayload := mkRecoverPayload { re_RecoveryCode : string; re_CSRF : string }.
Record RefreshPayload := mkRefreshPayload { rf_Timings : Timings; rf_Account : Account; rf_CSRF : string }.

(** What a link request draws: the subscription token and the short link. *)
Record HPFresh := mkHPFresh {
  hf_clock : nat → time;
  hf_tokenID : string;
  hf_token : result string;
  hf_link : LinkFresh;
}.

Section App.
Context (tables : CaseTables) (other_letter other_digit : string → bool) (app_secret : string).
Context (Matches : string → string → bool) (GenerateFromPassword : string → result string).
Context (encodeQRCodePNG : string → result string).

Definition with_db (w : ClientDB) (d : Database) : ClientDB := mkClientDB d (cd_auth w).
Definition with_auth (w : ClientDB) (d : AuthDB) : ClientDB := mkClientDB (cd_db w) d.

Definition not_allowed {P} (w : ClientDB) : ClientDB * Answer P := (w, Refused (status_only StatusMethodNotAllowed)).

Definition portal_token (clock : nat → time) (errorID rawToken : string) (w : ClientDB) : ClientDB * (AccountPortalToken + Response) :=
  let '(d, r) := authenticatePortalToken Hash clock errorID rawToken (cd_db w) in (with_db w d, r).

(** The holder of a portal link that has also passed the challenge: its token
    and a light cookie for that very token. *)
Definition lite_holder (clock : nat → time) (errorID : string) (r : Request) (rawToken : string) (w : ClientDB)
    : ClientDB * (AccountPortalToken + Response) :=
  match portal_token clock errorID rawToken w with
  | (w, inr answer) => (w, inr answer)
  | (w, inl token) =>
      match authenticateLite app_secret (fun i => clock (3 + i)) r with
      | inr answer => (w, inr answer)
      | inl tokenHash =>
          if bool_decide (tokenHash = pk_TokenHash token) then (w, inl token)
          else (w, inr (Error StatusForbidden "lite cookie token mismatch"))
      end
  end.

Definition hasStrongPasswordCredential (accountID : string) (d : AuthDB) : bool :=
  match FindActiveUserIdentityByAccountID accountID d with
  | Err _ => false
  | Ok ident =>
      match GetAuthCredential (id_ID ident) AuthCredentialTypePassword d with
      | Err _ => false
      | Ok credential => bool_decide (cr_Status credential = StatusActive) &&
                         negb (bool_decide (TrimSpace (cr_SecretHash credential) = EmptyString))
      end
  end.

Definition allowedNodeViews (policy : EffectiveConnectionPolicy) (s : Server) : list Node :=
  filter (fun n => nd_ID n ∈ ep_AllowedNodeIDs policy ∧ nd_Status n = StatusActive) (ListNodes s).

(** [None]: the request is never answered. *)
Definition configs (clock : nat → time) (nonce : result string) (errorID : string) (r : Request) (input : option ConfigsInput)
    (w : ClientDB) : option (ClientDB * Answer ConfigsPayload) :=
  if negb (bool_decide (rq_Method r = "POST")) then Some (not_allowed w) else
  match input with
  | None => Some (w, Refused bad_json)
  | Some input =>
  match portal_token clock errorID (co_Token input) w with
  | (w, inr answer) => Some (w, Refused answer)
  | (w, inl token) =>
  match GetAccount (pk_AccountID token) (core (cd_db w)) with
  | Err e => Some (w, Refused (StoreError e errorID))
  | Ok account =>
      if bool_decide (lc_Signature (co_ChallengeState input) = EmptyString) && bool_decide (co_Challenge input = EmptyString) then
        challenge ← newLiteChallenge tables app_secret (clock 3) nonce (co_Token input) (acc_Username account);
        Some (w, match challenge with
                 | Err _ => Refused (Error StatusForbidden "account username is too short")
                 | Ok c => Served StatusOK [] (AskChallenge c liteChallengePoWBits)
                 end)
      else
        passed ← (if negb (bool_decide (co_Challenge input = EmptyString))
                  then Some (challengeMatches tables (acc_Username account) (co_Challenge input))
                  else verifyLiteChallenge tables app_secret (clock 3) (co_Token input) (acc_Username account) (co_Answer input)
                         (co_PoWNonce input) (co_ChallengeState input));
        if negb passed then Some (w, Refused (Error StatusForbidden "invalid challenge")) else
        let '(cookie, csrf) := issueLiteCookie tables app_secret (fun i => clock (4 + i)) r (co_Token input) in
        Some (w, match Summary (clock 6) (pk_AccountID token) (cd_db w) with
                 | Err e => Refused (with_cookies [cookie] (StoreError e errorID))
                 | Ok summary =>
                     let policy := EffectivePolicy (pk_AccountID token) (cd_db w) in
                     Served StatusOK [cookie] (ShowConfigs summary policy (allowedNodeViews policy (core (cd_db w)))
                       (hasStrongPasswordCredential (pk_AccountID token) (cd_auth w)) csrf)
                 end)
  end
  end
  end.

(** The link of a connection of the account, with a token and a short link made
    on demand; [subject] is the identifier the token is asked for. *)
Definition connection_link (subject : Connection → string) (fr : HPFresh) (errorID accountID connectionID profile : string) (w : ClientDB)
    : ClientDB * Answer LinkPayload :=
  let connectionID := TrimSpace connectionID in
  if bool_decide (connectionID = EmptyString) then (w, Refused (Error StatusBadRequest "connection_id is required")) else
  let unavailable := (w, Refused (Error StatusForbidden "connection is unavailable")) in
  match GetConnection connectionID (core (cd_db w)) with
  | Err _ => unavailable
  | Ok connection =>
      if negb (bool_decide (cn_AccountID connection = accountID)) || bool_decide (cn_DesiredStatus connection = ConnectionStatusDeleted)
      then unavailable
      else match GetOrCreateSubscription Hash (hf_clock fr) (hf_tokenID fr) (hf_token fr) (subject connection) zero_time (cd_db w) with
           | (d, Err e) => (with_db w d, Refused (StoreError e errorID))
           | (d, Ok (_, token)) =>
               match GetOrCreateHPShortLink (hf_link fr) token (or_all profile) d with
               | (d, Err e) =>
                   (with_db w d, Refused (if bool_decide (e = ErrNotFound) then StoreError e errorID
                                          else PrivateError StatusBadGateway "subscription link is unavailable" errorID))
               | (d, Ok link) => (with_db w d, Served StatusOK [] (mkLinkPayload (sl_ID link) (sl_EncryptedURL link)))
               end
           end
  end.

Definition hpLink (clock : nat → time) (fr : HPFresh) (errorID : string) (r : Request) (input : option LinkInput) (w : ClientDB)
    : ClientDB * Answer LinkPayload :=
  if negb (bool_decide (rq_Method r = "POST")) then not_allowed w else
  match input with
  | None => (w, Refused bad_json)
  | Some input =>
      match lite_holder clock errorID r (li_Token input) w with
      | (w, inr answer) => (w, Refused answer)
      | (w, inl token) => connection_link cn_ID fr errorID (pk_AccountID token) (li_ConnectionID input) (li_Profile input) w
      end
  end.

(** The kind and the identifier of what the code shows. *)
Definition qr (clock : nat → time) (errorID : string) (r : Request) (input : option (string * string * string)) (w : ClientDB)
    : ClientDB * Response :=
  if negb (bool_decide (rq_Method r = "POST")) then (w, status_only StatusMethodNotAllowed) else
  match input with
  | None => (w, bad_json)
  | Some (rawToken, kind, id) =>
      match lite_holder clock errorID r rawToken w with
      | (w, inr answer) => (w, answer)
      | (w, inl token) => (w, writeReferencedQRCode encodeQRCodePNG (clock 5) errorID kind id (pk_AccountID token) (cd_db w))
      end
  end.

(** ** Passwords *)

(** A fresh recovery code for the identity: the code, or the refusal. *)
Definition issue_recovery (fr : StrongFresh) (errorID identityID : string) (w : ClientDB) : ClientDB * (string + Response) :=
  match newStrongRecoveryCode (sf_recovery fr) with
  | Err _ => (w, inr (PrivateError StatusInternalServerError "internal error" errorID))
  | Ok (code, hash) =>
      match CreateAuthRecoveryCode (sf_clock fr 5) (sf_recoveryID fr)
              (mkAuthRecoveryCode EmptyString identityID hash StatusActive zero_time zero_time zero_time) (cd_auth w) with
      | (d, Err e) => (with_auth w d, inr (StoreError e errorID))
      | (d, Ok _) => (with_auth w d, inl code)
      end
  end.

Definition setup_user := setupStrongUser tables other_letter other_digit GenerateFromPassword.
Definition late (fr : StrongFresh) (i : nat) : time := sf_clock fr (6 + i).

Definition setupPassword (clock : nat → time) (fr : StrongFresh) (errorID : string) (r : Request) (input : option PasswordInput)
    (w : ClientDB) : ClientDB * Answer SetupPayload :=
  if negb (bool_decide (rq_Method r = "POST")) then not_allowed w else
  match input with
  | None => (w, Refused bad_json)
  | Some input =>
  match lite_holder clock errorID r (pi_Token input) w with
  | (w, inr answer) => (w, Refused answer)
  | (w, inl token) =>
  match GetAccount (pk_AccountID token) (core (cd_db w)) with
  | Err e => (w, Refused (StoreError e errorID))
  | Ok account =>
      if hasStrongPasswordCredential (acc_ID account) (cd_auth w)
      then (w, Refused (Error StatusConflict "password is already set; use login or recovery")) else
      match setup_user fr account (pi_Password input) (cd_auth w) with
      | (d, Err e) => (with_auth w d, Refused (writeClientSessionError e errorID))
      | (d, Ok (rawSession, _, session)) =>
          match issue_recovery fr errorID (se_IdentityID session) (with_auth w d) with
          | (w, inr answer) => (w, Refused answer)
          | (w, inl code) =>
              let '(cookies, csrf) := issueStrongCookie tables app_secret (late fr) r rawSession in
              (w, Served StatusCreated cookies (mkSetupPayload (strongAuthTimings (late fr 4) session) account code csrf))
          end
      end
  end
  end
  end.

Definition login (clock : nat → time) (fr : StrongFresh) (errorID : string) (r : Request) (input : option PasswordInput)
    (w : ClientDB) : ClientDB * Answer LoginPayload :=
  if negb (bool_decide (rq_Method r = "POST")) then not_allowed w else
  match input with
  | None => (w, Refused bad_json)
  | Some input =>
  if bool_decide (TrimSpace (pi_Token input) = EmptyString) then (w, Refused (Error StatusBadRequest "token is required")) else
  match lite_holder clock errorID r (pi_Token input) w with
  | (w, inr answer) => (w, Refused answer)
  | (w, inl token) =>
  match GetAccount (pk_AccountID token) (core (cd_db w)) with
  | Err e => (w, Refused (StoreError e errorID))
  | Ok account =>
      match loginStrongUser Matches fr account (pi_Password input) (cd_auth w) with
      | (d, Err e) => (with_auth w d, Refused (writeClientSessionError e errorID))
      | (d, Ok (rawSession, _, session)) =>
          let '(cookies, csrf) := issueStrongCookie tables app_secret (late fr) r rawSession in
          (with_auth w d, Served StatusOK cookies
             (mkLoginPayload (strongAuthTimings (late fr 4) session) (splitStrongRawTokens rawSession).1 session account csrf))
      end
  end
  end
  end.

(** The first active recovery code with the hash of the code that was sent. *)
Definition matching_code (identityID code : string) (d : AuthDB) : option AuthRecoveryCode :=
  snd <$> list_find (fun c => rcv_Status c = StatusActive ∧ rcv_CodeHash c = recoveryCodeHash tables code) (ListAuthRecoveryCodes identityID d).

Definition recover (clock : nat → time) (fr : StrongFresh) (errorID : string) (r : Request) (input : option RecoverInput)
    (w : ClientDB) : ClientDB * Answer RecoverPayload :=
  if negb (bool_decide (rq_Method r = "POST")) then not_allowed w else
  match input with
  | None => (w, Refused bad_json)
  | Some input =>
  match lite_holder clock errorID r (ri_Token input) w with
  | (w, inr answer) => (w, Refused answer)
  | (w, inl token) =>
  match GetAccount (pk_AccountID token) (core (cd_db w)) with
  | Err e => (w, Refused (StoreError e errorID))
  | Ok account =>
  match FindActiveUserIdentityByAccountID (acc_ID account) (cd_auth w) with
  | Err e => (w, Refused (StoreError e errorID))
  | Ok ident =>
  match matching_code (id_ID ident) (ri_RecoveryCode input) (cd_auth w) with
  | None => (w, Refused (Error StatusUnauthorized "invalid credentials"))
  | Some code =>
      let d := (MarkAuthRecoveryCodeUsed (clock 5) (rcv_ID code) (cd_auth w)).1 in
      let d := RevokeAuthSessionsByIdentityID (clock 6) (id_ID ident) d in
      match setup_user fr account (ri_NewPassword input) d with
      | (d, Err e) => (with_auth w d, Refused (writeClientSessionError e errorID))
      | (d, Ok (rawSession, _, session)) =>
          match issue_recovery fr errorID (se_IdentityID session) (with_auth w d) with
          | (w, inr answer) => (w, Refused answer)
          | (w, inl code) =>
              let '(cookies, csrf) := issueStrongCookie tables app_secret (late fr) r rawSession in
              (w, Served StatusOK cookies (mkRecoverPayload code csrf))
          end
      end
  end
  end
  end
  end
  end.

(** ** Sessions *)
Definition stale (now : time) (s : AuthSession) : bool :=
  bool_decide (se_RefreshTokenHash s = EmptyString) || After now (se_RefreshExpiresAt s) || After now (se_RefreshAbsoluteUntil s).

Definition unauthorized {P} : Answer P := Refused (Error StatusUnauthorized "unauthorized").

(** The rotation of the refresh token of a session, and what is answered. *)
Definition rotate_session (fr : StrongFresh) (errorID : string) (r : Request) (refreshHash : string) (w : ClientDB)
    : ClientDB * Answer RefreshPayload :=
  let now := sf_clock fr 0 in
  match GetAuthSessionByRefreshHashForRotation (sf_clock fr 2) refreshHash strongReuseGrace (cd_auth w) with
  | Err _ => (w, unauthorized)
  | Ok session =>
      if stale now session then (w, unauthorized) else
      match sf_token fr, sf_refresh fr with
      | Ok rawSession, Ok rawRefresh =>
          match RotateAuthRefreshToken (sf_clock fr 3) (ai_token (sf_ids fr)) refreshHash (Hash rawSession)
                  (Add now strongSessionTTL) (Hash rawRefresh) (Add now strongRefreshTTL) strongReuseGrace (cd_auth w) with
          | (d, Err _) => (with_auth w d, unauthorized)
          | (d, Ok rotation) =>
              let w := with_auth w d in
              let session := ro_Session rotation in
              if stale now session then (w, unauthorized) else
              match strongContextFromSessionIgnoringAccessExpiry session w with
              | None => (w, unauthorized)
              | Some ctx =>
                  let '(cookies, csrf) := issueStrongCookie tables app_secret (late fr) r
                    (rawSession +:+ ":" +:+ (if ro_Grace rotation then EmptyString else rawRefresh)) in
                  (w, Served StatusOK cookies (mkRefreshPayload (strongAuthTimings (late fr 4) session) (sc_Account ctx) csrf))
              end
          end
      | _, _ => (w, Refused (PrivateError StatusInternalServerError "internal error" errorID))
      end
  end.

(** [clock] is read for the refresh cookie and the token; the access cookie may
    have expired but has to be there. *)
Definition refresh (clock : nat → time) (fr : StrongFresh) (errorID : string) (r : Request) (w : ClientDB)
    : ClientDB * Answer RefreshPayload :=
  if negb (bool_decide (rq_Method r = "POST")) then not_allowed w else
  if negb (sameHostHeader tables (rq_Header r "Origin") (rq_Host r)) || negb (sameHostHeader tables (rq_Header r "Referer") (rq_Host r))
  then (w, Refused (Error StatusForbidden "cross-site client request rejected")) else
  let required := (w, Refused (Error StatusUnauthorized "refresh token required")) in
  match rq_Cookie r strongRefreshCookieName with
  | None => required
  | Some value =>
      if bool_decide (TrimSpace value = EmptyString) then required else
      let refreshHash := validateStrongRefreshCookie app_secret (clock 0) value in
      if bool_decide (refreshHash = EmptyString) then required else
      match rq_Cookie r strongCookieName with
      | None => (w, Refused (Error StatusForbidden "strong session and csrf required"))
      | Some access =>
          if validateStrongCSRF app_secret (clock 1) access (rq_Header r "X-CSRF-Token")
          then rotate_session fr errorID r refreshHash w
          else (w, Refused (Error StatusForbidden "strong session and csrf required"))
      end
  end.

(** Whoever asks loses the cookies; whoever is signed in also the sessions. *)
Definition logout (clock : nat → time) (r : Request) (w : ClientDB) : ClientDB * Answer unit :=
  if negb (bool_decide (rq_Method r = "POST")) then not_allowed w else
  let served w := (w, Served StatusOK (clearLiteCookie :: clearStrongCookie) tt) in
  match authenticateStrong app_secret clock r false w with
  | (w, inr _) => served w
  | (w, inl ctx) =>
      if bool_decide (id_ID (sc_Identity ctx) = EmptyString) then served w
      else served (with_auth w (RevokeAuthSessionsByIdentityID (clock 4) (id_ID (sc_Identity ctx)) (cd_auth w)))
  end.

Definition sessionConfigs (clock : nat → time) (errorID : string) (r : Request) (w : ClientDB)
    : ClientDB * Answer (AccountSummary * EffectiveConnectionPolicy * list Node) :=
  if negb (bool_decide (rq_Method r = "GET")) then not_allowed w else
  match authenticateStrong app_secret clock r false w with
  | (w, inr answer) => (w, Refused answer)
  | (w, inl ctx) =>
      (w, match Summary (clock 4) (acc_ID (sc_Account ctx)) (cd_db w) with
          | Err e => Refused (StoreError e errorID)
          | Ok summary =>
              let policy := EffectivePolicy (acc_ID (sc_Account ctx)) (cd_db w) in
              Served StatusOK [] (summary, policy, allowedNodeViews policy (core (cd_db w)))
          end)
  end.

(** A new code ends every session. *)
Definition sessionRecoveryCode (clock : nat → time) (fr : StrongFresh) (errorID : string) (r : Request) (w : ClientDB)
    : ClientDB * Answer string :=
  if negb (bool_decide (rq_Method r = "POST")) then not_allowed w else
  match authenticateStrong app_secret clock r true w with
  | (w, inr answer) => (w, Refused answer)
  | (w, inl ctx) =>
      match issue_recovery fr errorID (id_ID (sc_Identity ctx)) w with
      | (w, inr answer) => (w, Refused answer)
      | (w, inl code) =>
          (with_auth w (RevokeAuthSessionsByIdentityID (late fr 0) (id_ID (sc_Identity ctx)) (cd_auth w)), Served StatusOK [] code)
      end
  end.

Definition sessionHPLink (clock : nat → time) (fr : HPFresh) (errorID : string) (r : Request) (input : option LinkInput) (w : ClientDB)
    : ClientDB * Answer LinkPayload :=
  if negb (bool_decide (rq_Method r = "POST")) then not_allowed w else
  match authenticateStrong app_secret clock r true w with
  | (w, inr answer) => (w, Refused answer)
  | (w, inl ctx) =>
      match input with
      | None => (w, Refused bad_json)
      | Some input => connection_link (fun _ => TrimSpace (li_ConnectionID input)) fr errorID (acc_ID (sc_Account ctx))
                        (li_ConnectionID input) (li_Profile input) w
      end
  end.

Definition sessionQR (clock : nat → time) (errorID : string) (r : Request) (input : option (string * string)) (w : ClientDB)
    : ClientDB * Response :=
  if negb (bool_decide (rq_Method r = "POST")) then (w, status_only StatusMethodNotAllowed) else
  match authenticateStrong app_secret clock r true w with
  | (w, inr answer) => (w, answer)
  | (w, inl ctx) =>
      match input with
      | None => (w, bad_json)
      | Some (kind, id) => (w, writeReferencedQRCode encodeQRCodePNG (clock 4) errorID kind id (acc_ID (sc_Account ctx)) (cd_db w))
      end
  end.

(** ** Connections of one's own *)
Section Own.
Context (is_country : string → bool) (ToASCII : string → option string) (X25519 : string → result string).
Context {R : Type} (Do : HttpRequest → goM R HttpResponse).
Context {Q : Type} (Enqueue : time → Message → goM Q unit).

Record AppWorld := mkAppWorld { aw_self : SWorld (R := R) (Q := Q); aw_auth : AuthDB }.
Definition client_db (w : AppWorld) : ClientDB := mkClientDB (sw_db (aw_self w)) (aw_auth w).

(** Authentication writes to the identity database only. *)
Definition authenticated {P} (clock : nat → time) (r : Request) (w : AppWorld)
    (k : strongAuthContext → AppWorld → AppWorld * Answer P) : AppWorld * Answer P :=
  match authenticateStrong app_secret clock r true (client_db w) with
  | (d, inr answer) => (mkAppWorld (aw_self w) (cd_auth d), Refused answer)
  | (d, inl ctx) => k ctx (mkAppWorld (aw_self w) (cd_auth d))
  end.

Record CreatedPayload := mkCreatedPayload { cp_Results : list ItemResult; cp_Partial : bool; cp_Success : nat }.

(** The name and the nodes that are asked for. *)
Definition createSessionConnections (clock : nat → time) (fr : nat → Fresh) (errorID : string) (r : Request)
    (input : option (string * list string)) (w : AppWorld) : AppWorld * Answer CreatedPayload :=
  authenticated clock r w (fun ctx w =>
    match input with
    | None => (w, Refused bad_json)
    | Some (name, nodeIDs) =>
        match CreateConnections is_country ToASCII GenerateFromPassword X25519 Do Enqueue fr
                (mkCreateConnectionInput (acc_ID (sc_Account ctx)) name nodeIDs) (aw_self w) with
        | (s, Err e) => (mkAppWorld s (aw_auth w), Refused (writeClientSessionError e errorID))
        | (s, Ok result) =>
            (mkAppWorld s (aw_auth w),
             Served (if cr_Partial result then StatusMultiStatus else StatusCreated) []
               (mkCreatedPayload (cr_Results result) (cr_Partial result) (length (filter (fun it => failed it = false) (cr_Results result)))))
        end
    end).

Definition deleteSessionConnection (clock : nat → time) (fr : Fresh) (errorID : string) (r : Request) (input : option string)
    (w : AppWorld) : AppWorld * Answer Connection :=
  authenticated clock r w (fun ctx w =>
    match input with
    | None => (w, Refused bad_json)
    | Some connectionID =>
        match DeleteOwnConnection Do Enqueue fr (acc_ID (sc_Account ctx)) connectionID (aw_self w) with
        | (s, Err e) => (mkAppWorld s (aw_auth w), Refused (writeClientSessionError e errorID))
        | (s, Ok item) => (mkAppWorld s (aw_auth w), Served StatusOK [] (it_Connection item))
        end
    end).
End Own.
End App.
Arguments mkAppWorld {R Q} _ _.
Arguments aw_self {R Q} _.
Arguments aw_auth {R Q} _.

(** ** A link leads to its connection *)

(** An identifier that is one segment of a path. *)
Definition plain_id (id : string) : Prop := id ≠ EmptyString ∧ contains_byte "/" id = false.

Lemma Trim_plain s : contains_byte "/" s = false → Text.Trim ["/"] s = s.
Proof.
  assert (Hc : ∀ t, contains_byte "/" t = false → cut_any ["/"] t = None).
  { intros [|c t]; [done|]. cbn [contains_byte cut_any cut_prefix]. intros [Ha _]%orb_false_iff. apply bool_decide_eq_false in Ha.
    by rewrite decide_False by congruence. }
  intros Hs. unfold Text.Trim. cbv zeta. rewrite (trim_left_id ["/"] (String.length s) s) by (by apply Hc).
  change (String.rev <$> ["/"]) with ["/"]. rewrite trim_left_id by (apply Hc; by rewrite contains_byte_rev). apply str_rev_involutive.
Qed.

Lemma Contains_byte s c : Text.Contains s (String c EmptyString) = contains_byte c s.
Proof.
  induction s as [|a s IH]; [done|]. cbn [Text.Contains contains_byte]. rewrite IH. f_equal. unfold HasPrefix. cbn [cut_prefix].
  case_decide as H; [by rewrite bool_decide_eq_true_2|by rewrite bool_decide_eq_false_2].
Qed.

Lemma path_tail_plain prefix id : contains_byte "/" id = false → path_tail prefix (prefix +:+ id) = id.
Proof. intros H. unfold path_tail. rewrite TrimPrefix_append. by apply Trim_plain. Qed.

(** Rows under their own identifiers, every short link active and addressable. *)
Record links_wf (d : Database) : Prop := {
  lw_token_key : ∀ k t, connection_subscription_tokens (portal d) !! k = Some t → sk_ID t = k;
  lw_link_key : ∀ k l, short_links (portal d) !! k = Some l → sl_ID l = k ∧ plain_id k ∧ sl_Status l = StatusActive;
}.

Lemma elem_of_tokens d t :
  t ∈ ListConnectionSubscriptionTokens d ↔ ∃ k, connection_subscription_tokens (portal d) !! k = Some t.
Proof.
  unfold ListConnectionSubscriptionTokens, by_created. rewrite elem_of_order_by, list_elem_of_fmap. split.
  - intros ([k x] & -> & H%elem_of_map_to_list). eauto.
  - intros [k H%elem_of_map_to_list]. by exists (k, t).
Qed.

(** Only the tokens and the links of the portal's tables differ. *)
Definition same_rest (d d' : Database) : Prop := core d' = core d ∧ config_profiles (portal d') = config_profiles (portal d).

(** The token of a connection: stored, active and not expired. *)
Lemma GetOrCreateSubscription_Ok clock newID fresh connectionID d d' raw t :
  GetOrCreateSubscription Hash clock newID fresh connectionID zero_time d = (d', Ok (raw, t)) →
  (∃ k, connection_subscription_tokens (portal d') !! k = Some t) ∧ sk_ConnectionID t = connectionID ∧ sk_Status t = StatusActive ∧
  ((∃ k, connection_subscription_tokens (portal d) !! k = Some t) ∧ past (clock 0) (sk_ExpiresAt t) = false ∨ sk_ExpiresAt t = zero_time) ∧
  same_rest d d' ∧ short_links (portal d') = short_links (portal d) ∧
  (links_wf d → links_wf d') ∧ (portal_wf d → portal_wf d').
Proof.
  unfold GetOrCreateSubscription. cbv zeta. change (IsZero zero_time) with true. cbv iota.
  destruct (list_find _ _) as [[i item]|] eqn:E.
  - intros [= <- <- <-]. apply list_find_Some in E as (Hin%list_elem_of_lookup_2 & (Hc & Hr) & _). apply elem_of_tokens in Hin.
    unfold reusable in Hr. rewrite !andb_true_iff, bool_decide_eq_true in Hr. destruct Hr as [[Hs _] Hp].
    split_and!; try done. left. split; [done|]. unfold past. by destruct (IsZero _), (After _ _).
  - destruct fresh as [raw0|]; [|done]. destruct (CreateConnectionSubscriptionToken _ _ _ d) as [d1 r] eqn:Ec.
    intros [= <- (rec & -> & [= <- <-])%bind_Ok].
    pose proof (exec_db_wf (DbCreateSubscriptionToken (clock 1) newID
      (mkSubscriptionToken EmptyString connectionID raw0 (Hash raw0) EmptyString zero_time zero_time zero_time zero_time)) d) as Hwf.
    cbn [exec_db] in Hwf. rewrite Ec in Hwf. unfold CreateConnectionSubscriptionToken in Ec. rewrite transaction_Ok in Ec. cbv zeta in Ec.
    apply bind_Ok in Ec as (u & _ & (t & (_ & -> & _)%insert_unique_Ok & [= <- <-])%bind_Ok).
    split_and!; try done; [eexists; apply lookup_insert_eq|by right|].
    intros [K1 K2]. constructor; [|done]. intros k x. cbn. intros [[<- <-]|[_ Hx]]%lookup_insert_Some; [done|by apply K1].
Qed.

Lemma link_attempts_rest fr token profile n i e d d' r :
  (∀ i id, lf_newID fr i = Ok id → plain_id id) → links_wf d →
  link_attempts fr token profile n i e d = (d', r) →
  links_wf d' ∧ core d' = core d ∧ connection_subscription_tokens (portal d') = connection_subscription_tokens (portal d).
Proof.
  intros Hid. revert i e d. induction n as [|n IH]; intros i e d Hw; cbn [link_attempts]; [by intros [= <- _]|].
  destruct (lf_newID fr i) as [id|] eqn:Ei; [|by intros [= <- _]]. apply Hid in Ei.
  destruct (lf_encrypt fr i _) as [enc|]; [|by intros [= <- _]].
  destruct (CreateShortLink _ _ _ d) as [d1 [l|e1]] eqn:Ec; unfold CreateShortLink in Ec.
  - intros [= <- _]. rewrite transaction_Ok in Ec. cbv zeta in Ec.
    apply bind_Ok in Ec as (u & _ & (t & (_ & -> & _)%insert_unique_Ok & [= <- _])%bind_Ok). split_and!; [|done..].
    destruct Hw as [K1 K2]. constructor; [done|]. intros k x. cbn.
    assert (Hor : or_default id (lf_storeID fr i) = id) by (unfold or_default; rewrite bool_decide_eq_false_2; [done|apply Ei]).
    rewrite Hor. intros [[<- <-]|[_ Hx]]%lookup_insert_Some; [done|by apply K2].
  - apply transaction_Err in Ec as [-> _]. destruct (filled_link _); [by intros [= <- _]|by apply IH].
Qed.

Lemma GetOrCreateHPShortLink_Ok fr token profile d d' link :
  nonblank_encryption fr → (∀ i id, lf_newID fr i = Ok id → plain_id id) → portal_wf d → links_wf d →
  GetOrCreateHPShortLink fr token profile d = (d', Ok link) →
  link_of token profile d' link ∧ links_wf d' ∧ same_rest d d' ∧
  connection_subscription_tokens (portal d') = connection_subscription_tokens (portal d) ∧ is_Some (profile_meta d profile).
Proof.
  intros Hfr Hid Hwf Hw. unfold GetOrCreateHPShortLink. destruct (profile_meta d profile) as [meta|] eqn:Em; [|done].
  destruct (filled_link _) as [l|] eqn:Ef.
  - intros [= <- <-]. split_and!; try done. by apply filled_link_of.
  - intros E. pose proof (link_attempts_of _ _ _ _ _ _ _ _ _ Hfr Hwf E) as (H1 & _ & H3).
    apply link_attempts_rest in E as (H4 & H5 & H6); [|done..]. by split_and!.
Qed.

(** The token with an identifier is the one listed first. *)
Lemma token_by_id d t k :
  links_wf d → connection_subscription_tokens (portal d) !! k = Some t →
  ∃ i, list_find (fun token => sk_ID token = sk_ID t) (ListConnectionSubscriptionTokens d) = Some (i, t).
Proof.
  intros Hw Hk. destruct (list_find (fun token => sk_ID token = sk_ID t) (ListConnectionSubscriptionTokens d)) as [[i x]|] eqn:E.
  - apply list_find_Some in E as ([k' Hx]%list_elem_of_lookup_2%elem_of_tokens & Hid & _). exists i. do 2 f_equal.
    rewrite (lw_token_key _ Hw _ _ Hx), (lw_token_key _ Hw _ _ Hk) in Hid. congruence.
  - exfalso. rewrite list_find_None, list.Forall_forall in E. apply (E t); [|done]. apply elem_of_tokens. eauto.
Qed.

Lemma or_all_idem p : or_all (or_all p) = or_all p.
Proof.
  unfold or_all, or_default. destruct (bool_decide (TrimSpace p = EmptyString)) eqn:E; [reflexivity|].
  by rewrite TrimSpace_idem, E.
Qed.

Lemma profile_meta_all d p : profile_meta d (or_all p) = profile_meta d p.
Proof. unfold profile_meta. by rewrite or_all_idem. Qed.

Lemma profile_meta_same d d' p : config_profiles (portal d') = config_profiles (portal d) → profile_meta d' p = profile_meta d p.
Proof. intros H. unfold profile_meta, ListConfigProfiles. by rewrite H. Qed.

(** A short link that is asked for while its token is good is answered with the
    lines of the token's connection. *)
Lemma short_link_serves tables clock errorID d token c profile link :
  server_wf (core d) → links_wf d → (∃ k, connection_subscription_tokens (portal d) !! k = Some token) →
  accepted (clock 0) d token c → link_of token profile d link → is_Some (profile_meta d profile) →
  let answer := (shortSubscription tables clock errorID "GET" ("/c/" +:+ sl_ID link) d).2 in
  rs_Status answer = StatusOK ∧ rs_Body answer = Join newline (connection_lines tables c d) +:+ newline.
Proof.
  intros Hs Hw [k Hk] Ha (Ht & Hp & _ & id & Hid) [meta Hm]. destruct (lw_link_key _ Hw _ _ Hid) as (<- & [Hne Hsl] & Hst).
  unfold shortSubscription. rewrite bool_decide_eq_true_2 by done. cbn [negb]. rewrite path_tail_plain by done.
  rewrite bool_decide_eq_false_2, Contains_byte, Hsl by done. cbn [orb]. unfold GetShortLink. rewrite (proj2 (get_row_Ok _ _ link)) by done.
  rewrite bool_decide_eq_true_2 by done. cbn [negb]. unfold subscriptionTokenByID. rewrite Ht.
  destruct (token_by_id d token k Hw Hk) as [i ->]. pose proof Ha as [A1 A2 A3 A4 A5].
  rewrite (bool_decide_eq_true_2 _ A1), A2. cbn [negb orb]. rewrite (proj2 (usable_connection_Some _ _ c)) by done.
  rewrite (proj2 (active_account_true _ _)) by done. cbn [snd]. unfold hp_answer.
  set (d' := TouchConnectionSubscriptionToken _ _ _ d).
  destruct (token_summary_accepted (clock 0) (clock 3) d d' token c Ha eq_refl) as (s & Hsum & Hsum'). rewrite Hsum.
  rewrite (profile_meta_same d d') by done. rewrite Hp, Hm. split; [done|]. cbn [rs_Body text_plain]. unfold HPSubscriptionBody.
  by rewrite (hy2Lines_exact tables token (clock 3) d' c s).
Qed.

(** Only portal tokens differ. *)
Record same_but_portal_tokens (d d' : Database) : Prop := {
  sp_core : core d' = core d;
  sp_tokens : connection_subscription_tokens (portal d') = connection_subscription_tokens (portal d);
  sp_links : short_links (portal d') = short_links (portal d);
  sp_profiles : config_profiles (portal d') = config_profiles (portal d);
  sp_wf : portal_wf d → portal_wf d';
}.

Lemma authenticatePortalToken_Ok clock errorID raw d d' token :
  authenticatePortalToken Hash clock errorID raw d = (d', inl token) →
  same_but_portal_tokens d d' ∧ active_account (pk_AccountID token) d = true.
Proof.
  unfold authenticatePortalToken, refuse, active_account. case_bool_decide; [done|].
  destruct (GetAccountPortalTokenByHash _ d) as [t|]; [|done]. destruct (negb _); [done|]. destruct (negb _); [done|].
  destruct (past _ _); [done|]. destruct (GetAccount _ _) as [account|] eqn:Ea; [|done]. case_bool_decide as Hs; [|done].
  intros [= <- <-]. rewrite Ea, bool_decide_eq_true_2 by done. split; [|done].
  constructor; try done. apply (exec_db_wf (DbTouchPortalToken (clock 1) (clock 2) (pk_ID t))).
Qed.

Lemma lite_holder_Ok secret clock errorID r raw w w' token :
  lite_holder secret clock errorID r raw w = (w', inl token) →
  same_but_portal_tokens (cd_db w) (cd_db w') ∧ active_account (pk_AccountID token) (cd_db w) = true.
Proof.
  unfold lite_holder, portal_token. destruct (authenticatePortalToken _ _ _ _ _) as [d [t|a]] eqn:E; [|done].
  destruct (authenticateLite _ _ _); [|done]. case_bool_decide; [|done]. intros [= <- <-]. by apply authenticatePortalToken_Ok in E.
Qed.

Lemma lite_holder_token secret clock errorID r raw w w' token :
  lite_holder secret clock errorID r raw w = (w', inl token) → GetAccountPortalTokenByHash (Hash raw) (cd_db w) = Ok token.
Proof.
  unfold lite_holder, portal_token, authenticatePortalToken, refuse. case_bool_decide; [done|].
  destruct (GetAccountPortalTokenByHash _ _) as [t|]; [|done]. destruct (negb _); [done|]. destruct (negb _); [done|].
  destruct (past _ _); [done|]. destruct (GetAccount _ _) as [account|]; [|done]. case_bool_decide; [|done].
  destruct (authenticateLite _ _ _); [|done]. case_bool_decide; [|done]. by intros [= _ <-].
Qed.

Lemma links_wf_same d d' : same_but_portal_tokens d d' → links_wf d → links_wf d'.
Proof. intros [_ Ht Hl _ _] []. constructor; rewrite ?Ht, ?Hl; done. Qed.

(** No subscription token has expired since [from]. *)
Definition none_expires (from now : time) (d : Database) : Prop :=
  ∀ k t, connection_subscription_tokens (portal d) !! k = Some t → past from (sk_ExpiresAt t) = false → past now (sk_ExpiresAt t) = false.

Lemma connection_link_serves tables fr clock errorID errorID' accountID connectionID profile w w' st cs p :
  server_wf (core (cd_db w)) → portal_wf (cd_db w) → links_wf (cd_db w) → active_account accountID (cd_db w) = true →
  nonblank_encryption (hf_link fr) → (∀ i id, lf_newID (hf_link fr) i = Ok id → plain_id id) →
  none_expires (hf_clock fr 0) (clock 0) (cd_db w) →
  connection_link cn_ID fr errorID accountID connectionID profile w = (w', Served st cs p) →
  ∃ c, connections (core (cd_db w)) !! TrimSpace connectionID = Some c ∧ cn_AccountID c = accountID ∧
    cn_DesiredStatus c ≠ ConnectionStatusDeleted ∧
    let answer := (shortSubscription tables clock errorID' "GET" ("/c/" +:+ lp_ID p) (cd_db w')).2 in
    rs_Status answer = StatusOK ∧ rs_Body answer = Join newline (connection_lines tables c (cd_db w)) +:+ newline.
Proof.
  intros Hs Hwf Hw Hacc Hfr Hid Hexp. unfold connection_link. cbv zeta. case_bool_decide; [done|].
  destruct (GetConnection _ _) as [c|] eqn:Ec; [|done]. case_bool_decide as Hown; [|done]. case_bool_decide as Hdel; [done|]. cbn [negb orb].
  destruct (GetOrCreateSubscription _ _ _ _ _ _ _) as [d1 [[raw token]|e]] eqn:Et; [|done].
  destruct (GetOrCreateHPShortLink _ token _ d1) as [d2 [link|e]] eqn:El; [|done]. intros [= <- <- <- <-].
  apply get_row_Ok in Ec. exists c. do 3 (split; [done|]). cbn [cd_db with_db lp_ID].
  apply GetOrCreateSubscription_Ok in Et as (Hrow & Hcon & Hact & Hfresh & [Hcore1 Hprof1] & _ & Hw1 & Hwf1).
  apply GetOrCreateHPShortLink_Ok in El as (Hlink & Hw2 & [Hcore2 Hprof2] & Htok & Hmeta); [|by auto..].
  assert (Hcore : core d2 = core (cd_db w)) by congruence.
  assert (Hlines : connection_lines tables c d2 = connection_lines tables c (cd_db w))
    by (unfold connection_lines, subscription_configs; by rewrite Hcore).
  rewrite <-Hlines. apply (short_link_serves tables clock errorID' d2 token c (or_all profile)); try done.
  - by rewrite Hcore.
  - by rewrite Htok.
  - constructor; rewrite ?Hcore; try done.
    + destruct Hfresh as [[[k Hk] Hp]|Hz]; [exact (Hexp k token Hk Hp)|rewrite Hz; reflexivity].
    + by rewrite Hcon, (wf_id _ Hs _ _ Ec).
    + rewrite Hown. by apply active_account_true.
  - by rewrite (profile_meta_same d1 d2).
Qed.

(** The link a client gets for one of its connections leads there: the holder
    of a portal link who is handed a short link owns the connection, and
    whoever opens that short link, while no token has expired in between, gets
    exactly the lines of that connection. *)
Theorem hp_link_leads_home tables secret float64 Post newID absoluteURL lclock storeID tclock tokenID fresh
    clock errorID r input w w' st cs p clock' errorID' :
  server_wf (core (cd_db w)) → portal_wf (cd_db w) → links_wf (cd_db w) →
  (∀ i id, newID i = Ok id → plain_id id) → none_expires (tclock 0%nat) (clock' 0%nat) (cd_db w) →
  hpLink secret clock (mkHPFresh tclock tokenID fresh (client_links float64 Post newID absoluteURL lclock storeID)) errorID r (Some input) w
    = (w', Served st cs p) →
  ∃ token c, GetAccountPortalTokenByHash (Hash (li_Token input)) (cd_db w) = Ok token ∧
    connections (core (cd_db w)) !! TrimSpace (li_ConnectionID input) = Some c ∧ cn_AccountID c = pk_AccountID token ∧
    let answer := (shortSubscription tables clock' errorID' "GET" ("/c/" +:+ lp_ID p) (cd_db w')).2 in
    rs_Status answer = StatusOK ∧ rs_Body answer = Join newline (connection_lines tables c (cd_db w)) +:+ newline.
Proof.
  intros Hs Hwf Hw Hid Hexp. unfold hpLink. case_bool_decide; [|done]. cbn [negb].
  destruct (lite_holder _ _ _ _ _ w) as [w1 [token|a]] eqn:Eh; [|done]. intros E.
  pose proof Eh as (Hsame & Hact)%lite_holder_Ok. pose proof (links_wf_same _ _ Hsame Hw) as Hw1.
  pose proof Hsame as [Hcore Htok _ _ Hpw].
  set (fr := mkHPFresh _ _ _ _) in *.
  destruct (connection_link_serves tables fr clock' errorID errorID' (pk_AccountID token) (li_ConnectionID input) (li_Profile input)
    w1 w' st cs p) as (c & Hc & Hown & _ & Ha); [..|exact E|].
  - by rewrite Hcore.
  - by apply Hpw.
  - done.
  - unfold active_account in *. by rewrite Hcore.
  - apply client_links_nonblank.
  - done.
  - unfold none_expires in *. by rewrite Htok.
  - rewrite Hcore in Hc. exists token, c. split; [by eapply lite_holder_token|]. do 2 (split; [done|]).
    unfold connection_lines, subscription_configs in *. by rewrite Hcore in Ha.
Qed.

(** ** What a refused recovery leaves behind *)
Lemma validateUserPassword_refusal tables ol od login password e errorID :
  validateUserPassword tables ol od login password = Err e →
  writeClientSessionError e errorID = PrivateError StatusBadRequest "request failed" errorID.
Proof. unfold validateUserPassword. cbv zeta. repeat case_match; intros [= <-]; reflexivity. Qed.

Lemma setup_refused tables ol od Generate fr account password d e :
  validateUserPassword tables ol od (acc_Username account) password = Err e →
  setupStrongUser tables ol od Generate fr account password d = (d, Err e).
Proof. intros H. unfold setupStrongUser, mbind, goM_bind, liftM. by rewrite H. Qed.

(** C38. A recovery whose new password is refused has already cost the client its
    code and its sessions: the code that was sent is spent and no session of the
    identity is active any more, although the answer is an error and the old
    password stays. *)
Theorem refused_recovery_spends_code tables ol od secret Generate clock fr errorID r input w w1 token account ident code e :
  rq_Method r = "POST" → lite_holder secret clock errorID r (ri_Token input) w = (w1, inl token) →
  GetAccount (pk_AccountID token) (core (cd_db w1)) = Ok account →
  FindActiveUserIdentityByAccountID (acc_ID account) (cd_auth w1) = Ok ident →
  matching_code tables (id_ID ident) (ri_RecoveryCode input) (cd_auth w1) = Some code →
  auth_recovery_codes (cd_auth w1) !! rcv_ID code = Some code →
  validateUserPassword tables ol od (acc_Username account) (ri_NewPassword input) = Err e →
  ∃ w', recover tables ol od secret Generate clock fr errorID r (Some input) w =
      (w', Refused (PrivateError StatusBadRequest "request failed" errorID)) ∧
    (∃ code', auth_recovery_codes (cd_auth w') !! rcv_ID code = Some code' ∧ rcv_Status code' = StatusDeleted) ∧
    (∀ id s, auth_sessions (cd_auth w') !! id = Some s → se_IdentityID s = id_ID ident → se_Status s ≠ StatusActive) ∧
    auth_credentials (cd_auth w') = auth_credentials (cd_auth w1).
Proof.
  intros Hm Hh Hacc Hi Hc Hrow Hv. unfold recover. rewrite bool_decide_eq_true_2 by done. cbn [negb].
  rewrite Hh, Hacc, Hi, Hc. cbv zeta. unfold setup_user. rewrite (setup_refused _ _ _ _ _ _ _ _ _ Hv).
  rewrite (validateUserPassword_refusal _ _ _ _ _ _ _ Hv). eexists. split; [reflexivity|]. cbn [cd_auth with_auth]. split_and!; [..|done].
  - eexists. split; [cbn; by rewrite lookup_alter_eq, Hrow|reflexivity].
  - intros id s. unfold RevokeAuthSessionsByIdentityID, revoke_sessions. cbn [auth_sessions set_tokens set_sessions].
    rewrite lookup_sql_update. intros (x & Hx & ->)%fmap_Some. destruct (_ && _) eqn:E; [done|]. intros Hid.
    rewrite (bool_decide_eq_true_2 _ Hid) in E. cbn in E. apply negb_false_iff, bool_decide_eq_true in E. by rewrite E.
Qed.

(** ** A sample client asking for its link *)
Definition demo_portal_op : database_op :=
  DbCreatePortalToken (at_ms 2000) "ptk1"
    (mkPortalToken EmptyString "acc" "portal" (Hash "portal") EmptyString zero_time zero_time zero_time zero_time).
Definition demo_app_db : Database := exec_dbs [demo_portal_op; demo_profile_op] (set_core demo_s0 empty_database).

Lemma portal_profile_rest now1 id1 v now2 id2 p d :
  let d' := exec_dbs [DbCreatePortalToken now1 id1 v; DbCreateConfigProfile now2 id2 p] d in
  core d' = core d ∧ connection_subscription_tokens (portal d') = connection_subscription_tokens (portal d) ∧
  short_links (portal d') = short_links (portal d).
Proof.
  intros d'. set (P d2 := core d2 = core d ∧ connection_subscription_tokens (portal d2) = connection_subscription_tokens (portal d) ∧
    short_links (portal d2) = short_links (portal d)). change (P d'). unfold d'. cbn.
  assert (P (CreateAccountPortalToken now1 id1 v d).1) as H1.
  { apply (transaction_inv P); [|done]. by intros d2 r (u & _ & (t & _ & [= <- _])%bind_Ok)%bind_Ok. }
  revert H1. generalize (CreateAccountPortalToken now1 id1 v d).1 as d1. intros d1 H1.
  apply (transaction_inv P); [|done]. by intros d2 r (t & _ & [= <- _])%bind_Ok.
Qed.

Lemma demo_app_db_wf : server_wf (core demo_app_db) ∧ portal_wf demo_app_db ∧ links_wf demo_app_db ∧ ∀ a b, none_expires a b demo_app_db.
Proof.
  unfold demo_app_db, demo_portal_op, demo_profile_op.
  match goal with |- context [exec_dbs [DbCreatePortalToken ?n1 ?i1 ?v; DbCreateConfigProfile ?n2 ?i2 ?p] ?d] =>
    destruct (portal_profile_rest n1 i1 v n2 i2 p d) as (Hc & Ht & Hl);
    pose proof (proj1 (exec_dbs_keeps [DbCreatePortalToken n1 i1 v; DbCreateConfigProfile n2 i2 p] d (portal_wf_fresh _))) as Hwf;
    set (d' := exec_dbs [DbCreatePortalToken n1 i1 v; DbCreateConfigProfile n2 i2 p] d) in *; clearbody d' end.
  split_and!.
  - rewrite Hc, core_set_core. exact demo_s0_wf.
  - exact Hwf.
  - constructor; [rewrite Ht|rewrite Hl]; by intros k x.
  - intros a b k t. rewrite Ht. by intros H.
Qed.

Definition demo_app_world : ClientDB := mkClientDB demo_app_db empty_auth.
Definition demo_newID (i : nat) : result string := Ok "short1".
Definition demo_hp_fresh : HPFresh :=
  mkHPFresh (fun _ => sec 1500) "tok9" (Ok "subscription")
    (client_links (fun _ => true) demo_post demo_newID (fun path => "https://vpn.example" +:+ path) (fun _ => sec 1500) (fun _ => "sl1")).
Definition demo_link_input : LinkInput := mkLinkInput "portal" "" " con-a ".
Definition demo_hp_link : ClientDB * Answer LinkPayload :=
  hpLink "s" (fun _ => sec 1500) demo_hp_fresh "err_1" demo_lite_request (Some demo_link_input) demo_app_world.

Lemma demo_hp_link_ok : ∃ w st cs p, demo_hp_link = (w, Served st cs p) ∧ lp_URL p = "happ://crypt/abc".
Proof.
  assert (H : match demo_hp_link.2 with Served _ _ p => lp_URL p = "happ://crypt/abc" | Refused _ => False end) by (vm_compute; reflexivity).
  destruct demo_hp_link as [w [a|st cs p]]; [done|by exists w, st, cs, p].
Qed.

Lemma demo_newID_plain i id : demo_newID i = Ok id → plain_id id.
Proof. intros [= <-]. split; [discriminate|reflexivity]. Qed.

Lemma hp_link_leads_home_witness : ∃ w st cs p, demo_hp_link = (w, Served st cs p) ∧
  rs_Status (shortSubscription ascii_tables (fun _ => sec 9000) "err_2" "GET" ("/c/" +:+ lp_ID p) (cd_db w)).2 = StatusOK.
Proof.
  destruct demo_hp_link_ok as (w & st & cs & p & E & _). exists w, st, cs, p. split; [exact E|].
  unfold demo_hp_link, demo_hp_fresh in E. destruct demo_app_db_wf as (H1 & H2 & H3 & H4).
  destruct (hp_link_leads_home ascii_tables "s" _ _ _ _ _ _ _ _ _ _ _ _ demo_link_input demo_app_world w st cs p (fun _ => sec 9000) "err_2"
    H1 H2 H3 demo_newID_plain (H4 _ _) E) as (token & c & _ & _ & _ & Hs & _).
  exact Hs.
Defined.

(** *** A recovery with a password that is too short *)
Definition demo_user_ops : list auth_op :=
  [AuCreateIdentity (sec 1000) "aid7" (mkAuthIdentity EmptyString AuthIdentityKindUser "ann" EmptyString "acc" EmptyString false
     zero_time zero_time zero_time);
   AuCreateRecovery (sec 1001) "arc7" (mkAuthRecoveryCode EmptyString "aid7" (recoveryCodeHash ascii_tables "abcd-efgh-2345") EmptyString
     zero_time zero_time zero_time);
   AuCreateSession (sec 1002) (demo_ids "7") (mkAuthSession EmptyString "aid7" "acc" (Hash "access") EmptyString zero_time zero_time
     EmptyString (sec 1600) zero_time zero_time zero_time zero_time zero_time)].
Definition demo_recover_world : ClientDB := mkClientDB demo_app_db (exec_auths demo_user_ops empty_auth).
Definition demo_recover_input : RecoverInput := mkRecoverInput "portal" " ABCD-efgh-2345" "short".

(** The rows a recovery finds on its way, and the stored code. *)
Definition recovery_rows (w : ClientDB)
    : option (ClientDB * AccountPortalToken * Account * AuthIdentity * AuthRecoveryCode * AuthRecoveryCode) :=
  match lite_holder "s" (fun _ => sec 1500) "err_1" demo_lite_request (ri_Token demo_recover_input) w with
  | (w1, inl token) =>
      match GetAccount (pk_AccountID token) (core (cd_db w1)) with
      | Ok account =>
          match FindActiveUserIdentityByAccountID (acc_ID account) (cd_auth w1) with
          | Ok ident =>
              code ← matching_code ascii_tables (id_ID ident) (ri_RecoveryCode demo_recover_input) (cd_auth w1);
              stored ← auth_recovery_codes (cd_auth w1) !! rcv_ID code;
              Some (w1, token, account, ident, code, stored)
          | Err _ => None
          end
      | Err _ => None
      end
  | _ => None
  end.

Lemma recovery_rows_Some w w1 token account ident code stored :
  recovery_rows w = Some (w1, token, account, ident, code, stored) →
  lite_holder "s" (fun _ => sec 1500) "err_1" demo_lite_request (ri_Token demo_recover_input) w = (w1, inl token) ∧
  GetAccount (pk_AccountID token) (core (cd_db w1)) = Ok account ∧
  FindActiveUserIdentityByAccountID (acc_ID account) (cd_auth w1) = Ok ident ∧
  matching_code ascii_tables (id_ID ident) (ri_RecoveryCode demo_recover_input) (cd_auth w1) = Some code ∧
  auth_recovery_codes (cd_auth w1) !! rcv_ID code = Some stored.
Proof.
  unfold recovery_rows. destruct (lite_holder _ _ _ _ _ w) as [w2 [t|a]]; [|done].
  destruct (GetAccount _ _) as [ac|] eqn:Ea; [|done]. destruct (FindActiveUserIdentityByAccountID _ _) as [i|] eqn:Ei; [|done].
  destruct (matching_code _ _ _ _) as [c|] eqn:Ec; [|done]. cbn [mbind option_bind].
  destruct (auth_recovery_codes _ !! _) as [st|] eqn:Es; [|done]. intros [= <- <- <- <- <- <-]. split_and!; done.
Qed.

Definition code_fields (c : AuthRecoveryCode) :=
  (rcv_ID c, rcv_IdentityID c, rcv_CodeHash c, rcv_Status c, rcv_UsedAt c, rcv_CreatedAt c, rcv_UpdatedAt c).
Lemma code_fields_inj c c' : code_fields c = code_fields c' → c = c'.
Proof. destruct c, c'. unfold code_fields. cbn. by intros [= -> -> -> -> -> -> ->]. Qed.

Lemma demo_recovery_rows : ∃ w1 token account ident code,
  recovery_rows demo_recover_world = Some (w1, token, account, ident, code, code) ∧
  validateUserPassword ascii_tables no_rune no_rune (acc_Username account) "short" = Err "password must be at least 6 characters".
Proof.
  assert (H : match recovery_rows demo_recover_world with
    | Some (_, _, account, _, code, stored) => code_fields code = code_fields stored ∧
        validateUserPassword ascii_tables no_rune no_rune (acc_Username account) "short" = Err "password must be at least 6 characters"
    | None => False end) by (vm_compute; split; reflexivity).
  destruct (recovery_rows demo_recover_world) as [[[[[[w1 token] account] ident] code] stored]|]; [|done].
  destruct H as [<-%code_fields_inj H]. by exists w1, token, account, ident, code.
Qed.

Lemma refused_recovery_spends_code_witness : ∃ w' code',
  recover ascii_tables no_rune no_rune "s" demo_generate (fun _ => sec 1500) demo_client_fresh "err_1" demo_lite_request
    (Some demo_recover_input) demo_recover_world = (w', Refused (PrivateError StatusBadRequest "request failed" "err_1")) ∧
  rcv_Status code' = StatusDeleted.
Proof.
  destruct demo_recovery_rows as (w1 & token & account & ident & code & E & Hv).
  apply recovery_rows_Some in E as (H1 & H2 & H3 & H4 & H5).
  destruct (refused_recovery_spends_code ascii_tables no_rune no_rune "s" demo_generate (fun _ => sec 1500) demo_client_fresh "err_1"
    demo_lite_request demo_recover_input demo_recover_world w1 token account ident code _ eq_refl H1 H2 H3 H4 H5 Hv)
    as (w' & Hr & (code' & _ & Hs) & _). exists w', code'. split; [exact Hr|exact Hs].
Defined.
