(* ===== verification/SyncProtocol.v ===== *)
(** * SyncProtocol: the messages of the credential synchronisation

    [src/internal/protocol/types.go] and the paging helper of
    [src/internal/server/agentprotocol/projector.go].  A manifest page holds at
    most [page_size] changes, strictly increasing in their connection id; both
    ends check this with [ValidateResponse].  [sort.Slice] is modelled by
    [merge_sort]: on changes with distinct ids, the only ones a valid response
    has, there is one sorted order. *)

From S2P Require Import Prelude.

Definition DefaultPageSize : Z := 100.
Definition MaxPageSize : Z := 1000.

Inductive Operation := OperationUpsert | OperationDelete.
#[export] Instance Operation_eq_dec : EqDecision Operation.
Proof. solve_decision. Defined.

Record Request := mkRequest {
  rq_Full : bool;
  rq_SinceManifestStartedAtMS : Z;
  rq_PageSize : Z;
  rq_FromConnectionID : string;
}.

Record Change (T : Type) := mkChange {
  ch_ConnectionID : string;
  ch_Operation : Operation;
  ch_UpdatedAtMS : Z;
  ch_Payload : T;
}.
Arguments mkChange {T} _ _ _ _.
Arguments ch_ConnectionID {T} _.
Arguments ch_Operation {T} _.
Arguments ch_UpdatedAtMS {T} _.
Arguments ch_Payload {T} _.

Record Response (T : Type) := mkResponse {
  rs_ManifestStartedAtMS : Z;
  rs_Full : bool;
  rs_Changes : list (Change T);
}.
Arguments mkResponse {T} _ _ _.
Arguments rs_ManifestStartedAtMS {T} _.
Arguments rs_Full {T} _.
Arguments rs_Changes {T} _.

Definition ErrInvalidPageSize : error := "invalid sync page_size".
Definition ErrInvalidConnectionID : error := "invalid sync connection_id".
Definition ErrUnsortedChanges : error := "sync changes must be sorted by connection_id".

(** ** Sorting by an identifier *)
Section ById.
Context {A : Type} (id_of : A → string).

Definition id_le (x y : A) : Prop := String.le (id_of x) (id_of y).
#[export] Instance id_le_dec : RelDecision id_le.
Proof. intros x y. unfold id_le. apply _. Defined.
#[export] Instance id_le_trans : Transitive id_le.
Proof. intros x y z. unfold id_le. apply transitivity. Qed.
#[export] Instance id_le_total : Total id_le.
Proof. intros x y. unfold id_le. apply (total String.le). Qed.

Definition sort_by_id (l : list A) : list A := merge_sort id_le l.

(** Strictly increasing ids *)
Definition increasing (l : list A) : Prop := StronglySorted str_lt (id_of <$> l).

Lemma elem_of_sort_by_id l x : x ∈ sort_by_id l ↔ x ∈ l.
Proof. unfold sort_by_id. by rewrite merge_sort_Permutation. Qed.

Lemma length_sort_by_id l : length (sort_by_id l) = length l.
Proof. unfold sort_by_id. by rewrite merge_sort_Permutation. Qed.

Lemma increasing_of_sorted l :
  StronglySorted id_le l → NoDup (id_of <$> l) → increasing l.
Proof.
  unfold increasing. induction 1 as [|x l Hs IH Hx]; intros Hnd; csimpl; [constructor|].
  apply list.NoDup_cons in Hnd as [Hni Hnd]. constructor; [by apply IH|].
  apply list.Forall_forall. intros i Hi.
  pose proof Hi as (y & -> & Hy)%list_elem_of_fmap. split.
  - rewrite list.Forall_forall in Hx. by apply Hx.
  - intros He. apply Hni. by rewrite He.
Qed.

Lemma increasing_sort_by_id l : NoDup (id_of <$> l) → increasing (sort_by_id l).
Proof.
  intros Hnd. apply increasing_of_sorted.
  - apply StronglySorted_merge_sort; apply _.
  - unfold sort_by_id. by rewrite merge_sort_Permutation.
Qed.

Lemma increasing_sorted l : increasing l → StronglySorted id_le l.
Proof.
  unfold increasing. induction l as [|x l IH]; csimpl; intros Hs; [constructor|].
  apply StronglySorted_inv in Hs as [Hs Hx]. constructor; [by apply IH|].
  apply list.Forall_forall. intros y Hy. rewrite list.Forall_forall in Hx.
  apply str_lt_le, Hx. by apply list_elem_of_fmap_2.
Qed.

Lemma increasing_NoDup l : increasing l → NoDup (id_of <$> l).
Proof.
  unfold increasing. generalize (id_of <$> l). clear l.
  induction 1 as [|i l Hs IH Hx]; constructor; [|done].
  rewrite list.Forall_forall in Hx. intros [_ Hne]%Hx. done.
Qed.

(** On a list that is already in order, sorting does nothing. *)
Lemma sort_by_id_increasing l : increasing l → sort_by_id l = l.
Proof.
  intros Hs. pose proof (increasing_NoDup l Hs) as Hnd. unfold sort_by_id.
  apply (StronglySorted_unique_strong id_le); [| |by apply increasing_sorted|].
  - intros x y Hx Hy Hxy Hyx. rewrite merge_sort_Permutation in Hx.
    assert (Heq : id_of x = id_of y) by by apply (anti_symm String.le).
    apply list_elem_of_lookup in Hx as [i Hi]. apply list_elem_of_lookup in Hy as [j Hj].
    assert (i = j) as ->; [|congruence].
    apply (NoDup_lookup _ _ _ (id_of x) Hnd); rewrite list_lookup_fmap.
    + by rewrite Hi. + by rewrite Hj, Heq.
  - apply StronglySorted_merge_sort; apply _.
  - apply merge_sort_Permutation.
Qed.
End ById.

Definition SortChanges {T} (changes : list (Change T)) : list (Change T) :=
  sort_by_id ch_ConnectionID changes.

Definition NormalizePageSize (pageSize : Z) : Z :=
  if (pageSize =? 0)%Z then DefaultPageSize else pageSize.

Definition ValidatePageSize (pageSize : Z) : result unit :=
  if ((pageSize <? 1) || (MaxPageSize <? pageSize))%Z then Err ErrInvalidPageSize else Ok tt.

(** The loop of [ValidateResponse]. *)
Fixpoint validate_changes {T} (previous : string) (changes : list (Change T)) : result unit :=
  match changes with
  | [] => Ok tt
  | change :: changes =>
      if bool_decide (ch_ConnectionID change = "") then Err ErrInvalidConnectionID
      else if negb (bool_decide (previous = "")) &&
              bool_decide (String.le (ch_ConnectionID change) previous)
      then Err ErrUnsortedChanges
      else validate_changes (ch_ConnectionID change) changes
  end.

Definition ValidateResponse {T} (response : Response T) (pageSize : Z) : result unit :=
  _ ← ValidatePageSize pageSize;
  if (pageSize <? Z.of_nat (length (rs_Changes response)))%Z then Err ErrInvalidPageSize
  else validate_changes "" (rs_Changes response).

(** ** Filling a page

    The loop that both [PageChanges] and [ListSyncChanges] have: visit the
    items in order, fail, skip or append, and stop when the page is full. *)
Section FillPage.
Context {A B : Type} (visit : A → result (option B)).

Fixpoint fill_page (pageSize : Z) (page : list B) (l : list A) : result (list B) :=
  match l with
  | [] => Ok page
  | x :: l =>
      o ← visit x;
      match o with
      | None => fill_page pageSize page l
      | Some b =>
          let page := page ++ [b] in
          if (Z.of_nat (length page) =? pageSize)%Z then Ok page
          else fill_page pageSize page l
      end
  end.

(** What the loop collects when it is not cut short. *)
Definition picked (l : list A) : list B :=
  omap (fun x => match visit x with Ok o => o | Err _ => None end) l.

Lemma fill_page_Ok pageSize page l out :
  (Z.of_nat (length page) < pageSize)%Z → fill_page pageSize page l = Ok out →
  out = page ++ take (Z.to_nat pageSize - length page) (picked l).
Proof.
  revert page; induction l as [|x l IH]; intros page Hlt; simpl.
  - intros [= <-]. by rewrite take_nil, app_nil_r.
  - destruct (visit x) as [[b|]|e]; simpl; [| |done].
    + destruct (Z.eqb_spec (Z.of_nat (length (page ++ [b]))) pageSize) as [He|He].
      * intros [= <-]. rewrite length_app in He; simpl in He.
        replace (Z.to_nat pageSize - length page) with 1 by lia. done.
      * intros ->%IH; [|rewrite length_app in *; simpl in *; lia].
        rewrite length_app in *; simpl in *.
        replace (Z.to_nat pageSize - length page)
          with (S (Z.to_nat pageSize - (length page + 1))) by lia.
        by rewrite <-app_assoc.
    + apply IH. done.
Qed.

Lemma fill_page_total pageSize page l :
  (∀ x, x ∈ l → is_ok (visit x) = true) → ∃ out, fill_page pageSize page l = Ok out.
Proof.
  revert page; induction l as [|x l IH]; intros page Hok; simpl; [eauto|].
  pose proof (Hok x (list_elem_of_here _ _)) as Hx.
  destruct (visit x) as [[b|]|e]; simpl in *; [| |done].
  - case_match; [eauto|]. apply IH. intros. apply Hok. by right.
  - apply IH. intros. apply Hok. by right.
Qed.

(** A page that is not full has visited everything. *)
Lemma fill_page_short pageSize l out :
  (1 ≤ pageSize)%Z → fill_page pageSize [] l = Ok out →
  (Z.of_nat (length out) < pageSize)%Z → out = picked l.
Proof.
  intros Hps Hout Hlen. apply fill_page_Ok in Hout; [|simpl; lia]. simpl in Hout.
  rewrite Hout in Hlen |- *. rewrite length_take in Hlen. apply take_ge. lia.
Qed.
End FillPage.

Lemma ValidatePageSize_Ok pageSize :
  ValidatePageSize pageSize = Ok tt ↔ (1 ≤ pageSize ≤ MaxPageSize)%Z.
Proof.
  unfold ValidatePageSize, MaxPageSize.
  destruct (Z.ltb_spec pageSize 1), (Z.ltb_spec 1000 pageSize); simpl; split; intros;
    try done; try lia.
Qed.

Lemma validate_changes_Ok {T} previous (changes : list (Change T)) :
  validate_changes previous changes = Ok tt ↔
  Forall (fun c => ch_ConnectionID c ≠ "") changes ∧
  increasing ch_ConnectionID changes ∧
  (previous ≠ "" → Forall (fun c => str_lt previous (ch_ConnectionID c)) changes).
Proof.
  unfold increasing. revert previous.
  induction changes as [|c changes IH]; intros previous; csimpl.
  { split; [|done]. intros _. split_and!; constructor. }
  rewrite !list.Forall_cons. case_bool_decide as Hc; simpl; [naive_solver|].
  destruct (negb (bool_decide (previous = "")) && _) eqn:E.
  { apply andb_true_iff in E as [E1%negb_true_iff%bool_decide_eq_false E2%bool_decide_eq_true].
    split; [done|]. intros (_ & _ & Hp). destruct (Hp E1) as [[Hle Hne] _].
    exfalso. apply Hne. by apply (anti_symm String.le). }
  apply andb_false_iff in E. rewrite IH. split.
  - intros (Hall & Hs & Hlt). specialize (Hlt Hc). split_and!; [done|done| |].
    + constructor; [done|]. by apply Forall_fmap.
    + intros Hp. assert (Hpc : str_lt previous (ch_ConnectionID c)).
      { destruct E as [E%negb_false_iff%bool_decide_eq_true|E%bool_decide_eq_false]; [done|].
        destruct (total String.le previous (ch_ConnectionID c)) as [Hle|]; [|done].
        split; [done|]. intros Heq. apply E. by rewrite Heq. }
      split; [done|]. eapply list.Forall_impl; [exact Hlt|]. intros c' Hc'. by etrans.
  - intros ([_ Hall] & Hs & Hp). apply StronglySorted_inv in Hs as [Hs Hlt].
    split_and!; [done|done|]. intros _. exact (proj1 (Forall_fmap _ _ _) Hlt).
Qed.

(** What both ends of the protocol check of a page. *)
Record page_ok {T} (pageSize : Z) (changes : list (Change T)) : Prop := {
  po_size : (1 ≤ pageSize ≤ MaxPageSize)%Z;
  po_length : (Z.of_nat (length changes) ≤ pageSize)%Z;
  po_nonempty : Forall (fun c => ch_ConnectionID c ≠ "") changes;
  po_increasing : increasing ch_ConnectionID changes;
}.

Lemma ValidateResponse_Ok {T} (response : Response T) pageSize :
  ValidateResponse response pageSize = Ok tt ↔ page_ok pageSize (rs_Changes response).
Proof.
  unfold ValidateResponse. destruct (ValidatePageSize pageSize) as [[]|e] eqn:E; simpl.
  - apply ValidatePageSize_Ok in E.
    destruct (Z.ltb_spec pageSize (Z.of_nat (length (rs_Changes response)))).
    + split; [done|]. intros []. lia.
    + rewrite validate_changes_Ok. split; [intros (?&?&_); by constructor|].
      intros []. split_and!; done.
  - split; [done|]. intros [Hs _ _ _]%id. apply ValidatePageSize_Ok in Hs. congruence.
Qed.

Definition PageChanges {T} (changes : list (Change T)) (fromConnectionID : string)
    (pageSize : Z) : result (list (Change T)) :=
  let pageSize := NormalizePageSize pageSize in
  _ ← ValidatePageSize pageSize;
  fill_page (fun change =>
    if bool_decide (ch_ConnectionID change = "") then Err ErrInvalidConnectionID
    else if negb (bool_decide (fromConnectionID = "")) &&
            bool_decide (String.le (ch_ConnectionID change) fromConnectionID)
    then Ok None else Ok (Some change)) pageSize [] (SortChanges changes).
