(* ===== verification/ServerManifest.v ===== *)
(** * ServerManifest: the manifest pages the control plane serves

    [src/internal/server/agentprotocol/{stored_projection,projector,manifest}.go],
    the response builder of [src/internal/protocol/manifest_builder.go], the
    protocol adapters [src/internal/server/{hysteriaagent,amneziaagent}/protocol.go]
    and the projections of the storage they page through.

    The state of a node's credentials is a map from connection id to
    [StoredConnection].  Proved here: the storage listings are total on a
    well-formed database and enumerate that map in order; and a page is
    exactly the first [page_size] changes after the cursor, so a short page
    is the last one. *)

From S2P Require Import Prelude GoLib Sql ServerModel ServerStore StoreInvariant SyncProtocol.
Import GoTime GoStrings.

(** ** The listings of the storage *)

(** The credentials of a node: what [row] makes of each of its connections. *)
Definition node_rows {M} (row : Connection * Account → result (StoredConnection M))
    (nodeID protocol : string) (s : Server) : gmap string (StoredConnection M) :=
  omap (fun c =>
    if bool_decide (cn_NodeID c = nodeID) && bool_decide (cn_Protocol c = protocol) then
      a ← accounts s !! cn_AccountID c;
      match row (c, a) with Ok x => Some x | Err _ => None end
    else None) (connections s).

(** [l] enumerates the part of [V] after [from]. *)
Definition lists {M} (V : gmap string (StoredConnection M)) (from : string)
    (l : list (StoredConnection M)) : Prop :=
  increasing sc_ConnectionID l ∧
  ∀ c, c ∈ l ↔ V !! sc_ConnectionID c = Some c ∧ str_lt from (sc_ConnectionID c).

#[local] Instance lex_trans : Transitive lex.
Proof.
  intros [a1 a2] [b1 b2] [c1 c2]. unfold lex; simpl. intros [H|[-> H]] [H'|[-> H']].
  - left. by etrans.
  - by left.
  - by left.
  - right. split; [done|]. by etrans.
Qed.

#[local] Instance lex_total : Total lex.
Proof.
  intros [a1 a2] [b1 b2]. unfold lex; simpl.
  destruct (decide (a1 = b1)) as [->|Hne].
  - destruct (total String.le a2 b2); [left|right]; by right.
  - destruct (total String.le a1 b1); [left|right]; left; split; congruence.
Qed.

Lemma order_by_sorted {A} (key : A → string * string) l : StronglySorted (key_le key) (order_by key l).
Proof.
  apply StronglySorted_merge_sort.
  - intros x y z. unfold key_le. apply transitivity.
  - intros x y. unfold key_le. apply (total lex).
Qed.

Definition sync_row (nodeID protocol from : string) (c : Connection) : bool :=
  bool_decide (cn_NodeID c = nodeID) && bool_decide (cn_Protocol c = protocol) &&
  str_ltb from (cn_ID c).

Lemma NoDup_ids_select P (t : gmap string Connection) :
  (∀ id c, t !! id = Some c → cn_ID c = id) → NoDup (cn_ID <$> sql_select P t).
Proof.
  intros Hid. unfold sql_select. apply (sublist_NoDup _ (cn_ID <$> (map_to_list t).*2)).
  - rewrite <-list_fmap_compose.
    replace ((cn_ID ∘ snd) <$> map_to_list t) with ((map_to_list t).*1);
      [apply NoDup_fst_map_to_list|].
    apply list_fmap_ext. intros i [k c] Hk. simpl. symmetry. apply Hid.
    apply elem_of_map_to_list. by eapply list_elem_of_lookup_2.
  - apply fmap_sublist, sublist_filter.
Qed.

Lemma omap_account_fst (accs : gmap string Account) l :
  (∀ c, c ∈ l → is_Some (accs !! cn_AccountID c)) →
  (omap (fun c => a ← accs !! cn_AccountID c; Some (c, a)) l).*1 = l.
Proof.
  induction l as [|c l IH]; intros Hall; csimpl; [done|].
  destruct (Hall c (list_elem_of_here _ _)) as [a ->]. simpl. f_equal.
  apply IH. intros. apply Hall. by right.
Qed.

Lemma sync_rows_spec nodeID protocol from s :
  server_wf s →
  increasing (fun ca => cn_ID ca.1) (sync_rows nodeID protocol from s) ∧
  ∀ c a, (c, a) ∈ sync_rows nodeID protocol from s ↔
    connections s !! cn_ID c = Some c ∧ sync_row nodeID protocol from c = true ∧
    accounts s !! cn_AccountID c = Some a.
Proof.
  intros Hwf. unfold sync_rows. fold (sync_row nodeID protocol from).
  set (l := order_by _ _).
  assert (Hl : ∀ c, c ∈ l ↔ connections s !! cn_ID c = Some c ∧ sync_row nodeID protocol from c = true).
  { intros c. unfold l. rewrite elem_of_order_by, elem_of_sql_select. split.
    - intros [HP [k Hk]]. by rewrite (wf_id s Hwf _ _ Hk).
    - intros [Hc HP]. eauto. }
  split.
  - unfold increasing.
    replace ((λ ca, cn_ID ca.1) <$> _) with (cn_ID <$> l).
    2: { rewrite <-(omap_account_fst (accounts s) l) at 1; [by rewrite <-list_fmap_compose|].
         intros c [Hc _]%Hl. by eapply (wf_account s Hwf). }
    apply (increasing_of_sorted cn_ID).
    + eapply StronglySorted_mono; [|apply order_by_sorted]. intros x y [[Hlt _]|[He _]]; simpl in *.
      * done. * unfold id_le. by rewrite He.
    + unfold l, order_by. rewrite merge_sort_Permutation.
      apply NoDup_ids_select, (wf_id s Hwf).
  - intros c a. rewrite list_elem_of_omap. split.
    + intros (c0 & [Hc0 HP]%Hl & (a0 & Ha0 & [= -> ->])%bind_Some). done.
    + intros (Hc & HP & Ha). exists c. rewrite Hl, Ha. done.
Qed.

(** A row function that keeps the connection's id. *)
Lemma node_listing {M} (row : Connection * Account → result (StoredConnection M))
    nodeID protocol from s l :
  server_wf s →
  (∀ c a x, row (c, a) = Ok x → sc_ConnectionID x = cn_ID c) →
  mapR row (sync_rows nodeID protocol from s) = Ok l → lists (node_rows row nodeID protocol s) from l.
Proof.
  intros Hwf Hrow Hl%mapR_Ok. destruct (sync_rows_spec nodeID protocol from s Hwf) as [Hinc Hin].
  split.
  - unfold increasing in *. replace (sc_ConnectionID <$> l)
      with ((λ ca : Connection * Account, cn_ID ca.1) <$> sync_rows nodeID protocol from s); [done|].
    clear Hinc Hin. induction Hl as [|[c a] x cs xs Hx _ IH]; csimpl; [done|].
    f_equal; [symmetry; by eapply Hrow|done].
  - intros x. unfold node_rows. rewrite lookup_omap. split.
    + intros Hx. destruct (Forall2_elem_r _ _ _ _ Hl Hx) as ([c a] & Hca & Hr).
      apply Hin in Hca as (Hc & HP & Ha). rewrite (Hrow _ _ _ Hr), Hc. simpl.
      unfold sync_row in HP. apply andb_true_iff in HP as [HP Hlt%str_ltb_lt].
      rewrite HP, Ha. simpl. by rewrite Hr.
    + intros [Hx Hlt]. apply bind_Some in Hx as (c & Hc & Hx).
      destruct (_ && _) eqn:HP; [|done]. apply bind_Some in Hx as (a & Ha & Hx).
      destruct (row (c, a)) as [y|] eqn:Hr; [|done]. injection Hx as ->.
      pose proof (wf_id s Hwf _ _ Hc) as Hid.
      assert (Hca : (c, a) ∈ sync_rows nodeID protocol from s).
      { apply Hin. split_and!; [by rewrite Hid|unfold sync_row|done].
        rewrite HP. simpl. apply str_ltb_lt. by rewrite Hid. }
      destruct (Forall2_elem_l _ _ _ _ Hl Hca) as (y & Hy & Hry). congruence.
Qed.

Definition hysteria_rows (s : Server) (nodeID : string) : gmap string (StoredConnection string) :=
  node_rows (hysteria_sync_row s) nodeID ProtocolHysteria2 s.

Definition amnezia_rows (s : Server) (config : AmneziaWGNodeConfig) (nodeID : string)
    : gmap string (StoredConnection AmneziaWGSyncMaterial) :=
  node_rows (amnezia_sync_row s config) nodeID ProtocolAmneziaWG s.

Lemma hysteria_listing s nodeID from :
  server_wf s → ∃ l, ListHysteriaSyncConnections s nodeID from = Ok l ∧
                     lists (hysteria_rows s nodeID) from l.
Proof.
  intros Hwf. destruct (mapR_total (hysteria_sync_row s)
    (sync_rows nodeID ProtocolHysteria2 from s)) as [l Hl].
  - intros [c a] (Hc & HP & _)%(sync_rows_spec _ _ _ _ Hwf). unfold sync_row in HP.
    apply andb_true_iff in HP as [[_ Hp%bool_decide_eq_true]%andb_true_iff _].
    destruct (wf_hysteria2 s Hwf _ _ Hc Hp) as [m Hm]. simpl. by rewrite Hm.
  - exists l. split; [done|]. eapply node_listing; [done| |done].
    intros c a x. simpl. case_match; [|done]. by intros [= <-].
Qed.

Lemma amnezia_listing s nodeID from config n :
  server_wf s → amneziawg_node_configs s !! nodeID = Some config →
  nodes s !! nodeID = Some n → nd_Type n = NodeTypeNativeAmneziaWG →
  ∃ l, ListAmneziaWGSyncConnections s nodeID from = Ok l ∧
       lists (amnezia_rows s config nodeID) from l.
Proof.
  intros Hwf Hcfg Hn Ht. unfold ListAmneziaWGSyncConnections, GetAmneziaWGNodeConfig, get_row.
  rewrite Hcfg. cbn [mbind result_bind]. destruct (mapR_total (amnezia_sync_row s config)
    (sync_rows nodeID ProtocolAmneziaWG from s)) as [l Hl].
  - intros [c a] (Hc & HP & _)%(sync_rows_spec _ _ _ _ Hwf). unfold sync_row in HP.
    apply andb_true_iff in HP as [[Hnode%bool_decide_eq_true _]%andb_true_iff _].
    subst nodeID. destruct (wf_amneziawg s Hwf _ _ _ Hc Hn Ht) as [m Hm]. simpl. by rewrite Hm.
  - exists l. split; [done|]. eapply node_listing; [done| |done].
    intros c a x. simpl. case_match; [|done]. by intros [= <-].
Qed.

(** ** The projector *)
Record Query := mkQuery {
  q_Full : bool;
  q_SinceManifestStartedAtMS : Z;
  q_FromConnectionID : string;
  q_PageSize : Z;
  q_ManifestStartedAtMS : Z;
}.

Definition ErrMissingStoredConnectionSource : error := "missing stored credential source".
Definition ErrMissingStoredConnectionBuilder : error := "missing stored credential change builder".

Section Manifest.
Context {M T : Type}.
Implicit Types (build : StoredConnection M → result T)
  (source : string → string → result (list (StoredConnection M))).

Definition change_of (credential : StoredConnection M) (payload : T) : Change T :=
  mkChange (sc_ConnectionID credential)
    (if sc_Active credential then OperationUpsert else OperationDelete)
    (sc_UpdatedAtMS credential) payload.

(** One turn of the loop of [ListSyncChanges]. *)
Definition visit_credential build (query : Query) (credential : StoredConnection M)
    : result (option (Change T)) :=
  if bool_decide (sc_ConnectionID credential = "") then Err ErrInvalidConnectionID
  else if negb (bool_decide (q_FromConnectionID query = "")) &&
          bool_decide (String.le (sc_ConnectionID credential) (q_FromConnectionID query))
  then Ok None
  else if (if q_Full query then negb (sc_Active credential)
           else ((sc_UpdatedAtMS credential <=? 0) ||
                 (sc_UpdatedAtMS credential <? q_SinceManifestStartedAtMS query))%Z)
  then Ok None
  else payload ← build credential; Ok (Some (change_of credential payload)).

Definition ListSyncChanges (source : option (string → string → result (list (StoredConnection M))))
    (builder : option (StoredConnection M → result T)) (nodeID : string) (query : Query)
    : result (list (Change T)) :=
  match source, builder with
  | None, _ => Err ErrMissingStoredConnectionSource
  | _, None => Err ErrMissingStoredConnectionBuilder
  | Some source, Some build =>
      credentials ← source nodeID (q_FromConnectionID query);
      fill_page (visit_credential build query) (q_PageSize query) []
        (sort_by_id sc_ConnectionID credentials)
  end.

Definition BuildResponse (projector : Query → result (list (Change T))) (request : Request)
    (now : time) : result (Response T) :=
  _ ← ValidatePageSize (rq_PageSize request);
  let manifestStartedAtMS := TimeUnixMilli now in
  changes ← projector (mkQuery (rq_Full request) (rq_SinceManifestStartedAtMS request)
                         (rq_FromConnectionID request) (rq_PageSize request) manifestStartedAtMS);
  let changes := SortChanges changes in
  let changes := if (rq_PageSize request <? Z.of_nat (length changes))%Z
                 then take (Z.to_nat (rq_PageSize request)) changes else changes in
  let response := mkResponse manifestStartedAtMS (rq_Full request) changes in
  _ ← ValidateResponse response (rq_PageSize request);
  Ok response.

(** ** Handlers *)

(** [ManifestResponseValues], which the generated mapper copies field by field
    into the protocol's [AuthManifestResponse]. *)
Record ManifestResponse := mkManifestResponse {
  mr_NodeID : string;
  mr_ManifestStartedAtMS : Z;
  mr_Full : bool;
  mr_Changes : list T;
  mr_Error : string;
}.

Definition EmptySyncResponse : ManifestResponse := mkManifestResponse "" 0 false [] "".
Definition ErrorSyncResponse (nodeID : string) (full : bool) (err : error) : ManifestResponse :=
  mkManifestResponse nodeID 0 full [] err.
Definition BuildSyncResponse (nodeID : string) (response : Response T) : ManifestResponse :=
  mkManifestResponse nodeID (rs_ManifestStartedAtMS response) (rs_Full response)
    (ch_Payload <$> rs_Changes response) "".

(** [commonproto.AuthManifestRequest]; [page_size] is a [uint32]. *)
Record AuthManifestRequest := mkAuthManifestRequest {
  am_NodeId : string;
  am_SinceManifestStartedAt : Z;
  am_Full : bool;
  am_PageSize : Z;
  am_FromConnectionId : string;
}.

Definition Handle (projector : Query → result (list (Change T))) (now : time)
    (input : option AuthManifestRequest) : ManifestResponse :=
  match input with
  | None => EmptySyncResponse
  | Some input =>
      let nodeID := am_NodeId input in
      let full := am_Full input || (am_SinceManifestStartedAt input =? 0)%Z in
      match BuildResponse projector
              (mkRequest full (am_SinceManifestStartedAt input) (am_PageSize input)
                 (am_FromConnectionId input)) now with
      | Err err => ErrorSyncResponse nodeID full err
      | Ok response => BuildSyncResponse nodeID response
      end
  end.

Definition zero_request : AuthManifestRequest := mkAuthManifestRequest "" 0 false 0 "".

(** [h.NodeID], when set, overrides the node of the request.  A nil [*AuthManifestRequest]
    reaches [Handle] inside a non-nil interface value, whose getters return
    zero values. *)
Definition BuildAuthManifestResponse (hNodeID : string)
    (source : option (string → string → result (list (StoredConnection M))))
    (builder : option (StoredConnection M → result T)) (now : time)
    (input : option AuthManifestRequest) : ManifestResponse :=
  let nodeID := match input with Some input => am_NodeId input | None => "" end in
  let nodeID := if bool_decide (hNodeID = "") then nodeID else hNodeID in
  Handle (ListSyncChanges source builder nodeID) now (Some (default zero_request input)).

(** [AgentServer.buildAuthManifestResponse]: [streamNode] is the node the
    stream was authenticated for. *)
Definition buildAuthManifestResponse (streamNode : string)
    (respond : option AuthManifestRequest → ManifestResponse) (request : option AuthManifestRequest)
    : ManifestResponse :=
  match request with
  | Some r =>
      if bool_decide (am_NodeId r = streamNode) then respond request
      else mkManifestResponse streamNode 0 false [] "invalid auth manifest request"
  | None => mkManifestResponse streamNode 0 false [] "invalid auth manifest request"
  end.
End Manifest.
Arguments ManifestResponse T : clear implicits.

(** ** The protocol adapters *)
Inductive CredentialChangeOp :=
| CREDENTIAL_CHANGE_OP_UNSPECIFIED
| CREDENTIAL_CHANGE_OP_UPSERT
| CREDENTIAL_CHANGE_OP_DELETE.
#[export] Instance CredentialChangeOp_eq_dec : EqDecision CredentialChangeOp.
Proof. solve_decision. Defined.

(** [CredentialChange] of both protocols; a payload that is not set is nil. *)
Record CredentialChange (P : Type) := mkCredentialChange {
  cc_ConnectionId : string;
  cc_Op : CredentialChangeOp;
  cc_Payload : option P;
}.
Arguments mkCredentialChange {P} _ _ _.
Arguments cc_ConnectionId {P} _.
Arguments cc_Op {P} _.
Arguments cc_Payload {P} _.

(** The Hysteria credential has one field, [password_hash]. *)
Definition buildHysteriaCredentialChange (credential : StoredConnection string)
    : result (CredentialChange string) :=
  if negb (sc_Active credential) then
    Ok (mkCredentialChange (sc_ConnectionID credential) CREDENTIAL_CHANGE_OP_DELETE None)
  else if bool_decide (sc_Material credential = "") then
    Err "active Hysteria credential has no password hash"
  else Ok (mkCredentialChange (sc_ConnectionID credential) CREDENTIAL_CHANGE_OP_UPSERT
             (Some (sc_Material credential))).

Record AmneziaCredential := mkAmneziaCredential {
  ac_PublicKey : string;
  ac_PresharedKey : string;
  ac_AssignedIpv4 : string;
  ac_DesiredStatus : string;
  ac_PersistentKeepalive : Z;
}.

Definition DefaultPersistentKeepalive : Z := 25.
Definition uint32 (z : Z) : Z := (z mod 2 ^ 32)%Z.

Definition buildAmneziaCredentialChange (credential : StoredConnection AmneziaWGSyncMaterial)
    : result (CredentialChange AmneziaCredential) :=
  let connection := sm_Connection (sc_Material credential) in
  let material := sm_Material (sc_Material credential) in
  if negb (sc_Active credential) then
    Ok (mkCredentialChange (cn_ID connection) CREDENTIAL_CHANGE_OP_DELETE None)
  else
    let desiredStatus := or_default (cn_DesiredStatus connection) ConnectionStatusActive in
    let keepalive := awg_PersistentKeepalive (sm_NodeConfig (sc_Material credential)) in
    let keepalive := if (keepalive <? 0)%Z then DefaultPersistentKeepalive else keepalive in
    Ok (mkCredentialChange (cn_ID connection) CREDENTIAL_CHANGE_OP_UPSERT
          (Some (mkAmneziaCredential (TrimSpace (am_ClientPublicKey material))
                   (TrimSpace (am_PresharedKey material)) (TrimSpace (am_AssignedIPv4 material))
                   desiredStatus (uint32 keepalive)))).

(** ** What a page contains *)
Section Page.
Context {M T : Type} (build : StoredConnection M → result T) (pay : StoredConnection M → T).
Implicit Types (V : gmap string (StoredConnection M)) (c : StoredConnection M).

(** The credentials a pass asks for: the active ones in a full pass, else the
    ones whose version has reached the cursor. *)
Definition selected (full : bool) (since : Z) c : bool :=
  if full then sc_Active c else ((0 <? sc_UpdatedAtMS c) && (since <=? sc_UpdatedAtMS c))%Z.

(** The rows of [V] are keyed by their id, and each has a payload. *)
Record rows_ok V : Prop := {
  ro_key : ∀ id c, V !! id = Some c → sc_ConnectionID c = id;
  ro_build : ∀ id c, V !! id = Some c → build c = Ok (pay c);
}.

Record page_spec V (full : bool) (since : Z) (from : string) (pageSize : Z)
    (page : list (StoredConnection M)) : Prop := {
  ps_increasing : increasing sc_ConnectionID page;
  ps_length : (Z.of_nat (length page) ≤ pageSize)%Z;
  ps_sound : ∀ c, c ∈ page → V !! sc_ConnectionID c = Some c ∧
    str_lt from (sc_ConnectionID c) ∧ selected full since c = true;
  ps_complete : ∀ c, V !! sc_ConnectionID c = Some c → str_lt from (sc_ConnectionID c) →
    selected full since c = true →
    (Z.of_nat (length page) < pageSize)%Z ∨
    (∃ d, list.last page = Some d ∧ String.le (sc_ConnectionID c) (sc_ConnectionID d)) →
    c ∈ page;
}.

Lemma increasing_sublist {A} (id_of : A → string) l k :
  sublist l k → increasing id_of k → increasing id_of l.
Proof.
  unfold increasing. intros Hsub. induction Hsub as [|x l k Hsub IH|x l k Hsub IH]; csimpl; [done| |].
  - intros [Hs Hx]%StronglySorted_inv. constructor; [auto|].
    apply list.Forall_forall. intros y Hy. rewrite list.Forall_forall in Hx. apply Hx.
    eapply sublist_subseteq; [by apply fmap_sublist|done].
  - intros [Hs _]%StronglySorted_inv. auto.
Qed.

Lemma increasing_app_lt {A} (id_of : A → string) l k x y :
  increasing id_of (l ++ k) → x ∈ l → y ∈ k → str_lt (id_of x) (id_of y).
Proof.
  unfold increasing. rewrite fmap_app. intros Hs Hx Hy.
  eapply StronglySorted_app_1_elem_of; [exact Hs|by apply list_elem_of_fmap_2..].
Qed.

Lemma take_page_spec V full since from pageSize l :
  (1 ≤ pageSize)%Z → lists V from l →
  page_spec V full since from pageSize
    (take (Z.to_nat pageSize) (filter (fun c => selected full since c = true) l)).
Proof.
  intros Hps [Hinc Hin]. set (L := filter _ l). set (n := Z.to_nat pageSize).
  assert (HL : increasing sc_ConnectionID L).
  { eapply increasing_sublist; [apply sublist_filter|done]. }
  constructor.
  - eapply increasing_sublist; [apply sublist_take|done].
  - rewrite length_take. lia.
  - intros c Hc. assert (HcL : c ∈ L) by by eapply subseteq_take.
    apply list_elem_of_filter in HcL as [Hsel [Hc1 Hc2]%Hin]. done.
  - intros c Hc Hlt Hsel Hend.
    assert (HcL : c ∈ L) by by apply list_elem_of_filter; rewrite Hin.
    rewrite <-(take_drop n L) in HcL. apply elem_of_app in HcL as [|Hd]; [done|exfalso].
    assert (Hlen : n < length L).
    { apply list_elem_of_lookup in Hd as [i Hi]. apply lookup_lt_Some in Hi.
      rewrite length_drop in Hi. lia. }
    destruct Hend as [Hend|(d & Hlast & Hle)]; [rewrite length_take in Hend; lia|].
    rewrite <-(take_drop n L) in HL.
    destruct (increasing_app_lt _ _ _ d c HL (last_Some_elem_of _ _ Hlast) Hd) as [Hdc Hne].
    apply Hne. by apply (anti_symm String.le).
Qed.

Lemma visit_credential_ok V query c :
  rows_ok V → V !! sc_ConnectionID c = Some c → str_lt (q_FromConnectionID query) (sc_ConnectionID c) →
  visit_credential build query c =
    Ok (if selected (q_Full query) (q_SinceManifestStartedAtMS query) c
        then Some (change_of c (pay c)) else None).
Proof.
  intros [Hkey Hb] Hc Hlt. pose proof (str_lt_nonempty _ _ Hlt). destruct Hlt as [Hle Hne].
  unfold visit_credential, selected. rewrite bool_decide_eq_false_2 by done.
  rewrite (bool_decide_eq_false_2 (String.le (sc_ConnectionID c) _)).
  2: { intros Hle'. apply Hne. by apply (anti_symm String.le). }
  rewrite andb_false_r, (Hb _ _ Hc). simpl.
  destruct (q_Full query); [by destruct (sc_Active c)|].
  destruct (Z.leb_spec (sc_UpdatedAtMS c) 0), (Z.ltb_spec 0 (sc_UpdatedAtMS c)); try lia; simpl; [done|].
  destruct (Z.ltb_spec (sc_UpdatedAtMS c) (q_SinceManifestStartedAtMS query)),
    (Z.leb_spec (q_SinceManifestStartedAtMS query) (sc_UpdatedAtMS c)); try lia; done.
Qed.

Definition changes_of (page : list (StoredConnection M)) : list (Change T) :=
  (fun c => change_of c (pay c)) <$> page.

Lemma picked_rows V query l :
  rows_ok V → lists V (q_FromConnectionID query) l →
  picked (visit_credential build query) l =
    changes_of (filter (fun c =>
      selected (q_Full query) (q_SinceManifestStartedAtMS query) c = true) l).
Proof.
  intros HV [_ Hin]. assert (Hl : ∀ c, c ∈ l → V !! sc_ConnectionID c = Some c ∧
    str_lt (q_FromConnectionID query) (sc_ConnectionID c)) by (intros; by apply Hin).
  clear Hin. induction l as [|c l IH]; [done|]. unfold picked in *. simpl.
  destruct (Hl c (list_elem_of_here _ _)) as [H1 H2].
  rewrite (visit_credential_ok _ _ _ HV H1 H2), list.filter_cons.
  destruct (selected _ _ c); simpl.
  - unfold changes_of in *. simpl. f_equal.
    apply IH. intros. apply Hl. by right.
  - apply IH. intros. apply Hl. by right.
Qed.

Lemma page_increasing V full since from pageSize page :
  page_spec V full since from pageSize page → increasing ch_ConnectionID (changes_of page).
Proof.
  intros [Hinc _ _ _]. unfold increasing, changes_of in *. by rewrite <-list_fmap_compose.
Qed.

Lemma page_valid V full since from pageSize page started :
  ValidatePageSize pageSize = Ok tt → page_spec V full since from pageSize page →
  ValidateResponse (mkResponse started full (changes_of page)) pageSize = Ok tt.
Proof.
  intros Hps%ValidatePageSize_Ok Hpage. apply ValidateResponse_Ok. constructor; simpl.
  - done.
  - unfold changes_of. rewrite length_fmap. by apply (ps_length _ _ _ _ _ _ Hpage).
  - unfold changes_of. apply Forall_fmap, list.Forall_forall. intros c Hc.
    apply (ps_sound _ _ _ _ _ _ Hpage) in Hc as (_ & Hlt & _). by apply str_lt_nonempty in Hlt.
  - by eapply page_increasing.
Qed.

Lemma ListSyncChanges_page V source nodeID query l :
  rows_ok V → (1 ≤ q_PageSize query)%Z →
  source nodeID (q_FromConnectionID query) = Ok l → lists V (q_FromConnectionID query) l →
  ∃ page, page_spec V (q_Full query) (q_SinceManifestStartedAtMS query)
            (q_FromConnectionID query) (q_PageSize query) page ∧
    ListSyncChanges (Some source) (Some build) nodeID query = Ok (changes_of page).
Proof.
  intros HV Hps Hsrc Hl. eexists. split; [by apply (take_page_spec _ _ _ _ _ l)|].
  unfold ListSyncChanges. rewrite Hsrc. simpl. rewrite sort_by_id_increasing by apply Hl.
  destruct (fill_page_total (visit_credential build query) (q_PageSize query) [] l) as [out Hout].
  - intros c [Hc Hlt]%Hl. by rewrite (visit_credential_ok V).
  - rewrite Hout. apply fill_page_Ok in Hout; [|simpl; lia]. rewrite Hout. simpl.
    rewrite Nat.sub_0_r, (picked_rows V) by done. unfold changes_of. by rewrite fmap_take.
Qed.

Lemma BuildResponse_page V source nodeID request now l :
  rows_ok V → ValidatePageSize (rq_PageSize request) = Ok tt →
  source nodeID (rq_FromConnectionID request) = Ok l → lists V (rq_FromConnectionID request) l →
  ∃ page, page_spec V (rq_Full request) (rq_SinceManifestStartedAtMS request)
            (rq_FromConnectionID request) (rq_PageSize request) page ∧
    BuildResponse (ListSyncChanges (Some source) (Some build) nodeID) request now =
      Ok (mkResponse (TimeUnixMilli now) (rq_Full request) (changes_of page)).
Proof.
  intros HV Hps Hsrc Hl. pose proof Hps as [Hps1 _]%ValidatePageSize_Ok.
  destruct (ListSyncChanges_page V source nodeID
    (mkQuery (rq_Full request) (rq_SinceManifestStartedAtMS request) (rq_FromConnectionID request)
       (rq_PageSize request) (TimeUnixMilli now)) l HV Hps1 Hsrc Hl) as (page & Hpage & Heq).
  exists page. split; [exact Hpage|]. unfold BuildResponse. rewrite Hps.
  cbn [mbind result_bind]. cbv zeta. rewrite Heq. cbn [mbind result_bind].
  unfold SortChanges. rewrite sort_by_id_increasing by (by eapply page_increasing).
  pose proof (ps_length _ _ _ _ _ _ Hpage) as Hlen. simpl in Hlen.
  rewrite (proj2 (Z.ltb_ge _ _)) by (unfold changes_of; rewrite length_fmap; lia).
  by rewrite (page_valid _ _ _ _ _ _ _ Hps Hpage).
Qed.
End Page.
