(* ===== verification/SyncEngine.v ===== *)
(** * SyncEngine: how an agent pulls its credentials

    [src/internal/agent/common/sync_engine.go] and [credential_sync.go], and the
    two instances [src/internal/agent/{hysteria2,amneziawg}/sync/sync.go].  The
    interfaces of the source ([CursorStore], [Source], [Applier], [AuthStore],
    [CredentialRuntime]) are records of effectful functions over a world [W]:
    the agent's database, the data plane and everything a page request goes
    through.  What a pass did before it failed stays done.

    [Engine.Run] asks for pages until one is short.  The number of pages is not
    bounded by the code, so the loop takes fuel; [None] means that the fuel ran
    out, and [SyncConvergence] proves how much is enough. *)

From S2P Require Import Prelude GoLib Sql AgentStore SyncProtocol ServerManifest.

(** ** The engine *)
Section Engine.
Context {W T P : Type}.

Record CursorStore := mkCursorStore {
  LoadSyncCursor : string → goM W (Z * bool);
  SaveSyncCursor : string → Z → goM W unit;
}.

Definition Source : Type := Request → goM W (Response T).

Record PassResult := mkPassResult {
  pr_Full : bool;
  pr_ManifestStartedAtMS : Z;
  pr_SeenConnectionIDs : gset string;
}.

(** [P] is the state of a pass, which the source mutates through a pointer. *)
Record Applier := mkApplier {
  BeginSyncPass : bool → goM W P;
  ApplySyncChange : Change T → P → goM W P;
  FinishSyncPass : PassResult → P → goM W unit;
}.

Record Engine := mkEngine {
  e_CursorKey : string;
  e_PageSize : Z;
  e_Cursors : option CursorStore;
  e_Source : option Source;
  e_Applier : option Applier;
}.

(** The variables of the loop; [ls_pass] is nil before the first page. *)
Record loop_state := mkLoop {
  ls_full : bool;
  ls_from : string;
  ls_cursor : Z;
  ls_seen : gset string;
  ls_pass : option P;
}.

Definition begin_pass (applier : Applier) (response : Response T) (st : loop_state)
    : goM W (loop_state * P) :=
  match ls_pass st with
  | Some pass => mret (st, pass)
  | None =>
      let full := ls_full st || rs_Full response in
      pass ← BeginSyncPass applier full;
      mret (mkLoop full (ls_from st) (rs_ManifestStartedAtMS response) (ls_seen st) (Some pass), pass)
  end.

Definition apply_change (applier : Applier) (acc : P * string * gset string) (change : Change T)
    : goM W (P * string * gset string) :=
  let '(pass, from, seen) := acc in
  pass ← ApplySyncChange applier change pass;
  mret (pass, ch_ConnectionID change, {[ch_ConnectionID change]} ∪ seen).

(** One turn of the loop, and whether it was the last. *)
Definition page_turn (source : Source) (applier : Applier) (since pageSize : Z) (st : loop_state)
    : goM W (loop_state * bool) :=
  response ← source (mkRequest (ls_full st) since pageSize (ls_from st));
  _ ← liftM (ValidateResponse response pageSize);
  '(st, pass) ← begin_pass applier response st;
  '(pass, from, seen) ← foldlM (apply_change applier) (rs_Changes response)
                          (pass, ls_from st, ls_seen st);
  mret (mkLoop (ls_full st) from (ls_cursor st) seen (Some pass),
        (Z.of_nat (length (rs_Changes response)) <? pageSize)%Z).

Fixpoint run_pages (fuel : nat) (source : Source) (applier : Applier) (since pageSize : Z)
    (st : loop_state) (w : W) : option (W * result loop_state) :=
  match fuel with
  | O => None
  | S fuel =>
      match page_turn source applier since pageSize st w with
      | (w', Err e) => Some (w', Err e)
      | (w', Ok (st', true)) => Some (w', Ok st')
      | (w', Ok (st', false)) => run_pages fuel source applier since pageSize st' w'
      end
  end.

(** [pass.FinishSyncPass(..)] and the cursor, after the last page. *)
Definition finish (e_key : string) (cursors : CursorStore) (applier : Applier) (st : loop_state)
    : goM W unit :=
  match ls_pass st with
  | None => failM "nil pass"
  | Some pass =>
      _ ← FinishSyncPass applier (mkPassResult (ls_full st) (ls_cursor st) (ls_seen st)) pass;
      SaveSyncCursor cursors e_key (ls_cursor st)
  end.

(** Where the pass starts: the full flag and the cursor. *)
Definition load_cursor (key : string) (cursors : CursorStore) (full : bool) : goM W (bool * Z) :=
  if full then mret (true, 0%Z)
  else
    '(cursor, ok) ← LoadSyncCursor cursors key;
    mret (if (ok : bool) then (false, cursor) else (true, 0%Z)).

Definition Run (fuel : nat) (e : Engine) (full : bool) (w : W) : option (W * result unit) :=
  let pageSize := NormalizePageSize (e_PageSize e) in
  match ValidatePageSize pageSize with
  | Err err => Some (w, Err err)
  | Ok _ =>
      match e_Cursors e, e_Source e, e_Applier e with
      | None, _, _ => Some (w, Err "agent sync cursor store is required")
      | _, None, _ => Some (w, Err "agent sync source is required")
      | _, _, None => Some (w, Err "agent sync applier is required")
      | Some cursors, Some source, Some applier =>
          match load_cursor (e_CursorKey e) cursors full w with
          | (w, Err err) => Some (w, Err err)
          | (w, Ok (full, since)) =>
              match run_pages fuel source applier since pageSize (mkLoop full "" 0 ∅ None) w with
              | None => None
              | Some (w, Err err) => Some (w, Err err)
              | Some (w, Ok st) => Some (finish (e_CursorKey e) cursors applier st w)
              end
          end
      end
  end.
End Engine.
Arguments CursorStore W : clear implicits.
Arguments Source W T : clear implicits.
Arguments Applier W T P : clear implicits.
Arguments Engine W T P : clear implicits.
Arguments loop_state P : clear implicits.

(** ** Pages from a manifest *)
Section ManifestSource.
Context {W Pl : Type} (fetch : Request → goM W (ManifestResponse (CredentialChange Pl))).

Definition op_of_wire (op : CredentialChangeOp) : Operation :=
  if bool_decide (op = CREDENTIAL_CHANGE_OP_UPSERT) then OperationUpsert else OperationDelete.

Definition change_of_wire (c : CredentialChange Pl) : Change (CredentialChange Pl) :=
  mkChange (cc_ConnectionId c) (op_of_wire (cc_Op c)) 0 c.

Definition response_of_manifest (manifest : ManifestResponse (CredentialChange Pl))
    : result (Response (CredentialChange Pl)) :=
  if bool_decide (mr_Error manifest = "") then
    Ok (mkResponse (mr_ManifestStartedAtMS manifest) (mr_Full manifest)
          (SortChanges (change_of_wire <$> mr_Changes manifest)))
  else Err "auth manifest rejected".

Definition FetchSyncPage : Source W (CredentialChange Pl) := fun req =>
  manifest ← fetch req;
  liftM (response_of_manifest manifest).
End ManifestSource.

(** [authManifestRequestMessage]: the page size travels as a [uint32]. *)
Definition authManifestRequest (nodeID : string) (request : Request) : AuthManifestRequest :=
  mkAuthManifestRequest nodeID (rq_SinceManifestStartedAtMS request) (rq_Full request)
    (uint32 (rq_PageSize request)) (rq_FromConnectionID request).

(** ** Credential synchronisation *)
Record AuthStore (W : Type) := mkAuthStore {
  as_GetState : string → goM W string;
  as_SetState : string → string → goM W unit;
  as_ListAuthUsers : goM W (list AuthUser);
  as_UpsertAuthUser : AuthUser → goM W unit;
  as_DeleteAuthUser : string → goM W unit;
  as_ApplyFullAuthSnapshot : gmap string AuthUser → string → Z → goM W unit;
}.
Arguments mkAuthStore {W} _ _ _ _ _ _.
Arguments as_GetState {W} _ _.
Arguments as_SetState {W} _ _ _.
Arguments as_ListAuthUsers {W} _.
Arguments as_UpsertAuthUser {W} _ _.
Arguments as_DeleteAuthUser {W} _ _.
Arguments as_ApplyFullAuthSnapshot {W} _ _ _ _.

Record CredentialRuntime (W T : Type) := mkCredentialRuntime {
  rt_ApplyCredential : T → goM W AuthUser;
  rt_RemoveCredential : AuthUser → goM W unit;
  rt_ReconcileCredentials : gmap string AuthUser → goM W unit;
}.
Arguments mkCredentialRuntime {W T} _ _ _.
Arguments rt_ApplyCredential {W T} _ _.
Arguments rt_RemoveCredential {W T} _ _.
Arguments rt_ReconcileCredentials {W T} _ _.

Definition AuthSyncCursorKey : string := "last_applied_auth_manifest_started_at".

Section CredentialSync.
Context {W T : Type} (store : AuthStore W) (source : Source W T) (runtime : CredentialRuntime W T).

(** [authCursor] *)
Definition auth_LoadSyncCursor (key : string) : goM W (Z * bool) := fun w =>
  match as_GetState store key w with
  | (w, Err e) => if bool_decide (e = ErrNotFound) then (w, Ok (0%Z, false)) else (w, Err e)
  | (w, Ok raw) =>
      match Strconv.ParseInt raw with
      | Ok v => (w, Ok (v, true))
      | Err e => (w, Err e)
      end
  end.
Definition auth_SaveSyncCursor (key : string) (v : Z) : goM W unit :=
  as_SetState store key (Strconv.FormatInt v).

(** [credentialSyncPass] *)
Record sync_pass := mkSyncPass {
  sp_full : bool;
  sp_current : gmap string AuthUser;
  sp_keep : gmap string AuthUser;
  sp_removed : gmap string AuthUser;
}.

Definition cred_BeginSyncPass (full : bool) : goM W sync_pass :=
  users ← as_ListAuthUsers store;
  let current := foldl (fun m u => <[u_ConnectionID u := u]> m) ∅ users in
  mret (mkSyncPass full current ∅ ∅).

Definition cred_ApplySyncChange (c : Change T) (p : sync_pass) : goM W sync_pass :=
  match ch_Operation c with
  | OperationUpsert =>
      u ← rt_ApplyCredential runtime (ch_Payload c);
      let p := mkSyncPass (sp_full p) (sp_current p)
                 (<[ch_ConnectionID c := u]> (sp_keep p)) (sp_removed p) in
      if negb (sp_full p) then _ ← as_UpsertAuthUser store u; mret p else mret p
  | OperationDelete =>
      let p := match sp_current p !! ch_ConnectionID c with
               | Some u => mkSyncPass (sp_full p) (sp_current p) (sp_keep p)
                             (<[ch_ConnectionID c := u]> (sp_removed p))
               | None => p
               end in
      if negb (sp_full p) then _ ← as_DeleteAuthUser store (ch_ConnectionID c); mret p else mret p
  end.

(** The credentials a full pass drops: the known ones it has not kept.  A Go
    map has no iteration order; the model removes them in the order of
    [map_to_list]. *)
Definition dropped (p : sync_pass) : gmap string AuthUser :=
  filter (fun iu => sp_keep p !! iu.1 = None) (sp_current p).

Definition cred_FinishSyncPass (r : PassResult) (p : sync_pass) : goM W unit :=
  let removed := if sp_full p then dropped p ∪ sp_removed p else sp_removed p in
  _ ← (if sp_full p
       then as_ApplyFullAuthSnapshot store (sp_keep p) AuthSyncCursorKey (pr_ManifestStartedAtMS r)
       else mret tt);
  _ ← iterM (rt_RemoveCredential runtime) (map_to_list removed).*2;
  if sp_full p then rt_ReconcileCredentials runtime (sp_keep p) else mret tt.

Definition cred_cursors : CursorStore W := mkCursorStore auth_LoadSyncCursor auth_SaveSyncCursor.
Definition cred_applier : Applier W T sync_pass :=
  mkApplier cred_BeginSyncPass cred_ApplySyncChange cred_FinishSyncPass.

Definition RunOnce (fuel : nat) (full : bool) : W → option (W * result unit) :=
  Run fuel (mkEngine AuthSyncCursorKey 0 (Some cred_cursors) (Some source) (Some cred_applier)) full.
End CredentialSync.

(** ** The agent's database as a credential store *)
Section DBStore.
Context {W : Type} (db : W → DB) (put : DB → W → W).

Definition db_AuthStore : AuthStore W := mkAuthStore
  (fun key w => (w, GetState key (db w)))
  (fun key v w => (put (SetState key v (db w)) w, Ok tt))
  (fun w => (w, Ok (ListAuthUsers (db w))))
  (fun u w => match UpsertAuthUser u (db w) with
              | Ok d => (put d w, Ok tt)
              | Err e => (w, Err e)
              end)
  (fun id w => (put (DeleteAuthUser id (db w)) w, Ok tt))
  (fun keep key ms w => match ApplyFullAuthSnapshot keep key ms (db w) with
                        | Ok d => (put d w, Ok tt)
                        | Err e => (w, Err e)
                        end).
End DBStore.

(** ** The Hysteria agent *)

(** [json.Marshal] of a struct with the one field [password_hash]. *)
Definition password_meta (hash : string) : string :=
  "{" +:+ Json.quote "password_hash" +:+ ":" +:+ Json.quote hash +:+ "}".

Definition toAuthUser (snap : CredentialChange string) : AuthUser :=
  mkAuthUser (cc_ConnectionId snap) (cc_ConnectionId snap)
    (password_meta (default "" (cc_Payload snap))).

Section Hysteria.
Context {W : Type} (kicker : option (string → goM W unit)).

Definition kickCredential (connectionID : string) : goM W unit :=
  match kicker with
  | None => mret tt
  | Some kick => if bool_decide (connectionID = "") then mret tt else kick connectionID
  end.

Definition hysteriaCredentialRuntime : CredentialRuntime W (CredentialChange string) :=
  mkCredentialRuntime
    (fun change => mret (toAuthUser change))
    (fun user => if bool_decide (u_NativeAuthID user = "") then mret tt
                 else kickCredential (u_NativeAuthID user))
    (fun _ => mret tt).
End Hysteria.

(** ** The AmneziaWG agent

    [UpsertPeer], [RemovePeer] and [PruneRuntimePeers] act on the WireGuard
    interface through the reconciler, [PrunePeers] on its stored desired
    state. *)
Section Amnezia.
Context {W : Type}.

Record Reconciler := mkReconciler {
  rc_UpsertPeer : option AmneziaCredential → goM W unit;
  rc_RemovePeer : string → goM W unit;
  rc_PruneRuntimePeers : gset string → goM W unit;
}.

Context (reconciler : Reconciler) (desired : option (gset string → goM W unit)) (st : AuthStore W).

Definition native_keys (keep : gmap string AuthUser) : gset string :=
  list_to_set (u_NativeAuthID <$> (map_to_list keep).*2).

(** [persistentAuthStore]: the peer is removed before its row. *)
Definition persistent_DeleteAuthUser (id : string) : goM W unit :=
  users ← as_ListAuthUsers st;
  _ ← iterM (fun user =>
        if bool_decide (u_ConnectionID user = id) then rc_RemovePeer reconciler (u_NativeAuthID user)
        else mret tt) users;
  as_DeleteAuthUser st id.

Definition persistent_ApplyFullAuthSnapshot (keep : gmap string AuthUser) (cursor : string)
    (started : Z) : goM W unit :=
  users ← as_ListAuthUsers st;
  _ ← iterM (fun user =>
        match keep !! u_ConnectionID user with
        | None => rc_RemovePeer reconciler (u_NativeAuthID user)
        | Some _ => mret tt
        end) users;
  let keys := native_keys keep in
  _ ← match desired with Some prune => prune keys | None => mret tt end;
  _ ← rc_PruneRuntimePeers reconciler keys;
  as_ApplyFullAuthSnapshot st keep cursor started.

Definition persistentAuthStore : AuthStore W := mkAuthStore
  (as_GetState st) (as_SetState st) (as_ListAuthUsers st) (as_UpsertAuthUser st)
  persistent_DeleteAuthUser persistent_ApplyFullAuthSnapshot.

Definition amneziaRuntime : CredentialRuntime W (CredentialChange AmneziaCredential) :=
  mkCredentialRuntime
    (fun c => _ ← rc_UpsertPeer reconciler (cc_Payload c);
              mret (mkAuthUser (cc_ConnectionId c)
                      (match cc_Payload c with Some p => ac_PublicKey p | None => "" end) "{}"))
    (fun u => rc_RemovePeer reconciler (u_NativeAuthID u))
    (fun keep => rc_PruneRuntimePeers reconciler (native_keys keep)).
End Amnezia.
Arguments Reconciler W : clear implicits.
