(* ===== verification/SyncConvergence.v ===== *)
(** * SyncConvergence: an agent's credentials follow the control plane

    The synchronisation as a whole: the pages of [ServerManifest], pulled by the
    engine of [SyncEngine], while the control plane goes on changing.  A world
    holds the agent's database and the number of requests so far; what the
    control plane would serve for the node at each answer, and when, is given.
    It may change in any way between two answers.

    A credential can be [followed] over a stretch of answers when each change of
    it carries a version that is not older than the answer before.  For those
    the invariant is [synced T]: if the version is older than the agent's cursor
    [T], the credential is in the agent's database exactly as desired, and if the
    control plane does not know it, it is not there.  Every pass keeps it, full or
    incremental, successful or interrupted at any point; and a successful pass
    moves the cursor to the time of its first page.  A credential that is
    [steady], the same at every answer of a successful pass, is as desired after
    it ([run_follows]).  And what stays behind the cursor is left alone by
    incremental passes ([delta_run]). *)

From S2P Require Import Prelude GoLib Sql AgentStore ServerModel SyncProtocol ServerManifest SyncEngine.

(** ** Agreement

    For the identifiers in [G]. *)
Section Agreement.
Context {M : Type} (want : StoredConnection M → option AuthUser).
Implicit Types (G : string → Prop) (V : gmap string (StoredConnection M)) (A : gmap string AuthUser).

(** A change that carries a version not older than [t], or none. *)
Definition moves (t : Z) (x x' : option (StoredConnection M)) : Prop :=
  x' = x ∨ ∃ c, x' = Some c ∧ (t ≤ sc_UpdatedAtMS c)%Z.

Definition evolves G (t : Z) V V' : Prop := ∀ id, G id → moves t (V !! id) (V' !! id).

Definition known G V A : Prop := ∀ id, G id → V !! id = None → A !! id = None.

Record synced G (T : Z) V A : Prop := {
  sy_agree : ∀ id c, G id → V !! id = Some c → (sc_UpdatedAtMS c < T)%Z → A !! id = want c;
  sy_known : known G V A;
}.

(** In the middle of an incremental pass that started at [T1] from cursor
    [T0]: up to [from] the agent has caught up with [T1]. *)
Record midway G (T0 T1 : Z) (from : string) V A : Prop := {
  mw_done : ∀ id c, G id → V !! id = Some c → String.le id from → (sc_UpdatedAtMS c < T1)%Z → A !! id = want c;
  mw_todo : ∀ id c, G id → V !! id = Some c → str_lt from id → (sc_UpdatedAtMS c < T0)%Z → A !! id = want c;
  mw_known : known G V A;
}.

Lemma evolves_old G t V V' id c :
  evolves G t V V' → G id → V' !! id = Some c → (sc_UpdatedAtMS c < t)%Z → V !! id = Some c.
Proof.
  intros Hev HG Hc Hlt. destruct (Hev id HG) as [He|(c' & Hc' & Hge)]; [congruence|].
  rewrite Hc in Hc'. injection Hc' as <-. lia.
Qed.

Section Evolves.
Context (G G' : string → Prop) (HG : ∀ id, G' id → G id) (t : Z) (V V' : gmap string (StoredConnection M)).
Context (Hev : evolves G' t V V').

Lemma known_evolves A : known G V A → known G' V' A.
Proof.
  intros Hk id Hid Hn. destruct (Hev id Hid) as [He|(c' & Hc' & _)]; [|congruence].
  apply Hk; [by apply HG|congruence].
Qed.

Lemma synced_evolves T A : (T ≤ t)%Z → synced G T V A → synced G' T V' A.
Proof.
  intros HTt [Ha Hk]. split; [|by apply known_evolves].
  intros id c Hid Hc Hlt. apply Ha; [by apply HG| |done]. eapply evolves_old; [done|done|done|lia].
Qed.

Lemma midway_evolves T0 T1 from A :
  (T0 ≤ T1)%Z → (T1 ≤ t)%Z → midway G T0 T1 from V A → midway G' T0 T1 from V' A.
Proof.
  intros H01 H1t [Hd Ht Hk]. split; [| |by apply known_evolves].
  - intros id c Hid Hc Hle Hlt. eapply Hd; [by apply HG| |done|done]. eapply evolves_old; [done|done|done|lia].
  - intros id c Hid Hc Hlt' Hlt. eapply Ht; [by apply HG| |done|done]. eapply evolves_old; [done|done|done|lia].
Qed.
End Evolves.

Lemma midway_start G T0 T1 V A : V !! "" = None → synced G T0 V A → midway G T0 T1 "" V A.
Proof.
  intros He [Ha Hk]. split; [| |done].
  - intros id c Hid Hc Hle. assert (id = "") as ->; [|congruence].
    apply (anti_symm String.le); [done|by destruct id].
  - intros id c Hid Hc _. by apply Ha.
Qed.

Lemma synced_weaken G G' T V A : (∀ id, G' id → G id) → synced G T V A → synced G' T V A.
Proof. intros HG [Ha Hk]. split; [intros id c Hid|intros id Hid]; auto. Qed.

(** ** Writing a page into the credentials *)
Definition set_users (page : list (StoredConnection M)) A : gmap string AuthUser :=
  foldl (fun A c => match want c with
                    | Some u => <[sc_ConnectionID c := u]> A
                    | None => delete (sc_ConnectionID c) A
                    end) A page.

Lemma set_users_other page A id :
  id ∉ sc_ConnectionID <$> page → set_users page A !! id = A !! id.
Proof.
  unfold set_users. revert A; induction page as [|c page IH]; intros A Hid; csimpl in *; [done|].
  apply not_elem_of_cons in Hid as [Hne Hid]. rewrite IH by done.
  destruct (want c); [by rewrite lookup_insert_ne|by rewrite lookup_delete_ne].
Qed.

Lemma set_users_same page A c :
  NoDup (sc_ConnectionID <$> page) → c ∈ page → set_users page A !! sc_ConnectionID c = want c.
Proof.
  unfold set_users. revert A; induction page as [|d page IH]; intros A Hnd Hc; csimpl in *.
  { by apply elem_of_nil in Hc. }
  apply list.NoDup_cons in Hnd as [Hni Hnd]. apply elem_of_cons in Hc as [->|Hc]; [|by apply IH].
  pose proof (set_users_other page (match want d with
    | Some u => <[sc_ConnectionID d := u]> A | None => delete (sc_ConnectionID d) A end) _ Hni) as Ho.
  unfold set_users in Ho. rewrite Ho.
  destruct (want d); [by rewrite lookup_insert_eq|by rewrite lookup_delete_eq].
Qed.

Lemma set_users_known G V page A :
  (∀ c, c ∈ page → V !! sc_ConnectionID c = Some c) → known G V A → known G V (set_users page A).
Proof.
  intros Hp Hk id Hid Hn. rewrite set_users_other; [by apply Hk|].
  intros (c & -> & Hc)%list_elem_of_fmap. rewrite (Hp c Hc) in Hn. done.
Qed.

(** The cursor within a pass: the id of the last change, if there was one. *)
Definition last_id (from : string) (page : list (StoredConnection M)) : string :=
  foldl (fun _ c => sc_ConnectionID c) from page.

Lemma last_id_last from page :
  (page = [] ∧ last_id from page = from) ∨
  ∃ d, list.last page = Some d ∧ last_id from page = sc_ConnectionID d ∧ d ∈ page.
Proof.
  unfold last_id. destruct page as [|c page _] using rev_ind; [by left|right].
  exists c. rewrite foldl_app, last_snoc. split_and!; [done|done|].
  apply elem_of_app. right. by apply list_elem_of_singleton.
Qed.

Lemma increasing_last (page : list (StoredConnection M)) c d :
  increasing sc_ConnectionID page → list.last page = Some d → c ∈ page →
  String.le (sc_ConnectionID c) (sc_ConnectionID d).
Proof.
  intros Hinc [l ->]%last_Some Hc. apply elem_of_app in Hc as [Hc|Hc]; [|by apply list_elem_of_singleton in Hc as ->].
  eapply str_lt_le, (increasing_app_lt _ l [d]); [done|done|by left].
Qed.

Section OnePage.
Context (V : gmap string (StoredConnection M)) (full : bool) (since : Z) (from : string)
  (pageSize : Z) (page : list (StoredConnection M)).
Context (Hkey : ∀ id c, V !! id = Some c → sc_ConnectionID c = id).
Context (Hpage : page_spec V full since from pageSize page).

Lemma page_NoDup : NoDup (sc_ConnectionID <$> page).
Proof. apply increasing_NoDup, (ps_increasing _ _ _ _ _ _ Hpage). Qed.

Lemma page_row c : c ∈ page → V !! sc_ConnectionID c = Some c.
Proof. intros Hc. by apply (ps_sound _ _ _ _ _ _ Hpage). Qed.

Lemma page_after c : c ∈ page → str_lt from (sc_ConnectionID c).
Proof. intros Hc. by apply (ps_sound _ _ _ _ _ _ Hpage). Qed.

Lemma page_upto c : c ∈ page → String.le (sc_ConnectionID c) (last_id from page).
Proof.
  intros Hc. destruct (last_id_last from page) as [[-> _]|(d & Hd & -> & _)].
  - by apply elem_of_nil in Hc.
  - eapply increasing_last; [apply (ps_increasing _ _ _ _ _ _ Hpage)|done|done].
Qed.

Lemma from_le_last : String.le from (last_id from page).
Proof.
  destruct (last_id_last from page) as [[_ ->]|(d & _ & -> & Hd)]; [done|].
  by apply str_lt_le, page_after.
Qed.

(** A row of the region the page covers is in the page or was not asked for. *)
Lemma page_covers id c :
  V !! id = Some c → str_lt from id →
  (Z.of_nat (length page) < pageSize)%Z ∨ String.le id (last_id from page) →
  c ∈ page ∨ selected full since c = false ∧ id ∉ sc_ConnectionID <$> page.
Proof.
  intros Hc Hlt Hend. pose proof (Hkey _ _ Hc) as Hid.
  destruct (selected full since c) eqn:Hsel.
  - left. apply (ps_complete _ _ _ _ _ _ Hpage); rewrite ?Hid; [done..|].
    destruct Hend as [Hend|Hle]; [by left|].
    destruct (last_id_last from page) as [[-> Hl]|(d & Hd & Hl & _)]; rewrite Hl in Hle.
    + exfalso. destruct Hlt as [Hle' Hne]. apply Hne. by apply (anti_symm String.le).
    + right. eauto.
  - right. split; [done|]. intros (d & -> & Hd)%list_elem_of_fmap.
    pose proof (page_row d Hd) as Hd'. rewrite Hc in Hd'. injection Hd' as ->.
    apply (ps_sound _ _ _ _ _ _ Hpage) in Hd as (_ & _ & Hs). congruence.
Qed.

Lemma page_writes id c A :
  V !! id = Some c → c ∈ page → set_users page A !! id = want c.
Proof.
  intros Hc Hin. rewrite <-(Hkey _ _ Hc). apply set_users_same; [apply page_NoDup|done].
Qed.

Lemma page_skips id A :
  str_lt (last_id from page) id ∨ String.le id from → set_users page A !! id = A !! id.
Proof.
  intros Hid. apply set_users_other. intros (d & -> & Hd)%list_elem_of_fmap.
  destruct Hid as [[Hle Hne]|Hle].
  - apply Hne. apply (anti_symm String.le); [done|]. by apply page_upto.
  - destruct (page_after d Hd) as [Hle' Hne]. apply Hne. by apply (anti_symm String.le).
Qed.
End OnePage.

(** *** An incremental page *)
Lemma synced_partial G V T0 from pageSize page prefix A :
  (∀ id c, V !! id = Some c → sc_ConnectionID c = id) →
  page_spec V false T0 from pageSize page → prefix ⊆ page →
  synced G T0 V A → synced G T0 V (set_users prefix A).
Proof.
  intros Hkey Hpage Hsub [Ha Hk].
  assert (Hrow : ∀ c, c ∈ prefix → V !! sc_ConnectionID c = Some c).
  { intros c Hc. by eapply page_row; [|apply Hsub]. }
  split; [|by apply set_users_known]. intros id c Hid Hc Hlt.
  rewrite set_users_other; [by apply Ha|]. intros (d & -> & Hd)%list_elem_of_fmap.
  pose proof (Hrow d Hd) as Hd'. rewrite Hc in Hd'. injection Hd' as ->.
  apply Hsub, (ps_sound _ _ _ _ _ _ Hpage) in Hd as (_ & _ & Hsel). simpl in Hsel.
  apply andb_true_iff in Hsel as [_ Hge%Z.leb_le]. lia.
Qed.

Lemma midway_page G V T0 T1 from pageSize page A :
  (∀ id c, V !! id = Some c → sc_ConnectionID c = id) → (0 < T0)%Z →
  page_spec V false T0 from pageSize page → midway G T0 T1 from V A →
  midway G T0 T1 (last_id from page) V (set_users page A) ∧
  ((Z.of_nat (length page) < pageSize)%Z → synced G T1 V (set_users page A)).
Proof.
  intros Hkey HT0 Hpage [Hd Ht Hk].
  assert (Hcov : ∀ id c, G id → V !! id = Some c → (sc_UpdatedAtMS c < T1)%Z →
    (Z.of_nat (length page) < pageSize)%Z ∨ String.le id (last_id from page) →
    set_users page A !! id = want c).
  { intros id c Hid Hc Hlt Hend. destruct (decide (str_lt from id)) as [Hf|Hf].
    - destruct (page_covers _ _ _ _ _ _ Hkey Hpage id c Hc Hf Hend) as [Hin|[Hsel Hni]].
      + by eapply page_writes.
      + rewrite set_users_other by done. eapply Ht; [done|done|done|].
        simpl in Hsel. apply andb_false_iff in Hsel as [Hsel|Hsel];
          [apply Z.ltb_ge in Hsel|apply Z.leb_gt in Hsel]; lia.
    - apply str_not_lt in Hf. rewrite (page_skips _ _ _ _ _ _ Hpage) by by right.
      by eapply Hd. }
  assert (Hkn : known G V (set_users page A)).
  { apply set_users_known; [|done]. by eapply page_row. }
  split; [split|]; [| |done|].
  - intros id c Hid Hc Hle Hlt. apply Hcov; auto.
  - intros id c Hid Hc Hlt Hold. rewrite (page_skips _ _ _ _ _ _ Hpage) by by left.
    eapply Ht; [done|done| |done]. eapply str_le_lt_trans; [by eapply from_le_last|done].
  - intros Hshort. split; [|done]. intros id c Hid Hc Hlt. apply Hcov; auto.
Qed.

(** *** A page of a full pass *)

(** [K] is what a full pass that started at [T1] has collected up to [from]. *)
Record collected G (T1 : Z) (from : string) V (K : gmap string AuthUser) : Prop := {
  co_done : ∀ id c, G id → V !! id = Some c → String.le id from → (sc_UpdatedAtMS c < T1)%Z → K !! id = want c;
  co_todo : ∀ id, str_lt from id → K !! id = None;
  co_known : known G V K;
}.

Lemma collected_start G T1 V : V !! "" = None → collected G T1 "" V ∅.
Proof.
  intros He. split; [|by intros|by intros ???].
  intros id c Hid Hc Hle. assert (id = "") as ->; [|congruence].
  apply (anti_symm String.le); [done|by destruct id].
Qed.

Lemma collected_evolves G G' T1 from t V V' K :
  (∀ id, G' id → G id) → (T1 ≤ t)%Z → evolves G' t V V' → collected G T1 from V K → collected G' T1 from V' K.
Proof.
  intros HG H1t Hev [Hd Ht Hk]. split; [|done|by eapply known_evolves].
  intros id c Hid Hc Hle Hlt. eapply Hd; [by apply HG| |done|done]. eapply evolves_old; [done|done|done|lia].
Qed.

Lemma collected_page G V T1 since from pageSize page K :
  (∀ id c, V !! id = Some c → sc_ConnectionID c = id) →
  (∀ c, sc_Active c = false → want c = None) →
  page_spec V true since from pageSize page → collected G T1 from V K →
  collected G T1 (last_id from page) V (set_users page K) ∧
  ((Z.of_nat (length page) < pageSize)%Z → synced G T1 V (set_users page K)).
Proof.
  intros Hkey Hwant Hpage [Hd Ht Hk].
  assert (Hcov : ∀ id c, G id → V !! id = Some c → (sc_UpdatedAtMS c < T1)%Z →
    (Z.of_nat (length page) < pageSize)%Z ∨ String.le id (last_id from page) →
    set_users page K !! id = want c).
  { intros id c Hid Hc Hlt Hend. destruct (decide (str_lt from id)) as [Hf|Hf].
    - destruct (page_covers _ _ _ _ _ _ Hkey Hpage id c Hc Hf Hend) as [Hin|[Hsel Hni]].
      + by eapply page_writes.
      + rewrite set_users_other, Ht, (Hwant c) by done. done.
    - apply str_not_lt in Hf. rewrite (page_skips _ _ _ _ _ _ Hpage) by by right.
      by eapply Hd. }
  assert (Hkn : known G V (set_users page K)).
  { apply set_users_known; [|done]. by eapply page_row. }
  split; [split|]; [| |done|].
  - intros id c Hid Hc Hle Hlt. apply Hcov; auto.
  - intros id Hlt. rewrite (page_skips _ _ _ _ _ _ Hpage) by by left.
    apply Ht. eapply str_le_lt_trans; [by eapply from_le_last|done].
  - intros Hshort. split; [|done]. intros id c Hid Hc Hlt. apply Hcov; auto.
Qed.

(** Agreement up to every time is agreement. *)
Lemma synced_always G T0 V A id :
  (∀ T, (T0 ≤ T)%Z → synced G T V A) → G id → A !! id = V !! id ≫= want.
Proof.
  intros Hs Hid. destruct (V !! id) as [c|] eqn:E; cbn.
  - eapply (sy_agree _ _ _ _ (Hs (Z.max T0 (sc_UpdatedAtMS c + 1)) (Z.le_max_l _ _))); [done|done|lia].
  - by apply (sy_known _ _ _ _ (Hs T0 (Z.le_refl _))).
Qed.
End Agreement.

(** ** The promises of the components

    What the engine relies on: the credential store behaves as the agent's
    database on the part [db] of the world, and an error leaves it alone; the
    runtime does not touch the database and turns a change into the user
    [user_of] of it; and a page request that succeeds returns a page of the
    control plane's credentials.  [tick] counts the requests; the control plane
    answers the [n]-th one at time [time n] from the credentials [rows n]. *)
Section Promises.
Context {W M Pl : Type}.
Context (db : W → DB) (tick : W → nat) (rows : nat → gmap string (StoredConnection M)) (time : nat → Z).
Context (store : AuthStore W) (runtime : CredentialRuntime W (CredentialChange Pl))
  (source : Source W (CredentialChange Pl)).
Context (pay : StoredConnection M → CredentialChange Pl) (user_of : CredentialChange Pl → AuthUser).

Definition want (c : StoredConnection M) : option AuthUser :=
  if sc_Active c then Some (user_of (pay c)) else None.

Definition srv (w : W) : gmap string (StoredConnection M) := rows (tick w).
Definition clock (w : W) : Z := time (tick w).

Definition stays (w w' : W) : Prop := tick w' = tick w.
Definition same (w w' : W) : Prop := stays w w' ∧ db w' = db w.

(** The outcome of a write: done, or refused without a trace. *)
Definition wrote (spec : DB → result DB) (w : W) (out : W * result unit) : Prop :=
  stays w out.1 ∧
  match out.2 with Ok _ => spec (db w) = Ok (db out.1) | Err _ => db out.1 = db w end.

Definition wire_page (page : list (StoredConnection M)) : list (Change (CredentialChange Pl)) :=
  (fun c => change_of_wire (pay c)) <$> page.

Record promises : Prop := {
  pr_get : ∀ key w, ∃ r, as_GetState store key w = (w, r) ∧
    match r with
    | Ok v => GetState key (db w) = Ok v
    | Err e => e = ErrNotFound → GetState key (db w) = Err ErrNotFound
    end;
  pr_set : ∀ key v w, wrote (fun d => Ok (SetState key v d)) w (as_SetState store key v w);
  pr_list : ∀ w, ∃ r, as_ListAuthUsers store w = (w, r) ∧
    ∀ l, r = Ok l → l = ListAuthUsers (db w);
  pr_upsert : ∀ u w, wrote (UpsertAuthUser u) w (as_UpsertAuthUser store u w);
  pr_delete : ∀ id w, wrote (fun d => Ok (DeleteAuthUser id d)) w (as_DeleteAuthUser store id w);
  pr_snapshot : ∀ keep key ms w, wrote (ApplyFullAuthSnapshot keep key ms) w
    (as_ApplyFullAuthSnapshot store keep key ms w);
  pr_apply : ∀ c w, same w (rt_ApplyCredential runtime c w).1 ∧
    ∀ u, (rt_ApplyCredential runtime c w).2 = Ok u → u = user_of c;
  pr_remove : ∀ u w, same w (rt_RemoveCredential runtime u w).1;
  pr_reconcile : ∀ keep w, same w (rt_ReconcileCredentials runtime keep w).1;
  pr_fetch : ∀ req w, let '(w', r) := source req w in
    db w' = db w ∧ tick w' = S (tick w) ∧
    ∀ resp, r = Ok resp → ValidatePageSize (rq_PageSize req) = Ok tt →
      let full := rq_Full req || (rq_SinceManifestStartedAtMS req =? 0)%Z in
      ∃ page, page_spec (srv w') full (rq_SinceManifestStartedAtMS req)
                (rq_FromConnectionID req) (rq_PageSize req) page ∧
        resp = mkResponse (clock w') full (wire_page page);
  pr_clock : ∀ n, (0 < time n ≤ max_int64)%Z;
  pr_mono : ∀ n, (time n ≤ time (S n))%Z;
  pr_rows : ∀ n id c, rows n !! id = Some c →
    sc_ConnectionID c = id ∧ id ≠ "" ∧ cc_ConnectionId (pay c) = id ∧
    op_of_wire (cc_Op (pay c)) = (if sc_Active c then OperationUpsert else OperationDelete) ∧
    u_ConnectionID (user_of (pay c)) = id;
}.

Context (Hp : promises).

Lemma srv_key w id c : srv w !! id = Some c → sc_ConnectionID c = id.
Proof. intros Hc. by destruct (pr_rows Hp _ id c Hc). Qed.
Lemma srv_nonempty w : srv w !! "" = None.
Proof.
  destruct (srv w !! "") eqn:E; [|done]. by destruct (pr_rows Hp (tick w) _ _ E) as (_ & ? & _).
Qed.
Lemma want_inactive c : sc_Active c = false → want c = None.
Proof. unfold want. by intros ->. Qed.

(** ** Applying a page *)

(** One change of an incremental pass. *)
Lemma apply_delta w w' V c p r :
  srv w = V → V !! sc_ConnectionID c = Some c → sp_full p = false →
  cred_ApplySyncChange store runtime (change_of_wire (pay c)) p w = (w', r) →
  stays w w' ∧ sync_state (db w') = sync_state (db w) ∧
  match r with
  | Ok p' => sp_full p' = false ∧ auth_users (db w') = set_users want [c] (auth_users (db w))
  | Err _ => db w' = db w
  end.
Proof.
  intros HV Hc Hfull Happ. subst V.
  destruct (pr_rows Hp (tick w) _ _ Hc) as (Hid & _ & Hwid & Hop & Huid).
  unfold cred_ApplySyncChange in Happ. simpl in Happ. rewrite Hop in Happ.
  unfold want, set_users. simpl. unfold want. destruct (sc_Active c) eqn:Hact.
  - unfold mbind, goM_bind in Happ.
    destruct (pr_apply Hp (pay c) w) as [[Hs Hdb] Hu].
    destruct (rt_ApplyCredential runtime (pay c) w) as [w1 [u|e]]; simpl in *;
      [|injection Happ as <- <-; split_and!; [done|by rewrite Hdb|done]].
    specialize (Hu u eq_refl) as ->. rewrite Hfull in Happ. simpl in Happ.
    destruct (pr_upsert Hp (user_of (pay c)) w1) as [Hs2 Hw2].
    destruct (as_UpsertAuthUser store (user_of (pay c)) w1) as [w2 [[]|e]]; simpl in *;
      injection Happ as <- <-.
    + unfold UpsertAuthUser in Hw2. apply bind_Ok in Hw2 as (t & Ht & [= <-]). simpl.
      unfold put_auth_user in Ht. destruct (native_id_free _ _); [|done]. injection Ht as <-.
      rewrite Huid, Hdb. split_and!; [by unfold stays in *; congruence|done|done|done].
    + rewrite Hw2, Hdb. split_and!; [by unfold stays in *; congruence|done|done].
  - unfold mbind, goM_bind in Happ.
    assert (Hpf : ∀ p', p' = (match sp_current p !! cc_ConnectionId (pay c) with
      | Some u => mkSyncPass (sp_full p) (sp_current p) (sp_keep p)
          (<[cc_ConnectionId (pay c) := u]> (sp_removed p)) | None => p end) → sp_full p' = false).
    { intros p' ->. by destruct (sp_current p !! _). }
    rewrite (Hpf _ eq_refl) in Happ. simpl in Happ.
    destruct (pr_delete Hp (cc_ConnectionId (pay c)) w) as [Hs2 Hw2].
    destruct (as_DeleteAuthUser store (cc_ConnectionId (pay c)) w) as [w2 [[]|e]]; simpl in *;
      injection Happ as <- <-.
    + injection Hw2 as <-. simpl. split_and!; [done|done|by apply Hpf|by rewrite Hwid].
    + rewrite Hw2. split_and!; done.
Qed.

(** One change of a full pass, which serves active credentials only. *)
Lemma apply_full w w' c p r :
  srv w !! sc_ConnectionID c = Some c → sp_full p = true → sc_Active c = true →
  cred_ApplySyncChange store runtime (change_of_wire (pay c)) p w = (w', r) →
  same w w' ∧
  match r with
  | Ok p' => sp_full p' = true ∧ sp_keep p' = set_users want [c] (sp_keep p)
  | Err _ => True
  end.
Proof.
  intros Hc Hfull Hact Happ.
  destruct (pr_rows Hp (tick w) _ _ Hc) as (Hid & _ & Hwid & Hop & Huid).
  unfold cred_ApplySyncChange in Happ. simpl in Happ. rewrite Hop, Hact in Happ.
  unfold want, set_users. simpl. unfold want. rewrite Hact.
  unfold mbind, goM_bind in Happ.
  destruct (pr_apply Hp (pay c) w) as [[Hs Hdb] Hu].
  destruct (rt_ApplyCredential runtime (pay c) w) as [w1 [u|e]]; simpl in *;
    [|by injection Happ as <- <-].
  specialize (Hu u eq_refl) as ->. rewrite Hfull in Happ. simpl in Happ.
  injection Happ as <- <-. simpl. by rewrite Hwid.
Qed.

Abbreviation applier := (cred_applier store runtime).

Lemma apply_change_eq c p from seen w :
  apply_change applier (p, from, seen) (change_of_wire (pay c)) w =
  match cred_ApplySyncChange store runtime (change_of_wire (pay c)) p w with
  | (w', Ok p') => (w', Ok (p', cc_ConnectionId (pay c), {[cc_ConnectionId (pay c)]} ∪ seen))
  | (w', Err e) => (w', Err e)
  end.
Proof. done. Qed.

Lemma stays_trans w1 w2 w3 : stays w1 w2 → stays w2 w3 → stays w1 w3.
Proof. unfold stays. congruence. Qed.
Lemma same_trans w1 w2 w3 : same w1 w2 → same w2 w3 → same w1 w3.
Proof. intros [] []. split; [by eapply stays_trans|congruence]. Qed.

Lemma apply_page_delta page p from seen w w' r :
  (∀ c, c ∈ page → srv w !! sc_ConnectionID c = Some c) → sp_full p = false →
  foldlM (apply_change applier) (wire_page page) (p, from, seen) w = (w', r) →
  stays w w' ∧ sync_state (db w') = sync_state (db w) ∧
  match r with
  | Ok (p', from', _) => sp_full p' = false ∧ from' = last_id from page ∧
      auth_users (db w') = set_users want page (auth_users (db w))
  | Err _ => ∃ prefix, prefix ⊆ page ∧
      auth_users (db w') = set_users want prefix (auth_users (db w))
  end.
Proof.
  revert p from seen w; induction page as [|c page IH]; intros p from seen w Hrows Hfull Happ.
  { injection Happ as <- <-. split_and!; done. }
  cbn [wire_page fmap list_fmap foldlM] in Happ. unfold mbind, goM_bind in Happ.
  rewrite apply_change_eq in Happ.
  destruct (cred_ApplySyncChange store runtime (change_of_wire (pay c)) p w) as [w1 r1] eqn:E1.
  pose proof (Hrows c (list_elem_of_here _ _)) as Hc.
  destruct (apply_delta w w1 _ c p r1 eq_refl Hc Hfull E1) as (Hst & Hss & Hr).
  destruct r1 as [p1|e].
  2: { injection Happ as <- <-. split_and!; [done|done|]. exists []. rewrite Hr. split; [set_solver|done]. }
  destruct Hr as [Hfull1 Hu1]. assert (Hs1 : srv w1 = srv w) by by (unfold srv; rewrite Hst).
  destruct (pr_rows Hp (tick w) _ _ Hc) as (_ & _ & Hwid & _).
  apply IH in Happ as (Hst2 & Hss2 & Hr2); [|intros d Hd; rewrite Hs1; apply Hrows; by right|done].
  split; [by eapply stays_trans|]. split; [congruence|].
  destruct r as [[[p' from'] seen']|e].
  - destruct Hr2 as (Hf & -> & ->). split_and!; [done|by rewrite Hwid|by rewrite Hu1].
  - destruct Hr2 as (prefix & Hsub & ->). exists (c :: prefix). split; [set_solver|by rewrite Hu1].
Qed.

Lemma apply_page_full page p from seen w w' r :
  (∀ c, c ∈ page → srv w !! sc_ConnectionID c = Some c ∧ sc_Active c = true) → sp_full p = true →
  foldlM (apply_change applier) (wire_page page) (p, from, seen) w = (w', r) →
  same w w' ∧
  match r with
  | Ok (p', from', _) => sp_full p' = true ∧ from' = last_id from page ∧
      sp_keep p' = set_users want page (sp_keep p)
  | Err _ => True
  end.
Proof.
  revert p from seen w; induction page as [|c page IH]; intros p from seen w Hrows Hfull Happ.
  { injection Happ as <- <-. split_and!; done. }
  cbn [wire_page fmap list_fmap foldlM] in Happ. unfold mbind, goM_bind in Happ.
  rewrite apply_change_eq in Happ.
  destruct (cred_ApplySyncChange store runtime (change_of_wire (pay c)) p w) as [w1 r1] eqn:E1.
  destruct (Hrows c (list_elem_of_here _ _)) as [Hc Hact].
  destruct (apply_full w w1 c p r1 Hc Hfull Hact E1) as (Hst & Hr).
  destruct r1 as [p1|e]; [|by injection Happ as <- <-].
  destruct Hr as [Hfull1 Hu1]. assert (Hs1 : srv w1 = srv w) by by (unfold srv; rewrite (proj1 Hst)).
  destruct (pr_rows Hp (tick w) _ _ Hc) as (_ & _ & Hwid & _).
  apply IH in Happ as (Hst2 & Hr2); [|intros d Hd; rewrite Hs1; apply Hrows; by right|done].
  split; [by eapply same_trans|]. destruct r as [[[p' from'] seen']|e]; [|done].
  destruct Hr2 as (Hf & -> & ->). split_and!; [done|by rewrite Hwid|by rewrite Hu1].
Qed.

(** ** The pass *)
Definition cursor_of (d : DB) : option Z :=
  match GetState AuthSyncCursorKey d with
  | Ok raw => match Strconv.ParseInt raw with Ok T => Some T | Err _ => None end
  | Err _ => None
  end.

(** Between the requests [lo] and [hi] every change of the credential [id]
    carries a version that is not older than the answer before it; or there is
    no change at all. *)
Definition followed (lo hi : nat) (id : string) : Prop :=
  ∀ n, lo ≤ n < hi → moves (time n) (rows n !! id) (rows (S n) !! id).
Definition steady (lo hi : nat) (id : string) : Prop :=
  ∀ n, lo ≤ n < hi → rows (S n) !! id = rows n !! id.

Definition keyed (K : gmap string AuthUser) : Prop := ∀ id u, K !! id = Some u → u_ConnectionID u = id.

Lemma time_mono n m : n ≤ m → (time n ≤ time m)%Z.
Proof. induction 1 as [|m _ IH]; [done|]. pose proof (pr_mono Hp m). lia. Qed.
Lemma clock_mono w w' : tick w ≤ tick w' → (clock w ≤ clock w')%Z.
Proof. apply time_mono. Qed.

Section Follows.
(** When [trusted], the agent has been synchronising since request [lo]; else
    nothing is known of its past. *)
Context (trusted : Prop) (lo : nat).

Definition good (w : W) (id : string) : Prop := trusted ∧ followed lo (tick w) id.

(** The invariant of the whole system: the agent agrees with everything older
    than its cursor. *)
Definition follows (w : W) : Prop :=
  trusted → lo ≤ tick w ∧ ∀ T, cursor_of (db w) = Some T →
    (0 < T ≤ clock w)%Z ∧ synced want (good w) T (srv w) (auth_users (db w)).

Section Pass.
(** The pass starts with the cursor [since] after request [start]. *)
Context (since : Z) (start : nat).

(** The credentials that have not changed since the first answer of the pass. *)
Definition calm (w : W) (id : string) : Prop :=
  steady (S start) (tick w) id ∧ (trusted → followed lo (tick w) id).

(** The part of the loop invariant that is about the progress of the pass. *)
Definition progress (st : loop_state sync_pass) (p : sync_pass) (w : W) : Prop :=
  if ls_full st
  then collected want (good w) (ls_cursor st) (ls_from st) (srv w) (sp_keep p) ∧
       (∀ T, collected want (calm w) T (ls_from st) (srv w) (sp_keep p)) ∧ keyed (sp_keep p)
  else midway want (good w) since (ls_cursor st) (ls_from st) (srv w) (auth_users (db w)) ∧
       ∀ T, (since ≤ T)%Z → midway want (calm w) since T (ls_from st) (srv w) (auth_users (db w)).

(** An incremental pass relies on the cursor it has found. *)
Definition incremental (w : W) : Prop := trusted ∧ cursor_of (db w) = Some since ∧ (0 < since)%Z.

Record running (st : loop_state sync_pass) (w : W) : Prop := {
  rn_follows : follows w;
  rn_delta : ls_full st = false → incremental w;
  rn_start : start ≤ tick w;
  rn_pass : match ls_pass st with
    | None => ls_from st = ""
    | Some p => start < tick w ∧ sp_full p = ls_full st ∧ (time start ≤ ls_cursor st ≤ clock w)%Z ∧
                (ls_full st = false → since ≤ ls_cursor st)%Z ∧ progress st p w
    end;
}.

(** After the last page. *)
Record complete (st : loop_state sync_pass) (w : W) : Prop := {
  cp_follows : follows w;
  cp_cursor : (time start ≤ ls_cursor st ≤ clock w)%Z;
  cp_pass : ∃ p, ls_pass st = Some p ∧ sp_full p = ls_full st ∧
    if ls_full st
    then synced want (good w) (ls_cursor st) (srv w) (sp_keep p) ∧
         (∀ T, synced want (calm w) T (srv w) (sp_keep p)) ∧ keyed (sp_keep p)
    else synced want (good w) (ls_cursor st) (srv w) (auth_users (db w)) ∧
         ∀ T, (since ≤ T)%Z → synced want (calm w) T (srv w) (auth_users (db w));
}.

(** One request later. *)
Lemma good_next w w' id : tick w' = S (tick w) → good w' id → good w id.
Proof. unfold good. intros -> [? H]. split; [done|]. intros n Hn. apply H. lia. Qed.
Lemma calm_next w w' id : tick w' = S (tick w) → calm w' id → calm w id.
Proof.
  unfold calm. intros -> [Hs Hf]. split; [intros n Hn; apply Hs; lia|].
  intros Ht n Hn. apply Hf; [done|lia].
Qed.
Lemma good_evolves w w' :
  tick w' = S (tick w) → follows w → evolves (good w') (clock w) (srv w) (srv w').
Proof. unfold good, srv, clock. intros -> Hf id [Htr Hid]. apply Hid. destruct (Hf Htr). lia. Qed.
Lemma calm_evolves t w w' :
  tick w' = S (tick w) → start < tick w → evolves (calm w') t (srv w) (srv w').
Proof. unfold calm, srv. intros -> Hlt id [Hid _]. left. apply Hid. lia. Qed.

Lemma follows_next w w' : db w' = db w → tick w' = S (tick w) → follows w → follows w'.
Proof.
  intros Hdb Ht Hf Htr. destruct (Hf Htr) as [Hlo Hs]. split; [lia|]. intros T.
  rewrite Hdb. intros (HT & HsT)%Hs. pose proof (clock_mono w w' ltac:(lia)). split; [lia|].
  eapply synced_evolves; [| | |exact HsT]; [by intros id; apply good_next|by apply good_evolves|lia].
Qed.

Lemma follows_same w w' : same w w' → follows w → follows w'.
Proof. intros [Hs Hdb] Hf. unfold follows, good, srv, clock. rewrite Hdb, Hs. apply Hf. Qed.

(** The first page opens the pass; a later page finds it open. *)
Lemma begin_pass_cases (resp : Response (CredentialChange Pl)) st w w' r :
  begin_pass applier resp st w = (w', r) →
  w' = w ∧ match r with
  | Err _ => True
  | Ok (st', p) => ls_pass st' = Some p ∧ ls_from st' = ls_from st ∧
      match ls_pass st with
      | Some _ => st' = st
      | None => ls_full st' = ls_full st || rs_Full resp ∧
          ls_cursor st' = rs_ManifestStartedAtMS resp ∧ sp_full p = ls_full st' ∧ sp_keep p = ∅
      end
  end.
Proof.
  unfold begin_pass. destruct (ls_pass st) as [p|] eqn:Hpass.
  { intros [= <- <-]. done. }
  unfold mbind, goM_bind. cbn [BeginSyncPass cred_applier]. unfold cred_BeginSyncPass.
  unfold mbind, goM_bind. destruct (pr_list Hp w) as (rl & -> & _).
  destruct rl as [l|e]; intros [= <- <-]; done.
Qed.

Lemma cursor_of_state d d' : sync_state d' = sync_state d → cursor_of d' = cursor_of d.
Proof. unfold cursor_of, GetState. by intros ->. Qed.

(** A pass that is open, with the page it works on still to be applied. *)
Record opened (st : loop_state sync_pass) (p : sync_pass) (w : W) : Prop := {
  op_follows : follows w;
  op_delta : ls_full st = false → incremental w;
  op_start : start < tick w;
  op_pass : ls_pass st = Some p;
  op_full : sp_full p = ls_full st;
  op_cursor : (time start ≤ ls_cursor st ≤ clock w)%Z;
  op_since : (ls_full st = false → since ≤ ls_cursor st)%Z;
  op_progress : progress st p w;
}.

Lemma running_full st w : running st w → ls_full st || (since =? 0)%Z = ls_full st.
Proof.
  intros [_ Hd _ _]. destruct (ls_full st) eqn:E; [done|]. simpl.
  destruct (Hd eq_refl) as (_ & _ & ?). apply Z.eqb_neq. lia.
Qed.


(** The progress made so far stands when the next answer arrives. *)
Lemma progress_next st p w w1 :
  db w1 = db w → tick w1 = S (tick w) → follows w → start < tick w → (ls_cursor st ≤ clock w)%Z →
  (ls_full st = false → since ≤ ls_cursor st)%Z → progress st p w → progress st p w1.
Proof.
  intros Hdb Ht Hf Hlt Hcur Hsc. unfold progress. rewrite Hdb. destruct (ls_full st).
  - intros (Hg & Hc & Hk). split_and!; [| |done].
    + eapply collected_evolves; [| | |exact Hg]; [by intros id; apply good_next| |by apply good_evolves]. done.
    + intros T. eapply collected_evolves; [| | |exact (Hc T)]; [by intros id; apply calm_next|apply Z.le_refl|by apply calm_evolves].
  - intros [Hg Hc]. specialize (Hsc eq_refl). split.
    + eapply midway_evolves; [| | | |exact Hg]; [by intros id; apply good_next|by apply good_evolves|done|done].
    + intros T HT. eapply midway_evolves; [| | | |exact (Hc T HT)];
        [by intros id; apply calm_next|by apply calm_evolves|done|apply Z.le_refl].
Qed.

Lemma open_pass st p st' (resp : Response (CredentialChange Pl)) w w1 :
  running st w → db w1 = db w → tick w1 = S (tick w) →
  rs_Full resp = ls_full st → rs_ManifestStartedAtMS resp = clock w1 →
  begin_pass applier resp st w1 = (w1, Ok (st', p)) →
  opened st' p w1 ∧ ls_full st' = ls_full st ∧ ls_from st' = ls_from st.
Proof.
  intros [Hf Hd Hs Hpass] Hdb Ht Hrf Hrm Hbegin.
  pose proof (follows_next w w1 Hdb Ht Hf) as Hf1. pose proof (clock_mono w w1 ltac:(lia)) as Hcl.
  assert (Hd1 : ls_full st = false → incremental w1) by (unfold incremental; by rewrite Hdb).
  apply begin_pass_cases in Hbegin as (_ & Hp' & Hfrom & Hcase).
  destruct (ls_pass st) as [p0|] eqn:Hp0.
  - subst st'. rewrite Hp0 in Hp'. injection Hp' as ->.
    destruct Hpass as (Hlt & Hfull & Hc & Hsc & Hprog). split; [|done].
    constructor; [done|done|lia|done|done|lia|done|]. eapply progress_next; [done|done|done|done|lia|done|done].
  - destruct Hcase as (Hfl & Hcur & Hspf & Hkeep).
    rewrite Hrf, orb_diag in Hfl. rewrite Hrm in Hcur.
    assert (Hsy : ls_full st = false → (since ≤ clock w1)%Z ∧ synced want (good w1) since (srv w1) (auth_users (db w1))).
    { intros (Htr & Hc & _)%Hd1. destruct (Hf1 Htr) as [_ HT]. destruct (HT since Hc) as [? ?]. split; [lia|done]. }
    split; [|by rewrite Hfl, Hfrom]. constructor; rewrite ?Hcur; [done|by rewrite Hfl|lia|done|done| |by rewrite Hfl; apply Hsy|].
    + pose proof (time_mono start (tick w1) ltac:(lia)). unfold clock. lia.
    + unfold progress. rewrite Hfl, Hfrom, Hcur, Hpass, Hkeep. destruct (ls_full st) eqn:Hfls.
      * split_and!; [apply collected_start, srv_nonempty|intros T; apply collected_start, srv_nonempty|by intros ??].
      * destruct (Hsy eq_refl) as [_ Hs1]. split; [by apply midway_start; [apply srv_nonempty|]|].
        intros T _. apply midway_start; [apply srv_nonempty|]. eapply synced_weaken; [|done].
        intros id [_ Hfo]. destruct (Hd1 eq_refl) as [Htr _]. by split; [|apply Hfo].
Qed.

Lemma keyed_set_users w page K :
  (∀ c, c ∈ page → srv w !! sc_ConnectionID c = Some c) → keyed K → keyed (set_users want page K).
Proof.
  unfold set_users. revert K; induction page as [|c page IH]; intros K Hrows HK; simpl; [done|].
  apply IH; [intros; apply Hrows; by right|].
  destruct (pr_rows Hp (tick w) _ _ (Hrows c (list_elem_of_here _ _))) as (_ & _ & _ & _ & Hu).
  unfold want. destruct (sc_Active c); intros id u.
  - rewrite lookup_insert. case_decide; [|by apply HK]. intros [= <-]. congruence.
  - intros [_ Hk]%lookup_delete_Some. by apply HK.
Qed.

(** What one turn of the loop leaves behind. *)
Definition turned (short : bool) (st : loop_state sync_pass) (w : W) : Prop :=
  running st w ∧ (short = true → complete st w).

Lemma turn_delta st p w w' page pageSize r :
  opened st p w → ls_full st = false →
  page_spec (srv w) false since (ls_from st) pageSize page →
  foldlM (apply_change applier) (wire_page page) (p, ls_from st, ls_seen st) w = (w', r) →
  follows w' ∧ tick w' = tick w ∧
  match r with
  | Ok (p', from', seen') =>
      turned (Z.of_nat (length page) <? pageSize)%Z
        (mkLoop (ls_full st) from' (ls_cursor st) seen' (Some p')) w'
  | Err _ => True
  end.
Proof.
  intros [Hf Hd Hlt Hpass Hspf Hcur Hsc Hprog] Hfull Hpage Happ.
  unfold progress in Hprog. rewrite Hfull in Hprog, Hspf. destruct Hprog as [Hmid Hcalm].
  apply apply_page_delta in Happ as (Hst & Hss & Hr); [|by eapply page_row|done]. unfold stays in Hst.
  destruct (Hd Hfull) as (Htr & Hsince & Hpos). specialize (Hsc Hfull).
  destruct (Hf Htr) as [Hlo HT]. destruct (HT since Hsince) as [Hle Hsy].
  pose proof (cursor_of_state _ _ Hss) as Hcs. rewrite Hsince in Hcs.
  assert (Hsrv : srv w' = srv w ∧ clock w' = clock w ∧ good w' = good w ∧ calm w' = calm w)
    by (unfold srv, clock, good, calm; by rewrite Hst). destruct Hsrv as (Hs & Hc & Hg & Hca).
  assert (Hfollow : ∀ prefix, prefix ⊆ page →
    auth_users (db w') = set_users want prefix (auth_users (db w)) → follows w').
  { intros prefix Hsub Hu _. split; [lia|]. intros T HT'. rewrite Hcs in HT'. injection HT' as <-. rewrite Hc, Hs, Hu, Hg.
    split; [done|]. eapply synced_partial; [apply srv_key|done|done|done]. }
  destruct r as [[[p' from'] seen']|e].
  2: { destruct Hr as (prefix & Hsub & Hu). split; [by eapply Hfollow|done]. }
  destruct Hr as (Hspf' & -> & Hu).
  assert (Hf' : follows w') by (by eapply (Hfollow page)).
  pose proof (fun T HT => midway_page want (calm w) (srv w) since T (ls_from st) pageSize page
    (auth_users (db w)) (srv_key w) Hpos Hpage (Hcalm T HT)) as Hcalm'.
  destruct (midway_page want (good w) (srv w) since (ls_cursor st) (ls_from st) pageSize page
    (auth_users (db w)) (srv_key w) Hpos Hpage Hmid) as [Hmid' Hlast].
  split; [done|]. split; [done|]. split.
  - constructor; simpl; [done|by intros _; split_and!|lia|].
    split_and!; [lia|by rewrite Hfull|lia|rewrite Hc; lia|done|].
    unfold progress. simpl. rewrite Hfull, Hs, Hu, Hg, Hca. split; [done|]. intros T HT'. by apply Hcalm'.
  - intros Hshort%Z.ltb_lt. constructor; simpl; [done|rewrite Hc; lia|].
    exists p'. rewrite Hfull, Hs, Hu, Hg, Hca. split_and!; [done|done|auto|]. intros T HT'. by apply Hcalm'.
Qed.

Lemma turn_full st p w w' page pageSize r :
  opened st p w → ls_full st = true →
  page_spec (srv w) true since (ls_from st) pageSize page →
  foldlM (apply_change applier) (wire_page page) (p, ls_from st, ls_seen st) w = (w', r) →
  follows w' ∧ tick w' = tick w ∧
  match r with
  | Ok (p', from', seen') =>
      turned (Z.of_nat (length page) <? pageSize)%Z
        (mkLoop (ls_full st) from' (ls_cursor st) seen' (Some p')) w'
  | Err _ => True
  end.
Proof.
  intros [Hf Hd Hlt Hpass Hspf Hcur Hsc Hprog] Hfull Hpage Happ.
  unfold progress in Hprog. rewrite Hfull in Hprog, Hspf. destruct Hprog as (Hprog & Hcalm & Hk).
  apply apply_page_full in Happ as (Hsame & Hr); [| |done].
  2: { intros c Hc. split; [by eapply page_row|].
       by apply (ps_sound _ _ _ _ _ _ Hpage) in Hc as (_ & _ & Hsel). }
  pose proof (follows_same _ _ Hsame Hf) as Hf'. destruct Hsame as [Hst Hdb]. unfold stays in Hst.
  assert (Hsrv : srv w' = srv w ∧ clock w' = clock w ∧ good w' = good w ∧ calm w' = calm w)
    by (unfold srv, clock, good, calm; by rewrite Hst). destruct Hsrv as (Hs & Hc & Hg & Hca).
  split; [done|]. split; [done|]. destruct r as [[[p' from'] seen']|e]; [|done].
  destruct Hr as (Hspf' & -> & Hkeep).
  pose proof (fun T => collected_page want (calm w) (srv w) T since (ls_from st) pageSize page
    (sp_keep p) (srv_key w) want_inactive Hpage (Hcalm T)) as Hcalm'.
  destruct (collected_page want (good w) (srv w) (ls_cursor st) since (ls_from st) pageSize page
    (sp_keep p) (srv_key w) want_inactive Hpage Hprog) as [Hcol Hlast].
  assert (Hk' : keyed (sp_keep p')).
  { rewrite Hkeep. eapply keyed_set_users; [|done]. by eapply page_row. }
  split.
  - constructor; simpl; [done|by rewrite Hfull|lia|].
    split_and!; [lia|by rewrite Hfull|lia|rewrite Hc; lia|by rewrite Hfull|].
    unfold progress. simpl. rewrite Hfull, Hs, Hg, Hca, Hkeep. split_and!; [done|intros T; apply Hcalm'|by rewrite <-Hkeep].
  - intros Hshort%Z.ltb_lt. constructor; simpl; [done|rewrite Hc; lia|].
    exists p'. rewrite Hfull, Hs, Hg, Hca. split_and!; [done|done|rewrite Hkeep; auto|rewrite Hkeep; intros T; by apply Hcalm'|done].
Qed.

Lemma page_turn_spec st pageSize w w' r :
  ValidatePageSize pageSize = Ok tt → running st w →
  page_turn source applier since pageSize st w = (w', r) →
  follows w' ∧ tick w < tick w' ∧
  match r with Ok (st', short) => turned short st' w' | Err _ => True end.
Proof.
  intros Hps Hrun. pose proof (running_full st w Hrun) as Hfl.
  unfold page_turn, mbind, goM_bind at 1.
  pose proof (pr_fetch Hp (mkRequest (ls_full st) since pageSize (ls_from st)) w) as Hfetch.
  destruct (source _ w) as [w1 r1]; cbn [rq_Full rq_SinceManifestStartedAtMS
    rq_PageSize rq_FromConnectionID] in Hfetch; rewrite Hfl in Hfetch.
  destruct Hfetch as (Hdb & Ht & Hresp).
  assert (Hf1 : follows w1) by (by eapply follows_next; [..|apply (rn_follows _ _ Hrun)]).
  destruct r1 as [resp|e]; [|intros [= <- <-]; split_and!; [done|lia|done]].
  destruct (Hresp _ eq_refl Hps) as (page & Hpage & ->). clear Hresp.
  unfold liftM at 1, goM_bind. destruct (ValidateResponse _ pageSize) as [[]|e]; [|intros [= <- <-]; split_and!; [done|lia|done]].
  destruct (begin_pass _ _ st w1) as [w2 [[st1 p]|e]] eqn:Hbegin.
  2: { intros [= <- <-]. apply begin_pass_cases in Hbegin as [-> _]. split_and!; [done|lia|done]. }
  pose proof Hbegin as [-> _]%begin_pass_cases.
  destruct (open_pass st p st1 (mkResponse (clock w1) (ls_full st) (wire_page page)) w w1
    Hrun Hdb Ht eq_refl eq_refl Hbegin)
    as (Hop & Hfull & Hfrom). cbn [rs_Changes]. rewrite <-Hfrom in Hpage.
  destruct (foldlM _ _ _ w1) as [w3 r3] eqn:Happ.
  assert (Hturn : follows w3 ∧ tick w3 = tick w1 ∧ match r3 with
    | Ok (p', from', seen') => turned (Z.of_nat (length page) <? pageSize)%Z
        (mkLoop (ls_full st1) from' (ls_cursor st1) seen' (Some p')) w3
    | Err _ => True end).
  { destruct (ls_full st) eqn:E; [by eapply turn_full|by eapply turn_delta]. }
  destruct Hturn as (Hf3 & Hc3 & Ht3). destruct r3 as [[[p' from'] seen']|e].
  - intros [= <- <-]. split; [done|]. split; [lia|].
    unfold wire_page. rewrite length_fmap. done.
  - intros [= <- <-]. split; [done|]. split; [lia|done].
Qed.

Lemma run_pages_spec fuel st pageSize w w' r :
  ValidatePageSize pageSize = Ok tt → running st w →
  run_pages fuel source applier since pageSize st w = Some (w', r) →
  follows w' ∧ tick w ≤ tick w' ∧
  match r with Ok st' => complete st' w' | Err _ => True end.
Proof.
  intros Hps. revert st w; induction fuel as [|fuel IH]; intros st w Hrun; simpl; [done|].
  destruct (page_turn source applier since pageSize st w) as [w1 r1] eqn:Hturn.
  pose proof (page_turn_spec st pageSize w w1 r1 Hps Hrun Hturn) as (Hf1 & Hc1 & Ht1).
  destruct r1 as [[st1 short]|e]; [|intros [= <- <-]; split_and!; [done|lia|done]].
  destruct Ht1 as [Hrun1 Hcomp]. destruct short.
  - intros [= <- <-]. split_and!; [done|lia|auto].
  - intros Hrest. destruct (IH st1 w1 Hrun1 Hrest) as (Hf & Hc & Hr). split_and!; [done|lia|done].
Qed.
End Pass.

Lemma cursor_of_set d T : (0 < T ≤ max_int64)%Z →
  cursor_of (SetState AuthSyncCursorKey (Strconv.FormatInt T) d) = Some T.
Proof.
  intros HT. unfold cursor_of, GetState, SetState. simpl. rewrite lookup_insert_eq.
  rewrite Strconv.ParseInt_FormatInt; [done|]. unfold in_int64, min_int64. lia.
Qed.

Lemma iterM_same {A} (f : A → goM W unit) l w :
  (∀ x w, same w (f x w).1) → same w (iterM f l w).1.
Proof.
  intros Hf. unfold iterM. apply (foldlM_inv (same w)).
  - intros _ x w1 _ Hw1. eapply same_trans; [done|apply Hf].
  - done.
Qed.

(** Writing the cursor of a pass whose credentials are in place. *)
Lemma follows_cursor w T :
  (0 < T ≤ clock w)%Z → (trusted → lo ≤ tick w) → synced want (good w) T (srv w) (auth_users (db w)) →
  cursor_of (db w) = Some T → follows w.
Proof. intros HT Hlo Hs Hc Htr. split; [auto|]. intros T'. rewrite Hc. by intros [= <-]. Qed.

(** Removing the dropped credentials, reconciling and saving the cursor. *)
Lemma tail_spec (full : bool) removed keep T w w' r :
  (0 < T ≤ max_int64)%Z →
  (_ ← (_ ← iterM (rt_RemoveCredential runtime) removed;
        if full then rt_ReconcileCredentials runtime keep else mret tt);
   auth_SaveSyncCursor store AuthSyncCursorKey T) w = (w', r) →
  stays w w' ∧ match r with
  | Ok _ => cursor_of (db w') = Some T ∧ auth_users (db w') = auth_users (db w)
  | Err _ => db w' = db w
  end.
Proof.
  intros HT. unfold mbind, goM_bind.
  pose proof (iterM_same (rt_RemoveCredential runtime) removed w (pr_remove Hp)) as H1.
  destruct (iterM _ removed w) as [w1 [[]|e]]; simpl in H1; [|by intros [= <- <-]].
  assert (H2 : same w ((if full then rt_ReconcileCredentials runtime keep else mret tt) w1).1).
  { eapply same_trans; [exact H1|]. destruct full; [apply (pr_reconcile Hp)|done]. }
  destruct ((if full then rt_ReconcileCredentials runtime keep else mret tt) w1)
    as [w2 [[]|e]]; simpl in H2; [|by intros [= <- <-]]. destruct H2 as [Hst2 Hdb2].
  unfold auth_SaveSyncCursor. intros Hsave.
  destruct (pr_set Hp AuthSyncCursorKey (Strconv.FormatInt T) w2) as [Hst3 Hw3].
  rewrite Hsave in Hst3, Hw3. simpl in *. split; [by eapply stays_trans|].
  destruct r as [[]|e]; [|by rewrite Hw3]. injection Hw3 as <-. rewrite Hdb2. split; [by apply cursor_of_set|done].
Qed.

(** The same, once the credentials are in place. *)
Lemma finish_tail (full : bool) removed keep T w w' r :
  (0 < T ≤ clock w)%Z → synced want (good w) T (srv w) (auth_users (db w)) → follows w →
  (_ ← (_ ← iterM (rt_RemoveCredential runtime) removed;
        if full then rt_ReconcileCredentials runtime keep else mret tt);
   auth_SaveSyncCursor store AuthSyncCursorKey T) w = (w', r) →
  follows w' ∧ stays w w' ∧ auth_users (db w') = auth_users (db w) ∧ (r = Ok tt → cursor_of (db w') = Some T).
Proof.
  intros HT Hs Hf Htail. apply tail_spec in Htail as [Hst Hr].
  2: { pose proof (pr_clock Hp (tick w)). unfold clock in HT. lia. }
  destruct r as [[]|e]; [|split_and!; [by eapply follows_same|done|by rewrite Hr|done]].
  destruct Hr as [Hcur Hu]. unfold stays in Hst. split_and!; [|done|done|done]. apply (follows_cursor w' T); [|..|done].
  - unfold clock. by rewrite Hst.
  - intros Htr. rewrite Hst. by destruct (Hf Htr).
  - unfold good, srv. by rewrite Hu, Hst.
Qed.

(** The snapshot of a full pass replaces the credentials and the cursor. *)
Lemma snapshot_spec keep T w w' r :
  (0 < T ≤ clock w)%Z → synced want (good w) T (srv w) keep → keyed keep → follows w →
  as_ApplyFullAuthSnapshot store keep AuthSyncCursorKey T w = (w', r) →
  follows w' ∧ stays w w' ∧ (r = Ok tt → auth_users (db w') = keep).
Proof.
  intros HT Hs Hk Hf Hsnap.
  destruct (pr_snapshot Hp keep AuthSyncCursorKey T w) as [Hst Hw].
  rewrite Hsnap in Hst, Hw. simpl in *. unfold stays in Hst. destruct r as [[]|e].
  - apply ApplyFullAuthSnapshot_Ok in Hw as [Hu Hss]; [|done].
    split; [|done]. apply (follows_cursor w' T); [unfold clock; by rewrite Hst| | |].
    + intros Htr. rewrite Hst. by destruct (Hf Htr).
    + unfold good, srv. by rewrite Hu, Hst.
    + rewrite <-(cursor_of_set (db w) T) by (pose proof (pr_clock Hp (tick w)); unfold clock in HT; lia).
      by apply cursor_of_state.
  - split; [|done]. by eapply follows_same; [split|].
Qed.

Lemma finish_spec since start st w w' r :
  complete since start st w → finish AuthSyncCursorKey (cred_cursors store) applier st w = (w', r) →
  follows w' ∧ stays w w' ∧
  (r = Ok tt → cursor_of (db w') = Some (ls_cursor st) ∧
    ∀ id, calm start w' id → auth_users (db w') !! id = srv w' !! id ≫= want).
Proof.
  intros [Hf Hcur (p & Hpass & Hspf & Hdone)]. unfold finish. rewrite Hpass.
  cbn [FinishSyncPass SaveSyncCursor cred_applier cred_cursors]. unfold cred_FinishSyncPass.
  cbn [pr_ManifestStartedAtMS]. rewrite Hspf. cbv zeta.
  assert (HT : (0 < ls_cursor st ≤ clock w)%Z) by (pose proof (pr_clock Hp start); lia).
  assert (Hcalm : ∀ w1 T0, stays w w1 → (∀ T, (T0 ≤ T)%Z → synced want (calm start w) T (srv w) (auth_users (db w1))) →
    ∀ id, calm start w1 id → auth_users (db w1) !! id = srv w1 !! id ≫= want).
  { intros w1 T0 Hst Hs id. unfold srv, calm. rewrite Hst. by apply (synced_always want (calm start w) T0). }
  destruct (ls_full st).
  - destruct Hdone as (Hsy & Hca & Hk). unfold mbind at 1 2, goM_bind at 1 2.
    destruct (as_ApplyFullAuthSnapshot store (sp_keep p) AuthSyncCursorKey (ls_cursor st) w)
      as [w1 r1] eqn:E.
    destruct (snapshot_spec _ _ _ _ _ HT Hsy Hk Hf E) as (Hf1 & Hst1 & Hs1).
    destruct r1 as [[]|e]; [|by intros [= <- <-]]. specialize (Hs1 eq_refl). intros Htail.
    destruct (finish_tail true (map_to_list (dropped p ∪ sp_removed p)).*2 (sp_keep p)
      (ls_cursor st) w1 w' r) as (Hf' & Hst' & Hu' & Hc');
      [unfold clock; by rewrite Hst1|unfold good, srv; by rewrite Hs1, Hst1|done|exact Htail|].
    pose proof (stays_trans _ _ _ Hst1 Hst') as Hst. split_and!; [done|done|]. intros Hok. split; [auto|].
    apply (Hcalm w' 0%Z); [done|]. intros T _. by rewrite Hu', Hs1.
  - destruct Hdone as [Hsy Hca]. intros Htail.
    destruct (finish_tail false (map_to_list (sp_removed p)).*2 (sp_keep p) (ls_cursor st) w w' r HT Hsy Hf Htail)
      as (Hf' & Hst' & Hu' & Hc').
    split_and!; [done|done|]. intros Hok. split; [auto|]. apply (Hcalm w' since); [done|]. by rewrite Hu'.
Qed.

(** ** Every pass keeps the invariant *)
Lemma load_cursor_spec full w w' r :
  load_cursor AuthSyncCursorKey (cred_cursors store) full w = (w', r) →
  w' = w ∧ match r with
  | Ok (full', since) => (full = true → full' = true) ∧ (full' = false → cursor_of (db w) = Some since)
  | Err _ => True
  end.
Proof.
  unfold load_cursor. destruct full; [by intros [= <- <-]|].
  unfold mbind, goM_bind. cbn [LoadSyncCursor cred_cursors]. unfold auth_LoadSyncCursor.
  destruct (pr_get Hp AuthSyncCursorKey w) as (rg & -> & Hg). destruct rg as [raw|e].
  - destruct (Strconv.ParseInt raw) as [v|e] eqn:Epar; [|by intros [= <- <-]].
    intros [= <- <-]. split_and!; [done|done|]. intros _. unfold cursor_of. by rewrite Hg, Epar.
  - case_bool_decide; [|by intros [= <- <-]]. intros [= <- <-]. done.
Qed.

Lemma load_cursor_found w w' r T :
  cursor_of (db w) = Some T → load_cursor AuthSyncCursorKey (cred_cursors store) false w = (w', r) →
  w' = w ∧ match r with Ok (full', since) => full' = false ∧ since = T | Err _ => True end.
Proof.
  unfold load_cursor, mbind, goM_bind. cbn [LoadSyncCursor cred_cursors]. unfold auth_LoadSyncCursor, cursor_of.
  destruct (pr_get Hp AuthSyncCursorKey w) as (rg & -> & Hg). destruct rg as [raw|e].
  - rewrite Hg. destruct (Strconv.ParseInt raw) as [v|e]; intros Hc; [|done]. injection Hc as ->. by intros [= <- <-].
  - case_bool_decide as He; [|by intros _ [= <- <-]]. by rewrite Hg.
Qed.

(** A pass keeps the invariant.  When it succeeds, a credential that has not
    changed since its first answer is on the agent exactly as desired: after a
    full pass whatever came before, after an incremental one when its earlier
    changes could be followed. *)
Lemma run_follows fuel full w w' r :
  follows w → full = true ∨ cursor_of (db w) = None ∨ trusted →
  RunOnce store source runtime fuel full w = Some (w', r) →
  follows w' ∧ tick w ≤ tick w' ∧
  (r = Ok tt → (∃ T, cursor_of (db w') = Some T ∧ (clock w ≤ T ≤ clock w')%Z) ∧
    ∀ id, calm (tick w) w' id → auth_users (db w') !! id = srv w' !! id ≫= want).
Proof.
  intros Hf Hfull. unfold RunOnce, Run. cbn [e_PageSize e_CursorKey e_Cursors e_Source e_Applier].
  change (ValidatePageSize (NormalizePageSize 0)) with (@Ok unit tt). cbv match.
  destruct (load_cursor _ _ full w) as [w1 [[full' since]|e]] eqn:El.
  2: { apply load_cursor_spec in El as [-> _]. by intros [= <- <-]. }
  apply load_cursor_spec in El as (-> & Hreq & Hsince).
  assert (Hrun : running since (tick w) (mkLoop full' "" 0 ∅ None) w).
  { constructor; [done| |done|done]. intros Hdel. cbn in Hdel. specialize (Hsince Hdel).
    assert (Htr : trusted) by (destruct Hfull as [->|[?|?]]; [by rewrite Hreq in Hdel|congruence|done]).
    destruct (Hf Htr) as [_ HT]. destruct (HT since Hsince) as [[??] _]. done. }
  destruct (run_pages fuel source applier since (NormalizePageSize 0) _ w) as [[w2 r2]|] eqn:Er; [|done].
  destruct (run_pages_spec since (tick w) fuel _ (NormalizePageSize 0) w w2 r2 eq_refl Hrun Er) as (Hf2 & Hc2 & Hr2).
  destruct r2 as [st|e]; [|by intros [= <- <-]]. intros [= Hfin].
  destruct (finish_spec since (tick w) st w2 w' r Hr2 Hfin) as (Hf' & Hst & Hcur). unfold stays in Hst.
  split; [done|]. split; [lia|]. intros Hok. destruct (Hcur Hok) as [Hc Hca]. split; [|done]. exists (ls_cursor st). split; [done|].
  pose proof (cp_cursor _ _ _ _ Hr2). unfold clock in *. by rewrite Hst.
Qed.
End Follows.

(** ** What an incremental pass does not touch

    A credential whose version stays older than the cursor of the agent. *)
Section Behind.
Context (id : string) (T : Z) (lo : nat).

Definition behind (hi : nat) : Prop :=
  ∀ n c, lo < n ≤ hi → rows n !! id = Some c → (sc_UpdatedAtMS c < T)%Z.

(** From [w] to [w'] the user of the credential is the same. *)
Definition left_alone (w w' : W) : Prop :=
  tick w ≤ tick w' ∧ (behind (tick w') → auth_users (db w') !! id = auth_users (db w) !! id).

Lemma left_alone_trans w1 w2 w3 : left_alone w1 w2 → left_alone w2 w3 → left_alone w1 w3.
Proof.
  intros [H12 Hu12] [H23 Hu23]. split; [lia|]. intros Hb. rewrite Hu23 by done. apply Hu12.
  intros n c Hn. apply Hb. lia.
Qed.

Section Incremental.
Context (since : Z) (HT : (0 < T ≤ since)%Z).

Record delta_loop (st : loop_state sync_pass) (w : W) : Prop := {
  dl_full : ls_full st = false;
  dl_cursor : cursor_of (db w) = Some since;
  dl_clock : lo ≤ tick w ∧ (since ≤ clock w)%Z;
  dl_pass : ∀ p, ls_pass st = Some p → sp_full p = false ∧ (since ≤ ls_cursor st ≤ clock w)%Z;
}.

Lemma delta_page st w w' r :
  delta_loop st w → page_turn source applier since (NormalizePageSize 0) st w = (w', r) →
  left_alone w w' ∧ cursor_of (db w') = Some since ∧ (clock w ≤ clock w')%Z ∧
  match r with Ok (st', _) => delta_loop st' w' ∧ is_Some (ls_pass st') | Err _ => True end.
Proof.
  intros [Hfull Hcur [Hlo Hcl] Hpass]. unfold page_turn, mbind, goM_bind at 1.
  pose proof (pr_fetch Hp (mkRequest (ls_full st) since (NormalizePageSize 0) (ls_from st)) w) as Hfetch.
  destruct (source _ w) as [w1 r1]. destruct Hfetch as (Hdb & Ht & Hresp). cbn in Hresp.
  rewrite Hfull in Hresp. replace (since =? 0)%Z with false in Hresp by (symmetry; apply Z.eqb_neq; lia). cbn in Hresp.
  pose proof (clock_mono w w1 ltac:(lia)) as Hmono.
  assert (H1 : left_alone w w1) by (split; [lia|by rewrite Hdb]).
  assert (Hcur1 : cursor_of (db w1) = Some since) by by rewrite Hdb.
  destruct r1 as [resp|e]; [|by intros [= <- <-]]. destruct (Hresp _ eq_refl eq_refl) as (page & Hpage & ->).
  unfold liftM at 1, goM_bind. destruct (ValidateResponse _ _) as [[]|e]; [|by intros [= <- <-]].
  destruct (begin_pass _ _ st w1) as [w2 [[st1 p]|e]] eqn:Hbegin; pose proof Hbegin as [-> Hb]%begin_pass_cases;
    [|by intros [= <- <-]]. cbn [rs_Changes].
  assert (Hopen : ls_full st1 = false ∧ sp_full p = false ∧ (since ≤ ls_cursor st1 ≤ clock w1)%Z).
  { destruct Hb as (Hp1 & _ & Hcase). destruct (ls_pass st) as [p0|] eqn:Ep.
    - subst st1. destruct (Hpass p0 eq_refl). rewrite Ep in Hp1. injection Hp1 as ->. split_and!; [done|done|lia..].
    - destruct Hcase as (Hfl & Hc & Hsp & _). rewrite Hfl, Hc, Hsp, Hfl, Hfull. cbn. split_and!; [done|done|lia..]. }
  destruct Hopen as (Hfl1 & Hsp1 & Hc1). destruct (foldlM _ _ _ w1) as [w3 r3] eqn:Happ.
  apply apply_page_delta in Happ as (Hst & Hss & Hr); [|by eapply page_row|done]. unfold stays in Hst.
  assert (H3 : left_alone w w3).
  { eapply left_alone_trans; [exact H1|]. split; [lia|]. intros Hbeh.
    assert (∃ prefix, prefix ⊆ page ∧ auth_users (db w3) = set_users want prefix (auth_users (db w1))) as (prefix & Hsub & ->).
    { destruct r3 as [[[p3 from3] seen3]|e]; [|done]. exists page. split; [done|apply Hr]. }
    apply set_users_other. intros (c & Hid & Hc)%list_elem_of_fmap.
    apply Hsub, (ps_sound _ _ _ _ _ _ Hpage) in Hc as (Hrow & _ & Hsel). rewrite <-Hid in Hrow. apply (Hbeh (tick w1)) in Hrow; [|lia].
    simpl in Hsel. apply andb_true_iff in Hsel as [_ Hge%Z.leb_le]. lia. }
  rewrite <-(cursor_of_state _ _ Hss) in Hcur1. assert (Hc3 : clock w3 = clock w1) by by unfold clock; rewrite Hst.
  destruct r3 as [[[p3 from3] seen3]|e]; intros [= <- <-]; (split; [done|]; split; [done|]; split; [lia|]); [|done].
  split; [|by eexists]. constructor; cbn; [done|done|split; lia|]. intros p' [= <-]. rewrite Hc3. by destruct Hr.
Qed.

Lemma delta_pages fuel st w w' r :
  delta_loop st w → run_pages fuel source applier since (NormalizePageSize 0) st w = Some (w', r) →
  left_alone w w' ∧ cursor_of (db w') = Some since ∧ (clock w ≤ clock w')%Z ∧
  match r with Ok st' => delta_loop st' w' ∧ is_Some (ls_pass st') | Err _ => True end.
Proof.
  revert st w; induction fuel as [|fuel IH]; intros st w Hst; simpl; [done|].
  destruct (page_turn source applier since _ st w) as [w1 r1] eqn:E.
  apply delta_page in E as (H1 & Hc1 & Hm1 & Hr1); [|done]. destruct r1 as [[st1 []]|e]; [by intros [= <- <-]| |by intros [= <- <-]].
  intros (H2 & Hc2 & Hm2 & Hr2)%IH; [|apply Hr1]. split; [by eapply left_alone_trans|]. split; [done|]. split; [lia|done].
Qed.
End Incremental.

Lemma delta_run fuel w w' r T0 :
  cursor_of (db w) = Some T0 → (0 < T ≤ T0)%Z → (T0 ≤ clock w)%Z → lo ≤ tick w →
  RunOnce store source runtime fuel false w = Some (w', r) →
  left_alone w w' ∧ ∃ T1, cursor_of (db w') = Some T1 ∧ (T0 ≤ T1 ≤ clock w')%Z.
Proof.
  intros Hcur HT Hcl Hlo. unfold RunOnce, Run. cbn [e_PageSize e_CursorKey e_Cursors e_Source e_Applier].
  change (ValidatePageSize (NormalizePageSize 0)) with (@Ok unit tt). cbv match.
  assert (Hsame : left_alone w w ∧ ∃ T1, cursor_of (db w) = Some T1 ∧ (T0 ≤ T1 ≤ clock w)%Z)
    by (split; [by split|exists T0; split; [done|lia]]).
  destruct (load_cursor _ _ false w) as [w1 [[full' since]|e]] eqn:El; apply (load_cursor_found _ _ _ T0 Hcur) in El as [-> Hl];
    [|by intros [= <- <-]]. destruct Hl as [-> ->]. rename T0 into since.
  destruct (run_pages _ _ _ _ _ _ w) as [[w2 r2]|] eqn:Er; [|done].
  apply (delta_pages since HT) in Er as (H2 & Hc2 & Hm2 & Hr2); [|by constructor].
  destruct r2 as [st|e]; [|intros [= <- <-]; split; [done|]; exists since; split; [done|lia]].
  destruct Hr2 as [[Hfull _ [Hlo2 _] Hpass] [p Hp2]]. destruct (Hpass p Hp2) as [Hsp Hc]. intros [= Hfin]. revert Hfin.
  unfold finish. rewrite Hp2. cbn [FinishSyncPass SaveSyncCursor cred_applier cred_cursors]. unfold cred_FinishSyncPass.
  cbn [pr_ManifestStartedAtMS]. rewrite Hsp. cbv zeta. intros Htail.
  apply (tail_spec false (map_to_list (sp_removed p)).*2 (sp_keep p) (ls_cursor st)) in Htail as [Hst Hr].
  2: { pose proof (pr_clock Hp (tick w2)). unfold clock in *. lia. }
  unfold stays in Hst. assert (clock w' = clock w2) as -> by by unfold clock; rewrite Hst.
  split; [eapply left_alone_trans; [exact H2|]; split; [lia|]|]; destruct r as [[]|e].
  - by destruct Hr as [_ ->].
  - by rewrite Hr.
  - exists (ls_cursor st). split; [apply Hr|lia].
  - exists since. rewrite Hr. split; [done|lia].
Qed.
End Behind.

(** ** Termination

    When the ids the control plane ever serves come from the finite set [X],
    every full page uses up some of them, so more fuel than [X] has elements is
    enough. *)
Section Terminates.
Context (X : gset string) (HX : ∀ n, dom (rows n) ⊆ X).

Definition remaining (from : string) : nat := size (filter (fun id => str_lt from id) X).

Lemma remaining_page n full since from pageSize page :
  page_spec (rows n) full since from pageSize page → page ≠ [] →
  remaining (last_id from page) < remaining from.
Proof.
  intros Hpage Hne. destruct (last_id_last from page) as [[? _]|(d & _ & Hl & Hd)]; [done|].
  unfold remaining. apply subset_size. split.
  - intros id. rewrite !elem_of_filter. intros [Hlt HidX]. split; [|done].
    eapply str_le_lt_trans; [by eapply from_le_last|done].
  - intros Hsub. assert (Hin : last_id from page ∈ filter (fun id => str_lt from id) X).
    { rewrite Hl. apply elem_of_filter. split; [by eapply page_after|].
      apply (HX n), elem_of_dom. rewrite (page_row _ _ _ _ _ _ Hpage d Hd). eauto. }
    apply Hsub, elem_of_filter in Hin as [[_ Hn] _]. done.
Qed.

(** Whatever becomes of the page, the cursor of the pass moves past it. *)
Lemma apply_page_from page p from seen w w' p' from' seen' :
  (∀ c, c ∈ page → srv w !! sc_ConnectionID c = Some c) →
  foldlM (apply_change applier) (wire_page page) (p, from, seen) w = (w', Ok (p', from', seen')) →
  from' = last_id from page.
Proof.
  intros Hrows. assert (Hids : ∀ c, c ∈ page → cc_ConnectionId (pay c) = sc_ConnectionID c).
  { intros c Hc. by destruct (pr_rows Hp (tick w) _ _ (Hrows c Hc)) as (_ & _ & ? & _). }
  clear Hrows. revert p from seen w; induction page as [|c page IH]; intros p from seen w.
  { by intros [= _ _ <- _]. }
  cbn [wire_page fmap list_fmap foldlM]. unfold mbind, goM_bind. rewrite apply_change_eq.
  destruct (cred_ApplySyncChange _ _ _ p w) as [w1 [p1|e]]; [|done].
  intros Happ. apply IH in Happ as ->; [|intros; apply Hids; by right].
  by rewrite (Hids c) by left.
Qed.

Lemma run_pages_terminates fuel since pageSize st w :
  ValidatePageSize pageSize = Ok tt → remaining (ls_from st) < fuel →
  is_Some (run_pages fuel source applier since pageSize st w).
Proof.
  intros Hps. revert st w; induction fuel as [|fuel IH]; intros st w Hfuel; [lia|]. simpl.
  destruct (page_turn source applier since pageSize st w) as [w' [[st' [|]]|e]] eqn:Ht; [eauto| |eauto].
  apply IH. enough (remaining (ls_from st') < remaining (ls_from st)) by lia. revert Ht.
  unfold page_turn, mbind, goM_bind at 1.
  pose proof (pr_fetch Hp (mkRequest (ls_full st) since pageSize (ls_from st)) w) as Hfetch.
  destruct (source _ w) as [w1 [resp|e]]; [|done].
  destruct Hfetch as (_ & _ & Hresp).
  destruct (Hresp _ eq_refl Hps) as (page & Hpage & ->). clear Hresp. simpl in Hpage.
  unfold liftM at 1, goM_bind. destruct (ValidateResponse _ pageSize) as [[]|e]; [|done].
  destruct (begin_pass _ _ st w1) as [w2 [[st1 p]|e]] eqn:Hbegin; [|done].
  apply begin_pass_cases in Hbegin as (-> & _ & Hfrom & _). cbn [rs_Changes].
  destruct (foldlM _ _ _ w1) as [w3 [[[p' from'] seen']|e]] eqn:Happ; [|done].
  apply apply_page_from in Happ as ->; [|by eapply page_row].
  intros [= <- <- Hshort]. simpl. rewrite Hfrom. eapply remaining_page; [done|].
  intros ->. unfold wire_page in Hshort. simpl in Hshort.
  apply ValidatePageSize_Ok in Hps. apply Z.ltb_ge in Hshort. lia.
Qed.

Lemma run_terminates fuel full w :
  size X < fuel → is_Some (RunOnce store source runtime fuel full w).
Proof.
  intros Hfuel. unfold RunOnce, Run. cbn [e_PageSize e_CursorKey e_Cursors e_Source e_Applier].
  change (ValidatePageSize (NormalizePageSize 0)) with (@Ok unit tt). cbv match.
  destruct (load_cursor _ _ full w) as [w1 [[full' since]|e]]; [|eauto].
  destruct (run_pages_terminates fuel since (NormalizePageSize 0) (mkLoop full' "" 0 ∅ None) w1)
    as [[w2 [st|e]] ->]; [done| |eauto..].
  simpl. eapply Nat.le_lt_trans; [|exact Hfuel]. unfold remaining.
  apply subseteq_size. by intros id [_ Hid]%elem_of_filter.
Qed.
End Terminates.
End Promises.
