(* ===== verification/HysteriaSync.v ===== *)
(** * HysteriaSync: the Hysteria agent against the control plane's database

    [SyncConvergence] instantiated with the concrete parts: the credentials are
    what [ListHysteriaSyncConnections] projects from the database of
    [ServerStore], served through [BuildAuthManifestResponse] and the adapter
    [buildHysteriaCredentialChange], and pulled by the agent of
    [src/internal/agent/hysteria2/sync/sync.go] into its own database.

    First, which writes of the control plane the synchronisation can follow: all
    but those committed late and the status of an account, which has no version
    ([exec_op_tracked], [history_followed]).  Then the promises of
    [SyncConvergence] are discharged for a world in which the control plane's
    database changes arbitrarily between any two requests, requests get lost,
    and kicking a user may fail.  The theorems are about each connection whose
    changes could be followed; [late_commit_missed] and
    [account_status_untracked] are about the others. *)

From S2P Require Import Prelude GoLib Sql AgentStore ServerModel ServerStore StoreInvariant.
From S2P Require Import Samples SyncProtocol ServerManifest SyncEngine SyncConvergence.
Import GoTime.

(** ** Writes and versions *)

(** The part of a connection the projection reads. *)
Definition sync_view (c : Connection) : string * string * string * string * string * Z :=
  (cn_ID c, cn_AccountID c, cn_NodeID c, cn_Protocol c, cn_DesiredStatus c, cn_DesiredVersionMS c).

Definition rows_of (s : Server) (nodeID : string) : gmap string (StoredConnection string) :=
  delete "" (hysteria_rows s nodeID).

(** The status of the account only matters to an active connection. *)
Definition read_account (c : Connection) (a : Account) : bool :=
  bool_decide (acc_Status a = AccountStatusActive) &&
  bool_decide (cn_DesiredStatus c = ConnectionStatusActive).

(** The row is read from the same data before and after. *)
Record row_stable (s s' : Server) (id : string) : Prop := {
  rs_connection : sync_view <$> connections s' !! id = sync_view <$> connections s !! id;
  rs_account : ∀ c, connections s !! id = Some c →
    read_account c <$> accounts s' !! cn_AccountID c = read_account c <$> accounts s !! cn_AccountID c;
  rs_material : hysteria2_materials s' !! id = hysteria2_materials s !! id;
}.

(** The connection is new or changed, and its version says so. *)
Record row_changed (t : Z) (s s' : Server) (id : string) : Prop := {
  rc_connection : ∃ c', connections s' !! id = Some c' ∧ (t ≤ cn_DesiredVersionMS c')%Z;
  rc_identity : ∀ c c', connections s !! id = Some c → connections s' !! id = Some c' →
    cn_NodeID c' = cn_NodeID c ∧ cn_Protocol c' = cn_Protocol c;
}.

Definition tracked (t : Z) (s s' : Server) : Prop := ∀ id, row_stable s s' id ∨ row_changed t s s' id.

Lemma lookup_rows s nodeID id :
  hysteria_rows s nodeID !! id =
    c ← connections s !! id;
    if bool_decide (cn_NodeID c = nodeID) && bool_decide (cn_Protocol c = ProtocolHysteria2) then
      a ← accounts s !! cn_AccountID c;
      match hysteria_sync_row s (c, a) with Ok x => Some x | Err _ => None end
    else None.
Proof. unfold hysteria_rows, node_rows. by rewrite lookup_omap. Qed.

Lemma rows_stable s s' nodeID id :
  (∀ c, connections s !! id = Some c → cn_ID c = id) → row_stable s s' id →
  hysteria_rows s' nodeID !! id = hysteria_rows s nodeID !! id.
Proof.
  intros Hid [Hc Ha Hm]. rewrite !lookup_rows.
  destruct (connections s !! id) as [c|], (connections s' !! id) as [c'|]; simpl in *;
    try discriminate Hc; [|done].
  specialize (Hid _ eq_refl). specialize (Ha _ eq_refl). injection Hc as Hi Hac Hn Hp Hd Hv.
  rewrite Hn, Hp, Hac. destruct (_ && _); [|done].
  destruct (accounts s !! cn_AccountID c) as [a|], (accounts s' !! cn_AccountID c) as [a'|];
    simpl in *; try discriminate Ha; [|done]. injection Ha as Ha.
  unfold read_account in Ha. rewrite Hi, Hid, Hm.
  by destruct (hysteria2_materials s !! id); simpl; rewrite ?Hd, ?Ha, ?Hv, ?Hi.
Qed.

Lemma rows_version s nodeID id x :
  hysteria_rows s nodeID !! id = Some x →
  ∃ c, connections s !! id = Some c ∧ cn_NodeID c = nodeID ∧ cn_Protocol c = ProtocolHysteria2 ∧
    sc_ConnectionID x = cn_ID c ∧ sc_UpdatedAtMS x = cn_DesiredVersionMS c ∧
    (sc_Active x = true → sc_Material x ≠ "").
Proof.
  rewrite lookup_rows. intros (c & Hc & Hx)%bind_Some. exists c. split; [done|].
  destruct (_ && _) eqn:E; [|done].
  apply andb_true_iff in E as [->%bool_decide_eq_true ->%bool_decide_eq_true].
  apply bind_Some in Hx as (a & _ & Hx). simpl in Hx.
  destruct (hysteria2_materials s !! cn_ID c) as [m|]; [|done]. injection Hx as <-.
  split_and!; [done|done|done|done|]. simpl.
  intros [_ Hh%negb_true_iff%bool_decide_eq_false]%andb_true_iff. done.
Qed.

Lemma rows_exist s nodeID id c :
  server_wf s → connections s !! id = Some c → cn_NodeID c = nodeID →
  cn_Protocol c = ProtocolHysteria2 → is_Some (hysteria_rows s nodeID !! id).
Proof.
  intros Hwf Hc Hn Hp. rewrite lookup_rows, Hc. simpl.
  rewrite !bool_decide_eq_true_2 by done. simpl.
  destruct (wf_account s Hwf _ _ Hc) as [a ->]. simpl.
  destruct (wf_hysteria2 s Hwf _ _ Hc Hp) as [m Hm].
  rewrite (wf_id s Hwf _ _ Hc), Hm. eauto.
Qed.

(** Writes that are tracked are changes the synchronisation can follow. *)
Lemma tracked_moves t s s' nodeID id :
  server_wf s → server_wf s' → tracked t s s' → moves t (rows_of s nodeID !! id) (rows_of s' nodeID !! id).
Proof.
  intros Hwf Hwf' Ht. unfold rows_of. destruct (decide (id = "")) as [->|Hne].
  { left. by rewrite !lookup_delete_eq. }
  rewrite !lookup_delete_ne by done. destruct (Ht id) as [Hst|[(c' & Hc' & Hv) Hid]].
  { left. apply rows_stable; [|done]. intros c Hc. by apply (wf_id s Hwf). }
  destruct (hysteria_rows s' nodeID !! id) as [x|] eqn:E.
  - right. exists x. split; [done|]. apply rows_version in E as (c & Hc & _ & _ & _ & Hx & _).
    congruence.
  - left. symmetry. apply eq_None_not_Some. intros [x Hx].
    apply rows_version in Hx as (c & Hc & Hn & Hp & _).
    destruct (Hid _ _ Hc Hc') as [Hn' Hp'].
    destruct (rows_exist s' nodeID id c' Hwf' Hc') as [y Hy]; congruence.
Qed.

(** The writes the synchronisation can follow, at time [t] in milliseconds.  A
    connection's own version is set by the write; the status of an account has
    none, so it may only change while no connection of it is active. *)
Definition timely (t : Z) (s : Server) (op : store_op) : Prop :=
  match op with
  | OpUpdateAccountStatus _ id _ =>
      ∀ k c, connections s !! k = Some c → cn_AccountID c = id →
        cn_DesiredStatus c ≠ ConnectionStatusActive
  | OpSoftDeleteNode now _ | OpUpdateConnectionDesiredStatus now _ _ => (t ≤ TimeUnixMilli now)%Z
  | OpCreateConnectionBundle now _ b =>
      (t ≤ TimeUnixMilli now)%Z ∧
      (cn_DesiredVersionMS (cb_Connection b) = 0 ∨ t ≤ cn_DesiredVersionMS (cb_Connection b))%Z
  | OpUpdateAmneziaWGNodeConfig v _ _ => (t ≤ awg_ConfigVersionMS v)%Z
  | _ => True
  end.

Lemma tracked_refl t s : tracked t s s.
Proof. intros id. left. done. Qed.

(** The tables the projection reads are the same. *)
Lemma tracked_frame t s s' :
  accounts s' = accounts s → connections s' = connections s →
  hysteria2_materials s' = hysteria2_materials s → tracked t s s'.
Proof. intros Ha Hc Hm id. left. split; rewrite ?Ha, ?Hc, ?Hm; done. Qed.

(** An update of connections that moves the version of every row it selects. *)
Lemma tracked_update t s s' P f :
  accounts s' = accounts s → hysteria2_materials s' = hysteria2_materials s →
  connections s' = sql_update P f (connections s) →
  (∀ c, (t ≤ cn_DesiredVersionMS (f c))%Z ∧ identity_of (f c) = identity_of c) → tracked t s s'.
Proof.
  intros Ha Hm Hc Hf id. destruct (connections s !! id) as [c|] eqn:E.
  - destruct (P c) eqn:HP.
    + right. split.
      * exists (f c). rewrite Hc, lookup_sql_update, E. simpl. rewrite HP. split; [done|apply Hf].
      * intros c0 c' Hc0 Hc'. rewrite Hc, lookup_sql_update, E in Hc'. simpl in Hc'.
        rewrite HP in Hc'. injection Hc' as <-.
        rewrite E in Hc0. injection Hc0 as <-.
        destruct (Hf c) as [_ Hi]. by injection Hi.
    + left. split; rewrite ?Ha, ?Hm; [|done|done]. rewrite Hc, lookup_sql_update, E. simpl. by rewrite HP.
  - left. split; rewrite ?Ha, ?Hm; [|done|done]. by rewrite Hc, lookup_sql_update, E.
Qed.

Lemma insert_node_frame v s s' :
  insert_node v s = Ok s' → accounts s' = accounts s ∧ connections s' = connections s ∧
  hysteria2_materials s' = hysteria2_materials s.
Proof. intros [_ ->]%insert_node_Ok. done. Qed.

Lemma tracked_finalize t now version candidates s :
  tracked t s (finalize_apply now version candidates s).
Proof.
  assert (Hone : ∀ v s id, row_stable s (finalize_one now version v s) id).
  { intros v s0 id. unfold finalize_one. split; case_bool_decide; simpl; try done.
    all: destruct (decide (cn_ID v = id)) as [->|Hne];
      [rewrite lookup_alter_eq|by rewrite lookup_alter_ne].
    all: destruct (connections s0 !! id) as [c|]; simpl; [|done]; by case_match. }
  intros id. left. unfold finalize_apply. revert s.
  induction candidates as [|v l IH]; intros s; simpl; [done|].
  destruct (IH (finalize_one now version v s)) as [Hc Ha Hm].
  destruct (Hone v s id) as [Hc1 Ha1 Hm1]. split; [congruence| |congruence].
  intros c Hcs. rewrite <-(Ha1 c Hcs).
  destruct (connections (finalize_one now version v s) !! id) as [c1|] eqn:E1.
  - rewrite Hcs in Hc1. simpl in Hc1. injection Hc1 as _ Hac _ _ Hd _.
    specialize (Ha c1 eq_refl). unfold read_account in *. by rewrite Hac, Hd in Ha.
  - rewrite Hcs in Hc1. done.
Qed.

Lemma tracked_account_status t now id status s :
  (∀ k c, connections s !! k = Some c → cn_AccountID c = id →
    cn_DesiredStatus c ≠ ConnectionStatusActive) →
  tracked t s (UpdateAccountStatus now id status s).1.
Proof.
  intros Hin. unfold UpdateAccountStatus. case_match; [apply tracked_refl|].
  intros k. left. split; simpl; [done| |done]. intros c Hc.
  destruct (decide (id = cn_AccountID c)) as [->|Hne]; [|by rewrite lookup_alter_ne].
  rewrite lookup_alter_eq. destruct (accounts s !! cn_AccountID c) as [a|]; [|done]. simpl. f_equal.
  unfold read_account. rewrite (bool_decide_eq_false_2 (cn_DesiredStatus c = _)) by by eapply Hin.
  by rewrite !andb_false_r.
Qed.

Lemma tracked_bundle t now newID b s :
  server_wf s → (t ≤ TimeUnixMilli now)%Z →
  (cn_DesiredVersionMS (cb_Connection b) = 0 ∨ t ≤ cn_DesiredVersionMS (cb_Connection b))%Z →
  tracked t s (CreateConnectionBundle now newID b s).1.
Proof.
  intros Hwf Ht Hv. destruct (CreateConnectionBundle now newID b s) as [s' [b'|e]] eqn:E.
  2: { unfold CreateConnectionBundle in E. apply transaction_Err in E as [-> _]. apply tracked_refl. }
  apply CreateConnectionBundle_Ok in E as (_ & [HA _ Hfresh _ HC HH _ _] & _).
  set (v := defaultConnection now (newID 0) (cb_Connection b)) in *. intros id. simpl.
  destruct (decide (cn_ID v = id)) as [<-|Hne].
  - right. split; [|intros; congruence]. exists v. rewrite HC, lookup_insert_eq. split; [done|].
    unfold v, defaultConnection, or_defaultZ. simpl.
    destruct (Z.eqb_spec (cn_DesiredVersionMS (cb_Connection b)) 0); [done|]. destruct Hv; [done|lia].
  - left. split; rewrite ?HA; [by rewrite HC, lookup_insert_ne|done|].
    rewrite HH. destruct (cb_Hysteria2Material b); [by rewrite lookup_insert_ne|done].
Qed.

Lemma tracked_desired t now id status s :
  (t ≤ TimeUnixMilli now)%Z → tracked t s (UpdateConnectionDesiredStatus now id status s).1.
Proof.
  intros Ht. destruct (UpdateConnectionDesiredStatus_cases now id status s)
    as [(c & Hc & _ & _ & ->)|[e ->]]; simpl; [|apply tracked_refl].
  intros k. destruct (decide (id = k)) as [<-|Hne].
  - right. split; simpl.
    + eexists. rewrite lookup_insert_eq. split; [done|]. simpl.
      pose proof (bump_version_ge (TimeUnixMilli now) (cn_DesiredVersionMS c)). lia.
    + intros c0 c' Hc0. rewrite lookup_insert_eq. intros [= <-]. rewrite Hc in Hc0. by injection Hc0 as <-.
  - left. split; simpl; [by rewrite lookup_insert_ne|done|done].
Qed.

Lemma tracked_transaction {A} t (f : Server → result (Server * A)) s :
  (∀ s' a, f s = Ok (s', a) → tracked t s s') → tracked t s (transaction f s).1.
Proof. intros Hf. apply (transaction_inv (tracked t s)); [done|apply tracked_refl]. Qed.

Lemma exec_op_tracked t op s :
  server_wf s → timely t s op → tracked t s (exec_op op s).
Proof.
  intros Hwf Ht. destruct op; cbn [exec_op]; cbn in Ht.
  - apply tracked_transaction. intros s' a (m & [Hn ->]%sql_insert_Ok & [= <- _])%bind_Ok.
    intros k. left. split; simpl; [done| |done]. intros c Hc.
    destruct (wf_account s Hwf _ _ Hc) as [x Hx]. rewrite lookup_insert_ne; [done|]. congruence.
  - by apply tracked_account_status.
  - apply tracked_transaction. intros s' a (s1 & H1 & [= <- _])%bind_Ok.
    apply insert_node_frame in H1 as (?&?&?). by apply tracked_frame.
  - eapply tracked_update; [done..|]. intros c. split; [|done]. simpl.
    pose proof (bump_version_ge (TimeUnixMilli now) (cn_DesiredVersionMS c)). lia.
  - apply tracked_transaction. intros s' a (n & _ & (s1 & (m & _ & [= <-])%bind_Ok & [= <- _])%bind_Ok)%bind_Ok.
    by apply tracked_frame.
  - apply tracked_transaction.
    intros s' a (n & _ & (u & _ & (s1 & H1 & [= <- _])%bind_Ok)%bind_Ok)%bind_Ok.
    unfold insert_installation in H1. case_match; [done|].
    apply bind_Ok in H1 as (m & _ & [= <-]). by apply tracked_frame.
  - apply tracked_transaction.
    intros s' x (u & _ & (s1 & H1 & (s2 & H2 & (s3 & H3 & [= <- _])%bind_Ok)%bind_Ok)%bind_Ok)%bind_Ok.
    apply insert_node_frame in H1 as (?&?&?). apply bind_Ok in H2 as (m & _ & [= <-]).
    unfold insert_installation in H3. case_match; [done|].
    apply bind_Ok in H3 as (m' & _ & [= <-]). by apply tracked_frame.
  - destruct Ht. by apply tracked_bundle.
  - by apply tracked_desired.
  - apply tracked_finalize.
  - apply tracked_transaction. intros s' a. cbv zeta. destruct (in_port _); [|done].
    intros (m & _ & [= <- _])%bind_Ok. by apply tracked_frame.
  - apply tracked_transaction. intros s' a (s1 & H1 & (m & _ & [= <- _])%bind_Ok)%bind_Ok.
    apply insert_node_frame in H1 as (?&?&?). by apply tracked_frame.
  - apply tracked_transaction. intros s' a (s1 & H1 & [= <- _])%bind_Ok.
    unfold insert_amneziawg_config in H1. case_match; [|done].
    apply bind_Ok in H1 as (m & _ & [= <-]). by apply tracked_frame.
  - apply tracked_transaction. intros s' a (s1 & H1 & (s2 & H2 & [= <- _])%bind_Ok)%bind_Ok.
    apply insert_node_frame in H1 as (?&?&?). unfold insert_amneziawg_config in H2.
    case_match; [|done]. apply bind_Ok in H2 as (m & _ & [= <-]). by apply tracked_frame.
  - apply tracked_transaction. intros s' []. destruct (amneziawg_node_configs s !! _); [|done].
    cbv zeta. repeat (case_match; [done|]). intros [= <-].
    eapply tracked_update; [done..|]. intros c. split; [|done]. simpl.
    pose proof (bump_version_ge (awg_ConfigVersionMS v) (cn_DesiredVersionMS c)). lia.
  - by apply tracked_frame.
  - apply tracked_transaction. intros s' a. destruct (hysteria2_node_configs s !! _); [|done].
    cbv zeta. repeat (case_match; [done|]). intros [= <- _]. by apply tracked_frame.
  - by apply tracked_frame.
Qed.

(** A stretch of the control plane's life after time [t]. *)
Inductive history (t : Z) : Server → Server → Prop :=
| history_nil s : history t s s
| history_op s op s' : timely t s op → history t (exec_op op s) s' → history t s s'.

Lemma moves_trans {M} t (x1 x2 x3 : option (StoredConnection M)) : moves t x1 x2 → moves t x2 x3 → moves t x1 x3.
Proof. intros H12 [->|?]; [done|by right]. Qed.

Lemma history_wf t s s' : history t s s' → server_wf s → server_wf s'.
Proof. induction 1; [done|]. auto using exec_op_wf. Qed.

Lemma history_moves t s s' nodeID id :
  history t s s' → server_wf s → moves t (rows_of s nodeID !! id) (rows_of s' nodeID !! id).
Proof.
  induction 1 as [s|s op s' Ht _ IH]; intros Hwf; [by left|].
  pose proof (exec_op_wf op s Hwf) as Hwf1.
  eapply moves_trans; [|by apply IH]. apply tracked_moves; [done..|]. by apply exec_op_tracked.
Qed.

(** ** The world of the Hysteria agent *)
Definition pay (c : StoredConnection string) : CredentialChange string :=
  if sc_Active c
  then mkCredentialChange (sc_ConnectionID c) CREDENTIAL_CHANGE_OP_UPSERT (Some (sc_Material c))
  else mkCredentialChange (sc_ConnectionID c) CREDENTIAL_CHANGE_OP_DELETE None.

(** The agent's database, the number of requests so far, and the users it has
    asked Hysteria to disconnect. *)
Record hworld := mkHWorld {
  hw_db : DB;
  hw_tick : nat;
  hw_kicked : list string;
}.
Definition put_db (d : DB) (w : hworld) : hworld := mkHWorld d (hw_tick w) (hw_kicked w).

Section World.
Context (nodeID : string).
(** The control plane's database and clock when it answers the [n]-th request;
    whether that request, or its answer, is lost; whether a kick fails. *)
Context (server : nat → Server) (now : nat → time) (lost : nat → bool) (kick_fails : string → bool).

Definition kick (id : string) : goM hworld unit := fun w =>
  (mkHWorld (hw_db w) (hw_tick w) (id :: hw_kicked w),
   if kick_fails id then Err "kick failed" else Ok tt).

(** [client.AuthManifest] through the network, [AgentServer.buildAuthManifestResponse]
    and the stored manifest handler. *)
Definition fetch (req : Request) : goM hworld (ManifestResponse (CredentialChange string)) := fun w =>
  let n := S (hw_tick w) in
  let w' := mkHWorld (hw_db w) n (hw_kicked w) in
  if lost n then (w', Err "request failed")
  else (w', Ok (buildAuthManifestResponse nodeID
         (BuildAuthManifestResponse "" (Some (ListHysteriaSyncConnections (server n)))
            (Some buildHysteriaCredentialChange) (now n))
         (Some (authManifestRequest nodeID req)))).

Definition hysteria_store : AuthStore hworld := db_AuthStore hw_db put_db.
Definition hysteria_source : Source hworld (CredentialChange string) := FetchSyncPage fetch.
Definition hysteria_runtime : CredentialRuntime hworld (CredentialChange string) :=
  hysteriaCredentialRuntime (Some kick).

(** [sync.New(..).RunOnce] *)
Definition HysteriaRunOnce (fuel : nat) (full : bool) : hworld → option (hworld * result unit) :=
  RunOnce hysteria_store hysteria_source hysteria_runtime fuel full.

(** One pass after another, each full or not, however it ends. *)
Fixpoint HysteriaPasses (l : list (nat * bool)) (w : hworld) : option hworld :=
  match l with
  | [] => Some w
  | (fuel, full) :: l =>
      match HysteriaRunOnce fuel full w with Some (w', _) => HysteriaPasses l w' | None => None end
  end.

(** What the control plane has for the node at the [n]-th answer, and when. *)
Definition hrows (n : nat) : gmap string (StoredConnection string) := rows_of (server n) nodeID.
Definition htime (n : nat) : Z := TimeUnixMilli (now n).
Definition hsrv (w : hworld) : gmap string (StoredConnection string) := hrows (hw_tick w).
Definition hclock (w : hworld) : Z := htime (hw_tick w).

(** Any control plane with a consistent database at every answer, whose clock
    does not go back. *)
Record plausible : Prop := {
  pl_wf : ∀ n, server_wf (server n);
  pl_clock : ∀ n, (now n ≤ now (S n))%Z;
  pl_range : ∀ n, (0 < TimeUnixMilli (now n) ≤ max_int64)%Z;
}.

(** When the writes between the answers are timely, the changes of all
    credentials can be followed. *)
Lemma history_followed lo hi id :
  server_wf (server lo) → (∀ n, lo ≤ n < hi → history (htime n) (server n) (server (S n))) →
  followed hrows htime lo hi id.
Proof.
  intros Hwf Hh. assert (Hwfs : ∀ n, lo ≤ n ≤ hi → server_wf (server n)).
  { intros n [Hlo Hhi]. induction Hlo as [|n Hlo IH]; [done|]. eapply history_wf; [apply Hh; lia|apply IH; lia]. }
  intros n Hn. apply history_moves; [by apply Hh|apply Hwfs; lia].
Qed.

Context (Hpl : plausible).

Lemma rows_pay s id c : server_wf s → rows_of s nodeID !! id = Some c →
  sc_ConnectionID c = id ∧ id ≠ "" ∧ buildHysteriaCredentialChange c = Ok (pay c).
Proof.
  unfold rows_of. intros Hwf [Hne Hc]%lookup_delete_Some. apply rows_version in Hc as (cn & Hcn & _ & _ & Hid & _ & Hm).
  pose proof (wf_id _ Hwf _ _ Hcn). split_and!; [congruence|done|].
  unfold buildHysteriaCredentialChange, pay. destruct (sc_Active c); [|done]. simpl.
  by rewrite bool_decide_eq_false_2 by auto.
Qed.

Lemma wire_of_page (page : list (StoredConnection string)) started full :
  increasing sc_ConnectionID page →
  response_of_manifest (BuildSyncResponse nodeID (mkResponse started full (changes_of pay page))) =
  Ok (mkResponse started full (wire_page pay page)).
Proof.
  intros Hinc. unfold response_of_manifest, BuildSyncResponse, changes_of, wire_page. simpl.
  do 2 f_equal. rewrite <-!list_fmap_compose. unfold SortChanges.
  apply sort_by_id_increasing. unfold increasing in *. rewrite <-list_fmap_compose.
  replace ((ch_ConnectionID ∘ (change_of_wire ∘ (ch_Payload ∘ (λ c, change_of c (pay c))))) <$> page)
    with (sc_ConnectionID <$> page); [done|].
  apply list_fmap_ext. intros i c _. simpl. unfold pay. by destruct (sc_Active c).
Qed.

Lemma hysteria_fetch req w :
  let '(w', r) := hysteria_source req w in
  hw_db w' = hw_db w ∧ hw_tick w' = S (hw_tick w) ∧
  ∀ resp, r = Ok resp → ValidatePageSize (rq_PageSize req) = Ok tt →
    let full := rq_Full req || (rq_SinceManifestStartedAtMS req =? 0)%Z in
    ∃ page, page_spec (hsrv w') full (rq_SinceManifestStartedAtMS req)
              (rq_FromConnectionID req) (rq_PageSize req) page ∧
      resp = mkResponse (hclock w') full (wire_page pay page).
Proof.
  unfold hysteria_source, FetchSyncPage, fetch, mbind, goM_bind.
  set (n := S (hw_tick w)). set (w' := mkHWorld (hw_db w) n (hw_kicked w)).
  destruct (lost n); [done|]. unfold liftM. split; [done|]. split; [done|].
  intros resp Hresp Hps. pose proof Hps as [Hps1 Hps2]%ValidatePageSize_Ok.
  unfold buildAuthManifestResponse in Hresp. simpl in Hresp.
  rewrite bool_decide_eq_true_2 in Hresp by done.
  unfold BuildAuthManifestResponse, Handle in Hresp. cbn -[BuildResponse ListSyncChanges] in Hresp.
  assert (Hu : uint32 (rq_PageSize req) = rq_PageSize req).
  { unfold uint32. apply Z.mod_small. unfold MaxPageSize in Hps2. lia. }
  rewrite Hu in Hresp.
  destruct (hysteria_listing (server n) nodeID (rq_FromConnectionID req) (pl_wf Hpl n))
    as (l & Hl & Hlists).
  set (full := rq_Full req || _) in Hresp |- *. cbv zeta.
  destruct (BuildResponse_page buildHysteriaCredentialChange pay (rows_of (server n) nodeID)
    (ListHysteriaSyncConnections (server n)) nodeID
    (mkRequest full (rq_SinceManifestStartedAtMS req) (rq_PageSize req) (rq_FromConnectionID req))
    (now n) l) as (page & Hpage & Hbuild); [|done|done| |].
  - split; intros id c Hc; by destruct (rows_pay (server n) id c (pl_wf Hpl n) Hc) as (? & ? & ?).
  - destruct Hlists as [Hinc Hin]. split; [done|]. intros c. rewrite Hin. simpl. unfold rows_of.
    rewrite lookup_delete_Some. split; [|naive_solver]. intros [Hc Hlt]. split_and!; [|done|done].
    apply not_eq_sym. by eapply str_lt_nonempty.
  - exists page. split; [exact Hpage|].
    rewrite (bool_decide_eq_true_2 ("" = "")), Hbuild in Hresp by done. rewrite wire_of_page in Hresp by apply (ps_increasing _ _ _ _ _ _ Hpage).
    by injection Hresp as <-.
Qed.

Lemma hysteria_promises :
  promises hw_db hw_tick hrows htime hysteria_store hysteria_runtime hysteria_source pay toAuthUser.
Proof.
  constructor.
  - intros key w. eexists. split; [reflexivity|].
    destruct (GetState key (hw_db w)); [done|]. by intros ->.
  - intros key v w. by split.
  - intros w. eexists. split; [reflexivity|]. by intros l [= <-].
  - intros u w. unfold wrote, hysteria_store, db_AuthStore. cbn.
    by destruct (UpsertAuthUser u (hw_db w)).
  - intros id w. by split.
  - intros keep key ms w. unfold wrote, hysteria_store, db_AuthStore. cbn -[ApplyFullAuthSnapshot].
    by destruct (ApplyFullAuthSnapshot keep key ms (hw_db w)).
  - intros c w. split; [done|]. by intros u [= <-].
  - intros u w. unfold hysteria_runtime, hysteriaCredentialRuntime. cbn.
    unfold kickCredential. by repeat case_bool_decide.
  - intros keep w. done.
  - apply hysteria_fetch.
  - apply (pl_range Hpl).
  - intros n. apply TimeUnixMilli_mono, (pl_clock Hpl).
  - intros n id c Hc. destruct (rows_pay _ id c (pl_wf Hpl n) Hc) as (Hid & Hne & _).
    split_and!; [done|done|..]; unfold pay; by destruct (sc_Active c).
Qed.

(** What the agent should have of a credential: of an active one the user
    with its identifier and its password hash, nothing of another. *)
Definition wanted (c : StoredConnection string) : option AuthUser :=
  if sc_Active c then Some (mkAuthUser (sc_ConnectionID c) (sc_ConnectionID c) (password_meta (sc_Material c))) else None.

Lemma wanted_same c : (if sc_Active c then Some (toAuthUser (pay c)) else None) = wanted c.
Proof. unfold wanted, pay. by destruct (sc_Active c). Qed.

(** The agent, which has been synchronising since request [lo], agrees with
    every credential older than its cursor whose changes could be followed, and
    has none of those that the control plane does not know. *)
Definition in_step (lo : nat) (w : hworld) : Prop :=
  ∀ T, cursor_of (hw_db w) = Some T → (0 < T ≤ hclock w)%Z ∧
  ∀ id, followed hrows htime lo (hw_tick w) id →
    match hsrv w !! id with
    | Some c => (sc_UpdatedAtMS c < T)%Z → auth_users (hw_db w) !! id = wanted c
    | None => auth_users (hw_db w) !! id = None
    end.

Abbreviation following lo := (follows hw_db hw_tick hrows htime pay toAuthUser True lo).

Lemma following_in_step lo w : following lo w → in_step lo w.
Proof.
  intros Hf T HT. destruct (Hf I) as [_ H]. destruct (H T HT) as [Hr [Ha Hk]]. split; [done|]. intros id Hid.
  destruct (hsrv w !! id) as [c|] eqn:E; [|by apply Hk]. intros Hlt. rewrite <-wanted_same. by apply Ha.
Qed.

Lemma passes_following l lo w w' : following lo w → HysteriaPasses l w = Some w' → following lo w'.
Proof.
  revert w; induction l as [|[fuel full] l IH]; intros w Hf; [by intros [= <-]|]. cbn [fmap list_fmap HysteriaPasses].
  destruct (HysteriaRunOnce fuel full w) as [[w1 r]|] eqn:E; [|intros [=]]. apply IH.
  apply (run_follows _ _ _ _ _ _ _ _ _ hysteria_promises True lo fuel full w w1 r Hf); [auto|done].
Qed.

(** An agent that has no cursor yet. *)
Lemma fresh_following w : cursor_of (hw_db w) = None → following (hw_tick w) w.
Proof. intros Hc _. split; [done|]. intros T. by rewrite Hc. Qed.

Lemma pass_in_step l w0 w fuel full w' r :
  cursor_of (hw_db w0) = None → HysteriaPasses l w0 = Some w → HysteriaRunOnce fuel full w = Some (w', r) →
  in_step (hw_tick w0) w' ∧ (r = Ok tt → ∃ T, cursor_of (hw_db w') = Some T ∧ (hclock w ≤ T)%Z).
Proof.
  intros Hc%fresh_following Hl Hrun. apply (passes_following _ _ _ _ Hc) in Hl.
  destruct (run_follows _ _ _ _ _ _ _ _ _ hysteria_promises True _ fuel full w w' r Hl ltac:(auto) Hrun) as (Hf' & _ & Hr).
  split; [by apply following_in_step|]. intros Hok. destruct (Hr Hok) as [(T & HT & ? & ?) _]. by exists T.
Qed.

(** The agent has been synchronising, since it had no cursor, over a time in
    which the changes of the credential could be followed. *)
Definition followed_until (hi : nat) (w : hworld) (id : string) : Prop :=
  ∃ w0 l, cursor_of (hw_db w0) = None ∧ HysteriaPasses l w0 = Some w ∧ followed hrows htime (hw_tick w0) hi id.

Lemma pass_converges fuel full w w' id :
  HysteriaRunOnce fuel full w = Some (w', Ok tt) → steady hrows (S (hw_tick w)) (hw_tick w') id →
  full = true ∨ followed_until (hw_tick w') w id →
  auth_users (hw_db w') !! id = hsrv w' !! id ≫= wanted.
Proof.
  intros Hrun Hst Hpast.
  assert (hsrv w' !! id ≫= wanted = hsrv w' !! id ≫= want pay toAuthUser) as ->
    by (destruct (hsrv w' !! id) as [c|]; [symmetry; apply wanted_same|done]).
  destruct Hpast as [->|(w0 & l & Hc%fresh_following & Hl & Hfo)].
  - destruct (run_follows _ _ _ _ _ _ _ _ _ hysteria_promises False 0 fuel true w w' (Ok tt) ltac:(done) ltac:(auto) Hrun) as (_ & _ & Hr).
    apply (proj2 (Hr eq_refl)). by split.
  - apply (passes_following _ _ _ _ Hc) in Hl.
    destruct (run_follows _ _ _ _ _ _ _ _ _ hysteria_promises True _ fuel full w w' (Ok tt) Hl ltac:(auto) Hrun) as (_ & _ & Hr).
    apply (proj2 (Hr eq_refl)). by split.
Qed.

(** A credential that stays behind the cursor is not touched by incremental
    passes. *)
Lemma passes_leave_alone id T lo fuels w w' T0 :
  cursor_of (hw_db w) = Some T0 → (0 < T ≤ T0)%Z → (T0 ≤ hclock w)%Z → lo ≤ hw_tick w →
  HysteriaPasses ((., false) <$> fuels) w = Some w' → left_alone hw_db hw_tick hrows id T lo w w'.
Proof.
  revert w T0; induction fuels as [|fuel fuels IH]; intros w T0 Hc HT Hcl Hlo; [by intros [= <-]|]. cbn [fmap list_fmap HysteriaPasses].
  destruct (HysteriaRunOnce fuel false w) as [[w1 r]|] eqn:E; [|done]. intros Hrest.
  destruct (delta_run _ _ _ _ _ _ _ _ _ hysteria_promises id T lo fuel w w1 r T0 Hc HT Hcl Hlo E) as [H1 (T1 & Hc1 & HT1 & Hcl1)].
  eapply left_alone_trans; [exact H1|]. apply (IH w1 T1); [done|lia|done|destruct H1; lia|done].
Qed.
End World.

(** C3. An agent stays in step with the control plane.  Take an agent without a
    cursor, let it run any number of passes and then one more, each full or
    incremental, ending well or failing at any point, with requests lost and the
    control plane's database changing in any way between two pages; the control
    plane's clock does not go back.  Then every connection of the node whose
    changes each carried a version not older than the answer before them is in
    step: if it is older than the agent's cursor, its user is in the agent's
    database exactly as desired, and if the control plane does not know it, the
    agent has no user of it.  A pass that succeeds moves the cursor at least to
    the time of the last answer before it. *)
Theorem hysteria_pass_in_step nodeID server now lost kick_fails l w0 w fuel full w' r :
  plausible server now →
  cursor_of (hw_db w0) = None →
  HysteriaPasses nodeID server now lost kick_fails l w0 = Some w →
  HysteriaRunOnce nodeID server now lost kick_fails fuel full w = Some (w', r) →
  in_step nodeID server now (hw_tick w0) w' ∧
  (r = Ok tt → ∃ T, cursor_of (hw_db w') = Some T ∧ (hclock now w ≤ T)%Z).
Proof.
  intros Hpl Hc Hl Hrun. exact (pass_in_step nodeID server now lost kick_fails Hpl l w0 w fuel full w' r Hc Hl Hrun).
Qed.

(** C4. A pass that succeeds brings every connection up to date that is not
    changed during it: if the control plane has the same for a connection at
    every answer of the pass, then the agent has afterwards the user of the
    connection with its current password hash if it is active, and no user
    otherwise.  For a full pass this holds whatever came before.  For an
    incremental one, the agent must have been synchronising since it had no
    cursor, and the earlier changes of the connection must each have carried a
    version not older than the answer before them.  The control plane's clock
    does not go back. *)
Theorem hysteria_pass_converges nodeID server now lost kick_fails fuel full w w' id :
  plausible server now →
  HysteriaRunOnce nodeID server now lost kick_fails fuel full w = Some (w', Ok tt) →
  steady (hrows nodeID server) (S (hw_tick w)) (hw_tick w') id →
  full = true ∨ followed_until nodeID server now lost kick_fails (hw_tick w') w id →
  auth_users (hw_db w') !! id = hsrv nodeID server w' !! id ≫= wanted.
Proof. intros Hpl. exact (pass_converges nodeID server now lost kick_fails Hpl fuel full w w' id). Qed.

(** C6. A pass terminates: the engine's page loop, which has no bound in the
    code, needs at most one page more than there are connection ids. *)
Theorem hysteria_pass_terminates nodeID server now lost kick_fails fuel full w (X : gset string) :
  plausible server now →
  (∀ n, dom (hysteria_rows (server n) nodeID) ⊆ X) → size X < fuel →
  is_Some (HysteriaRunOnce nodeID server now lost kick_fails fuel full w).
Proof.
  intros Hpl HX Hfuel.
  apply (run_terminates _ _ _ _ _ _ _ _ _ (hysteria_promises nodeID server now lost kick_fails Hpl) X);
    [|done].
  intros n id. unfold hrows, rows_of. rewrite dom_delete. intros [Hid _]%elem_of_difference. by apply (HX n).
Qed.

(** ** A run

    A node with two connections; the agent pulls both, then one is put on
    hold and an incremental pass drops it. *)
Definition demo_server (n : nat) : Server :=
  match n with 0 | 1 => demo_s0 | _ => exec_op demo_hold demo_s0 end.
Definition demo_now (n : nat) : time := match n with 0 | 1 => at_ms 2000 | _ => at_ms 3000 end.

Lemma demo_plausible : plausible demo_server demo_now.
Proof.
  constructor.
  - intros [|[|n]]; [apply demo_s0_wf..|apply exec_op_wf, demo_s0_wf].
  - intros [|[|n]]; vm_compute; congruence.
  - intros [|[|n]]; vm_compute; split; congruence.
Qed.

Lemma demo_followed hi id : followed (hrows "nod" demo_server) (htime demo_now) 0 hi id.
Proof.
  apply history_followed; [apply demo_s0_wf|]. intros [|[|n]] _; [apply history_nil| |apply history_nil].
  apply (history_op _ _ demo_hold); [vm_compute; congruence|apply history_nil].
Qed.

Definition demo_run (full : bool) (w : hworld) : option (hworld * result unit) :=
  HysteriaRunOnce "nod" demo_server demo_now (fun _ => false) (fun _ => false) 3 full w.

Definition demo_start : hworld := mkHWorld (mkDB ∅ ∅ ∅) 0 [].
Definition after (o : option (hworld * result unit)) : hworld :=
  match o with Some (w, _) => w | None => demo_start end.
Definition demo_mid : hworld := Eval vm_compute in after (demo_run false demo_start).
Definition demo_end : hworld := Eval vm_compute in after (demo_run false demo_mid).

Lemma demo_first : demo_run false demo_start = Some (demo_mid, Ok tt).
Proof. vm_compute. reflexivity. Qed.
Lemma demo_second : demo_run false demo_mid = Some (demo_end, Ok tt).
Proof. vm_compute. reflexivity. Qed.

(** The incremental pass has dropped the connection on hold and kicked it. *)
Example demo_outcome :
  dom (auth_users (hw_db demo_mid)) = {["con-a"; "con-b"]} ∧
  dom (auth_users (hw_db demo_end)) = {["con-b"]} ∧ hw_kicked demo_end = ["con-a"].
Proof. split_and!; vm_compute; reflexivity. Qed.

Definition demo_passes (l : list (nat * bool)) (w : hworld) : option hworld :=
  HysteriaPasses "nod" demo_server demo_now (fun _ => false) (fun _ => false) l w.

Lemma demo_one_pass : demo_passes [(3, false)] demo_start = Some demo_mid.
Proof. vm_compute. reflexivity. Qed.

Lemma hysteria_pass_in_step_witness :
  in_step "nod" demo_server demo_now 0 demo_end ∧
  (Ok tt = Ok tt → ∃ T, cursor_of (hw_db demo_end) = Some T ∧ (hclock demo_now demo_mid ≤ T)%Z).
Proof.
  exact (hysteria_pass_in_step "nod" demo_server demo_now (fun _ => false) (fun _ => false) [(3, false)] demo_start
    demo_mid 3 false demo_end (Ok tt) demo_plausible eq_refl demo_one_pass demo_second).
Defined.

Lemma demo_steady id : steady (hrows "nod" demo_server) (S (hw_tick demo_mid)) (hw_tick demo_end) id.
Proof. intros [|[|n]] [Hn _]; [inversion Hn; lia..|done]. Qed.

Lemma demo_past id :
  followed_until "nod" demo_server demo_now (fun _ => false) (fun _ => false) (hw_tick demo_end) demo_mid id.
Proof. exists demo_start, [(3, false)]. split_and!; [done|exact demo_one_pass|apply demo_followed]. Qed.

Lemma hysteria_pass_converges_witness :
  auth_users (hw_db demo_end) !! "con-a" = hsrv "nod" demo_server demo_end !! "con-a" ≫= wanted.
Proof.
  exact (hysteria_pass_converges "nod" demo_server demo_now (fun _ => false) (fun _ => false) 3 false
    demo_mid demo_end "con-a" demo_plausible demo_second (demo_steady "con-a") (or_intror (demo_past "con-a"))).
Defined.

Lemma demo_ids n : dom (hysteria_rows (demo_server n) "nod") ⊆ ({["con-a"; "con-b"]} : gset string).
Proof.
  assert (H : ∀ V : gmap string (StoredConnection string),
    bool_decide (dom V ⊆ ({["con-a"; "con-b"]} : gset string)) = true →
    dom V ⊆ ({["con-a"; "con-b"]} : gset string)) by (intros V; apply bool_decide_eq_true_1).
  apply H. destruct n as [|[|n]]; vm_compute; reflexivity.
Qed.

Lemma hysteria_pass_terminates_witness : is_Some (demo_run true demo_start).
Proof.
  exact (hysteria_pass_terminates "nod" demo_server demo_now (fun _ => false) (fun _ => false) 3 true
    demo_start {["con-a"; "con-b"]} demo_plausible demo_ids (le_n 3)).
Defined.

(** ** Changes the incremental synchronisation does not see *)

(** The row of a connection that is not wanted active. *)
Lemma rows_inactive s nodeID id c :
  server_wf s → id ≠ "" → connections s !! id = Some c → cn_NodeID c = nodeID → cn_Protocol c = ProtocolHysteria2 →
  cn_DesiredStatus c ≠ ConnectionStatusActive →
  ∃ x, rows_of s nodeID !! id = Some x ∧ sc_Active x = false ∧ sc_UpdatedAtMS x = cn_DesiredVersionMS c.
Proof.
  intros Hwf Hne Hc Hn Hp Hs. unfold rows_of. rewrite lookup_delete_ne by done.
  destruct (rows_exist s nodeID id c Hwf Hc Hn Hp) as [x Hx]. exists x. split; [done|].
  pose proof Hx as (c' & Hc' & _ & _ & _ & Hv & _)%rows_version. rewrite Hc in Hc'. injection Hc' as <-. split; [|done].
  rewrite lookup_rows, Hc in Hx. cbn in Hx. destruct (_ && _); [|done]. apply bind_Some in Hx as (a & _ & Hx). cbn in Hx.
  destruct (hysteria2_materials s !! cn_ID c); [|done]. injection Hx as <-. cbn.
  rewrite (bool_decide_eq_false_2 (cn_DesiredStatus c = _)) by done. by rewrite andb_false_r.
Qed.

(** C16. The version of a change is taken from the clock before the change is
    committed.  When a manifest is answered in between, the change is older
    than the cursor that manifest leaves, and no later incremental pass sends
    it.  For any agent with cursor [T]: if a connection of its node is put on
    hold or deleted with a version older than [T], and it is not changed again,
    then after any number of incremental passes, however they end, the agent
    still has of the connection what it had before, though the control plane no
    longer wants it active.  (The clock does not go back, and [T] is not in the
    future.) *)
Theorem late_commit_missed nodeID server now lost kick_fails fuels w w' T t id status s s' c :
  plausible server now →
  cursor_of (hw_db w) = Some T → (0 < T ≤ hclock now w)%Z →
  server_wf s → UpdateConnectionDesiredStatus t id status s = (s', Ok c) → status ≠ ConnectionStatusActive →
  id ≠ "" → cn_NodeID c = nodeID → cn_Protocol c = ProtocolHysteria2 → (cn_DesiredVersionMS c < T)%Z →
  (∀ n, hw_tick w < n ≤ hw_tick w' → rows_of (server n) nodeID !! id = rows_of s' nodeID !! id) →
  HysteriaPasses nodeID server now lost kick_fails ((., false) <$> fuels) w = Some w' →
  auth_users (hw_db w') !! id = auth_users (hw_db w) !! id ∧
  (hw_tick w < hw_tick w' → ∃ x, hsrv nodeID server w' !! id = Some x ∧ sc_Active x = false).
Proof.
  intros Hpl Hc HT Hwf Hup Hst Hne Hn Hp Hv Hrows Hrun.
  assert (Hwf' : server_wf s').
  { pose proof (exec_op_wf (OpUpdateConnectionDesiredStatus t id status) s Hwf) as H. cbn in H. by rewrite Hup in H. }
  destruct (UpdateConnectionDesiredStatus_cases t id status s) as [(c0 & Hc0 & _ & _ & Heq)|[e Heq]]; rewrite Hup in Heq; [|done].
  apply pair_equal_spec in Heq as [Hs' Heq]. injection Heq as Heq.
  destruct (rows_inactive s' nodeID id c Hwf' Hne) as (x & Hx & Hact & Hver); [|done|done|by rewrite Heq|].
  { rewrite Hs', Heq. cbn. by rewrite lookup_insert_eq. }
  destruct (passes_leave_alone nodeID server now lost kick_fails Hpl id T (hw_tick w) fuels w w' T Hc ltac:(lia) (proj2 HT)
    (le_n _) Hrun) as [Hle Hu].
  split.
  - apply Hu. intros n y Hlt Hy. unfold hrows in Hy. rewrite (Hrows n) in Hy by lia. rewrite Hx in Hy. injection Hy as <-. lia.
  - intros Hlt. exists x. unfold hsrv, hrows. by rewrite Hrows, Hx by lia.
Qed.

(** A hold that is decided at 1500 ms and committed after the first pass, which
    was answered at 2000 ms: the user stays. *)
Definition late_hold : Server := exec_op (OpUpdateConnectionDesiredStatus (at_ms 1500) "con-a" ConnectionStatusHeld) demo_s0.
Definition late_server (n : nat) : Server := match n with 0 | 1 => demo_s0 | _ => late_hold end.
Definition late_end : hworld := Eval vm_compute in
  match HysteriaPasses "nod" late_server demo_now (fun _ => false) (fun _ => false) [(3, false)] demo_mid with
  | Some w => w | None => demo_start end.

Lemma late_plausible : plausible late_server demo_now.
Proof.
  constructor; [|apply (pl_clock _ _ demo_plausible)|apply (pl_range _ _ demo_plausible)].
  intros [|[|n]]; [apply demo_s0_wf..|apply exec_op_wf, demo_s0_wf].
Qed.

Lemma late_commit_missed_witness :
  is_Some (auth_users (hw_db late_end) !! "con-a") ∧
  ∃ x, hsrv "nod" late_server late_end !! "con-a" = Some x ∧ sc_Active x = false.
Proof.
  destruct (late_commit_missed "nod" late_server demo_now (fun _ => false) (fun _ => false) [3] demo_mid late_end 2000
    (at_ms 1500) "con-a" ConnectionStatusHeld demo_s0 late_hold
    (default (cb_Connection (demo_bundle "" "")) (connections late_hold !! "con-a")) late_plausible) as [Hu Hs].
  - vm_compute. reflexivity.
  - vm_compute. split; congruence.
  - exact demo_s0_wf.
  - vm_compute. reflexivity.
  - discriminate.
  - discriminate.
  - vm_compute. reflexivity.
  - vm_compute. reflexivity.
  - vm_compute. reflexivity.
  - intros [|[|n]] [Hn _]; [inversion Hn; lia..|reflexivity].
  - vm_compute. reflexivity.
  - split; [rewrite Hu; by eexists|]. apply Hs. vm_compute. lia.
Defined.

(** The status of an account takes part in the desired state but has no
    version: putting an account on hold, without touching its connections, takes
    them off the node, but leaves the versions of their rows as they are, so
    that incremental passes do not see the change. *)
Theorem account_status_untracked now s nodeID k c x :
  connections s !! k = Some c → rows_of s nodeID !! k = Some x →
  ∃ x', rows_of (UpdateAccountStatus now (cn_AccountID c) AccountStatusHeld s).1 nodeID !! k = Some x' ∧
    sc_Active x' = false ∧ sc_UpdatedAtMS x' = sc_UpdatedAtMS x.
Proof.
  intros Hc. unfold rows_of. intros [Hne Hx]%lookup_delete_Some. rewrite lookup_delete_ne by done.
  change (UpdateAccountStatus now (cn_AccountID c) AccountStatusHeld s).1
    with (set_accounts (alter (set_account_status AccountStatusHeld now) (cn_AccountID c) (accounts s)) s).
  rewrite lookup_rows, Hc in Hx. rewrite lookup_rows. cbn in *. rewrite Hc. cbn. destruct (_ && _); [|done].
  apply bind_Some in Hx as (a & Ha & Hx). rewrite lookup_alter_eq, Ha. cbn in *.
  destruct (hysteria2_materials s !! cn_ID c); [|done]. injection Hx as <-. by eexists.
Qed.
