(* ===== verification/HysteriaAuth.v ===== *)
(** * HysteriaAuth: who may use a Hysteria node

    The endpoint of [src/internal/legacy/agent/hysteria2/auth/auth.go] that the
    Hysteria server asks about every client, on top of the users the agent
    keeps in its database.  The comparison with a bcrypt hash belongs to a
    package that is not part of the sources and is a parameter. *)

From S2P Require Import Prelude GoLib GoText GoUrl GoJson Sql AgentStore SyncProtocol ServerModel ServerStore ServerManifest SyncEngine SyncConvergence Samples HysteriaSync.
From Stdlib Require Import Ascii.
Import GoStrings GoTime.

Record AuthRequest := mkAuthRequest {
  aq_Addr : string;
  aq_Auth : string;
  aq_TX : Z;
}.

Record AuthResponse := mkAuthResponse {
  ap_OK : bool;
  ap_ID : string;
  ap_Msg : string;
}.

(** What the handler writes: a status without a body, or a response. *)
Inductive auth_answer := MethodNotAllowed | Answer (r : AuthResponse).

Definition not_allowed : auth_answer := Answer (mkAuthResponse false EmptyString "not allowed").

Definition splitAuth (raw : string) : string * string :=
  let raw := TrimSpace raw in
  if bool_decide (raw = EmptyString) then (EmptyString, EmptyString)
  else match Url.cut_byte ":"%char raw with
       | Some (before, after) => (before, after)
       | None => (EmptyString, raw)
       end.

(** The struct with the one field [password_hash] that the metadata of a user
    is read into, and whether that went well. *)
Definition meta_hash (meta : string) : string * bool :=
  JsonRead.Unmarshal (JsonRead.decode_struct [JsonRead.string_field "password_hash" (fun x _ => x)]) meta EmptyString.

Section Auth.
(** [bcrypt.CompareHashAndPassword(hash, password) == nil] *)
Context (bcrypt : string → string → bool).

Definition verifyPassword (hash password : string) : bool :=
  if HasPrefix hash "$2a$" || HasPrefix hash "$2b$" || HasPrefix hash "$2y$" then bcrypt hash password
  else bool_decide (hash = password).

(** [decoded] is the request if the body of the call decodes. *)
Definition auth (method : string) (decoded : option AuthRequest) (db : DB) : auth_answer :=
  if negb (bool_decide (method = "POST")) then MethodNotAllowed
  else match decoded with
  | None => not_allowed
  | Some req =>
      let '(nativeAuthID, password) := splitAuth (aq_Auth req) in
      if bool_decide (nativeAuthID = EmptyString) || bool_decide (password = EmptyString) then not_allowed
      else match GetAuthUserByNativeAuthID nativeAuthID db with
           | Err _ => not_allowed
           | Ok user =>
               let '(hash, ok) := meta_hash (u_NativeMeta user) in
               if negb ok || negb (verifyPassword hash password) then not_allowed
               else Answer (mkAuthResponse true (u_NativeAuthID user) EmptyString)
           end
  end.
End Auth.

(** The metadata the synchronisation writes is read back. *)
Lemma meta_hash_written hash : JsonRead.ValidString hash = true → meta_hash (password_meta hash) = (hash, true).
Proof.
  unfold JsonRead.ValidString. rewrite bool_decide_eq_true. intros Hv. unfold meta_hash, JsonRead.Unmarshal.
  change (password_meta hash) with (JsonRead.object [("password_hash", Json.quote hash)]).
  rewrite (JsonRead.parse_object _ [("password_hash", JsonRead.JString hash)]); [done|].
  repeat constructor; cbn. rewrite <-Hv at 2. apply JsonRead.reads_quote.
Qed.

(** A table whose users have their connection's identifier as native one. *)
Lemma find_by_native id db u :
  map_Forall (fun k u => u_NativeAuthID u = k) (auth_users db) →
  GetAuthUserByNativeAuthID id db = Ok u ↔ auth_users db !! id = Some u.
Proof.
  intros Hk. unfold GetAuthUserByNativeAuthID, find_native.
  assert (Hin : ∀ v, v ∈ sql_select (fun u => bool_decide (u_NativeAuthID u = id)) (auth_users db) ↔ auth_users db !! id = Some v).
  { intros v. rewrite elem_of_sql_select. split.
    - intros [E%bool_decide_eq_true [k Hv]]. pose proof (Hk k v Hv) as E'. cbn in E'. by rewrite <-E, E'.
    - intros Hv. split; [|by exists id]. apply bool_decide_eq_true. by apply (Hk id v). }
  destruct (sql_select _ _) as [|v l]; cbn.
  - split; [done|]. intros H. apply Hin in H. by apply elem_of_nil in H.
  - specialize (proj1 (Hin v) ltac:(left)) as Hv. rewrite Hv. split; [by intros [= ->]|by intros [= ->]].
Qed.

(** The users after a pass over a quiet control plane. *)
Lemma users_wanted nodeID server now lost kick_fails fuel full w w' :
  plausible server now →
  HysteriaRunOnce nodeID server now lost kick_fails fuel full w = Some (w', Ok tt) →
  (∀ k, steady (hrows nodeID server) (S (hw_tick w)) (hw_tick w') k) →
  full = true ∨ (∀ k, followed_until nodeID server now lost kick_fails (hw_tick w') w k) →
  ∀ k u, auth_users (hw_db w') !! k = Some u ↔
    ∃ c, hsrv nodeID server w' !! k = Some c ∧ sc_Active c = true ∧ u = mkAuthUser k k (password_meta (sc_Material c)).
Proof.
  intros Hpl Hrun Hst Hpast k u.
  assert (full = true ∨ followed_until nodeID server now lost kick_fails (hw_tick w') w k) as Hk by (destruct Hpast; auto).
  rewrite (pass_converges nodeID server now lost kick_fails Hpl fuel full w w' k Hrun (Hst k) Hk). unfold wanted. split.
  - intros (c & Hc & Hu)%bind_Some. exists c. destruct (rows_pay nodeID _ k c (pl_wf _ _ Hpl (hw_tick w')) Hc) as [E _].
    destruct (sc_Active c); [|done]. injection Hu as <-. by rewrite E.
  - intros (c & Hc & Ha & ->). destruct (rows_pay nodeID _ k c (pl_wf _ _ Hpl (hw_tick w')) Hc) as [E _].
    rewrite Hc. cbn. by rewrite Ha, E.
Qed.

Section Logins.
Context (bcrypt : string → string → bool).

(** C5. After a pass that succeeded, the endpoint lets in exactly the clients the
    control plane wants: a request is accepted, under a connection's identifier,
    if and only if it names that connection of the node, the connection is
    active, and the password verifies against the hash stored for it.  Here the
    control plane has the same connections of the node at every answer of the
    pass, its clock does not go back, and the hash in question is valid UTF-8.
    The pass is full; or it is incremental, and the agent has been synchronising
    since it had no cursor, while every change of a connection carried a version
    not older than the answer before it. *)
Theorem logins_exact nodeID server now lost kick_fails fuel full w w' req id :
  plausible server now →
  HysteriaRunOnce nodeID server now lost kick_fails fuel full w = Some (w', Ok tt) →
  (∀ k, steady (hrows nodeID server) (S (hw_tick w)) (hw_tick w') k) →
  full = true ∨ (∀ k, followed_until nodeID server now lost kick_fails (hw_tick w') w k) →
  (∀ c, hsrv nodeID server w' !! id = Some c → JsonRead.ValidString (sc_Material c) = true) →
  auth bcrypt "POST" (Some req) (hw_db w') = Answer (mkAuthResponse true id EmptyString) ↔
  ∃ password c, splitAuth (aq_Auth req) = (id, password) ∧ id ≠ EmptyString ∧ password ≠ EmptyString ∧
    hsrv nodeID server w' !! id = Some c ∧ sc_Active c = true ∧ verifyPassword bcrypt (sc_Material c) password = true.
Proof.
  intros Hpl Hrun Hst Hpast Hv. pose proof (users_wanted _ _ _ _ _ _ _ _ _ Hpl Hrun Hst Hpast) as Hrow.
  assert (Hn : map_Forall (fun k u => u_NativeAuthID u = k) (auth_users (hw_db w')))
    by (intros k u (c & _ & _ & ->)%Hrow; done).
  unfold auth. cbn [negb]. rewrite bool_decide_eq_true_2 by done. cbn [negb].
  destruct (splitAuth (aq_Auth req)) as [n p]. case_bool_decide as Hne; [split; [done|]; by intros (p' & c & [= -> ->] & ? & _)|].
  case_bool_decide as Hpe; [split; [done|]; by intros (p' & c & [= -> ->] & _ & ? & _)|]. cbn [orb].
  destruct (GetAuthUserByNativeAuthID n (hw_db w')) as [u|e] eqn:Eu.
  - apply (find_by_native _ _ _ Hn), Hrow in Eu as (c & Hc & Ha & ->). cbn [u_NativeMeta u_NativeAuthID].
    destruct (decide (n = id)) as [->|Hid].
    2: { destruct (meta_hash _) as [hash ok]. split; [|by intros (p' & c' & [= Hid' _] & _)].
         destruct (_ || _); [discriminate|by intros [= ?]]. }
    rewrite (meta_hash_written _ (Hv c Hc)). cbn [negb orb].
    destruct (verifyPassword bcrypt (sc_Material c) p) eqn:Ep; cbn [negb]; split.
    + intros _. by exists p, c.
    + done.
    + done.
    + intros (p' & c' & [= ->] & _ & _ & Hc' & _ & Hp'). rewrite Hc in Hc'. injection Hc' as <-. congruence.
  - split; [done|]. intros (p' & c & [= -> ->] & _ & _ & Hc & Ha & _). exfalso.
    assert (H : auth_users (hw_db w') !! id = Some (mkAuthUser id id (password_meta (sc_Material c)))) by (apply Hrow; eauto).
    apply (find_by_native _ _ _ Hn) in H. congruence.
Qed.
End Logins.

(** ** Logins after the run of [HysteriaSync]

    One of the two connections is on hold; the other one gets in. *)
Definition demo_login (text : string) : AuthRequest := mkAuthRequest "192.0.2.7:4242" text 0.
Definition no_bcrypt (hash password : string) : bool := false.

Lemma demo_hashes c : hsrv "nod" demo_server demo_end !! "con-b" = Some c → JsonRead.ValidString (sc_Material c) = true.
Proof.
  assert (H : match hsrv "nod" demo_server demo_end !! "con-b" with
    Some c => JsonRead.ValidString (sc_Material c) | None => true end = true) by (vm_compute; reflexivity).
  by intros E; rewrite E in H.
Qed.

Lemma logins_exact_witness :
  ∃ password c, splitAuth "con-b:hash-laptop" = ("con-b", password) ∧ "con-b" ≠ EmptyString ∧ password ≠ EmptyString ∧
    hsrv "nod" demo_server demo_end !! "con-b" = Some c ∧ sc_Active c = true ∧ verifyPassword no_bcrypt (sc_Material c) password = true.
Proof.
  apply (proj1 (logins_exact no_bcrypt "nod" demo_server demo_now (fun _ => false) (fun _ => false) 3 false
    demo_mid demo_end (demo_login "con-b:hash-laptop") "con-b" demo_plausible demo_second demo_steady (or_intror demo_past) demo_hashes)).
  vm_compute. reflexivity.
Defined.

(** The connection on hold, a wrong password and a text without a colon are
    refused. *)
Example refused_logins :
  Forall (fun text => auth no_bcrypt "POST" (Some (demo_login text)) (hw_db demo_end) = not_allowed)
    ["con-a:hash-phone"; "con-b:guess"; "con-b:"; "hash-laptop"; ""].
Proof. repeat first [apply list.Forall_nil_2|apply list.Forall_cons_2; [vm_compute; reflexivity|]]. Qed.
