(* ===== verification/AmneziaSettings.v ===== *)
(** * AmneziaSettings: changing the settings of an AmneziaWG node

    [src/internal/server/amneziasettings] and its handler
    [src/internal/server/transport/http/admin/amnezia_settings.go]: the checks,
    the address pool that follows from the network, the routes of the clients,
    and the update of the node together with every configuration that was
    issued for it.  The set of addresses behind the routes is built by
    [go4.org/netipx], whose documented behaviour is a record of laws. *)

From S2P Require Import Prelude GoLib GoText GoJson GoNet GoNetip AwgConfig Sql ServerModel NativeAwg ServerStore StoreInvariant Samples Tables Httpx PortalStore.
From Stdlib Require Import Ascii.
Import GoTime GoStrings Netip.
Local Open Scope Z_scope.

(** ** Sets of addresses *)
Record Netipx := mkNetipx {
  (** [RangeOfPrefix(p).From()] and [.To()] *)
  RangeOfPrefix : Prefix → Addr * Addr;
  (** [IPSetBuilder]: what was added ([true]) and removed, in this order, then
      [IPSet().Prefixes()]. *)
  IPSetPrefixes : list (bool * Prefix) → result (list Prefix);
}.

Definition covered (ps : list Prefix) (a : Addr) : Prop := ∃ p, p ∈ ps ∧ Contains p a = true.

(** Whether an address is in the set after the steps of a builder. *)
Definition built (ops : list (bool * Prefix)) (a : Addr) : bool :=
  foldl (fun inside op => if Contains op.2 a then op.1 else inside) false ops.

(** [RangeOfPrefix] is the inclusive range of the addresses of a network;
    [AddPrefix] and [RemovePrefix] add and remove all addresses of a network;
    [Prefixes] covers exactly the set. *)
Record NetipxLaws (X : Netipx) : Prop := {
  range_valid : ∀ p, valid_prefix p →
    Forall (fun a => valid a ∧ Is4 a = Is4 (Address p)) [(RangeOfPrefix X p).1; (RangeOfPrefix X p).2];
  range_covers : ∀ p a, valid_prefix p → valid a → Is4 a = Is4 (Address p) →
    Contains p a = true ↔ num (RangeOfPrefix X p).1 <= num a <= num (RangeOfPrefix X p).2;
  set_total : ∀ ops, Forall (fun op => valid_prefix op.2) ops → ∃ ps, IPSetPrefixes X ops = Ok ps;
  set_covers : ∀ ops ps, Forall (fun op => valid_prefix op.2) ops → IPSetPrefixes X ops = Ok ps →
    ∀ a, valid a → covered ps a ↔ built ops a = true;
}.

(** ** What can go wrong *)
Inductive settings_error :=
| ValidationError (message : string)
| StoreFailure (e : error).

Definition addr_text (a : option Addr) : string := match a with Some a => Netip.String a | None => "invalid IP" end.

Definition set_pool (first last cidr : string) (c : AmneziaWGNodeConfig) : AmneziaWGNodeConfig :=
  mkAmneziaWGNodeConfig (awg_NodeID c) (awg_EndpointHost c) (awg_EndpointPort c) (awg_EndpointPort c)
    (awg_ServerIPv4 c) cidr first last (awg_DNS c) (awg_MTU c) (awg_PersistentKeepalive c)
    (awg_ClientRouteAllowedIPs c) (awg_ClientRouteMode c) (awg_ClientExcludedRoutes c) (awg_ServerPrivateKey c)
    (awg_ServerPublicKey c) (awg_Obfuscation c) (awg_AppliedConfigVersionMS c) (awg_ConfigErrorID c)
    (awg_ConfigVersionMS c) (awg_CreatedAt c) (awg_UpdatedAt c).

Definition stamp_settings (version : Z) (updated : time) (c : AmneziaWGNodeConfig) : AmneziaWGNodeConfig :=
  mkAmneziaWGNodeConfig (awg_NodeID c) (awg_EndpointHost c) (awg_EndpointPort c) (awg_ListenPort c)
    (awg_ServerIPv4 c) (awg_ClientIPv4CIDR c) (awg_FirstClientIPv4 c) (awg_LastClientIPv4 c) (awg_DNS c) (awg_MTU c)
    (awg_PersistentKeepalive c) (awg_ClientRouteAllowedIPs c) (awg_ClientRouteMode c) (awg_ClientExcludedRoutes c)
    (awg_ServerPrivateKey c) (awg_ServerPublicKey c) (awg_Obfuscation c) (awg_AppliedConfigVersionMS c) EmptyString
    version (awg_CreatedAt c) updated.

Section Settings.
Context (ToASCII : string → option string) (X : Netipx).

(** ** Checking *)
Definition Prepare (config : AmneziaWGNodeConfig) : AmneziaWGNodeConfig + settings_error :=
  match ParseAddr (awg_ServerIPv4 config) with
  | Some (mkAddr true n as server) =>
      let refused := inr (ValidationError "Поддерживается IPv4-подсеть /16–/30, содержащая адрес сервера") in
      match ParsePrefix (awg_ClientIPv4CIDR config) with
      | None => refused
      | Some network =>
          if negb (Is4 (Address network)) || (Bits network <? 16) || (30 <? Bits network) || negb (Contains network server)
          then refused
          else
            let network := Masked network in
            let '(from, to) := RangeOfPrefix X network in
            if bool_decide (server = from) || bool_decide (server = to)
            then inr (ValidationError "Адрес сервера не может быть адресом сети или broadcast")
            else
              let config := set_pool (addr_text (Next from)) (addr_text (Prev to)) (Prefix_String network) config in
              if awg_MTU config <? 68 then inr (ValidationError "MTU должен быть не меньше 68")
              else match NativeAwg.ValidateNodeConfig ToASCII config with
                   | Err e => inr (ValidationError e)
                   | Ok _ => inl config
                   end
      end
  | _ => inr (ValidationError "Адрес сервера должен быть IPv4")
  end.

(** ** Saving *)

(** The configuration of one client under the new settings. *)
Definition reissue_one (config : AmneziaWGNodeConfig) (server : option Addr) (network : Prefix) (from to : Addr)
    (material : AmneziaWGConnectionMaterial) : IssuedConfig + settings_error :=
  let conflict := inr (ValidationError "Новая подсеть или адрес сервера конфликтует с выданными адресами клиентов") in
  match ParseAddr (am_AssignedIPv4 material) with
  | None => conflict
  | Some address =>
      if negb (Contains network address) || bool_decide (Some address = server) || bool_decide (address = from) ||
         bool_decide (address = to)
      then conflict
      else match NativeAwg.RenderClientConf ToASCII config material with
           | Err e => inr (ValidationError e)
           | Ok conf => inl (mkIssuedConfig EmptyString (am_ConnectionID material) EmptyString EmptyString EmptyString
                               EmptyString EmptyString conf EmptyString zero_time zero_time)
           end
  end.

Fixpoint reissue_all (f : AmneziaWGConnectionMaterial → IssuedConfig + settings_error)
    (materials : list AmneziaWGConnectionMaterial) : list IssuedConfig + settings_error :=
  match materials with
  | [] => inl []
  | m :: rest =>
      match f m with
      | inr e => inr e
      | inl c => match reissue_all f rest with inr e => inr e | inl cs => inl (c :: cs) end
      end
  end.

Definition Save (clock : nat → time) (config : AmneziaWGNodeConfig) (expected : Z) (s : Server)
    : Server * (AmneziaWGNodeConfig + settings_error) :=
  match Prepare config with
  | inr e => (s, inr e)
  | inl config =>
      let server := ParseAddr (awg_ServerIPv4 config) in
      let network := default (mkPrefix (mkAddr true 0) 0) (ParsePrefix (awg_ClientIPv4CIDR config)) in
      let '(from, to) := RangeOfPrefix X network in
      match reissue_all (reissue_one config server network from to) (ListAmneziaWGConnectionMaterials (awg_NodeID config) s) with
      | inr e => (s, inr e)
      | inl issued =>
          let config := stamp_settings (Z.max (TimeUnixMilli (clock 0%nat)) (expected + 1)) (clock 1%nat) config in
          match UpdateAmneziaWGNodeConfig config expected issued s with
          | (s', Err e) => (s', inr (StoreFailure e))
          | (s', Ok _) => (s', inl config)
          end
      end
  end.

(** ** Routes of the clients *)
Definition route_separators : list string :=
  [","; String.String (ascii_of_nat 10) EmptyString; String.String (ascii_of_nat 13) EmptyString; " ";
   String.String (ascii_of_nat 9) EmptyString].

Definition parse_network (version : bool) (part : string) : result Prefix :=
  match ParsePrefix part with
  | Some prefix => if Bool.eqb (Is4 (Address prefix)) version then Ok (Masked prefix) else Err ("Некорректная сеть: " +:+ part)
  | None => Err ("Некорректная сеть: " +:+ part)
  end.

Definition parse_networks (version : bool) (raw : string) : result (list Prefix) :=
  ps ← mapR (parse_network version) (Text.FieldsFunc route_separators raw);
  if bool_decide (ps = []) then Err "Укажите хотя бы одну сеть" else Ok ps.

Definition all_ipv4 : Prefix := mkPrefix (mkAddr true 0) 0.
Definition all_ipv6 : Prefix := mkPrefix (mkAddr false 0) 0.

Definition steps (add : bool) (ps : list Prefix) : list (bool * Prefix) := (fun p => (add, p)) <$> ps.

Definition ipv4_steps (mode ipv4 : string) : result (list (bool * Prefix)) :=
  if bool_decide (mode = "all") then Ok [(true, all_ipv4)]
  else if bool_decide (mode = "include") then steps true <$> parse_networks true ipv4
  else if bool_decide (mode = "exclude") then (cons (true, all_ipv4) ∘ steps false) <$> parse_networks true ipv4
  else Err "Некорректный режим IPv4".

Definition ipv6_steps (mode ipv6 : string) : result (list (bool * Prefix)) :=
  if bool_decide (mode = "off") then Ok []
  else if bool_decide (mode = "all") then Ok [(true, all_ipv6)]
  else if bool_decide (mode = "include") then steps true <$> parse_networks false ipv6
  else Err "Некорректный режим IPv6".

Definition Routes (mode ipv4 ipv6Mode ipv6 : string) : result string :=
  steps4 ← ipv4_steps mode ipv4;
  steps6 ← ipv6_steps ipv6Mode ipv6;
  ps ← IPSetPrefixes X (steps4 ++ steps6);
  if bool_decide (ps = []) then Err "Маршруты не могут быть пустыми" else Ok (Join ", " (Prefix_String <$> ps)).

(** ** The form *)
Record Input := mkInput {
  in_Version : Z; in_EndpointHost : string; in_EndpointPort : Z; in_DNS : string; in_ServerIPv4 : string;
  in_Prefix : Z; in_MTU : Z; in_Keepalive : Z;
  in_JC : Z; in_JMin : Z; in_JMax : Z; in_S1 : Z; in_S2 : Z; in_S3 : Z; in_S4 : Z;
  in_H1 : string; in_H2 : string; in_H3 : string; in_H4 : string;
  in_I1 : string; in_I2 : string; in_I3 : string; in_I4 : string; in_I5 : string;
  in_HeaderKey : option string;
  in_Padding : string;
  in_Timings : option (gmap string string);
  in_RandomTrailers : bool; in_DisableCookies : bool;
  in_RouteMode : string; in_RouteNetworks : string; in_IPv6Mode : string; in_IPv6Networks : string;
}.

(** [json.Marshal] of a map: members in the order of their keys. *)
Definition marshal_map (m : option (gmap string string)) : string :=
  match m with
  | None => "null"
  | Some m => JsonRead.object ((fun kv => (kv.1, Json.quote kv.2)) <$> order_by (fun kv => (kv.1, EmptyString)) (map_to_list m))
  end.

Definition applied_obfuscation (input : Input) (key : string) : AmneziaWGObfuscation :=
  mkAmneziaWGObfuscation (in_JC input) (in_JMin input) (in_JMax input) (in_S1 input) (in_S2 input) (in_S3 input) (in_S4 input)
    (in_H1 input) (in_H2 input) (in_H3 input) (in_H4 input)
    (in_I1 input) (in_I2 input) (in_I3 input) (in_I4 input) (in_I5 input)
    key (in_Padding input) (marshal_map (in_Timings input)) (in_RandomTrailers input) (in_DisableCookies input).

Definition applied_input (input : Input) (cidr routes key : string) (c : AmneziaWGNodeConfig) : AmneziaWGNodeConfig :=
  mkAmneziaWGNodeConfig (awg_NodeID c) (in_EndpointHost input) (in_EndpointPort input) (awg_ListenPort c)
    (in_ServerIPv4 input) cidr (awg_FirstClientIPv4 c) (awg_LastClientIPv4 c) (in_DNS input) (in_MTU input) (in_Keepalive input)
    routes (in_RouteMode input) (if bool_decide (in_RouteMode input = "exclude") then in_RouteNetworks input else EmptyString)
    (awg_ServerPrivateKey c) (awg_ServerPublicKey c) (applied_obfuscation input key)
    (awg_AppliedConfigVersionMS c) (awg_ConfigErrorID c) (awg_ConfigVersionMS c) (awg_CreatedAt c) (awg_UpdatedAt c).

Definition Apply (input : Input) (c : AmneziaWGNodeConfig) : AmneziaWGNodeConfig + settings_error :=
  match ParseAddr (in_ServerIPv4 input) with
  | Some (mkAddr true n as address) =>
      if (in_Prefix input <? 16) || (30 <? in_Prefix input)
      then inr (ValidationError "Некорректный IPv4-адрес или префикс подсети")
      else match Routes (in_RouteMode input) (in_RouteNetworks input) (in_IPv6Mode input) (in_IPv6Networks input) with
           | Err e => inr (ValidationError e)
           | Ok routes =>
               let cidr := Prefix_String (Masked (mkPrefix address (in_Prefix input))) in
               match in_HeaderKey input with
               | Some EmptyString => inr (ValidationError "Новый ключ не может быть пустым")
               | Some key => Prepare (applied_input input cidr routes key c)
               | None => Prepare (applied_input input cidr routes (awg_HeaderProtectionKey (awg_Obfuscation c)) c)
               end
           end
  | _ => inr (ValidationError "Некорректный IPv4-адрес или префикс подсети")
  end.

(** ** The handler *)

(** [audit.Recorder.Record], whose errors are dropped; the actor is the name of
    the administrator. *)
Definition recordAudit (now : time) (newID actor action entityType entityID details : string) (d : Database) : Database :=
  (CreateAuditLog now newID (mkAuditLog EmptyString (or_default actor "unknown") action entityType entityID details zero_time) d).1.

Definition bool_text (b : bool) : string := if b then "true" else "false".

Definition changed_concurrently : Response := Error StatusConflict "Настройки уже изменены. Откройте форму заново".

(** A request that changes the settings; the view of the settings that answers
    a [GET] or a successful [PUT] is the row itself. *)
Definition amneziaSettings (clock : nat → time) (auditID actor errorID method nodeID : string) (input : option Input) (d : Database)
    : Database * Answer AmneziaWGNodeConfig :=
  match GetNode nodeID (core d) with
  | Err e => (d, Refused (StoreError e errorID))
  | Ok node =>
      if negb (bool_decide (nd_Type node = NodeTypeNativeAmneziaWG)) || bool_decide (nd_Status node = StatusDeleted)
      then (d, Refused (Error StatusConflict "Настройки недоступны для этого сервера"))
      else match GetAmneziaWGNodeConfig nodeID (core d) with
      | Err e => (d, Refused (StoreError e errorID))
      | Ok c =>
          if bool_decide (method = "GET") then (d, Served StatusOK [] c)
          else if negb (bool_decide (method = "PUT"))
          then (d, Refused (mkResponse StatusMethodNotAllowed [("Allow", "GET, PUT")] [] EmptyString))
          else match input with
          | None => (d, Refused (Error StatusBadRequest "Некорректные параметры настроек"))
          | Some input =>
              if negb (in_Version input =? awg_ConfigVersionMS c) then (d, Refused changed_concurrently)
              else match Apply input c with
              | inr (ValidationError m) => (d, Refused (Error StatusBadRequest m))
              | inr (StoreFailure e) => (d, Refused (Error StatusBadRequest e))
              | inl c =>
                  match Save clock c (in_Version input) (core d) with
                  | (s, inr (ValidationError m)) => (set_core s d, Refused (Error StatusBadRequest m))
                  | (s, inr (StoreFailure e)) =>
                      (set_core s d, Refused (if bool_decide (e = ErrConflict) then changed_concurrently else StoreError e errorID))
                  | (s, inl c) =>
                      let details := JsonRead.object [("header_key_rotated", bool_text (bool_decide (is_Some (in_HeaderKey input))));
                                                      ("revision", Strconv.FormatInt (awg_ConfigVersionMS c))] in
                      (recordAudit (clock 2%nat) auditID actor "nodes.settings.update" "node" nodeID details (set_core s d),
                       Served 202 [] c)
                  end
              end
          end
      end
  end.
End Settings.

(** ** The routes are the networks that were asked for *)
Section Routes.
Context (X : Netipx) (laws : NetipxLaws X).

(** The networks a list in the form names. *)
Definition networks (raw : string) : list Prefix := omap ParsePrefix (Text.FieldsFunc route_separators raw).

(** The addresses a choice in the form stands for. *)
Definition wanted (mode ipv4 ipv6Mode ipv6 : string) (a : Addr) : Prop :=
  if Is4 a then mode = "all" ∨ (mode = "include" ∧ covered (networks ipv4) a) ∨ (mode = "exclude" ∧ ¬ covered (networks ipv4) a)
  else ipv6Mode = "all" ∨ (ipv6Mode = "include" ∧ covered (networks ipv6) a).

Definition hits (ps : list Prefix) (a : Addr) : bool := existsb (fun p => Contains p a) ps.

Lemma covered_hits ps a : covered ps a ↔ hits ps a = true.
Proof. unfold covered, hits. rewrite existsb_exists. by setoid_rewrite list_elem_of_In. Qed.

Definition build_step (a : Addr) (inside : bool) (op : bool * Prefix) : bool := if Contains op.2 a then op.1 else inside.

Lemma build_steps a add ps inside : foldl (build_step a) inside (steps add ps) = if hits ps a then add else inside.
Proof.
  revert inside. induction ps as [|p ps IH]; intros inside; [done|].
  change (hits (p :: ps) a) with (Contains p a || hits ps a). cbn [steps fmap list_fmap foldl]. rewrite IH. unfold build_step. cbn.
  by destruct (Contains p a), (hits ps a).
Qed.

Lemma Contains_family p a : Is4 (Address p) ≠ Is4 a → Contains p a = false.
Proof. unfold Contains. by destruct (Is4 (Address p)), (Is4 a). Qed.

Lemma hits_family ps v a : Forall (fun p => Is4 (Address p) = v) ps → v ≠ Is4 a → hits ps a = false.
Proof. intros Hps Hv. induction Hps as [|p ps Hp _ IH]; [done|]. cbn. rewrite Contains_family by congruence. exact IH. Qed.

Lemma parse_networks_spec v raw ps :
  parse_networks v raw = Ok ps →
  Forall valid_prefix ps ∧ Forall (fun p => Is4 (Address p) = v) ps ∧ ∀ a, hits ps a = hits (networks raw) a.
Proof.
  unfold parse_networks, networks. intros (qs & Hqs & H)%bind_Ok. case_bool_decide as Hne; [done|]. clear Hne. injection H as <-.
  apply mapR_Ok in Hqs. induction Hqs as [|part q l qs Hq _ (IH1 & IH2 & IH3)]; [by split_and!|].
  unfold parse_network in Hq. destruct (ParsePrefix part) as [p|] eqn:Hp; [|done].
  destruct (Bool.eqb _ v) eqn:Hv; [|done]. apply Bool.eqb_prop in Hv. injection Hq as <-.
  pose proof Hp as Hp'. apply ParsePrefix_valid in Hp. split; [|split].
  - constructor; [by apply Masked_valid|done].
  - constructor; [exact Hv|exact IH2].
  - intros a. specialize (IH3 a). cbn. rewrite Hp'. cbn. rewrite Masked_Contains by done. unfold hits in IH3. by rewrite IH3.
Qed.

Lemma all_Contains v a : valid a → Contains (mkPrefix (mkAddr v 0) 0) a = Bool.eqb v (Is4 a).
Proof.
  intros Ha. destruct (Bool.eqb v (Is4 a)) eqn:E.
  - apply Bool.eqb_prop in E as ->. apply Contains_spec; [split; [by destruct (Is4 a)|by destruct (Is4 a)]|].
    split; [done|]. unfold host_bits. cbn. rewrite Z.sub_0_r, Z.div_small, Z.div_0_l; [done|by destruct (Is4 a)|exact Ha].
  - apply Contains_family. by apply eqb_false_iff.
Qed.

Lemma ipv4_steps_spec mode ipv4 ops :
  ipv4_steps mode ipv4 = Ok ops →
  Forall (fun op => valid_prefix op.2) ops ∧
  ∀ a, valid a → foldl (build_step a) false ops = true ↔
    Is4 a = true ∧ (mode = "all" ∨ (mode = "include" ∧ covered (networks ipv4) a) ∨ (mode = "exclude" ∧ ¬ covered (networks ipv4) a)).
Proof.
  assert (Hv : valid_prefix all_ipv4) by (by split).
  assert (Hf : ∀ add ps, Forall valid_prefix ps → Forall (fun op => valid_prefix op.2) (steps add ps)) by (intros; by apply Forall_fmap).
  unfold ipv4_steps. case_bool_decide as H1; [subst|case_bool_decide as H2; [subst|case_bool_decide as H3; [subst|done]]].
  - intros [= <-]. split; [by constructor|]. intros a Ha. cbn [foldl]. unfold build_step. cbn [fst snd]. unfold all_ipv4. rewrite all_Contains by done.
    destruct (Is4 a); naive_solver.
  - intros (ps & (Hp & H4 & Hh)%parse_networks_spec & ->)%fmap_Ok. split; [by apply Hf|]. intros a Ha.
    rewrite build_steps, covered_hits, <-Hh. destruct (Is4 a) eqn:E; [|rewrite (hits_family ps true) by (by rewrite ?E)];
      destruct (hits ps a); naive_solver.
  - intros (ps & (Hp & H4 & Hh)%parse_networks_spec & ->)%fmap_Ok. split; [by constructor; [|apply Hf]|]. intros a Ha.
    cbn [compose foldl]. unfold build_step at 2. cbn [fst snd]. unfold all_ipv4. rewrite all_Contains by done.
    rewrite build_steps, covered_hits, <-Hh. destruct (Is4 a) eqn:E; [|rewrite (hits_family ps true) by (by rewrite ?E)];
      cbn; destruct (hits ps a); naive_solver.
Qed.

Lemma ipv6_steps_spec mode ipv6 ops :
  ipv6_steps mode ipv6 = Ok ops →
  Forall (fun op => valid_prefix op.2) ops ∧
  ∀ a inside, valid a → (Is4 a = true → foldl (build_step a) inside ops = inside) ∧
    (Is4 a = false → foldl (build_step a) false ops = true ↔ mode = "all" ∨ (mode = "include" ∧ covered (networks ipv6) a)).
Proof.
  unfold ipv6_steps. case_bool_decide as H1; [subst|case_bool_decide as H2; [subst|case_bool_decide as H3; [subst|done]]].
  - intros [= <-]. split; [done|]. intros a inside Ha. split; [done|]. cbn. naive_solver.
  - intros [= <-]. split; [by constructor; [split|]|]. intros a inside Ha. cbn [foldl]. unfold build_step. cbn [fst snd].
    unfold all_ipv6. rewrite all_Contains by done. destruct (Is4 a); naive_solver.
  - intros (ps & (Hp & H6 & Hh)%parse_networks_spec & ->)%fmap_Ok. split; [by apply Forall_fmap|]. intros a inside Ha.
    rewrite !build_steps, covered_hits, <-Hh. split; intros E.
    + by rewrite (hits_family ps false) by (by rewrite ?E).
    + destruct (hits ps a); naive_solver.
Qed.

(** C39. The routes a client gets are the networks that were asked for: an address
    goes through the tunnel exactly if it is an IPv4 address and the mode is
    "all", or "include" and one of the networks of the form holds it, or
    "exclude" and none of them does, or if it is an IPv6 address and the second
    mode asks for it in the same way; and there is at least one route. *)
Theorem Routes_exact mode ipv4 ipv6Mode ipv6 text :
  Routes X mode ipv4 ipv6Mode ipv6 = Ok text →
  ∃ ps, ps ≠ [] ∧ text = Join ", " (Prefix_String <$> ps) ∧
    ∀ a, valid a → covered ps a ↔ wanted mode ipv4 ipv6Mode ipv6 a.
Proof.
  unfold Routes. intros (ops4 & [H4 H4']%ipv4_steps_spec & (ops6 & [H6 H6']%ipv6_steps_spec & (ps & Hps & H)%bind_Ok)%bind_Ok)%bind_Ok.
  case_bool_decide; [done|]. injection H as <-. exists ps. split_and!; [done|done|]. intros a Ha.
  rewrite (set_covers X laws _ _ (Forall_app_2 _ _ _ H4 H6) Hps a Ha). unfold built. change (λ inside op, _) with (build_step a).
  rewrite foldl_app. specialize (H4' a Ha). unfold wanted. destruct (H6' a (foldl (build_step a) false ops4) Ha) as [Hon Hoff].
  destruct (Is4 a) eqn:E.
  - rewrite Hon by done. rewrite H4'. naive_solver.
  - assert (foldl (build_step a) false ops4 = false) as ->.
    { destruct (foldl (build_step a) false ops4); [|done]. by destruct (proj1 H4' eq_refl). }
    by apply Hoff.
Qed.
End Routes.

(** ** A library of address sets

    The laws can be met: halving the space of addresses until every network
    that was added or removed lies outside of a part or holds all of it. *)
Definition node_prefix (v : bool) (k : nat) (base : Z) : Prefix :=
  mkPrefix (mkAddr v (base * 2 ^ Z.of_nat k)) (BitLen v - Z.of_nat k).

Definition undecided (ops : list (bool * Prefix)) (v : bool) (k : nat) (base : Z) : bool :=
  existsb (fun op => Bool.eqb (Is4 (Address op.2)) v && (host_bits op.2 <? Z.of_nat k) &&
                     (num (Address op.2) / 2 ^ Z.of_nat k =? base)) ops.

Fixpoint halves (ops : list (bool * Prefix)) (v : bool) (k : nat) (base : Z) : list Prefix :=
  if undecided ops v k base
  then match k with O => [] | S k => halves ops v k (2 * base) ++ halves ops v k (2 * base + 1) end
  else if built ops (mkAddr v (base * 2 ^ Z.of_nat k)) then [node_prefix v k base] else [].

Definition halving : Netipx := mkNetipx
  (fun p => (Address (Masked p), mkAddr (Is4 (Address p)) (num (Address (Masked p)) + 2 ^ host_bits p - 1)))
  (fun ops => Ok (halves ops true 32 0 ++ halves ops false 128 0)).

Lemma decided_Contains op v k base a :
  valid_prefix op → Bool.eqb (Is4 (Address op)) v && (host_bits op <? Z.of_nat k) && (num (Address op) / 2 ^ Z.of_nat k =? base) = false →
  Is4 a = v → num a / 2 ^ Z.of_nat k = base → Contains op a = Contains op (mkAddr v (base * 2 ^ Z.of_nat k)).
Proof.
  intros Hp Hd Hv Hb. apply Bool.eq_iff_eq_true. rewrite !Contains_spec by done. cbn. rewrite Hv.
  pose proof (host_bits_range _ Hp) as Hh. pose proof (Z.pow_pos_nonneg 2 (Z.of_nat k) ltac:(lia) ltac:(lia)).
  destruct (decide (Is4 (Address op) = v)) as [E|]; [|naive_solver]. rewrite E, Bool.eqb_reflx in Hd. cbn in Hd.
  assert (Hup : ∀ x hb, 0 <= hb → hb <= Z.of_nat k → x / 2 ^ Z.of_nat k = x / 2 ^ hb / 2 ^ (Z.of_nat k - hb)).
  { intros x hb H0 H1. rewrite Z.div_div by (try apply Z.pow_nonzero; try apply Z.pow_pos_nonneg; lia). rewrite <-Z.pow_add_r by lia.
    do 2 f_equal. lia. }
  destruct (Z.ltb_spec (host_bits op) (Z.of_nat k)) as [Hlt|Hge].
  - cbn in Hd. apply Z.eqb_neq in Hd. split; intros [_ Hx]; exfalso; apply Hd.
    + rewrite (Hup _ (host_bits op)), <-Hx, <-Hup by lia. done.
    + rewrite (Hup _ (host_bits op)), <-Hx, <-Hup by lia. apply Z.div_mul. lia.
  - assert (Hdown : ∀ x, x / 2 ^ host_bits op = x / 2 ^ Z.of_nat k / 2 ^ (host_bits op - Z.of_nat k)).
    { intros x. rewrite Z.div_div by (try apply Z.pow_nonzero; try apply Z.pow_pos_nonneg; lia). rewrite <-Z.pow_add_r by lia.
      do 2 f_equal. lia. }
    rewrite (Hdown (num a)), (Hdown (base * _)), Hb, Z.div_mul by lia. done.
Qed.

Lemma decided_built ops v k base a :
  Forall (fun op => valid_prefix op.2) ops → undecided ops v k base = false →
  Is4 a = v → num a / 2 ^ Z.of_nat k = base → built ops a = built ops (mkAddr v (base * 2 ^ Z.of_nat k)).
Proof.
  intros Hops Hu Hv Hb. unfold built. generalize false. induction Hops as [|op ops Hp Hops IH]; intros inside; [done|].
  cbn in Hu. apply orb_false_iff in Hu as [Hd Hu]. cbn [foldl]. rewrite (decided_Contains op.2 v k base a) by done. by apply IH.
Qed.

Lemma node_Contains v k base a :
  Z.of_nat k <= BitLen v → 0 <= base < 2 ^ (BitLen v - Z.of_nat k) →
  Contains (node_prefix v k base) a = true ↔ v = Is4 a ∧ num a / 2 ^ Z.of_nat k = base.
Proof.
  intros Hk Hb. pose proof (Z.pow_pos_nonneg 2 (Z.of_nat k) ltac:(lia) ltac:(lia)).
  assert (Hw : 2 ^ BitLen v = 2 ^ (BitLen v - Z.of_nat k) * 2 ^ Z.of_nat k) by (rewrite <-Z.pow_add_r by lia; f_equal; lia).
  rewrite Contains_spec by (split; [unfold valid; cbn; nia|cbn; lia]). unfold host_bits. cbn.
  replace (BitLen v - (BitLen v - Z.of_nat k)) with (Z.of_nat k) by lia. by rewrite Z.div_mul by lia.
Qed.

Lemma halves_covers ops v k base :
  Forall (fun op => valid_prefix op.2) ops → Z.of_nat k <= BitLen v → 0 <= base < 2 ^ (BitLen v - Z.of_nat k) →
  ∀ a, covered (halves ops v k base) a ↔ v = Is4 a ∧ num a / 2 ^ Z.of_nat k = base ∧ built ops a = true.
Proof.
  intros Hops. revert base. induction k as [|k IH]; intros base Hk Hb a; cbn [halves]; destruct (undecided ops v _ base) eqn:Hu.
  1: { exfalso. apply existsb_exists in Hu as (op & Hin & Hu). apply list_elem_of_In in Hin. rewrite list.Forall_forall in Hops.
       pose proof (host_bits_range _ (Hops _ Hin)). apply andb_prop in Hu as [[_ ?%Z.ltb_lt]%andb_prop _]. lia. }
  2: { rewrite Nat2Z.inj_succ in *. assert (Hd : num a / 2 ^ Z.succ (Z.of_nat k) = num a / 2 ^ Z.of_nat k / 2).
       { rewrite Z.div_div by (try apply Z.pow_nonzero; lia). by rewrite Z.mul_comm, <-Z.pow_succ_r by lia. }
       assert (2 ^ (BitLen v - Z.of_nat k) = 2 * 2 ^ (BitLen v - Z.succ (Z.of_nat k))).
       { rewrite <-Z.pow_succ_r by lia. f_equal. lia. }
       assert (Hc : ∀ l1 l2, covered (l1 ++ l2) a ↔ covered l1 a ∨ covered l2 a).
       { intros. unfold covered. setoid_rewrite elem_of_app. naive_solver. }
       rewrite Hc, !IH, Hd by lia. pose proof (Z.div_mod (num a / 2 ^ Z.of_nat k) 2 ltac:(lia)).
       pose proof (Z.mod_pos_bound (num a / 2 ^ Z.of_nat k) 2 ltac:(lia)). split.
       - intros [(-> & E & ->)|(-> & E & ->)]; split_and!; try done; lia.
       - intros (-> & E & ->). destruct (Z.eq_dec ((num a / 2 ^ Z.of_nat k) mod 2) 0); [left|right]; split_and!; try done; lia. }
  all: assert (Hd : v = Is4 a → num a / 2 ^ Z.of_nat _ = base → built ops a = built ops (mkAddr v (base * 2 ^ Z.of_nat _)))
         by (intros; by apply decided_built).
  all: pose proof (node_Contains v _ base a Hk Hb) as Hn; unfold covered; setoid_rewrite list_elem_of_In;
    destruct (built ops (mkAddr v _)) eqn:E; cbn; naive_solver congruence.
Qed.

Lemma halving_laws : NetipxLaws halving.
Proof.
  split.
  - intros p Hp. pose proof (Masked_end p Hp). destruct (Masked_valid p Hp) as [Hm _]. pose proof (host_bits_range _ Hp) as Hk.
    pose proof (Z.pow_pos_nonneg 2 (host_bits p) ltac:(lia) Hk). unfold valid in Hm. cbn in Hm.
    repeat constructor; cbn in *; lia.
  - intros p a Hp Ha H4. rewrite Contains_range by done. cbn. split; [intros [_ ?]; lia|]. intros ?. split; [done|lia].
  - intros ops _. eexists. reflexivity.
  - intros ops ps Hops Hps a Ha. cbn [IPSetPrefixes halving] in Hps. apply Ok_inj in Hps as <-. unfold valid in Ha.
    assert (Hrange : ∀ v : bool, 0 <= 0 < 2 ^ (BitLen v - Z.of_nat (if v then 32 else 128))) by (by intros []).
    assert (Hc : ∀ l1 l2, covered (l1 ++ l2) a ↔ covered l1 a ∨ covered l2 a).
    { intros. unfold covered. setoid_rewrite elem_of_app. naive_solver. }
    rewrite Hc, (halves_covers ops true 32 0 Hops ltac:(done) (Hrange true)).
    rewrite (halves_covers ops false 128 0 Hops ltac:(done) (Hrange false)). destruct (Is4 a) eqn:E; cbn in Ha.
    + rewrite (Z.div_small (num a) (2 ^ Z.of_nat 32)) by done. naive_solver.
    + rewrite (Z.div_small (num a) (2 ^ Z.of_nat 128)) by done. naive_solver.
Qed.

Definition demo_routes : string :=
  "0.0.0.0/5, 8.0.0.0/7, 11.0.0.0/8, 12.0.0.0/6, 16.0.0.0/4, 32.0.0.0/3, 64.0.0.0/2, 128.0.0.0/2, 192.0.0.0/9, " +:+
  "192.128.0.0/11, 192.160.0.0/13, 192.169.0.0/16, 192.170.0.0/15, 192.172.0.0/14, 192.176.0.0/12, 192.192.0.0/10, " +:+
  "193.0.0.0/8, 194.0.0.0/7, 196.0.0.0/6, 200.0.0.0/5, 208.0.0.0/4, 224.0.0.0/3, 2000::/3".

Lemma demo_routes_text : Routes halving "exclude" "10.0.0.0/8, 192.168.0.0/16" "include" "2000::/3" = Ok demo_routes.
Proof. vm_compute. reflexivity. Qed.

Lemma Routes_exact_witness :
  ∃ ps, ps ≠ [] ∧ demo_routes = Join ", " (Prefix_String <$> ps) ∧
    ∀ a, valid a → covered ps a ↔ wanted "exclude" "10.0.0.0/8, 192.168.0.0/16" "include" "2000::/3" a.
Proof.
  exact (Routes_exact halving halving_laws "exclude" "10.0.0.0/8, 192.168.0.0/16" "include" "2000::/3" demo_routes demo_routes_text).
Defined.

(** ** Saved settings fit the clients *)
Section Saving.
Context (ToASCII : string → option string) (X : Netipx) (laws : NetipxLaws X).

(** The range of a network over IPv4 addresses is what its bits say. *)
Lemma range_ends p :
  valid_prefix p → Masked p = p →
  RangeOfPrefix X p = (Address p, mkAddr (Is4 (Address p)) (num (Address p) + 2 ^ host_bits p - 1)).
Proof.
  intros Hp Hm. pose proof (range_covers X laws p) as Hr. pose proof (range_valid X laws p Hp) as Hv.
  destruct (RangeOfPrefix X p) as [from to]. cbn in Hr, Hv. inversion Hv as [|? ? [Hf1 Hf2] Hv']; subst.
  inversion Hv' as [|? ? [Ht1 Ht2] _]; subst. clear Hv Hv'.
  pose proof (Z.pow_pos_nonneg 2 (host_bits p) ltac:(lia) (host_bits_range _ Hp)).
  assert (Hl1 : valid (mkAddr (Is4 (Address p)) (num (Address p) + 2 ^ host_bits p - 1))).
  { pose proof (Masked_end p Hp) as He. destruct Hp as [Ha _]. rewrite Hm in He. unfold valid in *. cbn in *. lia. }
  assert (Hin : ∀ a, valid a → Is4 a = Is4 (Address p) →
    num (Address p) <= num a < num (Address p) + 2 ^ host_bits p ↔ num from <= num a <= num to).
  { intros a Ha H4. rewrite <-(Hr a Hp Ha H4), Contains_range by done. rewrite Hm. naive_solver. }
  pose proof (Hin (Address p) (proj1 Hp) eq_refl) as Ha.
  pose proof (Hin _ Hl1 eq_refl) as Hl. pose proof (Hin from Hf1 Hf2) as Hf. pose proof (Hin to Ht1 Ht2) as Ht. cbn in *.
  destruct from as [f4 fn], to as [t4 tn], p as [[p4 pn] pb]. cbn in *. subst. f_equal; f_equal; lia.
Qed.

(** What [Prepare] has checked and set. *)
Record prepared (config c : AmneziaWGNodeConfig) (server : Addr) (net : Prefix) : Prop := {
  pr_server : ParseAddr (awg_ServerIPv4 c) = Some server;
  pr_network : ParsePrefix (awg_ClientIPv4CIDR c) = Some net;
  pr_masked : Masked net = net;
  pr_valid : valid_prefix net;
  pr_ipv4 : Is4 (Address net) = true;
  pr_bits : 16 <= Bits net <= 30;
  pr_inside : Is4 server = true ∧ num (Address net) < num server < num (Address net) + 2 ^ host_bits net - 1;
  pr_first : ParseAddr (awg_FirstClientIPv4 c) = Some (mkAddr true (num (Address net) + 1));
  pr_last : ParseAddr (awg_LastClientIPv4 c) = Some (mkAddr true (num (Address net) + 2 ^ host_bits net - 2));
  pr_node : awg_NodeID c = awg_NodeID config;
  pr_text : awg_ClientIPv4CIDR c = Prefix_String net;
  pr_port : awg_ListenPort c = awg_EndpointPort c;
  pr_checked : NativeAwg.ValidateNodeConfig ToASCII c = Ok tt;
}.

Lemma Prepare_spec config c : Prepare ToASCII X config = inl c → ∃ server net, prepared config c server net.
Proof.
  unfold Prepare. destruct (ParseAddr (awg_ServerIPv4 config)) as [[[] n]|] eqn:Hs; try done.
  destruct (ParsePrefix (awg_ClientIPv4CIDR config)) as [p|] eqn:Hp; [|done].
  destruct (_ || _ || _ || _) eqn:Hc; [done|]. rewrite !orb_false_iff, !negb_false_iff in Hc. destruct Hc as [[[H4 Hlo] Hhi] Hin].
  apply Z.ltb_ge in Hlo, Hhi. apply ParsePrefix_valid in Hp as Hv. apply ParseAddr_valid in Hs as Hsv.
  pose proof (Masked_valid p Hv) as Hmv. pose proof (Masked_idemp p Hv) as Hmi. rewrite <-Masked_Contains in Hin by done.
  apply Contains_range in Hin as [_ Hin]; [|done]. rewrite Hmi in Hin.
  assert (H4' : Is4 (Address (Masked p)) = true) by done. assert (Hb : Bits (Masked p) = Bits p) by done.
  set (net := Masked p) in *. clearbody net. rewrite range_ends by done. rewrite H4'.
  destruct (bool_decide (_ = Address net)) eqn:Hf; [done|]. destruct (bool_decide (_ = mkAddr _ _)) eqn:Ht; [done|].
  apply bool_decide_eq_false in Hf, Ht. cbn [orb]. destruct (_ <? 68); [done|].
  destruct (NativeAwg.ValidateNodeConfig _ _) as [[]|] eqn:Hv'; [|done]. intros [= <-].
  assert (Hk : 2 ^ 2 <= 2 ^ host_bits net) by (apply Z.pow_le_mono_r; [lia|unfold host_bits; rewrite H4'; cbn; lia]).
  pose proof Hmv as [Hav Hbv].
  assert (Hend : num (Address net) + 2 ^ host_bits net <= 2 ^ 32).
  { pose proof (Masked_end net (conj Hav Hbv)) as He. by rewrite Hmi, H4' in He. }
  cbn in Hin. unfold valid in Hav, Hsv. rewrite H4' in Hav. cbn in Hav, Hsv.
  assert (num (Address net) ≠ n). { intros <-. apply Hf. destruct (Address net). cbn in *. by subst. }
  assert (n ≠ num (Address net) + 2 ^ host_bits net - 1) by (intros ->; done).
  exists (mkAddr true n), net. split; [..|exact Hv']; cbn [awg_ServerIPv4 awg_ClientIPv4CIDR awg_FirstClientIPv4 awg_LastClientIPv4 set_pool awg_NodeID]; try done.
  - by apply ParsePrefix_String.
  - lia.
  - split; [done|]. cbn. lia.
  - unfold Next. rewrite H4'. cbn [BitLen]. destruct (Z.eqb_spec (num (Address net) + 1) (2 ^ 32)); [lia|].
    apply ParseAddr_String; [done|]. unfold valid. cbn. lia.
  - unfold Prev. cbn [num Is4]. destruct (Z.eqb_spec (num (Address net) + 2 ^ host_bits net - 1) 0); [lia|].
    replace (num (Address net) + 2 ^ host_bits net - 1 - 1) with (num (Address net) + 2 ^ host_bits net - 2) by lia.
    apply ParseAddr_String; [done|]. unfold valid. cbn. lia.
Qed.

(** Rewriting the texts of issued configurations, at most one text per
    connection. *)
Definition touches (kind : string) (r c : IssuedConfig) : Prop :=
  ic_ConnectionID r = ic_ConnectionID c ∧ ic_Kind r = kind ∧ ic_Status r ≠ StatusDeleted.

Lemma reissue_lookup kind now t c k :
  (∃ r, t !! k = Some r ∧ touches kind r c ∧ reissue kind now t c !! k = Some (set_config_text (ic_Config c) now r)) ∨
  ((∀ r, t !! k = Some r → ¬ touches kind r c) ∧ reissue kind now t c !! k = t !! k).
Proof.
  unfold reissue. rewrite lookup_sql_update. destruct (t !! k) as [r|] eqn:E; cbn; [|by right].
  destruct (_ && _) eqn:Ht.
  - left. exists r. rewrite !andb_true_iff, negb_true_iff, !bool_decide_eq_true, bool_decide_eq_false in Ht.
    unfold touches. naive_solver.
  - right. split; [|done]. intros r' [= <-] (H1 & H2 & H3).
    by rewrite (bool_decide_eq_true_2 _ H1), (bool_decide_eq_true_2 _ H2), (bool_decide_eq_false_2 _ H3) in Ht.
Qed.

Lemma reissue_foldl kind now cs t k r :
  NoDup (ic_ConnectionID <$> cs) → foldl (reissue kind now) t cs !! k = Some r →
  ∃ r0, t !! k = Some r0 ∧ ic_ConnectionID r = ic_ConnectionID r0 ∧ ic_Kind r = ic_Kind r0 ∧ ic_Status r = ic_Status r0 ∧
    (∀ c, c ∈ cs → touches kind r0 c → ic_Config r = ic_Config c) ∧ ((∀ c, c ∈ cs → ¬ touches kind r0 c) → r = r0).
Proof.
  revert t. induction cs as [|c cs IH]; intros t Hnd Hr; cbn in Hr.
  { exists r. split_and!; try done. intros c []%elem_of_nil. }
  apply list.NoDup_cons in Hnd as [Hnot Hnd]. destruct (IH _ Hnd Hr) as (r1 & Hr1 & E1 & E2 & E3 & Hin & Hout).
  destruct (reissue_lookup kind now t c k) as [(r0 & H0 & Ht & Hl)|[Hn Hl]]; rewrite Hl in Hr1.
  - injection Hr1 as <-. exists r0. cbn in *.
    assert (Hno : ∀ c', c' ∈ cs → ¬ touches kind r0 c').
    { intros c' Hc' (Hx & _). apply Hnot. destruct Ht as (<- & _). rewrite Hx. by apply list_elem_of_fmap_2. }
    split_and!; try done.
    + intros c' [->|Hc']%elem_of_cons Ht'; [|by destruct (Hno c' Hc')]. rewrite (Hout Hno). done.
    + intros H. by destruct (H c (list_elem_of_here _ _)).
  - exists r1. split_and!; try done.
    + intros c' [->|Hc']%elem_of_cons Ht'; [by destruct (Hn _ Hr1)|by apply Hin].
    + intros H. apply Hout. intros c' Hc'. apply H. by right.
Qed.

Lemma reissue_all_Forall2 f ms cs : reissue_all f ms = inl cs → Forall2 (fun m c => f m = inl c) ms cs.
Proof.
  revert cs. induction ms as [|m ms IH]; intros cs; cbn; [by intros [= <-]|].
  destruct (f m) as [c|] eqn:E; [|done]. destruct (reissue_all f ms) as [cs'|]; [|done]. intros [= <-]. constructor; auto.
Qed.

(** Rows of materials are found under the connection they belong to. *)
Definition materials_keyed (s : Server) : Prop := ∀ id m, amneziawg_materials s !! id = Some m → am_ConnectionID m = id.

Lemma NoDup_materials nodeID s :
  materials_keyed s → NoDup (am_ConnectionID <$> ListAmneziaWGConnectionMaterials nodeID s).
Proof.
  intros Hk. unfold ListAmneziaWGConnectionMaterials, order_by.
  rewrite merge_sort_Permutation. unfold sql_select.
  enough (H : NoDup (am_ConnectionID <$> (map_to_list (amneziawg_materials s)).*2)).
  { eapply sublist_NoDup; [exact H|]. apply fmap_sublist, sublist_filter. }
  assert (E : am_ConnectionID <$> (map_to_list (amneziawg_materials s)).*2 = (map_to_list (amneziawg_materials s)).*1).
  { rewrite <-list_fmap_compose. apply list_fmap_ext. intros i [k m] Hi. cbn.
    apply Hk. apply elem_of_map_to_list. by eapply list_elem_of_lookup_2. }
  rewrite E. apply NoDup_fst_map_to_list.
Qed.

(** What has become of the clients of a node under settings [c] whose address
    pool runs from [first] to [last]. *)
Record clients_fit (c : AmneziaWGNodeConfig) (server : Addr) (first last : Z) (s : Server) (m : AmneziaWGConnectionMaterial) : Prop := {
  fit_address : ∃ a, ParseAddr (am_AssignedIPv4 m) = Some a ∧ Is4 a = true ∧ a ≠ server ∧ first <= num a <= last;
  fit_config : ∃ conf, NativeAwg.RenderClientConf ToASCII c m = Ok conf ∧
    ∀ k r, issued_configs s !! k = Some r → ic_ConnectionID r = am_ConnectionID m → ic_Kind r = ConfigAmneziaConf →
      ic_Status r ≠ StatusDeleted → ic_Config r = conf;
}.

Lemma reissue_one_spec config c server net from to m i :
  prepared config c server net → RangeOfPrefix X net = (from, to) →
  reissue_one ToASCII c (Some server) net from to m = inl i →
  ic_ConnectionID i = am_ConnectionID m ∧ NativeAwg.RenderClientConf ToASCII c m = Ok (ic_Config i) ∧
  ∃ a, ParseAddr (am_AssignedIPv4 m) = Some a ∧ Is4 a = true ∧ a ≠ server ∧
    num (Address net) + 1 <= num a <= num (Address net) + 2 ^ host_bits net - 2.
Proof.
  intros [] Hr. rewrite range_ends in Hr by done. injection Hr as <- <-. unfold reissue_one.
  destruct (ParseAddr (am_AssignedIPv4 m)) as [a|]; [|done]. destruct (_ || _ || _ || _) eqn:E; [done|].
  rewrite !orb_false_iff, negb_false_iff, !bool_decide_eq_false in E. destruct E as [[[Hin Hs] Hf] Ht].
  destruct (NativeAwg.RenderClientConf ToASCII c m) as [conf|]; [|done]. intros [= <-]. cbn.
  apply Contains_range in Hin as [H4 Hin]; [|done]. rewrite pr_masked0 in Hin. rewrite pr_ipv5 in *.
  split_and!; [done|done|]. exists a. split_and!; [done|done|congruence|..].
  - assert (num a ≠ num (Address net)); [|lia]. intros E. apply Hf. destruct a, (Address net). cbn in *. congruence.
  - assert (num a ≠ num (Address net) + 2 ^ host_bits net - 1); [|lia]. intros E. apply Ht. destruct a. cbn in *. congruence.
Qed.

Lemma UpdateAmneziaWGNodeConfig_Ok v expected configs s s' u :
  UpdateAmneziaWGNodeConfig v expected configs s = (s', Ok u) →
  ∃ old, amneziawg_node_configs s !! awg_NodeID v = Some old ∧ awg_ConfigVersionMS old = expected ∧
    amneziawg_node_configs s' = <[awg_NodeID v := replace_amneziawg v old]> (amneziawg_node_configs s) ∧
    amneziawg_materials s' = amneziawg_materials s ∧
    issued_configs s' = foldl (reissue ConfigAmneziaConf (awg_UpdatedAt v)) (issued_configs s) configs ∧
    connections s' = sql_update (fun c => bool_decide (cn_NodeID c = awg_NodeID v) && live c)
      (set_version (awg_ConfigVersionMS v) (awg_UpdatedAt v)) (connections s).
Proof.
  unfold UpdateAmneziaWGNodeConfig. rewrite transaction_Ok. destruct (amneziawg_node_configs s !! awg_NodeID v) as [old|]; [|done].
  destruct (Z.eqb_spec (awg_ConfigVersionMS old) expected) as [E|]; [|done]. cbn [negb].
  destruct (negb (amneziawg_check _)); [done|]. destruct (negb (bool_decide _)); [done|]. intros [= <-]. by exists old.
Qed.

(** A save leaves the store as it is unless it succeeds. *)
Lemma Save_refused clock config expected s s' e : Save ToASCII X clock config expected s = (s', inr e) → s' = s.
Proof.
  unfold Save. destruct (Prepare _ _ _); [|by intros [= <- _]]. destruct (RangeOfPrefix _ _) as [from to].
  destruct (reissue_all _ _); [|by intros [= <- _]].
  destruct (UpdateAmneziaWGNodeConfig _ _ _ _) as [s1 [|]] eqn:E; [done|].
  unfold UpdateAmneziaWGNodeConfig in E. apply transaction_Err in E as [-> _]. by intros [= <- _].
Qed.

(** A save that succeeds was based on the version it replaces. *)
Lemma Save_based clock config expected s s' c :
  Save ToASCII X clock config expected s = (s', inl c) →
  ∃ old, amneziawg_node_configs s !! awg_NodeID config = Some old ∧ awg_ConfigVersionMS old = expected.
Proof.
  unfold Save. destruct (Prepare ToASCII X config) as [c0|] eqn:Hp; [|done].
  apply Prepare_spec in Hp as (server & net & []). destruct (RangeOfPrefix _ _) as [from to].
  destruct (reissue_all _ _); [|done]. destruct (UpdateAmneziaWGNodeConfig _ _ _ _) as [s1 [|]] eqn:E; [|done]. intros _.
  apply UpdateAmneziaWGNodeConfig_Ok in E as (old & Hold & Hver & _). exists old. by rewrite <-pr_node0.
Qed.

(** C40. Settings of a node that were saved fit its clients: the address of every
    client lies in the pool the new network gives and is not the server's; the
    configuration issued to each of them is the one rendered from the new
    settings; every live connection has a new version, so that the agent will
    fetch it; the settings were based on the version they replace and carry a
    later one, so that a second save based on that version is refused. *)
Theorem settings_saved clock config expected s s' c :
  materials_keyed s → Save ToASCII X clock config expected s = (s', inl c) →
  (∃ old, amneziawg_node_configs s !! awg_NodeID config = Some old ∧ awg_ConfigVersionMS old = expected ∧
     expected < awg_ConfigVersionMS c ∧ amneziawg_node_configs s' !! awg_NodeID config = Some (replace_amneziawg c old)) ∧
  (∃ server first last, ParseAddr (awg_ServerIPv4 c) = Some server ∧
     ParseAddr (awg_FirstClientIPv4 c) = Some (mkAddr true first) ∧ ParseAddr (awg_LastClientIPv4 c) = Some (mkAddr true last) ∧
     ∀ id m, amneziawg_materials s' !! id = Some m → am_NodeID m = awg_NodeID config → clients_fit c server first last s' m) ∧
  (∀ id n, connections s !! id = Some n → cn_NodeID n = awg_NodeID config → live n = true →
     ∃ n', connections s' !! id = Some n' ∧ cn_DesiredVersionMS n < cn_DesiredVersionMS n' ∧
       awg_ConfigVersionMS c <= cn_DesiredVersionMS n') ∧
  (∀ clock' config', awg_NodeID config' = awg_NodeID config →
     ∃ e, Save ToASCII X clock' config' expected s' = (s', inr e)).
Proof.
  intros Hkeyed. unfold Save at 1. destruct (Prepare ToASCII X config) as [c0|] eqn:Hp; [|done].
  apply Prepare_spec in Hp as (server & net & Hpr). pose proof Hpr as [].
  rewrite pr_server0, pr_network0. cbn [default from_option id].
  destruct (RangeOfPrefix X net) as [from to] eqn:Hrange. rewrite pr_node0.
  destruct (reissue_all _ _) as [issued|] eqn:Hi; [|done]. apply reissue_all_Forall2 in Hi.
  set (c1 := stamp_settings _ _ c0). destruct (UpdateAmneziaWGNodeConfig c1 expected issued s) as [s1 [|]] eqn:Hu; [|done].
  intros [= <- <-]. apply UpdateAmneziaWGNodeConfig_Ok in Hu as (old & Hold & Hver & Hcfg & Hmat & Hiss & Hconn).
  change (awg_NodeID c1) with (awg_NodeID c0) in *. rewrite pr_node0 in *.
  assert (Hnew : expected < awg_ConfigVersionMS c1) by (cbn; lia).
  assert (Hrow : amneziawg_node_configs s1 !! awg_NodeID config = Some (replace_amneziawg c1 old))
    by (rewrite Hcfg; apply lookup_insert_eq).
  split_and!.
  - by exists old.
  - exists server, (num (Address net) + 1), (num (Address net) + 2 ^ host_bits net - 2). split_and!; [done..|].
    intros id m Hm Hnode. rewrite Hmat in Hm.
    assert (Hin : m ∈ ListAmneziaWGConnectionMaterials (awg_NodeID config) s).
    { unfold ListAmneziaWGConnectionMaterials. rewrite elem_of_order_by, elem_of_sql_select.
      split; [by apply bool_decide_eq_true|by exists id]. }
    pose proof (NoDup_materials (awg_NodeID config) s Hkeyed) as Hnd.
    assert (Hids : ic_ConnectionID <$> issued = am_ConnectionID <$> ListAmneziaWGConnectionMaterials (awg_NodeID config) s).
    { clear -Hi Hpr Hrange laws. induction Hi as [|m i ms cfgs Hmi _ IH]; [done|]. cbn.
      apply (reissue_one_spec config c0 server net) in Hmi as [-> _]; [|done..]. by f_equal. }
    rewrite <-Hids in Hnd. apply list_elem_of_lookup_1 in Hin as [j Hj].
    destruct (Forall2_lookup_l _ _ _ _ _ Hi Hj) as (i & Hij & Hmi).
    apply (reissue_one_spec config c0 server net) in Hmi as (Hc1 & Hc2 & Ha); [|done..]. split; [done|].
    exists (ic_Config i). split; [exact Hc2|]. intros k r Hr H1 H2 H3. rewrite Hiss in Hr.
    apply reissue_foldl in Hr as (r0 & _ & E1 & E2 & E3 & Ht & _); [|done]. apply Ht; [by eapply list_elem_of_lookup_2|].
    unfold touches. rewrite <-E1, <-E2, <-E3. split_and!; [congruence|done|done].
  - intros id n Hn Hnode Hlive. rewrite Hconn, lookup_sql_update, Hn. cbn [fmap option_fmap option_map].
    rewrite (bool_decide_eq_true_2 _ Hnode), Hlive. eexists. split; [done|]. cbn.
    split; [apply bump_version_gt|apply bump_version_ge].
  - intros clock' config' Hid. destruct (Save ToASCII X clock' config' expected s1) as [s2 [c2|e]] eqn:Hs; cycle 1.
    { apply Save_refused in Hs as ->. by exists e. }
    exfalso. apply Save_based in Hs as (old' & Hold' & Hver'). rewrite Hid, Hrow in Hold'. injection Hold' as <-. cbn in Hver'. lia.
Qed.
End Saving.

(** Materials stay under their connection whatever reaches the database. *)
Lemma exec_op_materials op s : materials_keyed s → materials_keyed (exec_op op s).
Proof.
  intros Hk. destruct (adds_or_revives op) eqn:E.
  2: { destruct (exec_op_narrower op s E) as [[] _]. unfold materials_keyed. by rewrite ex_amneziawg. }
  destruct op; try discriminate E; cbn [exec_op].
  - destruct (CreateConnectionBundle now newID b s) as [s' [b'|e]] eqn:Eb; cbn.
    + apply CreateConnectionBundle_Ok in Eb as (_ & [] & _). unfold materials_keyed. rewrite ba_amneziawg.
      destruct (cb_AmneziaWGMaterial b); [|done]. intros id m [[<- <-]|[_ Hm]]%lookup_insert_Some; [done|by apply Hk].
    + unfold CreateConnectionBundle in Eb. by apply transaction_Err in Eb as [-> _].
  - destruct (UpdateConnectionDesiredStatus_cases now id status s) as [(c & Hc & _ & Hfree & ->)|[e ->]]; done.
Qed.

Lemma exec_ops_materials ops : materials_keyed (exec_ops ops empty_server).
Proof.
  assert (H : ∀ ops s, materials_keyed s → materials_keyed (exec_ops ops s)).
  { clear. unfold exec_ops. induction ops as [|op ops IH]; intros s Hs; [done|]. by apply IH, exec_op_materials. }
  by apply H.
Qed.

(** ** A sample *)
Definition demo_peer : AmneziaWGConnectionMaterial := mkAmneziaWGMaterial "" "awg" "Y2xpZW50" "a2V5" "cHNr" "10.8.1.2" 0 0.
Definition demo_awg_ops : list store_op :=
  [OpCreateAccount (at_ms 1000) "acc" demo_account;
   OpCreateNativeAmneziaWGNode (at_ms 1001) "awg" (mkNode "" "ams-1" NodeTypeNativeAmneziaWG "NL" "" 0 0)
     (NativeAwg.demo_config EmptyString);
   OpCreateConnectionBundle (at_ms 1002) (fun i => "z" +:+ Strconv.FormatInt (Z.of_nat i))
     (mkConnectionBundle 0 (mkConnection "con-z" "acc" "awg" "phone" ProtocolAmneziaWG "" "" 0 0 "" 0 0) None
        (Some demo_peer) None [mkIssuedConfig "" "" ConfigAmneziaConf "" "phone" "" "" "[Interface]" "" 0 0])].
Definition demo_awg : Server := exec_ops demo_awg_ops empty_server.

Example demo_awg_connected : am_AssignedIPv4 <$> ListAmneziaWGConnectionMaterials "awg" demo_awg = ["10.8.1.2"].
Proof. vm_compute. reflexivity. Qed.

(** The network grows, the server keeps its address. *)
Definition demo_new_settings : AmneziaWGNodeConfig :=
  match amneziawg_node_configs demo_awg !! "awg" with
  | Some c => set_pool "" "" "10.8.0.0/22" c
  | None => NativeAwg.demo_config EmptyString
  end.
Definition demo_save : Server * (AmneziaWGNodeConfig + settings_error) :=
  Save Some halving (fun _ => at_ms 2000) demo_new_settings 1 demo_awg.
Definition demo_saved : AmneziaWGNodeConfig := match demo_save.2 with inl c => c | inr _ => demo_new_settings end.

Lemma demo_save_Ok : demo_save = (demo_save.1, inl demo_saved).
Proof.
  unfold demo_saved. assert (H : match demo_save.2 with inl _ => true | inr _ => false end = true) by (vm_compute; reflexivity).
  destruct demo_save as [s [c|e]]; [reflexivity|discriminate H].
Qed.

Example demo_saved_pool :
  (awg_FirstClientIPv4 demo_saved, awg_LastClientIPv4 demo_saved, awg_ConfigVersionMS demo_saved) = ("10.8.0.1", "10.8.3.254", 2000).
Proof. vm_compute. reflexivity. Qed.

Lemma settings_saved_witness :
  (∃ old, amneziawg_node_configs demo_awg !! awg_NodeID demo_new_settings = Some old ∧ awg_ConfigVersionMS old = 1 ∧
     1 < awg_ConfigVersionMS demo_saved ∧
     amneziawg_node_configs demo_save.1 !! awg_NodeID demo_new_settings = Some (replace_amneziawg demo_saved old)) ∧
  (∀ clock' config', awg_NodeID config' = awg_NodeID demo_new_settings →
     ∃ e, Save Some halving clock' config' 1 demo_save.1 = (demo_save.1, inr e)).
Proof.
  destruct (settings_saved Some halving halving_laws (fun _ => at_ms 2000) demo_new_settings 1 demo_awg demo_save.1 demo_saved
    (exec_ops_materials demo_awg_ops) demo_save_Ok) as (H1 & _ & _ & H4). by split.
Defined.
