(* ===== verification/AwgAgent.v ===== *)
(** * AwgAgent: what an AmneziaWG agent does with the messages it receives

    [src/internal/legacy/agent/amneziawg/reconcile/reconciler.go]: turning the
    settings and credentials of the control plane into calls of the WireGuard
    tools.  [src/internal/agent/common/grpcclient.go]: how a message is
    handled, its result recorded and the reply repeated when the same message
    comes again, together with the clean-up of the queue by the heartbeats of
    [src/internal/agent/common/processor.go], which forgets results.
    [src/internal/legacy/agent/amneziawg/runtime/runtime.go]: the commands an
    administrator sends.

    The tools are the interface [Tools] of the source, a record of effectful
    functions on a world [W].  [proto.Marshal] and [proto.Unmarshal] are the
    class [Proto]. *)

From S2P Require Import Prelude GoLib GoText GoNet AwgConfig Sql Queue ServerModel ServerStore SyncProtocol ServerManifest.
From Stdlib Require Import Ascii.
Import GoStrings GoTime Net.
Local Open Scope Z_scope.

(** ** Messages *)

(** [amneziaproto.ServerConfig]; the numbers are [uint32]. *)
Record ServerConfig := mkServerConfig {
  sv_Jc : Z; sv_Jmin : Z; sv_Jmax : Z; sv_S1 : Z; sv_S2 : Z; sv_S3 : Z; sv_S4 : Z;
  sv_H1 : string; sv_H2 : string; sv_H3 : string; sv_H4 : string;
  sv_I1 : string; sv_I2 : string; sv_I3 : string; sv_I4 : string; sv_I5 : string;
  sv_ServerPrivateKey : string;
  sv_ServerIpv4 : string;
  sv_ClientIpv4Cidr : string;
  sv_ListenPort : Z;
  sv_HeaderProtectionKey : string;
  sv_ContentPaddingAddition : string;
  sv_Timings : gmap string string;
  sv_RandomTrailers : bool;
  sv_DisableCookies : bool;
}.

(** A revision is a [uint64]. *)
Record EditServerConfig := mkEditServerConfig {
  ec_NodeId : string;
  ec_Revision : Z;
  ec_ServerConfig : option ServerConfig;
}.

Record ServerConfigApplyResult := mkApplyResult {
  ar_NodeId : string;
  ar_DesiredRevision : Z;
  ar_AppliedRevision : Z;
  ar_CorrelationId : string;
  ar_Status : string;
  ar_Error : string;
}.

Record AuthRefresh := mkAuthRefresh {
  af_NodeId : string;
  af_AccountId : string;
  af_ManifestStartedAt : Z;
  af_SnapshotVersionMs : Z;
}.

Record AuthRefreshResult := mkAuthRefreshResult {
  fr_NodeId : string;
  fr_AccountId : string;
  fr_Status : string;
  fr_Message : string;
  fr_Error : string;
  fr_AppliedSnapshotVersionMs : Z;
}.

Record RuntimeCommand := mkRuntimeCommand {
  co_Id : string;
  co_Type : string;
  co_IssuedMs : Z;
  co_ExpiresMs : Z;
}.

Record RuntimeCommandResult := mkRuntimeCommandResult {
  cr_CommandId : string;
  cr_Status : string;
  cr_Message : string;
  cr_Error : string;
}.

(** The parts of [ServerMessage] and [AgentMessage] that requests and their
    replies use; a part that is not set is nil. *)
Record ServerMessage := mkServerMessage {
  sg_Type : string;
  sg_RequestId : string;
  sg_AuthRefresh : option AuthRefresh;
  sg_EditServerConfig : option EditServerConfig;
  sg_RuntimeCommand : option RuntimeCommand;
}.

Record AgentMessage := mkAgentMessage {
  ag_Type : string;
  ag_RequestId : string;
  ag_AuthRefreshResult : option AuthRefreshResult;
  ag_ServerConfigApplyResult : option ServerConfigApplyResult;
  ag_RuntimeCommandResult : option RuntimeCommandResult;
}.

#[export] Instance ServerConfig_eq_dec : EqDecision ServerConfig.
Proof. solve_decision. Defined.
#[export] Instance EditServerConfig_eq_dec : EqDecision EditServerConfig.
Proof. solve_decision. Defined.

(** A wire format: what was marshalled is read back. *)
Class Proto (M : Type) := {
  Marshal : M → result string;
  Unmarshal : string → result M;
  Unmarshal_Marshal : ∀ m raw, Marshal m = Ok raw → Unmarshal raw = Ok m;
}.

(** ** The tools of the data plane *)
Record PeerOptions := mkPeerOptions {
  po_AllowedIPs : list string;
  po_Endpoint : string;
  po_PersistentKeepalive : Z;
  po_PresharedKey : string;
}.

Record InterfaceConfig := mkInterfaceConfig {
  if_Timings : gmap string string;
  if_RandomTrailers : bool;
  if_DisableCookies : bool;
  if_PrivateKey : string;
  if_HeaderProtectionKey : string;
  if_ContentPaddingAddition : string;
  if_Address : string;
  if_ListenPort : Z;
  if_JC : Z; if_JMin : Z; if_JMax : Z; if_S1 : Z; if_S2 : Z; if_S3 : Z; if_S4 : Z;
  if_H1 : string; if_H2 : string; if_H3 : string; if_H4 : string;
  if_I1 : string; if_I2 : string; if_I3 : string; if_I4 : string; if_I5 : string;
}.

(** [ShowDump] as far as the reconciler reads it: the keys of the peers.
    [SetPeerAllowedIPs], which the reconciler never calls, is left out. *)
Record Tools (W : Type) := mkTools {
  tl_ShowDump : goM W (list string);
  tl_SetPeer : string → PeerOptions → goM W unit;
  tl_RemovePeer : string → goM W unit;
  tl_SetInterfaceConfig : InterfaceConfig → goM W unit;
}.
Arguments mkTools {W} _ _ _ _.
Arguments tl_ShowDump {W} _.
Arguments tl_SetPeer {W} _ _ _.
Arguments tl_RemovePeer {W} _ _.
Arguments tl_SetInterfaceConfig {W} _ _.

(** ** Error texts *)

(** The class [[A-Za-z0-9+/]]. *)
Definition base64ish (c : ascii) : bool :=
  let n := nat_of_ascii c in
  ((65 <=? n)%nat && (n <=? 90)%nat) || ((97 <=? n)%nat && (n <=? 122)%nat) || ((48 <=? n)%nat && (n <=? 57)%nat) ||
  (n =? 43)%nat || (n =? 47)%nat.

Definition flush (run : string) : string := if (20 <=? String.length run)%nat then "[redacted]" else run.

(** [base64ishSecret.ReplaceAllString]: [run] is the run of such characters
    before [s], [eat] the number of [=] that still belong to a match. *)
Fixpoint redact (s run : string) (eat : nat) : string :=
  match s with
  | EmptyString => flush run
  | String c r =>
      if base64ish c then redact r (run +:+ String c EmptyString) 0
      else if bool_decide (c = "="%char) && (20 <=? String.length run)%nat then "[redacted]" +:+ redact r EmptyString 1
      else if bool_decide (c = "="%char) && bool_decide (run = EmptyString) && (0 <? eat)%nat then redact r EmptyString (pred eat)
      else flush run +:+ String c (redact r EmptyString 0)
  end.

Definition sanitize (msg : string) : string := Text.replace_byte (ascii_of_nat 10) " " (redact msg EmptyString 0).

Example sanitize_samples :
  sanitize "key abcdefghijklmnopqrstuvwxyz0123456789+/abcde== rejected" = "key [redacted] rejected" ∧
  sanitize "abcdefghijklmnopqrstu===x" = "[redacted]=x" ∧ sanitize "awg: no such device" = "awg: no such device".
Proof. vm_compute. done. Qed.

(** No twenty such characters follow each other, [n] of them before [s]. *)
Fixpoint short_runs (n : nat) (s : string) : bool :=
  (n <? 20)%nat &&
  match s with EmptyString => true | String c r => short_runs (if base64ish c then S n else 0%nat) r end.

Lemma short_runs_bound n s : short_runs n s = true → (n < 20)%nat.
Proof. destruct s; cbn [short_runs]; intros [H _]%andb_true_iff; by apply Nat.ltb_lt. Qed.

Lemma short_runs_append n r s :
  AwgConfig.all_bytes base64ish r = true → short_runs (n + String.length r) s = true → short_runs n (r +:+ s) = true.
Proof.
  revert n. induction r as [|c r IH]; intros n Hr Hs; [by rewrite Nat.add_0_r in Hs|].
  cbn in Hr. apply andb_true_iff in Hr as [Hc Hr]. rewrite string_app_cons. cbn [short_runs]. rewrite Hc.
  assert (H : short_runs (S n) (r +:+ s) = true) by (apply IH; [done|]; cbn in Hs; by rewrite Nat.add_succ_r in Hs).
  rewrite H, andb_true_r. apply short_runs_bound in H. apply Nat.ltb_lt. lia.
Qed.

Lemma short_runs_marker s : short_runs 0 s = true → short_runs 0 ("[redacted]" +:+ s) = true.
Proof. intros H. exact H. Qed.

Lemma short_runs_flush run s :
  AwgConfig.all_bytes base64ish run = true →
  match s with EmptyString => True | String c r => base64ish c = false ∧ short_runs 0 r = true end → short_runs 0 (flush run +:+ s) = true.
Proof.
  intros Hr Hs. assert (H0 : ∀ n, (n < 20)%nat → short_runs n s = true).
  { intros n Hn. destruct s as [|c r]; cbn [short_runs]; apply Nat.ltb_lt in Hn; rewrite Hn; [done|]. destruct Hs as [-> ->]. done. }
  unfold flush. destruct (20 <=? String.length run)%nat eqn:E; [apply short_runs_marker, H0; lia|].
  apply Nat.leb_gt in E. apply short_runs_append; [done|]. by apply H0.
Qed.

Lemma redact_short s run eat : AwgConfig.all_bytes base64ish run = true → short_runs 0 (redact s run eat) = true.
Proof.
  revert run eat. induction s as [|c s IH]; intros run eat Hrun; cbn [redact].
  { rewrite <-(str_append_nil_r (flush run)). by apply short_runs_flush. }
  destruct (base64ish c) eqn:Hc.
  { apply IH. clear -Hrun Hc. induction run as [|d run IHr]; [cbn [AwgConfig.all_bytes String.append]; by rewrite string_app_nil; cbn; rewrite Hc|].
    rewrite string_app_cons. cbn [AwgConfig.all_bytes] in *. apply andb_true_iff in Hrun as [-> ?]. by apply IHr. }
  destruct (_ && (20 <=? _)%nat); [by apply short_runs_marker, IH|].
  destruct (_ && _ && _); [by apply IH|]. apply short_runs_flush; [done|]. split; [done|by apply IH].
Qed.

Lemma replace_newline_short n s : short_runs n s = true → short_runs n (Text.replace_byte (ascii_of_nat 10) " " s) = true.
Proof.
  revert n. induction s as [|c s IH]; intros n; cbn [Text.replace_byte short_runs]; [done|]. intros [Hn H]%andb_true_iff.
  case_bool_decide as Hc; rewrite string_app_cons, string_app_nil; cbn [short_runs]; rewrite Hn; cbn [andb].
  - subst c. apply IH. exact H.
  - by apply IH.
Qed.

Lemma short_runs_prefix n s p : AwgConfig.all_bytes base64ish p = true → (20 <= n + String.length p)%nat → short_runs n s = true → HasPrefix s p = false.
Proof.
  revert n s. induction p as [|c p IH]; intros n s Hp Hn Hs.
  { apply short_runs_bound in Hs. cbn in Hn. lia. }
  cbn in Hp. apply andb_true_iff in Hp as [Hc Hp]. destruct s as [|d s]; [done|]. unfold HasPrefix in *. cbn [cut_prefix].
  case_decide as E; [|done]. subst d. cbn [short_runs] in Hs. apply andb_true_iff in Hs as [_ Hs]. rewrite Hc in Hs.
  apply (IH (S n)); [done|cbn in Hn; lia|done].
Qed.

Lemma short_runs_weaken n s : short_runs n s = true → short_runs 0 s = true.
Proof.
  assert (H : ∀ s n m, (m <= n)%nat → short_runs n s = true → short_runs m s = true).
  { clear. induction s as [|c s IH]; intros n m Hm; cbn [short_runs]; intros [Hn H]%andb_true_iff; apply Nat.ltb_lt in Hn;
      rewrite (proj2 (Nat.ltb_lt m 20)) by lia; [done|]. cbn [andb]. eapply IH; [|exact H]. destruct (base64ish c); lia. }
  apply H. lia.
Qed.

(** No key leaves the agent in an error text: whatever a tool complained
    about, the text the agent reports contains no text of twenty or more
    characters of the base64 alphabet, which every WireGuard key is. *)
Theorem sanitize_hides_keys msg key :
  AwgConfig.all_bytes base64ish key = true → (20 <= String.length key)%nat → Text.Contains (sanitize msg) key = false.
Proof.
  intros Hk Hl. unfold sanitize. assert (H : short_runs 0 (Text.replace_byte (ascii_of_nat 10) " " (redact msg EmptyString 0)) = true)
    by (by apply replace_newline_short, redact_short).
  revert H. generalize (Text.replace_byte (ascii_of_nat 10) " " (redact msg EmptyString 0)). intros s.
  induction s as [|c s IH]; intros H; cbn [Text.Contains]; apply orb_false_iff; (split; [by eapply (short_runs_prefix 0)|]); [done|].
  apply IH. cbn [short_runs] in H. apply andb_true_iff in H as [_ H]. by eapply short_runs_weaken.
Qed.

Lemma sanitize_hides_keys_witness :
  Text.Contains (sanitize "bad key yAnz5TF+lXXJte14tjiZZ1ZpKvWPKBtsYJPF") "yAnz5TF+lXXJte14tjiZZ1ZpKvWPKBtsYJPF" = false.
Proof. apply (sanitize_hides_keys "bad key yAnz5TF+lXXJte14tjiZZ1ZpKvWPKBtsYJPF"); [reflexivity|vm_compute; lia]. Defined.

(** ** The reconciler *)
Module Reconcile.

Definition SentinelAllowedIP : string := "0.0.0.0/32".
Definition maxAmneziaWGParamValue : Z := 65535.

(** No letter of "active" has a folding outside of ASCII. *)
Definition isActive (status : string) : bool := bool_decide (ToLower (TrimSpace status) = "active").

Definition validateAssignedIPv4 (value : string) : result unit :=
  let ip := ParseIP (TrimSpace value) in
  if bool_decide (ip = []) || bool_decide (To4 ip = []) then Err "value must be an IPv4 address" else Ok tt.

Definition validateAllowedIPv4List (value : string) : result unit :=
  foldlR (fun _ part =>
    let part := TrimSpace part in
    if bool_decide (part = EmptyString) then Err "allowed IP entry must not be empty"
    else match ParseCIDR part with
         | None => Err "allowed IP must be IPv4 CIDR"
         | Some (ip, _) => if bool_decide (To4 ip = []) then Err "allowed IP must be IPv4 CIDR" else Ok tt
         end) (Split "," value) tt.

(** [net.simpleMaskLength] and [IPMask.Size]. *)
Fixpoint leading_ones (fuel : nat) (v : Z) : option Z :=
  match fuel with
  | O => Some 0
  | S fuel => if Z.testbit v 7 then n ← leading_ones fuel (Z.land (Z.shiftl v 1) 255); Some (n + 1)
              else if v =? 0 then Some 0 else None
  end.
Fixpoint simpleMaskLength (mask : list Z) : option Z :=
  match mask with
  | [] => Some 0
  | v :: mask =>
      if v =? 255 then n ← simpleMaskLength mask; Some (n + 8)
      else n ← leading_ones 8 v; if forallb (Z.eqb 0) mask then Some n else None
  end.
Definition Mask_Size (mask : list Z) : Z * Z :=
  match simpleMaskLength mask with None => (0, 0) | Some n => (n, 8 * Z.of_nat (length mask)) end.

(** The keys of the map [values]; which of several bad values is named depends
    on the order in which Go walks it. *)
Definition interface_values (c : InterfaceConfig) : list Z :=
  [if_JC c; if_JMin c; if_JMax c; if_S1 c; if_S2 c; if_S3 c; if_S4 c].

Definition interfaceConfigFromProto (content : option ServerConfig) : result InterfaceConfig :=
  match content with
  | None => Err "server_config is required"
  | Some content =>
      let config address port := mkInterfaceConfig (sv_Timings content) (sv_RandomTrailers content) (sv_DisableCookies content)
        (TrimSpace (sv_ServerPrivateKey content)) (sv_HeaderProtectionKey content) (sv_ContentPaddingAddition content)
        address port (sv_Jc content) (sv_Jmin content) (sv_Jmax content) (sv_S1 content) (sv_S2 content) (sv_S3 content) (sv_S4 content)
        (sv_H1 content) (sv_H2 content) (sv_H3 content) (sv_H4 content)
        (sv_I1 content) (sv_I2 content) (sv_I3 content) (sv_I4 content) (sv_I5 content) in
      let key := TrimSpace (sv_ServerPrivateKey content) in
      if bool_decide (key = EmptyString) || ContainsAny key (ascii_of_nat <$> [13; 10; 0]%nat)
      then Err "server_config.server_private_key is invalid"
      else
      let serverIP := To4 (ParseIP (TrimSpace (sv_ServerIpv4 content))) in
      let refused := Err "server_config server IPv4 and client IPv4 CIDR are invalid" in
      match ParseCIDR (TrimSpace (sv_ClientIpv4Cidr content)) with
      | None => refused
      | Some (_, network) =>
          if bool_decide (serverIP = []) || bool_decide (To4 (net_IP network) = []) || negb (Contains network serverIP) then refused
          else
          let '(ones, bits) := Mask_Size (net_Mask network) in
          if negb (bits =? 32) || (ones <? 1) then Err "server_config client IPv4 CIDR is invalid"
          else
          let config := config (IP_String serverIP +:+ "/" +:+ Strconv.FormatInt ones) (sv_ListenPort content) in
          if (if_ListenPort config <? 1) || (65535 <? if_ListenPort config)
          then Err "server_config.listen_port must be between 1 and 65535"
          else
          _ ← foldlR (fun _ value => if value <? 0 then Err "server_config value must be greater than zero"
                                     else if maxAmneziaWGParamValue <? value then Err "server_config value must be <= 65535"
                                     else Ok tt) (interface_values config) tt;
          _ ← AwgConfig.Validate [if_H1 config; if_H2 config; if_H3 config; if_H4 config]
                [if_I1 config; if_I2 config; if_I3 config; if_I4 config; if_I5 config]
                (if_ContentPaddingAddition config) (if_Timings config);
          if if_JMax config <? if_JMin config then Err "server_config.jmin must be <= server_config.jmax"
          else if negb (bool_decide (if_HeaderProtectionKey config = EmptyString)) &&
                  ((if_S1 config <? 12) || (if_S2 config <? 12) || (if_S3 config <? 12) || (if_S4 config <? 12))
          then Err "server_config 3.1 S1-S4 must be >= 12"
          else Ok config
      end
  end.

Section Tools.
Context {W : Type} (tools : option (Tools W)).

(** [serverConfigResultFor] *)
Definition result_for (command : option EditServerConfig) (applied : Z) (status error : string) : ServerConfigApplyResult :=
  match command with
  | Some c => mkApplyResult (ec_NodeId c) (ec_Revision c) applied EmptyString status error
  | None => mkApplyResult EmptyString 0 applied EmptyString status error
  end.

Definition EditServerConfig (command : option EditServerConfig) (w : W) : W * ServerConfigApplyResult :=
  match tools, command with
  | None, _ => (w, result_for command 0 "failed" "AmneziaWG tools are not configured")
  | _, None => (w, result_for command 0 "rejected" "edit server config command is required")
  | Some tools, Some c =>
      match interfaceConfigFromProto (ec_ServerConfig c) with
      | Err e => (w, result_for command 0 "rejected" e)
      | Ok config =>
          match tl_SetInterfaceConfig tools config w with
          | (w, Err e) => (w, result_for command 0 "failed" (sanitize e))
          | (w, Ok _) => (w, result_for command (ec_Revision c) "applied" EmptyString)
          end
      end
  end.

(** [fmt.Errorf] around the error of a tool. *)
Definition wrapM {A} (label : string) (m : goM W A) : goM W A := fun w =>
  match m w with
  | (w, Ok a) => (w, Ok a)
  | (w, Err e) => (w, Err (label +:+ sanitize e))
  end.

(** Getters of a nil credential return zero values. *)
Definition zero_credential : AmneziaCredential := mkAmneziaCredential "" "" "" "" 0.

Definition UpsertPeer (credential : option AmneziaCredential) : goM W unit :=
  let credential := default zero_credential credential in
  match tools with
  | None => failM "AmneziaWG tools are not configured"
  | Some tools =>
      let publicKey := TrimSpace (ac_PublicKey credential) in
      if bool_decide (publicKey = EmptyString) then failM "peer public key is required"
      else
      allowed ← liftM (if isActive (ac_DesiredStatus credential) then
                         _ ← validateAssignedIPv4 (ac_AssignedIpv4 credential);
                         let allowed := TrimSpace (ac_AssignedIpv4 credential) +:+ "/32" in
                         _ ← validateAllowedIPv4List allowed;
                         Ok allowed
                       else Ok SentinelAllowedIP);
      wrapM "set peer: " (tl_SetPeer tools publicKey (mkPeerOptions [allowed] EmptyString (ac_PersistentKeepalive credential)
                            (TrimSpace (ac_PresharedKey credential))))
  end.

Definition RemovePeer (publicKey : string) : goM W unit :=
  match tools with
  | None => failM "AmneziaWG tools are not configured"
  | Some tools =>
      let publicKey := TrimSpace publicKey in
      if bool_decide (publicKey = EmptyString) then failM "peer public key is required"
      else wrapM "remove peer: " (tl_RemovePeer tools publicKey)
  end.

(** [sortedKeys(mapRuntimePeers(dump))] *)
Definition runtime_keys (dump : list string) : list string :=
  merge_sort String.le (elements (list_to_set dump : gset string)).

Definition PruneRuntimePeers (desired : gset string) : goM W unit :=
  match tools with
  | None => failM "AmneziaWG tools are not configured"
  | Some tools =>
      dump ← tl_ShowDump tools;
      iterM (fun publicKey => if bool_decide (publicKey ∈ desired) then mret tt else tl_RemovePeer tools publicKey) (runtime_keys dump)
  end.
End Tools.

Example mask_samples :
  Mask_Size [255; 255; 240; 0] = (20, 32) ∧ Mask_Size [255; 0; 1; 0] = (0, 0) ∧ Mask_Size [0; 0; 0; 0] = (0, 32).
Proof. vm_compute. done. Qed.
End Reconcile.

(** ** Commands of an administrator *)
Module Runtime.

Record Tools (W : Type) := mkTools {
  rt_Status : goM W string;
  rt_Logs : goM W string;
  rt_Restart : goM W unit;
}.
Arguments rt_Status {W} _.
Arguments rt_Logs {W} _.
Arguments rt_Restart {W} _.

Definition markers : list string :=
  ["privatekey"; "private_key"; "presharedkey"; "headerprotectionkey"; "header_protection_key"; "header-protection-key";
   "header protection key"; "token"; "secret"; "password"; "authorization"].

Section Execute.
Context (tables : CaseTables) {W : Type}.

Definition sanitize (value : string) : string :=
  let value := TrimSpace value in
  if existsb (Text.Contains (u_ToLower tables value)) markers then "<redacted>"
  else if 8000 <? Z.of_nat (String.length value) then str_take (Z.to_nat 8000) value +:+ "...<truncated>"
  else value.

Definition Execute (now : time) (tools : option (Tools W)) (cmd : option RuntimeCommand) (w : W) : W * RuntimeCommandResult :=
  match cmd with
  | None => (w, mkRuntimeCommandResult EmptyString "error" EmptyString "empty command")
  | Some cmd =>
      if (0 <? co_ExpiresMs cmd) && (co_ExpiresMs cmd <? TimeUnixMilli now)
      then (w, mkRuntimeCommandResult (co_Id cmd) "skipped" EmptyString "command expired")
      else match tools with
      | None => (w, mkRuntimeCommandResult (co_Id cmd) "unsupported" EmptyString "AmneziaWG tools are not configured")
      | Some tools =>
          let answer (r : W * result string) :=
            match r with
            | (w, Err e) => (w, mkRuntimeCommandResult (co_Id cmd) "error" EmptyString (sanitize e))
            | (w, Ok msg) => (w, mkRuntimeCommandResult (co_Id cmd) "ok" (sanitize msg) EmptyString)
            end in
          let typ := co_Type cmd in
          if bool_decide (typ = "GetAmneziaWGStatus" ∨ typ = "GetAWGStatus") then answer (rt_Status tools w)
          else if bool_decide (typ = "CollectAmneziaWGLogs" ∨ typ = "CollectAWGLogs") then answer (rt_Logs tools w)
          else if bool_decide (typ = "RestartAmneziaWG" ∨ typ = "RestartAWG")
          then answer ((_ ← rt_Restart tools; mret "AmneziaWG service restarted") w)
          else (w, mkRuntimeCommandResult (co_Id cmd) "unsupported" EmptyString "unsupported AmneziaWG command")
      end
  end.
End Execute.
End Runtime.

(** ** The client of the agent *)

(** [GRPCDelegate], as far as messages use it.  A pointer result may be nil. *)
Record Delegate (W : Type) := mkDelegate {
  dl_ApplyAuthRefresh : AuthRefresh → goM W unit;
  dl_ApplyServerConfig : EditServerConfig → W → W * option ServerConfigApplyResult;
  dl_ExecuteRuntimeCommand : RuntimeCommand → W → W * option RuntimeCommandResult;
}.
Arguments mkDelegate {W} _ _ _.
Arguments dl_ApplyAuthRefresh {W} _ _.
Arguments dl_ApplyServerConfig {W} _ _.
Arguments dl_ExecuteRuntimeCommand {W} _ _.

(** The agent's queue, whether its stream is up, what it has sent, and what
    its delegate works on. *)
Record Agent (W : Type) := mkAgent {
  an_transport : SQLStore;
  an_connected : bool;
  an_sent : list AgentMessage;
  an_world : W;
}.
Arguments mkAgent {W} _ _ _ _.
Arguments an_transport {W} _.
Arguments an_connected {W} _.
Arguments an_sent {W} _.
Arguments an_world {W} _.

Definition status_text (s : Status) : string :=
  match s with
  | StatusUnset => ""
  | StatusPending => "pending"
  | StatusInFlight => "in_flight"
  | StatusApplied => "applied"
  | StatusAcked => "acked"
  | StatusFailed => "failed"
  | StatusExpired => "expired"
  | StatusSuperseded => "superseded"
  end.

Module Client.
Section Client.
Context {W : Type} `{!Proto AuthRefreshResult, !Proto ServerConfigApplyResult, !Proto RuntimeCommandResult}.
Context (nodeID : string) (delegate : Delegate W).
Implicit Types (a : Agent W) (msg : ServerMessage).

(** [GRPCClient.Send]: without a session the message is gone. *)
Definition Send (m : AgentMessage) a : Agent W :=
  if an_connected a then mkAgent (an_transport a) true (an_sent a ++ [m]) (an_world a) else a.

Definition marshalled {M} `{!Proto M} (m : M) : string := match Marshal m with Ok raw => raw | Err _ => EmptyString end.

Definition complete (now : time) (requestID typ : string) (ok : bool) (errMsg raw : string) (reply : AgentMessage) a : Agent W :=
  let status := if ok then StatusApplied else StatusFailed in
  let a := if bool_decide (requestID = EmptyString) then a
           else mkAgent (RecordProcessed now nodeID requestID typ status raw errMsg (an_transport a))
                  (an_connected a) (an_sent a) (an_world a) in
  Send reply a.

Definition refresh_reply (requestID : string) (r : AuthRefreshResult) : AgentMessage :=
  mkAgentMessage "auth_refresh_result" requestID (Some r) None None.
Definition config_reply (requestID : string) (r : ServerConfigApplyResult) : AgentMessage :=
  mkAgentMessage "server_config_apply_result" requestID None (Some r) None.
Definition command_reply (requestID : string) (r : RuntimeCommandResult) : AgentMessage :=
  mkAgentMessage "runtime_command_result" requestID None None (Some r).

Definition set_world (w : W) a : Agent W := mkAgent (an_transport a) (an_connected a) (an_sent a) w.

Definition handleAuthRefresh (now : time) msg a : Agent W :=
  match sg_AuthRefresh msg with
  | None => a
  | Some refresh =>
      let '(w, r) := dl_ApplyAuthRefresh delegate refresh (an_world a) in
      let result := match r with
                    | Ok _ => mkAuthRefreshResult nodeID (af_AccountId refresh) "ok" EmptyString EmptyString (af_SnapshotVersionMs refresh)
                    | Err e => mkAuthRefreshResult nodeID (af_AccountId refresh) "error" EmptyString e (af_SnapshotVersionMs refresh)
                    end in
      complete now (sg_RequestId msg) "auth_refresh" (bool_decide (fr_Status result = "ok")) (fr_Error result) (marshalled result)
        (refresh_reply (sg_RequestId msg) result) (set_world w a)
  end.

Definition fill_result (command : EditServerConfig) (requestID : string) (r : ServerConfigApplyResult) : ServerConfigApplyResult :=
  mkApplyResult (or_default (ar_NodeId r) nodeID)
    (if ar_DesiredRevision r =? 0 then ec_Revision command else ar_DesiredRevision r)
    (ar_AppliedRevision r) (or_default (ar_CorrelationId r) requestID) (ar_Status r) (ar_Error r).

Definition config_ok (r : ServerConfigApplyResult) : bool := bool_decide (ar_Status r = "ok" ∨ ar_Status r = "applied").

Definition handleServerConfig (now : time) msg a : Agent W :=
  match sg_EditServerConfig msg with
  | None => a
  | Some command =>
      let '(w, result) :=
        if bool_decide (ec_NodeId command = nodeID) then
          let '(w, r) := dl_ApplyServerConfig delegate command (an_world a) in
          (w, fill_result command (sg_RequestId msg)
                (default (mkApplyResult EmptyString 0 0 EmptyString "error" "server config apply returned nil result") r))
        else (an_world a, mkApplyResult nodeID (ec_Revision command) 0 (sg_RequestId msg) "failed"
                            "edit server config node_id does not match configured node") in
      complete now (sg_RequestId msg) "edit_server_config" (config_ok result) (ar_Error result) (marshalled result)
        (config_reply (sg_RequestId msg) result) (set_world w a)
  end.

Definition handleRuntimeCommand (now : time) msg a : Agent W :=
  match sg_RuntimeCommand msg with
  | None => a
  | Some command =>
      let '(w, r) := dl_ExecuteRuntimeCommand delegate command (an_world a) in
      let r := default (mkRuntimeCommandResult (co_Id command) "error" EmptyString "runtime command returned nil result") r in
      let result := mkRuntimeCommandResult (or_default (cr_CommandId r) (co_Id command)) (cr_Status r) (cr_Message r) (cr_Error r) in
      complete now (sg_RequestId msg) "runtime_command" (bool_decide (cr_Status result = "ok" ∨ cr_Status result = "skipped"))
        (cr_Error result) (marshalled result) (command_reply (sg_RequestId msg) result) (set_world w a)
  end.

(** The recorded result, or, when nothing was recorded or it has no status,
    what the record itself says. What is recorded comes from [proto.Marshal];
    of text that does not unmarshal no field is taken. *)
Definition recorded {M} `{!Proto M} (status : M → string) (processed : ProcessedMessage) (fallback : M) : M :=
  match Unmarshal (p_Result processed) with
  | Ok r => if bool_decide (status r = EmptyString) then fallback else r
  | Err _ => fallback
  end.

Definition replay msg (processed : ProcessedMessage) : option AgentMessage :=
  let id := sg_RequestId msg in
  let st := status_text (p_Status processed) in
  if bool_decide (sg_Type msg = "auth_refresh") then
    Some (refresh_reply id (recorded fr_Status processed
      (mkAuthRefreshResult nodeID (default EmptyString (af_AccountId <$> sg_AuthRefresh msg)) st EmptyString (p_Error processed) 0)))
  else if bool_decide (sg_Type msg = "edit_server_config") then
    Some (config_reply id (recorded ar_Status processed
      (mkApplyResult nodeID (default 0 (ec_Revision <$> sg_EditServerConfig msg)) 0 id st (p_Error processed))))
  else if bool_decide (sg_Type msg = "runtime_command") then
    Some (command_reply id (recorded cr_Status processed
      (mkRuntimeCommandResult (default EmptyString (co_Id <$> sg_RuntimeCommand msg)) st EmptyString (p_Error processed))))
  else None.

Definition HandleIncoming (now : time) msg a : Agent W :=
  match (if bool_decide (sg_RequestId msg = EmptyString) then None else IsProcessed nodeID (sg_RequestId msg) (an_transport a)) with
  | Some processed => match replay msg processed with Some reply => Send reply a | None => a end
  | None =>
      if bool_decide (sg_Type msg = "auth_refresh") then handleAuthRefresh now msg a
      else if bool_decide (sg_Type msg = "edit_server_config") then handleServerConfig now msg a
      else if bool_decide (sg_Type msg = "runtime_command") then handleRuntimeCommand now msg a
      else a
  end.

(** ** Messages that come again *)

(** What [sendHeartbeat] of the processor does to the agent's queue; the
    heartbeat it then sends is no answer to a message and is not kept. *)
Definition heartbeat (now now_out now_in : time) a : Agent W :=
  mkAgent (Cleanup now_out now_in DefaultCleanupPolicy (RequeueExpiredLeases now nodeID (an_transport a)))
    (an_connected a) (an_sent a) (an_world a).

(** What happens to the client: a message arrives, the stream comes or goes, the
    processor beats and cleans the queue. *)
Inductive event :=
| Incoming (now : time) (msg : ServerMessage)
| Connection (up : bool)
| Heartbeat (now now_out now_in : time).

Definition react (e : event) a : Agent W :=
  match e with
  | Incoming now msg => HandleIncoming now msg a
  | Connection up => mkAgent (an_transport a) up (an_sent a) (an_world a)
  | Heartbeat now now_out now_in => heartbeat now now_out now_in a
  end.

(** A heartbeat at most as late as [ms], the only event that may forget a
    message. *)
Definition cleans_by (ms : Z) (e : event) : Prop :=
  match e with Heartbeat _ _ now_in => TimeUnixMilli now_in <= ms | _ => True end.

(** The message carries the part its type is about. *)
Definition meaningful msg : Prop :=
  (sg_Type msg = "auth_refresh" ∧ is_Some (sg_AuthRefresh msg)) ∨
  (sg_Type msg = "edit_server_config" ∧ is_Some (sg_EditServerConfig msg)) ∨
  (sg_Type msg = "runtime_command" ∧ is_Some (sg_RuntimeCommand msg)).

(** The reply has a status and can be put on the wire. *)
Definition replayable (m : AgentMessage) : Prop :=
  (∀ r, ag_AuthRefreshResult m = Some r → is_ok (Marshal r) = true ∧ fr_Status r ≠ EmptyString) ∧
  (∀ r, ag_ServerConfigApplyResult m = Some r → is_ok (Marshal r) = true ∧ ar_Status r ≠ EmptyString) ∧
  (∀ r, ag_RuntimeCommandResult m = Some r → is_ok (Marshal r) = true ∧ cr_Status r ≠ EmptyString).

Lemma Send_fields m a :
  an_transport (Send m a) = an_transport a ∧ an_connected (Send m a) = an_connected a ∧ an_world (Send m a) = an_world a ∧
  an_sent (Send m a) = if an_connected a then an_sent a ++ [m] else an_sent a.
Proof. unfold Send. by destruct (an_connected a) eqn:E; rewrite ?E. Qed.

Lemma is_processed_of (ok : bool) : is_processed_status (if ok then StatusApplied else StatusFailed) = true.
Proof. by destruct ok. Qed.

(** The record of an outcome: the message, when it was handled, and the raw text
    of the result. *)
Record record_of (id typ : string) (ok : bool) (ms : Z) (raw : string) (r : row) : Prop := {
  ro_status : status r = if ok then StatusApplied else StatusFailed;
  ro_type : type_ r = typ;
  ro_created : created_at_ms r = ms;
  ro_result : p_Result (scanProcessed r) = raw;
}.

Definition on_record (id : string) (r : row) a : Prop := inbox (an_transport a) !! (nodeID, id) = Some r.

Lemma record_processed id typ ok ms raw r a :
  record_of id typ ok ms raw r → on_record id r a → IsProcessed nodeID id (an_transport a) = Some (scanProcessed r).
Proof. intros [Hs _ _ _] Hr. unfold IsProcessed. rewrite Hr. cbn -[is_processed_status]. by rewrite Hs, is_processed_of. Qed.

(** A result is recorded under its request, with the raw text of the result. *)
Lemma complete_records now id typ ok errMsg raw reply a :
  id ≠ EmptyString → inbox (an_transport a) !! (nodeID, id) = None →
  ∃ r, on_record id r (complete now id typ ok errMsg raw reply a) ∧ record_of id typ ok (TimeUnixMilli now) raw r ∧
    an_sent (complete now id typ ok errMsg raw reply a) = (if an_connected a then an_sent a ++ [reply] else an_sent a).
Proof.
  intros Hid Hnew. unfold complete, on_record. rewrite bool_decide_eq_false_2 by done.
  destruct (Send_fields reply (mkAgent (RecordProcessed now nodeID id typ (if ok then StatusApplied else StatusFailed) raw errMsg
    (an_transport a)) (an_connected a) (an_sent a) (an_world a))) as (-> & _ & _ & ->). cbn [an_transport an_connected an_sent].
  unfold RecordProcessed. cbn [inbox]. rewrite lookup_sql_upsert, decide_True by done.
  unfold row_key. cbn [actor_id Queue.id]. rewrite Hnew. eexists. split_and!; [done| |done]. constructor; [done..|]. unfold scanProcessed. cbn -[encodeMessageJSON mustDecodeMessageJSON].
  by rewrite mustDecode_encode.
Qed.

Lemma complete_fields now id typ ok errMsg raw reply a :
  an_connected (complete now id typ ok errMsg raw reply a) = an_connected a ∧
  an_world (complete now id typ ok errMsg raw reply a) = an_world a.
Proof. unfold complete. edestruct Send_fields as (_ & -> & -> & _). by case_bool_decide. Qed.

Lemma recorded_same {M} `{!Proto M} (status : M → string) (r fallback : M) p :
  is_ok (Marshal r) = true → status r ≠ EmptyString → p_Result p = marshalled r → recorded status p fallback = r.
Proof.
  unfold recorded, marshalled. destruct (Marshal r) as [raw|] eqn:E; [|done]. intros _ Hs ->.
  rewrite (Unmarshal_Marshal r raw E). by rewrite bool_decide_eq_false_2.
Qed.

Ltac completed Hid Hnew :=
  match goal with
  | |- context [complete ?n ?i ?t ?o ?e ?r ?m ?b] =>
      let H1 := fresh in let H2 := fresh in
      destruct (complete_records n i t o e r m b Hid Hnew) as (rw & H1 & Hp & H2); exists m, rw, o, r; rewrite H2
  end.

(** A message not seen before is answered, the answer is on record and the
    replay of the record is the answer. *)
Lemma first_time now msg a :
  sg_RequestId msg ≠ EmptyString → meaningful msg → inbox (an_transport a) !! (nodeID, sg_RequestId msg) = None →
  ∃ reply r ok raw, on_record (sg_RequestId msg) r (HandleIncoming now msg a) ∧
    record_of (sg_RequestId msg) (sg_Type msg) ok (TimeUnixMilli now) raw r ∧
    an_sent (HandleIncoming now msg a) = (if an_connected a then an_sent a ++ [reply] else an_sent a) ∧
    (replayable reply → replay msg (scanProcessed r) = Some reply).
Proof.
  intros Hid Hm Hnew. unfold HandleIncoming, replay.
  assert (IsProcessed nodeID (sg_RequestId msg) (an_transport a) = None) as Hun by (unfold IsProcessed; by rewrite Hnew).
  rewrite bool_decide_eq_false_2, Hun by done.
  assert (Hoff : ∀ x y : string, x ≠ y → bool_decide (x = y) = false) by (intros; by apply bool_decide_eq_false_2).
  assert (Hon : ∀ x : string, bool_decide (x = x) = true) by (intros; by apply bool_decide_eq_true_2).
  destruct Hm as [[Ht [x Hx]]|[[Ht [x Hx]]|[Ht [x Hx]]]]; rewrite Ht;
    rewrite ?(Hoff "edit_server_config" "auth_refresh"), ?(Hoff "runtime_command" "auth_refresh"),
      ?(Hoff "runtime_command" "edit_server_config"), ?Hon by done.
  - unfold handleAuthRefresh. rewrite Hx. destruct (dl_ApplyAuthRefresh _ _ _) as [w r]. cbv zeta.
    set (res := match r with Ok _ => _ | Err _ => _ end). completed Hid Hnew. split_and!; [done|done|done|]. intros (Hr & _). destruct (Hr res eq_refl).
    by rewrite (recorded_same fr_Status res) by (done || apply Hp).
  - unfold handleServerConfig. rewrite Hx. destruct (if bool_decide _ then _ else _) as [w res].
    completed Hid Hnew. split_and!; [done|done|done|]. intros (_ & Hr & _). destruct (Hr res eq_refl).
    by rewrite (recorded_same ar_Status res) by (done || apply Hp).
  - unfold handleRuntimeCommand. rewrite Hx. destruct (dl_ExecuteRuntimeCommand _ _ _) as [w r]. cbv zeta.
    set (res := mkRuntimeCommandResult _ _ _ _). completed Hid Hnew. split_and!; [done|done|done|]. intros (_ & _ & Hr). destruct (Hr res eq_refl).
    by rewrite (recorded_same cr_Status res) by (done || apply Hp).
Qed.

(** A message on record is only answered again. *)
Lemma next_time now msg a p :
  sg_RequestId msg ≠ EmptyString → IsProcessed nodeID (sg_RequestId msg) (an_transport a) = Some p →
  HandleIncoming now msg a = match replay msg p with Some reply => Send reply a | None => a end.
Proof. intros Hid Hp. unfold HandleIncoming. by rewrite bool_decide_eq_false_2, Hp by done. Qed.

Lemma complete_other now id' typ ok errMsg raw reply a id r :
  id' ≠ id → on_record id r a → on_record id r (complete now id' typ ok errMsg raw reply a).
Proof.
  intros Hne Hr. unfold complete, on_record. case_bool_decide.
  - by destruct (Send_fields reply a) as (-> & _).
  - edestruct Send_fields as (-> & _). cbn [an_transport]. unfold RecordProcessed. cbn [inbox].
    rewrite lookup_sql_upsert, decide_False; [done|]. unfold row_key. cbn [actor_id Queue.id]. congruence.
Qed.

(** Only a late heartbeat takes a message off the record. *)
Lemma react_keeps e a id typ ok ms raw r :
  id ≠ EmptyString → command_type typ → record_of id typ ok ms raw r → cleans_by (ms + Milliseconds (retention typ)) e →
  on_record id r a → on_record id r (react e a).
Proof.
  intros Hne Hty Hrec Hby Hr. destruct e as [now msg|up|now now_out now_in]; [|done|]; cbn [react].
  2: { unfold on_record, heartbeat, Cleanup, RequeueExpiredLeases. cbn [an_transport inbox]. destruct Hrec as [Hs Ht Hc _].
       apply cleanup_keeps_recent; [done|by rewrite Ht|rewrite Hs; destruct ok; auto|]. by rewrite Hc, Ht. }
  destruct (decide (sg_RequestId msg = id)) as [Hid|Hid].
  { rewrite (next_time now msg a (scanProcessed r)) by (rewrite Hid; first [done|by eapply record_processed]).
    destruct (replay msg _) as [m|]; [|done]. unfold on_record. by destruct (Send_fields m a) as (-> & _). }
  unfold HandleIncoming. destruct (if bool_decide _ then None else _) as [p'|].
  { destruct (replay msg p') as [m|]; [|done]. unfold on_record. by destruct (Send_fields m a) as (-> & _). }
  repeat case_bool_decide; [..|done].
  - unfold handleAuthRefresh. destruct (sg_AuthRefresh msg); [|done]. destruct (dl_ApplyAuthRefresh _ _ _). by apply complete_other.
  - unfold handleServerConfig. destruct (sg_EditServerConfig msg); [|done]. destruct (if bool_decide _ then _ else _). by apply complete_other.
  - unfold handleRuntimeCommand. destruct (sg_RuntimeCommand msg); [|done]. destruct (dl_ExecuteRuntimeCommand _ _ _). by apply complete_other.
Qed.

Lemma reacts_keep es a id typ ok ms raw r :
  id ≠ EmptyString → command_type typ → record_of id typ ok ms raw r →
  Forall (cleans_by (ms + Milliseconds (retention typ))) es → on_record id r a →
  on_record id r (foldl (fun a e => react e a) a es).
Proof.
  intros Hne Hty Hrec Hes. revert a. induction Hes as [|e es He _ IH]; intros a Hr; [done|]. cbn. apply IH. by eapply react_keeps.
Qed.

Lemma meaningful_type msg : meaningful msg → command_type (sg_Type msg).
Proof. unfold command_type. intros [[-> _]|[[-> _]|[-> _]]]; auto. Qed.
End Client.
End Client.

(** C11. The work a message asks for is done once, as long as the agent keeps its
    record.  A message with an identifier and the part its type is about, that
    the agent has no record of, is carried out and answered.  When it comes
    again, because its answer was lost or its lease ran out, after whatever else
    has happened to the client but no clean-up more than 15 minutes after a
    credential refresh or an hour after another command, neither the data plane
    nor the agent's records change; the agent sends the very reply of the first
    time, provided that one can be marshalled and has a status. *)
Theorem message_handled_once {W} `{!Proto AuthRefreshResult, !Proto ServerConfigApplyResult, !Proto RuntimeCommandResult}
    nodeID (delegate : Delegate W) now msg (a : Agent W) :
  sg_RequestId msg ≠ EmptyString → Client.meaningful msg → inbox (an_transport a) !! (nodeID, sg_RequestId msg) = None →
  let first := Client.HandleIncoming nodeID delegate now msg a in
  let keep := if bool_decide (sg_Type msg = "auth_refresh") then 15 * Minute else Hour in
  ∃ reply, an_sent first = (if an_connected a then an_sent a ++ [reply] else an_sent a) ∧
    ∀ events now', Forall (Client.cleans_by (TimeUnixMilli now + Milliseconds keep)) events →
      let later := foldl (fun a e => Client.react nodeID delegate e a) first events in
      let again := Client.HandleIncoming nodeID delegate now' msg later in
      an_world again = an_world later ∧ an_transport again = an_transport later ∧
      (Client.replayable reply → an_sent again = (if an_connected later then an_sent later ++ [reply] else an_sent later)).
Proof.
  intros Hid Hm Hnew first keep.
  destruct (Client.first_time nodeID delegate now msg a Hid Hm Hnew) as (reply & r & ok & raw & Hr & Hrec & Hs & Hrep).
  exists reply. split; [done|]. intros events now' Hev later again.
  assert (Hl : Client.on_record nodeID (sg_RequestId msg) r later).
  { eapply Client.reacts_keep; [done|by apply Client.meaningful_type|exact Hrec|exact Hev|exact Hr]. }
  unfold again. rewrite (Client.next_time nodeID delegate now' msg later (scanProcessed r) Hid)
    by (eapply Client.record_processed; [exact Hrec|exact Hl]).
  destruct (Client.replay nodeID msg _) as [m|] eqn:E.
  - destruct (Client.Send_fields m later) as (-> & _ & -> & ->). split_and!; [done..|]. intros H%Hrep. by simplify_eq.
  - split_and!; [done..|]. by intros H%Hrep.
Qed.

(** The bound is needed: a heartbeat more than an hour after settings were
    applied takes them off the record, although their message is sent again for
    24 hours, and the agent applies them once more. *)
Theorem forgotten_settings_applied_again {W} `{!Proto AuthRefreshResult, !Proto ServerConfigApplyResult, !Proto RuntimeCommandResult}
    nodeID (delegate : Delegate W) now msg command result w1 (a : Agent W) beat beat_out beat_in now' :
  sg_RequestId msg ≠ EmptyString → sg_Type msg = "edit_server_config" → sg_EditServerConfig msg = Some command →
  ec_NodeId command = nodeID → inbox (an_transport a) !! (nodeID, sg_RequestId msg) = None →
  dl_ApplyServerConfig delegate command (an_world a) = (w1, Some result) → Client.config_ok result = true →
  TimeUnixMilli now + Milliseconds Hour < TimeUnixMilli beat_in →
  let first := Client.HandleIncoming nodeID delegate now msg a in
  let again := Client.HandleIncoming nodeID delegate now' msg (Client.heartbeat nodeID beat beat_out beat_in first) in
  an_world first = w1 ∧ an_world again = (dl_ApplyServerConfig delegate command w1).1.
Proof.
  intros Hid Ht Hc Hn Hnew Happ Hok Hlate first again.
  assert (Hrun : ∀ t b, IsProcessed nodeID (sg_RequestId msg) (an_transport b) = None →
    Client.HandleIncoming nodeID delegate t msg b = Client.handleServerConfig nodeID delegate t msg b).
  { intros t b Hb. unfold Client.HandleIncoming. rewrite bool_decide_eq_false_2, Hb, Ht by done.
    rewrite (bool_decide_eq_false_2 (_ = "auth_refresh")), bool_decide_eq_true_2 by done. done. }
  assert (Hfirst : first = Client.complete nodeID now (sg_RequestId msg) "edit_server_config"
      (Client.config_ok (Client.fill_result nodeID command (sg_RequestId msg) result)) (ar_Error result)
      (Client.marshalled (Client.fill_result nodeID command (sg_RequestId msg) result))
      (Client.config_reply (sg_RequestId msg) (Client.fill_result nodeID command (sg_RequestId msg) result)) (Client.set_world w1 a)).
  { unfold first. rewrite Hrun by (unfold IsProcessed; by rewrite Hnew). unfold Client.handleServerConfig. rewrite Hc.
    rewrite bool_decide_eq_true_2, Happ by done. done. }
  assert (Hw : an_world first = w1) by (rewrite Hfirst; apply Client.complete_fields). split; [done|].
  destruct (Client.complete_records nodeID now (sg_RequestId msg) "edit_server_config"
    (Client.config_ok (Client.fill_result nodeID command (sg_RequestId msg) result)) (ar_Error result)
    (Client.marshalled (Client.fill_result nodeID command (sg_RequestId msg) result))
    (Client.config_reply (sg_RequestId msg) (Client.fill_result nodeID command (sg_RequestId msg) result))
    (Client.set_world w1 a) Hid Hnew) as (r & Hr & [Hs Hty Hcr _] & _). rewrite <-Hfirst in Hr.
  unfold again. rewrite Hrun.
  - unfold Client.handleServerConfig. rewrite Hc, bool_decide_eq_true_2 by done. cbn [an_world Client.heartbeat]. rewrite Hw.
    destruct (dl_ApplyServerConfig delegate command w1) as [w2 r2]. apply Client.complete_fields.
  - unfold IsProcessed, Client.heartbeat, Cleanup, RequeueExpiredLeases. cbn [an_transport inbox].
    rewrite (cleanup_forgets beat_in _ _ r); [done|exact Hr| |].
    + rewrite Hs. unfold Client.config_ok in *. cbn. by rewrite Hok.
    + by rewrite Hcr, Hty.
Qed.
