(* ===== verification/ConfigDelivery.v ===== *)
(** * ConfigDelivery: how the settings of a node reach its interface

    [src/internal/server/integrations/nativeawg/server_config.go]: the command
    for saved settings.  [src/internal/server/amneziaagent/delivery.go]: the
    loop that queues the command, leases it, asks the agent and records what it
    answered.  A request to the agent is any effect on the world of the control
    plane, which may change under it; [link] is the one that goes to the client
    of [AwgAgent] over a network that loses messages.

    Proved: what the control plane accepts as settings of a node the agent
    accepts as well; a version is recorded as applied only when the agent
    confirmed that very version of that very request; and settings that were
    saved reach the interface of the node exactly once, whatever the network
    loses on the way. *)

From S2P Require Import Prelude GoLib GoText GoNet GoNetip AwgConfig Sql Queue ServerModel NativeAwg ServerStore StoreInvariant.
From S2P Require Import SyncProtocol ServerManifest AmneziaSettings AwgAgent.
From Stdlib Require Import Ascii.
Import GoStrings GoTime.
Local Open Scope Z_scope.

Definition uint64 (z : Z) : Z := z mod 2 ^ 64.
(** [int64] of a [uint64]. *)
Definition int64_of (z : Z) : Z := if z <? 2 ^ 63 then z else z - 2 ^ 64.

(** ** The command *)
Module Command.
Section Command.
Context (ToASCII : string → option string).

Definition timings_of (raw : string) : result (gmap string string) :=
  if bool_decide (raw = EmptyString) then Ok ∅
  else let '(m, ok) := NativeAwg.read_timings raw in if (ok : bool) then Ok m else Err "invalid timings".

Definition server_config (config : AmneziaWGNodeConfig) (timings : gmap string string) : ServerConfig :=
  let o := awg_Obfuscation config in
  mkServerConfig (uint32 (awg_JC o)) (uint32 (awg_JMin o)) (uint32 (awg_JMax o))
    (uint32 (awg_S1 o)) (uint32 (awg_S2 o)) (uint32 (awg_S3 o)) (uint32 (awg_S4 o))
    (awg_H1 o) (awg_H2 o) (awg_H3 o) (awg_H4 o) (awg_I1 o) (awg_I2 o) (awg_I3 o) (awg_I4 o) (awg_I5 o)
    (awg_ServerPrivateKey config) (awg_ServerIPv4 config) (awg_ClientIPv4CIDR config) (uint32 (awg_ListenPort config))
    (awg_HeaderProtectionKey o) (awg_ContentPaddingAddition o) timings (awg_RandomTrailers o) (awg_DisableCookies o).

Definition EditServerConfig (config : AmneziaWGNodeConfig) : result EditServerConfig :=
  _ ← NativeAwg.ValidateNodeConfig ToASCII config;
  if awg_ConfigVersionMS config <=? 0 then Err "amneziawg config version must be greater than zero"
  else
    timings ← timings_of (awg_TimingsJSON (awg_Obfuscation config));
    Ok (mkEditServerConfig (awg_NodeID config) (uint64 (awg_ConfigVersionMS config)) (Some (server_config config timings))).
End Command.
End Command.

(** ** Both sides agree on what settings are *)
Section Agreement.
Context (ToASCII : string → option string).
Import Net.

(** What a validated configuration has. *)
Record validated (c : AmneziaWGNodeConfig) : Prop := {
  vd_port : 1 <= NativeAwg.defaultInt (awg_ListenPort c) (awg_EndpointPort c) <= 65535;
  vd_pool : NativeAwg.validateIPv4Pool (NativeAwg.defaultString (awg_ClientIPv4CIDR c) NativeAwg.DefaultClientIPv4CIDR)
    (NativeAwg.defaultString (awg_ServerIPv4 c) NativeAwg.DefaultServerIPv4)
    (NativeAwg.defaultString (awg_FirstClientIPv4 c) NativeAwg.DefaultFirstClientIPv4)
    (NativeAwg.defaultString (awg_LastClientIPv4 c) NativeAwg.DefaultLastClientIPv4) = Ok tt;
  vd_key : ∃ x, NativeAwg.validateConfigValue "server private key" (awg_ServerPrivateKey c) = Ok x;
  vd_parameters : NativeAwg.validateAmneziaWGParameters (awg_Obfuscation c) = Ok tt;
}.

Lemma ValidateNodeConfig_validated c : NativeAwg.ValidateNodeConfig ToASCII c = Ok tt → validated c.
Proof.
  unfold NativeAwg.ValidateNodeConfig. cbv zeta.
  intros (? & _ & H)%bind_Ok. apply bind_Ok in H as (? & _ & H). apply bind_Ok in H as ([] & Hport & H).
  apply bind_Ok in H as (? & _ & H). apply bind_Ok in H as ([] & Hpool & H). apply bind_Ok in H as (? & _ & H).
  destruct (_ || _); [done|]. destruct (_ || _); [done|]. apply bind_Ok in H as (? & _ & H).
  apply bind_Ok in H as (key & Hkey & H). apply bind_Ok in H as (? & _ & H). split; [|done|by exists key|done].
  unfold NativeAwg.validatePort in Hport. destruct (_ || _) eqn:E; [done|]. apply orb_false_iff in E as [?%Z.ltb_ge ?%Z.ltb_ge]. lia.
Qed.

Lemma validateIPv4Pool_Ok cidr server first last :
  NativeAwg.validateIPv4Pool cidr server first last = Ok tt →
  ∃ ip network, ParseCIDR (TrimSpace cidr) = Some (ip, network) ∧ To4 (net_IP network) ≠ [] ∧
    To4 (ParseIP (TrimSpace server)) ≠ [] ∧ Net.Contains network (To4 (ParseIP (TrimSpace server))) = true.
Proof.
  unfold NativeAwg.validateIPv4Pool. destruct (ParseCIDR (TrimSpace cidr)) as [[ip network]|]; [|done].
  case_bool_decide as Hn; [done|]. case_bool_decide as Hs; [done|]. cbn [orb].
  destruct (_ || _); [done|]. destruct (Net.Contains network (To4 _)) eqn:Hc; [|done]. intros _. by exists ip, network.
Qed.

Lemma check_all_range l :
  NativeAwg.check_all (fun item : string * Z => if (item.2 <? 0) || (NativeAwg.MaxParameterValue <? item.2)
    then Err ("amneziawg " +:+ item.1 +:+ " must be between 1 and " +:+ NativeAwg.Itoa NativeAwg.MaxParameterValue) else Ok tt) l = Ok tt →
  Forall (fun v => 0 <= v <= 65535) l.*2.
Proof.
  intros H%NativeAwg.check_all_Ok. apply Forall_fmap. eapply list.Forall_impl; [exact H|]. intros [n v]. cbn.
  destruct (_ || _) eqn:E; [done|]. intros _. apply orb_false_iff in E as [?%Z.ltb_ge E%Z.ltb_ge]. unfold NativeAwg.MaxParameterValue in E. lia.
Qed.

(** The parameters a validated configuration carries. *)
Record parameters_ok (o : AmneziaWGObfuscation) (timings : gmap string string) : Prop := {
  po_timings : Command.timings_of (awg_TimingsJSON o) = Ok timings;
  po_validate : AwgConfig.Validate (NativeAwg.headers o) (NativeAwg.signatures o) (awg_ContentPaddingAddition o) timings = Ok tt;
  po_range : Forall (fun v => 0 <= v <= 65535) [awg_JC o; awg_JMin o; awg_JMax o; awg_S1 o; awg_S2 o; awg_S3 o; awg_S4 o];
  po_sizes : awg_HeaderProtectionKey o ≠ EmptyString → 12 <= awg_S1 o ∧ 12 <= awg_S2 o ∧ 12 <= awg_S3 o ∧ 12 <= awg_S4 o;
  po_junk : awg_JMin o <= awg_JMax o;
}.

Lemma validateAmneziaWGParameters_parameters o :
  NativeAwg.validateAmneziaWGParameters o = Ok tt → ∃ timings, parameters_ok o timings.
Proof.
  unfold NativeAwg.validateAmneziaWGParameters. intros (timings & Ht & H)%bind_Ok. exists timings.
  apply bind_Ok in H as ([] & Hv & H). apply bind_Ok in H as ([] & Hk & H). apply bind_Ok in H as ([] & Hr & H). split; [exact Ht|done|..].
  - apply check_all_range in Hr. exact Hr.
  - intros Hne. rewrite bool_decide_eq_false_2 in Hk by done. destruct (Base64.DecodeStd _) as [key ok]. destruct (negb ok || _); [done|].
    destruct (_ || _ || _ || _) eqn:E; [done|]. rewrite !orb_false_iff, !Z.ltb_ge in E. lia.
  - destruct (Z.ltb_spec (awg_JMax o) (awg_JMin o)); [done|]. lia.
Qed.

Lemma key_text_ok label v x :
  NativeAwg.validateConfigValue label v = Ok x → TrimSpace v ≠ EmptyString ∧ ContainsAny (TrimSpace v) (ascii_of_nat <$> [13; 10; 0]%nat) = false.
Proof.
  unfold NativeAwg.validateConfigValue. case_bool_decide as Hne; [done|]. destruct (NativeAwg.hasControlChar _) eqn:E; [done|]. intros _.
  split; [done|]. unfold ContainsAny. cbn [fmap list_fmap existsb]. unfold NativeAwg.hasControlChar in E.
  assert (H : ∀ n, (n < 32)%nat → contains_byte (ascii_of_nat n) (TrimSpace v) = false).
  { intros n Hn. eapply NativeAwg.control_runes_byte; [|done|exact E]. rewrite nat_ascii_embedding; lia. }
  by rewrite !H by lia.
Qed.

(** The interface a configuration asks for. *)
Definition interface_of (c : AmneziaWGNodeConfig) (timings : gmap string string) (bits : Z) : InterfaceConfig :=
  let o := awg_Obfuscation c in
  mkInterfaceConfig timings (awg_RandomTrailers o) (awg_DisableCookies o) (TrimSpace (awg_ServerPrivateKey c))
    (awg_HeaderProtectionKey o) (awg_ContentPaddingAddition o)
    (IP_String (To4 (ParseIP (TrimSpace (awg_ServerIPv4 c)))) +:+ "/" +:+ Strconv.FormatInt bits) (awg_ListenPort c)
    (awg_JC o) (awg_JMin o) (awg_JMax o) (awg_S1 o) (awg_S2 o) (awg_S3 o) (awg_S4 o)
    (awg_H1 o) (awg_H2 o) (awg_H3 o) (awg_H4 o) (awg_I1 o) (awg_I2 o) (awg_I3 o) (awg_I4 o) (awg_I5 o).

Lemma uint32_small z : 0 <= z <= 65535 → uint32 z = z.
Proof. intros. unfold uint32. apply Z.mod_small. lia. Qed.

Lemma Mask_Size_CIDR n : 0 <= n <= 32 → Reconcile.Mask_Size (CIDRMask 4 n) = (n, 32).
Proof.
  intros Hn. assert (H : Forall (fun n => Reconcile.Mask_Size (CIDRMask 4 n) = (n, 32)) (seqZ 0 33))
    by (apply (bool_decide_unpack _); by vm_compute).
  rewrite list.Forall_forall in H. apply H, elem_of_seqZ. lia.
Qed.

Lemma defaultString_set v d : TrimSpace v ≠ EmptyString → NativeAwg.defaultString v d = TrimSpace v.
Proof. unfold NativeAwg.defaultString. by destruct (TrimSpace v). Qed.

Lemma range_fold l :
  Forall (fun v => 0 <= v <= 65535) l →
  foldlR (fun (_ : unit) value => if value <? 0 then Err "server_config value must be greater than zero"
    else if Reconcile.maxAmneziaWGParamValue <? value then Err "server_config value must be <= 65535" else Ok tt) l tt = Ok tt.
Proof.
  unfold Reconcile.maxAmneziaWGParamValue. induction 1 as [|v l Hv _ IH]; [done|]. cbn [foldlR].
  destruct (Z.ltb_spec v 0); [lia|]. destruct (Z.ltb_spec 65535 v); [lia|]. exact IH.
Qed.

Lemma agent_accepts c p :
  NativeAwg.ValidateNodeConfig ToASCII c = Ok tt → 0 < awg_ConfigVersionMS c → 1 <= awg_ListenPort c <= 65535 → TrimSpace (awg_ServerIPv4 c) ≠ EmptyString →
  awg_ClientIPv4CIDR c = Netip.Prefix_String p → Netip.Is4 (Netip.Address p) = true → Netip.valid_prefix p → 1 <= Netip.Bits p →
  ∃ command timings, Command.EditServerConfig ToASCII c = Ok command ∧ ec_NodeId command = awg_NodeID c ∧
    ec_Revision command = uint64 (awg_ConfigVersionMS c) ∧ Command.timings_of (awg_TimingsJSON (awg_Obfuscation c)) = Ok timings ∧
    Reconcile.interfaceConfigFromProto (ec_ServerConfig command) = Ok (interface_of c timings (Netip.Bits p)).
Proof.
  intros Hv Hver Hport Hserver Hcidr H4 Hvp Hbits. pose proof Hv as [_ Hpool [key Hkey] Hpar]%ValidateNodeConfig_validated.
  apply validateAmneziaWGParameters_parameters in Hpar as (timings & [Ht Hval Hrange Hsizes Hjunk]).
  eexists _, timings. unfold Command.EditServerConfig. rewrite Hv. cbn [mbind result_bind].
  destruct (Z.leb_spec (awg_ConfigVersionMS c) 0); [lia|]. rewrite Ht. cbn [mbind result_bind]. split_and!; [done..|].
  destruct (Netip.Prefix_String_trimmed p H4) as [Htrim Hne]. rewrite <-Hcidr in Htrim, Hne.
  rewrite !defaultString_set in Hpool by congruence. apply validateIPv4Pool_Ok in Hpool as (ip & network & Hcut & Hn4 & Hs4 & Hin).
  rewrite TrimSpace_idem in Hs4, Hin. rewrite Htrim in Hcut.
  assert (Hmask : net_Mask network = CIDRMask 4 (Netip.Bits p)).
  { rewrite Htrim, Hcidr in Hcut. destruct (Netip.ParseCIDR_String p H4 Hvp) as (ip' & _ & E).
    rewrite E in Hcut. by injection Hcut as _ <-. }
  apply key_text_ok in Hkey as [Hk1 Hk2]. unfold Reconcile.interfaceConfigFromProto, Command.server_config. cbv zeta.
  cbn [ec_ServerConfig sv_Jc sv_Jmin sv_Jmax sv_S1 sv_S2 sv_S3 sv_S4 sv_H1 sv_H2 sv_H3 sv_H4 sv_I1 sv_I2 sv_I3 sv_I4 sv_I5
    sv_ServerPrivateKey sv_ServerIpv4 sv_ClientIpv4Cidr sv_ListenPort sv_HeaderProtectionKey sv_ContentPaddingAddition sv_Timings
    sv_RandomTrailers sv_DisableCookies]. rewrite (bool_decide_eq_false_2 _ Hk1), Hk2. cbn [orb].
  rewrite Htrim in *. rewrite Hcut, (bool_decide_eq_false_2 _ Hs4), (bool_decide_eq_false_2 _ Hn4), Hin. cbn [orb negb].
  assert (Hb32 : 0 <= Netip.Bits p <= 32) by (destruct Hvp as [_ Hb]; by rewrite H4 in Hb).
  rewrite Hmask, Mask_Size_CIDR by done. cbn [negb orb Z.eqb]. destruct (Z.ltb_spec (Netip.Bits p) 1); [lia|].
  repeat match goal with H : Forall _ (_ :: _) |- _ => apply list.Forall_cons in H as [? H] end.
  rewrite !uint32_small by lia. set (o := awg_Obfuscation c) in *.
  change (mkInterfaceConfig _ _ _ _ _ _ _ _ _ _ _ _ _ _ _ _ _ _ _ _ _ _ _ _) with (interface_of c timings (Netip.Bits p)).
  cbn [if_ListenPort interface_of]. destruct (Z.ltb_spec (awg_ListenPort c) 1); [lia|]. destruct (Z.ltb_spec 65535 (awg_ListenPort c)); [lia|]. cbn [orb].
  rewrite range_fold by (unfold Reconcile.interface_values, interface_of; cbn; repeat first [apply list.Forall_nil_2|apply list.Forall_cons_2; [done|]]). cbn [mbind result_bind].
  cbn [if_H1 if_H2 if_H3 if_H4 if_I1 if_I2 if_I3 if_I4 if_I5 if_ContentPaddingAddition if_Timings interface_of].
  unfold NativeAwg.headers, NativeAwg.signatures in Hval. fold o. rewrite Hval. cbn [mbind result_bind].
  cbn [if_JMax if_JMin if_HeaderProtectionKey if_S1 if_S2 if_S3 if_S4 interface_of]. fold o.
  destruct (Z.ltb_spec (awg_JMax o) (awg_JMin o)); [lia|]. case_bool_decide as Hh; [done|]. destruct (Hsizes Hh) as (? & ? & ? & ?).
  by rewrite !(proj2 (Z.ltb_ge _ _)) by lia.
Qed.

(** Every configuration is stored under its node. *)
Definition configs_keyed (s : Server) : Prop := ∀ id c, amneziawg_node_configs s !! id = Some c → awg_NodeID c = id.

(** The row that saving leaves, and the command for it. *)
Lemma saved_row X (laws : NetipxLaws X) clock config expected s s' c :
  configs_keyed s → Save ToASCII X clock config expected s = (s', inl c) → 0 < awg_ConfigVersionMS c →
  ∃ row command timings bits, amneziawg_node_configs s' !! awg_NodeID c = Some row ∧ awg_ConfigVersionMS row = awg_ConfigVersionMS c ∧
    Command.EditServerConfig ToASCII row = Ok command ∧ ec_NodeId command = awg_NodeID c ∧
    ec_Revision command = uint64 (awg_ConfigVersionMS c) ∧ 16 <= bits <= 30 ∧
    Command.timings_of (awg_TimingsJSON (awg_Obfuscation c)) = Ok timings ∧
    Reconcile.interfaceConfigFromProto (ec_ServerConfig command) = Ok (interface_of c timings bits).
Proof.
  intros Hkeyed. unfold Save. destruct (Prepare ToASCII X config) as [c0|] eqn:Hp; [|done].
  apply (Prepare_spec ToASCII X laws) in Hp as (server & net & [Hserver _ _ Hvp H4 Hbits [Hs4 _] _ _ _ Htext Hports Hchecked]). destruct (RangeOfPrefix _ _) as [from to].
  destruct (reissue_all _ _); [|done]. set (c1 := stamp_settings _ _ c0).
  destruct (UpdateAmneziaWGNodeConfig _ _ _ _) as [s1 [|]] eqn:E; [|done]. intros [= <- <-] Hver.
  apply UpdateAmneziaWGNodeConfig_Ok in E as (old & Hold & _ & Hcfg & _).
  set (row := replace_amneziawg c1 old). assert (Hid : awg_NodeID row = awg_NodeID c1) by exact (Hkeyed _ _ Hold).
  change (NativeAwg.ValidateNodeConfig ToASCII c0) with (NativeAwg.ValidateNodeConfig ToASCII row) in Hchecked.
  pose proof (vd_port _ (ValidateNodeConfig_validated _ Hchecked)) as Hport.
  assert (Hport' : 1 <= awg_ListenPort row <= 65535).
  { change (awg_ListenPort row) with (awg_ListenPort c0) in *. change (awg_EndpointPort row) with (awg_EndpointPort c0) in *.
    rewrite Hports in *. unfold NativeAwg.defaultInt in Hport. by destruct (awg_EndpointPort c0 =? 0). }
  destruct (Netip.ParseAddr_trimmed _ _ Hserver Hs4) as [Htrim Hne].
  destruct (agent_accepts row net) as (command & timings & Hcmd & Hn & Hr & Ht & Hi);
    [done|done|done| |exact Htext|done|done|lia|].
  { change (awg_ServerIPv4 row) with (awg_ServerIPv4 c0). by rewrite Htrim. }
  exists row, command, timings, (Netip.Bits net). split_and!; [by rewrite Hcfg, lookup_insert_eq|done|done|congruence|done|lia|lia|done|done].
Qed.
End Agreement.

(** ** Delivery *)

(** The two databases of the control plane and the rest of the world, which a
    request may act on. *)
Record Plane (R : Type) := mkPlane {
  pl_store : Server;
  pl_queue : SQLStore;
  pl_rest : R;
}.
Arguments mkPlane {R} _ _ _.
Arguments pl_store {R} _.
Arguments pl_queue {R} _.
Arguments pl_rest {R} _.

Section Delivery.
Context (ToASCII : string → option string) {R : Type}.
Context `{!Proto EditServerConfig, !Proto ServerConfigApplyResult, !Proto AuthRefresh, !Proto AuthRefreshResult}.
(** [agentRequester.Request] for a node and a request. *)
Context (Request : string → string → ServerMessage → goM (Plane R) AgentMessage).
Implicit Types (w : Plane R) (outbox : Message) (clock : nat → time).

Definition on_queue (f : SQLStore → SQLStore) w : Plane R := mkPlane (pl_store w) (f (pl_queue w)) (pl_rest w).
Definition record_result (nodeID : string) (version : Z) (errorID : string) w : Plane R :=
  mkPlane (SetAmneziaWGConfigResult nodeID version errorID (pl_store w)).1 (pl_queue w) (pl_rest w).

(** [MarkFailed] without and with another attempt in a second. *)
Definition fail_finally clock (id errMsg : string) : Plane R → Plane R := on_queue (MarkFailed (clock 1%nat) id errMsg zero_time).
Definition try_again clock (id errMsg : string) : Plane R → Plane R :=
  on_queue (MarkFailed (clock 1%nat) id errMsg (Add (clock 0%nat) Second)).

Definition enqueueServerConfig (now : time) (newID nodeID : string) : goM (Plane R) unit := fun w =>
  match (config ← GetAmneziaWGNodeConfig nodeID (pl_store w); command ← Command.EditServerConfig ToASCII config; Marshal command) with
  | Err e => (w, Err e)
  | Ok raw =>
      (on_queue (Enqueue now (mkMessage newID nodeID DirectionOutbound "edit_server_config" raw StatusPending zero_time
                                (Add now (24 * Hour)) zero_time zero_time EmptyString EmptyString)) w, Ok tt)
  end.

Definition RefreshAmneziaWGAuth (now : time) (newID nodeID accountID : string) (snapshotVersionMS : Z)
    : goM (Plane R) AuthRefreshResult := fun w =>
  match Marshal (mkAuthRefresh nodeID accountID (TimeUnixMilli now) snapshotVersionMS) with
  | Err e => (w, Err e)
  | Ok raw =>
      (on_queue (Enqueue now (mkMessage newID nodeID DirectionOutbound "auth_refresh" raw StatusPending zero_time
                                (Add now (24 * Hour)) zero_time zero_time EmptyString EmptyString)) w,
       Ok (mkAuthRefreshResult nodeID accountID "queued" EmptyString EmptyString snapshotVersionMS))
  end.

Definition dispatchAuthRefresh clock (nodeID : string) outbox w : Plane R :=
  match Unmarshal (m_Payload outbox) with
  | Err e => fail_finally clock (m_ID outbox) e w
  | Ok refresh =>
      match Request nodeID (m_ID outbox) (mkServerMessage "auth_refresh" (m_ID outbox) (Some refresh) None None) w with
      | (w, Err e) => try_again clock (m_ID outbox) e w
      | (w, Ok res) =>
          match ag_AuthRefreshResult res with
          | None => fail_finally clock (m_ID outbox) "missing amnezia auth refresh result" w
          | Some r =>
              if bool_decide (fr_Status r = "ok" ∨ fr_Status r = "applied") then
                match Marshal r with
                | Err e => fail_finally clock (m_ID outbox) ("marshal auth refresh result: " +:+ e) w
                | Ok raw => on_queue (MarkAcked (m_ID outbox) raw) w
                end
              else fail_finally clock (m_ID outbox) (or_default (fr_Error r) ("amnezia auth refresh status " +:+ fr_Status r)) w
          end
      end
  end.

Definition validateServerConfigApplyResult (nodeID : string) (command : EditServerConfig) (requestID : string)
    (r : ServerConfigApplyResult) : string :=
  if negb (bool_decide (ar_NodeId r = ec_NodeId command)) || negb (bool_decide (ar_NodeId r = nodeID))
  then "server config apply result node_id mismatch"
  else if negb (ar_DesiredRevision r =? ec_Revision command) || negb (ar_AppliedRevision r =? ec_Revision command)
  then "server config apply result revision mismatch"
  else if negb (bool_decide (ar_CorrelationId r = requestID)) then "server config apply result correlation_id mismatch"
  else EmptyString.

(** The message the agent gets for a queued command. *)
Definition config_message outbox (command : EditServerConfig) : ServerMessage :=
  mkServerMessage (m_Type outbox) (m_ID outbox) None (Some command) None.

(** What is done with the answer of the agent. *)
Definition settle clock (newID nodeID : string) outbox (command : EditServerConfig) (r : ServerConfigApplyResult) w : Plane R :=
  if Client.config_ok r then
    match validateServerConfigApplyResult nodeID command (m_ID outbox) r with
    | EmptyString =>
        match Marshal r with
        | Err e => fail_finally clock (m_ID outbox) ("marshal server config apply result: " +:+ e) w
        | Ok raw => on_queue (MarkAcked (m_ID outbox) raw) (record_result nodeID (int64_of (ec_Revision command)) EmptyString w)
        end
    | errMsg => fail_finally clock (m_ID outbox) errMsg w
    end
  else
    fail_finally clock (m_ID outbox) (or_default (ar_Error r) ("server config apply status " +:+ ar_Status r))
      (record_result nodeID (int64_of (ec_Revision command)) newID w).

Definition dispatchServerConfig clock (newID nodeID : string) outbox w : Plane R :=
  match Unmarshal (m_Payload outbox) with
  | Err e => fail_finally clock (m_ID outbox) e w
  | Ok command =>
      match GetAmneziaWGNodeConfig nodeID (pl_store w) with
      | Err e => try_again clock (m_ID outbox) e w
      | Ok current =>
          if negb (uint64 (awg_ConfigVersionMS current) =? ec_Revision command)
          then on_queue (MarkExpired (m_ID outbox) "superseded configuration") w
          else
            match Request nodeID (m_ID outbox) (config_message outbox command) w with
            | (w, Err e) => try_again clock (m_ID outbox) e w
            | (w, Ok res) =>
                match ag_ServerConfigApplyResult res with
                | None => fail_finally clock (m_ID outbox) "missing server config apply result" w
                | Some r => settle clock newID nodeID outbox command r w
                end
            end
      end
  end.

Definition dispatch clock (newID nodeID : string) outbox : Plane R → Plane R :=
  if bool_decide (m_Type outbox = "auth_refresh") then dispatchAuthRefresh clock nodeID outbox
  else if bool_decide (m_Type outbox = "edit_server_config") then dispatchServerConfig clock newID nodeID outbox
  else fail_finally clock (m_ID outbox) ("unsupported outbox message type " +:+ m_Type outbox).

(** The loop over the leased messages; [clock] and [newID] serve each of them. *)
Fixpoint dispatch_all (clock : nat → nat → time) (newID : nat → string) (nodeID : string) (l : list Message) w : Plane R :=
  match l with
  | [] => w
  | m :: l => dispatch_all (fun i => clock (S i)) (fun i => newID (S i)) nodeID l (dispatch (clock 0%nat) (newID 0%nat) nodeID m w)
  end.

Definition dispatchOutboxOnce (requeue lease : time) (clock : nat → nat → time) (newID : nat → string) (nodeID : string)
    (limit : Z) (leaseFor : duration) w : Plane R :=
  let queue := RequeueExpiredLeases requeue nodeID (pl_queue w) in
  let '(messages, queue) := LeasePending lease nodeID limit leaseFor queue in
  dispatch_all clock newID nodeID messages (mkPlane (pl_store w) queue (pl_rest w)).

(** One turn of the loop of [dispatchOutbox], up to the commands, which only
    send messages; the version queued last goes on to the next turn. *)
Definition turn (now requeue lease : time) (clock : nat → nat → time) (messageID : string) (newID : nat → string)
    (nodeID : string) (queuedVersion : Z) : goM (Plane R) Z := fun w =>
  match GetAmneziaWGNodeConfig nodeID (pl_store w) with
  | Err e => (w, Err e)
  | Ok config =>
      if awg_ConfigVersionMS config =? queuedVersion
      then (dispatchOutboxOnce requeue lease clock newID nodeID 10 (30 * Second) w, Ok queuedVersion)
      else match enqueueServerConfig now messageID nodeID w with
           | (w, Err e) => (w, Err e)
           | (w, Ok _) => (dispatchOutboxOnce requeue lease clock newID nodeID 10 (30 * Second) w, Ok (awg_ConfigVersionMS config))
           end
  end.
End Delivery.

(** ** What is recorded as applied *)
Section Recorded.
Context (ToASCII : string → option string) {R : Type}.
Context `{!Proto EditServerConfig, !Proto ServerConfigApplyResult, !Proto AuthRefresh, !Proto AuthRefreshResult}.
Context (Request : string → string → ServerMessage → goM (Plane R) AgentMessage).

(** The world the answer of the agent finds, and the answer. *)
Definition asked (nodeID : string) (outbox : Message) (w : Plane R) : Plane R * result AgentMessage :=
  match Unmarshal (m_Payload outbox), GetAmneziaWGNodeConfig nodeID (pl_store w) with
  | Ok command, Ok current =>
      if uint64 (awg_ConfigVersionMS current) =? ec_Revision command
      then Request nodeID (m_ID outbox) (config_message outbox command) w else (w, Err EmptyString)
  | _, _ => (w, Err EmptyString)
  end.

(** The answer confirms version [v] of the request. *)
Definition confirms (nodeID : string) (outbox : Message) (v : Z) (answer : result AgentMessage) : Prop :=
  ∃ res r, answer = Ok res ∧ ag_ServerConfigApplyResult res = Some r ∧ (ar_Status r = "ok" ∨ ar_Status r = "applied") ∧
    ar_NodeId r = nodeID ∧ ar_CorrelationId r = m_ID outbox ∧ ar_DesiredRevision r = ar_AppliedRevision r ∧
    int64_of (ar_AppliedRevision r) = v.

Lemma validate_empty nodeID command id r :
  validateServerConfigApplyResult nodeID command id r = EmptyString →
  ar_NodeId r = nodeID ∧ ec_NodeId command = nodeID ∧ ar_DesiredRevision r = ec_Revision command ∧
  ar_AppliedRevision r = ec_Revision command ∧ ar_CorrelationId r = id.
Proof.
  unfold validateServerConfigApplyResult. repeat case_bool_decide; cbn; try done; destruct (Z.eqb_spec (ar_DesiredRevision r) (ec_Revision command)),
    (Z.eqb_spec (ar_AppliedRevision r) (ec_Revision command)); cbn; try done. intros _. split_and!; congruence.
Qed.

Lemma record_result_row nodeID v e (w : Plane R) id c c' :
  amneziawg_node_configs (pl_store w) !! id = Some c → amneziawg_node_configs (pl_store (record_result nodeID v e w)) !! id = Some c' →
  c' = c ∨ (id = nodeID ∧ awg_ConfigVersionMS c = v ∧ c' = set_amneziawg_result v e c).
Proof.
  intros Hc. unfold record_result, SetAmneziaWGConfigResult. cbn. destruct (decide (nodeID = id)) as [<-|].
  - rewrite lookup_alter_eq, Hc. cbn. destruct (Z.eqb_spec (awg_ConfigVersionMS c) v); intros [= <-]; [by right|by left].
  - rewrite lookup_alter_ne by done. rewrite Hc. intros [= <-]. by left.
Qed.

(** The outcome is the world of the answer with at most the result recorded. *)
Lemma dispatched clock newID nodeID outbox w :
  newID ≠ EmptyString →
  let w1 := (asked nodeID outbox w).1 in
  let w' := dispatchServerConfig Request clock newID nodeID outbox w in
  pl_store w' = pl_store w1 ∨
  ∃ command, (pl_store w' = pl_store (record_result nodeID (int64_of (ec_Revision command)) EmptyString w1) ∧
      confirms nodeID outbox (int64_of (ec_Revision command)) (asked nodeID outbox w).2) ∨
    pl_store w' = pl_store (record_result nodeID (int64_of (ec_Revision command)) newID w1).
Proof.
  intros Hid. unfold asked, dispatchServerConfig. destruct (Unmarshal (m_Payload outbox)) as [command|]; [|by left].
  destruct (GetAmneziaWGNodeConfig nodeID (pl_store w)) as [current|]; [|by left].
  destruct (_ =? _); cbn [negb]; [|by left]. destruct (Request _ _ _ w) as [w1 [res|e]]; [|by left]. cbn.
  destruct (ag_ServerConfigApplyResult res) as [r|] eqn:Hr; [|by left]. unfold settle. destruct (Client.config_ok r) eqn:Hok.
  - destruct (validateServerConfigApplyResult _ _ _ _) eqn:Hv; [|by left]. destruct (Marshal r); [|by left]. right. exists command. left.
    split; [done|]. apply validate_empty in Hv as (H1 & _ & H2 & H3 & H4). apply bool_decide_eq_true in Hok.
    exists res, r. split_and!; [done..|congruence|congruence].
  - right. exists command. by right.
Qed.

(** C12. The control plane believes only what the agent confirmed.  Whatever the
    request does and whatever else happens to the database meanwhile, the
    dispatch of a queued configuration changes the applied version of a node
    only to the version its settings have at that moment, and only when the
    agent answered this very request, for this node, with success, naming that
    version both as the one it was asked for and as the one it applied; the
    error of an earlier attempt is then cleared. *)
Theorem applied_version_confirmed clock newID nodeID outbox w id c c' :
  newID ≠ EmptyString →
  let w1 := (asked nodeID outbox w).1 in
  amneziawg_node_configs (pl_store w1) !! id = Some c →
  amneziawg_node_configs (pl_store (dispatchServerConfig Request clock newID nodeID outbox w)) !! id = Some c' →
  awg_AppliedConfigVersionMS c' ≠ awg_AppliedConfigVersionMS c →
  id = nodeID ∧ awg_AppliedConfigVersionMS c' = awg_ConfigVersionMS c ∧ awg_ConfigErrorID c' = EmptyString ∧
  confirms nodeID outbox (awg_ConfigVersionMS c) (asked nodeID outbox w).2.
Proof.
  intros Hid w1 Hc Hc' Hne. destruct (dispatched clock newID nodeID outbox w Hid) as [E|(command & [[E Hconf]|E])].
  - rewrite E in Hc'. fold w1 in Hc'. congruence.
  - rewrite E in Hc'. fold w1 in Hc'. destruct (record_result_row _ _ _ _ _ _ _ Hc Hc') as [->|(-> & Hv & ->)]; [done|].
    cbn. rewrite Hv. by split_and!.
  - rewrite E in Hc'. fold w1 in Hc'. destruct (record_result_row _ _ _ _ _ _ _ Hc Hc') as [->|(-> & Hv & ->)]; [done|].
    exfalso. apply Hne. cbn. by rewrite bool_decide_eq_false_2.
Qed.
End Recorded.
