(* ===== verification/SettingsPath.v ===== *)
(** * SettingsPath: saved settings on their way to the interface

    The parts of [ConfigDelivery] and [AwgAgent] put together: the control
    plane dispatches the queued settings of a node, again and again, to the
    client of its agent over a network that may lose the message or the answer
    of any attempt; the client calls the reconciler, which sets up the
    interface. *)

From S2P Require Import Prelude GoLib GoText GoNet GoNetip AwgConfig Sql Queue ServerModel NativeAwg ServerStore StoreInvariant.
From S2P Require Import SyncProtocol ServerManifest AmneziaSettings AwgAgent ConfigDelivery.
From Stdlib Require Import Ascii.
Import GoStrings GoTime.
Local Open Scope Z_scope.

(** What becomes of a request: the message or its answer is lost, or not. *)
Inductive fate := Lost | AnswerLost | Answered.

(** One round of the dispatching loop: the heartbeats of the agent before it,
    with the times they read; the times the control plane reads, the identifiers
    it makes, the time at the agent and what the network does. *)
Record attempt := mkAttempt {
  at_beats : list (time * time * time);
  at_requeue : time;
  at_lease : time;
  at_clock : nat → nat → time;
  at_ids : nat → string;
  at_agent : time;
  at_fate : fate;
}.

Section Path.
Context {W : Type} (tools : Tools W).
Context (refresh : AuthRefresh → goM W unit) (execute : RuntimeCommand → W → W * option RuntimeCommandResult).
Context `{!Proto EditServerConfig, !Proto ServerConfigApplyResult, !Proto AuthRefresh, !Proto AuthRefreshResult, !Proto RuntimeCommandResult}.
Context (nodeID : string).

(** The delegate of the agent, with the reconciler of [AwgAgent]. *)
Definition agent_delegate : Delegate W :=
  mkDelegate refresh (fun command w => let '(w, r) := Reconcile.EditServerConfig (Some tools) (Some command) w in (w, Some r)) execute.

Definition at_agent_side (f : Agent W → Agent W) (w : Plane (Agent W)) : Plane (Agent W) :=
  mkPlane (pl_store w) (pl_queue w) (f (pl_rest w)).

(** The first message with the identifier of the request among the new ones. *)
Definition answer (requestID : string) (before after : Agent W) : option AgentMessage :=
  snd <$> list_find (fun m => ag_RequestId m = requestID) (drop (length (an_sent before)) (an_sent after)).

Definition timed_out : error := "context deadline exceeded".

Definition link (now : time) (f : fate) (node requestID : string) (msg : ServerMessage) : goM (Plane (Agent W)) AgentMessage := fun w =>
  let handled := at_agent_side (Client.HandleIncoming nodeID agent_delegate now msg) w in
  match f with
  | Lost => (w, Err timed_out)
  | AnswerLost => (handled, Err timed_out)
  | Answered => match answer requestID (pl_rest w) (pl_rest handled) with
                | Some reply => (handled, Ok reply)
                | None => (handled, Err timed_out)
                end
  end.

Definition heartbeats (l : list (time * time * time)) (a : Agent W) : Agent W :=
  foldl (fun a '(now, now_out, now_in) => Client.heartbeat nodeID now now_out now_in a) a l.

Definition run_attempt (a : attempt) (w : Plane (Agent W)) : Plane (Agent W) :=
  dispatchOutboxOnce (link (at_agent a) (at_fate a)) (at_requeue a) (at_lease a) (at_clock a) (at_ids a) nodeID 10 (30 * Second)
    (at_agent_side (heartbeats (at_beats a)) w).

Definition run_attempts (l : list attempt) (w : Plane (Agent W)) : Plane (Agent W) := foldl (fun w a => run_attempt a w) w l.

(** When the next attempt may find the message. *)
Definition retry_at (a : attempt) : time := Add (at_clock a 0%nat 0%nat) Second.

(** The attempt comes when the message is due and not yet expired, and the two
    readings of the clock for the next one are less than a second apart. *)
Record in_time (available expires : Z) (a : attempt) : Prop := {
  it_requeue : TimeUnixMilli (at_requeue a) < expires;
  it_lease : available <= TimeUnixMilli (at_lease a) < expires;
  it_clock : at_clock a 0%nat 1%nat < retry_at a;
  it_zero : retry_at a ≠ zero_time;
}.

Fixpoint all_in_time (available expires : Z) (l : list attempt) : Prop :=
  match l with
  | [] => True
  | a :: l => in_time available expires a ∧ all_in_time (UnixMilli (retry_at a)) expires l
  end.

(** No clean-up of the agent comes more than an hour after an attempt. *)
Definition within_hour (l : list attempt) : Prop :=
  ∀ a b beat, a ∈ l → b ∈ l → beat ∈ at_beats b → TimeUnixMilli beat.2 <= TimeUnixMilli (at_agent a) + Milliseconds Hour.

(** ** The message in the queue *)
Section Queued.
Context (mid raw : string) (expires : Z).

Record queued_row (r : row) : Prop := {
  qr_key : row_key r = (nodeID, mid);
  qr_type : type_ r = "edit_server_config";
  qr_payload : j_Payload (mustDecodeMessageJSON (input_json r)) = raw;
  qr_expires : expires_at_ms r = Some expires;
}.

(** The only message for the node is there, with this status. *)
Record queued (st : Status) (available : Z) (q : SQLStore) : Prop := {
  qu_wf : table_wf (outbox q);
  qu_row : ∃ r, outbox q !! (nodeID, mid) = Some r ∧ queued_row r ∧ status r = st ∧ available_at_ms r = available;
  qu_only : ∀ k r, outbox q !! k = Some r → actor_id r = nodeID → k = (nodeID, mid);
}.

Lemma rows_of_actor (q : SQLStore) (f : row → row) P :
  (∀ k r, outbox q !! k = Some r → actor_id r = nodeID → k = (nodeID, mid)) → (∀ r, actor_id (f r) = actor_id r) →
  ∀ k r, sql_update P f (outbox q) !! k = Some r → actor_id r = nodeID → k = (nodeID, mid).
Proof.
  intros Ho Hf k r. rewrite lookup_sql_update. destruct (outbox q !! k) as [r0|] eqn:E; [|done]. cbn. intros [= <-] Ha.
  apply (Ho k r0 E). destruct (P r0); [by rewrite <-Hf|done].
Qed.

(** A pending message that has not expired is not requeued but stays. *)
Lemma requeue_keeps now available q :
  TimeUnixMilli now < expires → queued StatusPending available q → queued StatusPending available (RequeueExpiredLeases now nodeID q).
Proof.
  intros Hexp [Hwf (r & Hr & Hq & Hs & Ha) Ho]. split.
  - exact (requeueExpiredLeases_wf now nodeID _ Hwf).
  - exists r. split_and!; [|done..]. unfold RequeueExpiredLeases, requeueExpiredLeases. cbn [outbox]. rewrite !lookup_sql_update, Hr. cbn.
    rewrite Hs. rewrite (bool_decide_eq_false_2 (StatusPending = StatusInFlight)) by done. rewrite andb_false_r. cbn.
    unfold not_expired. rewrite (qr_expires r Hq), (proj2 (Z.ltb_lt _ _) Hexp). by rewrite andb_false_r.
  - unfold RequeueExpiredLeases, requeueExpiredLeases. cbn [outbox]. intros k x Hk.
    eapply (rows_of_actor (mkStore _ (inbox q)) (set_status StatusExpired)); [|done|exact Hk]. cbn [outbox].
    by apply (rows_of_actor q (set_status StatusPending)).
Qed.

(** The lease returns the message and nothing else. *)
Lemma lease_single now limit leaseFor available q :
  1 <= limit → queued StatusPending available q → available <= TimeUnixMilli now < expires →
  ∃ r q', LeasePending now nodeID limit leaseFor q = ([scanMessage DirectionOutbound r], q') ∧ queued_row r ∧
    queued StatusInFlight (TimeUnixMilli (Add now leaseFor)) q' ∧ inbox q' = inbox q.
Proof.
  intros Hlim [Hwf (r & Hr & Hq & Hs & Ha) Ho] Ht. unfold LeasePending.
  pose proof (leasePending_facts now DirectionOutbound nodeID limit leaseFor (outbox q) Hwf) as Hspec.
  destruct (leasePending now DirectionOutbound nodeID limit leaseFor (outbox q)) as [msgs t] eqn:E.
  destruct Hspec as (rows & -> & Hnd & _ & _ & Hsound & Hfull & Hlook).
  pose proof (qr_key r Hq) as Hkey. injection Hkey as Hactor Hrid.
  assert (Hdue : due nodeID (TimeUnixMilli now) r = true).
  { unfold due, not_expired. rewrite Hactor, Hs, (qr_expires r Hq), Ha, !bool_decide_eq_true_2 by done.
    rewrite (proj2 (Z.leb_le _ _)), (proj2 (Z.ltb_lt _ _)) by lia. done. }
  assert (Hall : ∀ x, x ∈ rows → x = r).
  { intros x [Hdx Hx]%Hsound. assert (Hax : actor_id x = nodeID).
    { unfold due in Hdx. rewrite !andb_true_iff in Hdx. by destruct Hdx as [[[?%bool_decide_eq_true _] _] _]. }
    rewrite (Ho _ _ Hx Hax), Hr in Hx. by injection Hx. }
  assert (Hin : r ∈ rows).
  { destruct (decide (r ∈ rows)) as [|Hn]; [done|]. destruct (Hfull _ _ Hr Hdue Hn) as [Hl _]. exfalso. destruct rows as [|x rows].
    { cbn in Hl. unfold lease_limit in Hl. destruct (Z.leb_spec limit 0); lia. }
    apply Hn. rewrite (Hall x) by by left. by left. }
  assert (rows = [r]) as ->.
  { destruct rows as [|x [|y rows]]; [by apply elem_of_nil in Hin|by rewrite (Hall x) by by left|].
    apply list.NoDup_cons in Hnd as [Hx _]. rewrite (Hall x), (Hall y) in Hx by (by left || (right; by left)). exfalso. apply Hx. by left. }
  exists r, (mkStore t (inbox q)). split_and!; [done|done| |done]. split; cbn [outbox].
  - pose proof (leasePending_wf now DirectionOutbound nodeID limit leaseFor (outbox q) Hwf) as H. by rewrite E in H.
  - eexists. rewrite Hlook, Hr. cbn. rewrite bool_decide_eq_true_2 by (by left). split_and!; [done| |done..]. by destruct Hq.
  - intros k x. rewrite Hlook. destruct (outbox q !! k) as [x0|] eqn:Ek; [|done]. cbn. intros [= <-] Hx. apply (Ho k x0 Ek). by case_bool_decide.
Qed.

Lemma retry_queued now errMsg retry st available q :
  now < retry → retry ≠ zero_time → queued st available q → queued StatusPending (UnixMilli retry) (MarkFailed now mid errMsg retry q).
Proof.
  intros Hlt Hz [Hwf (r & Hr & Hq & Hs & Ha) Ho]. pose proof (qr_key r Hq) as Hkey. injection Hkey as Hactor Hrid.
  assert (Hnz : IsZero retry = false) by (by apply Z.eqb_neq). assert (Haft : After retry now = true) by (by apply Z.ltb_lt).
  unfold MarkFailed. rewrite Hnz, Haft. cbn [negb andb]. split; cbn [outbox].
  - by apply sql_update_wf.
  - eexists. rewrite lookup_sql_update, Hr. cbn. rewrite bool_decide_eq_true_2 by done. split_and!; [done| |done..]. by destruct Hq.
  - by apply (rows_of_actor q).
Qed.

Lemma acked_queued result st available q : queued st available q → queued StatusAcked available (MarkAcked mid result q).
Proof.
  intros [Hwf (r & Hr & Hq & Hs & Ha) Ho]. pose proof (qr_key r Hq) as Hkey. injection Hkey as Hactor Hrid. split; cbn [outbox MarkAcked].
  - by apply sql_update_wf.
  - eexists. unfold markDone. rewrite lookup_sql_update, Hr. cbn -[encodeMessageJSON]. rewrite bool_decide_eq_true_2 by done.
    split_and!; [done| |done..]. by destruct Hq.
  - by apply (rows_of_actor q).
Qed.

(** ** The agent *)
Section Agent.
Context (command : EditServerConfig) (iface : InterfaceConfig) (v : Z) (w0 w1 : W) (reply_raw : string).
Context (Hmid : mid ≠ EmptyString) (Hread : Unmarshal raw = Ok command) (Hnode : ec_NodeId command = nodeID)
  (Hrev : ec_Revision command = uint64 v) (Hrange : 0 < v <= max_int64).
Context (Hiface : Reconcile.interfaceConfigFromProto (ec_ServerConfig command) = Ok iface)
  (Hset : tl_SetInterfaceConfig tools iface w0 = (w1, Ok tt)).

Definition good_result : ServerConfigApplyResult := mkApplyResult nodeID (ec_Revision command) (ec_Revision command) mid "applied" EmptyString.
Definition good_reply : AgentMessage := Client.config_reply mid good_result.
Definition the_message : ServerMessage := mkServerMessage "edit_server_config" mid None (Some command) None.

Context (Hreply : Marshal good_result = Ok reply_raw).
Context (beats : list (time * time * time)).

(** A record made at [ms] outlives the heartbeats. *)
Definition outlives (ms : Z) : Prop := ∀ beat, beat ∈ beats → TimeUnixMilli beat.2 <= ms + Milliseconds Hour.

Definition agent_state (done : bool) (a : Agent W) : Prop :=
  an_connected a = true ∧
  if done then an_world a = w1 ∧ ∃ r ok ms res, Client.on_record nodeID mid r a ∧ outlives ms ∧
    Client.record_of mid "edit_server_config" ok ms res r ∧ Client.replay nodeID the_message (scanProcessed r) = Some good_reply
  else an_world a = w0 ∧ inbox (an_transport a) !! (nodeID, mid) = None.

Lemma heartbeats_state done l a : l ⊆ beats → agent_state done a → agent_state done (heartbeats l a).
Proof.
  unfold heartbeats. revert a. induction l as [|[[now now_out] now_in] l IH]; intros a Hl Ha; [done|]. cbn.
  apply IH; [intros x Hx; apply Hl; by right|]. destruct Ha as [Hc Hst]. split; [done|]. destruct done.
  - destruct Hst as (Hw & r & ok & ms & res & Hr & Hout & Hrec & Hrep). split; [done|]. exists r, ok, ms, res. split_and!; [|done..].
    eapply (Client.react_keeps nodeID agent_delegate (Client.Heartbeat now now_out now_in)); [done|right; by left|exact Hrec| |exact Hr].
    apply (Hout (now, now_out, now_in)), Hl. left.
  - destruct Hst as [Hw Hn]. split; [done|]. unfold Client.heartbeat, Cleanup, RequeueExpiredLeases. cbn [an_transport inbox].
    by rewrite lookup_cleanupTable, Hn.
Qed.

Lemma reconciled : Reconcile.EditServerConfig (Some tools) (Some command) w0 =
  (w1, mkApplyResult nodeID (ec_Revision command) (ec_Revision command) EmptyString "applied" EmptyString).
Proof. unfold Reconcile.EditServerConfig. rewrite Hiface, Hset. cbn. by rewrite Hnode. Qed.

Lemma filled : Client.fill_result nodeID command mid
  (mkApplyResult nodeID (ec_Revision command) (ec_Revision command) EmptyString "applied" EmptyString) = good_result.
Proof.
  unfold Client.fill_result, good_result, or_default. cbn. f_equal; [by case_bool_decide|].
  by destruct (Z.eqb_spec (ec_Revision command) 0) as [->|].
Qed.

(** However often the message comes, the agent is in the same state after it
    and gives the same answer. *)
Lemma agent_handles done now a :
  outlives (TimeUnixMilli now) → agent_state done a →
  let a' := Client.HandleIncoming nodeID agent_delegate now the_message a in
  agent_state true a' ∧ an_sent a' = an_sent a ++ [good_reply].
Proof.
  intros Hnow [Hc Hst]. destruct done.
  - destruct Hst as (Hw & r & ok & ms & res & Hr & Hout & Hrec & Hrep).
    rewrite (Client.next_time nodeID agent_delegate now the_message a (scanProcessed r)) by (done || by eapply Client.record_processed). rewrite Hrep.
    destruct (Client.Send_fields good_reply a) as (Et & Ec & Ew & Es). unfold agent_state, Client.on_record. rewrite Et, Ec, Ew, Es, Hc. split; [|done].
    split_and!; [done|done|]. by exists r, ok, ms, res.
  - destruct Hst as [Hw Hp]. unfold Client.HandleIncoming. cbn [sg_RequestId the_message].
    assert (IsProcessed nodeID mid (an_transport a) = None) as Hun by (unfold IsProcessed; by rewrite Hp).
    rewrite bool_decide_eq_false_2, Hun by done.
    cbn [sg_Type the_message]. rewrite (bool_decide_eq_false_2 ("edit_server_config" = "auth_refresh")), (bool_decide_eq_true_2 ("edit_server_config" = _)) by done.
    unfold Client.handleServerConfig. cbn [sg_EditServerConfig the_message sg_RequestId]. rewrite bool_decide_eq_true_2 by done.
    cbn [dl_ApplyServerConfig agent_delegate]. rewrite Hw, reconciled. cbn [default from_option]. unfold Datatypes.id. rewrite filled. fold good_reply.
    destruct (Client.complete_records nodeID now mid "edit_server_config" (Client.config_ok good_result) (ar_Error good_result)
      (Client.marshalled good_result) good_reply (Client.set_world w1 a) Hmid Hp) as (r & Hr & Hrec & Hsent).
    split; [|by rewrite Hsent; cbn; rewrite Hc]. unfold agent_state.
    destruct (Client.complete_fields nodeID now mid "edit_server_config" (Client.config_ok good_result) (ar_Error good_result)
      (Client.marshalled good_result) good_reply (Client.set_world w1 a)) as [-> ->].
    split_and!; [done|done|]. eexists r, _, _, _. split_and!; [exact Hr|exact Hnow|exact Hrec|]. unfold Client.replay. cbn [sg_Type the_message].
    rewrite (bool_decide_eq_false_2 ("edit_server_config" = "auth_refresh")), (bool_decide_eq_true_2 ("edit_server_config" = _)) by done.
    by rewrite (Client.recorded_same ar_Status good_result) by (done || (by rewrite Hreply) || apply Hrec).
Qed.

Definition settings_in (s : Server) : Prop := ∃ c, amneziawg_node_configs s !! nodeID = Some c ∧ awg_ConfigVersionMS c = v.

Lemma int64_of_uint64 : int64_of (uint64 v) = v.
Proof.
  unfold int64_of, uint64. unfold max_int64 in Hrange. rewrite Z.mod_small by lia. by rewrite (proj2 (Z.ltb_lt _ _)) by lia.
Qed.

(** The answer of the agent to the message, whatever came before. *)
Lemma answer_found a a' : an_sent a' = an_sent a ++ [good_reply] → answer mid a a' = Some good_reply.
Proof.
  intros E. unfold answer. rewrite E, drop_app_length. cbn. by rewrite decide_True.
Qed.

Lemma dispatch_outcome now f clock newID m w done :
  outlives (TimeUnixMilli now) → m_ID m = mid → m_Type m = "edit_server_config" → m_Payload m = raw → settings_in (pl_store w) → agent_state done (pl_rest w) →
  match f with
  | Answered => ∃ a', dispatch (link now f) clock newID nodeID m w =
      mkPlane (SetAmneziaWGConfigResult nodeID v EmptyString (pl_store w)).1 (MarkAcked mid reply_raw (pl_queue w)) a' ∧ agent_state true a'
  | _ => ∃ e a' done', dispatch (link now f) clock newID nodeID m w =
      mkPlane (pl_store w) (MarkFailed (clock 1%nat) mid e (Add (clock 0%nat) Second) (pl_queue w)) a' ∧ agent_state done' a'
  end.
Proof.
  intros Hnow Eid Etype Epay (c & Hc & Hv) Ha. destruct (agent_handles done now (pl_rest w) Hnow Ha) as [Ha' Hsent].
  assert (Hd : dispatch (link now f) clock newID nodeID m w =
    match link now f nodeID mid the_message w with
    | (w, Err e) => try_again clock mid e w
    | (w, Ok res) => match ag_ServerConfigApplyResult res with
                     | None => fail_finally clock mid "missing server config apply result" w
                     | Some r => settle clock newID nodeID m command r w
                     end
    end).
  { unfold dispatch. rewrite Etype. rewrite (bool_decide_eq_false_2 (_ = "auth_refresh")), (bool_decide_eq_true_2 (_ = "edit_server_config")) by done.
    unfold dispatchServerConfig, GetAmneziaWGNodeConfig, get_row. rewrite Epay, Hread, Hc, Hv, Hrev, Z.eqb_refl, Eid. cbn [negb].
    unfold config_message, the_message. by rewrite Etype, Eid. }
  rewrite Hd. unfold link. destruct f.
  - unfold try_again, on_queue. eexists _, _, done. split; [reflexivity|done].
  - unfold try_again, on_queue, at_agent_side. cbn. eexists _, _, true. split; [reflexivity|done].
  - cbn [pl_rest at_agent_side]. rewrite (answer_found _ _ Hsent). cbn [ag_ServerConfigApplyResult good_reply Client.config_reply].
    eexists. split; [|exact Ha']. unfold settle. rewrite Eid.
    assert (Hok : Client.config_ok good_result = true) by reflexivity. rewrite Hok.
    assert (Hval : validateServerConfigApplyResult nodeID command mid good_result = EmptyString).
    { unfold validateServerConfigApplyResult, good_result. cbn. by rewrite Hnode, !bool_decide_eq_true_2, !Z.eqb_refl by done. }
    rewrite Hval, Hreply, Hrev, int64_of_uint64. reflexivity.
Qed.

Lemma run_attempt_outcome a w done available :
  outlives (TimeUnixMilli (at_agent a)) → at_beats a ⊆ beats →
  queued StatusPending available (pl_queue w) → settings_in (pl_store w) → agent_state done (pl_rest w) → in_time available expires a →
  match at_fate a with
  | Answered => pl_store (run_attempt a w) = (SetAmneziaWGConfigResult nodeID v EmptyString (pl_store w)).1 ∧
      agent_state true (pl_rest (run_attempt a w)) ∧ ∃ until, queued StatusAcked until (pl_queue (run_attempt a w))
  | _ => pl_store (run_attempt a w) = pl_store w ∧ (∃ done', agent_state done' (pl_rest (run_attempt a w))) ∧
      queued StatusPending (UnixMilli (retry_at a)) (pl_queue (run_attempt a w))
  end.
Proof.
  intros Hnow Hbeats Hq Hs Ha%(heartbeats_state done (at_beats a)) [H1 H2 H3 H4]; [|done].
  unfold run_attempt, dispatchOutboxOnce, at_agent_side. cbn [pl_store pl_queue pl_rest]. apply (requeue_keeps (at_requeue a)) in Hq; [|done].
  destruct (lease_single (at_lease a) 10 (30 * Second) available _ ltac:(lia) Hq H2) as (r & q' & -> & Hr & Hq' & _). cbn [dispatch_all].
  pose proof (qr_key r Hr) as Hkey. injection Hkey as _ Hrid.
  pose proof (dispatch_outcome (at_agent a) (at_fate a) (at_clock a 0%nat) (at_ids a 0%nat) (scanMessage DirectionOutbound r)
    (mkPlane (pl_store w) q' (heartbeats (at_beats a) (pl_rest w))) done Hnow Hrid (qr_type r Hr) (qr_payload r Hr) Hs Ha) as Hout.
  destruct (at_fate a).
  - destruct Hout as (e & a' & done' & -> & Ha'). cbn. split_and!; [done|by exists done'|]. by eapply retry_queued.
  - destruct Hout as (e & a' & done' & -> & Ha'). cbn. split_and!; [done|by exists done'|]. by eapply retry_queued.
  - destruct Hout as (a' & -> & Ha'). cbn [pl_store pl_queue pl_rest]. split_and!; [done|done|]. eexists. by eapply acked_queued.
Qed.

Lemma run_attempts_outcome l last w done available :
  Forall (fun a => at_fate a ≠ Answered) l → at_fate last = Answered → all_in_time available expires (l ++ [last]) →
  (∀ a, a ∈ l ++ [last] → outlives (TimeUnixMilli (at_agent a)) ∧ at_beats a ⊆ beats) →
  queued StatusPending available (pl_queue w) → settings_in (pl_store w) → agent_state done (pl_rest w) →
  let w' := run_attempts (l ++ [last]) w in
  pl_store w' = (SetAmneziaWGConfigResult nodeID v EmptyString (pl_store w)).1 ∧ an_world (pl_rest w') = w1 ∧
  ∃ until, queued StatusAcked until (pl_queue w').
Proof.
  intros Hl Hlast. revert w done available. induction Hl as [|a l Ha Hl IH]; intros w done available Ht Hb Hq Hs Hag; cbn in Ht.
  - destruct Ht as [Ht _]. destruct (Hb last) as [Hnow Hbeats]; [by apply list_elem_of_singleton|].
    pose proof (run_attempt_outcome last w done available Hnow Hbeats Hq Hs Hag Ht) as Hout. rewrite Hlast in Hout.
    destruct Hout as (E & [_ [Hw _]] & Hq'). cbv zeta. change (run_attempts ([] ++ [last]) w) with (run_attempt last w). by split_and!.
  - destruct Ht as [Ht Ht']. destruct (Hb a) as [Hnow Hbeats]; [left|].
    pose proof (run_attempt_outcome a w done available Hnow Hbeats Hq Hs Hag Ht) as Hout.
    assert (Hout' : pl_store (run_attempt a w) = pl_store w ∧ (∃ done', agent_state done' (pl_rest (run_attempt a w))) ∧
      queued StatusPending (UnixMilli (retry_at a)) (pl_queue (run_attempt a w))) by (destruct (at_fate a); done).
    destruct Hout' as (E & [done' Hag'] & Hq'). 
    pose proof (IH (run_attempt a w) done' (UnixMilli (retry_at a)) Ht' (fun x Hx => Hb x ltac:(by right)) Hq' ltac:(by rewrite E) Hag') as H. rewrite E in H. exact H.
Qed.
End Agent.
End Queued.
End Path.

(** ** From saving to the interface *)
Section EndToEnd.
Context (ToASCII : string → option string) {W : Type} (tools : Tools W).
Context (refresh : AuthRefresh → goM W unit) (execute : RuntimeCommand → W → W * option RuntimeCommandResult).
Context `{!Proto EditServerConfig, !Proto ServerConfigApplyResult, !Proto AuthRefresh, !Proto AuthRefreshResult, !Proto RuntimeCommandResult}.

Lemma enqueued_queued now mid nodeID (w w' : Plane (Agent W)) config command :
  enqueueServerConfig ToASCII now mid nodeID w = (w', Ok tt) → GetAmneziaWGNodeConfig nodeID (pl_store w) = Ok config →
  Command.EditServerConfig ToASCII config = Ok command → table_wf (outbox (pl_queue w)) →
  (∀ k r, outbox (pl_queue w) !! k = Some r → actor_id r ≠ nodeID) → Add now (24 * Hour) ≠ zero_time → now ≠ zero_time →
  ∃ raw, Unmarshal raw = Ok command ∧ pl_store w' = pl_store w ∧ pl_rest w' = pl_rest w ∧
    queued nodeID mid raw (UnixMilli (Add now (24 * Hour))) StatusPending (UnixMilli now) (pl_queue w').
Proof.
  intros Henq Hc Hcmd Hwf Hnone Hz Hz0. unfold enqueueServerConfig in Henq. rewrite Hc in Henq. cbn [mbind result_bind] in Henq.
  rewrite Hcmd in Henq. cbn [mbind result_bind] in Henq. destruct (Marshal command) as [raw|] eqn:Hm; [|done].
  apply Unmarshal_Marshal in Hm as Hu. injection Henq as <-. exists raw. split_and!; [done..|]. cbn [pl_queue on_queue].
  set (msg := mkMessage _ _ _ _ _ _ _ _ _ _ _ _). pose proof (writeMessage_wf now msg true _ Hwf) as Hwf'.
  assert (Hfree : outbox (pl_queue w) !! (nodeID, mid) = None).
  { apply eq_None_not_Some. intros [r Hr]. apply (Hnone _ _ Hr). pose proof (Hwf _ _ Hr) as E. by injection E. }
  assert (Hnew : ∀ k, writeMessage now msg true (outbox (pl_queue w)) !! k =
    if decide (k = (nodeID, mid)) then Some (message_row (message_defaults now msg)) else outbox (pl_queue w) !! k).
  { intros k. unfold writeMessage. rewrite lookup_sql_upsert. change (row_key (message_row (message_defaults now msg))) with (nodeID, mid).
    destruct (decide (k = (nodeID, mid))) as [->|]; [by rewrite decide_True, Hfree|by rewrite decide_False by congruence]. }
  split; [exact Hwf'|..]; cbn [outbox Enqueue].
  - eexists. rewrite Hnew, decide_True by done. split_and!; [reflexivity| |done|].
    + split; [done|done| |].
      * cbn [input_json message_row]. rewrite mustDecode_encode. done.
      * cbn. unfold UnixMilliOrNil. assert (Hi : IsZero (Add now (24 * Hour)) = false) by (by apply Z.eqb_neq). by rewrite Hi.
    + reflexivity.
  - intros k r. rewrite Hnew. case_decide as Hk; [by rewrite Hk|]. intros Hr Ha. by destruct (Hnone _ _ Hr).
Qed.

(** C10. Settings that were saved reach the interface, when the tools take them.
    Let the settings of a node be saved and their command be the only message
    queued for the node, and its agent be connected and without a record of it.
    Let the network lose the message or the answer of any number of attempts,
    each made when the message is due and before it expires, and let the agent
    clean its queue meanwhile, though not more than an hour after an attempt.
    If the tools accept the settings, then after the first attempt that gets
    through they have been set on the interface exactly once, as they were
    saved; the database records their version as applied, without an error; and
    the message is acknowledged.  (Rows are stored under their keys, the version
    is a positive 64-bit number, the message has an identifier, its reply can be
    marshalled, no time is the zero time, and the two readings of the clock that
    put off the next attempt are less than a second apart.) *)
Theorem settings_reach_interface X (laws : NetipxLaws X) clock config expected s s' c q a now mid w :
  configs_keyed s → Save ToASCII X clock config expected s = (s', inl c) → 0 < awg_ConfigVersionMS c <= max_int64 →
  table_wf (outbox q) → (∀ k r, outbox q !! k = Some r → actor_id r ≠ awg_NodeID c) →
  mid ≠ EmptyString → an_connected a = true → inbox (an_transport a) !! (awg_NodeID c, mid) = None →
  now ≠ zero_time → Add now (24 * Hour) ≠ zero_time →
  enqueueServerConfig ToASCII now mid (awg_NodeID c) (mkPlane s' q a) = (w, Ok tt) →
  let revision := uint64 (awg_ConfigVersionMS c) in
  is_ok (Marshal (mkApplyResult (awg_NodeID c) revision revision mid "applied" EmptyString)) = true →
  ∃ timings bits, Command.timings_of (awg_TimingsJSON (awg_Obfuscation c)) = Ok timings ∧ 16 <= bits <= 30 ∧
    ∀ w1 l last, tl_SetInterfaceConfig tools (interface_of c timings bits) (an_world a) = (w1, Ok tt) →
      Forall (fun x => at_fate x ≠ Answered) l → at_fate last = Answered →
      all_in_time (UnixMilli now) (UnixMilli (Add now (24 * Hour))) (l ++ [last]) → within_hour (l ++ [last]) →
      let w' := run_attempts tools refresh execute (awg_NodeID c) (l ++ [last]) w in
      an_world (pl_rest w') = w1 ∧
      (∃ row, amneziawg_node_configs (pl_store w') !! awg_NodeID c = Some row ∧
         awg_AppliedConfigVersionMS row = awg_ConfigVersionMS c ∧ awg_ConfigErrorID row = EmptyString) ∧
      (∃ r, outbox (pl_queue w') !! (awg_NodeID c, mid) = Some r ∧ status r = StatusAcked).
Proof.
  intros Hkeyed Hsave Hv Hwf Hnone Hmid Hconn Hfresh Hz0 Hz Henq revision Hmarshal.
  destruct (saved_row ToASCII X laws clock config expected s s' c Hkeyed Hsave ltac:(lia))
    as (row & command & timings & bits & Hrow & Hver & Hcmd & Hnode & Hrev & Hbits & Ht & Hi).
  exists timings, bits. split_and!; [done|lia|lia|]. intros w1 l last Hset Hl Hlast Htime Hhour w'.
  destruct (enqueued_queued now mid (awg_NodeID c) _ w row command Henq) as (raw & Hu & Es & Er & Hq); [|done..|].
  { unfold GetAmneziaWGNodeConfig, get_row. cbn. by rewrite Hrow. }
  destruct (Marshal (mkApplyResult _ revision _ _ _ _)) as [reply_raw|] eqn:Hm; [|done].
  assert (Hg : Marshal (good_result (awg_NodeID c) mid command) = Ok reply_raw) by (unfold good_result; by rewrite Hrev).
  assert (Hin : settings_in (awg_NodeID c) (awg_ConfigVersionMS c) (pl_store w)) by (exists row; by rewrite Es).
  set (beats := (l ++ [last]) ≫= at_beats).
  assert (Hag : agent_state (awg_NodeID c) mid command (an_world a) w1 beats false (pl_rest w)) by (by rewrite Er).
  assert (Hbeats : ∀ x, x ∈ l ++ [last] → outlives beats (TimeUnixMilli (at_agent x)) ∧ at_beats x ⊆ beats).
  { intros x Hx. split.
    - intros beat (y & Hb & Hy)%list_elem_of_bind. by eapply Hhour.
    - intros beat Hb. apply list_elem_of_bind. by exists x. }
  destruct (run_attempts_outcome tools refresh execute (awg_NodeID c) mid raw (UnixMilli (Add now (24 * Hour))) command
    (interface_of c timings bits) (awg_ConfigVersionMS c) (an_world a) w1 reply_raw Hmid Hu Hnode Hrev Hv Hi Hset Hg beats l last w false (UnixMilli now)
    Hl Hlast Htime Hbeats Hq Hin Hag) as (E1 & E2 & until & [_ (r & Hr & _ & Hs & _) _]).
  split_and!; [exact E2| |by exists r]. fold w' in E1. rewrite E1, Es. cbn.
  rewrite lookup_alter_eq, Hrow. cbn. rewrite Hver, Z.eqb_refl. eexists. split_and!; [done|done|done].
Qed.
End EndToEnd.

(** ** A wire format and a run *)
Module Wire.

Fixpoint pos_text (p : positive) : string :=
  match p with xH => EmptyString | xO p => String "0" (pos_text p) | xI p => String "1" (pos_text p) end.
Fixpoint text_pos (s : string) : positive :=
  match s with EmptyString => xH | String c s => if bool_decide (c = "1"%char) then xI (text_pos s) else xO (text_pos s) end.

Lemma text_pos_text p : text_pos (pos_text p) = p.
Proof. induction p as [p IH|p IH|]; [..|done]; cbn; by rewrite IH. Qed.

(** The fields of a message one after the other. *)
Definition field : Type := Z + string.

Section Codec.
Context {M : Type} (fields : M → list field) (read : list field → option M) (read_fields : ∀ m, read (fields m) = Some m).

Definition to_wire (m : M) : result string := Ok (pos_text (encode (fields m))).
Definition of_wire (s : string) : result M :=
  match (decode (text_pos s) : option (list field)) with
  | Some l => match read l with Some m => Ok m | None => Err "proto: cannot parse" end
  | None => Err "proto: cannot parse"
  end.

Lemma of_to_wire m raw : to_wire m = Ok raw → of_wire raw = Ok m.
Proof using read_fields. intros [= <-]. unfold of_wire. rewrite text_pos_text, decode_encode. by rewrite read_fields. Qed.

Definition codec : Proto M := {| Marshal := to_wire; Unmarshal := of_wire; Unmarshal_Marshal := of_to_wire |}.
End Codec.

Definition bool_field (b : bool) : field := inl (if b then 1 else 0).

Definition timing_fields (m : gmap string string) : list field := flat_map (fun kv => [inr kv.1; inr kv.2]) (map_to_list m).
Fixpoint read_pairs (l : list field) : list (string * string) :=
  match l with inr k :: inr v :: l => (k, v) :: read_pairs l | _ => [] end.

Lemma read_timing_fields m : list_to_map (read_pairs (timing_fields m)) = m.
Proof.
  unfold timing_fields. assert (H : ∀ l, read_pairs (flat_map (fun kv : string * string => [inr kv.1; inr kv.2]) l) = l).
  { induction l as [|[k v] l IH]; [done|]. cbn. by rewrite IH. }
  rewrite H. apply list_to_map_to_list.
Qed.

Definition config_fields (c : ServerConfig) : list field :=
  [inl (sv_Jc c); inl (sv_Jmin c); inl (sv_Jmax c); inl (sv_S1 c); inl (sv_S2 c); inl (sv_S3 c); inl (sv_S4 c);
   inr (sv_H1 c); inr (sv_H2 c); inr (sv_H3 c); inr (sv_H4 c); inr (sv_I1 c); inr (sv_I2 c); inr (sv_I3 c); inr (sv_I4 c); inr (sv_I5 c);
   inr (sv_ServerPrivateKey c); inr (sv_ServerIpv4 c); inr (sv_ClientIpv4Cidr c); inl (sv_ListenPort c); inr (sv_HeaderProtectionKey c);
   inr (sv_ContentPaddingAddition c); bool_field (sv_RandomTrailers c); bool_field (sv_DisableCookies c)] ++ timing_fields (sv_Timings c).

Definition read_config (l : list field) : option ServerConfig :=
  match l with
  | inl jc :: inl jmin :: inl jmax :: inl s1 :: inl s2 :: inl s3 :: inl s4 :: inr h1 :: inr h2 :: inr h3 :: inr h4 ::
    inr i1 :: inr i2 :: inr i3 :: inr i4 :: inr i5 :: inr key :: inr ip :: inr cidr :: inl port :: inr header :: inr padding ::
    inl trailers :: inl cookies :: timings =>
      Some (mkServerConfig jc jmin jmax s1 s2 s3 s4 h1 h2 h3 h4 i1 i2 i3 i4 i5 key ip cidr port header padding
              (list_to_map (read_pairs timings)) (negb (trailers =? 0)) (negb (cookies =? 0)))
  | _ => None
  end.

Definition edit_fields (m : EditServerConfig) : list field :=
  inr (ec_NodeId m) :: inl (ec_Revision m) :: match ec_ServerConfig m with None => [] | Some c => config_fields c end.
Definition read_edit (l : list field) : option EditServerConfig :=
  match l with
  | [inr node; inl revision] => Some (mkEditServerConfig node revision None)
  | inr node :: inl revision :: l => c ← read_config l; Some (mkEditServerConfig node revision (Some c))
  | _ => None
  end.

Lemma read_edit_fields m : read_edit (edit_fields m) = Some m.
Proof.
  destruct m as [node revision [c|]]; [|done]. destruct c. cbn. rewrite read_timing_fields.
  repeat match goal with b : bool |- _ => destruct b end; reflexivity.
Qed.

Definition result_fields (r : ServerConfigApplyResult) : list field :=
  [inr (ar_NodeId r); inl (ar_DesiredRevision r); inl (ar_AppliedRevision r); inr (ar_CorrelationId r); inr (ar_Status r); inr (ar_Error r)].
Definition read_result (l : list field) : option ServerConfigApplyResult :=
  match l with
  | [inr node; inl desired; inl applied; inr correlation; inr status; inr error] => Some (mkApplyResult node desired applied correlation status error)
  | _ => None
  end.

Definition refresh_fields (r : AuthRefresh) : list field :=
  [inr (af_NodeId r); inr (af_AccountId r); inl (af_ManifestStartedAt r); inl (af_SnapshotVersionMs r)].
Definition read_refresh (l : list field) : option AuthRefresh :=
  match l with [inr node; inr account; inl started; inl version] => Some (mkAuthRefresh node account started version) | _ => None end.

Definition refreshed_fields (r : AuthRefreshResult) : list field :=
  [inr (fr_NodeId r); inr (fr_AccountId r); inr (fr_Status r); inr (fr_Message r); inr (fr_Error r); inl (fr_AppliedSnapshotVersionMs r)].
Definition read_refreshed (l : list field) : option AuthRefreshResult :=
  match l with
  | [inr node; inr account; inr status; inr message; inr error; inl version] => Some (mkAuthRefreshResult node account status message error version)
  | _ => None
  end.

Definition command_fields (r : RuntimeCommandResult) : list field := [inr (cr_CommandId r); inr (cr_Status r); inr (cr_Message r); inr (cr_Error r)].
Definition read_command (l : list field) : option RuntimeCommandResult :=
  match l with [inr id; inr status; inr message; inr error] => Some (mkRuntimeCommandResult id status message error) | _ => None end.

Lemma read_result_fields m : read_result (result_fields m) = Some m.
Proof. by destruct m. Qed.
Lemma read_refresh_fields m : read_refresh (refresh_fields m) = Some m.
Proof. by destruct m. Qed.
Lemma read_refreshed_fields m : read_refreshed (refreshed_fields m) = Some m.
Proof. by destruct m. Qed.
Lemma read_command_fields m : read_command (command_fields m) = Some m.
Proof. by destruct m. Qed.

#[export] Instance edit_proto : Proto EditServerConfig := codec edit_fields read_edit read_edit_fields.
#[export] Instance result_proto : Proto ServerConfigApplyResult := codec result_fields read_result read_result_fields.
#[export] Instance refresh_proto : Proto AuthRefresh := codec refresh_fields read_refresh read_refresh_fields.
#[export] Instance refreshed_proto : Proto AuthRefreshResult :=
  codec refreshed_fields read_refreshed read_refreshed_fields.
#[export] Instance command_proto : Proto RuntimeCommandResult := codec command_fields read_command read_command_fields.
End Wire.
Import Wire.

(** An interface that remembers how it was set up. *)
Definition demo_tools : Tools (list InterfaceConfig) :=
  mkTools (mret []) (fun _ _ => mret tt) (fun _ => mret tt) (fun c w => (w ++ [c], Ok tt)).
Definition no_refresh : AuthRefresh → goM (list InterfaceConfig) unit := fun _ => mret tt.
Definition no_execute : RuntimeCommand → list InterfaceConfig → list InterfaceConfig * option RuntimeCommandResult := fun _ w => (w, None).

Definition demo_agent : Agent (list InterfaceConfig) := mkAgent (mkStore ∅ ∅) true [] [].
Definition demo_enqueued : Plane (Agent (list InterfaceConfig)) * result unit :=
  enqueueServerConfig Some (TimeFromUnixMilli 2100) "msg-1" (awg_NodeID demo_saved) (mkPlane demo_save.1 (mkStore ∅ ∅) demo_agent).
Definition demo_attempt (ms : Z) (f : fate) : attempt :=
  mkAttempt [(TimeFromUnixMilli ms, TimeFromUnixMilli ms, TimeFromUnixMilli ms)] (TimeFromUnixMilli ms) (TimeFromUnixMilli ms) (fun _ _ => TimeFromUnixMilli ms) (fun _ => "error-1") (TimeFromUnixMilli ms) f.

Lemma demo_enqueued_Ok : demo_enqueued = (demo_enqueued.1, Ok tt).
Proof.
  assert (H : demo_enqueued.2 = Ok tt) by (vm_compute; reflexivity). rewrite <-H. by destruct demo_enqueued.
Qed.

Lemma demo_keyed : configs_keyed demo_awg.
Proof.
  intros id c. assert (H : amneziawg_node_configs demo_awg = {[ "awg" := default (NativeAwg.demo_config EmptyString) (amneziawg_node_configs demo_awg !! "awg") ]}).
  { vm_compute. reflexivity. }
  rewrite H. rewrite lookup_singleton_Some. intros [<- <-]. vm_compute. reflexivity.
Qed.

Definition demo_attempts : list attempt := [demo_attempt 2200 Lost; demo_attempt 3500 AnswerLost].

Lemma demo_version : 0 < awg_ConfigVersionMS demo_saved <= max_int64.
Proof. assert (H : awg_ConfigVersionMS demo_saved = 2000) by (vm_compute; reflexivity). rewrite H. vm_compute. by split. Qed.

Lemma demo_in_time :
  all_in_time (UnixMilli (TimeFromUnixMilli 2100)) (UnixMilli (Add (TimeFromUnixMilli 2100) (24 * Hour)))
    (demo_attempts ++ [demo_attempt 5000 Answered]).
Proof. cbn [all_in_time demo_attempts app]. repeat split; vm_compute; congruence. Qed.

Lemma demo_within_hour : within_hour (demo_attempts ++ [demo_attempt 5000 Answered]).
Proof.
  assert (H : Forall (fun a => Forall (fun b => Forall (fun beat => TimeUnixMilli beat.2 <= TimeUnixMilli (at_agent a) + Milliseconds Hour)
    (at_beats b)) (demo_attempts ++ [demo_attempt 5000 Answered])) (demo_attempts ++ [demo_attempt 5000 Answered])).
  { repeat constructor; vm_compute; congruence. }
  intros a b beat Ha Hb Hbeat. rewrite list.Forall_forall in H. specialize (H a Ha). rewrite list.Forall_forall in H. specialize (H b Hb).
  rewrite list.Forall_forall in H. by apply H.
Qed.

Lemma demo_unseen : inbox (an_transport demo_agent) !! (awg_NodeID demo_saved, "msg-1") = None.
Proof. apply lookup_empty. Qed.

Lemma demo_no_rows (P : row → Prop) (k : string * string) r : outbox (mkStore ∅ ∅) !! k = Some r → P r.
Proof. cbn. by intros ?%lookup_empty_Some. Qed.

Lemma settings_reach_interface_witness :
  ∃ timings bits, an_world (pl_rest (run_attempts demo_tools no_refresh no_execute (awg_NodeID demo_saved)
    (demo_attempts ++ [demo_attempt 5000 Answered]) demo_enqueued.1)) = [interface_of demo_saved timings bits].
Proof.
  destruct (settings_reach_interface Some demo_tools no_refresh no_execute halving halving_laws (fun _ => Samples.at_ms 2000) demo_new_settings 1
    demo_awg demo_save.1 demo_saved (mkStore ∅ ∅) demo_agent (TimeFromUnixMilli 2100) "msg-1" demo_enqueued.1 demo_keyed demo_save_Ok demo_version
    (fun k r => demo_no_rows (fun r => row_key r = k) k r) (fun k r => demo_no_rows (fun r => actor_id r ≠ awg_NodeID demo_saved) k r)
    ltac:(discriminate) eq_refl demo_unseen ltac:(discriminate) ltac:(discriminate) demo_enqueued_Ok eq_refl) as (timings & bits & _ & _ & H).
  exists timings, bits. destruct (H [interface_of demo_saved timings bits] demo_attempts (demo_attempt 5000 Answered) eq_refl
    ltac:(repeat constructor; discriminate) eq_refl demo_in_time demo_within_hour) as [E _]. exact E.
Defined.

(** The same message twice at the agent. *)
Definition demo_command_message : ServerMessage :=
  mkServerMessage "runtime_command" "msg-2" None None (Some (mkRuntimeCommand "cmd-1" "RestartAWG" 0 0)).
Definition counting : Delegate nat :=
  mkDelegate (fun _ => mret tt) (fun _ w => (w, None)) (fun c w => (S w, Some (mkRuntimeCommandResult (co_Id c) "ok" "restarted" ""))).
Definition idle_agent : Agent nat := mkAgent (mkStore ∅ ∅) true [] 0%nat.

Definition demo_first : Agent nat := Client.HandleIncoming "awg" counting 0 demo_command_message idle_agent.
Definition demo_beat : Client.event :=
  Client.Heartbeat (TimeFromUnixMilli 60000) (TimeFromUnixMilli 60000) (TimeFromUnixMilli 60000).
Definition demo_again : Agent nat :=
  Client.HandleIncoming "awg" counting 1 demo_command_message (Client.react "awg" counting demo_beat demo_first).

Lemma message_handled_once_witness : an_world demo_again = an_world demo_first ∧ length (an_sent demo_again) = 2%nat.
Proof.
  destruct (message_handled_once "awg" counting 0 demo_command_message idle_agent ltac:(discriminate)
    (or_intror (or_intror (conj eq_refl (mk_is_Some _ _ eq_refl)))) (lookup_empty _)) as (reply & _ & H).
  destruct (H [demo_beat] 1 ltac:(repeat constructor; vm_compute; congruence)) as (H1 & _ & _). split; [exact H1|]. vm_compute. reflexivity.
Defined.

(** A confirmed configuration. *)
Definition demo_payload : string :=
  match (row ← amneziawg_node_configs demo_save.1 !! "awg"; match Command.EditServerConfig Some row with Ok c => Some c | Err _ => None end) with
  | Some command => Client.marshalled command
  | None => EmptyString
  end.
Definition demo_outbox : Message :=
  mkMessage "msg-1" "awg" DirectionOutbound "edit_server_config" demo_payload StatusInFlight 0 0 0 0 EmptyString EmptyString.
Definition confirming : string → string → ServerMessage → goM (Plane unit) AgentMessage := fun _ _ _ w =>
  (w, Ok (Client.config_reply "msg-1" (mkApplyResult "awg" 2000 2000 "msg-1" "applied" ""))).
Definition demo_plane : Plane unit := mkPlane demo_save.1 (mkStore ∅ ∅) tt.
Definition demo_dispatched : Plane unit := dispatchServerConfig confirming (fun _ => 0) "error-1" "awg" demo_outbox demo_plane.

Lemma demo_rows :
  ∃ c c', amneziawg_node_configs (pl_store (asked confirming "awg" demo_outbox demo_plane).1) !! "awg" = Some c ∧
    amneziawg_node_configs (pl_store demo_dispatched) !! "awg" = Some c' ∧ awg_AppliedConfigVersionMS c' = 2000 ∧ awg_AppliedConfigVersionMS c = 0.
Proof.
  assert (H : match amneziawg_node_configs (pl_store (asked confirming "awg" demo_outbox demo_plane).1) !! "awg",
    amneziawg_node_configs (pl_store demo_dispatched) !! "awg" with
    | Some c, Some c' => (awg_AppliedConfigVersionMS c', awg_AppliedConfigVersionMS c) = (2000, 0) | _, _ => False end) by (vm_compute; reflexivity).
  destruct (amneziawg_node_configs (pl_store (asked _ _ _ _).1) !! "awg") as [c|]; [|done].
  destruct (amneziawg_node_configs (pl_store demo_dispatched) !! "awg") as [c'|]; [|done]. exists c, c'. by injection H as -> ->.
Qed.

Lemma applied_version_confirmed_witness :
  ∃ c, awg_AppliedConfigVersionMS c = 0 ∧ confirms "awg" demo_outbox (awg_ConfigVersionMS c) (asked confirming "awg" demo_outbox demo_plane).2.
Proof.
  destruct demo_rows as (c & c' & Hc & Hc' & Ha' & Ha). exists c. split; [done|].
  destruct (applied_version_confirmed confirming (fun _ => 0) "error-1" "awg" demo_outbox demo_plane "awg" c c' ltac:(discriminate) Hc Hc'
    ltac:(rewrite Ha, Ha'; discriminate)) as (_ & _ & _ & H). exact H.
Defined.
