(* ===== verification/StreamHub.v ===== *)
(** * StreamHub: the streams between the control plane and its agents

    [src/internal/server/agentprotocol/server_stream.go]: one session per
    connected agent, each with a loop that reads, a loop that writes and a loop
    that processes messages, and requests that wait for the reply with their
    identifier.  The goroutines interleave at the points where they lock, send
    or receive, so one [action] is one such step of one of them and a run is any
    list of actions that are possible in turn.  Channels are bounded lists.

    Proved: a reply reaches only the request it answers and was read from the
    session of the node that was asked; of the sessions of a node only the one
    the hub names stays open; and a second answer taken up between the time-out
    of a request and its clean-up stops the processing of the session for
    ever. *)

From S2P Require Import Prelude.

Section Hub.
Context {In Out : Type} (RequestID : In → string).

(** ** State *)

(** How far [Connect] has come: [Register] has entered the session and has still
    to close the one it replaced; the loops run; [Unregister] has left the hub
    and has still to close the session. *)
Inductive phase := Registering (previous : option nat) | Running | Unregistering | Gone.

(** The loop over incoming messages: waiting for one, about to hand one over to
    the request that waits for it, or at its end. *)
Inductive process := Selecting | Delivering (request : nat) (msg : In) | Stopped.

Record StreamNode := mkStreamNode {
  sn_nodeID : string;
  sn_installationID : string;
  sn_phase : phase;
  sn_cancelled : bool;                (* the context of the stream *)
  sn_done : bool;
  sn_send : list Out;
  sn_incoming : list In;
  sn_pending : gmap string nat;       (* the channel of a request is its number *)
  sn_process : process;
  sn_read : list In;                  (* what the stream has delivered *)
  sn_written : list Out;              (* what was written to the stream *)
  sn_handled : list In;               (* what reached the router *)
}.

Definition sendBuffer : nat := 64.
Definition incomingBuffer : nat := 128.

Definition NewStreamNode (nodeID installationID : string) (previous : option nat) : StreamNode :=
  mkStreamNode nodeID installationID (Registering previous) false false [] [] ∅ Selecting [] [] [].

Inductive outcome := Reply (msg : In) | ErrAgentNodeNotConnected | ErrAgentSessionReplaced | ErrContext.

(** Where a call of [Request] is. *)
Inductive progress := Found | Sending | Waiting | Leaving (o : outcome) | Returned (o : outcome).

Record request := mkRequest {
  rq_nodeID : string;
  rq_id : string;
  rq_msg : Out;
  rq_session : option nat;
  rq_channel : list In;
  rq_progress : progress;
}.

Record state := mkState {
  hub : gmap string nat;
  sessions : gmap nat StreamNode;
  requests : gmap nat request;
}.

Definition empty_hub : state := mkState ∅ ∅ ∅.

(** ** Field updates *)
Definition set_phase p n := mkStreamNode (sn_nodeID n) (sn_installationID n) p (sn_cancelled n) (sn_done n) (sn_send n)
  (sn_incoming n) (sn_pending n) (sn_process n) (sn_read n) (sn_written n) (sn_handled n).
Definition set_cancelled n := mkStreamNode (sn_nodeID n) (sn_installationID n) (sn_phase n) true (sn_done n) (sn_send n)
  (sn_incoming n) (sn_pending n) (sn_process n) (sn_read n) (sn_written n) (sn_handled n).
Definition set_closed n := mkStreamNode (sn_nodeID n) (sn_installationID n) (sn_phase n) (sn_cancelled n) true (sn_send n)
  (sn_incoming n) (sn_pending n) (sn_process n) (sn_read n) (sn_written n) (sn_handled n).
Definition set_send l n := mkStreamNode (sn_nodeID n) (sn_installationID n) (sn_phase n) (sn_cancelled n) (sn_done n) l
  (sn_incoming n) (sn_pending n) (sn_process n) (sn_read n) (sn_written n) (sn_handled n).
Definition set_pending p n := mkStreamNode (sn_nodeID n) (sn_installationID n) (sn_phase n) (sn_cancelled n) (sn_done n) (sn_send n)
  (sn_incoming n) p (sn_process n) (sn_read n) (sn_written n) (sn_handled n).
Definition set_process l p h n := mkStreamNode (sn_nodeID n) (sn_installationID n) (sn_phase n) (sn_cancelled n) (sn_done n) (sn_send n)
  l (sn_pending n) p (sn_read n) (sn_written n) h.
Definition set_read l m n := mkStreamNode (sn_nodeID n) (sn_installationID n) (sn_phase n) (sn_cancelled n) (sn_done n) (sn_send n)
  l (sn_pending n) (sn_process n) (sn_read n ++ [m]) (sn_written n) (sn_handled n).
Definition set_written l o n := mkStreamNode (sn_nodeID n) (sn_installationID n) (sn_phase n) (sn_cancelled n) (sn_done n) l
  (sn_incoming n) (sn_pending n) (sn_process n) (sn_read n) (sn_written n ++ [o]) (sn_handled n).

Definition set_session k n st := mkState (hub st) (<[k := n]> (sessions st)) (requests st).
Definition set_request q r st := mkState (hub st) (sessions st) (<[q := r]> (requests st)).
Definition set_progress p r := mkRequest (rq_nodeID r) (rq_id r) (rq_msg r) (rq_session r) (rq_channel r) p.
Definition set_channel l p r := mkRequest (rq_nodeID r) (rq_id r) (rq_msg r) (rq_session r) l p.

(** ** Steps *)
Inductive action :=
| Register (k : nat) (nodeID installationID : string)
| ClosePrevious (k : nat)
| Unregister (k : nat)
| CloseSelf (k : nat)
| CancelContext (k : nat)
| Read (k : nat) (m : In)
| WriteOne (k : nat)
| SendMessage (k : nat) (o : Out) (taken : bool)
| HandleIncoming (k : nat)
| Deliver (k : nat)
| StopProcessing (k : nat)
| BeginRequest (q : nat) (nodeID id : string) (o : Out)
| AddPending (q : nat)
| SendRequest (q : nat)
| SessionClosed (q : nat)
| ContextEnds (q : nat)
| TakeReply (q : nat)
| RemovePending (q : nat).

Definition ended (n : StreamNode) : bool := sn_cancelled n || sn_done n.
(** The loops run from the end of [Register] on, until they notice that they
    have to stop. *)
Definition running (n : StreamNode) : bool := match sn_phase n with Registering _ => false | _ => true end.

(** *** Sessions *)
Definition register (k : nat) (nodeID installationID : string) (st : state) : option state :=
  match sessions st !! k with
  | Some _ => None
  | None =>
      let previous := hub st !! nodeID in
      Some (mkState (<[nodeID := k]> (hub st)) (<[k := NewStreamNode nodeID installationID previous]> (sessions st)) (requests st))
  end.

(** [previous.close()], then the loops are started. *)
Definition close_previous (k : nat) (st : state) : option state :=
  n ← sessions st !! k;
  match sn_phase n with
  | Registering previous =>
      let sessions' := match previous with
                       | Some p => alter (set_closed ∘ set_cancelled) p (sessions st)
                       | None => sessions st
                       end in
      Some (mkState (hub st) (alter (set_phase Running) k sessions') (requests st))
  | _ => None
  end.

Definition unregister (k : nat) (st : state) : option state :=
  n ← sessions st !! k;
  match sn_phase n with
  | Running =>
      Some (mkState (if bool_decide (hub st !! sn_nodeID n = Some k) then delete (sn_nodeID n) (hub st) else hub st)
              (<[k := set_phase Unregistering n]> (sessions st)) (requests st))
  | _ => None
  end.

Definition close_self (k : nat) (st : state) : option state :=
  n ← sessions st !! k;
  match sn_phase n with
  | Unregistering => Some (set_session k (set_phase Gone (set_closed (set_cancelled n))) st)
  | _ => None
  end.

(** The context of a stream ends when the peer leaves or the call is aborted. *)
Definition cancel_context (k : nat) (st : state) : option state :=
  n ← sessions st !! k; Some (set_session k (set_cancelled n) st).

(** *** Loops *)
Definition readLoop (k : nat) (m : In) (st : state) : option state :=
  n ← sessions st !! k;
  if running n && (length (sn_incoming n) <? incomingBuffer) then Some (set_session k (set_read (sn_incoming n ++ [m]) m n) st) else None.

Definition writeLoop (k : nat) (st : state) : option state :=
  n ← sessions st !! k;
  match sn_send n with
  | o :: rest => if running n then Some (set_session k (set_written rest o n) st) else None
  | [] => None
  end.

(** [StreamNode.Send]: a message that finds no room is dropped, and a closed
    session may take it or drop it. *)
Definition Send (k : nat) (o : Out) (taken : bool) (st : state) : option state :=
  n ← sessions st !! k;
  let room := length (sn_send n) <? sendBuffer in
  if taken then (if room then Some (set_session k (set_send (sn_send n ++ [o]) n) st) else None)
  else if negb room || sn_done n then Some st else None.

(** One message is taken and either goes to the request that waits for it or
    to the router. *)
Definition handleIncoming (k : nat) (st : state) : option state :=
  n ← sessions st !! k;
  match sn_process n, sn_incoming n with
  | Selecting, m :: rest =>
      if running n then
        Some (set_session k
          (match (if bool_decide (RequestID m = EmptyString) then None else sn_pending n !! RequestID m) with
           | Some ch => set_process rest (Delivering ch m) (sn_handled n) n
           | None => set_process rest Selecting (sn_handled n ++ [m]) n
           end) st)
      else None
  | _, _ => None
  end.

(** [ch <- msg], which waits until the channel, of capacity one, has room. *)
Definition deliver (k : nat) (st : state) : option state :=
  n ← sessions st !! k;
  match sn_process n with
  | Delivering q m =>
      r ← requests st !! q;
      match rq_channel r with
      | [] => Some (set_request q (set_channel [m] (rq_progress r) r)
                     (set_session k (set_process (sn_incoming n) Selecting (sn_handled n) n) st))
      | _ => None
      end
  | _ => None
  end.

Definition stop_processing (k : nat) (st : state) : option state :=
  n ← sessions st !! k;
  match sn_process n with
  | Selecting => if ended n then Some (set_session k (set_process (sn_incoming n) Stopped (sn_handled n) n) st) else None
  | _ => None
  end.

(** *** Requests *)
Definition begin_request (q : nat) (nodeID id : string) (o : Out) (st : state) : option state :=
  match requests st !! q with
  | Some _ => None
  | None =>
      Some (set_request q
        (match hub st !! nodeID with
         | Some k => mkRequest nodeID id o (Some k) [] Found
         | None => mkRequest nodeID id o None [] (Returned ErrAgentNodeNotConnected)
         end) st)
  end.

Definition session_of (r : request) (st : state) : option (nat * StreamNode) :=
  k ← rq_session r; n ← sessions st !! k; Some (k, n).

Definition add_pending (q : nat) (st : state) : option state :=
  r ← requests st !! q;
  '(k, n) ← session_of r st;
  match rq_progress r with
  | Found => Some (set_request q (set_progress Sending r) (set_session k (set_pending (<[rq_id r := q]> (sn_pending n)) n) st))
  | _ => None
  end.

Definition send_request (q : nat) (st : state) : option state :=
  r ← requests st !! q;
  '(k, n) ← session_of r st;
  match rq_progress r with
  | Sending =>
      if length (sn_send n) <? sendBuffer
      then Some (set_request q (set_progress Waiting r) (set_session k (set_send (sn_send n ++ [rq_msg r]) n) st))
      else None
  | _ => None
  end.

(** The session is closed while the message waits for room. *)
Definition session_closed (q : nat) (st : state) : option state :=
  r ← requests st !! q;
  '(k, n) ← session_of r st;
  match rq_progress r with
  | Sending => if sn_done n then Some (set_request q (set_progress (Leaving ErrAgentSessionReplaced) r) st) else None
  | _ => None
  end.

(** The context of the call ends, or the fifteen seconds are over. *)
Definition context_ends (q : nat) (st : state) : option state :=
  r ← requests st !! q;
  match rq_progress r with
  | Sending | Waiting => Some (set_request q (set_progress (Leaving ErrContext) r) st)
  | _ => None
  end.

Definition take_reply (q : nat) (st : state) : option state :=
  r ← requests st !! q;
  match rq_progress r, rq_channel r with
  | Waiting, m :: rest => Some (set_request q (set_channel rest (Leaving (Reply m)) r) st)
  | _, _ => None
  end.

(** The deferred [delete(node.pending, requestID)]. *)
Definition remove_pending (q : nat) (st : state) : option state :=
  r ← requests st !! q;
  '(k, n) ← session_of r st;
  match rq_progress r with
  | Leaving o => Some (set_request q (set_progress (Returned o) r) (set_session k (set_pending (delete (rq_id r) (sn_pending n)) n) st))
  | _ => None
  end.

Definition exec (a : action) (st : state) : option state :=
  match a with
  | Register k nodeID installationID => register k nodeID installationID st
  | ClosePrevious k => close_previous k st
  | Unregister k => unregister k st
  | CloseSelf k => close_self k st
  | CancelContext k => cancel_context k st
  | Read k m => readLoop k m st
  | WriteOne k => writeLoop k st
  | SendMessage k o taken => Send k o taken st
  | HandleIncoming k => handleIncoming k st
  | Deliver k => deliver k st
  | StopProcessing k => stop_processing k st
  | BeginRequest q nodeID id o => begin_request q nodeID id o st
  | AddPending q => add_pending q st
  | SendRequest q => send_request q st
  | SessionClosed q => session_closed q st
  | ContextEnds q => context_ends q st
  | TakeReply q => take_reply q st
  | RemovePending q => remove_pending q st
  end.

Inductive step (st st' : state) : Prop :=
| step_action a : exec a st = Some st' → step st st'.
Abbreviation steps := (rtc step).
Definition reachable (st : state) : Prop := steps empty_hub st.

Fixpoint run (actions : list action) (st : state) : option state :=
  match actions with [] => Some st | a :: l => st' ← exec a st; run l st' end.

Lemma run_steps l st st' : run l st = Some st' → steps st st'.
Proof.
  revert st. induction l as [|a l IH]; intros st; cbn; [by intros [= ->]|].
  destruct (exec a st) as [st1|] eqn:E; cbn; [|done]. intros H. eapply rtc_l; [by econstructor|by apply IH].
Qed.

(** ** Replies belong to their requests *)
Definition asks (st : state) (q : nat) (id : string) (k : nat) : Prop :=
  ∃ r, requests st !! q = Some r ∧ rq_id r = id ∧ rq_session r = Some k.

Record session_ok (st : state) (k : nat) (n : StreamNode) : Prop := {
  so_pending : ∀ id q, sn_pending n !! id = Some q → asks st q id k;
  so_deliver : ∀ q m, sn_process n = Delivering q m → asks st q (RequestID m) k ∧ m ∈ sn_read n;
  so_incoming : ∀ m, m ∈ sn_incoming n → m ∈ sn_read n;
}.

(** The messages a request has been given. *)
Definition given (r : request) (m : In) : Prop :=
  m ∈ rq_channel r ∨ rq_progress r = Leaving (Reply m) ∨ rq_progress r = Returned (Reply m).

Record request_ok (st : state) (r : request) : Prop := {
  ro_given : ∀ m, given r m → RequestID m = rq_id r ∧ ∃ k n, rq_session r = Some k ∧ sessions st !! k = Some n ∧ m ∈ sn_read n;
  ro_session : ∀ k, rq_session r = Some k → ∃ n, sessions st !! k = Some n ∧ sn_nodeID n = rq_nodeID r;
}.

Record hub_ok (st : state) : Prop := {
  ho_hub : ∀ nodeID k, hub st !! nodeID = Some k → ∃ n, sessions st !! k = Some n ∧ sn_nodeID n = nodeID;
  ho_sessions : map_Forall (session_ok st) (sessions st);
  ho_requests : map_Forall (fun _ r => request_ok st r) (requests st);
}.

(** Sessions keep their node and what they have read; requests keep what they
    are. *)
Definition keeps (n n' : StreamNode) : Prop := sn_nodeID n' = sn_nodeID n ∧ ∀ m, m ∈ sn_read n → m ∈ sn_read n'.

Lemma keeps_refl n : keeps n n.
Proof. by split. Qed.

Lemma request_ok_mono st st' r :
  (∀ k n, sessions st !! k = Some n → ∃ n', sessions st' !! k = Some n' ∧ keeps n n') → request_ok st r → request_ok st' r.
Proof.
  intros Hm [Hg Hs]. split.
  - intros m Hgm. destruct (Hg m Hgm) as (E & k & n & Hk & Hn & Hin). split; [done|].
    destruct (Hm k n Hn) as (n' & Hn' & _ & Hr). eauto 10.
  - intros k Hk. destruct (Hs k Hk) as (n & Hn & E). destruct (Hm k n Hn) as (n' & Hn' & E' & _). exists n'. by rewrite E'.
Qed.

Lemma hub_ok_session st k n n' :
  hub_ok st → sessions st !! k = Some n → keeps n n' → session_ok st k n' → hub_ok (set_session k n' st).
Proof.
  intros [Hh Hs Hr] Hn Hk Hok.
  assert (Hm : ∀ k1 n1, sessions st !! k1 = Some n1 → ∃ n2, sessions (set_session k n' st) !! k1 = Some n2 ∧ keeps n1 n2).
  { intros k1 n1 H1. cbn. destruct (decide (k = k1)) as [<-|]; [rewrite lookup_insert_eq|rewrite lookup_insert_ne by done].
    - exists n'. split; [done|]. congruence.
    - exists n1. split; [done|apply keeps_refl]. }
  split.
  - intros nodeID k1 H1. destruct (Hh nodeID k1 H1) as (n1 & Hn1 & E). destruct (Hm k1 n1 Hn1) as (n2 & Hn2 & E2 & _).
    exists n2. by rewrite E2.
  - intros k1 n1. cbn. rewrite lookup_insert_Some. intros [[<- <-]|[_ H1]]; [by destruct Hok; split|].
    by destruct (Hs k1 n1 H1); split.
  - intros q r H1. eapply request_ok_mono; [apply Hm|by apply (Hr q)].
Qed.

Lemma hub_ok_request st q r r' :
  hub_ok st → requests st !! q = Some r → rq_id r' = rq_id r → rq_session r' = rq_session r → request_ok st r' →
  hub_ok (set_request q r' st).
Proof.
  intros [Hh Hs Hr] Hq Hid Hse Hok.
  assert (Ha : ∀ q1 id k, asks st q1 id k → asks (set_request q r' st) q1 id k).
  { intros q1 id k (r1 & H1 & E1 & E2). unfold asks. cbn. destruct (decide (q = q1)) as [<-|].
    - exists r'. rewrite lookup_insert_eq. split_and!; [done|..]; congruence.
    - exists r1. rewrite lookup_insert_ne by done. done. }
  split; [done|..].
  - intros k n Hn. destruct (Hs k n Hn) as [H1 H2 H3]. split; [eauto| |done].
    intros q1 m Hd. destruct (H2 q1 m Hd). eauto.
  - intros q1 r1. cbn. rewrite lookup_insert_Some. intros [[<- <-]|[_ H1]]; [by destruct Hok; split|].
    by destruct (Hr q1 r1 H1); split.
Qed.

(** Changes that concern neither messages nor requests. *)
Definition same_core (n n' : StreamNode) : Prop :=
  sn_nodeID n' = sn_nodeID n ∧ sn_pending n' = sn_pending n ∧ sn_process n' = sn_process n ∧
  sn_incoming n' = sn_incoming n ∧ sn_read n' = sn_read n.

Lemma same_core_keeps n n' : same_core n n' → keeps n n'.
Proof. intros (E & _ & _ & _ & Er). split; [done|]. by rewrite Er. Qed.

Lemma hub_ok_core st hub' f :
  hub_ok st → hub' ⊆ hub st → (∀ k n, same_core n (f k n)) → hub_ok (mkState hub' (map_imap (fun k n => Some (f k n)) (sessions st)) (requests st)).
Proof.
  intros [Hh Hs Hr] Hsub Hf.
  assert (Hm : ∀ k n, sessions st !! k = Some n →
    ∃ n', map_imap (fun k n => Some (f k n)) (sessions st) !! k = Some n' ∧ same_core n n').
  { intros k n Hn. rewrite map_lookup_imap, Hn. cbn. eauto. }
  split; cbn.
  - intros nodeID k Hk. destruct (Hh nodeID k) as (n & Hn & E); [by eapply lookup_weaken|].
    destruct (Hm k n Hn) as (n' & Hn' & E' & _). exists n'. by rewrite E'.
  - intros k n'. rewrite map_lookup_imap. destruct (sessions st !! k) as [n|] eqn:Hn; cbn; [|done]. intros [= <-].
    destruct (Hf k n) as (E1 & E2 & E3 & E4 & E5). destruct (Hs k n Hn) as [H1 H2 H3].
    split; [rewrite E2|rewrite E3, E5|rewrite E4, E5]; done.
  - intros q r Hq. eapply request_ok_mono; [|by apply (Hr q)]. intros k n Hn.
    destruct (Hm k n Hn) as (n' & Hn' & Hc). exists n'. split; [done|by apply same_core_keeps].
Qed.

Lemma alter_imap {A} (g : A → A) k (m : gmap nat A) :
  alter g k m = map_imap (fun j x => Some (if decide (j = k) then g x else x)) m.
Proof.
  apply map_eq. intros j. rewrite map_lookup_imap. destruct (decide (j = k)) as [->|].
  - rewrite lookup_alter_eq. destruct (m !! k); cbn; [|done]. by destruct (decide (k = k)).
  - rewrite lookup_alter_ne by done. destruct (m !! j); cbn; [|done]. by destruct (decide (j = k)).
Qed.

Lemma hub_ok_alter st hub' g k :
  hub_ok st → hub' ⊆ hub st → (∀ n, same_core n (g n)) → hub_ok (mkState hub' (alter g k (sessions st)) (requests st)).
Proof.
  intros H Hsub Hg. rewrite alter_imap. apply hub_ok_core; [done..|]. intros j n. case_decide; [apply Hg|by repeat split].
Qed.

Lemma insert_alter {A} (g : A → A) (k : nat) (x : A) (m : gmap nat A) : m !! k = Some x → <[k := g x]> m = alter g k m.
Proof.
  intros Hk. apply map_eq. intros j. destruct (decide (j = k)) as [->|].
  - by rewrite lookup_insert_eq, lookup_alter_eq, Hk.
  - by rewrite lookup_insert_ne, lookup_alter_ne by done.
Qed.

Lemma register_ok k nodeID inst st st' : hub_ok st → register k nodeID inst st = Some st' → hub_ok st'.
Proof.
  intros [Hh Hs Hr]. unfold register. destruct (sessions st !! k) eqn:Hk; [done|]. intros [= <-].
  assert (Hm : ∀ k1 n1, sessions st !! k1 = Some n1 →
    ∃ n2, <[k := NewStreamNode nodeID inst (hub st !! nodeID)]> (sessions st) !! k1 = Some n2 ∧ keeps n1 n2).
  { intros k1 n1 H1. exists n1. rewrite lookup_insert_ne by congruence. split; [done|apply keeps_refl]. }
  split; cbn.
  - intros node k1 [[<- <-]|[_ H1]]%lookup_insert_Some; [eexists; by rewrite lookup_insert_eq|].
    destruct (Hh _ _ H1) as (n1 & Hn1 & E). destruct (Hm _ _ Hn1) as (n2 & Hn2 & E2 & _). exists n2. by rewrite E2.
  - intros k1 n1 [[<- <-]|[_ H1]]%lookup_insert_Some; [|by destruct (Hs k1 n1 H1); split].
    split; cbn; [by intros ? ? ?%lookup_empty_Some|done|by intros ? ?%elem_of_nil].
  - intros q r Hq. eapply request_ok_mono; [apply Hm|by apply (Hr q)].
Qed.

Lemma close_previous_ok k st st' : hub_ok st → close_previous k st = Some st' → hub_ok st'.
Proof.
  intros H. unfold close_previous. destruct (sessions st !! k) as [n|]; cbn; [|done].
  destruct (sn_phase n) as [[p|]| | |]; [..|done|done|done]; intros [= <-].
  - assert (H1 : hub_ok (mkState (hub st) (alter (set_closed ∘ set_cancelled) p (sessions st)) (requests st)))
      by (apply hub_ok_alter; [done..|]; by repeat split).
    eapply (hub_ok_alter _ (hub st)) in H1; [exact H1|done|]. by repeat split.
  - apply hub_ok_alter; [done..|]. by repeat split.
Qed.

Lemma unregister_ok k st st' : hub_ok st → unregister k st = Some st' → hub_ok st'.
Proof.
  intros H. unfold unregister. destruct (sessions st !! k) as [n|] eqn:Hn; cbn; [|done].
  destruct (sn_phase n); [done| |done..]. intros [= <-]. rewrite (insert_alter (set_phase Unregistering)) by done.
  apply hub_ok_alter; [done| |by repeat split]. case_bool_decide; [apply delete_subseteq|done].
Qed.

Lemma session_core_ok st k n n' :
  hub_ok st → sessions st !! k = Some n → same_core n n' → hub_ok (set_session k n' st).
Proof.
  intros H Hn Hc. apply (hub_ok_session st k n); [done..|by apply same_core_keeps|].
  destruct (ho_sessions st H k n Hn) as [H1 H2 H3]. destruct Hc as (_ & E2 & E3 & E4 & E5).
  split; [rewrite E2|rewrite E3, E5|rewrite E4, E5]; done.
Qed.

Lemma readLoop_ok k m st st' : hub_ok st → readLoop k m st = Some st' → hub_ok st'.
Proof.
  intros H. unfold readLoop. destruct (sessions st !! k) as [n|] eqn:Hn; cbn; [|done]. case_match; [|done]. intros [= <-].
  destruct (ho_sessions st H k n Hn) as [H1 H2 H3].
  apply (hub_ok_session st k n); [done..| |split; cbn; [done|..]].
  - split; [done|]. intros m' Hm. cbn. apply elem_of_app. by left.
  - intros q m' Hd. destruct (H2 q m' Hd). split; [done|]. apply elem_of_app. by left.
  - intros m' [Hm|Hm]%elem_of_app; apply elem_of_app; [left; by apply H3|by right].
Qed.

Lemma handleIncoming_ok k st st' : hub_ok st → handleIncoming k st = Some st' → hub_ok st'.
Proof.
  intros H. unfold handleIncoming. destruct (sessions st !! k) as [n|] eqn:Hn; cbn; [|done].
  destruct (sn_process n) eqn:Hp; [|done|done]. destruct (sn_incoming n) as [|m rest] eqn:Hi; [done|].
  destruct (running n); [|done]. intros [= <-]. destruct (ho_sessions st H k n Hn) as [H1 H2 H3].
  assert (Hrest : ∀ m', m' ∈ rest → m' ∈ sn_read n) by (intros m' Hm; apply H3; rewrite Hi; by right).
  apply (hub_ok_session st k n); [done..| |].
  { repeat case_match; by split. }
  case_bool_decide as Hid; [by split|]. destruct (sn_pending n !! RequestID m) as [ch|] eqn:Hch; [|by split].
  split; cbn; [done| |done]. intros q m' [= <- <-]. split; [by apply H1|]. apply H3. rewrite Hi. by left.
Qed.

Lemma deliver_ok k st st' : hub_ok st → deliver k st = Some st' → hub_ok st'.
Proof.
  intros H. unfold deliver. destruct (sessions st !! k) as [n|] eqn:Hn; cbn; [|done].
  destruct (sn_process n) as [|q m|] eqn:Hp; [done| |done]. destruct (requests st !! q) as [r|] eqn:Hr; cbn; [|done].
  destruct (rq_channel r) eqn:Hc; [|done]. intros [= <-]. destruct (ho_sessions st H k n Hn) as [H1 H2 H3].
  destruct (H2 q m Hp) as ((r' & Hr' & Hid & Hse) & Hread). rewrite Hr in Hr'. injection Hr' as <-.
  set (n' := set_process _ _ _ _). assert (Hn' : hub_ok (set_session k n' st)) 
    by (apply (hub_ok_session st k n); [done|done|by split|split; cbn; [exact H1|done|exact H3]]).
  apply (hub_ok_request _ q r); [done..|]. destruct (ho_requests st H q r Hr) as [Hg Hs]. split; cbn.
  - intros m' [Hm|Hm]; [|destruct (Hg m') as (E & k1 & n1 & Hk1 & Hn1 & Hin); [right; done|]].
    + apply list_elem_of_singleton in Hm as ->. split; [done|]. exists k, n'. by rewrite lookup_insert_eq.
    + split; [done|]. assert (k1 = k) as -> by congruence. exists k, n'. rewrite lookup_insert_eq. split_and!; [done..|]. cbn. congruence.
  - intros k1 Hk1. assert (k1 = k) as -> by congruence. exists n'. rewrite lookup_insert_eq. split; [done|].
    destruct (Hs k Hk1) as (n2 & Hn2 & E). cbn. congruence.
Qed.

Lemma begin_request_ok q nodeID id o st st' : hub_ok st → begin_request q nodeID id o st = Some st' → hub_ok st'.
Proof.
  intros [Hh Hs Hr]. unfold begin_request. destruct (requests st !! q) eqn:Hq; [done|]. intros [= <-].
  assert (Ha : ∀ r' q1 i k, asks st q1 i k → asks (set_request q r' st) q1 i k).
  { intros r' q1 i k (r1 & H1 & E). exists r1. cbn. by rewrite lookup_insert_ne by congruence. }
  split; [done|..].
  - intros k n Hn. destruct (Hs k n Hn) as [H1 H2 H3]. split; [eauto| |done]. intros q1 m Hd. destruct (H2 q1 m Hd). eauto.
  - intros q1 r1. cbn. rewrite lookup_insert_Some. intros [[<- <-]|[_ H1]]; [|by destruct (Hr q1 r1 H1); split].
    destruct (hub st !! nodeID) as [k|] eqn:Hk; split; cbn; try done.
    + intros m [[]%elem_of_nil|[|]]; done.
    + intros k' [= <-]. by apply Hh.
    + intros m [[]%elem_of_nil|[|]]; done.
Qed.

(** The steps of a request that give it no message. *)
Lemma progress_ok st q r p :
  hub_ok st → requests st !! q = Some r → (∀ m, given (set_progress p r) m → given r m) → hub_ok (set_request q (set_progress p r) st).
Proof.
  intros H Hr Hg. apply (hub_ok_request st q r); [done..|]. destruct (ho_requests st H q r Hr) as [H1 H2]. split; [|done].
  intros m Hm. by apply H1, Hg.
Qed.

Lemma session_of_Some r st k n : session_of r st = Some (k, n) → rq_session r = Some k ∧ sessions st !! k = Some n.
Proof.
  unfold session_of. destruct (rq_session r) as [k'|]; cbn; [|done].
  destruct (sessions st !! k') as [n'|] eqn:E; cbn; [|done]. by intros [= <- <-].
Qed.

Lemma add_pending_ok q st st' : hub_ok st → add_pending q st = Some st' → hub_ok st'.
Proof.
  intros H. unfold add_pending. destruct (requests st !! q) as [r|] eqn:Hr; cbn; [|done].
  destruct (session_of r st) as [[k n]|] eqn:Hk; cbn; [|done]. apply session_of_Some in Hk as [Hse Hn].
  destruct (rq_progress r) eqn:Hp; try done. intros [= <-]. destruct (ho_sessions st H k n Hn) as [H1 H2 H3].
  apply progress_ok; [|done|].
  - apply (hub_ok_session st k n); [done|done|by split|]. split; cbn; [|done|done].
    intros id q' [[<- <-]|[_ Hq]]%lookup_insert_Some; [by exists r|by apply H1].
  - intros m [Hm|[|]]; [by left|done..].
Qed.

Lemma send_request_ok q st st' : hub_ok st → send_request q st = Some st' → hub_ok st'.
Proof.
  intros H. unfold send_request. destruct (requests st !! q) as [r|] eqn:Hr; cbn; [|done].
  destruct (session_of r st) as [[k n]|] eqn:Hk; cbn; [|done]. apply session_of_Some in Hk as [Hse Hn].
  destruct (rq_progress r) eqn:Hp; try done. case_match; [|done]. intros [= <-].
  apply progress_ok; [|done|by intros m [Hm|[|]]; [left|..]]. apply (session_core_ok st k n); [done..|by repeat split].
Qed.

Lemma session_closed_ok q st st' : hub_ok st → session_closed q st = Some st' → hub_ok st'.
Proof.
  intros H. unfold session_closed. destruct (requests st !! q) as [r|] eqn:Hr; cbn; [|done].
  destruct (session_of r st) as [[k n]|]; cbn; [|done]. destruct (rq_progress r); try done. case_match; [|done]. intros [= <-].
  apply progress_ok; [done..|]. by intros m [Hm|[|]]; [left|..].
Qed.

Lemma context_ends_ok q st st' : hub_ok st → context_ends q st = Some st' → hub_ok st'.
Proof.
  intros H. unfold context_ends. destruct (requests st !! q) as [r|] eqn:Hr; cbn; [|done].
  destruct (rq_progress r); try done; intros [= <-]; (apply progress_ok; [done..|]; by intros m [Hm|[|]]; [left|..]).
Qed.

Lemma take_reply_ok q st st' : hub_ok st → take_reply q st = Some st' → hub_ok st'.
Proof.
  intros H. unfold take_reply. destruct (requests st !! q) as [r|] eqn:Hr; cbn; [|done].
  destruct (rq_progress r); try done. destruct (rq_channel r) as [|m rest] eqn:Hc; [done|]. intros [= <-].
  apply (hub_ok_request st q r); [done..|]. destruct (ho_requests st H q r Hr) as [H1 H2]. split; [|done]. cbn.
  intros m' [Hm|[[= <-]|]]; [..|done]; apply H1; left; rewrite Hc; [by right|by left].
Qed.

Lemma remove_pending_ok q st st' : hub_ok st → remove_pending q st = Some st' → hub_ok st'.
Proof.
  intros H. unfold remove_pending. destruct (requests st !! q) as [r|] eqn:Hr; cbn; [|done].
  destruct (session_of r st) as [[k n]|] eqn:Hk; cbn; [|done]. apply session_of_Some in Hk as [Hse Hn].
  destruct (rq_progress r) eqn:Hp; try done. intros [= <-]. destruct (ho_sessions st H k n Hn) as [H1 H2 H3].
  apply progress_ok; [|done|].
  - apply (hub_ok_session st k n); [done|done|by split|]. split; cbn; [|done|done]. intros id q' [_ Hq]%lookup_delete_Some. by apply H1.
  - intros m [Hm|[|[= ->]]]; [by left|done|]. right. left. by rewrite Hp.
Qed.

Lemma loops_ok a st st' :
  match a with CloseSelf _ | CancelContext _ | WriteOne _ | SendMessage _ _ _ | StopProcessing _ => True | _ => False end →
  hub_ok st → exec a st = Some st' → hub_ok st'.
Proof.
  intros Ha H. destruct a; try destruct Ha; cbn [exec].
  - unfold close_self. destruct (sessions st !! k) as [n|] eqn:Hn; cbn; [|done]. destruct (sn_phase n); try done. intros [= <-].
    apply (session_core_ok st k n); [done..|by repeat split].
  - unfold cancel_context. destruct (sessions st !! k) as [n|] eqn:Hn; cbn; [|done]. intros [= <-].
    apply (session_core_ok st k n); [done..|by repeat split].
  - unfold writeLoop. destruct (sessions st !! k) as [n|] eqn:Hn; cbn; [|done]. destruct (sn_send n); [done|]. case_match; [|done].
    intros [= <-]. apply (session_core_ok st k n); [done..|by repeat split].
  - unfold Send. destruct (sessions st !! k) as [n|] eqn:Hn; cbn; [|done].
    destruct taken; case_match; [|done| |done]; intros [= <-]; [|done]. apply (session_core_ok st k n); [done..|by repeat split].
  - unfold stop_processing. destruct (sessions st !! k) as [n|] eqn:Hn; cbn; [|done]. destruct (sn_process n) eqn:Hp; try done.
    case_match; [|done]. intros [= <-]. destruct (ho_sessions st H k n Hn) as [H1 H2 H3].
    apply (hub_ok_session st k n); [done|done|by split|]. split; cbn; [exact H1|done|exact H3].
Qed.

Lemma exec_ok a st st' : hub_ok st → exec a st = Some st' → hub_ok st'.
Proof.
  intros H. destruct a; try (apply loops_ok; done); cbn [exec]; intros E.
  - by eapply register_ok.
  - by eapply close_previous_ok.
  - by eapply unregister_ok.
  - by eapply readLoop_ok.
  - by eapply handleIncoming_ok.
  - by eapply deliver_ok.
  - by eapply begin_request_ok.
  - by eapply add_pending_ok.
  - by eapply send_request_ok.
  - by eapply session_closed_ok.
  - by eapply context_ends_ok.
  - by eapply take_reply_ok.
  - by eapply remove_pending_ok.
Qed.

Lemma reachable_ok st : reachable st → hub_ok st.
Proof.
  unfold reachable. intros H. remember empty_hub as st0 eqn:E.
  assert (H0 : hub_ok st0) by (rewrite E; split; cbn; [by intros ? ? ?%lookup_empty_Some|apply map_Forall_empty..]). clear E.
  induction H as [|st0 st1 st2 [a Ha] _ IH]; [done|]. by eapply IH, exec_ok.
Qed.

(** C19. However the goroutines of the hub interleave, and whatever sessions come
    and go meanwhile, a request that returns a message returns one that carries
    its own identifier and that was read from a session of the very node it was
    addressed to. *)
Theorem reply_belongs_to_request st q r m :
  reachable st → requests st !! q = Some r → rq_progress r = Returned (Reply m) →
  RequestID m = rq_id r ∧
  ∃ k n, rq_session r = Some k ∧ sessions st !! k = Some n ∧ sn_nodeID n = rq_nodeID r ∧ m ∈ sn_read n.
Proof.
  intros H%reachable_ok Hq Hp. destruct (ho_requests st H q r Hq) as [Hg Hs].
  destruct (Hg m) as (E & k & n & Hk & Hn & Hin); [by right; right|]. split; [done|]. exists k, n.
  destruct (Hs k Hk) as (n' & Hn' & E'). split_and!; [done..|congruence|done].
Qed.

(** ** Only one session of a node stays open *)

(** Why a session that is open is open: the hub names it, it is leaving, or the
    session that replaced it has not closed it yet. *)
Definition open_for (st : state) (k : nat) (n : StreamNode) : Prop :=
  hub st !! sn_nodeID n = Some k ∨ sn_phase n = Unregistering ∨
  ∃ k' n', sessions st !! k' = Some n' ∧ sn_phase n' = Registering (Some k).

Definition opens_ok (st : state) : Prop := ∀ k n, sessions st !! k = Some n → sn_done n = false → open_for st k n.

(** Steps that leave hub, phases and closing alone. *)
Definition same_life (n n' : StreamNode) : Prop := sn_nodeID n' = sn_nodeID n ∧ sn_phase n' = sn_phase n ∧ sn_done n' = sn_done n.

Lemma opens_ok_life st st' :
  opens_ok st → hub st' = hub st →
  (∀ k, (sessions st !! k = None ∧ sessions st' !! k = None) ∨
        ∃ n n', sessions st !! k = Some n ∧ sessions st' !! k = Some n' ∧ same_life n n') → opens_ok st'.
Proof.
  intros Ho Hh Hs k n' Hn' Hd. destruct (Hs k) as [[_ E]|(n & n1 & Hn & E & E1 & E2 & E3)]; [congruence|].
  assert (n1 = n') as -> by congruence. destruct (Ho k n Hn) as [H|[H|(k2 & n2 & H2 & H3)]]; [congruence|..]; unfold open_for.
  - left. by rewrite Hh, E1.
  - right. left. congruence.
  - right. right. destruct (Hs k2) as [[? _]|(n3 & n4 & Hn3 & Hn4 & _ & E5 & _)]; [congruence|]. exists k2, n4. split; [done|]. congruence.
Qed.

Lemma life_session st k n n' k' :
  sessions st !! k = Some n → same_life n n' →
  (sessions st !! k' = None ∧ sessions (set_session k n' st) !! k' = None) ∨
  ∃ m m', sessions st !! k' = Some m ∧ sessions (set_session k n' st) !! k' = Some m' ∧ same_life m m'.
Proof.
  intros Hn Hl. cbn. destruct (decide (k = k')) as [<-|]; [rewrite lookup_insert_eq|rewrite lookup_insert_ne by done].
  - right. eauto.
  - destruct (sessions st !! k') as [m|]; [right; exists m, m; by repeat split|by left].
Qed.

Lemma opens_ok_session st k n n' : opens_ok st → sessions st !! k = Some n → same_life n n' → opens_ok (set_session k n' st).
Proof. intros Ho Hn Hl. apply (opens_ok_life st); [done..|]. intros k'. by eapply life_session. Qed.

Lemma opens_ok_request st q r : opens_ok st → opens_ok (set_request q r st).
Proof. intros Ho. exact Ho. Qed.

Lemma register_opens k nodeID inst st st' : opens_ok st → register k nodeID inst st = Some st' → opens_ok st'.
Proof.
  unfold register. intros Ho. destruct (sessions st !! k) eqn:Hk; [done|]. intros [= <-] k1 n1. cbn. unfold open_for. cbn.
  intros [[<- <-]|[Hne Hn1]]%lookup_insert_Some Hd; [left; cbn; by rewrite lookup_insert_eq|].
  destruct (Ho k1 n1 Hn1 Hd) as [H|[H|(k2 & n2 & H2 & H3)]].
  - destruct (decide (nodeID = sn_nodeID n1)) as [E|]; [|left; by rewrite lookup_insert_ne].
    right. right. exists k. eexists. rewrite lookup_insert_eq. split; [done|]. cbn. by rewrite E, H.
  - by right; left.
  - right. right. exists k2, n2. by rewrite lookup_insert_ne by congruence.
Qed.

Lemma close_previous_opens k st st' : opens_ok st → close_previous k st = Some st' → opens_ok st'.
Proof.
  intros Ho. unfold close_previous. destruct (sessions st !! k) as [n|] eqn:Hk; cbn; [|done].
  destruct (sn_phase n) as [previous| | |] eqn:Hp; [|done..]. intros [= <-].
  set (sess := match previous with Some p => _ | None => _ end).
  (* a session of the new state comes from one of the old state *)
  assert (Hold : ∀ k1 n1', alter (set_phase Running) k sess !! k1 = Some n1' → sn_done n1' = false →
    ∃ n1, sessions st !! k1 = Some n1 ∧ sn_done n1 = false ∧ sn_nodeID n1' = sn_nodeID n1 ∧ previous ≠ Some k1 ∧
      (k1 ≠ k → sn_phase n1' = sn_phase n1)).
  { intros k1 n1' H1 Hd. unfold sess in H1. destruct (decide (k1 = k)) as [->|Hne].
    - rewrite lookup_alter_eq in H1. destruct previous as [p|]; [destruct (decide (p = k)) as [->|]|].
      + rewrite lookup_alter_eq, Hk in H1. by injection H1 as <-.
      + rewrite lookup_alter_ne, Hk in H1 by done. injection H1 as <-. exists n. split_and!; [done..|congruence|done].
      + rewrite Hk in H1. injection H1 as <-. by exists n.
    - rewrite lookup_alter_ne in H1 by done. destruct previous as [p|]; [destruct (decide (p = k1)) as [->|]|].
      + rewrite lookup_alter_eq in H1. destruct (sessions st !! k1); [|done]. by injection H1 as <-.
      + rewrite lookup_alter_ne in H1 by done. exists n1'. split_and!; [done..|congruence|done].
      + by exists n1'. }
  assert (Hnew : ∀ k2 n2, sessions st !! k2 = Some n2 → k2 ≠ k →
    ∃ n2', alter (set_phase Running) k sess !! k2 = Some n2' ∧ sn_phase n2' = sn_phase n2).
  { intros k2 n2 H2 Hne. rewrite lookup_alter_ne by done. unfold sess. destruct previous as [p|]; [|by exists n2].
    destruct (decide (p = k2)) as [->|]; [rewrite lookup_alter_eq, H2; by eexists|rewrite lookup_alter_ne by done; by exists n2]. }
  intros k1 n1' H1 Hd. cbn in H1. destruct (Hold k1 n1' H1 Hd) as (n1 & Hn1 & Hd1 & E1 & Hprev & Hphase). unfold open_for. cbn.
  destruct (Ho k1 n1 Hn1 Hd1) as [H|[H|(k2 & n2 & H2 & H3)]].
  - left. by rewrite E1.
  - right. left. rewrite Hphase; [done|]. intros ->. congruence.
  - right. right. destruct (decide (k2 = k)) as [->|Hne]; [congruence|].
    destruct (Hnew k2 n2 H2 Hne) as (n2' & H2' & E2). exists k2, n2'. by rewrite E2.
Qed.

Lemma unregister_opens k st st' : opens_ok st → unregister k st = Some st' → opens_ok st'.
Proof.
  intros Ho. unfold unregister. destruct (sessions st !! k) as [n|] eqn:Hk; cbn; [|done].
  destruct (sn_phase n) eqn:Hp; [done| |done..]. intros [= <-] k1 n1. cbn. unfold open_for. cbn.
  intros [[<- <-]|[Hne Hn1]]%lookup_insert_Some Hd; [by right; left|].
  destruct (Ho k1 n1 Hn1 Hd) as [H|[H|(k2 & n2 & H2 & H3)]].
  - left. case_bool_decide as Hb; [|done]. rewrite lookup_delete_ne; [done|]. intros E. congruence.
  - by right; left.
  - right. right. exists k2, n2. rewrite lookup_insert_ne by congruence. done.
Qed.

Lemma close_self_opens k st st' : opens_ok st → close_self k st = Some st' → opens_ok st'.
Proof.
  intros Ho. unfold close_self. destruct (sessions st !! k) as [n|] eqn:Hk; cbn; [|done].
  destruct (sn_phase n) eqn:Hp; [done|done| |done]. intros [= <-] k1 n1. cbn. unfold open_for. cbn.
  intros [[<- <-]|[Hne Hn1]]%lookup_insert_Some Hd; [done|].
  destruct (Ho k1 n1 Hn1 Hd) as [H|[H|(k2 & n2 & H2 & H3)]]; [by left|by right; left|].
  right. right. exists k2, n2. rewrite lookup_insert_ne by congruence. done.
Qed.

(** An enabled action that leaves the life of its session alone, at most a
    request changing besides. *)
Ltac enabled :=
  repeat first
    [ match goal with |- mbind _ (sessions ?st !! ?k) = _ → _ => destruct (sessions st !! k) eqn:?; cbn [mbind option_bind]; [|done] end
    | match goal with |- mbind _ (requests ?st !! ?q) = _ → _ => destruct (requests st !! q) eqn:?; cbn [mbind option_bind]; [|done] end
    | match goal with |- mbind _ (session_of ?r ?st) = _ → _ =>
        let E := fresh in destruct (session_of r st) as [[? ?]|] eqn:E; cbn [mbind option_bind]; [apply session_of_Some in E as [? ?]|done] end
    | match goal with |- (match ?x with _ => _ end) = Some _ → _ => destruct x eqn:?; try done end ].

Lemma exec_opens a st st' : opens_ok st → exec a st = Some st' → opens_ok st'.
Proof.
  intros Ho. destruct a; cbn [exec];
    [intros E; by eapply register_opens|intros E; by eapply close_previous_opens|intros E; by eapply unregister_opens|
     intros E; by eapply close_self_opens|unfold cancel_context|unfold readLoop|unfold writeLoop|unfold Send|
     unfold handleIncoming|unfold deliver|unfold stop_processing|unfold begin_request|unfold add_pending|unfold send_request|
     unfold session_closed|unfold context_ends|unfold take_reply|unfold remove_pending];
    enabled; intros [= <-]; try apply opens_ok_request; try done;
    try (eapply opens_ok_session; [done|done|repeat case_match; by repeat split]).
Qed.

Lemma reachable_opens st : reachable st → opens_ok st.
Proof.
  unfold reachable. intros H. remember empty_hub as st0 eqn:E.
  assert (H0 : opens_ok st0) by (rewrite E; intros k n; cbn; by intros ?%lookup_empty_Some). clear E.
  induction H as [|st0 st1 st2 [a Ha] _ IH]; [done|]. by eapply IH, exec_opens.
Qed.

Definition settled (n : StreamNode) : bool := match sn_phase n with Running | Gone => true | _ => false end.

(** C20. Reconnecting leaves one session per node.  In every reachable state in
    which no session is in the middle of registering or of leaving, each
    session that is still open is the one the hub sends the node's requests to;
    so two open sessions are never of the same node, however many connections
    the agent opened at the same time. *)
Theorem one_open_session st k n :
  reachable st → map_Forall (fun _ m => settled m = true) (sessions st) → sessions st !! k = Some n → sn_done n = false →
  hub st !! sn_nodeID n = Some k ∧
  ∀ k' n', sessions st !! k' = Some n' → sn_done n' = false → sn_nodeID n' = sn_nodeID n → k' = k.
Proof.
  intros Ho%reachable_opens Hs Hn Hd.
  assert (Hhub : ∀ k1 n1, sessions st !! k1 = Some n1 → sn_done n1 = false → hub st !! sn_nodeID n1 = Some k1).
  { intros k1 n1 H1 Hd1. destruct (Ho k1 n1 H1 Hd1) as [H|[H|(k2 & n2 & H2 & H3)]]; [done|..].
    - specialize (Hs k1 n1 H1). unfold settled in Hs. cbn in Hs. by rewrite H in Hs.
    - specialize (Hs k2 n2 H2). unfold settled in Hs. cbn in Hs. by rewrite H3 in Hs. }
  split; [by apply Hhub|]. intros k' n' Hn' Hd' E. specialize (Hhub k' n' Hn' Hd') as H1. specialize (Hhub k n Hn Hd). congruence.
Qed.

(** ** A second answer to a request that is over *)
Definition over (r : request) : Prop := match rq_progress r with Leaving _ | Returned _ => True | _ => False end.

(** The loop of session [k] hands a message to request [q], which no longer
    receives and whose channel is full. *)
Definition blocked (k q : nat) (m : In) (handled : list In) (st : state) : Prop :=
  ∃ n r, sessions st !! k = Some n ∧ sn_process n = Delivering q m ∧ sn_handled n = handled ∧
    requests st !! q = Some r ∧ rq_channel r ≠ [] ∧ over r.

Lemma blocked_session k q m h k1 n1 n1' st :
  blocked k q m h st → sessions st !! k1 = Some n1 →
  (k1 = k → sn_process n1 = Delivering q m → sn_process n1' = Delivering q m ∧ sn_handled n1' = sn_handled n1) →
  blocked k q m h (set_session k1 n1' st).
Proof.
  intros (n & r & Hn & Hp & Hh & Hr) H1 Hk. destruct (decide (k1 = k)) as [->|Hne].
  - assert (n1 = n) as -> by congruence. destruct (Hk eq_refl Hp) as [E1 E2]. exists n1', r. cbn. rewrite lookup_insert_eq.
    split_and!; [done|done|congruence|by destruct Hr as (?&?&?)..].
  - exists n, r. cbn. by rewrite lookup_insert_ne.
Qed.

Lemma blocked_request k q m h q1 r1 r1' st :
  blocked k q m h st → requests st !! q1 = Some r1 → (q1 = q → rq_channel r1 ≠ [] → over r1 → rq_channel r1' ≠ [] ∧ over r1') →
  blocked k q m h (set_request q1 r1' st).
Proof.
  intros (n & r & Hn & Hp & Hh & Hr & Hc & Ho) H1 Hq. exists n. destruct (decide (q1 = q)) as [->|Hne].
  - assert (r1 = r) as -> by congruence. exists r1'. cbn. rewrite lookup_insert_eq. by destruct (Hq eq_refl Hc Ho).
  - exists r. cbn. by rewrite lookup_insert_ne.
Qed.

Lemma blocked_sessions k q m h st hub' (f : nat → StreamNode → StreamNode) :
  blocked k q m h st → (∀ j n, sn_process (f j n) = sn_process n ∧ sn_handled (f j n) = sn_handled n) →
  blocked k q m h (mkState hub' (map_imap (fun j n => Some (f j n)) (sessions st)) (requests st)).
Proof.
  intros (n & r & Hn & Hp & Hh & Hr) Hf. exists (f k n), r. cbn. rewrite map_lookup_imap, Hn. cbn.
  destruct (Hf k n) as [-> ->]. done.
Qed.

Lemma blocked_alter k q m h st hub' g j :
  blocked k q m h st → (∀ n, sn_process (g n) = sn_process n ∧ sn_handled (g n) = sn_handled n) →
  blocked k q m h (mkState hub' (alter g j (sessions st)) (requests st)).
Proof. intros H Hg. rewrite alter_imap. apply blocked_sessions; [done|]. intros i n. case_decide; [apply Hg|done]. Qed.

Lemma blocked_lifecycle a k q m h st st' :
  match a with Register _ _ _ | ClosePrevious _ | Unregister _ | BeginRequest _ _ _ _ => True | _ => False end →
  blocked k q m h st → exec a st = Some st' → blocked k q m h st'.
Proof.
  intros Ha H. destruct a as [k1 node inst|k1|k1| | | | | | | | |q1 node id o| | | | | |]; try destruct Ha; cbn [exec].
  - unfold register. destruct (sessions st !! k1) eqn:E; [done|]. intros [= <-]. destruct H as (n & r & Hn & Hr).
    exists n, r. cbn. rewrite lookup_insert_ne by congruence. done.
  - unfold close_previous. destruct (sessions st !! k1) as [n|]; cbn; [|done].
    destruct (sn_phase n) as [[p|]| | |]; [..|done|done|done]; intros [= <-].
    + exact (blocked_alter k q m h (mkState (hub st) (alter (set_closed ∘ set_cancelled) p (sessions st)) (requests st)) (hub st)
               (set_phase Running) k1 (blocked_alter k q m h st (hub st) (set_closed ∘ set_cancelled) p H (fun _ => conj eq_refl eq_refl))
               (fun _ => conj eq_refl eq_refl)).
    + by apply blocked_alter.
  - unfold unregister. destruct (sessions st !! k1) as [n|] eqn:E; cbn; [|done]. destruct (sn_phase n); [done| |done..].
    intros [= <-]. rewrite (insert_alter (set_phase Unregistering)) by done. by apply blocked_alter.
  - unfold begin_request. destruct (requests st !! q1) eqn:E; [done|]. intros [= <-].
    destruct H as (n & r & Hn & Hp & Hh & Hr & Hc). exists n, r. cbn. rewrite lookup_insert_ne by congruence. done.
Qed.

Lemma blocked_loops a k q m h st st' :
  match a with CloseSelf _ | CancelContext _ | Read _ _ | WriteOne _ | SendMessage _ _ _ | HandleIncoming _ | StopProcessing _ => True
  | _ => False end →
  blocked k q m h st → exec a st = Some st' → blocked k q m h st'.
Proof.
  intros Ha H. destruct a; try destruct Ha; cbn [exec];
    [unfold close_self|unfold cancel_context|unfold readLoop|unfold writeLoop|unfold Send|unfold handleIncoming|unfold stop_processing];
    enabled; intros [= <-]; try done; (eapply blocked_session; [done..|]); intros -> Hp; (done || congruence).
Qed.

Lemma blocked_requests a k q m h st st' :
  match a with Deliver _ | AddPending _ | SendRequest _ | SessionClosed _ | ContextEnds _ | TakeReply _ | RemovePending _ => True
  | _ => False end →
  blocked k q m h st → exec a st = Some st' → blocked k q m h st'.
Proof.
  intros Ha H. destruct a; try destruct Ha; cbn [exec];
    [unfold deliver|unfold add_pending|unfold send_request|unfold session_closed|unfold context_ends|unfold take_reply|unfold remove_pending];
    enabled; intros [= <-]; (eapply blocked_request; [|done|unfold over; intros -> Hc Ho; cbn; by simplify_eq/= || by repeat case_match || idtac]);
    try done; (eapply blocked_session; [done..|]); intros ? ?; (done || congruence || idtac).
  (* the channel is full, so nothing is handed over *)
  destruct H as (n & r' & Hn & Hp & _ & Hr & Hc & _). congruence.
Qed.

Lemma exec_blocked a k q m h st st' : blocked k q m h st → exec a st = Some st' → blocked k q m h st'.
Proof. intros H. destruct a; first [by apply blocked_lifecycle|by apply blocked_loops|by apply blocked_requests]. Qed.

(** C21. A request that gives up while its first answer lies unread in its
    channel is still registered until its deferred clean-up runs.  A second
    answer that is taken up in between blocks the loop that processes the
    messages of the session for ever: in every later state, also after the
    request is gone and the session closed, the loop is at that message and the
    router has been given nothing more. *)
Theorem second_reply_blocks st st1 st' k q n r o m rest :
  sessions st !! k = Some n → sn_process n = Selecting → sn_incoming n = m :: rest →
  RequestID m ≠ EmptyString → sn_pending n !! RequestID m = Some q →
  requests st !! q = Some r → rq_progress r = Leaving o → rq_channel r ≠ [] →
  exec (HandleIncoming k) st = Some st1 → steps st1 st' →
  ∃ n', sessions st' !! k = Some n' ∧ sn_process n' = Delivering q m ∧ sn_handled n' = sn_handled n.
Proof.
  intros Hn Hp Hin Hid Hq Hr Ho Hc Hex Hs.
  assert (Hb : blocked k q m (sn_handled n) st1).
  { cbn in Hex. unfold handleIncoming in Hex. rewrite Hn in Hex. cbn in Hex. rewrite Hp, Hin in Hex.
    destruct (running n); [|done]. rewrite bool_decide_eq_false_2, Hq in Hex by done. injection Hex as <-.
    eexists _, r. cbn. rewrite lookup_insert_eq. split_and!; [done..|]. unfold over. by rewrite Ho. }
  clear Hex. induction Hs as [st1|st1 st2 st3 [a Ha] _ IH]; [|by eapply IH, exec_blocked].
  destruct Hb as (n' & r' & Hn' & Hp' & Hh & _). by exists n'.
Qed.
End Hub.

(** ** Runs *)
(** An agent that connects twice, is asked through the second session and
    answers. *)
Definition answered_run : list (action (In := string * string) (Out := string)) :=
  [Register 1 "node" "inst"; ClosePrevious 1; Register 2 "node" "inst"; ClosePrevious 2;
   BeginRequest 0 "node" "req-1" "ping"; AddPending 0; SendRequest 0; WriteOne 2; Read 2 ("req-1", "pong"); HandleIncoming 2;
   Deliver 2; TakeReply 0; RemovePending 0].

Lemma answered_run_ends :
  ∃ st, run fst answered_run empty_hub = Some st ∧
    (∃ r, requests st !! 0 = Some r ∧ rq_session r = Some 2 ∧ rq_progress r = Returned (Reply ("req-1", "pong"))) ∧
    map_Forall (fun _ m => settled m = true) (sessions st) ∧ (∃ n, sessions st !! 2 = Some n ∧ sn_done n = false ∧ sn_nodeID n = "node").
Proof.
  eexists. split; [vm_compute; reflexivity|]. split_and!; [by eexists| |by eexists].
  apply (bool_decide_unpack _). by vm_compute.
Qed.

Lemma reply_belongs_to_request_witness :
  ∃ st r n, reachable (Out := string) fst st ∧ requests st !! 0 = Some r ∧ rq_progress r = Returned (Reply ("req-1", "pong")) ∧
    fst ("req-1", "pong") = rq_id r ∧ sessions st !! 2 = Some n ∧ ("req-1", "pong") ∈ sn_read n.
Proof.
  destruct answered_run_ends as (st & Hrun & (r & Hr & H2 & Hp) & _).
  destruct (reply_belongs_to_request fst st 0 r ("req-1", "pong") (run_steps fst _ _ _ Hrun) Hr Hp) as (E & k & n & Hk & Hn & _ & Hin).
  assert (k = 2) as -> by congruence. exists st, r, n. split_and!; [exact (run_steps fst _ _ _ Hrun)|done..].
Defined.

Lemma one_open_session_witness : ∃ st, reachable (In := string * string) (Out := string) fst st ∧ hub st !! "node" = Some 2.
Proof.
  destruct answered_run_ends as (st & Hrun & _ & Hs & n & Hn & Hd & E). exists st. split; [exact (run_steps fst _ _ _ Hrun)|].
  destruct (one_open_session fst st 2 n (run_steps fst _ _ _ Hrun) Hs Hn Hd) as [H _]. by rewrite <- E.
Defined.

(** The request times out after the first of two answers has been delivered and
    before the second is taken up. *)
Definition answered_twice : list (action (In := string * string) (Out := string)) :=
  [Register 1 "node" "inst"; ClosePrevious 1; BeginRequest 0 "node" "req-1" "ping"; AddPending 0; SendRequest 0; WriteOne 1;
   Read 1 ("req-1", "pong"); Read 1 ("req-1", "pong again"); Read 1 ("", "telemetry"); HandleIncoming 1; Deliver 1; ContextEnds 0].
Definition closed_after : list (action (In := string * string) (Out := string)) := [RemovePending 0; Unregister 1; CloseSelf 1].

Lemma answered_twice_runs :
  ∃ st st1 st' n r, run fst answered_twice empty_hub = Some st ∧ exec fst (HandleIncoming 1) st = Some st1 ∧
    run fst closed_after st1 = Some st' ∧ sessions st !! 1 = Some n ∧ requests st !! 0 = Some r ∧
    sn_process n = Selecting ∧ sn_incoming n = [("req-1", "pong again"); ("", "telemetry")] ∧ sn_handled n = [] ∧
    sn_pending n !! "req-1" = Some 0 ∧ rq_progress r = Leaving ErrContext ∧ rq_channel r ≠ [].
Proof. do 5 eexists. split; [vm_compute; reflexivity|]. do 2 (split; [vm_compute; reflexivity|]). by split_and!. Qed.

Lemma second_reply_blocks_witness :
  ∃ st' n, reachable (Out := string) fst st' ∧ sessions st' !! 1 = Some n ∧
    sn_process n = Delivering 0 ("req-1", "pong again") ∧ sn_handled n = [].
Proof.
  destruct answered_twice_runs as (st & st1 & st' & n & r & Hrun & Hex & Hafter & Hn & Hr & Hp & Hin & Hh & Hq & Ho & Hc).
  destruct (second_reply_blocks fst st st1 st' 1 0 n r ErrContext _ _ Hn Hp Hin ltac:(done) Hq Hr Ho Hc Hex
    (run_steps fst _ _ _ Hafter)) as (n' & H1 & H2 & H3).
  exists st', n'. rewrite <- Hh. split_and!; [|exact H1|exact H2|exact H3].
  unfold reachable. etrans; [exact (run_steps fst _ _ _ Hrun)|]. eapply rtc_l; [exists (HandleIncoming 1); exact Hex|].
  exact (run_steps fst _ _ _ Hafter).
Defined.
