(* ===== verification/AwgPeers.v ===== *)
(** * AwgPeers: the peers of a WireGuard interface follow the credentials

    [src/internal/agent/amneziawg/sync/sync.go]: a credential pass of an
    AmneziaWG agent acts on two stores, its table of users and the peers of the
    WireGuard interface, and either may fail at any call.  The pass is the one
    of [SyncEngine], over the reconciler of [AwgAgent] and the manifest handler
    of [ServerManifest].

    What the WireGuard tools do to the set of peers is the record [tool_laws]:
    a call may fail after it has, or before it has, taken effect, and touches
    only the peer it names. *)

From S2P Require Import Prelude GoLib Sql AgentStore ServerModel ServerStore StoreInvariant Samples SyncProtocol ServerManifest SyncEngine SyncConvergence AmneziaSettings AwgAgent.
Import GoStrings GoTime.

#[local] Arguments Reconcile.UpsertPeer : simpl never.
#[local] Arguments Reconcile.RemovePeer : simpl never.
#[local] Arguments Reconcile.PruneRuntimePeers : simpl never.
#[local] Arguments ApplyFullAuthSnapshot : simpl never.

(** ** Pages of a full pass *)
Lemma fill_page_elem {A B} (visit : A → result (option B)) pageSize page l out b :
  fill_page visit pageSize page l = Ok out → b ∈ out → b ∈ page ∨ ∃ x, x ∈ l ∧ visit x = Ok (Some b).
Proof.
  revert page; induction l as [|x l IH]; intros page; simpl; [intros [= <-]; by left|].
  intros (o & Ho & Hl)%bind_Ok Hb. destruct o as [b'|].
  - assert (Hb' : b ∈ page ++ [b'] ∨ ∃ y, y ∈ l ∧ visit y = Ok (Some b)).
    { cbv zeta in Hl. case_match; [injection Hl as <-; by left|by apply (IH _ Hl)]. }
    destruct Hb' as [[?| ->%list_elem_of_singleton]%elem_of_app|(y & ? & ?)]; [by left|right..].
    + exists x. split; [left|done].
    + exists y. split; [by right|done].
  - destruct (IH _ Hl Hb) as [?|(y & ? & ?)]; [by left|]. right. exists y. split; [by right|done].
Qed.

(** Of a full manifest every change is a credential to set up, under a key
    without blanks around it. *)
Definition to_set_up (c : CredentialChange AmneziaCredential) : Prop :=
  cc_Op c = CREDENTIAL_CHANGE_OP_UPSERT ∧
  ∃ p, cc_Payload c = Some p ∧ TrimSpace (ac_PublicKey p) = ac_PublicKey p.

(** The answer of the control plane to the agent of node [nodeID]. *)
Definition amnezia_answer (nodeID : string) (s : Server) (now : time) (req : Request)
    : ManifestResponse (CredentialChange AmneziaCredential) :=
  buildAuthManifestResponse nodeID
    (BuildAuthManifestResponse "" (Some (ListAmneziaWGSyncConnections s))
       (Some buildAmneziaCredentialChange) now)
    (Some (authManifestRequest nodeID req)).

Lemma visit_full query credential change :
  q_Full query = true → visit_credential buildAmneziaCredentialChange query credential = Ok (Some change) →
  to_set_up (ch_Payload change).
Proof.
  unfold visit_credential. intros ->. case_bool_decide; [done|]. case_match; [done|].
  destruct (sc_Active credential) eqn:Ha; [|done]. cbn [negb].
  intros (p & Hp & [= <-])%bind_Ok. unfold buildAmneziaCredentialChange in Hp. rewrite Ha in Hp.
  injection Hp as <-. split; [done|]. eexists. split; [done|]. apply TrimSpace_idem.
Qed.

Lemma amnezia_answer_full nodeID s now req c :
  rq_Full req = true → c ∈ mr_Changes (amnezia_answer nodeID s now req) → to_set_up c.
Proof.
  intros Hfull. unfold amnezia_answer, buildAuthManifestResponse. cbn [am_NodeId authManifestRequest].
  rewrite bool_decide_eq_true_2 by done. unfold BuildAuthManifestResponse, Handle.
  cbn -[BuildResponse ListSyncChanges uint32 In].
  rewrite Hfull. cbn [orb]. destruct (BuildResponse _ _ _) as [resp|e] eqn:E; [|by intros ?%elem_of_nil].
  cbn [mr_Changes BuildSyncResponse]. intros (change & -> & Hc)%list_elem_of_fmap.
  unfold BuildResponse in E. apply bind_Ok in E as (_ & _ & (changes & Hl & (_ & _ & [= <-])%bind_Ok)%bind_Ok).
  cbn [rs_Changes] in Hc. assert (Hin : change ∈ changes).
  { unfold SortChanges, sort_by_id in Hc. case_match; [apply (subseteq_take _ _) in Hc|];
      by rewrite merge_sort_Permutation in Hc. }
  unfold ListSyncChanges in Hl. apply bind_Ok in Hl as (rows & _ & Hl).
  destruct (fill_page_elem _ _ _ _ _ _ Hl Hin) as [?%elem_of_nil|(x & _ & Hx)]; [done|].
  by apply visit_full in Hx.
Qed.

(** ** The interface and the table of users *)
Section Peers.
Context {W : Type} (db : W → DB) (put : DB → W → W) (peers : W → gset string).
Context (tools : Tools W) (desired : option (gset string → goM W unit)) (nodeID : string)
  (fetch : Request → goM W (ManifestResponse (CredentialChange AmneziaCredential))).

Definition untouched (w w' : W) : Prop := db w' = db w ∧ peers w' = peers w.

(** [awg show dump] lists the peers; [awg set .. peer] adds one and
    [awg set .. peer .. remove] takes one away, for certain only when the
    command reports success; [PrunePeers] works on the stored desired state
    alone; and an answer that arrives is one the control plane has given. *)
Record tool_laws : Prop := {
  tl_put : ∀ d w, db (put d w) = d ∧ peers (put d w) = peers w;
  tl_dump : ∀ w, let o := tl_ShowDump tools w in
    untouched w o.1 ∧ ∀ l, o.2 = Ok l → list_to_set l = peers w;
  tl_set : ∀ k opts w, let o := tl_SetPeer tools k opts w in
    db o.1 = db w ∧ peers w ⊆ peers o.1 ∧ peers o.1 ⊆ {[k]} ∪ peers w ∧ (o.2 = Ok tt → k ∈ peers o.1);
  tl_remove : ∀ k w, let o := tl_RemovePeer tools k w in
    db o.1 = db w ∧ peers o.1 ⊆ peers w ∧ peers w ⊆ {[k]} ∪ peers o.1 ∧ (o.2 = Ok tt → k ∉ peers o.1);
  tl_prune : ∀ prune keys w, desired = Some prune → untouched w (prune keys w).1;
  tl_fetch : ∀ req w, let o := fetch req w in
    untouched w o.1 ∧ ∀ m, o.2 = Ok m → ∃ s now, m = amnezia_answer nodeID s now req;
}.

Definition reconciler : Reconciler W :=
  mkReconciler (Reconcile.UpsertPeer (Some tools)) (Reconcile.RemovePeer (Some tools))
    (Reconcile.PruneRuntimePeers (Some tools)).
Definition peer_store : AuthStore W := persistentAuthStore reconciler desired (db_AuthStore db put).

(** [sync.New(..).RunOnce] *)
Definition AmneziaRunOnce (fuel : nat) (full : bool) : W → option (W * result unit) :=
  RunOnce peer_store (FetchSyncPage fetch) (amneziaRuntime reconciler) fuel full.

Definition peer_of (u : AuthUser) : string := TrimSpace (u_NativeAuthID u).
Definition users_keyed (t : gmap string AuthUser) : Prop := ∀ id u, t !! id = Some u → u_ConnectionID u = id.

Context (Hl : tool_laws).

(** *** Taking peers away *)

(** From [w] to [w'] only peers in [K] may have gone, and nothing else has
    changed. *)
Record shrinks (K : string → Prop) (w w' : W) : Prop := {
  sh_db : db w' = db w;
  sh_sub : peers w' ⊆ peers w;
  sh_left : ∀ k, k ∈ peers w → k ∈ peers w' ∨ K k;
}.

Lemma untouched_shrinks K w w' : untouched w w' → shrinks K w w'.
Proof. intros [Hd Hp]. split; [done|by rewrite Hp|]. rewrite Hp. by left. Qed.
Lemma shrinks_trans K w1 w2 w3 : shrinks K w1 w2 → shrinks K w2 w3 → shrinks K w1 w3.
Proof.
  intros [H1 H2 H3] [H4 H5 H6]. split; [congruence|by etrans|].
  intros k [Hk|Hk]%H3; [by apply H6|by right].
Qed.
Lemma shrinks_weaken (K K' : string → Prop) w w' : (∀ k, K k → K' k) → shrinks K w w' → shrinks K' w w'.
Proof. intros HK [H1 H2 H3]. split; [done|done|]. intros k [?|?]%H3; auto. Qed.

(** A step that takes away at most [K], and [gone] when it succeeds. *)
Definition takes (K gone : string → Prop) (m : goM W unit) : Prop := ∀ w,
  shrinks K w (m w).1 ∧ ((m w).2 = Ok tt → ∀ k, gone k → k ∉ peers (m w).1).

Lemma takes_ret K gone : (∀ k, ¬ gone k) → takes K gone (mret tt).
Proof. intros Hg w. split; [by apply untouched_shrinks|]. intros _ k ?%Hg. done. Qed.

Lemma takes_weaken (K K' gone gone' : string → Prop) m :
  (∀ k, K k → K' k) → (∀ k, gone' k → gone k) → takes K gone m → takes K' gone' m.
Proof.
  intros HK Hg Hm w. destruct (Hm w) as [Hs Hok]. split; [by eapply shrinks_weaken|].
  intros Ho k Hk. by apply Hok, Hg.
Qed.

Lemma takes_bind K gone1 gone2 m1 (m2 : unit → goM W unit) :
  takes K gone1 m1 → takes K gone2 (m2 tt) → takes K (fun k => gone1 k ∨ gone2 k) (m1 ≫= m2).
Proof.
  intros H1 H2 w. unfold mbind, goM_bind. destruct (H1 w) as [Hs1 Hg1].
  destruct (m1 w) as [w1 [[]|e]]; cbn in *; [|done]. destruct (H2 w1) as [Hs2 Hg2].
  split; [by eapply shrinks_trans|]. intros Ho k [Hk|Hk]; [|by apply Hg2].
  intros Hin%(sh_sub _ _ _ Hs2). by eapply Hg1.
Qed.

Lemma takes_iter {A} K (gone : A → string → Prop) (f : A → goM W unit) l :
  (∀ x, x ∈ l → takes K (gone x) (f x)) → takes K (fun k => ∃ x, x ∈ l ∧ gone x k) (iterM f l).
Proof.
  unfold iterM. induction l as [|x l IH]; intros Hf; simpl.
  - apply takes_ret. by intros k (x & ?%elem_of_nil & _).
  - eapply takes_weaken; [done| |apply (takes_bind K (gone x) (fun k => ∃ y, y ∈ l ∧ gone y k) (f x) (fun s => foldlM (fun _ y => f y) l s))].
    + intros k (y & [->|Hy]%elem_of_cons & Hk); [by left|right; eauto].
    + apply Hf. left.
    + apply IH. intros y Hy. apply Hf. by right.
Qed.

Lemma tool_takes k : takes (eq k) (eq k) (tl_RemovePeer tools k).
Proof.
  intros w. destruct (tl_remove Hl k w) as (Hd & Hs & Hr & Ho). split.
  - split; [done|done|]. intros k' Hk'. apply Hr in Hk'. set_solver.
  - intros Hok k' <-. by apply Ho.
Qed.

Lemma remove_takes key : takes (eq (TrimSpace key)) (eq (TrimSpace key)) (rc_RemovePeer reconciler key).
Proof.
  intros w. cbn. unfold Reconcile.RemovePeer. case_bool_decide.
  { split; [by apply untouched_shrinks|done]. }
  unfold Reconcile.wrapM. destruct (tool_takes (TrimSpace key) w) as [Hs Ho].
  by destruct (tl_RemovePeer _ _ _) as [w' [[]|e]].
Qed.

Lemma runtime_keys_elem dump k : k ∈ Reconcile.runtime_keys dump ↔ k ∈ dump.
Proof. unfold Reconcile.runtime_keys. rewrite merge_sort_Permutation, elem_of_elements. by rewrite elem_of_list_to_set. Qed.

Lemma prune_takes keys w :
  let o := rc_PruneRuntimePeers reconciler keys w in
  shrinks (fun k => k ∉ keys) w o.1 ∧ (o.2 = Ok tt → peers o.1 ⊆ keys).
Proof.
  cbn. unfold Reconcile.PruneRuntimePeers, mbind, goM_bind. destruct (tl_dump Hl w) as [Hu Hdump].
  destruct (tl_ShowDump tools w) as [w1 [dump|e]]; cbn in *; [|split; [by apply untouched_shrinks|done]].
  specialize (Hdump _ eq_refl).
  destruct (takes_iter (fun k => k ∉ keys) (fun x k => x = k ∧ k ∉ keys)
    (fun key => if bool_decide (key ∈ keys) then mret tt else tl_RemovePeer tools key)
    (Reconcile.runtime_keys dump)) with (w := w1) as [Hs Ho].
  { intros x _. case_bool_decide; [apply takes_ret; by intros k [-> ?]|].
    eapply takes_weaken; [| |apply tool_takes]; [by intros k <-|by intros k [-> _]]. }
  split; [eapply shrinks_trans; [by apply untouched_shrinks|exact Hs]|].
  intros Hok k Hk. destruct (decide (k ∈ keys)) as [|Hn]; [done|]. exfalso. eapply (Ho Hok k); [|exact Hk].
  exists k. split; [|done]. apply runtime_keys_elem. apply (sh_sub _ _ _ Hs) in Hk.
  destruct Hu as [_ Hu]. rewrite Hu, <-Hdump in Hk. by apply elem_of_list_to_set in Hk.
Qed.

(** *** The store of an AmneziaWG agent *)
Lemma ListAuthUsers_elem d u : u ∈ ListAuthUsers d ↔ ∃ id, auth_users d !! id = Some u.
Proof.
  unfold ListAuthUsers. rewrite merge_sort_Permutation, list_elem_of_fmap. split.
  - intros ([id u'] & -> & H%elem_of_map_to_list). by exists id.
  - intros [id H]. exists (id, u). by rewrite elem_of_map_to_list.
Qed.

Lemma native_keys_elem keep k : k ∈ native_keys keep ↔ ∃ id u, keep !! id = Some u ∧ u_NativeAuthID u = k.
Proof.
  unfold native_keys. rewrite elem_of_list_to_set, list_elem_of_fmap. split.
  - intros (u & -> & ([id u'] & -> & H%elem_of_map_to_list)%list_elem_of_fmap). eauto.
  - intros (id & u & H & <-). exists u. split; [done|]. apply list_elem_of_fmap. exists (id, u).
    by rewrite elem_of_map_to_list.
Qed.

(** The peers that a snapshot [keep] drops from the users of [d]. *)
Definition drops (keep : gmap string AuthUser) (d : DB) (k : string) : Prop :=
  ∃ u, u ∈ ListAuthUsers d ∧ keep !! u_ConnectionID u = None ∧ k = peer_of u.

Lemma peer_snapshot_spec keep cursor started w :
  let o := as_ApplyFullAuthSnapshot peer_store keep cursor started w in
  match o.2 with
  | Ok _ => ApplyFullAuthSnapshot keep cursor started (db w) = Ok (db o.1) ∧ peers o.1 ⊆ native_keys keep ∧
            ∀ k, k ∈ peers w → k ∈ peers o.1 ∨ k ∉ native_keys keep ∨ drops keep (db w) k
  | Err _ => db o.1 = db w
  end.
Proof.
  cbn. unfold persistent_ApplyFullAuthSnapshot. cbn. unfold mbind, goM_bind.
  destruct (takes_iter (fun k => k ∉ native_keys keep ∨ drops keep (db w) k) (fun _ _ => False)
    (fun user => match keep !! u_ConnectionID user with None => rc_RemovePeer reconciler (u_NativeAuthID user) | Some _ => mret tt end)
    (ListAuthUsers (db w))) with (w := w) as [Hs1 _].
  { intros u Hu. destruct (keep !! u_ConnectionID u) eqn:E; [apply takes_ret; by intros k ?|].
    eapply takes_weaken; [| |apply remove_takes]; [|done]. intros k <-. right. by exists u. }
  destruct (iterM _ _ w) as [w1 [[]|e]]; cbn in *; [|by apply Hs1].
  assert (Hu : untouched w1 (match desired with Some prune => prune (native_keys keep) | None => mret tt end w1).1).
  { destruct desired as [prune|] eqn:E; [exact (tl_prune Hl prune _ w1 E)|done]. }
  destruct (match desired with Some prune => prune (native_keys keep) | None => mret tt end w1) as [w2 [[]|e]]; cbn in *;
    [|by rewrite (proj1 Hu); apply Hs1].
  apply (untouched_shrinks (fun k => k ∉ native_keys keep ∨ drops keep (db w) k)) in Hu.
  destruct (prune_takes (native_keys keep) w2) as [Hs3 Hp]. cbn in *.
  destruct (Reconcile.PruneRuntimePeers _ _ w2) as [w3 [[]|e]]; cbn in *.
  all: apply (shrinks_weaken _ (fun k => k ∉ native_keys keep ∨ drops keep (db w) k)) in Hs3; [|by left].
  all: pose proof (shrinks_trans _ _ _ _ Hs1 (shrinks_trans _ _ _ _ Hu Hs3)) as Hs.
  2: { by apply Hs. }
  rewrite (sh_db _ _ _ Hs). destruct (ApplyFullAuthSnapshot _ _ _ _) as [d|e] eqn:E; cbn; [|by apply Hs].
  destruct (tl_put Hl d w3) as [-> ->]. split_and!; [done|by apply Hp|apply Hs].
Qed.

Lemma delete_spec id w :
  let o := as_DeleteAuthUser peer_store id w in
  match o.2 with
  | Ok _ => db o.1 = DeleteAuthUser id (db w) ∧
            ∀ u, u ∈ ListAuthUsers (db w) → u_ConnectionID u = id → peer_of u ∉ peers o.1
  | Err _ => db o.1 = db w
  end ∧ peers o.1 ⊆ peers w ∧
  ∀ k, k ∈ peers w → k ∈ peers o.1 ∨ ∃ u, u ∈ ListAuthUsers (db w) ∧ u_ConnectionID u = id ∧ k = peer_of u.
Proof.
  cbn. unfold persistent_DeleteAuthUser. cbn. unfold mbind, goM_bind.
  destruct (takes_iter (fun k => ∃ u, u ∈ ListAuthUsers (db w) ∧ u_ConnectionID u = id ∧ k = peer_of u)
    (fun u k => u_ConnectionID u = id ∧ k = peer_of u)
    (fun user => if bool_decide (u_ConnectionID user = id) then rc_RemovePeer reconciler (u_NativeAuthID user) else mret tt)
    (ListAuthUsers (db w))) with (w := w) as [Hs Hg].
  { intros u Hu. case_bool_decide as E; [|apply takes_ret; by intros k [? _]].
    eapply takes_weaken; [| |apply remove_takes]; [intros k <-; by exists u|by intros k [_ ->]]. }
  destruct (iterM _ _ w) as [w1 [[]|e]]; cbn in *; [|by destruct Hs].
  destruct (tl_put Hl (DeleteAuthUser id (db w1)) w1) as [-> ->]. rewrite (sh_db _ _ _ Hs).
  split_and!; [done| |by apply Hs|by apply Hs]. intros u Hu Hid. apply Hg; [done|]. by exists u.
Qed.

(** *** Setting a peer up *)
Lemma upsert_spec p w :
  let o := rc_UpsertPeer reconciler p w in
  db o.1 = db w ∧ peers w ⊆ peers o.1 ∧
  (o.2 = Ok tt → TrimSpace (ac_PublicKey (default Reconcile.zero_credential p)) ∈ peers o.1).
Proof.
  cbn. unfold Reconcile.UpsertPeer. case_bool_decide; [done|].
  unfold mbind, goM_bind, liftM. case_match; [|done]. unfold Reconcile.wrapM.
  match goal with |- context [tl_SetPeer tools ?k ?o w] => destruct (tl_set Hl k o w) as (Hd & Hs & _ & Ho) end.
  by destruct (tl_SetPeer _ _ _ _) as [w' [[]|e]].
Qed.

(** *** A full pass *)
Section FullPass.
Context (w0 : W) (Hkeyed : users_keyed (auth_users (db w0))).

(** What a full pass has gathered: the users to keep, each with its peer set
    up; the users it found are those of the database. *)
Record gathered (p : sync_pass) (w : W) : Prop := {
  ga_full : sp_full p = true;
  ga_db : db w = db w0;
  ga_current : ∀ id u, sp_current p !! id = Some u → auth_users (db w0) !! id = Some u;
  ga_removed : sp_removed p = ∅;
  ga_keyed : users_keyed (sp_keep p);
  ga_keep : ∀ id u, sp_keep p !! id = Some u → peer_of u = u_NativeAuthID u ∧ u_NativeAuthID u ∈ peers w;
}.

Definition in_pass (st : loop_state sync_pass) (w : W) : Prop :=
  ls_full st = true ∧ db w = db w0 ∧ ∀ p, ls_pass st = Some p → gathered p w.

Lemma insert_fold_elem l (t : gmap string AuthUser) id u :
  foldl (fun m u => <[u_ConnectionID u := u]> m) t l !! id = Some u →
  t !! id = Some u ∨ u ∈ l ∧ u_ConnectionID u = id.
Proof.
  revert t; induction l as [|v l IH]; intros t; simpl; [by left|].
  intros [[[<- <-]|[_ Ht]]%lookup_insert_Some|[Hu Hid]]%IH.
  - right. split; [left|done].
  - by left.
  - right. split; [by right|done].
Qed.

Lemma gathered_untouched p w w' : untouched w w' → gathered p w → gathered p w'.
Proof. intros [Hd Hp] []. split; try done; [by rewrite Hd|by rewrite Hp]. Qed.

Lemma begin_gathered full w w' p :
  full = true → db w = db w0 → cred_BeginSyncPass peer_store full w = (w', Ok p) → gathered p w'.
Proof.
  intros -> Hd. unfold cred_BeginSyncPass, mbind, goM_bind, mret, goM_ret. cbn. intros [= <- <-].
  split; cbn; [done|done| |done|by intros id u ?%lookup_empty_Some|by intros id u ?%lookup_empty_Some].
  intros id u [?%lookup_empty_Some|[Hu Hid]]%insert_fold_elem; [done|].
  rewrite Hd in Hu. apply ListAuthUsers_elem in Hu as [id' Hu]. by rewrite <-Hid, (Hkeyed _ _ Hu).
Qed.

Lemma apply_gathered c p w w' p' :
  to_set_up c → gathered p w →
  cred_ApplySyncChange peer_store (amneziaRuntime reconciler) (change_of_wire c) p w = (w', Ok p') → gathered p' w'.
Proof.
  intros (Hop & pl & Hpl & Htrim) []. unfold cred_ApplySyncChange, change_of_wire, op_of_wire. cbn.
  rewrite Hop, Hpl, bool_decide_eq_true_2 by done. cbn. unfold mbind, goM_bind, mret, goM_ret. rewrite ga_full0. cbn.
  destruct (upsert_spec (Some pl) w) as (Hd & Hs & Ho). cbn in *.
  destruct (Reconcile.UpsertPeer _ _ w) as [w1 [[]|e]]; cbn in *; [|by intros [=]]. intros [= <- <-].
  split; cbn; [done|congruence|done|done| |].
  - intros id u [[<- <-]|[_ Hu]]%lookup_insert_Some; [done|]. by apply ga_keyed0.
  - intros id u [[<- <-]|[_ Hu]]%lookup_insert_Some.
    + cbn. unfold peer_of. cbn. split; [done|]. rewrite <-Htrim. by apply Ho.
    + destruct (ga_keep0 _ _ Hu). split; [done|]. by apply Hs.
Qed.

Lemma apply_changes_gathered l p from seen w w' p' from' seen' :
  (∀ c, c ∈ l → ∃ d, c = change_of_wire d ∧ to_set_up d) → gathered p w →
  foldlM (apply_change (cred_applier peer_store (amneziaRuntime reconciler))) l (p, from, seen) w =
    (w', Ok (p', from', seen')) → gathered p' w'.
Proof.
  revert p from seen w; induction l as [|c l IH]; intros p from seen w Hin Hg; simpl.
  { by intros [= <- <- _ _]. }
  destruct (Hin c) as (d & -> & Hd); [left|]. intros (w1 & [[p1 from1] seen1] & Hc & Hl')%bindM_Ok.
  eapply IH; [|clear IH|exact Hl'].
  - intros c' Hc'. apply Hin. by right.
  - apply bindM_Ok in Hc as (w2 & p2 & Hc & [= <- <- _ _]). by eapply apply_gathered.
Qed.

Lemma response_elem {Pl} (m : ManifestResponse (CredentialChange Pl)) resp c :
  response_of_manifest m = Ok resp → c ∈ rs_Changes resp → ∃ d, c = change_of_wire d ∧ d ∈ mr_Changes m.
Proof.
  unfold response_of_manifest. case_bool_decide; [|done]. intros [= <-]. cbn.
  unfold SortChanges, sort_by_id. rewrite merge_sort_Permutation. by intros Hd%list_elem_of_fmap.
Qed.

(** The changes of an answer to a full request. *)
Lemma fetched req w w' resp :
  rq_Full req = true → FetchSyncPage fetch req w = (w', Ok resp) →
  untouched w w' ∧ ∀ c, c ∈ rs_Changes resp → ∃ d, c = change_of_wire d ∧ to_set_up d.
Proof.
  intros Hfull (w1 & m & Hm & Hr)%bindM_Ok. destruct (tl_fetch Hl req w) as [Hu Ha]. rewrite Hm in Hu, Ha. cbn [fst snd] in *.
  destruct (Ha _ eq_refl) as (s & now & ->). apply pair_equal_spec in Hr as [<- Hr]. split; [done|].
  intros c (d & -> & Hd)%(response_elem _ _ _ Hr). exists d. split; [done|].
  exact (amnezia_answer_full _ _ _ _ _ Hfull Hd).
Qed.

Lemma page_gathered since pageSize st w w' st' last :
  in_pass st w → page_turn (FetchSyncPage fetch) (cred_applier peer_store (amneziaRuntime reconciler)) since pageSize st w =
    (w', Ok (st', last)) → in_pass st' w' ∧ is_Some (ls_pass st').
Proof.
  intros (Hf & Hd & Hp). unfold page_turn. intros (w1 & resp & Hr & H)%bindM_Ok.
  apply bindM_Ok in H as (w2 & [] & Hv & H). unfold liftM in Hv. injection Hv as <- _.
  destruct (fetched (mkRequest (ls_full st) since pageSize (ls_from st)) _ _ _ Hf Hr) as [Hu Hin]. apply bindM_Ok in H as (w3 & [st1 p1] & Hb & H).
  apply bindM_Ok in H as (w4 & [[p2 from2] seen2] & Hc & [= <- <- _]). cbn.
  assert (Hg : ls_full st1 = true ∧ gathered p1 w3).
  { unfold begin_pass in Hb. destruct (ls_pass st) as [p|] eqn:E.
    - injection Hb as <- <- <-. split; [done|]. eapply gathered_untouched; [done|]. by apply Hp.
    - rewrite Hf in Hb. apply bindM_Ok in Hb as (w5 & p & Hb & [= <- <- <-]). split; [done|].
      eapply (begin_gathered true); [done| |exact Hb]. by rewrite (proj1 Hu). }
  destruct Hg as [Hf1 Hg]. eapply apply_changes_gathered in Hc; [|done|done].
  split; [|eauto]. split_and!; [done|apply Hc|]. by intros p [= <-].
Qed.

Lemma pages_gathered fuel since pageSize st w w' st' :
  in_pass st w → run_pages fuel (FetchSyncPage fetch) (cred_applier peer_store (amneziaRuntime reconciler)) since pageSize st w =
    Some (w', Ok st') → in_pass st' w' ∧ is_Some (ls_pass st').
Proof.
  revert st w; induction fuel as [|fuel IH]; intros st w Hst; simpl; [done|].
  destruct (page_turn _ _ _ _ st w) as [w1 [[st1 []]|e]] eqn:E; [|..|done].
  - intros [= <- <-]. by eapply page_gathered.
  - apply IH. by eapply page_gathered.
Qed.

(** No peer of a user in [t] is that of another connection in [t']; the control
    plane has a unique index on the keys of a node. *)
Definition own_peers (t t' : gmap string AuthUser) : Prop :=
  ∀ id u id' u', t !! id = Some u → t' !! id' = Some u' → peer_of u = peer_of u' → id = id'.

(** A peer of a user that is kept is not one of a user that is dropped. *)
Lemma kept_not_dropped p w id u id' u' :
  gathered p w → own_peers (auth_users (db w0)) (sp_keep p) → sp_keep p !! id = Some u →
  auth_users (db w0) !! id' = Some u' → sp_keep p !! id' = None → u_NativeAuthID u ≠ peer_of u'.
Proof.
  intros [] Hown Hu Hu' Hn Heq. destruct (ga_keep0 _ _ Hu) as [Htrim _].
  assert (id' = id) as -> by (eapply Hown; [exact Hu'|exact Hu|congruence]). congruence.
Qed.

Lemma removed_takes p w : gathered p w →
  takes (fun k => ∃ id u, auth_users (db w0) !! id = Some u ∧ sp_keep p !! id = None ∧ k = peer_of u) (fun _ => False)
    (iterM (rt_RemoveCredential (amneziaRuntime reconciler)) (map_to_list (dropped p ∪ sp_removed p)).*2).
Proof.
  intros []. eapply takes_weaken; [| |apply (takes_iter _ (fun _ _ => False))]; [intros k Hk; exact Hk|by intros k ?|].
  intros u ([id u'] & -> & Hu%elem_of_map_to_list)%list_elem_of_fmap. rewrite ga_removed0, (right_id_L ∅ (∪)) in Hu.
  apply map_lookup_filter_Some in Hu as [Hu Hn]. cbn in *.
  eapply takes_weaken; [| |apply remove_takes]; [|by intros k ?]. intros k <-. exists id, u'. auto.
Qed.

Lemma finish_exact key st p w w' :
  gathered p w → ls_pass st = Some p →
  finish key (cred_cursors peer_store) (cred_applier peer_store (amneziaRuntime reconciler)) st w = (w', Ok tt) →
  auth_users (db w') = sp_keep p ∧ peers w' ⊆ native_keys (sp_keep p) ∧
  (own_peers (auth_users (db w0)) (sp_keep p) → native_keys (sp_keep p) ⊆ peers w').
Proof.
  intros Hg Hst. unfold finish. rewrite Hst. intros (w4 & [] & H & Hsave)%bindM_Ok. cbn in H, Hsave.
  unfold auth_SaveSyncCursor in Hsave. cbn in Hsave. injection Hsave as <-.
  destruct (tl_put Hl (SetState key (Strconv.FormatInt (ls_cursor st)) (db w4)) w4) as [-> ->]. cbn.
  unfold cred_FinishSyncPass in H. rewrite (ga_full _ _ Hg) in H.
  apply bindM_Ok in H as (w1 & [] & Hsnap & H). apply bindM_Ok in H as (w2 & [] & Hrem & Hrec).
  pose proof (peer_snapshot_spec (sp_keep p) AuthSyncCursorKey (ls_cursor st) w) as Hs. cbn [pr_ManifestStartedAtMS] in Hsnap.
  rewrite Hsnap in Hs. cbn [fst snd] in Hs. destruct Hs as (Happ & _ & Hleft).
  apply ApplyFullAuthSnapshot_Ok in Happ as [Husers _]; [|apply Hg].
  destruct (removed_takes p w Hg w1) as [Hs2 _]. rewrite Hrem in Hs2. cbn [fst] in Hs2.
  destruct (prune_takes (native_keys (sp_keep p)) w2) as [Hs3 Hsub]. cbn in Hrec, Hs3, Hsub. rewrite Hrec in Hs3, Hsub.
  cbn in Hs3, Hsub. split_and!; [by rewrite (sh_db _ _ _ Hs3), (sh_db _ _ _ Hs2)|by apply Hsub|].
  intros Hown k Hk. pose proof Hk as (id & u & Hu & <-)%native_keys_elem.
  destruct (ga_keep _ _ Hg _ _ Hu) as [_ Hin].
  destruct (Hleft _ Hin) as [Hin1|[?|(u' & [id' Hu']%ListAuthUsers_elem & Hn & Heq)]]; [|done|].
  - destruct (sh_left _ _ _ Hs2 _ Hin1) as [Hin2|(id' & u' & Hu' & Hn & Heq)].
    + by destruct (sh_left _ _ _ Hs3 _ Hin2).
    + by destruct (kept_not_dropped p w id u id' u' Hg Hown Hu Hu' Hn).
  - rewrite (ga_db _ _ Hg) in Hu'. rewrite (Hkeyed _ _ Hu') in Hn.
    by destruct (kept_not_dropped p w id u id' u' Hg Hown Hu Hu' Hn).
Qed.
End FullPass.

(** A pass is full when it is asked to be, or when there is no cursor yet. *)
Definition runs_full (full : bool) (w : W) : Prop := full = true ∨ GetState AuthSyncCursorKey (db w) = Err ErrNotFound.

Lemma full_pass_peers fuel full w w' :
  users_keyed (auth_users (db w)) → runs_full full w → AmneziaRunOnce fuel full w = Some (w', Ok tt) →
  peers w' ⊆ native_keys (auth_users (db w')) ∧
  (own_peers (auth_users (db w)) (auth_users (db w')) → native_keys (auth_users (db w')) ⊆ peers w').
Proof.
  intros Hk Hfull. unfold AmneziaRunOnce, RunOnce, Run. cbn -[run_pages load_cursor finish cred_cursors cred_applier].
  assert (Hload : load_cursor AuthSyncCursorKey (cred_cursors peer_store) full w = (w, Ok (true, 0%Z))).
  { unfold load_cursor. destruct Hfull as [->|Hc]; [done|]. destruct full; [done|].
    cbn. unfold mbind, goM_bind, auth_LoadSyncCursor. cbn. rewrite Hc. by rewrite bool_decide_eq_true_2 by done. }
  rewrite Hload. destruct (run_pages _ _ _ _ _ _ w) as [[w1 [st|e]]|] eqn:E; [|done..].
  intros [= Hfin]. apply (pages_gathered w Hk) in E as [(_ & _ & Hg) [p Hp]]; [|by split_and!].
  apply (finish_exact w Hk _ _ p) in Hfin as (-> & Hsub & Hsup); [done|by apply Hg|done].
Qed.

(** *** The control plane behind the answers *)

(** [tick w] counts the requests so far; the control plane's database and clock
    when it answers the [n]-th are [server n] and [now n]. *)
Context (tick : W → nat) (server : nat → Server) (now : nat → time).

(** Only a request moves the count, and an answer that arrives is the one of
    that moment. *)
Record answer_laws : Prop := {
  an_put : ∀ d w, tick (put d w) = tick w;
  an_dump : ∀ w, tick (tl_ShowDump tools w).1 = tick w;
  an_set : ∀ k opts w, tick (tl_SetPeer tools k opts w).1 = tick w;
  an_remove : ∀ k w, tick (tl_RemovePeer tools k w).1 = tick w;
  an_prune : ∀ prune keys w, desired = Some prune → tick (prune keys w).1 = tick w;
  an_fetch : ∀ req w, let n := S (tick w) in
    tick (fetch req w).1 = n ∧
    ∀ m, (fetch req w).2 = Ok m → m = amnezia_answer nodeID (server n) (now n) req;
}.

(** The credentials of the node, as the control plane would serve them. *)
Definition peer_rows (s : Server) : gmap string (StoredConnection AmneziaWGSyncMaterial) :=
  match amneziawg_node_configs s !! nodeID with
  | Some config => delete "" (amnezia_rows s config nodeID)
  | None => ∅
  end.

(** At every answer the database is consistent and has the node with its
    settings, and the clock does not go back. *)
Record serves : Prop := {
  st_wf : ∀ n, server_wf (server n);
  st_node : ∀ n, ∃ node config, nodes (server n) !! nodeID = Some node ∧ nd_Type node = NodeTypeNativeAmneziaWG ∧
    amneziawg_node_configs (server n) !! nodeID = Some config;
  st_clock : ∀ n, (now n ≤ now (S n))%Z;
  st_range : ∀ n, (0 < TimeUnixMilli (now n) ≤ max_int64)%Z;
}.

Definition prows (n : nat) : gmap string (StoredConnection AmneziaWGSyncMaterial) := peer_rows (server n).
Definition ptime (n : nat) : Z := TimeUnixMilli (now n).

Definition pay (c : StoredConnection AmneziaWGSyncMaterial) : CredentialChange AmneziaCredential :=
  match buildAmneziaCredentialChange c with
  | Ok change => change
  | Err _ => mkCredentialChange "" CREDENTIAL_CHANGE_OP_UNSPECIFIED None
  end.
Definition user_of (c : CredentialChange AmneziaCredential) : AuthUser :=
  mkAuthUser (cc_ConnectionId c) (match cc_Payload c with Some p => ac_PublicKey p | None => "" end) "{}".

Context (Ha : answer_laws) (Hst : serves).

Lemma pay_build c : buildAmneziaCredentialChange c = Ok (pay c).
Proof. unfold pay, buildAmneziaCredentialChange. by destruct (sc_Active c). Qed.

Lemma peer_rows_id s id c : server_wf s → peer_rows s !! id = Some c →
  sc_ConnectionID c = id ∧ id ≠ "" ∧ cc_ConnectionId (pay c) = id.
Proof.
  unfold peer_rows. intros Hwf. case_match; [|by intros ?%lookup_empty_Some].
  intros [Hne Hc]%lookup_delete_Some. unfold amnezia_rows, node_rows in Hc. rewrite lookup_omap in Hc.
  apply bind_Some in Hc as (cn & Hcn & Hc). destruct (_ && _); [|done].
  apply bind_Some in Hc as (acc & _ & Hc). cbn in Hc. destruct (amneziawg_materials s !! cn_ID cn); [|done].
  injection Hc as <-. pose proof (wf_id _ Hwf _ _ Hcn). split_and!; [done|done|].
  unfold pay, buildAmneziaCredentialChange. by destruct (sc_Active _).
Qed.

Lemma wire_of_peers (page : list (StoredConnection AmneziaWGSyncMaterial)) started full :
  increasing sc_ConnectionID page → (∀ c, c ∈ page → cc_ConnectionId (pay c) = sc_ConnectionID c) →
  response_of_manifest (BuildSyncResponse nodeID (mkResponse started full (changes_of pay page))) =
  Ok (mkResponse started full (wire_page pay page)).
Proof.
  intros Hinc Hid. unfold response_of_manifest, BuildSyncResponse, changes_of, wire_page. simpl.
  do 2 f_equal. rewrite <-!list_fmap_compose. unfold SortChanges.
  apply sort_by_id_increasing. unfold increasing in *. rewrite <-list_fmap_compose.
  replace ((ch_ConnectionID ∘ (change_of_wire ∘ (ch_Payload ∘ (λ c, change_of c (pay c))))) <$> page)
    with (sc_ConnectionID <$> page); [done|].
  apply list_fmap_ext. intros i c Hc. simpl. symmetry. apply Hid. by eapply list_elem_of_lookup_2.
Qed.

(** The answer to a valid request is a page of the node's credentials. *)
Lemma answer_page n req :
  ValidatePageSize (rq_PageSize req) = Ok tt →
  let full := rq_Full req || (rq_SinceManifestStartedAtMS req =? 0)%Z in
  ∃ page, page_spec (peer_rows (server n)) full (rq_SinceManifestStartedAtMS req)
            (rq_FromConnectionID req) (rq_PageSize req) page ∧
    response_of_manifest (amnezia_answer nodeID (server n) (now n) req) =
      Ok (mkResponse (TimeUnixMilli (now n)) full (wire_page pay page)).
Proof.
  intros Hps. pose proof Hps as [Hps1 Hps2]%ValidatePageSize_Ok.
  unfold amnezia_answer, buildAuthManifestResponse. cbn [am_NodeId authManifestRequest].
  rewrite bool_decide_eq_true_2 by done. unfold BuildAuthManifestResponse, Handle.
  cbn -[BuildResponse ListSyncChanges uint32]. rewrite (bool_decide_eq_true_2 ("" = "")) by done.
  assert (Hu : uint32 (rq_PageSize req) = rq_PageSize req).
  { unfold uint32. apply Z.mod_small. unfold MaxPageSize in Hps2. lia. }
  rewrite Hu. destruct (st_node Hst n) as (node & config & Hn & Ht & Hcfg).
  destruct (amnezia_listing (server n) nodeID (rq_FromConnectionID req) config node (st_wf Hst n) Hcfg Hn Ht)
    as (l & Hlist & [Hinc Hin]).
  set (full := rq_Full req || _). cbv zeta.
  destruct (BuildResponse_page buildAmneziaCredentialChange pay (peer_rows (server n))
    (ListAmneziaWGSyncConnections (server n)) nodeID
    (mkRequest full (rq_SinceManifestStartedAtMS req) (rq_PageSize req) (rq_FromConnectionID req))
    (now n) l) as (page & Hpage & Hbuild); [|done|done| |].
  - split; intros id c Hc; [by destruct (peer_rows_id _ id c (st_wf Hst n) Hc)|apply pay_build].
  - split; [done|]. intros c. rewrite Hin. simpl. unfold peer_rows. rewrite Hcfg, lookup_delete_Some.
    split; [|naive_solver]. intros [Hc Hlt]. split_and!; [|done|done]. apply not_eq_sym. by eapply str_lt_nonempty.
  - exists page. split; [exact Hpage|]. rewrite Hbuild. apply wire_of_peers; [apply (ps_increasing _ _ _ _ _ _ Hpage)|].
    intros c (Hc & _)%(ps_sound _ _ _ _ _ _ Hpage). by destruct (peer_rows_id _ _ c (st_wf Hst n) Hc) as (_ & _ & ?).
Qed.

(** *** No call but a request moves the count *)
Definition still {A} (m : goM W A) : Prop := ∀ w, tick (m w).1 = tick w.

Lemma still_bind {A B} (m : goM W A) (f : A → goM W B) : still m → (∀ a, still (f a)) → still (m ≫= f).
Proof.
  intros Hm Hf w. unfold mbind, goM_bind. specialize (Hm w).
  destruct (m w) as [w1 [a|e]]; cbn in *; [by rewrite Hf|done].
Qed.
Lemma still_iter {A} (f : A → goM W unit) l : (∀ x, still (f x)) → still (iterM f l).
Proof. intros Hf w. unfold iterM. apply (foldlM_inv (fun w' => tick w' = tick w)); [|done]. intros _ x w1 _ <-. apply Hf. Qed.
Lemma still_ret {A} (r : result A) : still (liftM r).
Proof. done. Qed.

Lemma still_wrap {A} label (m : goM W A) : still m → still (Reconcile.wrapM label m).
Proof. intros Hm w. unfold Reconcile.wrapM. specialize (Hm w). by destruct (m w) as [w1 [a|e]]. Qed.

Lemma still_remove key : still (rc_RemovePeer reconciler key).
Proof. cbn. unfold Reconcile.RemovePeer. case_bool_decide; [done|]. apply still_wrap. intros w. apply (an_remove Ha). Qed.
Lemma still_upsert p : still (rc_UpsertPeer reconciler p).
Proof.
  cbn. unfold Reconcile.UpsertPeer. case_bool_decide; [done|]. apply still_bind; [apply still_ret|].
  intros allowed. apply still_wrap. intros w. apply (an_set Ha).
Qed.
Lemma still_prune keys : still (rc_PruneRuntimePeers reconciler keys).
Proof.
  cbn. unfold Reconcile.PruneRuntimePeers. apply still_bind; [exact (an_dump Ha)|]. intros dump.
  apply still_iter. intros k. case_bool_decide; [done|]. exact (an_remove Ha k).
Qed.
Lemma still_delete id : still (as_DeleteAuthUser peer_store id).
Proof.
  cbn. unfold persistent_DeleteAuthUser. apply still_bind; [done|]. intros users. apply still_bind.
  - apply still_iter. intros u. case_bool_decide; [apply still_remove|done].
  - intros _ w. apply (an_put Ha).
Qed.
Lemma still_snapshot keep cursor started : still (as_ApplyFullAuthSnapshot peer_store keep cursor started).
Proof.
  cbn. unfold persistent_ApplyFullAuthSnapshot. apply still_bind; [done|]. intros users. apply still_bind.
  { apply still_iter. intros u. case_match; [done|apply still_remove]. }
  intros _. cbv zeta. apply still_bind.
  { destruct desired as [prune|] eqn:E; [|done]. intros w. by apply (an_prune Ha). }
  intros _. apply still_bind; [apply still_prune|]. intros _ w. cbn. case_match; [apply (an_put Ha)|done].
Qed.

Lemma still_same {A} (m : goM W A) w :
  still m → db (m w).1 = db w → same db tick w (m w).1.
Proof. intros Hm Hd. split; [apply Hm|done]. Qed.

Lemma amnezia_fetch req w :
  let '(w', r) := FetchSyncPage fetch req w in
  db w' = db w ∧ tick w' = S (tick w) ∧
  ∀ resp, r = Ok resp → ValidatePageSize (rq_PageSize req) = Ok tt →
    let full := rq_Full req || (rq_SinceManifestStartedAtMS req =? 0)%Z in
    ∃ page, page_spec (prows (tick w')) full (rq_SinceManifestStartedAtMS req)
              (rq_FromConnectionID req) (rq_PageSize req) page ∧
      resp = mkResponse (ptime (tick w')) full (wire_page pay page).
Proof.
  unfold FetchSyncPage, mbind, goM_bind. destruct (tl_fetch Hl req w) as [[Hd _] _]. destruct (an_fetch Ha req w) as [Ht Hm].
  destruct (fetch req w) as [w1 [m|e]]; cbn [fst snd liftM] in *; split_and!; try done.
  intros resp Hr Hps. rewrite (Hm _ eq_refl) in Hr.
  destruct (answer_page (S (tick w)) req Hps) as (page & Hpage & Heq). rewrite Heq in Hr. injection Hr as <-.
  exists page. unfold prows, ptime. by rewrite Ht.
Qed.

Lemma amnezia_promises :
  promises db tick prows ptime peer_store (amneziaRuntime reconciler) (FetchSyncPage fetch) pay user_of.
Proof.
  constructor.
  - intros key w. eexists. split; [reflexivity|]. destruct (GetState key (db w)); [done|]. by intros ->.
  - intros key v w. unfold wrote, stays. cbn. by rewrite (an_put Ha), (proj1 (tl_put Hl _ _)).
  - intros w. eexists. split; [reflexivity|]. by intros l [= <-].
  - intros u w. unfold wrote, stays. cbn. destruct (UpsertAuthUser u (db w)) as [d|e]; cbn; [|done].
    by rewrite (an_put Ha), (proj1 (tl_put Hl _ _)).
  - intros id w. pose proof (delete_spec id w) as [Hd _]. pose proof (still_delete id w) as Ht.
    unfold wrote, stays. rewrite Ht. split; [done|].
    destruct (as_DeleteAuthUser peer_store id w) as [w' [[]|e]]; cbn [fst snd] in *; [by destruct Hd as [-> _]|done].
  - intros keep key ms w. pose proof (peer_snapshot_spec keep key ms w) as Hd. pose proof (still_snapshot keep key ms w) as Ht.
    unfold wrote, stays. rewrite Ht. split; [done|].
    destruct (as_ApplyFullAuthSnapshot peer_store keep key ms w) as [w' [[]|e]]; cbn [fst snd] in *; [by destruct Hd as [-> _]|done].
  - intros c w. destruct (upsert_spec (cc_Payload c) w) as (Hd & _ & _). pose proof (still_same _ w (still_upsert (cc_Payload c)) Hd) as Hs.
    cbn in Hs |- *. unfold mbind, goM_bind. destruct (Reconcile.UpsertPeer _ _ w) as [w1 [[]|e]]; cbn in *; [|done].
    split; [done|]. by intros u [= <-].
  - intros u w. apply (still_same (rc_RemovePeer reconciler (u_NativeAuthID u))); [apply still_remove|]. apply (remove_takes _ w).
  - intros keep w. apply (still_same (rc_PruneRuntimePeers reconciler (native_keys keep))); [apply still_prune|].
    apply (prune_takes (native_keys keep) w).
  - apply amnezia_fetch.
  - apply (st_range Hst).
  - intros n. apply TimeUnixMilli_mono, (st_clock Hst).
  - intros n id c Hc. destruct (peer_rows_id _ id c (st_wf Hst _) Hc) as (Hid & Hne & Hcc). split_and!; [done..| |done].
    unfold pay, buildAmneziaCredentialChange. by destruct (sc_Active c).
Qed.

(** The peer an active credential should have. *)
Definition wanted_peer (c : StoredConnection AmneziaWGSyncMaterial) : option string :=
  if sc_Active c then Some (TrimSpace (am_ClientPublicKey (sm_Material (sc_Material c)))) else None.

(** No key of a connection in [V] belongs to another connection in [t]. *)
Definition keys_in_place (t : gmap string AuthUser) (V : gmap string (StoredConnection AmneziaWGSyncMaterial)) : Prop :=
  ∀ id u id' c, t !! id = Some u → V !! id' = Some c → wanted_peer c = Some (peer_of u) → id' = id.

(** The users of the credentials [V] have their keys. *)
Lemma wanted_user (V : gmap string (StoredConnection AmneziaWGSyncMaterial)) (t : gmap string AuthUser) id u :
  (∀ id, t !! id = V !! id ≫= want pay user_of) → t !! id = Some u →
  ∃ c, V !! id = Some c ∧ wanted_peer c = Some (u_NativeAuthID u) ∧ peer_of u = u_NativeAuthID u.
Proof.
  intros Ht Hu. rewrite Ht in Hu. apply bind_Some in Hu as (c & Hc & Hu). exists c. split; [done|].
  unfold want, wanted_peer, pay, buildAmneziaCredentialChange, peer_of in *. destruct (sc_Active c); [|done].
  injection Hu as <-. cbn. split; [done|apply TrimSpace_idem].
Qed.

Lemma native_keys_wanted (V : gmap string (StoredConnection AmneziaWGSyncMaterial)) (t : gmap string AuthUser) k :
  (∀ id, t !! id = V !! id ≫= want pay user_of) →
  k ∈ native_keys t ↔ ∃ id c, V !! id = Some c ∧ wanted_peer c = Some k.
Proof.
  intros Ht. rewrite native_keys_elem. split.
  - intros (id & u & Hu & <-). destruct (wanted_user V t id u Ht Hu) as (c & Hc & Hw & _). by exists id, c.
  - intros (id & c & Hc & Hw). exists id. unfold wanted_peer in Hw. destruct (sc_Active c) eqn:E; [|done]. injection Hw as <-.
    rewrite Ht, Hc. cbn. unfold want. rewrite E. eexists. split; [done|].
    unfold pay, buildAmneziaCredentialChange. by rewrite E.
Qed.

Lemma in_place_own (t t' : gmap string AuthUser) (V : gmap string (StoredConnection AmneziaWGSyncMaterial)) :
  (∀ id, t' !! id = V !! id ≫= want pay user_of) → keys_in_place t V → own_peers t t'.
Proof.
  intros Ht Hk id u id' u' Hu Hu' Heq. destruct (wanted_user V t' id' u' Ht Hu') as (c & Hc & Hw & Hp).
  symmetry. eapply Hk; [done|done|]. by rewrite Hw, <-Hp, Heq.
Qed.
End Peers.

(** ** What holds *)

(** C7. A full pass of an AmneziaWG agent ends, whatever state the agent is in;
    and when it succeeds, no peer is left on the WireGuard interface that is not
    the key of a user in the agent's table, whatever was there before.  If
    moreover the control plane has the same connections of the node at every
    answer of the pass, and the key of none of them was, in the agent's table
    before the pass, that of another connection (the control plane has a unique
    index on the keys of a node), then the peers of the interface are exactly
    the keys of the active connections of the node.  A pass is full when it is
    asked to be or when the agent has no cursor; the identifiers of connections
    come from a finite set, each row of the agent's table is under its
    connection's identifier, the node exists with its settings and the control
    plane's clock does not go back. *)
Theorem full_pass_exact_peers {W} (db : W → DB) put peers (tools : Tools W) desired nodeID fetch tick server now
    (X : gset string) fuel full w :
  tool_laws db put peers tools desired nodeID fetch →
  answer_laws put tools desired nodeID fetch tick server now →
  serves nodeID server now →
  (∀ n, dom (peer_rows nodeID (server n)) ⊆ X) → size X < fuel →
  users_keyed (auth_users (db w)) →
  runs_full db full w →
  ∃ w' r, AmneziaRunOnce db put tools desired fetch fuel full w = Some (w', r) ∧
  (r = Ok tt →
    (∀ k, k ∈ peers w' → ∃ id u, auth_users (db w') !! id = Some u ∧ u_NativeAuthID u = k) ∧
    ((∀ id, steady (prows nodeID server) (S (tick w)) (tick w') id) →
      keys_in_place (auth_users (db w)) (peer_rows nodeID (server (tick w'))) →
      ∀ k, k ∈ peers w' ↔ ∃ id c, peer_rows nodeID (server (tick w')) !! id = Some c ∧ wanted_peer c = Some k)).
Proof.
  intros Hl Ha Hst HX Hfuel Hk Hfull.
  pose proof (amnezia_promises db put peers tools desired nodeID fetch Hl tick server now Ha Hst) as Hp.
  destruct (run_terminates _ _ _ _ _ _ _ _ _ Hp X HX fuel full w Hfuel) as [[w' r] Hrun].
  exists w', r. split; [exact Hrun|]. intros ->.
  destruct (full_pass_peers db put peers tools desired nodeID fetch Hl fuel full w w' Hk Hfull Hrun) as [Hsub Hsup].
  split; [intros k ?%Hsub; by apply native_keys_elem|]. intros Hquiet Hplace k.
  destruct (run_follows _ _ _ _ _ _ _ _ _ Hp False 0 fuel full w w' (Ok tt)) as (_ & _ & Hr); [done| |exact Hrun|].
  { destruct Hfull as [->|Hc]; [by left|right; left]. unfold cursor_of. by rewrite Hc. }
  assert (Ht : ∀ id, auth_users (db w') !! id = peer_rows nodeID (server (tick w')) !! id ≫= want pay user_of)
    by (intros id; apply (proj2 (Hr eq_refl)); by split).
  rewrite <-(native_keys_wanted _ _ k Ht). split; [apply Hsub|apply Hsup]. by eapply in_place_own.
Qed.

(** Every peer of a user known in [w] that is on the interface in [w'] is, in
    [w'], still the peer of a user. *)
Definition accounted {W} (db : W → DB) (peers : W → gset string) (w w' : W) : Prop :=
  ∀ id u, auth_users (db w) !! id = Some u → peer_of u ∈ peers w' →
  ∃ id' u', auth_users (db w') !! id' = Some u' ∧ peer_of u' = peer_of u.

(** C8. The agent forgets a user only after its peer has left the interface.
    Deleting a user and applying a full snapshot may fail at any call; however
    they end, a peer of a known user that is still on the interface still has
    its row.  A deletion that succeeds has removed the row and the peer, and no
    deletion removes the peer of another user. *)
Theorem row_outlives_peer {W} (db : W → DB) put peers (tools : Tools W) desired nodeID fetch w :
  tool_laws db put peers tools desired nodeID fetch → users_keyed (auth_users (db w)) →
  (∀ id w' r, as_DeleteAuthUser (peer_store db put tools desired) id w = (w', r) →
    accounted db peers w w' ∧
    (r = Ok tt → auth_users (db w') = delete id (auth_users (db w)) ∧
       ∀ u, auth_users (db w) !! id = Some u → peer_of u ∉ peers w') ∧
    ∀ k, k ∈ peers w → (∀ u, auth_users (db w) !! id = Some u → peer_of u ≠ k) → k ∈ peers w') ∧
  (∀ keep cursor started w' r, users_keyed keep →
    as_ApplyFullAuthSnapshot (peer_store db put tools desired) keep cursor started w = (w', r) →
    accounted db peers w w' ∧ (r = Ok tt → auth_users (db w') = keep)).
Proof.
  intros Hl Hk. split.
  - intros id w' r E. pose proof (delete_spec db put peers tools desired nodeID fetch Hl id w) as (Hr & _ & Hleft).
    rewrite E in Hr, Hleft. cbn [fst snd] in *.
    assert (Hin : ∀ u, u ∈ ListAuthUsers (db w) ∧ u_ConnectionID u = id ↔ auth_users (db w) !! id = Some u).
    { intros u. rewrite ListAuthUsers_elem. split; [|naive_solver]. intros [[id' Hu] Hid]. by rewrite <-Hid, (Hk _ _ Hu). }
    split_and!.
    + intros id' u Hu Hpeer. exists id', u. split; [|done]. destruct r as [[]|e]; [|by rewrite Hr].
      destruct Hr as [-> Hgone]. destruct (decide (id' = id)) as [->|Hne]; [|by apply lookup_delete_Some].
      apply Hin in Hu as [Hu Hid]. by destruct (Hgone u Hu Hid).
    + intros ->. destruct Hr as [-> Hgone]. split; [done|]. intros u [Hu Hid]%Hin. by apply Hgone.
    + intros k Hpeer Hother. destruct (Hleft k Hpeer) as [|(u & Hu & Hid & ->)]; [done|].
      exfalso. apply (Hother u); [|done]. by apply Hin.
  - intros keep cursor started w' r Hkeep E.
    pose proof (peer_snapshot_spec db put peers tools desired nodeID fetch Hl keep cursor started w) as Hr.
    rewrite E in Hr. cbn [fst snd] in *. destruct r as [[]|e].
    + destruct Hr as ([Hu _]%ApplyFullAuthSnapshot_Ok & Hsub & _); [|done]. split; [|done].
      intros id u _ (id' & u' & Hu' & Hn)%Hsub%native_keys_elem. exists id', u'. rewrite Hu. split; [done|].
      unfold peer_of. rewrite Hn. apply TrimSpace_idem.
    + split; [|done]. intros id u Hu _. exists id, u. by rewrite Hr.
Qed.

(** ** An interface *)
Record pworld := mkPWorld {
  pw_db : DB;
  pw_peers : gset string;
  pw_tick : nat;
}.
Definition pw_put (d : DB) (w : pworld) : pworld := mkPWorld d (pw_peers w) (pw_tick w).
Definition pw_tools : Tools pworld := mkTools
  (fun w => (w, Ok (elements (pw_peers w))))
  (fun k _ w => (mkPWorld (pw_db w) ({[k]} ∪ pw_peers w) (pw_tick w), Ok tt))
  (fun k w => (mkPWorld (pw_db w) (pw_peers w ∖ {[k]}) (pw_tick w), Ok tt))
  (fun _ w => (w, Ok tt)).
Definition pw_server (n : nat) : Server := demo_awg.
Definition pw_now (n : nat) : time := at_ms 2000.
Definition pw_fetch (req : Request) : goM pworld (ManifestResponse (CredentialChange AmneziaCredential)) := fun w =>
  (mkPWorld (pw_db w) (pw_peers w) (S (pw_tick w)), Ok (amnezia_answer "awg" demo_awg (at_ms 2000) req)).

Lemma pw_tool_laws : tool_laws pw_db pw_put pw_peers pw_tools None "awg" pw_fetch.
Proof.
  constructor; cbn; try done.
  - intros w. split; [done|]. intros l [= <-]. apply list_to_set_elements_L.
  - intros k _ w. split_and!; [done|set_solver..].
  - intros k w. split_and!; [done|set_solver| |set_solver]. intros x Hx. destruct (decide (x = k)); set_solver.
  - intros req w. split; [done|]. intros m [= <-]. eauto.
Qed.

Lemma pw_answer_laws : answer_laws pw_put pw_tools None "awg" pw_fetch pw_tick pw_server pw_now.
Proof. constructor; cbn; try done. intros req w. split; [done|]. by intros m [= <-]. Qed.

Lemma pw_serves : serves "awg" pw_server pw_now.
Proof.
  constructor; intros n.
  - apply exec_ops_wf, server_wf_empty.
  - assert (H : match nodes demo_awg !! "awg", amneziawg_node_configs demo_awg !! "awg" with
        Some node, Some config => nd_Type node = NodeTypeNativeAmneziaWG | _, _ => False end) by (vm_compute; reflexivity).
    unfold pw_server. destruct (nodes demo_awg !! "awg") as [node|], (amneziawg_node_configs demo_awg !! "awg") as [config|]; naive_solver.
  - done.
  - by vm_compute.
Qed.

(** A user who has gone and a stranger are on the interface. *)
Definition pw_start : pworld :=
  mkPWorld (mkDB {["con-x" := mkAuthUser "con-x" "old-key" "{}"]} ∅ ∅) {["old-key"; "stranger"]} 0.
Definition pw_run : option (pworld * result unit) := AmneziaRunOnce pw_db pw_put pw_tools None pw_fetch 2 true pw_start.

Example pw_run_sample :
  match pw_run with Some (w, Ok _) => elements (pw_peers w) | _ => [] end = [am_ClientPublicKey demo_peer].
Proof. vm_compute. reflexivity. Qed.

Lemma pw_ids n : dom (peer_rows "awg" (pw_server n)) ⊆ ({["con-z"]} : gset string).
Proof. unfold pw_server. apply (bool_decide_unpack (dom (peer_rows "awg" demo_awg) ⊆ ({["con-z"]} : gset string))). vm_compute. exact I. Qed.

Lemma pw_start_keyed : users_keyed (auth_users (pw_db pw_start)).
Proof. intros id u. cbn. rewrite lookup_singleton_Some. by intros [<- <-]. Qed.

Definition pw_end : pworld := match pw_run with Some (w, _) => w | None => pw_start end.
Lemma pw_run_Ok : pw_run = Some (pw_end, Ok tt).
Proof.
  unfold pw_end. assert (H : match pw_run with Some (_, Ok _) => true | _ => false end = true) by (vm_compute; reflexivity).
  destruct pw_run as [[w [[]|e]]|]; [reflexivity|discriminate H..].
Qed.
Lemma pw_end_users : auth_users (pw_db pw_end) = {["con-z" := mkAuthUser "con-z" "Y2xpZW50" "{}"]}.
Proof. vm_compute. reflexivity. Qed.
Lemma pw_in_place n : keys_in_place (auth_users (pw_db pw_start)) (peer_rows "awg" (pw_server n)).
Proof.
  intros id u id' c Hu Hc. cbn in Hu. apply lookup_singleton_Some in Hu as [<- <-]. revert id' c Hc. unfold pw_server.
  assert (H : map_Forall (fun _ c => wanted_peer c ≠ Some (peer_of (mkAuthUser "con-x" "old-key" "{}"))) (peer_rows "awg" demo_awg))
    by (apply (bool_decide_unpack _); vm_compute; exact I).
  intros id' c Hc Hw. by destruct (H id' c Hc).
Qed.

Lemma full_pass_exact_peers_witness :
  pw_run = Some (pw_end, Ok tt) ∧
  ∀ k, k ∈ pw_peers pw_end ↔ ∃ id c, peer_rows "awg" demo_awg !! id = Some c ∧ wanted_peer c = Some k.
Proof.
  split; [exact pw_run_Ok|].
  destruct (full_pass_exact_peers pw_db pw_put pw_peers pw_tools None "awg" pw_fetch pw_tick pw_server pw_now {["con-z"]} 2 true pw_start
    pw_tool_laws pw_answer_laws pw_serves pw_ids) as (w' & r & Hrun & Hok).
  - vm_compute. lia.
  - exact pw_start_keyed.
  - left. reflexivity.
  - change (pw_run = Some (w', r)) in Hrun. rewrite pw_run_Ok in Hrun. apply (inj Some), pair_equal_spec in Hrun as [<- <-].
    exact (proj2 (Hok eq_refl) (fun _ _ _ => eq_refl) (pw_in_place 0)).
Defined.

Lemma row_outlives_peer_witness :
  accounted pw_db pw_peers pw_start (as_DeleteAuthUser (peer_store pw_db pw_put pw_tools None) "con-x" pw_start).1 ∧
  auth_users (pw_db (as_DeleteAuthUser (peer_store pw_db pw_put pw_tools None) "con-x" pw_start).1) = ∅.
Proof.
  destruct (row_outlives_peer pw_db pw_put pw_peers pw_tools None "awg" pw_fetch pw_start pw_tool_laws pw_start_keyed) as [H _].
  destruct (H "con-x" (as_DeleteAuthUser (peer_store pw_db pw_put pw_tools None) "con-x" pw_start).1 (Ok tt)) as [H1 [H2 _]].
  - vm_compute. reflexivity.
  - split; [exact H1|]. rewrite (proj1 (H2 eq_refl)). apply delete_singleton_eq.
Defined.

(** A key that has moved to another connection is taken off the interface with
    its old user: the pass succeeds without the peer. *)
Definition pw_moved : pworld :=
  mkPWorld (mkDB {["con-x" := mkAuthUser "con-x" (am_ClientPublicKey demo_peer) "{}"]} ∅ ∅) {[am_ClientPublicKey demo_peer]} 0.

Theorem moved_key_lost :
  match AmneziaRunOnce pw_db pw_put pw_tools None pw_fetch 2 true pw_moved with
  | Some (w, Ok _) => dom (auth_users (pw_db w)) = {["con-z"]} ∧ pw_peers w = ∅
  | _ => False
  end.
Proof. vm_compute. split; reflexivity. Qed.
